(* ===== verification/_CoqProject ===== *)
-Q . S2P
Prelude.v
GoLib.v
Types.v
Float64.v
DynamicContent.v
Capabilities.v
DynamicInteraction.v
DynamicAction.v
MemoryState.v
MemoryAccounts.v
MemoryMessages.v
MemoryGroups.v
Prog.v
SqlReads.v
Vault.v
VaultProps.v
Gateway.v
GatewayGroups.v
GatewayAccounts.v
GatewayMessages.v
GatewayReads.v
GatewayEvents.v
GatewaySend.v
MessageFacts.v
StoreSteps.v
GroupFacts.v
IdempotencyFacts.v
MessageReads.v
GatewayFacts.v
HandlerFacts.v
InteractionFacts.v
Demo.v
DynamicLock.v
MessageProps.v
AccountProps.v
GatewayProps.v
DeliveryProps.v
AuthorityProps.v
ScenarioProps.v
InteractionProps.v
ContentProps.v
FairyTypes.v
RuneFacts.v
FairyTrace.v
FairyStats.v
FairyTraceFacts.v
JsonText.v
FairySchema.v
FairySensitive.v
FairySensitiveProps.v
FairySchemaProps.v
FairyTools.v
FairyToolsProps.v
FairyPlugins.v
FairyPluginHost.v
FairyPluginFacts.v
FairyPluginProps.v
FairyModel.v
FairyModelAttempt.v
FairyModelRouter.v
FairyModelProps.v
FairyAgent.v
FairyAgentProps.v
FairyFacts.v
FairyFactsProps.v
FairyState.v
FairyStateProps.v
FairyGate.v
FairyGateProps.v
FairyContext.v
FairyContextProps.v
FairyEngine.v
FairyTurn.v
FairyTurnProps.v
FairyOutbound.v
FairyOutboundProps.v
FairyScheduler.v
FairySchedulerFacts.v
FairySchedulerProps.v
FairySchedulerLive.v
