(* ===== verification/Prelude.v ===== *)
(** * The ZZZ IM server: a verification development

    This library models the Go server of the repository (src/server) and proves what
    makes it correct: the store that keeps the messaging state, the gateway that
    serves the requests of WebSocket connections over it, the card ("dynamic
    content") language with its interactions, and the assistant (Fairy), a client of
    the gateway that answers messages.

    ** Parts and how they interact

    A connection sends requests to the gateway ([GatewaySend.handleRequest], the
    53 actions of gateway.go).  A handler checks the request, reads and changes the
    store through its operations, answers, and puts events in the send queues of the
    connections of the users concerned.  Every store operation holds the store's
    mutex from beginning to end, and so does every critical section of the gateway;
    both are single atomic steps here, and a handler is a program over such steps
    ([Prog.prog]).  [Prog.pool_steps] interleaves the programs of any number of
    goroutines, so an invariant proved with [Prog.always] holds in every concurrent
    execution; [Prog.run] executes one program alone.

    ** Files

    Shared:
    - [Prelude]: record update, results, lists as slices, maps, automation;
    - [GoLib]: strings, runes, integers, time, JSON values, sorting, and the class
      [Runtime] of what is not computed (clock, random source, SHA-256, bcrypt, JSON
      texts, URL parsing, case tables, fmt verbs);
    - [Float64]: float64 arithmetic over the Standard Library's [SpecFloat];
    - [Types] (store/store.go, protocol/protocol.go): the stored records;
    - [Prog]: handlers as programs, runs, interleavings, the invariant rule;
    - [Demo]: a concrete [Runtime] on which the witnesses evaluate.

    The in-memory store (store/memory.go and the files beside it):
    - [MemoryState] the fields of MemoryStore; users and messages live in heaps, since
      callers keep pointers to them;
    - [MemoryAccounts] users, sessions, friends, titles, blocks, reports, terminal
      sessions, media records, push subscriptions, statistics;
    - [MemoryMessages] conversations, messages, idempotency records, reactions, card
      updates and interaction events, read cursors, forwards;
    - [MemoryGroups] groups, members, announcements;
    - [SqlReads] the read cursors of the SQL stores, over tables, with statements that
      fail; what a database keeps of a timestamp is the class [TimeColumn];
    - [Vault] the terminal vault of the three stores against one contract (a class).

    Cards:
    - [DynamicContent] (gateway/dynamic_content.go) validation, lookup, patches;
    - [Capabilities] (gateway/dynamic_capabilities.go) negotiation, per-client rewriting;
    - [DynamicInteraction] (gateway/dynamic_interaction.go) configuration, policy,
      reducers, projection; [DynamicAction] the declarative actions of nodes;
    - [DynamicLock] (gateway.go, lockDynamicMessageUpdate) the counted mutex per message.

    The gateway (gateway/gateway.go, profile_cards.go, group_announcements.go,
    terminal_vault.go): [Gateway] connections, send queues, broadcasts, access checks;
    [GatewayGroups], [GatewayAccounts], [GatewayMessages], [GatewayReads],
    [GatewayEvents], [GatewaySend] the handlers, and [GatewaySend] the table of requests.

    The assistant (fairy/):
    - [FairyTypes] (client.go, engine.go, media_input.go, gate.go) events, decisions,
      labels, the text and the commands of a message;
    - [FairyTrace] (trace_store.go) the trace database: validated events, claims,
      pruning, feedback (feedback_store.go); [FairyStats] (trace_decision.go and the
      statistics of trace_store.go);
    - [FairyScheduler] (scheduler.go) queues, actors, slots, shutdown, as critical
      sections and a step relation;
    - [FairySensitive] (sensitive.go) the filter for credentials: its patterns, parsed and
      matched; [FairyFacts] (fact_memory.go) facts that users ask to be remembered;
    - [FairyState] (state.go) switches and quotas, and the JSON document they are saved to;
    - [FairyGate] (gate.go) which messages are answered, and who has the focus of a group;
    - [FairyContext] (context.go) the memory of a conversation and its summaries;
    - [FairyOutbound] (outbound.go, client.go) sending a reply in several attempts;
    - [JsonText] the JSON texts of the Go library (encoding/json): reading and writing;
    - [FairySchema] (tool.go, toolSchema) the schemas of tools, read from their texts,
      compiled, and applied to values; the class [Regexps] stands for regexp.Compile;
    - [FairyTools] (tool.go) the registry of tools, policies, and the calls of a session;
    - [FairyPlugins] (plugin_runtime.go) manifests, the scopes through which plugins
      register what they contribute, the capabilities and hooks they share, starting and
      stopping a module; [FairyPluginHost] loading in the order of the dependencies,
      unloading, reloading, closing;
    - [FairyModel] (model.go, media_fetch.go) requests to language models and what is
      accepted of their answers, failures, delays, costs; [FairyModelAttempt] (model.go,
      model_anthropic.go) the documents that are posted to two kinds of providers and how
      an answer is read; [FairyModelRouter] (model.go) the choice of the model, with
      retries, fallbacks and an event per attempt; contexts, the HTTP client and the clock
      are the class [ModelWorld];
    - [FairyAgent] (agent.go, and the prompt of behavior_experience.go) what may be said to
      a user (ApplyOutputPolicy), what a planner may decide, the messages for planner and
      replyer, and the loop of plans, calls of tools between their hooks, and replies; its
      model is any with the interface of [FairyModelRouter], its tools those of [FairyTools],
      its hooks and prompt sections those of [FairyPluginHost];
    - [FairyEngine] (engine.go, and the selection of behavior_experience.go) the engine,
      which owns the parts above: its data, its state monad [M], the replies, and the
      management commands with their guards; the messenger, the files of the stores and
      fetched media are the class [EngineWorld]; [FairyTurn] (engine.go, media_fetch.go)
      its turns, HandleMessage and HandleDynamicEvent: hooks, gate, commands, rate limit,
      plugins, images and voice, the chat or the agent, what is remembered.
    A message of a conversation reaches the runner, which asks the gate, submits a turn to
    the scheduler; the turn asks the gate again, reads the switches, the two memories and
    the quotas, and replies through the outbound messenger.

    A function of the Go code keeps its name; a field [F] of a struct [S] is the
    projection [S_F].  A Go pointer or interface that may be nil is an [option], a pair
    of a value and an error a [result].

    ** Theorems

    - The store: [StoreSteps] lists its operations as a transition system;
      [MessageFacts], [GroupFacts], [MessageProps], [AccountProps]
      prove its invariants (messages, groups, friendships, titles) over every sequence
      of operations, idempotent sending and what its records point to, pagination,
      reactions, read cursors; the SQL cursors against them.
    - [VaultProps]: the vaults meet one contract, and where PostgreSQL does not; when a
      stale write is refused, among writes and deletions of other devices.
    - [GatewayFacts], [HandlerFacts]: one lemma per handler and per request, that it
      preserves the gateway's invariant; [GatewayProps] draws the conclusion for every
      interleaving of connections.
    - [AuthorityProps]: who may change what.  [DeliveryProps]: who receives what.
    - [ContentProps]: what a validated card is, lookup, rewriting for clients.
    - [InteractionFacts], [InteractionProps]: what the reducers count, policies,
      the record of events, visibility, and interactions that go wrong.
    - [ScenarioProps]: races between two devices, and requests that do what they should
      not, as runs of the model.
    - [FairyTraceFacts]: the trace database over every sequence of its operations:
      consistent statistics, events read back, exclusive claims, counted votes.
    - [FairySchedulerFacts] the invariant of the scheduler over every interleaving;
      [FairySchedulerProps] exclusion, order, limits, stop commands;
      [FairySchedulerLive] draining, shutdown, and the composition with the trace
      database, and a concrete scheduler.
    - [RuneFacts]: UTF-8 encoding followed by decoding, texts cut to a number of runes.
    - [FairySensitiveProps]: the matcher against the language of expressions, and the
      filter against the shapes of credentials, written without expressions.
      [FairyFactsProps]: limits and isolation of the fact memory, over every sequence of
      its operations.
    - [FairyStateProps]: the file and the memory agree, failed changes are undone, quotas
      hold across failures and restarts.
    - [FairyGateProps]: what the gate decides and keeps, over every history.
    - [FairyContextProps]: the conversation memory against a log that never forgets.
    - [FairyOutboundProps]: counters of replies, and the composition with the in-memory
      store of the server: a reply is stored at most once.
    - [FairySchemaProps]: the compiled validator decides the meaning of a schema.
      [FairyToolsProps]: which calls run a tool, what a result has passed, how many calls
      a session has, and the trace of every call.
    - [FairyPluginFacts]: the order of the plugins is topological, or there is a cycle, a
      plugin that is missing, or a factory that returns nil; the effects of scopes;
      [FairyPluginProps] the invariant of the host over its operations.
    - [FairyModelProps]: exact costs, bounded exchanges, checked answers, and that the
      trace store takes the event of every attempt.
    - [FairyAgentProps]: what an accepted reply is; where the text of a run comes from; how
      often a run asks the model and runs tools; the form of the requests it makes, as an
      equality of runs with models that agree on such requests.
    - [FairyTurnProps]: judgements on programs of the engine (what they say, which states
      they relate, what they cannot read), closed under its constructions: a turn says at
      most one thing, keeps to the memory and the facts of its conversation, obeys the
      admins of a group, keeps credentials and closed accounts from the model, whatever
      plugins, tools and models do; accepted requests keep their distance.

    ** Bounds and fuel

    [validateDynamicNode] and [validateDynamicValues] take fuel 12 ([dynamic_fuel]): the
    depth limit of the code (10) refuses a deeper value first
    ([ContentProps.validation_fuel_enough]).  The walks over card trees take the height
    of the tree ([json_height]).  Decoding a string takes its length, since every step
    consumes a byte.  Message counters wrap at 64 bits as in Go.  The parser of patterns
    takes four steps per rune ([FairySensitive.patterns_compile] shows it reads them all).
    The loops of the model router and of the agent count down the iterations that the code
    allows.  A JSON text is read with two steps per byte and two more.  A visit of the plugins
    takes one step more than there are plugins, since each visit marks one
    ([FairyPluginFacts.dependency_order_is_topological] shows it never runs out).

    ** Not modelled, and why

    - The SQL stores but for read cursors and vaults, and the Redis cache: their
      operations are SQL texts; the gateway's theorems are about the in-memory store.
    - Media storage, the push sender, the HTTP administration server, command lines:
      calls of libraries and of the operating system.  The gateway sees the first two
      through parameters.
    - Of the assistant: the configuration and its validation (the engine's part of it is a
      record), the tools and plugins that the assistant ships (the model runs any),
      process-isolated plugins, tool servers, the download of a medium, and the runner,
      which connects, reconnects and wires the parts.  The engine is modelled one turn at a
      time: the scheduler lets one turn of a conversation run; turns of other conversations
      meet it in stores whose operations are atomic.
    - A plugin's module uses its scope only while it registers: one that keeps the scope is
      shown to register after its stop, and is outside the histories of [FairyPluginProps].
    - A document of the assistant is a JSON value, not its text: texts in it are valid UTF-8.
      In the answer of a language model, a member that the code keeps raw is the canonical
      text of its value, and an array that occurs twice starts anew the second time.
    - The Flutter client: another language.
    - A nil map and an empty map of a message segment are not distinguished; the order
      of Go's map iteration is the order of [gmap]; of several errors met in one such
      loop the model returns one.
    - The mutex per message is modelled by itself in [DynamicLock]; the handlers'
      programs do not take it, so they have more interleavings than the server. *)
From stdpp Require Import gmap strings list fin_maps pretty.
From Stdlib Require Import ZArith.

(** ** Record update

    Go mutates struct fields in place; the model rebuilds the record.  Each
    record declares its eta expansion once ([Eta]); the update of any field is
    then derived by abstracting that projection out of the expansion. *)
Class Eta (R : Type) := eta_expand : R -> R.
Class FieldUpdate {R T : Type} (proj : R -> T) :=
  field_update : (T -> T) -> R -> R.
#[export] Hint Mode Eta ! : typeclass_instances.

Ltac derive_field_update :=
  match goal with
  | |- @FieldUpdate ?R ?T ?proj =>
      let e := eval hnf in (@eta_expand R _) in
      lazymatch eval pattern proj in e with
      | (fun _ => ?same) _ => fail "the expansion does not mention" proj
      | ?build _ =>
          let u := eval cbv beta in
            (fun (f : T -> T) (r : R) => build (fun r' : R => f (proj r')) r) in
          exact u
      end
  end.
#[export] Hint Extern 1 (FieldUpdate _) => derive_field_update : typeclass_instances.

Declare Scope go_scope.
Delimit Scope go_scope with go.
Notation "r <| f ::= u |>" := (@field_update _ _ f _ u r)
  (at level 1, f at next level, left associativity) : go_scope.
Notation "r <| f := v |>" := (@field_update _ _ f _ (fun _ => v) r)
  (at level 1, f at next level, left associativity) : go_scope.
#[global] Open Scope go_scope.

(** ** Results

    A Go function returning [(T, error)]: exactly one of the two is used. *)
Inductive result (A : Type) : Type :=
| Ok (a : A)
| Err (e : string).
Arguments Ok {A} _.
Arguments Err {A} _.

#[export] Instance result_eq_dec `{EqDecision A} : EqDecision (result A).
Proof. solve_decision. Defined.

(** a pair, by its first component *)
Lemma pair_by_fst {A B} (p : A * B) (a : A) : p.1 = a -> p = (a, p.2).
Proof. by destruct p; intros <-. Qed.

Definition is_ok {A} (r : result A) : bool := match r with Ok _ => true | Err _ => false end.

(** ** Hint databases

    [zzz] collects the lemmas that close the routine side goals of the
    development (membership after an update, preservation by an operation);
    [zrw] the equations [autorewrite] uses to normalise lookups. *)
Create HintDb zzz discriminated.
Create Rewrite HintDb zrw.

#[export] Hint Rewrite @lookup_insert_eq @lookup_delete_eq @lookup_empty
  @length_app @length_fmap : zrw.

(** ** Automation *)

(** Case analysis on the innermost [match]/[if] of a hypothesis or the goal. *)
Ltac case_in H :=
  match type of H with
  | context [match ?x with _ => _ end] =>
      lazymatch x with
      | context [match _ with _ => _ end] => fail
      | _ => let E := fresh "E" in destruct x eqn:E
      end
  end.
Ltac case_goal :=
  match goal with
  | |- context [match ?x with _ => _ end] =>
      lazymatch x with
      | context [match _ with _ => _ end] => fail
      | _ => let E := fresh "E" in destruct x eqn:E
      end
  end.
(** Case analysis on an integer test of the goal. *)
Ltac case_Z :=
  match goal with
  | |- context [Z.eqb ?a ?b] => destruct (Z.eqb_spec a b)
  | |- context [Z.leb ?a ?b] => destruct (Z.leb_spec a b)
  | |- context [Z.ltb ?a ?b] => destruct (Z.ltb_spec a b)
  end.
Ltac inv H := inversion H; subst; clear H.

(** ** Lists as Go slices *)

Section slices.
Context {A : Type}.
Implicit Types (l : list A) (p : A -> bool).

(** [for i, x := range l { if p(x) { return x } }] *)
Fixpoint find_first p l : option A :=
  match l with
  | [] => None
  | x :: l => if p x then Some x else find_first p l
  end.

(** [append(l[:i], l[i+1:]...)] at the first index [i] with [p(l[i])] *)
Fixpoint remove_first p l : list A :=
  match l with
  | [] => []
  | x :: l => if p x then l else x :: remove_first p l
  end.

(** in-place update, through its pointer, of the first element with [p], then return *)
Fixpoint update_first p (f : A -> A) l : list A :=
  match l with
  | [] => []
  | x :: l => if p x then f x :: l else x :: update_first p f l
  end.

(** the first index whose element satisfies [p] *)
Fixpoint index_first p l : option nat :=
  match l with
  | [] => None
  | x :: l => if p x then Some 0 else S <$> index_first p l
  end.

Lemma find_first_Some p l x :
  find_first p l = Some x -> x ∈ l /\ p x = true.
Proof.
  induction l as [|y l IH]; simpl; [done|].
  destruct (p y) eqn:E; [intros [= ->]; split; [left|done]|].
  intros (?&?)%IH; split; [right|]; done.
Qed.

Lemma find_first_None p l :
  find_first p l = None <-> forall x, x ∈ l -> p x = false.
Proof.
  induction l as [|y l IH]; simpl; [split; [intros _ x Hx; inversion Hx|done]|].
  destruct (p y) eqn:E.
  - split; [done|]. intros H. specialize (H y). rewrite H in E; [done|left].
  - rewrite IH. split.
    + intros H x [->|Hx]%elem_of_cons; auto.
    + intros H x Hx. apply H. by right.
Qed.

Lemma find_first_is_Some p l :
  is_Some (find_first p l) <-> exists x, x ∈ l /\ p x = true.
Proof.
  split.
  - intros [x (?&?)%find_first_Some]. eauto.
  - intros (x&Hx&Hp). destruct (find_first p l) eqn:E; [eauto|].
    rewrite find_first_None in E. rewrite E in Hp; done.
Qed.

(** When the test identifies one element, the order of the search does not
    matter: this is what makes Go's random map iteration harmless. *)
Lemma find_first_unique p l x :
  x ∈ l -> p x = true -> (forall y, y ∈ l -> p y = true -> y = x) ->
  find_first p l = Some x.
Proof.
  intros Hx Hp Hu. destruct (find_first p l) as [y|] eqn:E.
  - apply find_first_Some in E as [Hy Hpy]. f_equal. by apply Hu.
  - rewrite find_first_None in E. rewrite E in Hp; done.
Qed.

Lemma length_update_first p f l : length (update_first p f l) = length l.
Proof. induction l as [|x l IH]; simpl; [done|]. destruct (p x); simpl; lia. Qed.

Lemma elem_of_update_first p f l y :
  y ∈ update_first p f l -> y ∈ l \/ exists x, x ∈ l /\ p x = true /\ y = f x.
Proof.
  induction l as [|x l IH]; simpl; [inversion 1|].
  destruct (p x) eqn:E; intros [->|Hy]%elem_of_cons.
  - right. exists x. repeat split; [left|done].
  - left. by right.
  - left. left.
  - destruct (IH Hy) as [?|(z&?&?&?)]; [left; by right|].
    right. exists z. repeat split; [by right|done|done].
Qed.

Lemma fmap_update_first {B} (g : A -> B) p f l :
  (forall x, x ∈ l -> p x = true -> g (f x) = g x) ->
  g <$> update_first p f l = g <$> l.
Proof.
  induction l as [|x l IH]; simpl; intros H; [done|].
  destruct (p x) eqn:E; simpl; f_equal.
  - apply H; [left|done].
  - apply IH. intros; apply H; [by right|done].
Qed.

Lemma update_first_None p f l :
  find_first p l = None -> update_first p f l = l.
Proof.
  induction l as [|x l IH]; simpl; [done|].
  destruct (p x); [done|]. intros H. by rewrite IH.
Qed.

Lemma remove_first_None p l :
  find_first p l = None -> remove_first p l = l.
Proof.
  induction l as [|x l IH]; simpl; [done|].
  destruct (p x); [done|]. intros H. by rewrite IH.
Qed.

Lemma remove_first_sublist p l : remove_first p l `sublist_of` l.
Proof.
  induction l as [|x l IH]; simpl; [done|].
  destruct (p x); [by apply sublist_cons|by apply sublist_skip].
Qed.

Lemma elem_of_remove_first p l y : y ∈ remove_first p l -> y ∈ l.
Proof.
  intros H. eapply elem_of_sublist; [exact H|]. apply remove_first_sublist.
Qed.

Lemma elem_of_remove_first_ne p l y :
  y ∈ l -> p y = false -> y ∈ remove_first p l.
Proof.
  induction l as [|x l IH]; simpl; [inversion 1|].
  intros [->|Hy]%elem_of_cons Hp.
  - rewrite Hp. left.
  - destruct (p x); [done|]. right. auto.
Qed.

Lemma length_remove_first p l :
  is_Some (find_first p l) -> S (length (remove_first p l)) = length l.
Proof.
  induction l as [|x l IH]; simpl; [by intros [? [=]]|].
  destruct (p x); [done|]. intros H. simpl. by rewrite IH.
Qed.

Lemma index_first_lt p l i : index_first p l = Some i -> i < length l.
Proof.
  revert i. induction l as [|x l IH]; simpl; [done|]. intros i.
  destruct (p x); [intros [= <-]; lia|].
  destruct (index_first p l) as [j|]; simpl; [|done].
  intros [= <-]. specialize (IH j eq_refl). lia.
Qed.

Lemma index_first_None p l :
  index_first p l = None <-> forall x, x ∈ l -> p x = false.
Proof.
  rewrite <-find_first_None.
  induction l as [|x l IH]; simpl; [done|].
  destruct (p x); [done|]. rewrite <-IH. by destruct (index_first p l).
Qed.

End slices.

Lemma list_filter_all {A} (P : A -> Prop) `{forall x, Decision (P x)} (l : list A) :
  Forall P l -> filter P l = l.
Proof. induction 1 as [|x l Hx Hl IH]; [done|]. by rewrite filter_cons_True, IH. Qed.

(** The keys of a list of records, after removing the first record with a
    given key, are the keys without it. *)
Lemma remove_first_key {A K} `{EqDecision K} (key : A -> K) (k : K) (l : list A) :
  NoDup (key <$> l) ->
  forall y, y ∈ remove_first (fun x => bool_decide (key x = k)) l -> key y <> k.
Proof.
  induction l as [|x l IH]; simpl; intros Hn y Hy; [inversion Hy|].
  apply NoDup_cons in Hn as [Hx Hn]. case_bool_decide as E.
  - intros Hk. apply Hx. rewrite E, <-Hk. by apply list_elem_of_fmap_2.
  - apply elem_of_cons in Hy as [->|Hy]; eauto.
Qed.

(** ** Sums and counts

    [sum_of w l] adds the weights of a list; [count P l] is the number of its elements
    that satisfy [P]; [map_total] adds the weights of the entries of a map. *)
Section totals.
Context {A : Type}.
Implicit Types (w : A -> Z) (P : A -> bool) (l : list A).
Local Open Scope Z_scope.

Definition sum_of w l : Z := foldr (fun x n => w x + n) 0 l.
Definition count P l : Z := sum_of (fun x => if P x then 1 else 0) l.
#[local] Arguments count : simpl never.

Lemma sum_of_app w l1 l2 : sum_of w (l1 ++ l2) = sum_of w l1 + sum_of w l2.
Proof. induction l1 as [|x l1 IH]; simpl; lia. Qed.

Lemma sum_of_nonneg w l : (forall x, x ∈ l -> 0 <= w x) -> 0 <= sum_of w l.
Proof.
  induction l as [|x l IH]; simpl; intros Hw; [lia|].
  pose proof (Hw x (list_elem_of_here _ _)). assert (0 <= sum_of w l); [|lia].
  apply IH. intros y Hy. apply Hw. by right.
Qed.

Lemma sum_of_insert w l t x y :
  l !! t = Some x -> sum_of w (<[t := y]> l) = sum_of w l - w x + w y.
Proof.
  revert t. induction l as [|z l IH]; intros [|t] Ht; try done; simpl in Ht |- *.
  - injection Ht as ->. lia.
  - rewrite (IH _ Ht). lia.
Qed.

Lemma sum_of_perm w l1 l2 : l1 ≡ₚ l2 -> sum_of w l1 = sum_of w l2.
Proof. induction 1; simpl; lia. Qed.

Lemma count_nonneg P l : 0 <= count P l.
Proof. apply sum_of_nonneg. intros x _. destruct (P x); lia. Qed.

Lemma count_cons P x l : count P (x :: l) = (if P x then 1 else 0) + count P l.
Proof. done. Qed.

Lemma count_singleton P x : count P [x] = if P x then 1 else 0.
Proof. rewrite count_cons. unfold count. simpl. lia. Qed.

Lemma count_app P l1 l2 : count P (l1 ++ l2) = count P l1 + count P l2.
Proof. apply sum_of_app. Qed.

Lemma count_insert P l t x y :
  l !! t = Some x ->
  count P (<[t := y]> l) = count P l - (if P x then 1 else 0) + (if P y then 1 else 0).
Proof. intros Ht. unfold count. by rewrite (sum_of_insert _ _ _ _ _ Ht). Qed.

Lemma count_pos P l : 0 < count P l <-> exists t x, l !! t = Some x /\ P x = true.
Proof.
  induction l as [|z l IH].
  - split; [done|]. by intros (t & x & Ht & _).
  - rewrite count_cons. split.
    + destruct (P z) eqn:Ez; [intros _; by exists 0%nat, z|].
      intros (t & x & Ht & Hx)%IH. by exists (S t), x.
    + intros ([|t] & x & Ht & Hx); simpl in Ht; [injection Ht as ->|].
      * rewrite Hx. pose proof (count_nonneg P l). lia.
      * assert (0 < count P l) by (apply IH; eauto). destruct (P z); lia.
Qed.

(** two elements at different places count twice *)
Lemma count_two P l t1 t2 x1 x2 :
  l !! t1 = Some x1 -> l !! t2 = Some x2 -> t1 <> t2 -> P x1 = true -> P x2 = true -> 2 <= count P l.
Proof.
  revert t1 t2. induction l as [|z l IH]; intros [|t1] [|t2] H1 H2 Hne P1 P2; try done;
    simpl in *; rewrite count_cons.
  - injection H1 as ->. rewrite P1. assert (0 < count P l) by (apply count_pos; eauto). lia.
  - injection H2 as ->. rewrite P2. assert (0 < count P l) by (apply count_pos; eauto). lia.
  - specialize (IH t1 t2 H1 H2 ltac:(congruence) P1 P2). destruct (P z); lia.
Qed.
End totals.
#[global] Arguments count {A} P l : simpl never.

Lemma sum_of_fmap {A B} (f : A -> B) (w : B -> Z) (l : list A) :
  sum_of w (f <$> l) = sum_of (fun x => w (f x)) l.
Proof. induction l as [|x l IH]; [done|]. rewrite fmap_cons. simpl. by rewrite IH. Qed.

Section map_totals.
Context {K A : Type} `{Countable K}.
Implicit Types (w : K -> A -> Z) (m : gmap K A).
Local Open Scope Z_scope.

Definition map_total w m : Z := map_fold (fun k x n => w k x + n) 0 m.

Lemma map_total_insert w m k x :
  m !! k = None -> map_total w (<[k := x]> m) = w k x + map_total w m.
Proof. intros Hk. unfold map_total. rewrite map_fold_insert_L; [done| |done]. intros. lia. Qed.

Lemma map_total_delete w m k x :
  m !! k = Some x -> map_total w m = w k x + map_total w (delete k m).
Proof.
  intros Hk. rewrite <-map_total_insert by apply lookup_delete_eq. by rewrite insert_delete_id.
Qed.

(** replacing an entry *)
Lemma map_total_update w m k x y :
  m !! k = Some x -> map_total w (<[k := y]> m) = map_total w m - w k x + w k y.
Proof.
  intros Hk. rewrite (map_total_delete w m k x Hk), <-insert_delete_eq.
  rewrite map_total_insert by apply lookup_delete_eq. lia.
Qed.

(** writing an entry, present or not *)
Lemma map_total_set w m k y :
  map_total w (<[k := y]> m) = map_total w m - from_option (w k) 0 (m !! k) + w k y.
Proof.
  destruct (m !! k) as [x|] eqn:E; simpl; [by apply map_total_update|].
  rewrite map_total_insert by done. lia.
Qed.

Lemma map_total_ext w w' m :
  (forall k x, m !! k = Some x -> w k x = w' k x) -> map_total w m = map_total w' m.
Proof.
  unfold map_total. induction m as [|k x m Hk IH] using map_ind; intros Hw; [done|].
  rewrite !map_fold_insert_L by (done || (intros; lia)). f_equal.
  - apply Hw. by rewrite lookup_insert_eq.
  - apply IH. intros k' x' Hk'. apply Hw. rewrite lookup_insert_ne; [done|]. intros ->. congruence.
Qed.

Lemma map_total_nonneg w m : (forall k x, m !! k = Some x -> 0 <= w k x) -> 0 <= map_total w m.
Proof.
  unfold map_total. induction m as [|k x m Hk IH] using map_ind; intros Hw; [done|].
  rewrite map_fold_insert_L by (done || (intros; lia)).
  assert (0 <= w k x) by (apply Hw; by rewrite lookup_insert_eq).
  assert (0 <= map_fold (fun k x n => w k x + n) 0 m); [|lia].
  apply IH. intros k' x' Hk'. apply (Hw k'). rewrite lookup_insert_ne; [done|]. intros ->. congruence.
Qed.

Lemma map_total_le w m k x :
  (forall k x, m !! k = Some x -> 0 <= w k x) -> m !! k = Some x -> w k x <= map_total w m.
Proof.
  intros Hw Hk. rewrite (map_total_delete w m k x Hk).
  assert (0 <= map_total w (delete k m)); [|lia].
  apply map_total_nonneg. intros k' x' [_ Hk']%lookup_delete_Some. by apply Hw.
Qed.

Lemma map_total_mono w m1 m2 : (forall k x, 0 <= w k x) -> m1 ⊆ m2 -> map_total w m1 <= map_total w m2.
Proof.
  intros Hw. revert m2. induction m1 as [|k x m1 Hk IH] using map_ind; intros m2 Hs.
  - by apply map_total_nonneg.
  - assert (Hx : m2 !! k = Some x) by (eapply lookup_weaken; [apply lookup_insert_eq|exact Hs]).
    rewrite map_total_insert, (map_total_delete w m2 k x Hx) by done.
    assert (map_total w m1 <= map_total w (delete k m2)); [|lia]. apply IH.
    rewrite <-(delete_insert_id m1 k x Hk). by apply delete_mono.
Qed.

Lemma map_total_to_list w m : map_total w m = sum_of (fun kx => w kx.1 kx.2) (map_to_list m).
Proof. unfold map_total. rewrite map_fold_foldr. induction (map_to_list m) as [|[k x] l IH]; simpl; lia. Qed.
End map_totals.
