(* ===== verification/GoLib.v ===== *)
(** * The Go runtime the server relies on

    Strings are byte sequences; [runes] is Go's UTF-8 decoding (an invalid byte
    is one U+FFFD rune), and [TrimSpace] and [IsControl] follow the Unicode
    classes of the Go [strings] and [unicode] packages.  A [time.Time] is an
    integer number of nanoseconds since the Unix epoch, with the zero time at
    1 January of year 1.  A decoded JSON value is [json]; its numbers are
    float64 values, which are dyadic rationals.  What is not computable here
    (the clock, the random source, SHA-256, bcrypt, JSON marshalling, URL
    parsing) is the class [Runtime]. *)
From S2P Require Import Prelude.
From stdpp Require Import gmap strings list fin_maps pretty sorting.
From Stdlib Require String.
From Stdlib Require Import ZArith Ascii SpecFloat.

Local Open Scope Z_scope.

(** ** Strings *)

Definition slen (s : string) : Z := Z.of_nat (String.length s).

Definition bytes (s : string) : list Z :=
  (fun a => Z.of_N (N_of_ascii a)) <$> String.list_ascii_of_string s.

Definition of_bytes (l : list Z) : string :=
  String.string_of_list_ascii ((fun z => ascii_of_N (Z.to_N z)) <$> l).

Fixpoint bytes_prefix (p l : list Z) : option (list Z) :=
  match p, l with
  | [], _ => Some l
  | a :: p, b :: l => if Z.eqb a b then bytes_prefix p l else None
  | _ :: _, [] => None
  end.

(** strings.HasPrefix *)
Definition HasPrefix (s p : string) : bool := String.prefix p s.

Definition HasSuffix (s p : string) : bool :=
  bool_decide (is_Some (bytes_prefix (reverse (bytes p)) (reverse (bytes s)))).

(** One step of utf8.DecodeRune: the code point and the bytes consumed. *)
Definition cont (b : Z) : bool := (0x80 <=? b) && (b <=? 0xBF).
Definition between (lo hi b : Z) : bool := (lo <=? b) && (b <=? hi).
Definition decode_rune (l : list Z) : Z * nat :=
  match l with
  | [] => (0xFFFD, 0%nat)
  | b0 :: r =>
      if b0 <? 0x80 then (b0, 1%nat)
      else if between 0xC2 0xDF b0 then
        match r with
        | b1 :: _ => if cont b1 then ((b0 - 0xC0) * 64 + (b1 - 0x80), 2%nat)
                     else (0xFFFD, 1%nat)
        | _ => (0xFFFD, 1%nat)
        end
      else if between 0xE0 0xEF b0 then
        match r with
        | b1 :: b2 :: _ =>
            let lo := if b0 =? 0xE0 then 0xA0 else 0x80 in
            let hi := if b0 =? 0xED then 0x9F else 0xBF in
            if between lo hi b1 && cont b2
            then ((b0 - 0xE0) * 4096 + (b1 - 0x80) * 64 + (b2 - 0x80), 3%nat)
            else (0xFFFD, 1%nat)
        | _ => (0xFFFD, 1%nat)
        end
      else if between 0xF0 0xF4 b0 then
        match r with
        | b1 :: b2 :: b3 :: _ =>
            let lo := if b0 =? 0xF0 then 0x90 else 0x80 in
            let hi := if b0 =? 0xF4 then 0x8F else 0xBF in
            if between lo hi b1 && cont b2 && cont b3
            then ((b0 - 0xF0) * 262144 + (b1 - 0x80) * 4096
                  + (b2 - 0x80) * 64 + (b3 - 0x80), 4%nat)
            else (0xFFFD, 1%nat)
        | _ => (0xFFFD, 1%nat)
        end
      else (0xFFFD, 1%nat)
  end.

Fixpoint decode_runes (fuel : nat) (l : list Z) : list Z :=
  match fuel, l with
  | S fuel, _ :: _ =>
      let '(r, n) := decode_rune l in r :: decode_runes fuel (drop n l)
  | _, _ => []
  end.

(** [[]rune(s)]: every decoding step consumes a byte, so [length] fuel is enough. *)
Definition runes (s : string) : list Z :=
  let l := bytes s in decode_runes (length l) l.

(** [string(runes)]: UTF-8 encoding; surrogates and out-of-range values become U+FFFD *)
Definition encode_rune (r : Z) : list Z :=
  let r := if (r <? 0) || (0x10FFFF <? r) || ((0xD800 <=? r) && (r <=? 0xDFFF)) then 0xFFFD else r in
  if r <? 0x80 then [r]
  else if r <? 0x800 then [0xC0 + r / 64; 0x80 + r mod 64]
  else if r <? 0x10000 then [0xE0 + r / 4096; 0x80 + (r / 64) mod 64; 0x80 + r mod 64]
  else [0xF0 + r / 262144; 0x80 + (r / 4096) mod 64; 0x80 + (r / 64) mod 64; 0x80 + r mod 64].
Definition of_runes (l : list Z) : string := of_bytes (l ≫= encode_rune).

(** utf8.ValidString: no decoding step falls back on the replacement rune *)
Fixpoint valid_bytes (fuel : nat) (l : list Z) : bool :=
  match fuel, l with
  | S fuel, _ :: _ =>
      let '(r, n) := decode_rune l in
      negb ((r =? 0xFFFD) && Nat.eqb n 1) && valid_bytes fuel (drop n l)
  | _, _ => true
  end.
Definition ValidString (s : string) : bool := let l := bytes s in valid_bytes (length l) l.

(** unicode.IsControl: the categories C0, DEL and C1. *)
Definition IsControl (r : Z) : bool := (r <? 0x20) || between 0x7F 0x9F r.

(** The UTF-8 encodings of the runes with unicode.IsSpace. *)
Definition space_encodings : list (list Z) :=
  [[9]; [10]; [11]; [12]; [13]; [32]; [0xC2; 0x85]; [0xC2; 0xA0];
   [0xE1; 0x9A; 0x80]; [0xE2; 0x80; 0xA8]; [0xE2; 0x80; 0xA9];
   [0xE2; 0x80; 0xAF]; [0xE2; 0x81; 0x9F]; [0xE3; 0x80; 0x80]]
  ++ ((fun k => [0xE2; 0x80; 0x80 + Z.of_nat k]) <$> seq 0 11).

Fixpoint strip_one (encs : list (list Z)) (l : list Z) : option (list Z) :=
  match encs with
  | [] => None
  | e :: encs =>
      match bytes_prefix e l with Some r => Some r | None => strip_one encs l end
  end.

Fixpoint strip_all (fuel : nat) (encs : list (list Z)) (l : list Z) : list Z :=
  match fuel with
  | O => l
  | S fuel =>
      match strip_one encs l with Some r => strip_all fuel encs r | None => l end
  end.

(** strings.TrimSpace *)
Definition TrimSpace (s : string) : string :=
  let l := bytes s in
  let l := strip_all (length l) space_encodings l in
  let r := strip_all (length l) (reverse <$> space_encodings) (reverse l) in
  of_bytes (reverse r).

Definition between_byte (lo hi : string) (b : Z) : bool :=
  match bytes lo, bytes hi with [l], [h] => between l h b | _, _ => false end.
Definition is_lower (b : Z) : bool := between_byte "a" "z" b.
Definition is_upper (b : Z) : bool := between_byte "A" "Z" b.
Definition is_digit (b : Z) : bool := between_byte "0" "9" b.
Definition is_char (c : string) (b : Z) : bool := between_byte c c b.

(** strings.ToUpper on an ASCII string *)
Definition ToUpperASCII (s : string) : string :=
  of_bytes ((fun b => if is_lower b then b - 32 else b) <$> bytes s).

Definition ToLowerASCII (s : string) : string :=
  of_bytes ((fun b => if is_upper b then b + 32 else b) <$> bytes s).

(** strings.TrimSuffix *)
Definition TrimSuffix (s suffix : string) : string :=
  match bytes_prefix (reverse (bytes suffix)) (reverse (bytes s)) with
  | Some r => of_bytes (reverse r)
  | None => s
  end.

(** The byte [\x00] used as the separator of composite map keys. *)
Definition NUL : string := String "000" EmptyString.

Definition hex_digit (z : Z) : string :=
  match String.get (Z.to_nat z) "0123456789abcdef" with
  | Some c => String c EmptyString
  | None => ""
  end.
(** hex.EncodeToString *)
Definition EncodeToString (s : string) : string :=
  foldr (fun b acc => hex_digit (b / 16) +:+ hex_digit (b mod 16) +:+ acc) "" (bytes s).

(** base64.RawURLEncoding.EncodeToString *)
Definition base64_digit (z : Z) : string :=
  match String.get (Z.to_nat z) "ABCDEFGHIJKLMNOPQRSTUVWXYZabcdefghijklmnopqrstuvwxyz0123456789-_" with
  | Some c => String c EmptyString
  | None => ""
  end.
Fixpoint base64url_bytes (l : list Z) : string :=
  match l with
  | a :: b :: c :: rest =>
      base64_digit (a / 4) +:+ base64_digit (a mod 4 * 16 + b / 16)
      +:+ base64_digit (b mod 16 * 4 + c / 64) +:+ base64_digit (c mod 64) +:+ base64url_bytes rest
  | [a; b] => base64_digit (a / 4) +:+ base64_digit (a mod 4 * 16 + b / 16) +:+ base64_digit (b mod 16 * 4)
  | [a] => base64_digit (a / 4) +:+ base64_digit (a mod 4 * 16)
  | [] => ""
  end.
Definition base64url (s : string) : string := base64url_bytes (bytes s).

(** ** Integers *)

Definition wrap64 (z : Z) : Z := (z + 2 ^ 63) mod 2 ^ 64 - 2 ^ 63.
Definition maxInt64 : Z := 2 ^ 63 - 1.

Lemma wrap64_id z : - 2 ^ 63 <= z < 2 ^ 63 -> wrap64 z = z.
Proof. intros H. unfold wrap64. rewrite Z.mod_small; lia. Qed.

(** fmt.Sprintf("%d", z) *)
Definition sprint_d (z : Z) : string := pretty z.

#[export] Instance sprint_d_inj : Inj (=) (=) sprint_d.
Proof. unfold sprint_d. apply _. Qed.

(** strings.TrimPrefix, and [s\[n:\]] within the string *)
Definition slice_from (n : nat) (s : string) : string := String.substring n (String.length s - n) s.
Definition TrimPrefix (s prefix : string) : string :=
  if HasPrefix s prefix then slice_from (String.length prefix) s else s.

(** strings.Fields; [word] holds the bytes of the current field, last first.  No byte
    that starts a space occurs inside the encoding of another rune. *)
Fixpoint fields (fuel : nat) (word l : list Z) : list string :=
  let flush := match word with [] => [] | _ => [of_bytes (reverse word)] end in
  match fuel, l with
  | S fuel, b :: rest =>
      match strip_one space_encodings l with
      | Some r => flush ++ fields fuel [] r
      | None => fields fuel (b :: word) rest
      end
  | _, _ => flush
  end.
Definition Fields (s : string) : list string := let l := bytes s in fields (length l) [] l.

(** strings.Contains *)
Definition Contains (s sub : string) : bool :=
  existsb (fun i => HasPrefix (String.substring i (String.length s - i) s) sub)
    (seq 0 (S (String.length s))).

(** ** Time *)

Definition time := Z.
Definition second : Z := 1000000000.
Definition minute : Z := 60 * second.
Definition hour : Z := 60 * minute.
(** time.Time{}: 1 January of year 1, UTC *)
Definition zero_time : time := -62135596800 * second.
Definition IsZero (t : time) : bool := Z.eqb t zero_time.
Definition After (t u : time) : bool := Z.ltb u t.
Definition Before (t u : time) : bool := Z.ltb t u.
Definition Unix (t : time) : Z := t / second.
Definition UnixMilli (t : time) : Z := t / 1000000.
Definition UnixNano (t : time) : Z := wrap64 t.
(** [t.Sub(u)], a time.Duration: the difference, saturated *)
Definition Sub (t u : time) : Z := Z.max (- 2 ^ 63) (Z.min maxInt64 (t - u)).

(** decimal digits, padded with zeros on the left *)
Definition pad (width : nat) (z : Z) : string :=
  let d := sprint_d z in
  foldr (fun _ acc => "0" +:+ acc) d (seq 0 (width - String.length d)).

(** the civil date of a day number counted from 1970-01-01 *)
Definition civil_from_days (days : Z) : Z * Z * Z :=
  let z := days + 719468 in
  let era := z / 146097 in
  let doe := z mod 146097 in
  let yoe := (doe - doe / 1460 + doe / 36524 - doe / 146096) / 365 in
  let doy := doe - (365 * yoe + yoe / 4 - yoe / 100) in
  let mp := (5 * doy + 2) / 153 in
  let d := doy - (153 * mp + 2) / 5 + 1 in
  let m := if mp <? 10 then mp + 3 else mp - 9 in
  (yoe + era * 400 + (if m <=? 2 then 1 else 0), m, d).

(** [t.UTC().Format(time.RFC3339)] *)
Definition FormatRFC3339 (t : time) : string :=
  let s := Unix t in
  let '(y, m, d) := civil_from_days (s / 86400) in
  let r := s mod 86400 in
  pad 4 y +:+ "-" +:+ pad 2 m +:+ "-" +:+ pad 2 d +:+ "T" +:+ pad 2 (r / 3600) +:+ ":"
  +:+ pad 2 (r / 60 mod 60) +:+ ":" +:+ pad 2 (r mod 60) +:+ "Z".

(** [t.UTC().Format("2006-01-02")] *)
Definition FormatDate (t : time) : string :=
  let '(y, m, d) := civil_from_days (Unix t / 86400) in
  pad 4 y +:+ "-" +:+ pad 2 m +:+ "-" +:+ pad 2 d.

(** ** JSON numbers: float64 values, [m * 2 ^ e] *)

Record num := Num { num_m : Z; num_e : Z }.

Definition num_of_Z (z : Z) : num := Num z 0.
(** both operands over the same power of two *)
Definition num_align (a b : num) : Z * Z :=
  let e := Z.min (num_e a) (num_e b) in
  (num_m a * 2 ^ (num_e a - e), num_m b * 2 ^ (num_e b - e)).
Definition num_eqb (a b : num) : bool := let '(x, y) := num_align a b in Z.eqb x y.
Definition num_ltb (a b : num) : bool := let '(x, y) := num_align a b in Z.ltb x y.
Definition num_leb (a b : num) : bool := let '(x, y) := num_align a b in Z.leb x y.
(** truncation toward zero *)
Definition num_trunc (a : num) : Z :=
  if 0 <=? num_e a then num_m a * 2 ^ num_e a
  else Z.quot (num_m a) (2 ^ (- num_e a)).
(** [int64(f)]: truncation; out of range, the minimum value (amd64). *)
Definition int64_of_num (a : num) : Z :=
  let t := num_trunc a in
  if (- 2 ^ 63 <=? t) && (t <? 2 ^ 63) then t else - 2 ^ 63.

(** ** JSON values ([interface{}])

    [JNaN] is a float64 that is not a number: no JSON text decodes to it and no
    encoder accepts it, but strconv.ParseFloat can return it.  The type assertions
    below are made on decoded values, where it does not occur. *)

Inductive json : Type :=
| JNull
| JBool (b : bool)
| JNum (n : num)
| JNaN
| JStr (s : string)
| JArr (l : list json)
| JObj (m : gmap string json).

(** The type assertions [v.(string)], [v.(bool)], ...: [None] is [ok = false].
    An absent key of a map reads as [nil], on which every assertion fails. *)
Definition as_string (v : json) : option string :=
  match v with JStr s => Some s | _ => None end.
Definition as_bool (v : json) : option bool :=
  match v with JBool b => Some b | _ => None end.
Definition as_float64 (v : json) : option num :=
  match v with JNum n => Some n | _ => None end.
Definition as_array (v : json) : option (list json) :=
  match v with JArr l => Some l | _ => None end.
Definition as_object (v : json) : option (gmap string json) :=
  match v with JObj m => Some m | _ => None end.

(** [params[k].(string)] with its [ok] flag, and with the flag ignored *)
Definition get_string (m : gmap string json) (k : string) : option string :=
  m !! k ≫= as_string.
Definition str (m : gmap string json) (k : string) : string := default "" (get_string m k).
Definition get_bool (m : gmap string json) (k : string) : option bool :=
  m !! k ≫= as_bool.
Definition get_float64 (m : gmap string json) (k : string) : option num :=
  m !! k ≫= as_float64.
Definition get_array (m : gmap string json) (k : string) : option (list json) :=
  m !! k ≫= as_array.
Definition get_object (m : gmap string json) (k : string) : option (gmap string json) :=
  m !! k ≫= as_object.

(** A struct literal as the object its [json] tags give it. *)
Definition obj (kvs : list (string * json)) : json := JObj (list_to_map kvs).
Definition jint (z : Z) : json := JNum (num_of_Z z).

(** a comparison [v == s] of an interface value, absent or not, with a string *)
Definition is_str (v : option json) (s : string) : bool :=
  match v with Some (JStr t) => bool_decide (t = s) | _ => false end.

(** the nesting depth of a value: fuel for the functions that walk a tree *)
Fixpoint json_height (j : json) : nat :=
  match j with
  | JArr l => S (foldr (fun j acc => Nat.max (json_height j) acc) 0%nat l)
  | JObj m => S (map_fold (fun _ j acc => Nat.max (json_height j) acc) 0%nat m)
  | _ => 1%nat
  end.

(** can the value be written as JSON?  Only a NaN cannot. *)
Fixpoint encodable (j : json) : bool :=
  match j with
  | JNaN => false
  | JArr l => forallb encodable l
  | JObj m => map_fold (fun _ j acc => encodable j && acc) true m
  | _ => true
  end.

(** ** sort.Slice with a comparison function

    Insertion sort; [sort.SliceStable] and [sort.Slice] both return a sorted
    permutation of their argument, and so does this. *)
Section sorting.
Context {A : Type} (less : A -> A -> bool).

Fixpoint insert_sorted (x : A) (l : list A) : list A :=
  match l with
  | [] => [x]
  | y :: l' => if less y x then y :: insert_sorted x l' else x :: l
  end.

Definition sort_slice (l : list A) : list A := foldr insert_sorted [] l.

Lemma insert_sorted_perm x l : insert_sorted x l ≡ₚ x :: l.
Proof.
  induction l as [|y l IH]; simpl; [done|].
  destruct (less y x); [|done]. rewrite IH. constructor.
Qed.

Lemma sort_slice_perm l : sort_slice l ≡ₚ l.
Proof.
  induction l as [|x l IH]; simpl; [done|].
  by rewrite insert_sorted_perm, IH.
Qed.

Lemma elem_of_sort_slice x l : x ∈ sort_slice l <-> x ∈ l.
Proof. by rewrite sort_slice_perm. Qed.

Lemma length_sort_slice l : length (sort_slice l) = length l.
Proof. by rewrite sort_slice_perm. Qed.

(** no element is preceded by one that [less] puts after it *)
Definition ordered (l : list A) : Prop :=
  StronglySorted (fun x y => less y x = false) l.

Context (less_trans : forall x y z, less x y = false -> less y z = false -> less x z = false).
Context (less_asym : forall x y, less x y = true -> less y x = false).

Lemma insert_sorted_ordered x l : ordered l -> ordered (insert_sorted x l).
Proof.
  unfold ordered. induction 1 as [|y l Hl IH Hy]; simpl; [repeat constructor|].
  destruct (less y x) eqn:E.
  - constructor; [done|]. apply Forall_forall. intros z Hz.
    rewrite insert_sorted_perm in Hz. apply elem_of_cons in Hz as [->|Hz]; auto.
    rewrite Forall_forall in Hy. auto.
  - repeat constructor; auto. eapply Forall_impl; [exact Hy|].
    intros z Hz. simpl in Hz. eauto.
Qed.

Lemma sort_slice_ordered l : ordered (sort_slice l).
Proof.
  induction l as [|x l IH]; simpl; [constructor|]. by apply insert_sorted_ordered.
Qed.
End sorting.

(** ** The parts of the runtime that are not computed *)

(** The URL fields the server reads from url.ParseRequestURI. *)
Record URL := mkURL {
  URL_Scheme : string; URL_Host : string; URL_Hostname : string; URL_HasUser : bool }.

Class Runtime := {
  (** the n-th reading of time.Now *)
  clock : nat -> time;
  (** the n-th 32-byte draw from crypto/rand, already base64url encoded *)
  rand_token : nat -> option string;
  (** sha256.Sum256, as the 32-byte string *)
  sha256 : string -> string;
  (** json.Marshal; [None] is an error *)
  json_marshal : json -> option string;
  json_marshal_nan : forall j, encodable j = false -> json_marshal j = None;
  (** json.Unmarshal into an interface value; [None] is an error *)
  json_unmarshal : string -> option json;
  (** bcrypt.GenerateFromPassword at the n-th draw, bcrypt.CompareHashAndPassword *)
  bcrypt_hash : nat -> string -> option string;
  bcrypt_matches : string -> string -> bool;
  (** base64.StdEncoding.DecodeString *)
  base64_decode : string -> option string;
  (** http.DetectContentType *)
  detect_content_type : string -> string;
  (** url.ParseRequestURI *)
  parse_request_uri : string -> option URL;
  (** net.ParseIP of a host name that is a private, loopback, unspecified,
      link-local or multicast address; [None] when it is not an address *)
  private_ip : string -> option bool;
  (** time.Parse(time.RFC3339, value); [None] is an error *)
  parse_rfc3339 : string -> option time;
  (** strings.ToLower, whose table of letters is Unicode's *)
  to_lower : string -> string;
  (** strconv.ParseFloat(s, 64): a value comes with an error too; [true] is no error *)
  parse_float : string -> spec_float * bool;
  (** the int64 that encoding/json reads back from the text of an integral float64
      beyond 2^53; [None] is an error *)
  reparse_int : num -> option Z;
  (** fmt.Sprintf(verb, v) of a decoded value that is neither nil nor a string *)
  sprintf1 : string -> json -> string;
  (** fmt.Sprintf(template, a, b) *)
  sprintf2 : string -> Z -> Z -> string
}.

(** hex of the SHA-256 digest, the form in which digests are stored *)
Definition sha256_hex `{Runtime} (s : string) : string := EncodeToString (sha256 s).
