(* ===== verification/Types.v ===== *)
(** * The stored data (server/internal/store/store.go, protocol/protocol.go)

    One record per Go struct, with the struct's fields in order; a field [F] of
    struct [S] is the projection [S_F].  A pointer field that may be nil is an
    [option]; a [*T] held in a map is the value itself except for messages,
    whose sharing between the conversation lists and the idempotency records is
    modelled with a heap (see [MemoryState]). *)
From S2P Require Import Prelude GoLib.
From stdpp Require Import gmap strings list.
From Stdlib Require Import ZArith.

(** protocol.Reaction *)
Record Reaction := mkReaction {
  Reaction_EmojiID : string; Reaction_Count : Z }.
#[export] Instance eta_Reaction : Eta Reaction := fun r => mkReaction
    (r.(Reaction_EmojiID)) (r.(Reaction_Count)).

(** protocol.MessageSegment: one OneBot-style segment *)
Record MessageSegment := mkMessageSegment {
  MessageSegment_Type : string; MessageSegment_Data : gmap string json }.
#[export] Instance eta_MessageSegment : Eta MessageSegment := fun r => mkMessageSegment
    (r.(MessageSegment_Type)) (r.(MessageSegment_Data)).

Record Message := mkMessage {
  Message_ID : string; Message_ConversationID : string; Message_SenderID : string;
  Message_SenderNickname : string; Message_Segments : list MessageSegment;
  Message_Timestamp : time; Message_Recalled : bool; Message_Reactions : list Reaction }.
#[export] Instance eta_Message : Eta Message := fun r => mkMessage (r.(Message_ID))
    (r.(Message_ConversationID)) (r.(Message_SenderID)) (r.(Message_SenderNickname))
    (r.(Message_Segments)) (r.(Message_Timestamp)) (r.(Message_Recalled))
    (r.(Message_Reactions)).

Record DynamicInteractionEvent := mkDynamicInteractionEvent {
  DynamicInteractionEvent_EventID : string;
  DynamicInteractionEvent_ConversationID : string;
  DynamicInteractionEvent_MessageID : string;
  DynamicInteractionEvent_ContentID : string; DynamicInteractionEvent_NodeID : string;
  DynamicInteractionEvent_Event : string; DynamicInteractionEvent_Action : string;
  DynamicInteractionEvent_Payload : option (gmap string json);
  DynamicInteractionEvent_ActorID : string;
  DynamicInteractionEvent_ActorNickname : string;
  DynamicInteractionEvent_ActorKind : string; DynamicInteractionEvent_CreatedAt : time }.
#[export] Instance eta_DynamicInteractionEvent : Eta DynamicInteractionEvent := fun r => mkDynamicInteractionEvent
    (r.(DynamicInteractionEvent_EventID)) (r.(DynamicInteractionEvent_ConversationID))
    (r.(DynamicInteractionEvent_MessageID)) (r.(DynamicInteractionEvent_ContentID))
    (r.(DynamicInteractionEvent_NodeID)) (r.(DynamicInteractionEvent_Event))
    (r.(DynamicInteractionEvent_Action)) (r.(DynamicInteractionEvent_Payload))
    (r.(DynamicInteractionEvent_ActorID)) (r.(DynamicInteractionEvent_ActorNickname))
    (r.(DynamicInteractionEvent_ActorKind)) (r.(DynamicInteractionEvent_CreatedAt)).

Record ReadState := mkReadState {
  ReadState_ConversationID : string; ReadState_UserID : string;
  ReadState_LastReadMessageID : string; ReadState_ReadAt : time }.
#[export] Instance eta_ReadState : Eta ReadState := fun r => mkReadState
    (r.(ReadState_ConversationID)) (r.(ReadState_UserID))
    (r.(ReadState_LastReadMessageID)) (r.(ReadState_ReadAt)).

Record Conversation := mkConversation {
  Conversation_ID : string; Conversation_Type : string; Conversation_Title : string;
  Conversation_Avatar : string; Conversation_OwnerID : string;
  Conversation_Participants : list string; Conversation_CreatedAt : time }.
#[export] Instance eta_Conversation : Eta Conversation := fun r => mkConversation
    (r.(Conversation_ID)) (r.(Conversation_Type)) (r.(Conversation_Title))
    (r.(Conversation_Avatar)) (r.(Conversation_OwnerID)) (r.(Conversation_Participants))
    (r.(Conversation_CreatedAt)).

Record ConversationPreference := mkConversationPreference {
  ConversationPreference_ConversationID : string;
  ConversationPreference_UserID : string; ConversationPreference_IsPinned : bool;
  ConversationPreference_NotificationLevel : string;
  ConversationPreference_IsMuted : bool; ConversationPreference_UpdatedAt : time }.
#[export] Instance eta_ConversationPreference : Eta ConversationPreference := fun r => mkConversationPreference
    (r.(ConversationPreference_ConversationID)) (r.(ConversationPreference_UserID))
    (r.(ConversationPreference_IsPinned)) (r.(ConversationPreference_NotificationLevel))
    (r.(ConversationPreference_IsMuted)) (r.(ConversationPreference_UpdatedAt)).

Record User := mkUser {
  User_ID : string; User_Nickname : string; User_Avatar : string; User_Bio : string;
  User_CardBackgroundURL : string; User_CardBackgroundColor : string;
  User_CardBackgroundSensitive : bool; User_ShowMutualGroups : bool;
  User_ShowAccountID : bool; User_Online : bool; User_PasswordHash : string;
  User_CreatedAt : time }.
#[export] Instance eta_User : Eta User := fun r => mkUser (r.(User_ID))
    (r.(User_Nickname)) (r.(User_Avatar)) (r.(User_Bio)) (r.(User_CardBackgroundURL))
    (r.(User_CardBackgroundColor)) (r.(User_CardBackgroundSensitive))
    (r.(User_ShowMutualGroups)) (r.(User_ShowAccountID)) (r.(User_Online))
    (r.(User_PasswordHash)) (r.(User_CreatedAt)).

Record UserTitle := mkUserTitle {
  UserTitle_ID : string; UserTitle_UserID : string; UserTitle_ScopeType : string;
  UserTitle_ScopeID : string; UserTitle_Text : string; UserTitle_Style : string;
  UserTitle_GrantedBy : string; UserTitle_ExpiresAt : option time;
  UserTitle_CreatedAt : time }.
#[export] Instance eta_UserTitle : Eta UserTitle := fun r => mkUserTitle
    (r.(UserTitle_ID)) (r.(UserTitle_UserID)) (r.(UserTitle_ScopeType))
    (r.(UserTitle_ScopeID)) (r.(UserTitle_Text)) (r.(UserTitle_Style))
    (r.(UserTitle_GrantedBy)) (r.(UserTitle_ExpiresAt)) (r.(UserTitle_CreatedAt)).

Record UserReport := mkUserReport {
  UserReport_ID : string; UserReport_ReporterID : string; UserReport_TargetID : string;
  UserReport_Reason : string; UserReport_Details : string; UserReport_CreatedAt : time }.
#[export] Instance eta_UserReport : Eta UserReport := fun r => mkUserReport
    (r.(UserReport_ID)) (r.(UserReport_ReporterID)) (r.(UserReport_TargetID))
    (r.(UserReport_Reason)) (r.(UserReport_Details)) (r.(UserReport_CreatedAt)).

Record Session := mkSession {
  Session_TokenHash : string; Session_UserID : string; Session_ExpiresAt : time;
  Session_CreatedAt : time }.
#[export] Instance eta_Session : Eta Session := fun r => mkSession
    (r.(Session_TokenHash)) (r.(Session_UserID)) (r.(Session_ExpiresAt))
    (r.(Session_CreatedAt)).

Record TerminalSession := mkTerminalSession {
  TerminalSession_ID : string; TerminalSession_UserID : string;
  TerminalSession_DeviceID : string; TerminalSession_ClientType : string;
  TerminalSession_Connected : bool; TerminalSession_LoginAt : time;
  TerminalSession_LastSeenAt : time; TerminalSession_LogoutAt : option time }.
#[export] Instance eta_TerminalSession : Eta TerminalSession := fun r => mkTerminalSession
    (r.(TerminalSession_ID)) (r.(TerminalSession_UserID)) (r.(TerminalSession_DeviceID))
    (r.(TerminalSession_ClientType)) (r.(TerminalSession_Connected))
    (r.(TerminalSession_LoginAt)) (r.(TerminalSession_LastSeenAt))
    (r.(TerminalSession_LogoutAt)).

Record GroupMember := mkGroupMember {
  GroupMember_UserID : string; GroupMember_Role : string; GroupMember_JoinedAt : time;
  GroupMember_MutedUntil : time }.
#[export] Instance eta_GroupMember : Eta GroupMember := fun r => mkGroupMember
    (r.(GroupMember_UserID)) (r.(GroupMember_Role)) (r.(GroupMember_JoinedAt))
    (r.(GroupMember_MutedUntil)).

Record Group := mkGroup {
  Group_ID : string; Group_Name : string; Group_Avatar : string;
  Group_Announcement : string; Group_OwnerID : string; Group_MuteAll : bool;
  Group_Members : list GroupMember; Group_CreatedAt : time }.
#[export] Instance eta_Group : Eta Group := fun r => mkGroup (r.(Group_ID))
    (r.(Group_Name)) (r.(Group_Avatar)) (r.(Group_Announcement)) (r.(Group_OwnerID))
    (r.(Group_MuteAll)) (r.(Group_Members)) (r.(Group_CreatedAt)).

Record GroupAnnouncement := mkGroupAnnouncement {
  GroupAnnouncement_ID : string; GroupAnnouncement_GroupID : string;
  GroupAnnouncement_Content : string; GroupAnnouncement_AuthorID : string;
  GroupAnnouncement_IsPinned : bool; GroupAnnouncement_IsRead : bool;
  GroupAnnouncement_CreatedAt : time; GroupAnnouncement_UpdatedAt : time }.
#[export] Instance eta_GroupAnnouncement : Eta GroupAnnouncement := fun r => mkGroupAnnouncement
    (r.(GroupAnnouncement_ID)) (r.(GroupAnnouncement_GroupID))
    (r.(GroupAnnouncement_Content)) (r.(GroupAnnouncement_AuthorID))
    (r.(GroupAnnouncement_IsPinned)) (r.(GroupAnnouncement_IsRead))
    (r.(GroupAnnouncement_CreatedAt)) (r.(GroupAnnouncement_UpdatedAt)).

Record FriendRequest := mkFriendRequest {
  FriendRequest_ID : string; FriendRequest_FromID : string; FriendRequest_ToID : string;
  FriendRequest_Comment : string; FriendRequest_Status : string;
  FriendRequest_CreatedAt : time }.
#[export] Instance eta_FriendRequest : Eta FriendRequest := fun r => mkFriendRequest
    (r.(FriendRequest_ID)) (r.(FriendRequest_FromID)) (r.(FriendRequest_ToID))
    (r.(FriendRequest_Comment)) (r.(FriendRequest_Status)) (r.(FriendRequest_CreatedAt)).

Record ForwardMessage := mkForwardMessage {
  ForwardMessage_ID : string; ForwardMessage_ConversationID : string;
  ForwardMessage_Messages : list Message; ForwardMessage_CreatedAt : time }.
#[export] Instance eta_ForwardMessage : Eta ForwardMessage := fun r => mkForwardMessage
    (r.(ForwardMessage_ID)) (r.(ForwardMessage_ConversationID))
    (r.(ForwardMessage_Messages)) (r.(ForwardMessage_CreatedAt)).

Record MediaFile := mkMediaFile {
  MediaFile_ID : string; MediaFile_FileName : string; MediaFile_FileType : string;
  MediaFile_MimeType : string; MediaFile_Size : Z; MediaFile_URL : string;
  MediaFile_ThumbnailURL : string; MediaFile_Width : Z; MediaFile_Height : Z;
  MediaFile_UploaderID : string; MediaFile_CreatedAt : time }.
#[export] Instance eta_MediaFile : Eta MediaFile := fun r => mkMediaFile
    (r.(MediaFile_ID)) (r.(MediaFile_FileName)) (r.(MediaFile_FileType))
    (r.(MediaFile_MimeType)) (r.(MediaFile_Size)) (r.(MediaFile_URL))
    (r.(MediaFile_ThumbnailURL)) (r.(MediaFile_Width)) (r.(MediaFile_Height))
    (r.(MediaFile_UploaderID)) (r.(MediaFile_CreatedAt)).

Record PushSubscription := mkPushSubscription {
  PushSubscription_UserID : string; PushSubscription_Endpoint : string;
  PushSubscription_P256DH : string; PushSubscription_Auth : string;
  PushSubscription_CreatedAt : time; PushSubscription_UpdatedAt : time }.
#[export] Instance eta_PushSubscription : Eta PushSubscription := fun r => mkPushSubscription
    (r.(PushSubscription_UserID)) (r.(PushSubscription_Endpoint))
    (r.(PushSubscription_P256DH)) (r.(PushSubscription_Auth))
    (r.(PushSubscription_CreatedAt)) (r.(PushSubscription_UpdatedAt)).

Record TerminalVault := mkTerminalVault {
  TerminalVault_UserID : string; TerminalVault_Payload : string;
  TerminalVault_Revision : Z; TerminalVault_UpdatedAt : time }.
#[export] Instance eta_TerminalVault : Eta TerminalVault := fun r => mkTerminalVault
    (r.(TerminalVault_UserID)) (r.(TerminalVault_Payload)) (r.(TerminalVault_Revision))
    (r.(TerminalVault_UpdatedAt)).

Record ServerStats := mkServerStats {
  ServerStats_Users : Z; ServerStats_OnlineUsers : Z; ServerStats_Groups : Z;
  ServerStats_Conversations : Z; ServerStats_Messages : Z;
  ServerStats_ActiveSessions : Z; ServerStats_MediaFiles : Z;
  ServerStats_MediaBytes : Z; ServerStats_PushSubscriptions : Z }.
#[export] Instance eta_ServerStats : Eta ServerStats := fun r => mkServerStats
    (r.(ServerStats_Users)) (r.(ServerStats_OnlineUsers)) (r.(ServerStats_Groups))
    (r.(ServerStats_Conversations)) (r.(ServerStats_Messages))
    (r.(ServerStats_ActiveSessions)) (r.(ServerStats_MediaFiles))
    (r.(ServerStats_MediaBytes)) (r.(ServerStats_PushSubscriptions)).

(** ** Notification levels *)

Definition NotificationLevelNormal : string := "normal".
Definition NotificationLevelMentionsOnly : string := "mentions_only".
Definition NotificationLevelMuted : string := "muted".

Definition valid_notification_level (level : string) : bool :=
  bool_decide (level = NotificationLevelNormal)
  || bool_decide (level = NotificationLevelMentionsOnly)
  || bool_decide (level = NotificationLevelMuted).

(** maps empty legacy values to the old mute flag *)
Definition NormalizeNotificationLevel (level : string) (legacyMuted : bool) : string :=
  if valid_notification_level level then level
  else if legacyMuted then NotificationLevelMuted
  else NotificationLevelNormal.

Lemma NormalizeNotificationLevel_valid level m :
  valid_notification_level (NormalizeNotificationLevel level m) = true.
Proof.
  unfold NormalizeNotificationLevel.
  destruct (valid_notification_level level) eqn:E; [done|by destruct m].
Qed.

Lemma NormalizeNotificationLevel_id level m :
  valid_notification_level level = true -> NormalizeNotificationLevel level m = level.
Proof. unfold NormalizeNotificationLevel. by intros ->. Qed.

(** ** Request fingerprints

    The digest under which an idempotency record is filed: SHA-256 of the JSON
    encoding of the request fields, in hexadecimal. *)

Definition segment_json (s : MessageSegment) : json :=
  obj [("type", JStr s.(MessageSegment_Type)); ("data", JObj s.(MessageSegment_Data))].

Section fingerprints.
Context `{Runtime}.

Definition messageRequestFingerprint (conversationID : string)
    (segments : list MessageSegment) : result string :=
  match json_marshal (obj [("conversation_id", JStr conversationID);
                           ("segments", JArr (segment_json <$> segments))]) with
  | None => Err "marshal"
  | Some encoded => Ok (sha256_hex encoded)
  end.

Definition dynamicInteractionFingerprint (event : DynamicInteractionEvent) : result string :=
  match json_marshal (obj
    [("conversation_id", JStr event.(DynamicInteractionEvent_ConversationID));
     ("message_id", JStr event.(DynamicInteractionEvent_MessageID));
     ("content_id", JStr event.(DynamicInteractionEvent_ContentID));
     ("node_id", JStr event.(DynamicInteractionEvent_NodeID));
     ("event", JStr event.(DynamicInteractionEvent_Event));
     ("action", JStr event.(DynamicInteractionEvent_Action));
     ("payload", from_option JObj JNull event.(DynamicInteractionEvent_Payload))]) with
  | None => Err "marshal"
  | Some encoded => Ok (sha256_hex encoded)
  end.
End fingerprints.

(** The error values of the package. *)
Definition ErrMessageIdempotencyConflict : string :=
  "client_message_id was already used for a different message".
Definition ErrDynamicUpdateIdempotencyConflict : string :=
  "dynamic update client_message_id was already used for a different request".
Definition ErrDynamicInteractionIdempotencyConflict : string :=
  "dynamic interaction event_id was already used for a different request".
Definition ErrTerminalVaultConflict : string := "terminal vault revision conflict".
Definition ErrActiveTitleLimit : string := "a user may have at most five active titles".
