(* ===== verification/Float64.v ===== *)
(** * float64 arithmetic

    The card actions of gateway/dynamic_interaction.go compute with float64 values.
    The arithmetic is that of the Standard Library's specification of IEEE 754
    ([SpecFloat]), at 53 bits of precision; a number of a JSON value converts to it
    without loss, and back. *)
From S2P Require Import Prelude GoLib.
From stdpp Require Import gmap strings list.
From Stdlib Require Import ZArith SpecFloat.

Local Open Scope Z_scope.

Notation float64 := spec_float.

Definition f_of_num (n : num) : float64 := binary_normalize 53 1024 (num_m n) (num_e n) false.
Definition f_of_Z (z : Z) : float64 := binary_normalize 53 1024 z 0 false.
Definition f_zero : float64 := S754_zero false.
Definition f_one : float64 := f_of_Z 1.
(** the constant 0.1 *)
Definition f_tenth : float64 := binary_normalize 53 1024 3602879701896397 (-55) false.

Definition f_add : float64 -> float64 -> float64 := SFadd 53 1024.
Definition f_mul : float64 -> float64 -> float64 := SFmul 53 1024.
Definition f_div : float64 -> float64 -> float64 := SFdiv 53 1024.
(** comparisons are false on NaN *)
Definition f_gt (a b : float64) : bool := SFltb b a.

(** math.Max(0, math.Min(1, x)): NaN stays NaN *)
Definition f_clamp (x : float64) : float64 :=
  match x with
  | S754_nan => S754_nan
  | _ => if f_gt x f_one then f_one else if f_gt x f_zero then x else f_zero
  end.

(** a float64 as an interface value; an infinity, which no text encodes either, only
    comes before [f_clamp] *)
Definition json_of_float (x : float64) : json :=
  match x with
  | S754_zero _ => jint 0
  | S754_finite s m e => JNum (Num (if s then Z.neg m else Z.pos m) e)
  | S754_infinity _ | S754_nan => JNaN
  end.

(** the integer nearest to [m * 2 ^ e], the even one in a tie *)
Definition round_half_even (m e : Z) : Z :=
  if 0 <=? e then m * 2 ^ e
  else
    let d := 2 ^ (- e) in
    let q := m / d in
    let r := 2 * (m mod d) in
    if r <? d then q else if d <? r then q + 1 else if Z.even q then q else q + 1.

(** fmt.Sprintf("%.0f%%", x) *)
Definition sprint_percent (x : float64) : string :=
  match x with
  | S754_nan => "NaN"
  | S754_infinity s => if s then "-Inf" else "+Inf"
  | S754_zero s => if s then "-0" else "0"
  | S754_finite s m e => (if s then "-" else "") +:+ sprint_d (round_half_even (Z.pos m) e)
  end +:+ "%".

Example percent_of_third :
  sprint_percent (f_mul (f_div (f_of_Z 1) (f_of_Z 3)) (f_of_Z 100)) = "33%".
Proof. vm_compute. reflexivity. Qed.

Example tenth_of_json : json_of_float (f_add f_tenth f_tenth) = JNum (Num 7205759403792794 (-55)).
Proof. vm_compute. reflexivity. Qed.
