(* ===== verification/DynamicContent.v ===== *)
(** * Dynamic content (gateway/dynamic_content.go)

    A dynamic-content segment carries a JSON schema with a tree of nodes; updates
    patch the tree, replacements and removals act on whole segments.  The schema
    and node maps are decoded JSON objects.  [cloneDynamicMap], a deep copy through
    JSON, is the identity on immutable values that have a JSON text.  Where the Go code changes a node
    through a pointer found by [findDynamicNode], the model rebuilds the tree along
    the path to that node.

    Go iterates maps in random order: where an error is met inside such a loop the
    model returns one of the possible errors. *)
From S2P Require Import Prelude GoLib Types.
From stdpp Require Import gmap strings list pretty.
From Stdlib Require Import ZArith.

Local Open Scope Z_scope.

Definition maxDynamicContentBytes : Z := 512 * 1024.
Definition maxDynamicNodes : Z := 100.
Definition maxDynamicDepth : Z := 10.
Definition maxDynamicChildren : Z := 50.
Definition maxDynamicTextLength : Z := 10000.
Definition maxDynamicIdentifier : Z := 128.
Definition maxDynamicImages : Z := 20.

Notation jmap := (gmap string json).

Definition allowedDynamicEvents : gset string :=
  {["click"; "tap"; "submit"; "change"; "select"]}.

(** deep copy through JSON, which fails on a NaN *)
Definition cloneDynamicMap (value : jmap) : jmap :=
  if encodable (JObj value) then value else ∅.

Definition validDynamicIdentifier (value : string) : bool :=
  negb (bool_decide (TrimSpace value = "")) && (slen value <=? maxDynamicIdentifier)
  && ValidString value.

Definition exactInt64 (value : json) : option Z :=
  match value with
  | JNum n =>
      if num_ltb n (num_of_Z (- 2 ^ 63)) || num_ltb (num_of_Z (2 ^ 63)) n
         || negb (num_eqb n (num_of_Z (num_trunc n)))
      then None else Some (int64_of_num n)
  | _ => None
  end.

(** "%s.children[%d]" *)
Definition child_path (path : string) (index : nat) : string :=
  path +:+ ".children[" +:+ sprint_d (Z.of_nat index) +:+ "]".
Definition item_path (path : string) (index : nat) : string :=
  path +:+ "[" +:+ sprint_d (Z.of_nat index) +:+ "]".
(** "%q" on an identifier without characters to escape *)
Definition quoted (s : string) : string :=
  let q := String (Ascii.ascii_of_nat 34) EmptyString in q +:+ s +:+ q.

(** the first error of a list of checks *)
Fixpoint first_error {A} (check : A -> result unit) (l : list A) : result unit :=
  match l with
  | [] => Ok tt
  | x :: l => match check x with Ok _ => first_error check l | Err e => Err e end
  end.

(** ** Values *)

(** the depth guard stops the recursion, so fuel [maxDynamicDepth + 2] is never used up *)
Fixpoint validateDynamicValues_fuel (fuel : nat) (value : json) (path : string) (depth : Z)
  : result unit :=
  if maxDynamicDepth <? depth then Err ("dynamic value depth exceeded at " +:+ path)
  else
    match fuel with
    | O => Err "unreachable"
    | S fuel =>
        match value with
        | JStr current =>
            if maxDynamicTextLength <? Z.of_nat (length (runes current))
            then Err ("dynamic text is too long at " +:+ path) else Ok tt
        | JObj current =>
            first_error (fun kv : string * json =>
              validateDynamicValues_fuel fuel kv.2 (path +:+ "." +:+ kv.1) (depth + 1))
              (map_to_list current)
        | JArr current =>
            if maxDynamicChildren <? Z.of_nat (length current)
            then Err ("dynamic value list is too long at " +:+ path)
            else first_error (fun ic : nat * json =>
                   validateDynamicValues_fuel fuel ic.2 (item_path path ic.1) (depth + 1))
                   (imap (fun i c => (i, c)) current)
        | _ => Ok tt
        end
    end.
Definition dynamic_fuel : nat := 12.
Definition validateDynamicValues (value : json) (path : string) (depth : Z) : result unit :=
  validateDynamicValues_fuel dynamic_fuel value path depth.

(** ** Nodes *)

Record dynamicValidationState := mkDynState {
  ds_ids : gset string; ds_count : Z; ds_images : Z }.
#[export] Instance eta_dynamicValidationState : Eta dynamicValidationState := fun r =>
  mkDynState r.(ds_ids) r.(ds_count) r.(ds_images).

Section content.
Context `{Runtime}.

Definition validDynamicHTTPSURL (raw : string) : bool :=
  if bool_decide (raw = "") || (2048 <? slen raw) || negb (bool_decide (raw = TrimSpace raw))
     || negb (ValidString raw)
  then false
  else match parse_request_uri raw with
       | Some parsed => bool_decide (parsed.(URL_Scheme) = "https")
                        && negb (bool_decide (parsed.(URL_Host) = ""))
                        && negb parsed.(URL_HasUser)
       | None => false
       end.

Definition validate_props (node : jmap) (path : string) : result unit :=
  match node !! "props" with
  | None => Ok tt
  | Some (JObj m) => validateDynamicValues (JObj m) (path +:+ ".props") 0
  | Some _ => Err ("dynamic node props are invalid at " +:+ path)
  end.

(** the image limit and the URL rule, for a node of type "image" *)
Definition validate_image (node : jmap) (path typeName : string)
    (state : dynamicValidationState) : result dynamicValidationState :=
  if negb (bool_decide (typeName = "image")) then Ok state
  else
    let state := state <| ds_images ::= Z.succ |> in
    if maxDynamicImages <? state.(ds_images)
    then Err ("dynamic content image limit exceeded at " +:+ path)
    else
      let propsMap := default ∅ (node !! "props" ≫= as_object) in
      match propsMap !! "url" with
      | None => Ok state
      | Some rawURL =>
          match as_string rawURL with
          | Some imageURL => if validDynamicHTTPSURL imageURL then Ok state
                             else Err "dynamic image URL must use HTTPS"
          | None => Err "dynamic image URL must use HTTPS"
          end
      end.

Definition validate_event_definition (kv : string * json) : result unit :=
  if negb (bool_decide (kv.1 ∈ allowedDynamicEvents))
  then Err ("dynamic event " +:+ quoted kv.1 +:+ " is not allowed")
  else
    match as_object kv.2 with
    | None => Err ("dynamic event " +:+ quoted kv.1 +:+ " is invalid")
    | Some definitionMap =>
        match definitionMap !! "action" with
        | None => Ok tt
        | Some action =>
            match as_string action with
            | Some value => if maxDynamicIdentifier <? slen value
                            then Err "dynamic event action is invalid" else Ok tt
            | None => Err "dynamic event action is invalid"
            end
        end
    end.

Definition validate_events (node : jmap) (path : string) : result unit :=
  match node !! "events" with
  | None => Ok tt
  | Some events =>
      match as_object events with
      | None => Err ("dynamic node events are invalid at " +:+ path)
      | Some eventMap => first_error validate_event_definition (map_to_list eventMap)
      end
  end.

(** everything [validateDynamicNode] checks on a node before its children *)
Definition validate_node_header (node : jmap) (path : string) (depth : Z)
    (state : dynamicValidationState) : result dynamicValidationState :=
  let state := state <| ds_count ::= Z.succ |> in
  if maxDynamicNodes <? state.(ds_count)
  then Err ("dynamic content node limit exceeded at " +:+ path)
  else if maxDynamicDepth <? depth
  then Err ("dynamic content tree depth exceeded at " +:+ path)
  else
    let id := str node "id" in
    if negb (validDynamicIdentifier id) then Err ("dynamic node id is invalid at " +:+ path)
    else if bool_decide (id ∈ state.(ds_ids))
    then Err ("dynamic node id " +:+ quoted id +:+ " is duplicated")
    else
      let state := state <| ds_ids ::= fun ids => ids ∪ {[id]} |> in
      let typeName := str node "type" in
      if bool_decide (TrimSpace typeName = "") || (64 <? slen typeName)
      then Err ("dynamic node type is invalid at " +:+ path)
      else
        match validate_props node path with
        | Err e => Err e
        | Ok _ =>
            match validate_image node path typeName state with
            | Err e => Err e
            | Ok state =>
                match validate_events node path with
                | Err e => Err e
                | Ok _ => Ok state
                end
            end
        end.

Fixpoint validateDynamicNode (fuel : nat) (node : jmap) (path : string) (depth : Z)
    (state : dynamicValidationState) : result dynamicValidationState :=
  match validate_node_header node path depth state with
  | Err e => Err e
  | Ok state =>
      match fuel with
      | O => Err "unreachable"
      | S fuel =>
          match node !! "children" with
          | None => Ok state
          | Some (JArr childList) =>
              if maxDynamicChildren <? Z.of_nat (length childList)
              then Err ("dynamic node children are invalid at " +:+ path)
              else
                (fix walk (index : nat) (l : list json) (state : dynamicValidationState) :=
                   match l with
                   | [] => Ok state
                   | rawChild :: l =>
                       match as_object rawChild with
                       | None => Err ("dynamic child is invalid at " +:+ child_path path index)
                       | Some child =>
                           match validateDynamicNode fuel child (child_path path index)
                                   (depth + 1) state with
                           | Err e => Err e
                           | Ok state => walk (S index) l state
                           end
                       end
                   end) 0%nat childList state
          | Some _ => Err ("dynamic node children are invalid at " +:+ path)
          end
      end
  end.

(** ** Schemas *)

Definition copy_missing (keys : list string) (from to : jmap) : jmap :=
  foldl (fun schema key =>
    match schema !! key, from !! key with
    | None, Some value => <[key := value]> schema
    | _, _ => schema
    end) to keys.

(** json.Unmarshal into a map: [null] leaves it nil *)
Definition unmarshal_map (s : string) : result (option jmap) :=
  match json_unmarshal s with
  | Some (JObj m) => Ok (Some m)
  | Some JNull => Ok None
  | _ => Err "dynamic content schema is not valid JSON"
  end.

(** the schema itself, before the members that may sit beside it are copied *)
Definition nested_schema (data : jmap) : result (option jmap) :=
  match data !! "content" with
  | Some (JStr nested) => unmarshal_map nested
  | Some (JObj nested) => Ok (Some (cloneDynamicMap nested))
  | _ =>
      match data !! "schema" with
      | Some (JStr nested) => unmarshal_map nested
      | Some (JObj nested) => Ok (Some (cloneDynamicMap nested))
      | _ => Ok (Some (cloneDynamicMap data))
      end
  end.

Definition dynamicSchemaFromData (data : jmap) : result jmap :=
  match nested_schema data with
  | Err e => Err e
  | Ok None => Err "dynamic content schema is not an object"
  | Ok (Some schema) =>
      Ok (copy_missing ["id"; "version"; "source"; "tree"; "fallback"; "metadata"] data schema)
  end.

Definition validate_fallback (schema : jmap) : result unit :=
  match schema !! "fallback" with
  | None => Ok tt
  | Some fallback =>
      match as_object fallback with
      | None => Err "dynamic fallback is invalid"
      | Some fallbackMap =>
          let bad_type := match fallbackMap !! "type" with
                          | Some fallbackType => bool_decide (as_string fallbackType = None)
                          | None => false
                          end in
          if bad_type then Err "dynamic fallback type is invalid"
          else if bool_decide (is_Some (fallbackMap !! "content"))
                  && bool_decide (get_string fallbackMap "content" = None)
          then Err "dynamic fallback content is invalid"
          else if maxDynamicTextLength <? Z.of_nat (length (runes (str fallbackMap "content")))
          then Err "dynamic fallback is too long"
          else Ok tt
      end
  end.

Definition validate_metadata (schema : jmap) : result unit :=
  match schema !! "metadata" with
  | None => Ok tt
  | Some metadata =>
      match as_object metadata with
      | None => Err "dynamic metadata is invalid"
      | Some metadataMap => validateDynamicValues (JObj metadataMap) "metadata" 0
      end
  end.

Definition dynamic_sources : gset string := {["ai"; "user"; "system"; "plugin"; "server"]}.

Definition validateDynamicSchema (schema : jmap) : result unit :=
  let id := str schema "id" in
  if negb (validDynamicIdentifier id) then Err "dynamic content id is invalid"
  else
    let version := str schema "version" in
    if bool_decide (TrimSpace version = "") || (32 <? slen version)
    then Err "dynamic content version is invalid"
    else if negb (bool_decide (str schema "source" ∈ dynamic_sources))
    then Err "dynamic content source is invalid"
    else
      match get_object schema "tree" with
      | None => Err "dynamic content tree is missing"
      | Some tree =>
          match validateDynamicNode dynamic_fuel tree "tree" 0 (mkDynState ∅ 0 0) with
          | Err e => Err e
          | Ok _ =>
              match validate_fallback schema with
              | Err e => Err e
              | Ok _ => validate_metadata schema
              end
          end
      end.

(** ** Mutation requests *)

Definition validate_patch (patch : jmap) : result unit :=
  let operation := str patch "operation" in
  let nodeID := str patch "node_id" in
  if negb (bool_decide (operation = "create")) && negb (bool_decide (operation = "update"))
     && negb (bool_decide (operation = "replace")) && negb (bool_decide (operation = "remove"))
  then Err "dynamic update operation is invalid"
  else if negb (validDynamicIdentifier nodeID) then Err "dynamic update node_id is invalid"
  else
    let bad_index := match patch !! "index" with
                     | None => false
                     | Some rawIndex =>
                         match exactInt64 rawIndex with
                         | Some v => (v <? 0) || (maxDynamicChildren <? v)
                         | None => true
                         end
                     end in
    if bad_index then Err "dynamic update index is invalid"
    else if bool_decide (operation = "create")
            && negb (validDynamicIdentifier (str patch "parent_node_id"))
    then Err "dynamic create parent_node_id is required"
    else
      let props_ok :=
        if bool_decide (operation = "update") then
          match patch !! "props" with
          | None => Ok tt
          | Some (JObj m) => validateDynamicValues (JObj m) "patch.props" 0
          | Some _ => Err "dynamic update props are invalid"
          end
        else Ok tt in
      match props_ok with
      | Err e => Err e
      | Ok _ =>
          if bool_decide (operation = "create") || bool_decide (operation = "replace") then
            match get_object patch "node" with
            | None => Err ("dynamic " +:+ operation +:+ " patch requires node")
            | Some node =>
                if bool_decide (str node "id" = nodeID) then Ok tt
                else Err "dynamic patch node id does not match node_id"
            end
          else Ok tt
      end.

Fixpoint parse_patches (index : nat) (rawPatches : list json) : result (list jmap) :=
  match rawPatches with
  | [] => Ok []
  | raw :: rest =>
      match as_object raw with
      | None => Err ("dynamic update patch " +:+ sprint_d (Z.of_nat index) +:+ " is invalid")
      | Some patch =>
          match validate_patch patch with
          | Err e => Err e
          | Ok _ => match parse_patches (S index) rest with
                    | Err e => Err e
                    | Ok patches => Ok (patch :: patches)
                    end
          end
      end
  end.

(** the message, the content and the patches *)
Definition parseDynamicUpdateData (data : jmap) : result (string * string * list jmap) :=
  let data := match get_object data "update" with
              | Some nested => copy_missing ["message_id"; "content_id"; "patches"] data
                                 (cloneDynamicMap nested)
              | None => data
              end in
  let messageID := str data "message_id" in
  let contentID := str data "content_id" in
  if negb (validDynamicIdentifier messageID) || negb (validDynamicIdentifier contentID)
  then Err "dynamic update message_id or content_id is invalid"
  else
    match get_array data "patches" with
    | None => Err "dynamic update patches are invalid"
    | Some rawPatches =>
        if bool_decide (rawPatches = []) || (maxDynamicNodes <? Z.of_nat (length rawPatches))
        then Err "dynamic update patches are invalid"
        else match parse_patches 0 rawPatches with
             | Err e => Err e
             | Ok patches => Ok (messageID, contentID, patches)
             end
    end.

Definition parseDynamicReplaceData (data : jmap) : result (string * string * jmap) :=
  let messageID := str data "message_id" in
  let contentID := str data "content_id" in
  if negb (validDynamicIdentifier messageID) || negb (validDynamicIdentifier contentID)
  then Err "dynamic replace message_id or content_id is invalid"
  else
    match data !! "content" with
    | None => Err "dynamic replace content is missing"
    | Some _ =>
        match dynamicSchemaFromData data with
        | Err e => Err e
        | Ok schema =>
            if negb (is_str (schema !! "id") contentID)
            then Err "dynamic replacement id does not match content_id"
            else match validateDynamicSchema schema with
                 | Err e => Err e
                 | Ok _ => Ok (messageID, contentID, schema)
                 end
        end
    end.

Definition parseDynamicRemoveData (data : jmap) : result (string * string) :=
  let messageID := str data "message_id" in
  let contentID := str data "content_id" in
  if negb (validDynamicIdentifier messageID) || negb (validDynamicIdentifier contentID)
  then Err "dynamic remove message_id or content_id is invalid"
  else Ok (messageID, contentID).

Definition dynamicMutationMessageID (segment : MessageSegment) : result string :=
  if bool_decide (segment.(MessageSegment_Type) = "dynamic_update") then
    match parseDynamicUpdateData segment.(MessageSegment_Data) with
    | Ok (messageID, _, _) => Ok messageID | Err e => Err e end
  else if bool_decide (segment.(MessageSegment_Type) = "dynamic_replace") then
    match parseDynamicReplaceData segment.(MessageSegment_Data) with
    | Ok (messageID, _, _) => Ok messageID | Err e => Err e end
  else if bool_decide (segment.(MessageSegment_Type) = "dynamic_remove") then
    match parseDynamicRemoveData segment.(MessageSegment_Data) with
    | Ok (messageID, _) => Ok messageID | Err e => Err e end
  else Err "unsupported dynamic mutation".

(** ** Nodes of a tree *)

Definition children_of (node : jmap) : list json := default [] (get_array node "children").

(** the path of child indices to the first node, in preorder, with the property *)
Fixpoint find_path_by (found : jmap -> bool) (fuel : nat) (root : jmap) : option (list nat) :=
  if found root then Some []
  else
    match fuel with
    | O => None
    | S fuel =>
        (fix walk (index : nat) (l : list json) : option (list nat) :=
           match l with
           | [] => None
           | rawChild :: l =>
               match as_object rawChild with
               | None => walk (S index) l
               | Some child =>
                   match find_path_by found fuel child with
                   | Some p => Some (index :: p)
                   | None => walk (S index) l
                   end
               end
           end) 0%nat (children_of root)
    end.

(** ... with the id *)
Definition find_path (fuel : nat) (root : jmap) (targetID : string) : option (list nat) :=
  find_path_by (fun node => bool_decide (str node "id" = targetID)) fuel root.

(** the node a path leads to *)
Fixpoint node_at (root : jmap) (path : list nat) : option jmap :=
  match path with
  | [] => Some root
  | i :: path => match children_of root !! i with
                 | Some (JObj child) => node_at child path
                 | _ => None
                 end
  end.

Definition findDynamicNode (root : jmap) (targetID : string)
  : option (jmap * option (jmap * nat)) :=
  match find_path (json_height (JObj root)) root targetID with
  | None => None
  | Some path =>
      match node_at root path with
      | None => None
      | Some node =>
          match reverse path with
          | [] => Some (node, None)
          | index :: up => match node_at root (reverse up) with
                           | Some parent => Some (node, Some (parent, index))
                           | None => None
                           end
          end
      end
  end.

(** an assignment through the pointer to the node at [path] *)
Fixpoint alter_at (path : list nat) (f : jmap -> jmap) (root : jmap) : jmap :=
  match path with
  | [] => f root
  | i :: path =>
      <["children" := JArr (alter (fun c => match c with
                                            | JObj child => JObj (alter_at path f child)
                                            | c => c
                                            end) i (children_of root))]> root
  end.

Definition path_to (root : jmap) (targetID : string) : option (list nat) :=
  find_path (json_height (JObj root)) root targetID.

(** ** Applying patches *)

Definition node_not_found (nodeID : string) : string :=
  "dynamic node " +:+ quoted nodeID +:+ " was not found".

Definition apply_patch (root : jmap) (patch : jmap) : result jmap :=
  let operation := str patch "operation" in
  let nodeID := str patch "node_id" in
  if bool_decide (operation = "update") then
    match path_to root nodeID with
    | None => Err (node_not_found nodeID)
    | Some path =>
        match get_object patch "props" with
        | None => Ok root
        | Some props =>
            Ok (alter_at path (fun node =>
                  let current := default ∅ (get_object node "props") in
                  <["props" := JObj (props ∪ cloneDynamicMap current)]> node) root)
        end
    end
  else if bool_decide (operation = "replace") then
    let replacement := cloneDynamicMap (default ∅ (get_object patch "node")) in
    match path_to root nodeID with
    | None => Err (node_not_found nodeID)
    | Some path => Ok (alter_at path (fun _ => replacement) root)
    end
  else if bool_decide (operation = "remove") then
    match path_to root nodeID with
    | None => Err (node_not_found nodeID)
    | Some path =>
        match reverse path with
        | [] => Err "the dynamic root node cannot be removed"
        | index :: up =>
            Ok (alter_at (reverse up) (fun parent =>
                  <["children" := JArr (take index (children_of parent)
                                        ++ drop (S index) (children_of parent))]> parent) root)
        end
    end
  else if bool_decide (operation = "create") then
    let parentID := str patch "parent_node_id" in
    let created := cloneDynamicMap (default ∅ (get_object patch "node")) in
    match path_to root nodeID with
    | Some _ => Err ("dynamic node " +:+ quoted nodeID +:+ " already exists")
    | None =>
        match path_to root parentID with
        | None => Err ("dynamic parent node " +:+ quoted parentID +:+ " was not found")
        | Some path =>
            Ok (alter_at path (fun parent =>
                  let children := children_of parent in
                  let n := Z.of_nat (length children) in
                  let insertAt := match patch !! "index" with
                                  | None => n
                                  | Some rawIndex =>
                                      let value := default 0 (exactInt64 rawIndex) in
                                      if value <? n then value else n
                                  end in
                  <["children" := JArr (take (Z.to_nat insertAt) children
                                        ++ JObj created :: drop (Z.to_nat insertAt) children)]>
                    parent) root)
        end
    end
  else Ok root.

Fixpoint apply_patches (root : jmap) (patches : list jmap) : result jmap :=
  match patches with
  | [] => Ok root
  | patch :: patches =>
      match apply_patch root patch with
      | Err e => Err e
      | Ok root => apply_patches root patches
      end
  end.

Definition applyDynamicPatches (schema : jmap) (patches : list jmap) : result jmap :=
  let result := cloneDynamicMap schema in
  match get_object result "tree" with
  | None => Err "dynamic content tree is missing"
  | Some root =>
      match apply_patches root patches with
      | Err e => Err e
      | Ok root => Ok (<["tree" := JObj root]> result)
      end
  end.

(** ** Segments *)

(** protocol.DynamicContentSegment: the schema without its "type" key *)
Definition DynamicContentSegment (schema : jmap) : MessageSegment :=
  mkMessageSegment "dynamic_content" (delete "type" schema).

(** the one dynamic-content segment with the content id, and its schema *)
Fixpoint find_content (segments : list MessageSegment) (index : nat) (contentID operation : string)
    (matched : option (nat * jmap)) : result (nat * jmap) :=
  match segments with
  | [] => match matched with
          | None => Err ("dynamic " +:+ operation +:+ " target content was not found")
          | Some m => Ok m
          end
  | segment :: rest =>
      if negb (bool_decide (segment.(MessageSegment_Type) = "dynamic_content"))
      then find_content rest (S index) contentID operation matched
      else
        match dynamicSchemaFromData segment.(MessageSegment_Data) with
        | Err e => Err e
        | Ok schema =>
            if negb (is_str (schema !! "id") contentID)
            then find_content rest (S index) contentID operation matched
            else match matched with
                 | Some _ => Err ("dynamic " +:+ operation +:+ " content_id is ambiguous")
                 | None => find_content rest (S index) contentID operation (Some (index, schema))
                 end
        end
  end.

Definition dynamicContentSegmentIndex (segments : list MessageSegment)
    (contentID operation : string) : result nat :=
  match find_content segments 0 contentID operation None with
  | Ok (index, _) => Ok index
  | Err e => Err e
  end.

Definition applyDynamicReplaceToSegments (segments : list MessageSegment) (data : jmap)
  : result (list MessageSegment * string) :=
  match parseDynamicReplaceData data with
  | Err e => Err e
  | Ok (messageID, contentID, replacement) =>
      match dynamicContentSegmentIndex segments contentID "replace" with
      | Err e => Err e
      | Ok index => Ok (<[index := DynamicContentSegment replacement]> segments, messageID)
      end
  end.

Definition applyDynamicRemoveToSegments (segments : list MessageSegment) (data : jmap)
  : result (list MessageSegment * string) :=
  match parseDynamicRemoveData data with
  | Err e => Err e
  | Ok (messageID, contentID) =>
      match dynamicContentSegmentIndex segments contentID "remove" with
      | Err e => Err e
      | Ok index => Ok (take index segments ++ drop (S index) segments, messageID)
      end
  end.

Definition applyDynamicUpdateToSegments (segments : list MessageSegment) (data : jmap)
  : result (list MessageSegment * string) :=
  match parseDynamicUpdateData data with
  | Err e => Err e
  | Ok (messageID, contentID, patches) =>
      match find_content segments 0 contentID "update" None with
      | Err e => Err e
      | Ok (dynamicIndex, schema) =>
          match applyDynamicPatches schema patches with
          | Err e => Err e
          | Ok updated =>
              match validateDynamicSchema updated with
              | Err e => Err e
              | Ok _ => Ok (<[dynamicIndex := DynamicContentSegment updated]> segments, messageID)
              end
          end
      end
  end.

Definition applyDynamicMutationToSegments (segments : list MessageSegment)
    (segment : MessageSegment) : result (list MessageSegment * string) :=
  let data := segment.(MessageSegment_Data) in
  if bool_decide (segment.(MessageSegment_Type) = "dynamic_update")
  then applyDynamicUpdateToSegments segments data
  else if bool_decide (segment.(MessageSegment_Type) = "dynamic_replace")
  then applyDynamicReplaceToSegments segments data
  else if bool_decide (segment.(MessageSegment_Type) = "dynamic_remove")
  then applyDynamicRemoveToSegments segments data
  else Err "unsupported dynamic mutation".

(** ** Validation of incoming segments *)

(** the size check shared by the three validators that encode the data first *)
Definition encoded_ok (what : string) (data : jmap) (k : result unit) : result unit :=
  match json_marshal (JObj data) with
  | None => Err ("dynamic " +:+ what +:+ " is not valid JSON")
  | Some encoded => if maxDynamicContentBytes <? slen encoded
                    then Err ("dynamic " +:+ what +:+ " is too large") else k
  end.

Definition validateDynamicContentSegment (segment : MessageSegment) : result unit :=
  if negb (bool_decide (segment.(MessageSegment_Type) = "dynamic_content")) then Ok tt
  else encoded_ok "content" segment.(MessageSegment_Data)
         match dynamicSchemaFromData segment.(MessageSegment_Data) with
         | Err e => Err e
         | Ok schema => validateDynamicSchema schema
         end.

Definition validateDynamicUpdateSegment (segment : MessageSegment) : result unit :=
  if negb (bool_decide (segment.(MessageSegment_Type) = "dynamic_update")) then Ok tt
  else encoded_ok "update" segment.(MessageSegment_Data)
         match parseDynamicUpdateData segment.(MessageSegment_Data) with
         | Err e => Err e
         | Ok _ => Ok tt
         end.

Definition validateDynamicReplaceSegment (segment : MessageSegment) : result unit :=
  if negb (bool_decide (segment.(MessageSegment_Type) = "dynamic_replace")) then Ok tt
  else encoded_ok "replace" segment.(MessageSegment_Data)
         match parseDynamicReplaceData segment.(MessageSegment_Data) with
         | Err e => Err e
         | Ok _ => Ok tt
         end.

Definition validateDynamicRemoveSegment (segment : MessageSegment) : result unit :=
  if negb (bool_decide (segment.(MessageSegment_Type) = "dynamic_remove")) then Ok tt
  else match parseDynamicRemoveData segment.(MessageSegment_Data) with
       | Err e => Err e
       | Ok _ => Ok tt
       end.

(** ** Events *)

Definition validateDynamicEventSegment (segment : MessageSegment) : result unit :=
  let data := segment.(MessageSegment_Data) in
  if negb (bool_decide (segment.(MessageSegment_Type) = "dynamic_event")) then Ok tt
  else
    match first_error (fun key => if validDynamicIdentifier (str data key) then Ok tt
                                  else Err ("dynamic event " +:+ key +:+ " is invalid"))
            ["message_id"; "content_id"; "node_id"] with
    | Err e => Err e
    | Ok _ =>
        let bad_event_id := match data !! "event_id" with
                            | None => false
                            | Some v => match as_string v with
                                        | Some value => negb (validDynamicIdentifier value)
                                        | None => true
                                        end
                            end in
        let bad_action := match data !! "action" with
                          | None => false
                          | Some v => match as_string v with
                                      | Some value => maxDynamicIdentifier <? slen value
                                      | None => true
                                      end
                          end in
        if bad_event_id then Err "dynamic event event_id is invalid"
        else if negb (bool_decide (str data "event" ∈ allowedDynamicEvents))
        then Err "dynamic event type is not allowed"
        else if bad_action then Err "dynamic event action is invalid"
        else match data !! "payload" with
             | None => Ok tt
             | Some (JObj payloadMap) => validateDynamicValues (JObj payloadMap) "payload" 0
             | Some _ => Err "dynamic event payload is invalid"
             end
    end.

(** the actions a legacy terminal card accepts for an event *)
Definition legacy_action_ok (eventName action : string) : result unit :=
  if bool_decide (eventName = "click") then
    if bool_decide (action = "approve") || bool_decide (action = "allow") then Ok tt
    else Err "legacy terminal event action does not match click"
  else if bool_decide (eventName = "tap") then
    if bool_decide (action = "deny") || bool_decide (action = "reject") then Ok tt
    else Err "legacy terminal event action does not match tap"
  else if bool_decide (eventName = "change") then
    if bool_decide (action = "modify") then Ok tt
    else Err "legacy terminal event action does not match change"
  else Err "legacy terminal event type is not allowed".

(** the loop over the segments: [(matched, legacyMatched, targetNode)] *)
Fixpoint find_event_target (segments : list MessageSegment) (index : nat) (data : jmap)
    (acc : bool * bool * option jmap) : result (bool * bool * option jmap) :=
  match segments with
  | [] => Ok acc
  | segment :: rest =>
      let '(matched, legacyMatched, targetNode) := acc in
      let contentID := str data "content_id" in
      let nodeID := str data "node_id" in
      if negb (bool_decide (segment.(MessageSegment_Type) = "dynamic_content")) then
        if negb (bool_decide (segment.(MessageSegment_Type) = "terminal_request"))
        then find_event_target rest (S index) data acc
        else
          let requestID := str segment.(MessageSegment_Data) "request_id" in
          let legacyContentID := "legacy:" +:+ str data "message_id" +:+ ":"
                                 +:+ sprint_d (Z.of_nat index) in
          let legacyNodeID := "terminal-request-" +:+ requestID in
          if negb (bool_decide (contentID = legacyContentID))
             || negb (bool_decide (nodeID = legacyNodeID))
          then find_event_target rest (S index) data acc
          else if matched then Err "dynamic event content_id is ambiguous"
          else match legacy_action_ok (str data "event") (str data "action") with
               | Err e => Err e
               | Ok _ => find_event_target rest (S index) data (true, true, targetNode)
               end
      else
        match dynamicSchemaFromData segment.(MessageSegment_Data) with
        | Err e => Err e
        | Ok schema =>
            if negb (is_str (schema !! "id") contentID)
            then find_event_target rest (S index) data acc
            else if matched then Err "dynamic event content_id is ambiguous"
            else match get_object schema "tree" with
                 | None => Err "dynamic event target tree is missing"
                 | Some tree =>
                     match findDynamicNode tree nodeID with
                     | None => Err "dynamic event target node was not found"
                     | Some (node, _) =>
                         find_event_target rest (S index) data (true, legacyMatched, Some node)
                     end
                 end
        end
  end.

Definition validateDynamicEventTarget (segments : list MessageSegment) (data : jmap)
  : result unit :=
  match find_event_target segments 0 data (false, false, None) with
  | Err e => Err e
  | Ok (matched, legacyMatched, targetNode) =>
      if legacyMatched then Ok tt
      else
        match matched, targetNode with
        | true, Some node =>
            match get_object node "events" ≫= fun events => get_object events (str data "event") with
            | None => Err "dynamic event is not declared by the target node"
            | Some definition =>
                if bool_decide (str definition "action" = str data "action") then Ok tt
                else Err "dynamic event action does not match the target schema"
            end
        | _, _ => Err "dynamic event target content was not found"
        end
  end.
End content.
