(* ===== verification/Capabilities.v ===== *)
(** * Capability negotiation (gateway/dynamic_capabilities.go)

    What a client declares at login, what the server agrees to, and how messages
    are adapted to a connection that does not support dynamic content. *)
From S2P Require Import Prelude GoLib Types DynamicContent.
From stdpp Require Import gmap strings list.
From Stdlib Require Import ZArith.

Local Open Scope Z_scope.

(** protocol.DynamicContentCapabilities and protocol.Capabilities *)
Record DynamicContentCapabilities := mkDynamicContentCapabilities {
  SchemaVersions : list string; ComponentVersion : string; Components : list string;
  Events : bool; NodeIDPatch : bool; ContentOperations : bool }.
#[export] Instance eta_DynamicContentCapabilities : Eta DynamicContentCapabilities := fun r =>
  mkDynamicContentCapabilities r.(SchemaVersions) r.(ComponentVersion) r.(Components)
    r.(Events) r.(NodeIDPatch) r.(ContentOperations).
Record Capabilities := mkCapabilities {
  ProtocolVersion : string; DynamicContent : option DynamicContentCapabilities }.
#[export] Instance eta_Capabilities : Eta Capabilities := fun r =>
  mkCapabilities r.(ProtocolVersion) r.(DynamicContent).

Definition no_capabilities : Capabilities := mkCapabilities "" None.

Definition CurrentProtocolVersion : string := "1.0".
Definition CurrentDynamicComponentVersion : string := "1.0".
Definition CurrentServerCapabilities : Capabilities :=
  mkCapabilities CurrentProtocolVersion
    (Some (mkDynamicContentCapabilities ["1.0"] CurrentDynamicComponentVersion [] true true true)).

Definition maxCapabilityPayloadBytes : Z := 16 * 1024.
Definition maxCapabilityVersions : Z := 16.
Definition maxCapabilityComponents : Z := 128.
Definition maxCapabilityVersionBytes : Z := 32.
Definition maxCapabilityNameBytes : Z := 64.
Definition dynamicUpgradeFallback : string := "此内容需要升级客户端后查看".

(** ** Decoding into the structs

    encoding/json matches an object key with a field's tag up to case folding (the
    Kelvin sign folds with k and the long s with s), visits the keys in sorted
    order, leaves a field alone on [null], and fails on a value of another type. *)
Definition fold_rune (r : Z) : Z :=
  if GoLib.between 0x41 0x5A r then r + 32
  else if Z.eqb r 0x17F then 0x73 else if Z.eqb r 0x212A then 0x6B else r.
Definition same_key (a b : string) : bool :=
  bool_decide ((fold_rune <$> runes a) = (fold_rune <$> runes b)).

(** the members of an object in the order json.Marshal writes them *)
Definition sorted_members (m : jmap) : list (string * json) :=
  sort_slice (fun a b => String.ltb a.1 b.1) (map_to_list m).

Definition decode_string (v : json) (old : string) : option string :=
  match v with JStr s => Some s | JNull => Some old | _ => None end.
Definition decode_bool (v : json) (old : bool) : option bool :=
  match v with JBool b => Some b | JNull => Some old | _ => None end.
Definition decode_strings (v : json) (old : list string) : option (list string) :=
  match v with
  | JArr l => mapM (fun x => decode_string x "") l
  | JNull => Some []
  | _ => None
  end.

(** folds a setter over the members of an object *)
Definition decode_members {A} (set : string -> json -> A -> option A) (m : jmap) (init : A)
  : option A :=
  foldl (fun acc kv => acc ≫= set kv.1 kv.2) (Some init) (sorted_members m).

Definition set_dynamic_field (key : string) (v : json) (d : DynamicContentCapabilities)
  : option DynamicContentCapabilities :=
  if same_key key "schema_versions"
  then (fun x => d <| SchemaVersions := x |>) <$> decode_strings v d.(SchemaVersions)
  else if same_key key "component_version"
  then (fun x => d <| ComponentVersion := x |>) <$> decode_string v d.(ComponentVersion)
  else if same_key key "components"
  then (fun x => d <| Components := x |>) <$> decode_strings v d.(Components)
  else if same_key key "events"
  then (fun x => d <| Events := x |>) <$> decode_bool v d.(Events)
  else if same_key key "node_id_patch"
  then (fun x => d <| NodeIDPatch := x |>) <$> decode_bool v d.(NodeIDPatch)
  else if same_key key "content_operations"
  then (fun x => d <| ContentOperations := x |>) <$> decode_bool v d.(ContentOperations)
  else Some d.

Definition set_capability_field (key : string) (v : json) (c : Capabilities)
  : option Capabilities :=
  if same_key key "protocol_version"
  then (fun x => c <| ProtocolVersion := x |>) <$> decode_string v c.(ProtocolVersion)
  else if same_key key "dynamic_content" then
    match v with
    | JNull => Some (c <| DynamicContent := None |>)
    | JObj m =>
        let old := default (mkDynamicContentCapabilities [] "" [] false false false)
                     c.(DynamicContent) in
        (fun d => c <| DynamicContent := Some d |>) <$> decode_members set_dynamic_field m old
    | _ => None
    end
  else Some c.

Definition decode_capabilities (v : json) : option Capabilities :=
  match v with
  | JObj m => decode_members set_capability_field m no_capabilities
  | JNull => Some no_capabilities
  | _ => None
  end.

(** ** Parsing and negotiation *)

Definition rune_in (ok : Z -> bool) (value : string) : bool := forallb ok (runes value).
Definition version_rune (r : Z) : bool :=
  is_lower r || is_upper r || is_digit r || is_char "." r || is_char "-" r.
Definition name_rune (r : Z) : bool :=
  is_lower r || is_upper r || is_digit r || is_char "_" r || is_char "-" r || is_char "." r
  || is_char ":" r.

Definition validCapabilityVersion (value : string) : bool :=
  negb (bool_decide (value = "")) && (slen value <=? maxCapabilityVersionBytes)
  && rune_in version_rune value.

Definition validCapabilityName (value : string) : bool :=
  negb (bool_decide (value = "")) && (slen value <=? maxCapabilityNameBytes)
  && rune_in name_rune value.

Fixpoint normalize_values (values : list string) (maxBytes : Z) (valid : string -> bool)
    (seen : gset string) : option (list string) :=
  match values with
  | [] => Some []
  | value :: values =>
      let value := TrimSpace value in
      if bool_decide (value = "") || (maxBytes <? slen value) || negb (valid value) then None
      else if bool_decide (value ∈ seen) then normalize_values values maxBytes valid seen
      else cons value <$> normalize_values values maxBytes valid ({[value]} ∪ seen)
  end.

(** [None] is an error *)
Definition normalizedCapabilityValues (values : list string) (maxBytes : Z)
    (valid : string -> bool) : option (list string) :=
  match normalize_values values maxBytes valid ∅ with
  | Some [] | None => None
  | Some result => Some result
  end.

Section capabilities.
Context `{Runtime}.

Definition parseClientCapabilities (value : option json) : result Capabilities :=
  match value with
  | None | Some JNull => Ok no_capabilities
  | Some value =>
      match json_marshal value with
      | None => Err "capabilities are invalid"
      | Some encoded =>
          if maxCapabilityPayloadBytes <? slen encoded then Err "capabilities are invalid"
          else
            match decode_capabilities value with
            | None => Err "capabilities are invalid"
            | Some capabilities =>
                if negb (validCapabilityVersion capabilities.(ProtocolVersion))
                then Err "protocol_version is invalid"
                else
                  match capabilities.(DynamicContent) with
                  | None => Ok capabilities
                  | Some dynamic =>
                      if bool_decide (dynamic.(SchemaVersions) = [])
                         || (maxCapabilityVersions <? Z.of_nat (length dynamic.(SchemaVersions)))
                      then Err "dynamic schema_versions are invalid"
                      else if negb (validCapabilityVersion dynamic.(ComponentVersion))
                      then Err "dynamic component_version is invalid"
                      else if bool_decide (dynamic.(Components) = [])
                              || (maxCapabilityComponents <? Z.of_nat (length dynamic.(Components)))
                      then Err "dynamic components are invalid"
                      else
                        match normalizedCapabilityValues dynamic.(SchemaVersions)
                                maxCapabilityVersionBytes validCapabilityVersion with
                        | None => Err "dynamic schema_versions are invalid"
                        | Some versions =>
                            match normalizedCapabilityValues dynamic.(Components)
                                    maxCapabilityNameBytes validCapabilityName with
                            | None => Err "dynamic components are invalid"
                            | Some components =>
                                Ok (capabilities <| DynamicContent := Some
                                      (dynamic <| SchemaVersions := versions |>
                                               <| Components := components |>) |>)
                            end
                        end
                  end
            end
      end
  end.

Definition intersectCapabilityValues (left right : list string) : list string :=
  filter (fun value => value ∈ right) left.

Definition negotiateCapabilities (client : Capabilities) : Capabilities :=
  if negb (bool_decide (client.(ProtocolVersion) = CurrentProtocolVersion)) then no_capabilities
  else
    let result := mkCapabilities CurrentProtocolVersion None in
    match client.(DynamicContent) with
    | None => result
    | Some dynamic =>
        if negb (bool_decide (dynamic.(ComponentVersion) = CurrentDynamicComponentVersion))
        then result
        else
          let schemas := intersectCapabilityValues dynamic.(SchemaVersions)
            (from_option SchemaVersions [] CurrentServerCapabilities.(DynamicContent)) in
          if bool_decide (schemas = []) then result
          else mkCapabilities CurrentProtocolVersion
                 (Some (mkDynamicContentCapabilities schemas CurrentDynamicComponentVersion
                          dynamic.(Components) dynamic.(Events) dynamic.(NodeIDPatch)
                          dynamic.(ContentOperations)))
    end.

(** ** Adapting messages *)

Definition sensitive_types : gset string :=
  {["dynamic_content"; "dynamic_update"; "dynamic_replace"; "dynamic_remove"; "dynamic_event"]}.
Definition hasCapabilitySensitiveSegment (segments : list MessageSegment) : bool :=
  existsb (fun s => bool_decide (s.(MessageSegment_Type) ∈ sensitive_types)) segments.

(** the recursion is on the tree, [fuel] its height *)
Fixpoint tree_uses_only (fuel : nat) (value : json) (components : list string) : bool :=
  match value, fuel with
  | JObj node, S fuel =>
      bool_decide (str node "type" ∈ components)
      && forallb (fun child => tree_uses_only fuel child components) (children_of node)
  | _, _ => false
  end.
Definition dynamicTreeUsesOnlyComponents (value : json) (components : list string) : bool :=
  tree_uses_only (json_height value) value components.

Definition supportsDynamicContentSegment (capabilities : option DynamicContentCapabilities)
    (segment : MessageSegment) : bool :=
  match capabilities with
  | None => false
  | Some capabilities =>
      match dynamicSchemaFromData segment.(MessageSegment_Data) with
      | Err _ => false
      | Ok schema =>
          if negb (bool_decide (str schema "version" ∈ capabilities.(SchemaVersions))) then false
          else if negb (bool_decide (capabilities.(ComponentVersion) = CurrentDynamicComponentVersion))
          then false
          else match schema !! "tree" with
               | None => false
               | Some tree => dynamicTreeUsesOnlyComponents tree capabilities.(Components)
               end
      end
  end.

Definition TextSegment (text : string) : MessageSegment :=
  mkMessageSegment "text" {["text" := JStr text]}.

Definition dynamicFallbackSegment (segment : MessageSegment) : MessageSegment :=
  let text :=
    match dynamicSchemaFromData segment.(MessageSegment_Data) with
    | Err _ => dynamicUpgradeFallback
    | Ok schema =>
        match get_object schema "fallback" ≫= fun fallback => get_string fallback "content" with
        | Some content => if bool_decide (TrimSpace content = "") then dynamicUpgradeFallback
                          else content
        | None => dynamicUpgradeFallback
        end
    end in
  TextSegment text.

Definition dynamicReplacementSegment (segment : MessageSegment) : result MessageSegment :=
  match parseDynamicReplaceData segment.(MessageSegment_Data) with
  | Err e => Err e
  | Ok (_, _, content) => Ok (DynamicContentSegment content)
  end.

(** one segment for a connection; [None] withholds the whole message *)
Definition segment_for_client (dynamic : option DynamicContentCapabilities)
    (segment : MessageSegment) : option MessageSegment :=
  let ty := segment.(MessageSegment_Type) in
  if bool_decide (ty = "dynamic_content") then
    if supportsDynamicContentSegment dynamic segment then Some segment
    else Some (dynamicFallbackSegment segment)
  else if bool_decide (ty = "dynamic_update") then
    if from_option NodeIDPatch false dynamic then Some segment else None
  else if bool_decide (ty = "dynamic_replace") then
    if from_option ContentOperations false dynamic then
      match dynamicReplacementSegment segment with
      | Ok replacement => if supportsDynamicContentSegment dynamic replacement then Some segment
                          else None
      | Err _ => None
      end
    else None
  else if bool_decide (ty = "dynamic_remove") then
    if from_option ContentOperations false dynamic then Some segment else None
  else if bool_decide (ty = "dynamic_event") then
    if from_option Events false dynamic then Some segment else None
  else Some segment.

Definition segmentsForClient (capabilities : Capabilities) (segments : list MessageSegment)
  : option (list MessageSegment) :=
  if negb (hasCapabilitySensitiveSegment segments) then Some segments
  else mapM (segment_for_client capabilities.(DynamicContent)) segments.

Definition clientMessageSegments (capabilities : Capabilities) (segments : list MessageSegment)
  : list MessageSegment := default [] (segmentsForClient capabilities segments).
End capabilities.
