(* ===== verification/DynamicInteraction.v ===== *)
(** * Interactive cards: configuration, policy and reducers (gateway/dynamic_interaction.go)

    A card may carry an interaction: a reducer that folds the recorded events of its
    participants into a state, a policy that says who may respond and how often, and
    a projection that writes the state into the card's nodes.  The reducers are pure
    functions of the events; [applyDynamicInteraction] computes the new segments.

    Go's [map[string]int] counts are numbers of a JSON object here: nothing reads
    them before they are encoded.  A schema whose tree sits beside a nested content
    shares that tree with the stored message, so the projection changes the stored
    card in place; [in_place] is what the stored segments become. *)
From S2P Require Import Prelude GoLib Types Float64 DynamicContent Capabilities.
From stdpp Require Import gmap strings list.
From Stdlib Require Import ZArith.

Local Open Scope Z_scope.
Local Open Scope go_scope.

Definition maxDynamicInteractionEvents : Z := 10000.

(** ** The configuration on the wire (protocol/protocol.go) *)

Record DynamicInteractionPolicy := mkPolicy {
  Policy_Response : string; Policy_AllowChange : option bool; Policy_Visibility : string;
  Policy_ExpiresAtMS : Z; Policy_Audience : list string; Policy_AllowAgent : bool;
  Policy_MaxResponsesPerActor : Z; Policy_Total : Z; Policy_Quorum : Z;
  Policy_Veto : option bool; Policy_InitialState : string;
  Policy_Transitions : gmap string (list string) }.
#[export] Instance eta_DynamicInteractionPolicy : Eta DynamicInteractionPolicy := fun r =>
  mkPolicy r.(Policy_Response) r.(Policy_AllowChange) r.(Policy_Visibility)
    r.(Policy_ExpiresAtMS) r.(Policy_Audience) r.(Policy_AllowAgent)
    r.(Policy_MaxResponsesPerActor) r.(Policy_Total) r.(Policy_Quorum) r.(Policy_Veto)
    r.(Policy_InitialState) r.(Policy_Transitions).

Record DynamicInteractionRouting := mkRouting {
  Routing_Fairy : string; Routing_Handler : string; Routing_Threshold : Z }.
#[export] Instance eta_DynamicInteractionRouting : Eta DynamicInteractionRouting := fun r =>
  mkRouting r.(Routing_Fairy) r.(Routing_Handler) r.(Routing_Threshold).

Record DynamicInteractionProjection := mkProjection {
  Projection_ProgressNodeID : string; Projection_StatusNodeID : string;
  Projection_ProgressText : string }.
#[export] Instance eta_DynamicInteractionProjection : Eta DynamicInteractionProjection := fun r =>
  mkProjection r.(Projection_ProgressNodeID) r.(Projection_StatusNodeID)
    r.(Projection_ProgressText).

Record DynamicInteractionConfig := mkWireConfig {
  Wire_Version : string; Wire_Kind : string; Wire_Reducer : string;
  Wire_Policy : DynamicInteractionPolicy; Wire_Routing : DynamicInteractionRouting;
  Wire_Projection : DynamicInteractionProjection; Wire_Total : Z;
  Wire_AllowChange : option bool; Wire_CloseOnResponse : option bool;
  Wire_ProgressNodeID : string; Wire_StatusNodeID : string; Wire_ProgressText : string }.
#[export] Instance eta_DynamicInteractionConfig : Eta DynamicInteractionConfig := fun r =>
  mkWireConfig r.(Wire_Version) r.(Wire_Kind) r.(Wire_Reducer) r.(Wire_Policy)
    r.(Wire_Routing) r.(Wire_Projection) r.(Wire_Total) r.(Wire_AllowChange)
    r.(Wire_CloseOnResponse) r.(Wire_ProgressNodeID) r.(Wire_StatusNodeID)
    r.(Wire_ProgressText).

Definition empty_policy : DynamicInteractionPolicy := mkPolicy "" None "" 0 [] false 0 0 0 None "" ∅.
Definition empty_wire : DynamicInteractionConfig :=
  mkWireConfig "" "" "" empty_policy (mkRouting "" "" 0) (mkProjection "" "" "") 0 None None "" "" "".

Section decoding.
Context `{Runtime}.

(** a number read back as an int: its text must be that of an integer *)
Definition decode_int (v : json) (old : Z) : option Z :=
  match v with
  | JNull => Some old
  | JNum n =>
      let t := num_trunc n in
      if negb (num_eqb n (num_of_Z t)) then None
      else if Z.abs t <=? 2 ^ 53 then Some t else reparse_int n
  | _ => None
  end.
(** a field of type *bool: null resets it *)
Definition decode_bool_ptr (v : json) : option (option bool) :=
  match v with JNull => Some None | JBool b => Some (Some b) | _ => None end.
(** a field of type map[string][]string *)
Definition decode_transitions (v : json) (old : gmap string (list string))
  : option (gmap string (list string)) :=
  match v with
  | JNull => Some ∅
  | JObj m => decode_members (fun key v m => (fun l => <[key := l]> m) <$> decode_strings v []) m old
  | _ => None
  end.
(** a nested struct: null leaves it alone *)
Definition decode_struct {A} (set : string -> json -> A -> option A) (v : json) (old : A) : option A :=
  match v with JNull => Some old | JObj m => decode_members set m old | _ => None end.

Definition set_policy_field (key : string) (v : json) (p : DynamicInteractionPolicy)
  : option DynamicInteractionPolicy :=
  if same_key key "response"
  then (fun x => p <| Policy_Response := x |>) <$> decode_string v p.(Policy_Response)
  else if same_key key "allow_change"
  then (fun x => p <| Policy_AllowChange := x |>) <$> decode_bool_ptr v
  else if same_key key "visibility"
  then (fun x => p <| Policy_Visibility := x |>) <$> decode_string v p.(Policy_Visibility)
  else if same_key key "expires_at_ms"
  then (fun x => p <| Policy_ExpiresAtMS := x |>) <$> decode_int v p.(Policy_ExpiresAtMS)
  else if same_key key "audience"
  then (fun x => p <| Policy_Audience := x |>) <$> decode_strings v p.(Policy_Audience)
  else if same_key key "allow_agent"
  then (fun x => p <| Policy_AllowAgent := x |>) <$> decode_bool v p.(Policy_AllowAgent)
  else if same_key key "max_responses_per_actor"
  then (fun x => p <| Policy_MaxResponsesPerActor := x |>)
         <$> decode_int v p.(Policy_MaxResponsesPerActor)
  else if same_key key "total"
  then (fun x => p <| Policy_Total := x |>) <$> decode_int v p.(Policy_Total)
  else if same_key key "quorum"
  then (fun x => p <| Policy_Quorum := x |>) <$> decode_int v p.(Policy_Quorum)
  else if same_key key "veto"
  then (fun x => p <| Policy_Veto := x |>) <$> decode_bool_ptr v
  else if same_key key "initial_state"
  then (fun x => p <| Policy_InitialState := x |>) <$> decode_string v p.(Policy_InitialState)
  else if same_key key "transitions"
  then (fun x => p <| Policy_Transitions := x |>) <$> decode_transitions v p.(Policy_Transitions)
  else Some p.

Definition set_routing_field (key : string) (v : json) (r : DynamicInteractionRouting)
  : option DynamicInteractionRouting :=
  if same_key key "fairy"
  then (fun x => r <| Routing_Fairy := x |>) <$> decode_string v r.(Routing_Fairy)
  else if same_key key "handler"
  then (fun x => r <| Routing_Handler := x |>) <$> decode_string v r.(Routing_Handler)
  else if same_key key "threshold"
  then (fun x => r <| Routing_Threshold := x |>) <$> decode_int v r.(Routing_Threshold)
  else Some r.

Definition set_projection_field (key : string) (v : json) (r : DynamicInteractionProjection)
  : option DynamicInteractionProjection :=
  if same_key key "progress_node_id"
  then (fun x => r <| Projection_ProgressNodeID := x |>)
         <$> decode_string v r.(Projection_ProgressNodeID)
  else if same_key key "status_node_id"
  then (fun x => r <| Projection_StatusNodeID := x |>) <$> decode_string v r.(Projection_StatusNodeID)
  else if same_key key "progress_text"
  then (fun x => r <| Projection_ProgressText := x |>) <$> decode_string v r.(Projection_ProgressText)
  else Some r.

Definition set_wire_field (key : string) (v : json) (w : DynamicInteractionConfig)
  : option DynamicInteractionConfig :=
  if same_key key "version"
  then (fun x => w <| Wire_Version := x |>) <$> decode_string v w.(Wire_Version)
  else if same_key key "kind"
  then (fun x => w <| Wire_Kind := x |>) <$> decode_string v w.(Wire_Kind)
  else if same_key key "reducer"
  then (fun x => w <| Wire_Reducer := x |>) <$> decode_string v w.(Wire_Reducer)
  else if same_key key "policy"
  then (fun x => w <| Wire_Policy := x |>) <$> decode_struct set_policy_field v w.(Wire_Policy)
  else if same_key key "routing"
  then (fun x => w <| Wire_Routing := x |>) <$> decode_struct set_routing_field v w.(Wire_Routing)
  else if same_key key "projection"
  then (fun x => w <| Wire_Projection := x |>)
         <$> decode_struct set_projection_field v w.(Wire_Projection)
  else if same_key key "total"
  then (fun x => w <| Wire_Total := x |>) <$> decode_int v w.(Wire_Total)
  else if same_key key "allow_change"
  then (fun x => w <| Wire_AllowChange := x |>) <$> decode_bool_ptr v
  else if same_key key "close_on_response"
  then (fun x => w <| Wire_CloseOnResponse := x |>) <$> decode_bool_ptr v
  else if same_key key "progress_node_id"
  then (fun x => w <| Wire_ProgressNodeID := x |>) <$> decode_string v w.(Wire_ProgressNodeID)
  else if same_key key "status_node_id"
  then (fun x => w <| Wire_StatusNodeID := x |>) <$> decode_string v w.(Wire_StatusNodeID)
  else if same_key key "progress_text"
  then (fun x => w <| Wire_ProgressText := x |>) <$> decode_string v w.(Wire_ProgressText)
  else Some w.
End decoding.

(** ** The configuration in use *)

Record dynamicInteractionConfig := mkConfig {
  wire : DynamicInteractionConfig; reducer : string; kind : string; response : string;
  allowChange : bool; visibility : string; total : Z; quorum : Z; veto : bool;
  fairyRoute : string; fairyThreshold : Z; progressNodeID : string; statusNodeID : string;
  progressText : string; legacyCloseOnResponse : bool }.
#[export] Instance eta_dynamicInteractionConfig : Eta dynamicInteractionConfig := fun r =>
  mkConfig r.(wire) r.(reducer) r.(kind) r.(response) r.(allowChange) r.(visibility) r.(total)
    r.(quorum) r.(veto) r.(fairyRoute) r.(fairyThreshold) r.(progressNodeID) r.(statusNodeID)
    r.(progressText) r.(legacyCloseOnResponse).

Definition defaultDynamicInteractionConfig : dynamicInteractionConfig :=
  mkConfig empty_wire "none" "" "many" true "public_aggregate" 0 0 true "" 0 "" "" "" false.

(** the zero value *)
Definition zero_config : dynamicInteractionConfig :=
  mkConfig empty_wire "" "" "" false "" 0 0 false "" 0 "" "" "" false.

Definition legacyDynamicReducer (kind : string) : string :=
  if bool_decide (kind ∈ ["vote"; "read"; "ack"]) then "set_by_actor"
  else if bool_decide (kind = "approval") then "approval_quorum"
  else "none".

Definition reducer_names : list string :=
  ["set_by_actor"; "append"; "counter"; "checklist"; "form"; "approval_quorum"; "state_machine"; "none"].
Definition visibilities : list string :=
  ["public_aggregate"; "public_detail"; "admin_detail"; "actor_only"; "anonymous_aggregate"].
Definition fairy_routes : list string := ["manual"; "on_close"; "on_threshold"; "each_event"].

(** the first of two strings, unless it is empty *)
Definition or_else (a b : string) : string := if bool_decide (a = "") then b else a.

Section interaction.
Context `{Runtime}.

Definition normal (s : string) : string := to_lower (TrimSpace s).

(** the configuration of a decoded interaction *)
Definition config_of_wire (wire : DynamicInteractionConfig) : result dynamicInteractionConfig :=
  let policy := wire.(Wire_Policy) in
  let kind := normal wire.(Wire_Kind) in
  let reducer := or_else (normal wire.(Wire_Reducer)) (legacyDynamicReducer kind) in
  if negb (bool_decide (reducer ∈ reducer_names))
  then Err ("dynamic interaction reducer " +:+ quoted reducer +:+ " is not supported")
  else
    let response := or_else (normal policy.(Policy_Response))
      (if bool_decide (reducer ∈ ["append"; "counter"; "state_machine"; "none"]) then "many" else "once") in
    if negb (bool_decide (response = "once")) && negb (bool_decide (response = "many"))
    then Err "dynamic interaction response policy is invalid"
    else
      let visibility := or_else (normal policy.(Policy_Visibility)) "public_aggregate" in
      if negb (bool_decide (visibility ∈ visibilities))
      then Err "dynamic interaction visibility is invalid"
      else
        let fairyRoute := normal wire.(Wire_Routing).(Routing_Fairy) in
        if negb (bool_decide (fairyRoute = "")) && negb (bool_decide (fairyRoute ∈ fairy_routes))
        then Err "dynamic interaction Fairy routing is invalid"
        else
          Ok (mkConfig wire reducer kind response
                match policy.(Policy_AllowChange), wire.(Wire_AllowChange) with
                | Some b, _ => b | None, Some b => b | None, None => true end
                visibility
                (if policy.(Policy_Total) <=? 0 then wire.(Wire_Total) else policy.(Policy_Total))
                policy.(Policy_Quorum) (default true policy.(Policy_Veto)) fairyRoute
                wire.(Wire_Routing).(Routing_Threshold)
                (or_else wire.(Wire_Projection).(Projection_ProgressNodeID) wire.(Wire_ProgressNodeID))
                (or_else wire.(Wire_Projection).(Projection_StatusNodeID) wire.(Wire_StatusNodeID))
                (or_else wire.(Wire_Projection).(Projection_ProgressText) wire.(Wire_ProgressText))
                (default false wire.(Wire_CloseOnResponse))).

(** the configuration, and whether the card has one *)
Definition parseDynamicInteractionConfig (schema : jmap)
  : result (dynamicInteractionConfig * bool) :=
  match get_object (default ∅ (get_object schema "metadata")) "interaction" with
  | None => Ok (defaultDynamicInteractionConfig, false)
  | Some raw =>
      match json_marshal (JObj raw) with
      | None => Err "dynamic interaction config is invalid"
      | Some _ =>
          match decode_members set_wire_field raw empty_wire with
          | None => Err "dynamic interaction config is invalid"
          | Some wire =>
              match config_of_wire wire with
              | Ok config => Ok (config, true)
              | Err e => Err e
              end
          end
      end
  end.

(** the first segment that is the dynamic content with the id: its index and schema *)
Fixpoint first_content (segments : list MessageSegment) (index : nat) (contentID : string)
  : result (option (nat * MessageSegment * jmap)) :=
  match segments with
  | [] => Ok None
  | segment :: segments =>
      if negb (bool_decide (segment.(MessageSegment_Type) = "dynamic_content"))
      then first_content segments (S index) contentID
      else
        match dynamicSchemaFromData segment.(MessageSegment_Data) with
        | Err e => Err e
        | Ok schema =>
            if is_str (schema !! "id") contentID then Ok (Some (index, segment, schema))
            else first_content segments (S index) contentID
        end
  end.

(** the schema (nil when there is none), the configuration, and whether it is configured *)
Definition dynamicInteractionSchema (target : Message) (contentID : string)
  : result (jmap * dynamicInteractionConfig * bool) :=
  match first_content target.(Message_Segments) 0 contentID with
  | Err e => Err e
  | Ok None => Ok (∅, zero_config, false)
  | Ok (Some (_, _, schema)) =>
      match parseDynamicInteractionConfig schema with
      | Err e => Err e
      | Ok (config, configured) => Ok (schema, config, configured)
      end
  end.

(** ** The policy *)

Definition dynamicAudienceAllows (audience : list string) (actorKind groupRole : string)
    (isAuthor : bool) : bool :=
  bool_decide (audience = []) ||
  existsb (fun value =>
    let value := normal value in
    bool_decide (value = "all") || bool_decide (value = "members")
    || (bool_decide (value = "users") && bool_decide (actorKind = "user"))
    || (bool_decide (value = "agents") && bool_decide (actorKind = "agent"))
    || (bool_decide (value = "admins")
        && (bool_decide (groupRole = "owner") || bool_decide (groupRole = "admin")))
    || (bool_decide (value = "owner") && (bool_decide (groupRole = "owner") || isAuthor))) audience.

Notation Event := DynamicInteractionEvent.

Definition events_of (actorID : string) (events : list Event) : list Event :=
  filter (fun e => e.(DynamicInteractionEvent_ActorID) = actorID) events.

Definition validateDynamicInteractionPolicy (config : dynamicInteractionConfig) (configured : bool)
    (events : list Event) (candidate : Event) (groupRole : string) (isAuthor : bool) (now : time)
  : result unit :=
  if negb configured then Ok tt
  else
    let policy := config.(wire).(Wire_Policy) in
    let kind := candidate.(DynamicInteractionEvent_ActorKind) in
    if (0 <? policy.(Policy_ExpiresAtMS)) && (policy.(Policy_ExpiresAtMS) <=? UnixMilli now)
    then Err "dynamic interaction has expired"
    else if bool_decide (kind = "agent") && negb policy.(Policy_AllowAgent)
    then Err "dynamic interaction does not allow Agent actors"
    else if negb (dynamicAudienceAllows policy.(Policy_Audience) kind groupRole isAuthor)
    then Err "dynamic interaction audience does not include this actor"
    else
      let actorEvents :=
        Z.of_nat (length (events_of candidate.(DynamicInteractionEvent_ActorID) events)) in
      if (0 <? policy.(Policy_MaxResponsesPerActor))
         && (policy.(Policy_MaxResponsesPerActor) <=? actorEvents)
      then Err "dynamic interaction response limit reached"
      else if bool_decide (config.(response) = "once") && (0 <? actorEvents)
              && negb config.(allowChange)
      then Err "dynamic interaction response cannot be changed"
      else Ok tt.

(** ** Reading events *)

Definition dynamicPayloadString (payload : option jmap) (key : string) : string :=
  TrimSpace (str (default ∅ payload) key).

Definition dynamicInteractionValue (event : Event) : string :=
  let payload := event.(DynamicInteractionEvent_Payload) in
  or_else (dynamicPayloadString payload "option")
    (or_else (dynamicPayloadString payload "value")
       (TrimSpace event.(DynamicInteractionEvent_Action))).

Definition latestInteractionEventsByActor (events : list Event) : gmap string Event :=
  foldl (fun latest event => <[event.(DynamicInteractionEvent_ActorID) := event]> latest) ∅ events.

Definition dynamicInteractionEventDetail (event : Event) : jmap :=
  list_to_map
    [("event_id", JStr event.(DynamicInteractionEvent_EventID));
     ("node_id", JStr event.(DynamicInteractionEvent_NodeID));
     ("event", JStr event.(DynamicInteractionEvent_Event));
     ("action", JStr event.(DynamicInteractionEvent_Action));
     ("payload", from_option JObj JNull event.(DynamicInteractionEvent_Payload));
     ("actor_id", JStr event.(DynamicInteractionEvent_ActorID));
     ("actor_nickname", JStr event.(DynamicInteractionEvent_ActorNickname));
     ("actor_kind", JStr event.(DynamicInteractionEvent_ActorKind));
     ("created_at_ms", jint (UnixMilli event.(DynamicInteractionEvent_CreatedAt)))].

Definition normalizedInteractionTotal (configured observed : Z) : Z :=
  let configured := if configured <? observed then observed else configured in
  if configured <? 1 then 1 else configured.

Definition isPositiveInteractionAction (value : string) : bool :=
  bool_decide (normal value ∈ ["approve"; "approved"; "allow"; "confirm"; "confirmed"; "yes";
                               "complete"; "completed"; "checked"; "true"]).
Definition isNegativeInteractionAction (value : string) : bool :=
  bool_decide (normal value ∈ ["reject"; "rejected"; "deny"; "denied"; "no"; "cancel"; "cancelled";
                               "false"]).
Definition containsDynamicString (values : list string) (target : string) : bool :=
  bool_decide (target ∈ values).

(** [counts[value]++] over the values *)
Definition tally (values : list string) : gmap string Z :=
  foldl (fun counts v => <[v := default 0 (counts !! v) + 1]> counts) ∅ values.

(** ** Reducers *)

Record dynamicInteractionReduction := mkReduction {
  red_state : option jmap; red_counts : gmap string Z; red_responded : Z; red_total : Z;
  red_status : string; red_closed : bool }.
Definition no_reduction : dynamicInteractionReduction := mkReduction None ∅ 0 0 "" false.

Record dynamicInteractionReduceContext := mkContext {
  ctx_config : dynamicInteractionConfig; ctx_events : list Event; ctx_total : Z; ctx_now : time }.

Definition baseInteractionState (ctx : dynamicInteractionReduceContext) (responded total : Z)
    (closed : bool) (status : string) (counts : gmap string Z) : jmap :=
  let state := list_to_map
    [("version", JStr "1.0"); ("reducer", JStr ctx.(ctx_config).(reducer));
     ("responded", jint responded); ("total", jint total); ("closed", JBool closed);
     ("status", JStr status); ("updated_at_ms", jint (UnixMilli ctx.(ctx_now)))] : jmap in
  if bool_decide (counts = ∅) then state
  else <["counts" := JObj (jint <$> counts)]> state.

Definition is_public (ctx : dynamicInteractionReduceContext) : bool :=
  bool_decide (ctx.(ctx_config).(visibility) = "public_detail").
Definition when_public (ctx : dynamicInteractionReduceContext) (key : string) (v : json)
    (state : jmap) : jmap :=
  if is_public ctx then <[key := v]> state else state.

(** the value of each actor's latest event *)
Definition latest_values (fallback : string) (events : list Event) : gmap string string :=
  (fun e => or_else (dynamicInteractionValue e) fallback) <$> latestInteractionEventsByActor events.
Definition values_of {A} (m : gmap string A) : list A := (map_to_list m).*2.

Definition reduceSetByActor (ctx : dynamicInteractionReduceContext)
  : result dynamicInteractionReduction :=
  let responses := latest_values ctx.(ctx_config).(kind) ctx.(ctx_events) in
  let counts := tally (values_of responses) in
  let responded := Z.of_nat (size responses) in
  let total := normalizedInteractionTotal ctx.(ctx_total) responded in
  let state := baseInteractionState ctx responded total false "active" counts in
  Ok (mkReduction (Some (when_public ctx "responses" (JObj (JStr <$> responses)) state))
        counts responded total "active" false).

Definition reduceAppend (ctx : dynamicInteractionReduceContext)
  : result dynamicInteractionReduction :=
  let events := ctx.(ctx_events) in
  let responded := Z.of_nat (length events) in
  let total := normalizedInteractionTotal ctx.(ctx_total) responded in
  let state := baseInteractionState ctx responded total false "active" ∅ in
  let state := match last events with
               | Some e => <["last_action" := JStr (dynamicInteractionValue e)]> state
               | None => state
               end in
  Ok (mkReduction
        (Some (when_public ctx "entries"
                 (JArr ((fun e => JObj (dynamicInteractionEventDetail e)) <$> events)) state))
        ∅ responded total "active" false).

Definition reduceCounter (ctx : dynamicInteractionReduceContext)
  : result dynamicInteractionReduction :=
  let events := if bool_decide (ctx.(ctx_config).(response) = "once")
                then values_of (latestInteractionEventsByActor ctx.(ctx_events))
                else ctx.(ctx_events) in
  let counts := tally ((fun e => or_else (dynamicInteractionValue e) "count") <$> events) in
  let n := Z.of_nat (length events) in
  let total := normalizedInteractionTotal ctx.(ctx_total) n in
  let state := baseInteractionState ctx n total false "active" counts in
  Ok (mkReduction (Some (<["count" := jint n]> state)) counts n total "active" false).

(** the part of a key after its first NUL *)
Fixpoint after_NUL (s : string) : string :=
  match s with
  | EmptyString => ""
  | String c s => if bool_decide (String c EmptyString = NUL) then s else after_NUL s
  end.

Definition checklist_key (event : Event) : string :=
  event.(DynamicInteractionEvent_ActorID) +:+ NUL
  +:+ or_else (dynamicPayloadString event.(DynamicInteractionEvent_Payload) "item_id")
        (dynamicInteractionValue event).
Definition checklist_completed (event : Event) : bool :=
  match get_bool (default ∅ event.(DynamicInteractionEvent_Payload)) "completed" with
  | Some completed => completed
  | None => isPositiveInteractionAction event.(DynamicInteractionEvent_Action)
  end.

Definition reduceChecklist (ctx : dynamicInteractionReduceContext)
  : result dynamicInteractionReduction :=
  let latest := foldl (fun latest e => <[checklist_key e := e]> latest)
                  (∅ : gmap string Event) ctx.(ctx_events) in
  let items := tally ((fun ke => after_NUL ke.1)
                      <$> filter (fun ke => checklist_completed ke.2 = true) (map_to_list latest)) in
  let actors := list_to_set (DynamicInteractionEvent_ActorID <$> values_of latest) : gset string in
  let n := Z.of_nat (size actors) in
  let total := normalizedInteractionTotal ctx.(ctx_total) n in
  let state := baseInteractionState ctx n total false "active" items in
  Ok (mkReduction (Some (<["items" := JObj (jint <$> items)]> state)) items n total "active" false).

Definition reduceForm (ctx : dynamicInteractionReduceContext)
  : result dynamicInteractionReduction :=
  let latest := latestInteractionEventsByActor ctx.(ctx_events) in
  let n := Z.of_nat (size latest) in
  let total := normalizedInteractionTotal ctx.(ctx_total) n in
  let state := baseInteractionState ctx n total false "active" ∅ in
  let responses := (fun e => JObj (cloneDynamicMap (default ∅ e.(DynamicInteractionEvent_Payload))))
                   <$> latest in
  Ok (mkReduction (Some (when_public ctx "responses" (JObj responses) state)) ∅ n total "active" false).

(** how many of the values satisfy the test *)
Definition count_where (p : string -> bool) (values : list string) : Z :=
  Z.of_nat (length (filter (fun v => p v = true) values)).

(** the status of an approval, and whether it is closed *)
Definition approval_status (config : dynamicInteractionConfig) (last_event : option Event)
    (approved rejected quorum : Z) : string * bool :=
  match config.(legacyCloseOnResponse), last_event with
  | true, Some last =>
      let value := dynamicInteractionValue last in
      if bool_decide (value = "modify") then ("pending", false)
      else (if isNegativeInteractionAction value then "rejected" else "approved", true)
  | _, _ =>
      if config.(veto) && (0 <? rejected) then ("rejected", true)
      else if quorum <=? approved then ("approved", true)
      else ("pending", false)
  end.

Definition reduceApprovalQuorum (ctx : dynamicInteractionReduceContext)
  : result dynamicInteractionReduction :=
  let responses := latest_values "" ctx.(ctx_events) in
  let counts := tally (values_of responses) in
  let approved := count_where isPositiveInteractionAction (values_of responses) in
  let rejected := count_where (fun v => negb (isPositiveInteractionAction v)
                                        && isNegativeInteractionAction v) (values_of responses) in
  let n := Z.of_nat (size responses) in
  let total := normalizedInteractionTotal ctx.(ctx_total) n in
  let quorum := if ctx.(ctx_config).(quorum) <=? 0 then total else ctx.(ctx_config).(quorum) in
  let '(status, closed) :=
    approval_status ctx.(ctx_config) (last ctx.(ctx_events)) approved rejected quorum in
  let state := baseInteractionState ctx n total closed status counts in
  let state := <["approved" := jint approved]> (<["rejected" := jint rejected]>
                 (<["quorum" := jint quorum]> state)) in
  Ok (mkReduction (Some (when_public ctx "responses" (JObj (JStr <$> responses)) state))
        counts n total status closed).

(** one event of a state machine: an empty value is skipped *)
Definition machine_step (transitions : gmap string (list string)) (current : string)
    (event : Event) : result string :=
  let next := dynamicInteractionValue event in
  if bool_decide (next = "") then Ok current
  else if negb (bool_decide (transitions = ∅))
          && negb (containsDynamicString (default [] (transitions !! current)) next)
  then Err ("dynamic state transition " +:+ quoted current +:+ " to " +:+ quoted next
            +:+ " is not allowed")
  else Ok next.

Fixpoint machine_run (transitions : gmap string (list string)) (current : string)
    (events : list Event) : result string :=
  match events with
  | [] => Ok current
  | event :: events =>
      match machine_step transitions current event with
      | Err e => Err e
      | Ok next => machine_run transitions next events
      end
  end.

Definition initial_state (config : dynamicInteractionConfig) : string :=
  or_else (TrimSpace config.(wire).(Wire_Policy).(Policy_InitialState)) "open".

Definition reduceStateMachine (ctx : dynamicInteractionReduceContext)
  : result dynamicInteractionReduction :=
  match machine_run ctx.(ctx_config).(wire).(Wire_Policy).(Policy_Transitions)
          (initial_state ctx.(ctx_config)) ctx.(ctx_events) with
  | Err e => Err e
  | Ok current =>
      let closed := bool_decide (current ∈ ["closed"; "completed"; "cancelled"]) in
      let n := Z.of_nat (length ctx.(ctx_events)) in
      let total := normalizedInteractionTotal ctx.(ctx_total) n in
      let state := baseInteractionState ctx n total closed current ∅ in
      Ok (mkReduction (Some (<["current" := JStr current]> state)) ∅ n total current closed)
  end.

Definition reduceNone (ctx : dynamicInteractionReduceContext)
  : result dynamicInteractionReduction := Ok no_reduction.

Definition dynamicInteractionReducers
  : list (string * (dynamicInteractionReduceContext -> result dynamicInteractionReduction)) :=
  [("set_by_actor", reduceSetByActor); ("append", reduceAppend); ("counter", reduceCounter);
   ("checklist", reduceChecklist); ("form", reduceForm);
   ("approval_quorum", reduceApprovalQuorum); ("state_machine", reduceStateMachine);
   ("none", reduceNone)].

Definition reduce (ctx : dynamicInteractionReduceContext) : result dynamicInteractionReduction :=
  match (list_to_map dynamicInteractionReducers : gmap string _) !! ctx.(ctx_config).(reducer) with
  | Some f => f ctx
  | None => Err "unreachable"
  end.

(** ** The projection *)

(** a change of every node, the parent before its children *)
Fixpoint map_nodes (fuel : nat) (f : jmap -> jmap) (root : jmap) : jmap :=
  let root := f root in
  match fuel, get_array root "children" with
  | S fuel, Some l =>
      <["children" := JArr ((fun c => match c with
                                      | JObj child => JObj (map_nodes fuel f child)
                                      | c => c
                                      end) <$> l)]> root
  | _, _ => root
  end.

Definition node_props (node : jmap) : jmap := default ∅ (get_object node "props").
Definition with_props (f : jmap -> jmap) (node : jmap) : jmap :=
  <["props" := JObj (f (node_props node))]> node.

(** the count shown beside an option *)
Definition project_option (counts : gmap string Z) (props : jmap) : jmap :=
  let option := or_else (str props "option") (str props "vote_option") in
  if bool_decide (option = "") then props
  else <["count" := jint (default 0 (counts !! option))]> props.

Definition formatInteractionProgress (template : string) (responded total : Z) : string :=
  if negb (bool_decide (template = "")) && Contains template "%d"
  then sprintf2 template responded total
  else sprint_d responded +:+ "/" +:+ sprint_d total.

Definition find_by_id (root : jmap) (id : string) : option (list nat) :=
  if bool_decide (id = "") then None else path_to root id.
Definition find_by_type (root : jmap) (typeName : string) : option (list nat) :=
  find_path_by (fun node => bool_decide (str node "type" = typeName)) (json_height (JObj root)) root.

(** changes the properties of the node with the id, or else of the first of the type *)
Definition project_onto (root : jmap) (id typeName : string) (f : jmap -> jmap) : jmap :=
  match find_by_id root id with
  | Some path => alter_at path (with_props f) root
  | None => match find_by_type root typeName with
            | Some path => alter_at path (with_props f) root
            | None => root
            end
  end.

Definition updateInteractionProjection (root : jmap) (config : dynamicInteractionConfig)
    (result : dynamicInteractionReduction) : jmap :=
  let root := map_nodes (json_height (JObj root)) (with_props (project_option result.(red_counts))) root in
  let root := project_onto root config.(progressNodeID) "progress" (fun props =>
    <["value" := json_of_float (f_div (f_of_Z result.(red_responded))
                   (f_of_Z (normalizedInteractionTotal result.(red_total) result.(red_responded))))]>
    (<["text" := JStr (formatInteractionProgress config.(progressText) result.(red_responded)
                         result.(red_total))]> props)) in
  if bool_decide (result.(red_status) = "") then root
  else project_onto root config.(statusNodeID) "status" (fun props =>
         <["status" := JStr result.(red_status)]> (<["text" := JStr result.(red_status)]> props)).

(** ** Applying an interaction *)

(** protocol.DynamicReplaceSegment *)
Definition DynamicReplaceSegment (messageID contentID : string) (content : jmap) : MessageSegment :=
  mkMessageSegment "dynamic_replace"
    (list_to_map [("message_id", JStr messageID); ("content_id", JStr contentID);
                  ("content", JObj content)]).

(** is the schema's tree the very map that the stored message holds? *)
Definition shares_tree (data : jmap) : bool :=
  match nested_schema data with
  | Ok (Some schema) => bool_decide (schema !! "tree" = None)
  | _ => false
  end.

(** the new segments, the replacement sent to clients, the reduction, and whether the
    card changed *)
Definition interaction_outcome : Type :=
  list MessageSegment * MessageSegment * dynamicInteractionReduction * bool.
Definition no_segment : MessageSegment := mkMessageSegment "" ∅.

(** with the outcome, the stored segments as they were changed in place *)
Definition applyDynamicInteraction (target : Message) (contentID : string) (events : list Event)
    (total_ : Z) (now : time) : result interaction_outcome * option (list MessageSegment) :=
  let segments := target.(Message_Segments) in
  match first_content segments 0 contentID with
  | Err e => (Err e, None)
  | Ok None => (Ok (segments, no_segment, no_reduction, false), None)
  | Ok (Some (index, segment, schema)) =>
      match parseDynamicInteractionConfig schema with
      | Err e => (Err e, None)
      | Ok (config, configured) =>
          if negb configured || bool_decide (config.(reducer) = "none")
          then (Ok (segments, no_segment, no_reduction, false), None)
          else
            let total_ := if 0 <? config.(total) then config.(total) else total_ in
            match reduce (mkContext config events total_ now) with
            | Err e => (Err e, None)
            | Ok result =>
                let metadata := cloneDynamicMap (default ∅ (get_object schema "metadata")) in
                let metadata := <["interaction_state" := from_option JObj JNull result.(red_state)]>
                                  metadata in
                let schema := <["metadata" := JObj metadata]> schema in
                match get_object schema "tree" with
                | None => (Err "dynamic content tree is missing", None)
                | Some root =>
                    let root := updateInteractionProjection root config result in
                    let schema := <["tree" := JObj root]> schema in
                    let data := segment.(MessageSegment_Data) in
                    let in_place :=
                      if shares_tree data
                      then Some (<[index := segment <| MessageSegment_Data ::= <["tree" := JObj root]> |>]>
                                   segments)
                      else None in
                    (match validateDynamicSchema schema with
                     | Err e => Err e
                     | Ok _ => Ok (<[index := DynamicContentSegment schema]> segments,
                                   DynamicReplaceSegment target.(Message_ID) contentID schema,
                                   result, true)
                     end, in_place)
                end
            end
      end
  end.

(** ** Identity of events *)

(** the text of an interface value under a verb of fmt *)
Definition sprint (verb nil : string) (v : option json) : string :=
  match v with
  | None | Some JNull => nil
  | Some (JStr s) => s
  | Some v => sprintf1 verb v
  end.

Definition dynamicInteractionEventID (conversationID actorID : string) (data : jmap) : string :=
  if validDynamicIdentifier (str data "event_id") then str data "event_id"
  else
    let field key := sprint "%s" "%!s(<nil>)" (data !! key) in
    "legacy-dynamic-event-" +:+ sha256_hex
      (conversationID +:+ NUL +:+ actorID +:+ NUL +:+ field "message_id" +:+ NUL
       +:+ field "content_id" +:+ NUL +:+ field "node_id" +:+ NUL +:+ sprintf1 "%v" (JObj data)).

Fixpoint json_eqb (fuel : nat) (a b : json) : bool :=
  match fuel with
  | O => false
  | S fuel =>
      match a, b with
      | JNull, JNull => true
      | JBool x, JBool y => Bool.eqb x y
      | JNum x, JNum y => num_eqb x y
      | JStr x, JStr y => bool_decide (x = y)
      | JArr x, JArr y => Nat.eqb (length x) (length y)
                          && forallb (fun p => json_eqb fuel p.1 p.2) (zip x y)
      | JObj x, JObj y => Nat.eqb (size x) (size y)
                          && forallb (fun kv => match y !! kv.1 with
                                                | Some v => json_eqb fuel kv.2 v
                                                | None => false
                                                end) (map_to_list x)
      | _, _ => false
      end
  end.
(** reflect.DeepEqual: a NaN differs from everything *)
Definition deep_equal (a b : json) : bool := json_eqb (json_height a) a b.

Definition sameDynamicInteractionEvent (existing candidate : Event) : bool :=
  bool_decide (existing.(DynamicInteractionEvent_EventID) = candidate.(DynamicInteractionEvent_EventID))
  && bool_decide (existing.(DynamicInteractionEvent_ConversationID)
                  = candidate.(DynamicInteractionEvent_ConversationID))
  && bool_decide (existing.(DynamicInteractionEvent_MessageID)
                  = candidate.(DynamicInteractionEvent_MessageID))
  && bool_decide (existing.(DynamicInteractionEvent_ContentID)
                  = candidate.(DynamicInteractionEvent_ContentID))
  && bool_decide (existing.(DynamicInteractionEvent_NodeID) = candidate.(DynamicInteractionEvent_NodeID))
  && bool_decide (existing.(DynamicInteractionEvent_Event) = candidate.(DynamicInteractionEvent_Event))
  && bool_decide (existing.(DynamicInteractionEvent_Action) = candidate.(DynamicInteractionEvent_Action))
  && match existing.(DynamicInteractionEvent_Payload), candidate.(DynamicInteractionEvent_Payload) with
     | Some x, Some y => deep_equal (JObj x) (JObj y)
     | None, None => true
     | _, _ => false
     end.

Definition existingDynamicInteractionEvent (events : list Event) (actorID eventID : string)
  : option Event :=
  find_first (fun e => bool_decide (e.(DynamicInteractionEvent_ActorID) = actorID)
                       && bool_decide (e.(DynamicInteractionEvent_EventID) = eventID)) events.

(** by time, then by id *)
Definition event_less (a b : Event) : bool :=
  let ta := a.(DynamicInteractionEvent_CreatedAt) in
  let tb := b.(DynamicInteractionEvent_CreatedAt) in
  if Z.eqb ta tb
  then String.ltb a.(DynamicInteractionEvent_EventID) b.(DynamicInteractionEvent_EventID)
  else Before ta tb.
Definition sortedDynamicInteractionEvents (events : list Event) : list Event :=
  sort_slice event_less events.
End interaction.
