(* ===== verification/DynamicAction.v ===== *)
(** * Declarative card actions (gateway/dynamic_interaction.go)

    A card without a reducer may still declare actions on its nodes
    ("set_progress", "toggle", "approve", ...).  [applyDynamicActionToSchema] applies
    one to a copy of the schema: first to the properties of the target node, then to
    a progress node beside it.  Where the Go code writes into a node through a
    pointer, the tree is rebuilt along the path to the node. *)
From S2P Require Import Prelude GoLib Types Float64 DynamicContent Capabilities.
From S2P Require Import DynamicInteraction.
From stdpp Require Import gmap strings list.
From Stdlib Require Import ZArith SpecFloat.

Local Open Scope Z_scope.
Local Open Scope go_scope.

(** a member of an object, nil when it is absent *)
Definition member (m : jmap) (key : string) : json := default JNull (m !! key).

(** the node that declares the event with the action *)
Definition declares (eventName action : string) (node : jmap) : bool :=
  match get_object (default ∅ (get_object node "events")) eventName with
  | Some definition => bool_decide (str definition "action" = action)
  | None => false
  end.
Definition findDynamicNodeByEvent (root : jmap) (eventName action : string) : option (list nat) :=
  find_path_by (declares eventName action) (json_height (JObj root)) root.

(** the id of the first node of the type, in a subtree where it is not empty *)
Definition firstDynamicNodeID (root : jmap) (typeName : string) : string :=
  (fix first (fuel : nat) (node : jmap) : string :=
     if bool_decide (str node "type" = typeName) then str node "id"
     else match fuel with
          | O => ""
          | S fuel =>
              foldr (fun child rest =>
                       match as_object child with
                       | Some child => or_else (first fuel child) rest
                       | None => rest
                       end) "" (children_of node)
          end) (json_height (JObj root)) root.

Definition asDynamicMap (value : json) : jmap := default ∅ (as_object value).

Definition dynamicString (value : json) (fallback : string) : string :=
  match value with
  | JStr s => or_else (TrimSpace s) fallback
  | _ => fallback
  end.

Section action.
Context `{Runtime}.

(** the number of a value, and whether it is one; a value comes with a failure too *)
Definition dynamicActionNumber (value : json) : float64 * bool :=
  match value with
  | JNum n => (f_of_num n, true)
  | JNaN => (S754_nan, false)
  | JStr s => parse_float (TrimSpace s)
  | _ => (f_zero, false)
  end.

Definition dynamicActionProjectionMap (definition : jmap) : jmap :=
  default ∅ (get_object definition "projection").
Definition dynamicActionProjectionValue (definition : jmap) (key : string) : option json :=
  match definition !! key with
  | Some value => Some value
  | None => dynamicActionProjectionMap definition !! key
  end.
Definition dynamicActionProjectionNumber (definition : jmap) (key : string) : float64 * bool :=
  match dynamicActionProjectionValue definition key with
  | None => (f_zero, false)
  | Some value => dynamicActionNumber value
  end.

Definition dynamicActionHasProgressProjection (definition : jmap) : bool :=
  existsb (fun key =>
    match dynamicActionProjectionValue definition key with
    | None | Some JNull => false
    | Some value =>
        if bool_decide (key = "progress_node_id") || bool_decide (key = "progress_target")
        then negb (bool_decide (TrimSpace (dynamicString value "") = ""))
        else (dynamicActionNumber value).2
    end)
    ["progress"; "progress_value"; "progress_delta"; "increment"; "progress_node_id";
     "progress_target"; "total"].

Definition dynamicActionProgressNodeID (definition root : jmap) : string :=
  let named key := match dynamicActionProjectionValue definition key with
                   | Some value => dynamicString value ""
                   | None => ""
                   end in
  let progress := named "progress" in
  or_else (named "progress_node_id")
    (or_else (named "progress_target")
      (if negb (bool_decide (progress = "")) && bool_decide (is_Some (findDynamicNode root progress))
       then progress else firstDynamicNodeID root "progress")).

(** the actions that name an outcome *)
Definition outcome_actions : list string :=
  ["approve"; "approved"; "allow"; "confirm"; "confirmed"; "yes"; "complete"; "completed";
   "reject"; "rejected"; "deny"; "denied"; "no"; "cancel"; "cancelled"].

(** the node an action is aimed at, "" for none *)
Definition action_target (definition root : jmap) (actionName : string) : string :=
  let first_status := or_else (firstDynamicNodeID root "status") (firstDynamicNodeID root "progress") in
  or_else (str definition "target")
    (if bool_decide (actionName ∈ ["set_progress"; "increment_progress"])
     then firstDynamicNodeID root "progress"
     else if bool_decide (actionName = "set_status") || bool_decide (actionName ∈ outcome_actions)
     then first_status
     else if dynamicActionHasProgressProjection definition
     then dynamicActionProgressNodeID definition root
     else "").

(** the property map and whether something changed *)
Definition changes : Type := jmap * bool.
(** [set] of the Go code *)
Definition set_prop (key : string) (value : json) (c : changes) : changes :=
  if deep_equal (member c.1 key) value then c else (<[key := value]> c.1, true).

(** above 1 a number is a percentage; then it is kept between 0 and 1 *)
Definition normal_progress (progress : float64) : float64 :=
  f_clamp (if f_gt progress f_one then f_div progress (f_of_Z 100) else progress).

(** the progress value, and the percentage shown when there is a text *)
Definition set_progress (progress : float64) (c : changes) : changes :=
  let c := set_prop "value" (json_of_float progress) c in
  match c.1 !! "text" with
  | Some _ => set_prop "text" (JStr (sprint_percent (f_mul progress (f_of_Z 100)))) c
  | None => c
  end.

(** the first phase, on the properties of the target; [None] is the early return of
    an action whose number cannot be read *)
Definition act_on_target (definition : jmap) (actionName targetType : string)
    (value : option json) (props : jmap) : option changes :=
  let c := (props, false) in
  if bool_decide (actionName = "toggle") then
    let property := dynamicString (member definition "property") "value" in
    let is_true := match member props property with JBool true => true | _ => false end in
    Some (set_prop property (JBool (negb is_true)) c)
  else if bool_decide (actionName ∈ ["set_property"; "set_value"; "set_status"]) then
    let value := default (JBool true) value in
    let property := dynamicString (member definition "property")
                      (if bool_decide (actionName = "set_value") then "value" else "text") in
    if bool_decide (targetType = "progress") && bool_decide (actionName = "set_status") then
      let '(progress, ok) := dynamicActionNumber value in
      let progress := if ok then progress
                      else f_add (dynamicActionNumber (member props "value")).1 f_tenth in
      Some (set_progress (normal_progress progress) c)
    else Some (set_prop property value c)
  else if bool_decide (actionName ∈ ["set_progress"; "increment_progress"]) then
    let '(progress, ok) := dynamicActionNumber (default JNull value) in
    if negb ok then None
    else
      let progress := if bool_decide (actionName = "increment_progress")
                      then f_add progress (dynamicActionNumber (member props "value")).1
                      else progress in
      Some (set_progress (normal_progress progress) c)
  else if bool_decide (actionName ∈ outcome_actions) then
    Some (set_prop "text" (JStr (if isNegativeInteractionAction actionName
                                 then "Rejected" else "Approved")) c)
  else Some c.

(** one logical unit further: a tenth, or one of the declared total *)
Definition unit_step (definition : jmap) (current : float64) : float64 :=
  let '(total, ok) := dynamicActionProjectionNumber definition "total" in
  if ok && f_gt total f_zero then f_add current (f_div f_one total) else f_add current f_tenth.

(** the progress the second phase writes *)
Definition projected_step (definition : jmap) (actionName : string) (value : option json)
    (current : float64) : float64 :=
  let number key := dynamicActionProjectionNumber definition key in
  let given := dynamicActionNumber
                 (if bool_decide (actionName ∈ ["set_property"; "set_value"; "set_status"])
                  then default (JBool true) value else default JNull value) in
  if (number "progress").2 then (number "progress").1
  else if (number "progress_value").2 then (number "progress_value").1
  else if (number "progress_delta").2 then f_add current (number "progress_delta").1
  else if (number "increment").2 then f_add current (number "increment").1
  else if bool_decide (actionName = "set_progress") then given.1
  else if bool_decide (actionName = "increment_progress") then f_add current given.1
  else if bool_decide (actionName = "set_status") && given.2 then given.1
  else unit_step definition current.

(** the second phase: the progress node beside the target *)
Definition project_progress (definition root : jmap) (actionName : string) (value : option json)
    (target : jmap) (changed : bool) : jmap * bool :=
  let progressProjection := dynamicActionHasProgressProjection definition in
  let targetType := str target "type" in
  if (progressProjection || bool_decide (actionName = "set_status")
      || isPositiveInteractionAction actionName || isNegativeInteractionAction actionName)
     && (negb (bool_decide (targetType = "progress")) || progressProjection)
  then
    let progressID := if bool_decide (targetType = "progress") then str target "id"
                      else dynamicActionProgressNodeID definition root in
    match find_by_id root progressID with
    | None => (root, changed)
    | Some path =>
        let props := cloneDynamicMap (node_props (default ∅ (node_at root path))) in
        let current := (dynamicActionNumber (member props "value")).1 in
        let step := normal_progress (projected_step definition actionName value current) in
        let '(props, changed) := set_progress step (props, changed) in
        (alter_at path (<["props" := JObj props]>) root, changed)
    end
  else (root, changed).

(** the updated schema and whether it changed *)
Definition applyDynamicActionToSchema (schema : jmap) (eventName action : string)
    (payload : option jmap) : result (jmap * bool) :=
  let updated := cloneDynamicMap schema in
  match get_object updated "tree" with
  | None => Err "dynamic content tree is missing"
  | Some root =>
      match findDynamicNodeByEvent root eventName action with
      | None => Ok (updated, false)
      | Some path =>
          let node := default ∅ (node_at root path) in
          let definition := default ∅ (get_object (default ∅ (get_object node "events")) eventName) in
          let actionName := normal action in
          let progressProjection := dynamicActionHasProgressProjection definition in
          let targetID := action_target definition root actionName in
          if bool_decide (targetID = "") then Ok (updated, false)
          else
            let found :=
              match path_to root targetID with
              | Some path => Some path
              | None =>
                  if progressProjection || bool_decide (actionName = "set_status")
                     || HasPrefix actionName "approve" || HasPrefix actionName "reject"
                  then path_to root (dynamicActionProgressNodeID definition root)
                  else None
              end in
            match found with
            | None => Err ("dynamic action target " +:+ quoted targetID +:+ " was not found")
            | Some path =>
                let target := default ∅ (node_at root path) in
                let props := cloneDynamicMap (node_props target) in
                let value := match definition !! "value" with
                             | Some v => Some v
                             | None => default ∅ payload !! "value"
                             end in
                match act_on_target definition actionName (str target "type") value props with
                | None => Ok (updated, false)
                | Some (props, changed) =>
                    let root := alter_at path (<["props" := JObj props]>) root in
                    let '(root, changed) := project_progress definition root actionName value
                                              target changed in
                    Ok (<["tree" := JObj root]> updated, changed)
                end
            end
      end
  end.

(** the new segments, the replacement sent to clients, and whether the card changed *)
Definition applyDynamicActionProjection (target : Message) (contentID eventName action : string)
    (payload : option jmap) : result (list MessageSegment * MessageSegment * bool) :=
  let segments := target.(Message_Segments) in
  match first_content segments 0 contentID with
  | Err e => Err e
  | Ok None => Ok (segments, no_segment, false)
  | Ok (Some (index, _, schema)) =>
      match applyDynamicActionToSchema schema eventName action payload with
      | Err e => Err e
      | Ok (updated, changed) =>
          if negb changed then Ok (segments, no_segment, false)
          else
            match validateDynamicSchema updated with
            | Err e => Err e
            | Ok _ => Ok (<[index := DynamicContentSegment updated]> segments,
                          DynamicReplaceSegment target.(Message_ID) contentID updated, true)
            end
      end
  end.
End action.
