(* ===== verification/MemoryState.v ===== *)
(** * The in-memory store's state (server/internal/store/memory.go)

    [MemoryStore] has the fields of the Go struct.  Two kinds of object are
    shared by pointer and mutated in place: a [*User] is handed out by [GetUser]
    and mutated by the gateway, and a [*Message] is reachable both from its
    conversation's list and from its idempotency record.  They live in the heaps
    [user_heap] and [message_heap], and the maps hold pointers.  The mutex makes
    every store operation atomic; an operation is a function of the state. *)
From S2P Require Import Prelude GoLib Types.
From stdpp Require Import gmap strings list.
From Stdlib Require Import ZArith.
From Stdlib Require String.

Local Open Scope Z_scope.

Definition ptr := nat.

Record memoryMessageIdempotency := mkMessageIdempotency {
  mi_fingerprint : string; mi_message : ptr }.
Record memoryDynamicUpdateIdempotency := mkDynamicUpdateIdempotency {
  du_fingerprint : string; du_messageID : string }.
Record memoryDynamicInteractionEvent := mkDynamicInteractionRecord {
  di_fingerprint : string; di_event : DynamicInteractionEvent }.

Record MemoryStore := mkMemoryStore {
  user_heap : gmap ptr User;
  users : gmap string ptr;
  sessions : gmap string Session;
  groups : gmap string Group;
  conversations : gmap string Conversation;
  preferences : gmap string (gmap string ConversationPreference);
  groupAnnouncements : gmap string (list GroupAnnouncement);
  announcementReads : gmap string (gset string);
  message_heap : gmap ptr Message;
  messages : gmap string (list ptr);
  messageIdempotency : gmap string memoryMessageIdempotency;
  dynamicUpdateIdempotency : gmap string memoryDynamicUpdateIdempotency;
  dynamicInteractionEvents : gmap string (list DynamicInteractionEvent);
  dynamicInteractionByID : gmap string memoryDynamicInteractionEvent;
  messageReactions : gmap string (gmap string (gset string));
  readStates : gmap string (gmap string ReadState);
  friendRequests : gmap string FriendRequest;
  friendships : gmap string (gmap string time);
  userTitles : gmap string UserTitle;
  userBlocks : gmap string (gmap string time);
  userReports : list UserReport;
  forwards : gmap string ForwardMessage;
  mediaFiles : gmap string MediaFile;
  pushSubscriptions : gmap string (gmap string PushSubscription);
  terminalVaults : gmap string TerminalVault;
  terminalSessions : gmap string TerminalSession;
  msgCounter : Z;
  announcementCounter : Z;
  friendReqCounter : Z;
  next_ptr : ptr }.
#[export] Instance eta_MemoryStore : Eta MemoryStore := fun r => mkMemoryStore
    (r.(user_heap)) (r.(users)) (r.(sessions)) (r.(groups)) (r.(conversations))
    (r.(preferences)) (r.(groupAnnouncements)) (r.(announcementReads))
    (r.(message_heap)) (r.(messages)) (r.(messageIdempotency))
    (r.(dynamicUpdateIdempotency)) (r.(dynamicInteractionEvents))
    (r.(dynamicInteractionByID)) (r.(messageReactions)) (r.(readStates))
    (r.(friendRequests)) (r.(friendships)) (r.(userTitles)) (r.(userBlocks))
    (r.(userReports)) (r.(forwards)) (r.(mediaFiles)) (r.(pushSubscriptions))
    (r.(terminalVaults)) (r.(terminalSessions)) (r.(msgCounter))
    (r.(announcementCounter)) (r.(friendReqCounter)) (r.(next_ptr)).

Definition NewMemoryStore : MemoryStore :=
  mkMemoryStore ∅ ∅ ∅ ∅ ∅ ∅ ∅ ∅ ∅ ∅ ∅ ∅ ∅ ∅ ∅ ∅ ∅ ∅ ∅ ∅ [] ∅ ∅ ∅ ∅ ∅ 0 0 0 0%nat.

(** ** Pointers *)

Definition msg_at (s : MemoryStore) (p : ptr) : option Message := s.(message_heap) !! p.
Definition user_at (s : MemoryStore) (p : ptr) : option User := s.(user_heap) !! p.

(** the messages a slice of pointers denotes *)
Definition deref (s : MemoryStore) (ps : list ptr) : list Message := omap (msg_at s) ps.

(** [s.messages[convID]], a nil slice when absent *)
Definition conv_ptrs (s : MemoryStore) (convID : string) : list ptr :=
  default [] (s.(messages) !! convID).
Definition conv_messages (s : MemoryStore) (convID : string) : list Message :=
  deref s (conv_ptrs s convID).

Definition has_id (s : MemoryStore) (msgID : string) (p : ptr) : bool :=
  match msg_at s p with
  | Some m => bool_decide (m.(Message_ID) = msgID)
  | None => false
  end.

(** [for _, messages := range s.messages { for _, message := range messages ...] *)
Definition all_ptrs (s : MemoryStore) : list ptr :=
  (map_to_list s.(messages)).*2 ≫= id.

Definition find_ptr (s : MemoryStore) (msgID : string) : option ptr :=
  find_first (has_id s msgID) (all_ptrs s).

Definition findMessageLocked (s : MemoryStore) (msgID : string) : option Message :=
  find_ptr s msgID ≫= msg_at s.

(** ** Reaction counts *)

Definition string_less (a b : string) : bool := String.ltb a b.

Definition reactionCountsLocked (s : MemoryStore) (msgID : string) : list Reaction :=
  let byEmoji := default ∅ (s.(messageReactions) !! msgID) in
  let ids := (filter (fun kv : string * gset string => kv.2 <> ∅) (map_to_list byEmoji)).*1 in
  (fun emojiID => mkReaction emojiID (Z.of_nat (size (default ∅ (byEmoji !! emojiID)))))
    <$> sort_slice string_less ids.

(** the copy handed to callers: the message with its reaction counts filled in *)
Definition with_reactions (s : MemoryStore) (m : Message) : Message :=
  m <| Message_Reactions := reactionCountsLocked s m.(Message_ID) |>.

(** ** Composite keys *)

Definition composite_key (a b : string) : string := a +:+ NUL +:+ b.

(** A lookup in a map of maps; a missing inner map is a nil map. *)
Definition lookup2 {V} (m : gmap string (gmap string V)) (a b : string) : option V :=
  m !! a ≫= (.!! b).
Definition insert2 {V} (a b : string) (v : V) (m : gmap string (gmap string V))
  : gmap string (gmap string V) := <[a := <[b := v]> (default ∅ (m !! a))]> m.
(** [delete(m[a], b)]: nothing when the inner map is nil *)
Definition delete2 {V} (a b : string) (m : gmap string (gmap string V))
  : gmap string (gmap string V) :=
  match m !! a with Some inner => <[a := delete b inner]> m | None => m end.

Section maps2.
Context {V : Type}.
Implicit Types (m : gmap string (gmap string V)).

Lemma lookup2_insert2 m a b v a' b' :
  lookup2 (insert2 a b v m) a' b' =
  if decide (a = a' /\ b = b') then Some v else lookup2 m a' b'.
Proof.
  unfold lookup2, insert2. destruct (decide (a = a')) as [<-|Ha].
  - rewrite lookup_insert_eq; simpl. destruct (decide (b = b')) as [<-|Hb].
    + rewrite lookup_insert_eq, decide_True; done.
    + rewrite lookup_insert_ne, decide_False by naive_solver.
      by destruct (m !! a).
  - rewrite lookup_insert_ne, decide_False by naive_solver. done.
Qed.

Lemma lookup2_delete2 m a b a' b' :
  lookup2 (delete2 a b m) a' b' =
  if decide (a = a' /\ b = b') then None else lookup2 m a' b'.
Proof.
  unfold lookup2, delete2. destruct (m !! a) as [inner|] eqn:E.
  - destruct (decide (a = a')) as [<-|Ha].
    + rewrite lookup_insert_eq, E; simpl. destruct (decide (b = b')) as [<-|Hb].
      * rewrite lookup_delete_eq, decide_True; done.
      * rewrite lookup_delete_ne, decide_False by naive_solver. done.
    + rewrite lookup_insert_ne, decide_False by naive_solver. done.
  - case_decide as D; [destruct D as [<- <-]; by rewrite E|done].
Qed.
End maps2.
#[export] Hint Rewrite @lookup2_insert2 @lookup2_delete2 : zrw.
