(* ===== verification/MemoryAccounts.v ===== *)
(** * Accounts of the in-memory store

    The operations of store/memory.go, session.go, profile_cards.go,
    terminal_sessions.go, push.go and stats.go on users, sessions, friendships,
    friend requests, titles, blocks, reports, terminal sessions, media records
    and push subscriptions.  An operation that reads the clock takes each
    reading as an argument. *)
From S2P Require Import Prelude GoLib Types MemoryState.
From stdpp Require Import gmap strings list.
From Stdlib Require Import ZArith.

Local Open Scope Z_scope.

(** ** Users *)

(** [&User{...}]: a pointer to a new object *)
Definition new_user (u : User) (s : MemoryStore) : ptr * MemoryStore :=
  (s.(next_ptr), s <| user_heap ::= <[s.(next_ptr) := u]> |> <| next_ptr ::= S |>).

(** an assignment to fields of [*p] *)
Definition write_user (p : ptr) (f : User -> User) (s : MemoryStore) : MemoryStore :=
  s <| user_heap ::= alter f p |>.

Definition GetUser (id : string) (s : MemoryStore) : result (option ptr) :=
  Ok (s.(users) !! id).

Definition SetUser (user : ptr) (s : MemoryStore) : result unit * MemoryStore :=
  match user_at s user with
  | Some u => (Ok tt, s <| users ::= <[u.(User_ID) := user]> |>)
  | None => (Ok tt, s)
  end.

Definition GetUsers (s : MemoryStore) : result (list ptr) :=
  Ok ((map_to_list s.(users)).*2).

Definition SetUserOnline (id : string) (online : bool) (s : MemoryStore)
  : result unit * MemoryStore :=
  match s.(users) !! id with
  | Some p => (Ok tt, write_user p (fun u => u <| User_Online := online |>) s)
  | None => (Ok tt, s)
  end.

(** the user stored under an id *)
Definition user_of (s : MemoryStore) (id : string) : option User :=
  s.(users) !! id ≫= user_at s.

(** ** Sessions *)

Definition UpsertSession (session : Session) (now : time) (s : MemoryStore)
  : result unit * MemoryStore :=
  let copy := if IsZero session.(Session_CreatedAt)
              then session <| Session_CreatedAt := now |> else session in
  (Ok tt, s <| sessions ::= <[session.(Session_TokenHash) := copy]> |>).

Definition GetSession (tokenHash : string) (s : MemoryStore) : result (option Session) :=
  Ok (s.(sessions) !! tokenHash).

Definition DeleteSession (tokenHash : string) (s : MemoryStore) : result unit * MemoryStore :=
  (Ok tt, s <| sessions ::= delete tokenHash |>).

Definition DeleteSessionsForUser (userID : string) (s : MemoryStore)
  : result unit * MemoryStore :=
  (Ok tt, s <| sessions ::=
     filter (fun kv : string * Session => kv.2.(Session_UserID) <> userID) |>).

(** ** Friendships *)

Definition GetFriends (userID : string) (s : MemoryStore) : result (list User) :=
  let friendIDs := default ∅ (s.(friendships) !! userID) in
  Ok (omap (user_of s) ((map_to_list friendIDs).*1)).

Definition AreFriends (userID friendID : string) (s : MemoryStore) : result bool :=
  Ok (bool_decide (is_Some (lookup2 s.(friendships) userID friendID))).

(** [if s.friendships[id] == nil { s.friendships[id] = make(...) }] *)
Definition ensure_inner {V} (id : string) (m : gmap string (gmap string V))
  : gmap string (gmap string V) :=
  match m !! id with Some _ => m | None => <[id := ∅]> m end.

Definition AddFriend (userID friendID : string) (now : time) (s : MemoryStore)
  : result bool * MemoryStore :=
  if bool_decide (userID = "") || bool_decide (friendID = "")
     || bool_decide (userID = friendID)
  then (Ok false, s)
  else
    let s := s <| friendships ::= fun m => ensure_inner friendID (ensure_inner userID m) |> in
    match lookup2 s.(friendships) userID friendID with
    | Some _ => (Ok false, s)
    | None =>
        (Ok true, s <| friendships ::= fun m =>
           insert2 friendID userID now (insert2 userID friendID now m) |>)
    end.

Definition RemoveFriend (userID friendID : string) (s : MemoryStore)
  : result bool * MemoryStore :=
  match lookup2 s.(friendships) userID friendID with
  | None => (Ok false, s)
  | Some _ =>
      (Ok true, s <| friendships ::= fun m =>
         delete2 friendID userID (delete2 userID friendID m) |>)
  end.

(** ** Friend requests *)

Definition friend_request_id (n : Z) : string := "freq_" +:+ sprint_d n.

Definition CreateFriendRequest (fromID toID comment : string) (now : time) (s : MemoryStore)
  : result FriendRequest * MemoryStore :=
  let n := wrap64 (s.(friendReqCounter) + 1) in
  let req := mkFriendRequest (friend_request_id n) fromID toID comment "pending" now in
  (Ok req, s <| friendReqCounter := n |>
             <| friendRequests ::= <[req.(FriendRequest_ID) := req]> |>).

Definition GetFriendRequest (id : string) (s : MemoryStore) : result (option FriendRequest) :=
  Ok (s.(friendRequests) !! id).

Definition pending_for (userID : string) (req : FriendRequest) : bool :=
  (bool_decide (req.(FriendRequest_ToID) = userID)
   || bool_decide (req.(FriendRequest_FromID) = userID))
  && bool_decide (req.(FriendRequest_Status) = "pending").

Definition GetPendingFriendRequests (userID : string) (s : MemoryStore)
  : result (list FriendRequest) :=
  Ok (filter (fun req => pending_for userID req = true) ((map_to_list s.(friendRequests)).*2)).

Definition HandleFriendRequest (reqID action : string) (s : MemoryStore)
  : result bool * MemoryStore :=
  match s.(friendRequests) !! reqID with
  | Some req =>
      if bool_decide (req.(FriendRequest_Status) = "pending")
      then (Ok true, s <| friendRequests ::=
              <[reqID := req <| FriendRequest_Status := action |>]> |>)
      else (Ok false, s)
  | None => (Ok false, s)
  end.

(** ** Titles, blocks and reports *)

Definition titleIsActive (title : UserTitle) (userID : string) (now : time) : bool :=
  bool_decide (title.(UserTitle_UserID) = userID)
  && match title.(UserTitle_ExpiresAt) with None => true | Some t => After t now end.

Definition titleIsVisible (title : UserTitle) (userID groupID : string) (now : time) : bool :=
  titleIsActive title userID now
  && (bool_decide (title.(UserTitle_ScopeType) = "system")
      || (bool_decide (title.(UserTitle_ScopeType) = "group")
          && negb (bool_decide (groupID = ""))
          && bool_decide (title.(UserTitle_ScopeID) = groupID))).

Definition GetUserTitles (userID groupID : string) (now : time) (s : MemoryStore)
  : result (list UserTitle) :=
  Ok (sort_slice (fun a b => Before a.(UserTitle_CreatedAt) b.(UserTitle_CreatedAt))
        (filter (fun t => titleIsVisible t userID groupID now = true)
           ((map_to_list s.(userTitles)).*2))).

Definition active_titles (s : MemoryStore) (userID : string) (now : time) : gmap string UserTitle :=
  filter (fun kv : string * UserTitle => titleIsActive kv.2 userID now = true) s.(userTitles).

Definition GrantUserTitle (title : UserTitle) (now : time) (s : MemoryStore)
  : result unit * MemoryStore :=
  if 5 <=? Z.of_nat (size (active_titles s title.(UserTitle_UserID) now))
  then (Err ErrActiveTitleLimit, s)
  else
    let copy := if IsZero title.(UserTitle_CreatedAt)
                then title <| UserTitle_CreatedAt := now |> else title in
    (Ok tt, s <| userTitles ::= <[copy.(UserTitle_ID) := copy]> |>).

Definition DeleteUserTitle (titleID : string) (s : MemoryStore) : result bool * MemoryStore :=
  match s.(userTitles) !! titleID with
  | None => (Ok false, s)
  | Some _ => (Ok true, s <| userTitles ::= delete titleID |>)
  end.

Definition SetUserBlocked (blockerID blockedID : string) (blocked : bool) (now : time)
    (s : MemoryStore) : result unit * MemoryStore :=
  if blocked
  then (Ok tt, s <| userBlocks ::= insert2 blockerID blockedID now |>)
  else (Ok tt, s <| userBlocks ::= delete2 blockerID blockedID |>).

Definition IsUserBlocked (blockerID blockedID : string) (s : MemoryStore) : result bool :=
  Ok (bool_decide (is_Some (lookup2 s.(userBlocks) blockerID blockedID))).

Definition CreateUserReport (report : UserReport) (now : time) (s : MemoryStore)
  : result unit * MemoryStore :=
  let copy := if IsZero report.(UserReport_CreatedAt)
              then report <| UserReport_CreatedAt := now |> else report in
  (Ok tt, s <| userReports ::= fun l => l ++ [copy] |>).

(** the newest first *)
Definition GetUserReports (limit : Z) (s : MemoryStore) : result (list UserReport) :=
  let n := Z.of_nat (length s.(userReports)) in
  let limit := if (limit <=? 0) || (n <? limit) then n else limit in
  Ok (take (Z.to_nat limit) (reverse s.(userReports))).

(** ** Terminal sessions *)

Definition UpsertTerminalSession (session : TerminalSession) (now : time) (s : MemoryStore)
  : result unit * MemoryStore :=
  let copy := if IsZero session.(TerminalSession_LoginAt)
              then session <| TerminalSession_LoginAt := now |> else session in
  let copy := if IsZero copy.(TerminalSession_LastSeenAt)
              then copy <| TerminalSession_LastSeenAt := copy.(TerminalSession_LoginAt) |>
              else copy in
  (Ok tt, s <| terminalSessions ::= <[copy.(TerminalSession_ID) := copy]> |>).

Definition TouchTerminalSession (id : string) (seenAt : time) (s : MemoryStore)
  : result unit * MemoryStore :=
  (Ok tt, s <| terminalSessions ::= alter (fun session =>
     if After seenAt session.(TerminalSession_LastSeenAt)
     then session <| TerminalSession_LastSeenAt := seenAt |> else session) id |>).

Definition EndTerminalSession (id : string) (endedAt now : time) (s : MemoryStore)
  : result unit * MemoryStore :=
  (Ok tt, s <| terminalSessions ::= alter (fun session =>
     let endedAt := if IsZero endedAt then now else endedAt in
     session <| TerminalSession_Connected := false |>
             <| TerminalSession_LastSeenAt := endedAt |>
             <| TerminalSession_LogoutAt := Some endedAt |>) id |>).

Definition GetRecentTerminalSessions (limit : Z) (s : MemoryStore)
  : result (list TerminalSession) :=
  let limit := if limit <=? 0 then 200 else limit in
  let sorted := sort_slice (fun a b =>
      After a.(TerminalSession_LastSeenAt) b.(TerminalSession_LastSeenAt))
    ((map_to_list s.(terminalSessions)).*2) in
  Ok (take (Z.to_nat limit) sorted).

(** ** Media records *)

Definition StoreMedia (file : MediaFile) (s : MemoryStore) : result unit * MemoryStore :=
  (Ok tt, s <| mediaFiles ::= <[file.(MediaFile_ID) := file]> |>).

Definition GetMedia (id : string) (s : MemoryStore) : result (option MediaFile) :=
  Ok (s.(mediaFiles) !! id).

(** newest first; equal creation times by descending id *)
Definition media_newer (a b : MediaFile) : bool :=
  if Z.eqb a.(MediaFile_CreatedAt) b.(MediaFile_CreatedAt)
  then string_less b.(MediaFile_ID) a.(MediaFile_ID)
  else After a.(MediaFile_CreatedAt) b.(MediaFile_CreatedAt).

Definition GetMediaFiles (limit : Z) (s : MemoryStore) : result (list MediaFile) :=
  let sorted := sort_slice media_newer ((map_to_list s.(mediaFiles)).*2) in
  Ok (if (0 <? limit) && (limit <? Z.of_nat (length sorted))
      then take (Z.to_nat limit) sorted else sorted).

Definition DeleteMedia (id : string) (s : MemoryStore) : result unit * MemoryStore :=
  (Ok tt, s <| mediaFiles ::= delete id |>).

(** ** Push subscriptions *)

Definition UpsertPushSubscription (subscription : PushSubscription) (now : time)
    (s : MemoryStore) : result unit * MemoryStore :=
  let userID := subscription.(PushSubscription_UserID) in
  let endpoint := subscription.(PushSubscription_Endpoint) in
  let createdAt := match lookup2 s.(pushSubscriptions) userID endpoint with
                   | Some existing => existing.(PushSubscription_CreatedAt)
                   | None => now
                   end in
  let copy := subscription <| PushSubscription_CreatedAt := createdAt |>
                           <| PushSubscription_UpdatedAt := now |> in
  (Ok tt, s <| pushSubscriptions ::= insert2 userID endpoint copy |>).

Definition DeletePushSubscription (userID endpoint : string) (s : MemoryStore)
  : result unit * MemoryStore :=
  let byEndpoint := delete endpoint (default ∅ (s.(pushSubscriptions) !! userID)) in
  if bool_decide (byEndpoint = ∅)
  then (Ok tt, s <| pushSubscriptions ::= delete userID |>)
  else (Ok tt, s <| pushSubscriptions ::= <[userID := byEndpoint]> |>).

Definition GetPushSubscriptions (userID : string) (s : MemoryStore)
  : result (list PushSubscription) :=
  Ok ((map_to_list (default ∅ (s.(pushSubscriptions) !! userID))).*2).

(** ** Statistics *)

Definition sum_over {V} (f : V -> Z) (m : gmap string V) : Z :=
  map_fold (fun _ v acc => f v + acc) 0 m.
Definition count_if (b : bool) : Z := if b then 1 else 0.

Definition GetServerStats (now : time) (s : MemoryStore) : result ServerStats :=
  Ok (mkServerStats
    (Z.of_nat (size s.(users)))
    (sum_over (fun p => count_if (from_option User_Online false (user_at s p))) s.(users))
    (Z.of_nat (size s.(groups)))
    (Z.of_nat (size s.(conversations)))
    (sum_over (fun ps => Z.of_nat (length ps)) s.(messages))
    (sum_over (fun session => count_if (After session.(Session_ExpiresAt) now)) s.(sessions))
    (Z.of_nat (size s.(mediaFiles)))
    (sum_over MediaFile_Size s.(mediaFiles))
    (sum_over (fun m => Z.of_nat (size m)) s.(pushSubscriptions))).
