(* ===== verification/MemoryMessages.v ===== *)
(** * Conversations and messages of the in-memory store

    The operations of store/memory.go and read_state.go on conversations,
    preferences, messages, idempotency records, dynamic interaction events,
    reactions, read cursors and forwards. *)
From S2P Require Import Prelude GoLib Types MemoryState.
From stdpp Require Import gmap strings list.
From Stdlib Require Import ZArith.

Local Open Scope Z_scope.

(** ** Conversations *)

Definition GetOrCreateConversation (id convType title : string) (now : time)
    (s : MemoryStore) : result Conversation * MemoryStore :=
  match s.(conversations) !! id with
  | Some conv => (Ok conv, s)
  | None =>
      let conv := mkConversation id convType title "" "" [] now in
      (Ok conv, s <| conversations ::= <[id := conv]> |>)
  end.

Definition SaveConversation (conversation : Conversation) (s : MemoryStore)
  : result unit * MemoryStore :=
  (Ok tt, s <| conversations ::= <[conversation.(Conversation_ID) := conversation]> |>).

Definition GetConversation (id : string) (s : MemoryStore) : result (option Conversation) :=
  Ok (s.(conversations) !! id).

Definition GetConversations (s : MemoryStore) : result (list Conversation) :=
  Ok ((map_to_list s.(conversations)).*2).

(** membership in a group's member list *)
Definition isGroupMember (s : MemoryStore) (groupID userID : string) : bool :=
  match s.(groups) !! groupID with
  | None => false
  | Some group =>
      bool_decide (is_Some (find_first (fun m => bool_decide (m.(GroupMember_UserID) = userID))
                              group.(Group_Members)))
  end.

Definition GetUserConversations (userID : string) (s : MemoryStore)
  : result (list Conversation) :=
  Ok (filter (fun conv =>
        (if bool_decide (conv.(Conversation_Type) = "private")
         then bool_decide (userID ∈ conv.(Conversation_Participants))
         else isGroupMember s conv.(Conversation_ID) userID) = true)
      ((map_to_list s.(conversations)).*2)).

Definition GetConversationPreference (conversationID userID : string) (s : MemoryStore)
  : result (option ConversationPreference) :=
  Ok (lookup2 s.(preferences) conversationID userID).

Definition SetConversationPreference (preference : ConversationPreference) (now : time)
    (s : MemoryStore) : result unit * MemoryStore :=
  let level := NormalizeNotificationLevel preference.(ConversationPreference_NotificationLevel)
                 preference.(ConversationPreference_IsMuted) in
  let copy := preference
    <| ConversationPreference_NotificationLevel := level |>
    <| ConversationPreference_IsMuted := bool_decide (level = NotificationLevelMuted) |>
    <| ConversationPreference_UpdatedAt := now |> in
  (Ok tt, s <| preferences ::=
     insert2 copy.(ConversationPreference_ConversationID)
             copy.(ConversationPreference_UserID) copy |>).

(** ** Dropping what depends on a message *)

Definition deleteMessageIdempotencyLocked (messageID : string) (s : MemoryStore)
  : MemoryStore :=
  s <| messageIdempotency ::=
       filter (fun kv : string * memoryMessageIdempotency =>
                 has_id s messageID kv.2.(mi_message) = false) |>
    <| dynamicUpdateIdempotency ::=
       filter (fun kv : string * memoryDynamicUpdateIdempotency =>
                 kv.2.(du_messageID) <> messageID) |>.

Definition interaction_key (e : DynamicInteractionEvent) : string :=
  composite_key e.(DynamicInteractionEvent_ActorID) e.(DynamicInteractionEvent_EventID).

Definition deleteDynamicInteractionEventsLocked (messageID : string) (s : MemoryStore)
  : MemoryStore :=
  let events := default [] (s.(dynamicInteractionEvents) !! messageID) in
  s <| dynamicInteractionByID ::= fun m => foldr (fun e m => delete (interaction_key e) m) m events |>
    <| dynamicInteractionEvents ::= delete messageID |>.

Definition DeleteConversation (id : string) (s : MemoryStore) : result unit * MemoryStore :=
  let drop_one (s : MemoryStore) (msg : Message) :=
    let s := s <| messageReactions ::= delete msg.(Message_ID) |> in
    let s := deleteMessageIdempotencyLocked msg.(Message_ID) s in
    deleteDynamicInteractionEventsLocked msg.(Message_ID) s in
  let s := fold_left drop_one (conv_messages s id) s in
  (Ok tt, s <| conversations ::= delete id |> <| preferences ::= delete id |>
            <| messages ::= delete id |> <| readStates ::= delete id |>).

(** ** Messages *)

Definition message_id (n : Z) : string := "msg_" +:+ sprint_d n.

(** [s.messages[convID] = append(s.messages[convID], msg)] for a new [msg] *)
Definition append_message (convID : string) (m : Message) (s : MemoryStore) : MemoryStore :=
  let p := s.(next_ptr) in
  s <| message_heap ::= <[p := m]> |>
    <| messages ::= <[convID := conv_ptrs s convID ++ [p]]> |>
    <| next_ptr ::= S |>.

(** returns the message and whether it is a replay of an earlier request *)
Definition StoreMessageIdempotent `{Runtime}
    (convID senderID senderNickname clientMessageID : string)
    (segments : list MessageSegment) (now : time) (s : MemoryStore)
  : result (Message * bool) * MemoryStore :=
  match messageRequestFingerprint convID segments with
  | Err e => (Err e, s)
  | Ok fingerprint =>
      let key := composite_key senderID clientMessageID in
      let existing := if bool_decide (clientMessageID = "") then None
                      else s.(messageIdempotency) !! key in
      match existing with
      | Some r =>
          if bool_decide (r.(mi_fingerprint) = fingerprint) then
            match msg_at s r.(mi_message) with
            | Some m => (Ok (with_reactions s m, true), s)
            | None => (Err "nil pointer", s)
            end
          else (Err ErrMessageIdempotencyConflict, s)
      | None =>
          let n := wrap64 (s.(msgCounter) + 1) in
          let msg := mkMessage (message_id n) convID senderID senderNickname segments now
                       false [] in
          let p := s.(next_ptr) in
          let s := append_message convID msg (s <| msgCounter := n |>) in
          if bool_decide (clientMessageID = "") then (Ok (msg, false), s)
          else (Ok (msg, false),
                s <| messageIdempotency ::= <[key := mkMessageIdempotency fingerprint p]> |>)
      end
  end.

Definition StoreMessage `{Runtime} (convID senderID senderNickname : string)
    (segments : list MessageSegment) (now : time) (s : MemoryStore)
  : result Message * MemoryStore :=
  match StoreMessageIdempotent convID senderID senderNickname "" segments now s with
  | (Ok (m, _), s) => (Ok m, s)
  | (Err e, s) => (Err e, s)
  end.

(** an assignment to fields of the message [*p] *)
Definition write_message (p : ptr) (f : Message -> Message) (s : MemoryStore) : MemoryStore :=
  s <| message_heap ::= alter f p |>.

Definition updateMessageSegmentsLocked (msgID : string) (segments : list MessageSegment)
    (s : MemoryStore) : result (option Message) * MemoryStore :=
  match find_ptr s msgID with
  | None => (Ok None, s)
  | Some p =>
      let s := write_message p (fun m => m <| Message_Segments := segments |>) s in
      (Ok (with_reactions s <$> msg_at s p), s)
  end.

Definition UpdateMessageSegments := updateMessageSegmentsLocked.

Definition GetMessage (msgID : string) (s : MemoryStore) : result (option Message) :=
  Ok (with_reactions s <$> findMessageLocked s msgID).

Definition GetMessagesBefore (convID beforeMessageID : string) (limit : Z) (s : MemoryStore)
  : result (list Message) :=
  let msgs := conv_messages s convID in
  let n := length msgs in
  let end_ := if bool_decide (beforeMessageID = "") then n
              else default n (index_first
                     (fun m => bool_decide (m.(Message_ID) = beforeMessageID)) msgs) in
  let limit := if (limit <=? 0) || (Z.of_nat end_ <? limit) then Z.of_nat end_ else limit in
  let start := (end_ - Z.to_nat limit)%nat in
  Ok (with_reactions s <$> drop start (take end_ msgs)).

Definition GetMessages (convID : string) (limit : Z) (s : MemoryStore)
  : result (list Message) := GetMessagesBefore convID "" limit s.

Definition message_newer (a b : Message) : bool :=
  if Z.eqb a.(Message_Timestamp) b.(Message_Timestamp)
  then string_less b.(Message_ID) a.(Message_ID)
  else After a.(Message_Timestamp) b.(Message_Timestamp).

Definition GetRecentMessages (limit : Z) (s : MemoryStore) : result (list Message) :=
  let sorted := sort_slice message_newer (with_reactions s <$> deref s (all_ptrs s)) in
  Ok (if (0 <? limit) && (limit <? Z.of_nat (length sorted))
      then take (Z.to_nat limit) sorted else sorted).

(** the conversation whose list holds the message, in map iteration order *)
Definition conv_of (s : MemoryStore) (msgID : string) : option string :=
  fst <$> find_first (fun kv : string * list ptr =>
            bool_decide (is_Some (find_first (has_id s msgID) kv.2)))
          (map_to_list s.(messages)).

Definition DeleteMessage (msgID : string) (s : MemoryStore) : result bool * MemoryStore :=
  match conv_of s msgID with
  | None => (Ok false, s)
  | Some conversationID =>
      let s := s <| messages ::=
                 <[conversationID := remove_first (has_id s msgID)
                                       (conv_ptrs s conversationID)]> |> in
      let s := s <| messageReactions ::= delete msgID |> in
      let s := deleteDynamicInteractionEventsLocked msgID s in
      (Ok true, deleteMessageIdempotencyLocked msgID s)
  end.

Definition RecallMessage (msgID : string) (s : MemoryStore) : result bool * MemoryStore :=
  match find_ptr s msgID with
  | None => (Ok false, s)
  | Some p => (Ok true, write_message p (fun m => m <| Message_Recalled := true |>) s)
  end.

(** ** Reactions *)

Definition ReactToMessage (msgID userID emojiID : string) (remove : bool) (s : MemoryStore)
  : result (option Message) * MemoryStore :=
  match findMessageLocked s msgID with
  | None => (Ok None, s)
  | Some target =>
      if target.(Message_Recalled) then (Err "message already recalled", s)
      else
        let byEmoji := default ∅ (s.(messageReactions) !! msgID) in
        let voters := default ∅ (byEmoji !! emojiID) in
        let voters := if remove then voters ∖ {[userID]} else voters ∪ {[userID]} in
        let byEmoji := if bool_decide (voters = ∅) then delete emojiID byEmoji
                       else <[emojiID := voters]> byEmoji in
        let s := s <| messageReactions ::= <[msgID := byEmoji]> |> in
        (Ok (Some (with_reactions s target)), s)
  end.

Definition GetMessageReactionIDs (msgID userID : string) (s : MemoryStore)
  : result (list string) :=
  let byEmoji := default ∅ (s.(messageReactions) !! msgID) in
  Ok (sort_slice string_less
       (filter (fun kv : string * gset string => userID ∈ kv.2) (map_to_list byEmoji)).*1).

(** ** Dynamic updates and interaction events *)

Definition LookupDynamicUpdateIdempotency (senderID clientMessageID fingerprint : string)
    (s : MemoryStore) : result (option Message * bool) :=
  if bool_decide (clientMessageID = "") then Ok (None, false)
  else
    match s.(dynamicUpdateIdempotency) !! composite_key senderID clientMessageID with
    | None => Ok (None, false)
    | Some record =>
        if bool_decide (record.(du_fingerprint) = fingerprint)
        then Ok (with_reactions s <$> findMessageLocked s record.(du_messageID), true)
        else Err ErrDynamicUpdateIdempotencyConflict
    end.

Definition StoreDynamicUpdateIdempotent
    (senderID clientMessageID fingerprint msgID : string) (segments : list MessageSegment)
    (s : MemoryStore) : result (option Message * bool) * MemoryStore :=
  match LookupDynamicUpdateIdempotency senderID clientMessageID fingerprint s with
  | Err e => (Err e, s)
  | Ok (cached, true) => (Ok (cached, true), s)
  | Ok (_, false) =>
      match updateMessageSegmentsLocked msgID segments s with
      | (Ok (Some message), s) =>
          if bool_decide (clientMessageID = "") then (Ok (Some message, false), s)
          else (Ok (Some message, false),
                s <| dynamicUpdateIdempotency ::=
                  <[composite_key senderID clientMessageID :=
                      mkDynamicUpdateIdempotency fingerprint msgID]> |>)
      | (Ok None, s) => (Ok (None, false), s)
      | (Err e, s) => (Err e, s)
      end
  end.

Definition record_interaction (fingerprint : string) (event : DynamicInteractionEvent)
    (now : time) (s : MemoryStore) : MemoryStore :=
  let copy := if IsZero event.(DynamicInteractionEvent_CreatedAt)
              then event <| DynamicInteractionEvent_CreatedAt := now |> else event in
  let msgID := copy.(DynamicInteractionEvent_MessageID) in
  s <| dynamicInteractionEvents ::= fun m => <[msgID := default [] (m !! msgID) ++ [copy]]> m |>
    <| dynamicInteractionByID ::=
       <[interaction_key event := mkDynamicInteractionRecord fingerprint copy]> |>.

(** [check] is what happens between the idempotency test and the append *)
Definition interaction_op `{Runtime} (event : DynamicInteractionEvent) (now : time)
    (commit : MemoryStore -> result unit * MemoryStore) (s : MemoryStore)
  : result bool * MemoryStore :=
  if bool_decide (event.(DynamicInteractionEvent_EventID) = "")
     || bool_decide (event.(DynamicInteractionEvent_ActorID) = "")
  then (Err "dynamic interaction event identity is required", s)
  else
    match dynamicInteractionFingerprint event with
    | Err e => (Err e, s)
    | Ok fingerprint =>
        match s.(dynamicInteractionByID) !! interaction_key event with
        | Some existing =>
            if bool_decide (existing.(di_fingerprint) = fingerprint) then (Ok true, s)
            else (Err ErrDynamicInteractionIdempotencyConflict, s)
        | None =>
            match commit s with
            | (Ok _, s) => (Ok false, record_interaction fingerprint event now s)
            | (Err e, s) => (Err e, s)
            end
        end
    end.

Definition AppendDynamicInteractionEvent `{Runtime} (event : DynamicInteractionEvent)
    (now : time) (s : MemoryStore) : result bool * MemoryStore :=
  interaction_op event now (fun s => (Ok tt, s)) s.

Definition CommitDynamicInteractionEvent `{Runtime} (event : DynamicInteractionEvent)
    (segments : list MessageSegment) (now : time) (s : MemoryStore)
  : result bool * MemoryStore :=
  interaction_op event now (fun s =>
    match findMessageLocked s event.(DynamicInteractionEvent_MessageID) with
    | None => (Err "dynamic interaction target message not found", s)
    | Some _ =>
        match updateMessageSegmentsLocked event.(DynamicInteractionEvent_MessageID) segments s with
        | (Ok _, s) => (Ok tt, s)
        | (Err e, s) => (Err e, s)
        end
    end) s.

Definition GetDynamicInteractionEvents (conversationID messageID contentID : string)
    (limit : Z) (s : MemoryStore) : result (list DynamicInteractionEvent) :=
  let result := filter (fun e => e.(DynamicInteractionEvent_ConversationID) = conversationID
                              /\ e.(DynamicInteractionEvent_ContentID) = contentID)
    (default [] (s.(dynamicInteractionEvents) !! messageID)) in
  let n := Z.of_nat (length result) in
  Ok (if (0 <? limit) && (limit <? n) then drop (Z.to_nat (n - limit)) result else result).

(** ** Read cursors *)

Definition MarkConversationRead (conversationID userID : string) (now : time)
    (s : MemoryStore) : result ReadState * MemoryStore :=
  let state := match last (conv_messages s conversationID) with
               | Some m => mkReadState conversationID userID m.(Message_ID) m.(Message_Timestamp)
               | None => mkReadState conversationID userID "" now
               end in
  (Ok state, s <| readStates ::= insert2 conversationID userID state |>).

Definition GetConversationRead (conversationID userID : string) (s : MemoryStore)
  : result (option ReadState) := Ok (lookup2 s.(readStates) conversationID userID).

Definition GetConversationReadStates (conversationID : string) (s : MemoryStore)
  : result (list ReadState) :=
  Ok ((map_to_list (default ∅ (s.(readStates) !! conversationID))).*2).

Definition unread_start (msgs : list Message) (state : option ReadState) : nat :=
  match state with
  | None => 0%nat
  | Some state =>
      if bool_decide (state.(ReadState_LastReadMessageID) = "")
      then default (length msgs)
             (index_first (fun m => After m.(Message_Timestamp) state.(ReadState_ReadAt)) msgs)
      else match index_first (fun m =>
                   bool_decide (m.(Message_ID) = state.(ReadState_LastReadMessageID))) msgs with
           | Some i => S i
           | None => length msgs
           end
  end.

Definition not_from (userID : string) (m : Message) : Prop := m.(Message_SenderID) <> userID.
#[export] Instance not_from_dec userID m : Decision (not_from userID m).
Proof. unfold not_from. apply _. Defined.

Definition CountUnreadMessages (conversationID userID : string) (s : MemoryStore) : result Z :=
  let msgs := conv_messages s conversationID in
  let start := unread_start msgs (lookup2 s.(readStates) conversationID userID) in
  Ok (Z.of_nat (length (filter (not_from userID) (drop start msgs)))).

(** ** Forwards *)

Definition forward_id (now : time) : string := "fwd_" +:+ sprint_d (UnixNano now).

(** two clock readings: the id's, then [CreatedAt]'s *)
Definition StoreForward (conversationID : string) (msgs : list Message) (now1 now2 : time)
    (s : MemoryStore) : result ForwardMessage * MemoryStore :=
  let forward := mkForwardMessage (forward_id now1) conversationID msgs now2 in
  (Ok forward, s <| forwards ::= <[forward.(ForwardMessage_ID) := forward]> |>).

Definition GetForward (id : string) (s : MemoryStore) : result (option ForwardMessage) :=
  Ok (s.(forwards) !! id).

(** ** Looking a message up by id *)

Definition has_msg_id (id : string) (m : Message) : bool := bool_decide (m.(Message_ID) = id).

(** In a list without repeated ids, an element is found at its own index. *)
Lemma index_first_lookup (l : list Message) i m :
  NoDup (Message_ID <$> l) -> l !! i = Some m ->
  index_first (has_msg_id m.(Message_ID)) l = Some i.
Proof.
  revert i. induction l as [|x l IH]; intros i Hn Hi; [done|]. simpl in *.
  apply NoDup_cons in Hn as [Hx Hn]. unfold has_msg_id at 1.
  destruct i as [|i]; simpl in Hi.
  - injection Hi as ->. by rewrite bool_decide_true.
  - case_bool_decide as E.
    + exfalso. apply Hx. rewrite E. by eapply list_elem_of_fmap_2, list_elem_of_lookup_2.
    + by rewrite (IH i).
Qed.
