(* ===== verification/MemoryGroups.v ===== *)
(** * Groups and announcements of the in-memory store

    The group operations of store/memory.go and the announcement operations of
    store/announcements.go. *)
From S2P Require Import Prelude GoLib Types MemoryState MemoryMessages.
From stdpp Require Import gmap strings list.
From Stdlib Require Import ZArith.

Local Open Scope Z_scope.

Definition is_member (userID : string) (m : GroupMember) : bool :=
  bool_decide (m.(GroupMember_UserID) = userID).

(** two clock readings: the owner's [JoinedAt], then the group's [CreatedAt] *)
Definition CreateGroup (id name avatar ownerID : string) (now1 now2 : time)
    (s : MemoryStore) : result Group * MemoryStore :=
  let group := mkGroup id name avatar "" ownerID false
                 [mkGroupMember ownerID "owner" now1 zero_time] now2 in
  (Ok group, s <| groups ::= <[id := group]> |>).

Definition GetGroup (id : string) (s : MemoryStore) : result (option Group) :=
  Ok (s.(groups) !! id).

Definition GetGroups (s : MemoryStore) : result (list Group) :=
  Ok ((map_to_list s.(groups)).*2).

Definition GetUserGroups (userID : string) (s : MemoryStore) : result (list Group) :=
  Ok (filter (fun g => is_Some (find_first (is_member userID) g.(Group_Members)))
        ((map_to_list s.(groups)).*2)).

Definition write_group (groupID : string) (f : Group -> Group) (s : MemoryStore) : MemoryStore :=
  s <| groups ::= alter f groupID |>.

Definition UpdateGroup (groupID name avatar announcement : string) (muteAll : bool)
    (s : MemoryStore) : result unit * MemoryStore :=
  match s.(groups) !! groupID with
  | None => (Err "group not found", s)
  | Some _ =>
      (Ok tt, write_group groupID (fun g =>
         g <| Group_Name := name |> <| Group_Avatar := avatar |>
           <| Group_Announcement := announcement |> <| Group_MuteAll := muteAll |>) s)
  end.

(** the common shape of the per-member setters *)
Definition update_member (groupID userID : string) (f : GroupMember -> GroupMember)
    (s : MemoryStore) : result unit * MemoryStore :=
  match s.(groups) !! groupID with
  | None => (Err "group not found", s)
  | Some group =>
      match find_first (is_member userID) group.(Group_Members) with
      | None => (Err "group member not found", s)
      | Some _ =>
          (Ok tt, write_group groupID
             (fun g => g <| Group_Members ::= update_first (is_member userID) f |>) s)
      end
  end.

Definition SetGroupMemberRole (groupID userID role : string) (s : MemoryStore)
  : result unit * MemoryStore :=
  update_member groupID userID (fun m => m <| GroupMember_Role := role |>) s.

Definition SetGroupMemberMute (groupID userID : string) (mutedUntil : time) (s : MemoryStore)
  : result unit * MemoryStore :=
  update_member groupID userID (fun m => m <| GroupMember_MutedUntil := mutedUntil |>) s.

(** [for _, member := range members { if member.UserID == id { found = member } }]:
    the last match wins *)
Definition find_last_member (userID : string) (ms : list GroupMember) : option GroupMember :=
  find_first (is_member userID) (reverse ms).

(** the assignments through the two member pointers; each pointer is the last
    list element with its user id *)
Definition update_last_member (userID : string) (f : GroupMember -> GroupMember)
    (ms : list GroupMember) : list GroupMember :=
  reverse (update_first (is_member userID) f (reverse ms)).

Definition TransferGroupOwnership (groupID currentOwnerID newOwnerID : string)
    (s : MemoryStore) : result unit * MemoryStore :=
  match s.(groups) !! groupID with
  | None => (Err "group owner mismatch", s)
  | Some group =>
      if negb (bool_decide (group.(Group_OwnerID) = currentOwnerID))
      then (Err "group owner mismatch", s)
      else
        let ms := group.(Group_Members) in
        (* the switch tests currentOwnerID first *)
        let newOwner := if bool_decide (newOwnerID = currentOwnerID) then None
                        else find_last_member newOwnerID ms in
        match find_last_member currentOwnerID ms, newOwner with
        | Some _, Some m =>
            if bool_decide (m.(GroupMember_Role) = "owner")
            then (Err "invalid ownership transfer", s)
            else
              (Ok tt, write_group groupID (fun g =>
                 g <| Group_Members ::= update_last_member currentOwnerID
                        (fun m => m <| GroupMember_Role := "member" |>) |>
                   <| Group_Members ::= update_last_member newOwnerID
                        (fun m => m <| GroupMember_Role := "owner" |>
                                    <| GroupMember_MutedUntil := zero_time |>) |>
                   <| Group_OwnerID := newOwnerID |>) s)
        | _, _ => (Err "invalid ownership transfer", s)
        end
  end.

Definition DeleteGroup (groupID : string) (s : MemoryStore) : result unit * MemoryStore :=
  match s.(groups) !! groupID with
  | None => (Err "group not found", s)
  | Some _ =>
      let announcements := default [] (s.(groupAnnouncements) !! groupID) in
      (Ok tt, s <| groups ::= delete groupID |> <| conversations ::= delete groupID |>
                <| messages ::= delete groupID |> <| readStates ::= delete groupID |>
                <| announcementReads ::= fun m =>
                     foldr (fun a m => delete a.(GroupAnnouncement_ID) m) m announcements |>
                <| groupAnnouncements ::= delete groupID |>)
  end.

Definition AddGroupMember (groupID userID : string) (now : time) (s : MemoryStore)
  : result bool * MemoryStore :=
  match s.(groups) !! groupID with
  | None => (Ok false, s)
  | Some group =>
      match find_first (is_member userID) group.(Group_Members) with
      | Some _ => (Ok false, s)
      | None =>
          (Ok true, write_group groupID (fun g =>
             g <| Group_Members ::= fun ms =>
                    ms ++ [mkGroupMember userID "member" now zero_time] |>) s)
      end
  end.

Definition RemoveGroupMember (groupID userID : string) (s : MemoryStore)
  : result bool * MemoryStore :=
  match s.(groups) !! groupID with
  | None => (Ok false, s)
  | Some group =>
      match find_first (is_member userID) group.(Group_Members) with
      | None => (Ok false, s)
      | Some _ =>
          (Ok true, write_group groupID (fun g =>
             g <| Group_Members ::= remove_first (is_member userID) |>) s)
      end
  end.

Definition IsGroupMember (groupID userID : string) (s : MemoryStore) : result bool :=
  Ok (isGroupMember s groupID userID).

Definition GetGroupMembers (groupID : string) (s : MemoryStore) : result (list GroupMember) :=
  Ok (match s.(groups) !! groupID with None => [] | Some g => g.(Group_Members) end).

(** ** Announcements *)

Definition announcement_id (now : time) (n : Z) : string :=
  "announcement_" +:+ sprint_d (UnixNano now) +:+ "_" +:+ sprint_d n.

Definition CreateGroupAnnouncement (groupID content authorID : string) (isPinned : bool)
    (now : time) (s : MemoryStore) : result GroupAnnouncement * MemoryStore :=
  match s.(groups) !! groupID with
  | None => (Err "group not found", s)
  | Some _ =>
      let n := wrap64 (s.(announcementCounter) + 1) in
      let announcement := mkGroupAnnouncement (announcement_id now n) groupID content
                            authorID isPinned false now now in
      (Ok announcement,
       s <| announcementCounter := n |>
         <| groupAnnouncements ::= fun m =>
              <[groupID := default [] (m !! groupID) ++ [announcement]]> m |>)
  end.

Definition is_announcement (id : string) (a : GroupAnnouncement) : bool :=
  bool_decide (a.(GroupAnnouncement_ID) = id).

(** all announcements, in map iteration order *)
Definition all_announcements (s : MemoryStore) : list GroupAnnouncement :=
  (map_to_list s.(groupAnnouncements)).*2 ≫= id.

Definition GetGroupAnnouncement (id : string) (s : MemoryStore)
  : result (option GroupAnnouncement) :=
  Ok (find_first (is_announcement id) (all_announcements s)).

Definition announcement_read (s : MemoryStore) (id userID : string) : bool :=
  bool_decide (userID ∈ default ∅ (s.(announcementReads) !! id)).

(** pinned first, then the most recently updated *)
Definition announcement_before (a b : GroupAnnouncement) : bool :=
  if Bool.eqb a.(GroupAnnouncement_IsPinned) b.(GroupAnnouncement_IsPinned)
  then After a.(GroupAnnouncement_UpdatedAt) b.(GroupAnnouncement_UpdatedAt)
  else a.(GroupAnnouncement_IsPinned).

Definition GetGroupAnnouncements (groupID userID : string) (s : MemoryStore)
  : result (list GroupAnnouncement) :=
  Ok (sort_slice announcement_before
        ((fun a => a <| GroupAnnouncement_IsRead :=
                        announcement_read s a.(GroupAnnouncement_ID) userID |>)
         <$> default [] (s.(groupAnnouncements) !! groupID))).

(** the group whose list holds the announcement *)
Definition group_of_announcement (s : MemoryStore) (id : string) : option string :=
  fst <$> find_first (fun kv : string * list GroupAnnouncement =>
            bool_decide (is_Some (find_first (is_announcement id) kv.2)))
          (map_to_list s.(groupAnnouncements)).

Definition UpdateGroupAnnouncement (id content : string) (isPinned : bool) (now : time)
    (s : MemoryStore) : result (option GroupAnnouncement) * MemoryStore :=
  match group_of_announcement s id with
  | None => (Ok None, s)
  | Some groupID =>
      let f := fun a => a <| GroupAnnouncement_Content := content |>
                          <| GroupAnnouncement_IsPinned := isPinned |>
                          <| GroupAnnouncement_UpdatedAt := now |> in
      let l := update_first (is_announcement id) f
                 (default [] (s.(groupAnnouncements) !! groupID)) in
      (Ok (find_first (is_announcement id) l),
       s <| groupAnnouncements ::= <[groupID := l]> |>)
  end.

Definition DeleteGroupAnnouncement (id : string) (s : MemoryStore)
  : result bool * MemoryStore :=
  match group_of_announcement s id with
  | None => (Ok false, s)
  | Some groupID =>
      (Ok true, s <| groupAnnouncements ::= fun m =>
           <[groupID := remove_first (is_announcement id) (default [] (m !! groupID))]> m |>
         <| announcementReads ::= delete id |>)
  end.

Definition MarkGroupAnnouncementRead (id userID : string) (s : MemoryStore)
  : result unit * MemoryStore :=
  match find_first (is_announcement id) (all_announcements s) with
  | None => (Err "sql: no rows in result set", s)
  | Some _ =>
      (Ok tt, s <| announcementReads ::= fun m =>
         <[id := default ∅ (m !! id) ∪ {[userID]}]> m |>)
  end.
