(* ===== verification/Prog.v ===== *)
(** * Programs with atomic steps

    A handler of the server is a sequence of critical sections: every store call
    and every section under [Gateway.mu] is atomic, and other goroutines run in
    between.  [prog S A] is such a program over a shared state [S]; [run] executes
    it alone, [pool_step] interleaves a pool of them.

    [always I Q p] says that each atomic step of [p] preserves [I], whatever the
    other threads did in between as long as they preserve [I] too, and that every
    result of [p] satisfies [Q]; [pool_invariant] turns it into an invariant of
    every interleaving. *)
From S2P Require Import Prelude.
From stdpp Require Import gmap strings list.
From Stdlib Require Import ZArith.

Inductive prog (S A : Type) : Type :=
| Ret (a : A)
| Atom (X : Type) (f : S -> X * S) (k : X -> prog S A).
Arguments Ret {S A} _.
Arguments Atom {S A} X f k.

Fixpoint bind {S A B} (p : prog S A) (k : A -> prog S B) : prog S B :=
  match p with
  | Ret a => k a
  | Atom X f k0 => Atom X f (fun x => bind (k0 x) k)
  end.

Notation "x <- p ;; q" := (bind p (fun x => q))
  (at level 100, p at next level, right associativity) : go_scope.
Notation "' x <- p ;; q" := (bind p (fun x => q))
  (at level 100, x strict pattern, p at next level, right associativity) : go_scope.
Notation "p ;; q" := (bind p (fun _ => q)) (at level 100, right associativity) : go_scope.

(** one critical section *)
Definition atomic {S X} (f : S -> X * S) : prog S X := Atom X f Ret.
(** a critical section that only reads *)
Definition reads {S X} (f : S -> X) : prog S X := atomic (fun s => (f s, s)).
(** a critical section that only writes *)
Definition writes {S} (f : S -> S) : prog S unit := atomic (fun s => (tt, f s)).

(** ** Sequential execution *)

Fixpoint run {S A} (p : prog S A) (s : S) : A * S :=
  match p with
  | Ret a => (a, s)
  | Atom X f k => let '(x, s) := f s in run (k x) s
  end.

Lemma run_bind {S A B} (p : prog S A) (k : A -> prog S B) s :
  run (bind p k) s = let '(a, s') := run p s in run (k a) s'.
Proof. revert s. induction p as [a|X f k0 IH]; intros s; simpl; [done|]. by destruct (f s). Qed.

(** [for _, x := range l { body(x) }] *)
Fixpoint for_each {S A} (l : list A) (body : A -> prog S unit) : prog S unit :=
  match l with
  | [] => Ret tt
  | x :: l => bind (body x) (fun _ => for_each l body)
  end.

(** Two programs with the same sequential behaviour. *)
Definition run_eq {S A} (p q : prog S A) : Prop := forall s, run p s = run q s.
#[export] Instance run_eq_equiv {S A} : Equivalence (@run_eq S A).
Proof. split; [by intros p s|by intros p q H s|by intros p q r H1 H2 s; rewrite H1]. Qed.
#[export] Instance bind_proper {S A B} :
  Proper (run_eq ==> pointwise_relation A run_eq ==> run_eq) (@bind S A B).
Proof.
  intros p q Hpq k l Hkl s. rewrite !run_bind, Hpq. destruct (run q s). apply Hkl.
Qed.

Lemma bind_assoc {S A B C} (p : prog S A) (k : A -> prog S B) (l : B -> prog S C) :
  run_eq (bind (bind p k) l) (bind p (fun a => bind (k a) l)).
Proof. intros s. rewrite !run_bind. destruct (run p s). by rewrite run_bind. Qed.

(** ** Invariants of atomic steps *)

Fixpoint always {S A} (I : S -> Prop) (Q : A -> Prop) (p : prog S A) : Prop :=
  match p with
  | Ret a => Q a
  | Atom X f k => forall s, I s -> I (f s).2 /\ always I Q (k (f s).1)
  end.

(** no condition on the result *)
Definition any {A : Type} (a : A) : Prop := True.

Section always.
Context {S : Type} (I : S -> Prop).

Lemma always_bind {A B} (P : A -> Prop) (Q : B -> Prop) (p : prog S A) (k : A -> prog S B) :
  always I P p -> (forall a, P a -> always I Q (k a)) -> always I Q (bind p k).
Proof.
  induction p as [a|X f k0 IH]; simpl; intros Hp Hk; [by apply Hk|].
  intros s Hs. destruct (Hp s Hs). split; [done|]. by apply IH.
Qed.

Lemma always_weaken {A} (P Q : A -> Prop) (p : prog S A) :
  (forall a, P a -> Q a) -> always I P p -> always I Q p.
Proof.
  intros HPQ. induction p as [a|X f k IH]; simpl; [auto|].
  intros Hp s Hs. destruct (Hp s Hs). split; [done|]. by apply IH.
Qed.

Lemma always_atomic {X} (f : S -> X * S) :
  (forall s, I s -> I (f s).2) -> always I any (atomic f).
Proof. intros Hf s Hs. split; [by apply Hf|done]. Qed.

Lemma always_reads {X} (f : S -> X) : always I any (reads f).
Proof. intros s Hs. done. Qed.

Lemma always_writes (f : S -> S) : (forall s, I s -> I (f s)) -> always I any (writes f).
Proof. intros Hf s Hs. split; [by apply Hf|done]. Qed.

Lemma always_for_each {A} (l : list A) body :
  (forall x, always I any (body x)) -> always I any (for_each l body).
Proof.
  intros Hb. induction l as [|x l IH]; simpl; [done|]. by apply (always_bind any).
Qed.

Lemma always_run {A} (Q : A -> Prop) (p : prog S A) s :
  always I Q p -> I s -> I (run p s).2 /\ Q (run p s).1.
Proof.
  revert s. induction p as [a|X f k IH]; simpl; intros s Hp Hs; [done|].
  destruct (Hp s Hs) as [H1 H2]. destruct (f s) as [x s']; simpl in *. by apply IH.
Qed.
End always.

(** ** Interleaving *)

(** one step of some thread of the pool *)
Inductive pool_step {S A} : S * list (prog S A) -> S * list (prog S A) -> Prop :=
| pool_step_atom s ps1 X f k ps2 x s' :
    f s = (x, s') ->
    pool_step (s, ps1 ++ Atom X f k :: ps2) (s', ps1 ++ k x :: ps2).

Inductive pool_steps {S A} : S * list (prog S A) -> S * list (prog S A) -> Prop :=
| pool_refl c : pool_steps c c
| pool_trans c1 c2 c3 : pool_step c1 c2 -> pool_steps c2 c3 -> pool_steps c1 c3.

Lemma pool_step_at {S A} (s s' : S) (ps : list (prog S A)) i X f k x :
  ps !! i = Some (Atom X f k) -> f s = (x, s') ->
  pool_step (s, ps) (s', <[i := k x]> ps).
Proof.
  intros Hi Hf. pose proof (lookup_lt_Some _ _ _ Hi).
  rewrite <-(take_drop_middle _ _ _ Hi) at 1.
  rewrite insert_take_drop by done. by constructor.
Qed.

Lemma pool_invariant {S A} (I : S -> Prop) c c' :
  @pool_steps S A c c' -> I c.1 -> Forall (always I any) c.2 -> I c'.1 /\ Forall (always I any) c'.2.
Proof.
  induction 1 as [c|c1 c2 c3 Hstep _ IH]; [done|]. intros Hs Hps. apply IH; clear IH.
  - inversion Hstep as [s ps1 X f k ps2 x s' Hf]; subst; simpl in *.
    apply Forall_app in Hps as [_ [Ha _]%Forall_cons].
    destruct (Ha s Hs) as [Hi _]. by rewrite Hf in Hi.
  - inversion Hstep as [s ps1 X f k ps2 x s' Hf]; subst; simpl in *.
    apply Forall_app in Hps as [H1 [Ha H2]%Forall_cons].
    destruct (Ha s Hs) as [_ Hk]. rewrite Hf in Hk. by apply Forall_app_2, Forall_cons.
Qed.

(** A thread running alone is one of the interleavings. *)
Lemma run_pool_steps {S A} (p : prog S A) s ps1 ps2 a s' :
  run p s = (a, s') -> pool_steps (s, ps1 ++ p :: ps2) (s', ps1 ++ Ret a :: ps2).
Proof.
  revert s. induction p as [b|X f k IH]; intros s; cbn [run].
  - intros [= <- <-]. constructor.
  - destruct (f s) as [x s1] eqn:Ef. intros Hr.
    eapply pool_trans; [by constructor|]. by apply IH.
Qed.

(** ** Schedules

    An interleaving given by the thread that runs next. *)
Definition step_thread {S A} (i : nat) (c : S * list (prog S A)) : S * list (prog S A) :=
  match c.2 !! i with
  | Some (Atom X f k) => let '(x, s) := f c.1 in (s, <[i := k x]> c.2)
  | _ => c
  end.
Definition schedule {S A} (threads : list nat) (c : S * list (prog S A)) : S * list (prog S A) :=
  fold_left (fun c i => step_thread i c) threads c.

Definition finished {S A} (p : prog S A) : bool := match p with Ret _ => true | Atom _ _ _ => false end.

Lemma schedule_pool_steps {S A} threads (c : S * list (prog S A)) :
  pool_steps c (schedule threads c).
Proof.
  revert c. induction threads as [|i threads IH]; intros c; [constructor|]. cbn [schedule fold_left].
  destruct c as [s ps]. unfold step_thread at 2. cbn [fst snd].
  destruct (ps !! i) as [[a|X f k]|] eqn:Ei; [apply IH| |apply IH].
  destruct (f s) as [x s'] eqn:Ef. eapply pool_trans; [by eapply pool_step_at|]. apply IH.
Qed.
