(* ===== verification/SqlReads.v ===== *)
(** * Read cursors in SQL (store/read_state.go)

    The SQLite and PostgreSQL stores keep messages and cursors in tables and count
    unread messages by timestamp, where the in-memory store counts by position.
    Each SQL statement is one atomic step, and each may fail; a failed INSERT may have
    been carried out all the same, when only its answer was lost.  What a database
    keeps of a timestamp is [TimeColumn]: text in SQLite, microseconds in PostgreSQL.
    [agree] relates a table to an in-memory store; while the kept timestamps of the
    messages increase along a conversation, marking and counting give the same answers
    on both. *)
From S2P Require Import Prelude GoLib Types MemoryState MemoryMessages Prog.
From stdpp Require Import gmap strings list sorting.
From Stdlib Require Import ZArith.

Local Open Scope Z_scope.
Local Open Scope go_scope.

(** ** Timestamps in a database

    What the driver and the database make of a [time.Time]: the column it is written
    to, the time that is read back, and the comparison of two columns in SQL. *)
Class TimeColumn := {
  column : Type;
  write_time : time -> column;
  read_time : column -> time;
  column_gt : column -> column -> bool }.

(** what is left of a timestamp that was written and read back *)
Definition stored `{TimeColumn} (t : time) : time := read_time (write_time t).

(** A column that is read and written again is the same column; columns compare as the
    times they stand for. *)
Class TimeColumnLaws `{TimeColumn} : Prop := {
  write_stored t : write_time (stored t) = write_time t;
  column_order a b : column_gt (write_time a) (write_time b) = After (stored a) (stored b) }.

(** PostgreSQL keeps microseconds and rounds to the nearest *)
#[export] Instance microseconds : TimeColumn := {|
  column := Z; write_time t := (t + 500) / 1000; read_time c := 1000 * c; column_gt a b := b <? a |}.
#[export] Instance microseconds_laws : TimeColumnLaws (H := microseconds).
Proof.
  split; unfold stored; cbn -[Z.mul Z.div Z.add].
  - intros t. generalize ((t + 500) / 1000). intros c.
    rewrite (Z.mul_comm 1000), Z.div_add_l by lia. change (500 / 1000) with 0. lia.
  - intros a b. unfold After. apply eq_true_iff_eq. rewrite !Z.ltb_lt. lia.
Qed.

Section sql.
Context `{TimeColumn}.

(** the columns of [messages] and of [conversation_reads] that the statements use *)
Record message_row := mkMessageRow {
  row_id : string; row_conversation : string; row_sender : string; row_timestamp : column }.
Record read_row := mkReadRow { last_read_message_id : string; read_at : column }.
(** [conversation_reads] by its primary key *)
Record sql_tables := mkSqlTables {
  messages_rows : list message_row;
  conversation_reads : gmap (string * string) read_row }.
#[export] Instance eta_sql_tables : Eta sql_tables := fun t =>
  mkSqlTables t.(messages_rows) t.(conversation_reads).

(** the calls of database/sql that may fail; [ScanReads n] is the scan of row [n] *)
Inductive read_stmt :=
| QueryLast | ExecRead | QueryRead | QueryReads | ScanReads (n : nat) | RowsErr | QueryCount.

Definition in_conversation (c : string) (r : message_row) : Prop := r.(row_conversation) = c.
#[export] Instance in_conversation_dec c r : Decision (in_conversation c r).
Proof. unfold in_conversation. apply _. Defined.

(** WHERE conversation_id = ? *)
Definition rows_of (t : sql_tables) (c : string) : list message_row :=
  filter (in_conversation c) t.(messages_rows).

(** ORDER BY timestamp DESC, id DESC *)
Definition row_first (a b : message_row) : bool :=
  column_gt a.(row_timestamp) b.(row_timestamp)
  || negb (column_gt b.(row_timestamp) a.(row_timestamp)) && String.ltb b.(row_id) a.(row_id).

(** LIMIT 1 *)
Definition top_row (l : list message_row) : option message_row :=
  foldr (fun r best => match best with
                       | None => Some r
                       | Some b => if row_first b r then Some b else Some r
                       end) None l.

Section statements.
(** the error of each call, if any; [lost] when a failed INSERT was carried out *)
Variable fault : read_stmt -> option string.
Variable lost : bool.

(** a statement that returns its error *)
Definition sql_query {X A} (stmt : read_stmt) (f : sql_tables -> X)
    (k : X -> prog sql_tables (result A)) : prog sql_tables (result A) :=
  match fault stmt with
  | Some err => Ret (Err err)
  | None => x <- reads f;; k x
  end.

Definition upsert_read (c u last : string) (at_ : time) (t : sql_tables) : sql_tables :=
  t <| conversation_reads ::= <[(c, u) := mkReadRow last (write_time at_)]> |>.

Definition sql_MarkConversationRead (conversationID userID : string) (now : time)
  : prog sql_tables (result ReadState) :=
  sql_query QueryLast (fun t => top_row (rows_of t conversationID)) (fun row =>
    let '(last, at_) := match row with
                        | None => ("", now)
                        | Some r => (r.(row_id), read_time r.(row_timestamp))
                        end in
    let upsert := writes (upsert_read conversationID userID last at_) in
    match fault ExecRead with
    | Some err => (if lost then upsert else Ret tt);; Ret (Err err)
    | None => upsert;; Ret (Ok (mkReadState conversationID userID last at_))
    end).

(** Scan(...) *)
Definition scan_read (key : string * string) (row : read_row) : ReadState :=
  mkReadState key.1 key.2 row.(last_read_message_id) (read_time row.(read_at)).

Definition sql_GetConversationRead (conversationID userID : string)
  : prog sql_tables (result (option ReadState)) :=
  sql_query QueryRead (fun t => t.(conversation_reads) !! (conversationID, userID)) (fun row =>
    Ret (Ok (scan_read (conversationID, userID) <$> row))).

(** for rows.Next() { rows.Scan(...) } *)
Fixpoint scan_reads (n : nat) (rows : list ((string * string) * read_row))
    (states : list ReadState) : result (list ReadState) :=
  match rows with
  | [] => match fault RowsErr with Some err => Err err | None => Ok states end
  | (key, row) :: rows =>
      match fault (ScanReads n) with
      | Some err => Err err
      | None => scan_reads (S n) rows (states ++ [scan_read key row])
      end
  end.

Definition sql_GetConversationReadStates (conversationID : string)
  : prog sql_tables (result (list ReadState)) :=
  sql_query QueryReads
    (fun t => filter (fun kv => kv.1.1 = conversationID) (map_to_list t.(conversation_reads)))
    (fun rows => Ret (scan_reads 0 rows [])).

(** sender_id <> ? [AND timestamp > ?] *)
Definition unread_row (userID : string) (state : option ReadState) (r : message_row) : bool :=
  negb (bool_decide (r.(row_sender) = userID))
  && match state with
     | None => true
     | Some st => column_gt r.(row_timestamp) (write_time st.(ReadState_ReadAt))
     end.

Definition sql_CountUnreadMessages (conversationID userID : string)
  : prog sql_tables (result Z) :=
  state <- sql_GetConversationRead conversationID userID;;
  match state with
  | Err err => Ret (Err err)
  | Ok state =>
      sql_query QueryCount (fun t => Z.of_nat (length (filter
        (fun r => unread_row userID state r = true) (rows_of t conversationID))))
        (fun count => Ret (Ok count))
  end.
End statements.

(** ** Agreement with the in-memory store *)

(** when a message was sent, as far as the database knows *)
Definition kept_at (m : Message) : time := stored m.(Message_Timestamp).
Definition row_of (m : Message) : message_row :=
  mkMessageRow m.(Message_ID) m.(Message_ConversationID) m.(Message_SenderID)
    (write_time m.(Message_Timestamp)).
Definition read_row_of (st : ReadState) : read_row :=
  mkReadRow st.(ReadState_LastReadMessageID) (write_time st.(ReadState_ReadAt)).

(** the same cursor, up to what a column keeps of its timestamp *)
Definition same_cursor (a b : ReadState) : Prop :=
  a.(ReadState_ConversationID) = b.(ReadState_ConversationID)
  /\ a.(ReadState_UserID) = b.(ReadState_UserID) /\ read_row_of a = read_row_of b.

(** kept timestamps strictly increase along the list *)
Definition chronological (l : list Message) : Prop :=
  StronglySorted (fun a b => kept_at a < kept_at b) l.

(** The cursor is on a message of the list; or it was set on an empty conversation, and
    the database tells the messages that came after it. *)
Definition cursor_ok (l : list Message) (st : ReadState) : Prop :=
  (st.(ReadState_LastReadMessageID) = ""
   /\ forall m, m ∈ l -> After m.(Message_Timestamp) st.(ReadState_ReadAt)
                       = After (kept_at m) (stored st.(ReadState_ReadAt)))
  \/ (st.(ReadState_LastReadMessageID) <> ""
      /\ exists i m, l !! i = Some m
           /\ index_first (fun m => bool_decide (m.(Message_ID) = st.(ReadState_LastReadMessageID))) l
              = Some i
           /\ st.(ReadState_ReadAt) = m.(Message_Timestamp)).

Record agree (c u : string) (s : MemoryStore) (t : sql_tables) : Prop := {
  ag_rows : rows_of t c ≡ₚ row_of <$> conv_messages s c;
  ag_read : t.(conversation_reads) !! (c, u) = read_row_of <$> lookup2 s.(readStates) c u;
  ag_own : forall st, lookup2 s.(readStates) c u = Some st ->
    st.(ReadState_ConversationID) = c /\ st.(ReadState_UserID) = u;
  ag_time : chronological (conv_messages s c);
  ag_cursor : forall st, lookup2 s.(readStates) c u = Some st -> cursor_ok (conv_messages s c) st }.

Context {HL : TimeColumnLaws}.

Lemma row_first_row a b :
  row_first (row_of a) (row_of b)
  = After (kept_at a) (kept_at b)
    || negb (After (kept_at b) (kept_at a)) && String.ltb b.(Message_ID) a.(Message_ID).
Proof. unfold row_first. cbn. by rewrite !column_order. Qed.

Lemma top_row_cons r l :
  top_row (r :: l) = match top_row l with
                     | None => Some r
                     | Some b => if row_first b r then Some b else Some r
                     end.
Proof. done. Qed.

Lemma top_row_max l r :
  top_row (row_of <$> l) = Some r ->
  exists m, r = row_of m /\ m ∈ l /\ forall m', m' ∈ l -> kept_at m' <= kept_at m.
Proof.
  revert r. induction l as [|x l IH]; intros r; [done|]. rewrite fmap_cons, top_row_cons.
  destruct (top_row (row_of <$> l)) as [b|] eqn:E.
  - destruct (IH b eq_refl) as (y & -> & Hy & Hmax). intros Hr.
    assert (Hcases : (r = row_of y /\ kept_at x <= kept_at y) \/ (r = row_of x /\ kept_at y <= kept_at x)).
    { revert Hr. rewrite row_first_row. unfold After.
      destruct (kept_at x <? kept_at y) eqn:E1; cbn [orb].
      - intros [= <-]. apply Z.ltb_lt in E1. left. split; [done|lia].
      - apply Z.ltb_ge in E1. destruct (kept_at y <? kept_at x) eqn:E2; cbn [negb andb].
        + intros [= <-]. by right.
        + apply Z.ltb_ge in E2. case_match; intros [= <-]; [left|right]; (split; [done|lia]). }
    destruct Hcases as [[-> Hle]|[-> Hle]]; eexists; (split; [done|]); (split; [by constructor|]);
      intros m' [->|Hm']%elem_of_cons; try done; specialize (Hmax _ Hm'); lia.
  - intros [= <-]. exists x. assert (l = []) as ->.
    { destruct l as [|y l]; [done|]. rewrite fmap_cons, top_row_cons in E.
      destruct (top_row _); [case_in E|]; done. }
    split; [done|]. split; [left|]. intros m' ->%list_elem_of_singleton. lia.
Qed.

Lemma top_row_None l : top_row l = None -> l = [].
Proof. destruct l as [|y l]; simpl; [done|]. destruct (top_row l); [case_goal|]; done. Qed.

Lemma chronological_last l m m' :
  chronological l -> last l = Some m -> m' ∈ l -> m' = m \/ kept_at m' < kept_at m.
Proof.
  intros Hl. induction Hl as [|x l Hl IH Hx]; [done|].
  destruct l as [|y l].
  - intros [= <-] ->%list_elem_of_singleton. by left.
  - intros Hlast [->|Hm']%elem_of_cons; [|by apply IH].
    right. rewrite Forall_forall in Hx. apply Hx. by apply last_Some_elem_of.
Qed.

Lemma top_row_last rows l :
  rows ≡ₚ row_of <$> l -> chronological l -> top_row rows = row_of <$> last l.
Proof.
  intros Hp Hl. apply Permutation_map_inv in Hp as (l' & -> & Hp).
  change (map row_of l') with (row_of <$> l').
  destruct (top_row (row_of <$> l')) as [r|] eqn:E.
  - apply top_row_max in E as (m & -> & Hm & Hmax). rewrite <-Hp in Hm.
    destruct (last l) as [m'|] eqn:El.
    + destruct (chronological_last l m' m Hl El Hm) as [->|Hlt]; [done|].
      apply last_Some_elem_of in El. rewrite Hp in El. specialize (Hmax _ El). lia.
    + apply last_None in El as ->. inversion Hm.
  - apply top_row_None, fmap_nil_inv in E as ->. symmetry in Hp. by apply Permutation_nil in Hp as ->.
Qed.

(** Dropping up to an index of a chronological list selects by timestamp. *)
Lemma drop_chronological l i m :
  chronological l -> l !! i = Some m ->
  drop (S i) l = filter (fun x => After (kept_at x) (kept_at m) = true) l.
Proof.
  intros Hl. revert i. induction Hl as [|x l Hl IH Hx]; intros i Hi; [done|].
  rewrite Forall_forall in Hx. destruct i as [|i]; simpl in Hi.
  - injection Hi as ->. rewrite filter_cons_False by (intros Hlt%Z.ltb_lt; lia).
    simpl. rewrite drop_0. symmetry. apply list_filter_all.
    apply Forall_forall. intros y Hy. apply Z.ltb_lt. by apply Hx.
  - rewrite filter_cons_False; [by apply IH|]. apply list_elem_of_lookup_2, Hx in Hi.
    intros Hlt%Z.ltb_lt. lia.
Qed.

Lemma drop_after_chronological l t at_ :
  chronological l -> (forall m, m ∈ l -> After m.(Message_Timestamp) t = After (kept_at m) at_) ->
  drop (default (length l) (index_first (fun m => After m.(Message_Timestamp) t) l)) l
  = filter (fun x => After (kept_at x) at_ = true) l.
Proof.
  intros Hl. induction Hl as [|x l Hl IH Hx]; [done|]. intros Hat. cbn [index_first].
  rewrite (Hat x) by left. destruct (After (kept_at x) at_) eqn:E.
  - rewrite filter_cons_True by done. simpl. f_equal. symmetry. apply list_filter_all.
    rewrite Forall_forall in Hx |- *. intros y Hy. specialize (Hx y Hy).
    unfold After in *. apply Z.ltb_lt in E. apply Z.ltb_lt. lia.
  - rewrite filter_cons_False by congruence.
    rewrite <-IH by (intros m Hm; apply Hat; by right). by destruct (index_first _ l).
Qed.

(** counting the rows of messages is counting messages *)
Lemma count_rows (P : message_row -> bool) (Q : Message -> Prop) `{forall m, Decision (Q m)} l :
  (forall m, P (row_of m) = true <-> Q m) ->
  length (filter (fun r => P r = true) (row_of <$> l)) = length (filter Q l).
Proof.
  intros HPQ. induction l as [|x l IH]; [done|]. rewrite fmap_cons, !filter_cons.
  destruct (decide (P (row_of x) = true)) as [HP|HP]; destruct (decide (Q x)) as [HQ|HQ];
    cbn [length]; [by rewrite IH| | |done]; exfalso; [by apply HQ, HPQ|by apply HP, HPQ].
Qed.

(** the rows after a cursor are the messages after it *)
Lemma unread_rows l u st :
  chronological l -> cursor_ok l st ->
  length (filter (fun r => unread_row u (Some st) r = true) (row_of <$> l))
  = length (filter (not_from u) (drop (unread_start l (Some st)) l)).
Proof.
  intros Hl Hcur.
  assert (Hdrop : drop (unread_start l (Some st)) l =
    filter (fun x => After (kept_at x) (stored st.(ReadState_ReadAt)) = true) l).
  { cbn [unread_start]. destruct Hcur as [[Hid Hat]|(Hid & i & m & Hi & Hix & Hat)].
    - rewrite bool_decide_true by done. by apply drop_after_chronological.
    - rewrite bool_decide_false by done. rewrite Hix, Hat. by apply drop_chronological. }
  rewrite Hdrop, list_filter_filter. apply count_rows. intros x.
  unfold unread_row, not_from. cbn. rewrite column_order, andb_true_iff, negb_true_iff, bool_decide_eq_false. done.
Qed.

Lemma unread_rows_all l u :
  length (filter (fun r => unread_row u None r = true) (row_of <$> l)) = length (filter (not_from u) l).
Proof.
  apply count_rows. intros x. unfold unread_row, not_from. cbn. rewrite andb_true_r, negb_true_iff, bool_decide_eq_false. done.
Qed.

(** a cursor that was read back stands for the same column *)
Lemma scan_same_cursor c u st :
  st.(ReadState_ConversationID) = c -> st.(ReadState_UserID) = u ->
  same_cursor (scan_read (c, u) (read_row_of st)) st.
Proof.
  intros <- <-. repeat split. destruct st. unfold read_row_of, scan_read; cbn.
  f_equal. apply write_stored.
Qed.

Lemma unread_row_read u c st r :
  unread_row u (Some (scan_read (c, u) (read_row_of st))) r = unread_row u (Some st) r.
Proof. unfold unread_row, scan_read, read_row_of; cbn. f_equal. f_equal. apply write_stored. Qed.

Lemma agree_get fault c u s t :
  agree c u s t ->
  match fault QueryRead with
  | Some err => run (sql_GetConversationRead fault c u) t = (Err err, t)
  | None => exists row, run (sql_GetConversationRead fault c u) t = (Ok row, t)
      /\ option_Forall2 same_cursor row (lookup2 s.(readStates) c u)
  end.
Proof.
  intros Hag. unfold sql_GetConversationRead, sql_query. destruct (fault QueryRead) as [err|]; [done|].
  cbn. eexists; split; [done|]. rewrite (ag_read _ _ _ _ Hag).
  pose proof (ag_own _ _ _ _ Hag) as Hown.
  destruct (lookup2 s.(readStates) c u) as [st|]; constructor.
  destruct (Hown st eq_refl). by apply scan_same_cursor.
Qed.

Lemma agree_count fault c u s t :
  agree c u s t ->
  run (sql_CountUnreadMessages fault c u) t
  = (match fault QueryRead, fault QueryCount with
     | Some err, _ | None, Some err => Err err
     | None, None => CountUnreadMessages c u s
     end, t).
Proof.
  intros [Hrows Hread _ Htime Hcur].
  unfold sql_CountUnreadMessages, sql_GetConversationRead, sql_query, CountUnreadMessages.
  destruct (fault QueryRead) as [err|]; [done|]. cbn. destruct (fault QueryCount) as [err|]; [done|].
  cbn. do 3 f_equal. rewrite Hread, Hrows.
  destruct (lookup2 s.(readStates) c u) as [st|]; cbn [fmap option_fmap option_map].
  - rewrite <-unread_rows by auto. f_equal. apply list_filter_iff. intros r.
    by rewrite unread_row_read.
  - cbn [unread_start]. rewrite drop_0. apply unread_rows_all.
Qed.

(** the statement that writes the cursor *)
Lemma agree_upsert c u now s t :
  (forall m, m ∈ conv_messages s c -> m.(Message_ID) <> "") ->
  NoDup (Message_ID <$> conv_messages s c) ->
  agree c u s t ->
  let '(last, at_) := match top_row (rows_of t c) with
                      | None => ("", now)
                      | Some r => (r.(row_id), read_time r.(row_timestamp))
                      end in
  agree c u (MarkConversationRead c u now s).2 (upsert_read c u last at_ t)
  /\ exists st, (MarkConversationRead c u now s).1 = Ok st /\ same_cursor (mkReadState c u last at_) st.
Proof.
  intros Hids Hnd [Hrows Hread Hown Htime Hcur].
  pose proof (top_row_last _ _ Hrows Htime) as Htop. rewrite Htop. unfold MarkConversationRead.
  destruct (last (conv_messages s c)) as [m|] eqn:El;
    cbn [fmap option_fmap option_map fst snd row_of row_id row_timestamp].
  - split; [split; [done| | |done|]|].
    + cbn. rewrite lookup_insert_eq, lookup2_insert2, decide_True by done. cbn.
      f_equal. unfold read_row_of. cbn. f_equal. apply write_stored.
    + intros st. cbn. rewrite lookup2_insert2, decide_True by done. by intros [= <-].
    + intros st. cbn. rewrite lookup2_insert2, decide_True by done. intros [= <-]. right.
      split; [apply Hids; by apply last_Some_elem_of|].
      rewrite last_lookup in El. eexists _, m. split; [exact El|]. split; [|done].
      by apply index_first_lookup.
    + eexists. split; [done|]. repeat split. unfold read_row_of; cbn. f_equal. apply write_stored.
  - split; [split; [done| | |done|]|eexists; split; [done|repeat split]].
    + cbn. rewrite lookup_insert_eq, lookup2_insert2, decide_True by done. done.
    + intros st. cbn. rewrite lookup2_insert2, decide_True by done. by intros [= <-].
    + intros st. cbn. rewrite lookup2_insert2, decide_True by done. intros [= <-]. left.
      split; [done|]. apply last_None in El. intros m Hm.
      change (m ∈ conv_messages s c) in Hm. rewrite El in Hm. inversion Hm.
Qed.

Lemma agree_mark fault lost c u now s t :
  (forall m, m ∈ conv_messages s c -> m.(Message_ID) <> "") ->
  NoDup (Message_ID <$> conv_messages s c) ->
  agree c u s t ->
  let s' := (MarkConversationRead c u now s).2 in
  match run (sql_MarkConversationRead fault lost c u now) t with
  | (Ok st, t') => agree c u s' t' /\ fault QueryLast = None /\ fault ExecRead = None
      /\ exists st', (MarkConversationRead c u now s).1 = Ok st' /\ same_cursor st st'
  | (Err err, t') => (fault QueryLast = Some err /\ t' = t)
      \/ (fault QueryLast = None /\ fault ExecRead = Some err
          /\ if lost then agree c u s' t' else t' = t)
  end.
Proof.
  intros Hids Hnd Hag. pose proof (agree_upsert c u now s t Hids Hnd Hag) as Hup.
  unfold sql_MarkConversationRead, sql_query. cbv zeta.
  destruct (fault QueryLast) as [err|] eqn:Eq; [by left|]. cbn.
  destruct (match top_row (rows_of t c) with Some r => _ | None => _ end) as [last at_].
  destruct Hup as [Hup Hst]. destruct (fault ExecRead) as [err|] eqn:Ee.
  - destruct lost; cbn; right; auto.
  - cbn. auto.
Qed.
End sql.
