(* ===== verification/Vault.v ===== *)
(** * Terminal vaults (store/terminal_vault.go)

    A user's terminal vault is an opaque payload with a revision, updated by
    compare-and-swap: a write names the revision it was based on.  [VaultStore] is
    the contract, a map of compare-and-swap registers; the in-memory store and the
    SQLite store implement it.  The PostgreSQL store runs separate statements: on
    its own it meets the contract, but a deletion between two of them breaks it. *)
From S2P Require Import Prelude GoLib Types MemoryState Prog.
From stdpp Require Import gmap strings list.
From Stdlib Require Import ZArith.

Local Open Scope Z_scope.
Local Open Scope go_scope.

(** Go's [(vault, err)] pair, of which a conflict uses both. *)
Definition vault_result : Type := option TerminalVault * option string.

(** ** The contract *)
Module Spec.
Notation registers := (gmap string TerminalVault).

Definition revision (regs : registers) (userID : string) : Z :=
  from_option TerminalVault_Revision 0 (regs !! userID).

Definition put (userID payload : string) (expectedRevision : Z) (now : time)
    (regs : registers) : vault_result * registers :=
  if Z.eqb (revision regs userID) expectedRevision then
    let vault := mkTerminalVault userID payload (wrap64 (expectedRevision + 1)) now in
    ((Some vault, None), <[userID := vault]> regs)
  else ((regs !! userID, Some ErrTerminalVaultConflict), regs).
End Spec.

(** What a vault implementation promises its clients. *)
Class VaultStore (S : Type) := {
  vault_get : string -> S -> vault_result;
  vault_put : string -> string -> Z -> time -> S -> vault_result * S;
  vault_delete : string -> S -> option string * S;
  vault_abs : S -> Spec.registers;
  vault_ok : S -> Prop;
  vault_get_spec : forall u s, vault_ok s -> vault_get u s = (vault_abs s !! u, None);
  vault_put_spec : forall u p e now s, vault_ok s ->
    (vault_put u p e now s).1 = (Spec.put u p e now (vault_abs s)).1
    /\ vault_abs (vault_put u p e now s).2 = (Spec.put u p e now (vault_abs s)).2
    /\ vault_ok (vault_put u p e now s).2;
  vault_delete_spec : forall u s, vault_ok s ->
    (vault_delete u s).1 = None
    /\ vault_abs (vault_delete u s).2 = delete u (vault_abs s)
    /\ vault_ok (vault_delete u s).2 }.

(** ** In memory *)
Module Memory.
Definition GetTerminalVault (userID : string) (s : MemoryStore) : vault_result :=
  (s.(terminalVaults) !! userID, None).

Definition PutTerminalVault (userID payload : string) (expectedRevision : Z) (now : time)
    (s : MemoryStore) : vault_result * MemoryStore :=
  let current := s.(terminalVaults) !! userID in
  let currentRevision := match current with
                         | Some vault => vault.(TerminalVault_Revision)
                         | None => 0
                         end in
  if negb (Z.eqb currentRevision expectedRevision)
  then ((current, Some ErrTerminalVaultConflict), s)
  else
    let vault := mkTerminalVault userID payload (wrap64 (currentRevision + 1)) now in
    ((Some vault, None), s <| terminalVaults ::= <[userID := vault]> |>).

Definition DeleteTerminalVault (userID : string) (s : MemoryStore)
  : option string * MemoryStore :=
  (None, s <| terminalVaults ::= delete userID |>).

#[global] Instance vault_store : VaultStore MemoryStore.
Proof.
  refine {| vault_get := GetTerminalVault; vault_put := PutTerminalVault;
            vault_delete := DeleteTerminalVault; vault_abs := terminalVaults;
            vault_ok _ := True |}; [done| |done].
  intros u p e now s _. unfold PutTerminalVault, Spec.put, Spec.revision.
  destruct (s.(terminalVaults) !! u) as [v|]; cbn [from_option];
    (case_Z; subst; simpl; done).
Defined.
End Memory.

(** ** SQL tables

    The [terminal_vaults] table: its rows by primary key. *)
Record vault_row := mkVaultRow { row_payload : string; row_revision : Z; row_updated_at : time }.
Notation vault_table := (gmap string vault_row).

Definition row_vault (userID : string) (r : vault_row) : TerminalVault :=
  mkTerminalVault userID r.(row_payload) r.(row_revision) r.(row_updated_at).

(** the vaults a table denotes *)
Definition table_vaults (t : vault_table) : Spec.registers := map_imap (fun u r => Some (row_vault u r)) t.

Lemma lookup_table_vaults t u : table_vaults t !! u = row_vault u <$> t !! u.
Proof. unfold table_vaults. rewrite map_lookup_imap. by destruct (t !! u). Qed.

Lemma table_vaults_insert t u r :
  table_vaults (<[u := r]> t) = <[u := row_vault u r]> (table_vaults t).
Proof.
  apply map_eq. intros v. rewrite lookup_table_vaults. destruct (decide (u = v)) as [->|].
  - by rewrite !lookup_insert_eq.
  - by rewrite !lookup_insert_ne, lookup_table_vaults.
Qed.

Lemma table_vaults_delete t u : table_vaults (delete u t) = delete u (table_vaults t).
Proof.
  apply map_eq. intros v. rewrite lookup_table_vaults. destruct (decide (u = v)) as [->|].
  - by rewrite !lookup_delete_eq.
  - by rewrite !lookup_delete_ne, lookup_table_vaults.
Qed.

Lemma revision_table t u :
  Spec.revision (table_vaults t) u = from_option row_revision 0 (t !! u).
Proof. unfold Spec.revision. rewrite lookup_table_vaults. by destruct (t !! u). Qed.

(** ** SQLite *)
Module Sqlite.
(** The statements of a transaction, each of which the driver may fail. *)
Inductive stmt := Begin | SelectRevision | SelectCurrent | Upsert | Commit | SelectRow | DeleteRow.
Definition faults := stmt -> option string.

Definition GetTerminalVault (fault : faults) (userID : string) (t : vault_table) : vault_result :=
  match fault SelectRow with
  | Some err => (Some (mkTerminalVault userID "" 0 zero_time), Some err)
  | None => match t !! userID with
            | None => (None, None)
            | Some r => (Some (row_vault userID r), None)
            end
  end.

(** the whole body runs in one transaction; an early return rolls it back *)
Definition PutTerminalVault (fault : faults) (userID payload : string) (expectedRevision : Z)
    (now : time) (t : vault_table) : vault_result * vault_table :=
  match fault Begin with
  | Some err => ((None, Some err), t)
  | None =>
    match fault SelectRevision with
    | Some err => ((None, Some err), t)
    | None =>
      let revision := match t !! userID with Some r => r.(row_revision) | None => 0 end in
      if negb (Z.eqb revision expectedRevision) then
        match fault SelectCurrent with
        | Some err => ((None, Some err), t)
        | None => ((row_vault userID <$> t !! userID, Some ErrTerminalVaultConflict), t)
        end
      else
        let vault := mkTerminalVault userID payload (wrap64 (revision + 1)) now in
        match fault Upsert with
        | Some err => ((None, Some err), t)
        | None =>
          let t' := <[userID := mkVaultRow payload vault.(TerminalVault_Revision)
                                  vault.(TerminalVault_UpdatedAt)]> t in
          match fault Commit with
          | Some err => ((None, Some err), t)
          | None => ((Some vault, None), t')
          end
        end
    end
  end.

Definition DeleteTerminalVault (fault : faults) (userID : string) (t : vault_table)
  : option string * vault_table :=
  match fault DeleteRow with
  | Some err => (Some err, t)
  | None => (None, delete userID t)
  end.

Definition no_faults : faults := fun _ => None.

Lemma PutTerminalVault_spec u p e now t :
  (PutTerminalVault no_faults u p e now t).1 = (Spec.put u p e now (table_vaults t)).1
  /\ table_vaults (PutTerminalVault no_faults u p e now t).2
     = (Spec.put u p e now (table_vaults t)).2.
Proof.
  unfold PutTerminalVault, Spec.put. rewrite revision_table. cbn [no_faults].
  destruct (t !! u) as [r|] eqn:E; cbn [from_option]; (case_Z; subst; simpl).
  1,3: by rewrite table_vaults_insert.
  all: by rewrite lookup_table_vaults, E.
Qed.

#[global] Instance vault_store : VaultStore vault_table.
Proof.
  refine {| vault_get := GetTerminalVault no_faults; vault_put := PutTerminalVault no_faults;
            vault_delete := DeleteTerminalVault no_faults; vault_abs := table_vaults;
            vault_ok _ := True |}.
  - intros u t _. unfold GetTerminalVault. simpl. rewrite lookup_table_vaults.
    by destruct (t !! u).
  - intros u p e now t _. destruct (PutTerminalVault_spec u p e now t). done.
  - intros u t _. simpl. by rewrite table_vaults_delete.
Defined.
End Sqlite.

(** ** PostgreSQL *)
Module Postgres.
(** each statement is atomic; [None] is [sql.ErrNoRows] *)
Definition select_vault (userID : string) (t : vault_table) : option TerminalVault :=
  row_vault userID <$> t !! userID.

Definition GetTerminalVault (userID : string) : prog vault_table vault_result :=
  vault <- reads (select_vault userID);;
  Ret (vault, None).

(** INSERT ... ON CONFLICT DO UPDATE ... WHERE revision = expected RETURNING ... *)
Definition upsert_if (userID payload : string) (newRevision : Z) (now : time)
    (expectedRevision : Z) (t : vault_table) : option (Z * time) * vault_table :=
  let row := mkVaultRow payload newRevision now in
  match t !! userID with
  | None => (Some (newRevision, now), <[userID := row]> t)
  | Some r => if Z.eqb r.(row_revision) expectedRevision
              then (Some (newRevision, now), <[userID := row]> t)
              else (None, t)
  end.

Definition PutTerminalVault (userID payload : string) (expectedRevision : Z) (now : time)
  : prog vault_table vault_result :=
  let write : prog vault_table vault_result :=
    returned <- atomic (upsert_if userID payload (wrap64 (expectedRevision + 1)) now
                          expectedRevision);;
    match returned with
    | None =>
        '(current, getErr) <- GetTerminalVault userID;;
        match getErr with
        | Some err => Ret (None, Some err)
        | None => Ret (current, Some ErrTerminalVaultConflict)
        end
    | Some (revision, updatedAt) =>
        Ret (Some (mkTerminalVault userID payload revision updatedAt), None)
    end in
  if negb (Z.eqb expectedRevision 0) then
    '(current, err) <- GetTerminalVault userID;;
    match err with
    | Some err => Ret (None, Some err)
    | None =>
        match current with
        | None => Ret (None, Some ErrTerminalVaultConflict)
        | Some vault =>
            if negb (Z.eqb vault.(TerminalVault_Revision) expectedRevision)
            then Ret (Some vault, Some ErrTerminalVaultConflict)
            else write
        end
    end
  else write.

Definition DeleteTerminalVault (userID : string) : prog vault_table vault_result :=
  writes (delete userID);; Ret (None, None).
End Postgres.

(** A stored vault has been written at least once. *)
Definition vaults_positive (t : vault_table) : Prop :=
  forall u r, t !! u = Some r -> 1 <= r.(row_revision).
