(* ===== verification/VaultProps.v ===== *)
(** * Terminal vaults: stale writes, atomic writes, and the PostgreSQL race *)
From S2P Require Import Prelude GoLib Types MemoryState Prog Vault.
From stdpp Require Import gmap strings list.
From Stdlib Require Import ZArith.

Local Open Scope Z_scope.
Local Open Scope go_scope.

(** ** Clients of the contract *)
Section client.
Context {S : Type} `{VaultStore S}.

(** what devices ask for: user, payload, expected revision, time; or a deletion *)
Inductive vault_request :=
| PutVault (u p : string) (expected : Z) (now : time)
| DeleteVault (u : string).

Definition serve_vault (req : vault_request) (s : S) : vault_result * S :=
  match req with
  | PutVault u p e now => vault_put u p e now s
  | DeleteVault u => let '(err, s) := vault_delete u s in ((None, err), s)
  end.

(** serves the requests in order; the results say which were accepted *)
Fixpoint serve_vaults (reqs : list vault_request) (s : S) : list vault_result * S :=
  match reqs with
  | [] => ([], s)
  | req :: reqs =>
      let '(r, s) := serve_vault req s in
      let '(rs, s) := serve_vaults reqs s in (r :: rs, s)
  end.

(** whether the vault of [u] was deleted, and how many writes to it were accepted since
    its last deletion, or since the start *)
Definition vault_event (u : string) (req : vault_request) (r : vault_result) (acc : bool * nat)
  : bool * nat :=
  match req with
  | PutVault u' _ _ _ => if decide (u' = u /\ r.2 = None) then (acc.1, (1 + acc.2)%nat) else acc
  | DeleteVault u' => if decide (u' = u) then (true, 0%nat) else acc
  end.
Fixpoint vault_history (u : string) (reqs : list vault_request) (rs : list vault_result)
    (acc : bool * nat) : bool * nat :=
  match reqs, rs with
  | req :: reqs, r :: rs => vault_history u reqs rs (vault_event u req r acc)
  | _, _ => acc
  end.

Definition abs_revision (s : S) (u : string) : Z := Spec.revision (vault_abs s) u.

(** the revision that a history leaves, from a first revision [r] *)
Definition revision_after (r : Z) (h : bool * nat) : Z :=
  (if h.1 then 0 else r) + Z.of_nat h.2.

Lemma put_revision u u' p e now s :
  vault_ok s -> -1 <= abs_revision s u' < maxInt64 ->
  abs_revision (vault_put u' p e now s).2 u =
  abs_revision s u + (if decide (u' = u /\ (vault_put u' p e now s).1.2 = None) then 1 else 0).
Proof.
  intros Hok Hb. destruct (vault_put_spec u' p e now s Hok) as (H1 & H2 & _).
  unfold abs_revision in *. rewrite H1, H2. unfold Spec.put.
  destruct (Z.eqb_spec (Spec.revision (vault_abs s) u') e) as [<-|Hne]; simpl.
  - unfold Spec.revision at 1. destruct (decide (u' = u)) as [->|Hu].
    + rewrite lookup_insert_eq, decide_True by done. simpl.
      apply wrap64_id. unfold maxInt64 in *. lia.
    + rewrite lookup_insert_ne, decide_False by naive_solver.
      unfold Spec.revision. lia.
  - rewrite decide_False by naive_solver. lia.
Qed.

Lemma delete_revision u u' s :
  vault_ok s ->
  abs_revision (vault_delete u' s).2 u = if decide (u' = u) then 0 else abs_revision s u.
Proof.
  intros Hok. destruct (vault_delete_spec u' s Hok) as (_ & H2 & _).
  unfold abs_revision, Spec.revision. rewrite H2. case_decide as Hu.
  - subst. by rewrite lookup_delete_eq.
  - by rewrite lookup_delete_ne.
Qed.

(** one request moves a revision by one, sets it to zero, or leaves it *)
Lemma serve_revision u req s r acc :
  vault_ok s -> (forall u', 0 <= abs_revision s u' < maxInt64) ->
  abs_revision s u = revision_after r acc ->
  let '(v, s') := serve_vault req s in
  vault_ok s' /\ abs_revision s' u = revision_after r (vault_event u req v acc)
  /\ forall u', 0 <= abs_revision s' u' <= abs_revision s u' + 1.
Proof.
  intros Hok Hb Hr. destruct req as [u' p e now|u']; cbn [serve_vault vault_event].
  - pose proof (fun w => put_revision w u' p e now s Hok ltac:(specialize (Hb u'); lia)) as Hput.
    destruct (vault_put_spec u' p e now s Hok) as (_ & _ & Hok').
    destruct (vault_put u' p e now s) as [v s']; cbn [fst snd] in *.
    split; [done|]. split.
    + rewrite Hput, Hr. unfold revision_after. case_decide; destruct acc as [[] n]; cbn [fst snd]; lia.
    + intros w. rewrite Hput. specialize (Hb w). case_decide; lia.
  - pose proof (fun w => delete_revision w u' s Hok) as Hdel.
    destruct (vault_delete_spec u' s Hok) as (_ & _ & Hok').
    destruct (vault_delete u' s) as [err s']; cbn [fst snd] in *.
    split; [done|]. split.
    + rewrite Hdel, Hr. by case_decide.
    + intros w. rewrite Hdel. specialize (Hb w). case_decide; lia.
Qed.

Lemma history_revision reqs s u r acc :
  vault_ok s -> (forall u', 0 <= abs_revision s u' <= maxInt64 - Z.of_nat (length reqs)) ->
  abs_revision s u = revision_after r acc ->
  let '(rs, s') := serve_vaults reqs s in
  vault_ok s' /\ abs_revision s' u = revision_after r (vault_history u reqs rs acc).
Proof.
  revert s acc. induction reqs as [|req reqs IH]; intros s acc Hok Hb Hr; cbn [serve_vaults]; [done|].
  cbn [length] in Hb.
  pose proof (serve_revision u req s r acc Hok ltac:(intros w; specialize (Hb w); lia) Hr) as Hs.
  destruct (serve_vault req s) as [v s']. destruct Hs as (Hok' & Hr' & Hb').
  specialize (IH s' _ Hok' ltac:(intros w; specialize (Hb w); specialize (Hb' w); lia) Hr').
  by destruct (serve_vaults reqs s').
Qed.
End client.

(** C12: on every implementation of the vault contract, whatever other devices have
    written and deleted since a device read revision r of its vault, a write based on
    r is answered as follows.  When the vault was not deleted in between, it is
    accepted exactly if no other write was: a write based on an outdated read is
    refused with the current vault and changes nothing.  A deletion restarts the count,
    so that afterwards the write is accepted exactly if r writes were accepted since
    the last deletion.  An accepted write stores its payload at revision r + 1.  The
    bound is the int64 range of revisions. *)
Theorem vault_no_lost_update {S} `{VaultStore S} (s : S) (u payload : string) (now : time)
    (others : list vault_request) :
  vault_ok s -> (forall u', 0 <= abs_revision s u' <= maxInt64 - Z.of_nat (length others)) ->
  let r := abs_revision s u in
  let '(rs, s1) := serve_vaults others s in
  let '(deleted, writes) := vault_history u others rs (false, 0%nat) in
  let '(answer, s2) := vault_put u payload r now s1 in
  let vault := mkTerminalVault u payload (wrap64 (r + 1)) now in
  if Z.eqb (Z.of_nat writes) (if deleted : bool then r else 0)
  then answer = (Some vault, None) /\ vault_abs s2 = <[u := vault]> (vault_abs s1)
  else answer = (vault_abs s1 !! u, Some ErrTerminalVaultConflict) /\ vault_abs s2 = vault_abs s1.
Proof.
  intros Hok Hb r.
  pose proof (history_revision others s u r (false, 0%nat) Hok Hb) as Hh.
  destruct (serve_vaults others s) as [rs s1].
  destruct Hh as [Hok1 Hr]; [unfold revision_after; cbn; lia|].
  destruct (vault_history u others rs (false, 0%nat)) as [deleted writes].
  destruct (vault_put_spec u payload r now s1 Hok1) as (H1 & H2 & _).
  destruct (vault_put u payload r now s1) as [answer s2]. cbn [fst snd] in *. subst answer.
  unfold Spec.put in *. unfold abs_revision at 1, revision_after in Hr. cbn [fst snd] in Hr.
  assert (Heq : Z.eqb (Spec.revision (vault_abs s1) u) r
                = Z.eqb (Z.of_nat writes) (if deleted then r else 0)).
  { rewrite Hr. apply eq_true_iff_eq. rewrite !Z.eqb_eq. destruct deleted; lia. }
  rewrite <-Heq. by destruct (Z.eqb _ r).
Qed.

Definition demo_vault : vault_table := {["alice" := mkVaultRow "a" 1 5]}.

Lemma vault_no_lost_update_witness :
  let s1 := (serve_vaults [PutVault "alice" "first" 1 5] demo_vault).2 in
  Sqlite.PutTerminalVault Sqlite.no_faults "alice" "second" 1 6 s1
  = ((Some (mkTerminalVault "alice" "first" 2 5), Some ErrTerminalVaultConflict), s1)
  /\ (vault_put "alice" "second" 1 6 s1).1
     = (vault_abs s1 !! "alice", Some ErrTerminalVaultConflict).
Proof.
  split; [vm_compute; reflexivity|].
  refine (proj1 (vault_no_lost_update (H := Sqlite.vault_store) demo_vault "alice" "second" 6
           [PutVault "alice" "first" 1 5] I _)).
  intros u'. unfold abs_revision, Spec.revision, demo_vault. cbn [vault_abs Sqlite.vault_store].
  rewrite lookup_table_vaults. destruct (decide (u' = "alice")) as [->|Hne].
  - rewrite lookup_singleton_eq. cbn. unfold maxInt64. lia.
  - rewrite lookup_singleton_ne by done. cbn. unfold maxInt64. lia.
Defined.

(** revisions count the accepted writes: after any requests of any users, the revision of
    a vault is the number of writes accepted since its last deletion, added to the
    revision it had at the start when there was none. *)
Theorem vault_revision_counts {S} `{VaultStore S} (s : S) (reqs : list vault_request) u :
  vault_ok s -> (forall u', 0 <= abs_revision s u' <= maxInt64 - Z.of_nat (length reqs)) ->
  let '(rs, s') := serve_vaults reqs s in
  let '(deleted, writes) := vault_history u reqs rs (false, 0%nat) in
  abs_revision s' u = (if deleted : bool then 0 else abs_revision s u) + Z.of_nat writes.
Proof.
  intros Hok Hb.
  pose proof (history_revision reqs s u (abs_revision s u) (false, 0%nat) Hok Hb) as Hh.
  destruct (serve_vaults reqs s) as [rs s'].
  destruct Hh as [_ Hr]; [unfold revision_after; cbn; lia|].
  by destruct (vault_history u reqs rs (false, 0%nat)).
Qed.

(** A device that read revision 1 before the vault was deleted and written anew overwrites
    the new vault, which it never saw. *)
Theorem stale_write_after_delete {S} `{VaultStore S} (s : S) u old mine new t1 t2 t3 :
  vault_ok s -> vault_abs s !! u = Some (mkTerminalVault u old 1 t1) ->
  let '(rs, s1) := serve_vaults [DeleteVault u; PutVault u new 0 t2] s in
  vault_abs s1 !! u = Some (mkTerminalVault u new 1 t2)
  /\ (vault_put u mine 1 t3 s1).1 = (Some (mkTerminalVault u mine 2 t3), None).
Proof.
  intros Hok Hu. cbn [serve_vaults serve_vault].
  destruct (vault_delete_spec u s Hok) as (_ & Hd & Hok1).
  destruct (vault_delete u s) as [e0 s1]. cbn [fst snd] in *.
  destruct (vault_put_spec u new 0 t2 s1 Hok1) as (_ & Hp & Hok2).
  destruct (vault_put u new 0 t2 s1) as [v s2]. cbn [fst snd] in *.
  assert (Hs2 : vault_abs s2 !! u = Some (mkTerminalVault u new 1 t2)).
  { rewrite Hp, Hd. unfold Spec.put, Spec.revision. rewrite lookup_delete_eq. cbn [from_option Z.eqb snd].
    by rewrite lookup_insert_eq. }
  split; [done|]. destruct (vault_put_spec u mine 1 t3 s2 Hok2) as (-> & _).
  unfold Spec.put, Spec.revision. by rewrite Hs2.
Qed.

Lemma stale_write_after_delete_witness :
  let s1 := (serve_vaults [DeleteVault "alice"; PutVault "alice" "new" 0 6] demo_vault).2 in
  (vault_put "alice" "mine" 1 7 s1).1 = (Some (mkTerminalVault "alice" "mine" 2 7), None).
Proof.
  refine (proj2 (stale_write_after_delete (H := Sqlite.vault_store) demo_vault "alice" "a" "mine" "new"
    5 6 7 I _)).
  reflexivity.
Defined.

(** ** SQLite faults *)

(** the SQLite write is all or nothing under any failure of its statements: an
    error, whichever statement raised it and including a refused revision, leaves
    the table untouched; success stores exactly the returned vault, at the next
    revision of the one expected. *)
Theorem sqlite_put_all_or_nothing (fault : Sqlite.faults) u p e now (t : vault_table) v err t' :
  Sqlite.PutTerminalVault fault u p e now t = ((v, err), t') ->
  (err <> None -> t' = t)
  /\ (err = None -> Spec.revision (table_vaults t) u = e
        /\ v = Some (mkTerminalVault u p (wrap64 (e + 1)) now)
        /\ table_vaults t' = <[u := mkTerminalVault u p (wrap64 (e + 1)) now]> (table_vaults t)).
Proof.
  unfold Sqlite.PutTerminalVault. rewrite revision_table.
  destruct (fault Sqlite.Begin); [by intros [= <- <- <-]|].
  destruct (fault Sqlite.SelectRevision); [by intros [= <- <- <-]|].
  destruct (t !! u) as [r|] eqn:E; cbn [from_option];
    (case_Z; cbn [negb]; [|by case_goal; intros [= <- <- <-]]);
    (destruct (fault Sqlite.Upsert); [by intros [= <- <- <-]|]);
    (destruct (fault Sqlite.Commit); intros [= <- <- <-]; [done|]);
    subst; by rewrite table_vaults_insert.
Qed.

Lemma sqlite_put_all_or_nothing_witness :
  (Sqlite.PutTerminalVault (fun st => match st with Sqlite.Commit => Some "disk full" | _ => None end)
     "alice" "p" 0 5 ∅).2 = ∅.
Proof.
  refine (proj1 (sqlite_put_all_or_nothing
    (fun st => match st with Sqlite.Commit => Some "disk full" | _ => None end)
    "alice" "p" 0 5 ∅ None (Some "disk full") _ _) _); [reflexivity|discriminate].
Defined.

(** ** PostgreSQL *)

(** running alone, the PostgreSQL write meets the contract although it consists
    of separate statements: it returns what the contract returns and leaves the
    table the contract leaves. *)
Theorem postgres_put_sequential_refines u p e now (t : vault_table) :
  vaults_positive t ->
  let '(r, t') := run (Postgres.PutTerminalVault u p e now) t in
  r = (Spec.put u p e now (table_vaults t)).1
  /\ table_vaults t' = (Spec.put u p e now (table_vaults t)).2.
Proof.
  intros Hpos. unfold Spec.put. rewrite revision_table.
  unfold Postgres.PutTerminalVault, Postgres.GetTerminalVault, Postgres.upsert_if,
    Postgres.select_vault.
  destruct (t !! u) as [r|] eqn:E; cbn [from_option].
  - pose proof (Hpos _ _ E). destruct (Z.eqb_spec e 0) as [->|He]; cbn [negb bind atomic reads run];
      rewrite ?E; cbn [fmap option_fmap option_map bind run negb row_vault TerminalVault_Revision].
    + destruct (Z.eqb_spec r.(row_revision) 0); [lia|]. cbn. rewrite E. simpl.
      by rewrite lookup_table_vaults, E.
    + destruct (Z.eqb_spec r.(row_revision) e) as [<-|]; cbn [negb bind run].
      * rewrite E. rewrite Z.eqb_refl. cbn. by rewrite table_vaults_insert.
      * by rewrite lookup_table_vaults, E.
  - destruct (Z.eqb_spec 0 e) as [<-|He]; cbn [negb bind atomic reads run Z.eqb].
    + cbn [fst snd]. rewrite E. cbn. by rewrite table_vaults_insert.
    + destruct (Z.eqb_spec e 0); [lia|]. cbn. rewrite E. simpl. by rewrite lookup_table_vaults, E.
Qed.

Lemma postgres_put_sequential_refines_witness :
  let '(r, t') := run (Postgres.PutTerminalVault "alice" "b" 1 9) {["alice" := mkVaultRow "a" 1 5]} in
  r = (Spec.put "alice" "b" 1 9 (table_vaults {["alice" := mkVaultRow "a" 1 5]})).1
  /\ table_vaults t' = (Spec.put "alice" "b" 1 9 (table_vaults {["alice" := mkVaultRow "a" 1 5]})).2.
Proof.
  apply (postgres_put_sequential_refines "alice" "b" 1 9 {["alice" := mkVaultRow "a" 1 5]}).
  intros u r [<- <-]%lookup_singleton_Some. simpl. lia.
Defined.

(** it is not atomic.  When the vault is deleted between the check of the
    revision and the write, the write succeeds and recreates the vault at the
    revision after the deleted one -- a state and an answer that neither order of
    the two requests produces, and that the comment above the check rules out. *)
Theorem postgres_put_delete_race (u p : string) (e : Z) (now : time) (t : vault_table) r :
  e <> 0 -> t !! u = Some r -> r.(row_revision) = e ->
  let put := Postgres.PutTerminalVault u p e now in
  let del := Postgres.DeleteTerminalVault u in
  let vault := mkTerminalVault u p (wrap64 (e + 1)) now in
  exists t', pool_steps (t, [put; del]) (t', [Ret (Some vault, None); Ret (None, None)])
    /\ t' !! u = Some (mkVaultRow p (wrap64 (e + 1)) now)
    /\ (run del (run put t).2).2 !! u = None
    /\ (run put (run del t).2).1 = (None, Some ErrTerminalVaultConflict).
Proof.
  intros He Hr Hrev put del vault.
  exists (<[u := mkVaultRow p (wrap64 (e + 1)) now]> (delete u t)).
  assert (Hsel : Postgres.select_vault u t = Some (row_vault u r))
    by (unfold Postgres.select_vault; by rewrite Hr).
  split; [|split; [by rewrite lookup_insert_eq|split]].
  - unfold put, Postgres.PutTerminalVault, Postgres.GetTerminalVault.
    destruct (Z.eqb_spec e 0); [done|]. cbn [negb bind reads atomic].
    eapply pool_trans; [eapply (pool_step_at _ t _ 0); [reflexivity|cbn beta; by rewrite Hsel]|].
    cbn [insert list_insert bind row_vault TerminalVault_Revision]. rewrite Hrev, Z.eqb_refl.
    cbn [negb bind]. eapply pool_trans.
    { eapply (pool_step_at _ (delete u t) _ 1); [reflexivity|done]. }
    cbn [insert list_insert]. eapply pool_trans.
    { eapply (pool_step_at _ (<[u := mkVaultRow p (wrap64 (e + 1)) now]> (delete u t)) _ 0);
        [reflexivity|]. unfold Postgres.upsert_if. by rewrite lookup_delete_eq. }
    cbn. constructor.
  - unfold del, Postgres.DeleteTerminalVault. destruct (run put t) as [x t1]. simpl.
    by rewrite lookup_delete_eq.
  - unfold put, del, Postgres.PutTerminalVault, Postgres.GetTerminalVault,
      Postgres.DeleteTerminalVault.
    destruct (Z.eqb_spec e 0); [done|]. cbn. unfold Postgres.select_vault.
    by rewrite lookup_delete_eq.
Qed.

Lemma postgres_put_delete_race_witness :
  exists t', pool_steps ({["alice" := mkVaultRow "a" 1 5]},
               [Postgres.PutTerminalVault "alice" "b" 1 9; Postgres.DeleteTerminalVault "alice"])
      (t', [Ret (Some (mkTerminalVault "alice" "b" 2 9), None); Ret (None, None)])
    /\ t' !! "alice" = Some (mkVaultRow "b" 2 9).
Proof.
  destruct (postgres_put_delete_race "alice" "b" 1 9 {["alice" := mkVaultRow "a" 1 5]}
    (mkVaultRow "a" 1 5)) as (t' & H1 & H2 & _); [lia|reflexivity|reflexivity|].
  exists t'. split; [exact H1|exact H2].
Defined.
