(* ===== verification/Gateway.v ===== *)
(** * The gateway: connections, delivery and access (gateway/gateway.go)

    [World] is the state the goroutines share: the store, the registry of
    connections, each connection's [Client] with its bounded send queue, the
    configuration, and counters for the readings of the clock and of the random
    source.  A handler is a [prog World unit]; every store call and every section
    under [Gateway.mu] or [Client.sendMu] is one atomic step.

    Groups and conversations returned by the store are snapshots, the behaviour
    of the SQL stores; a user returned by the in-memory store is the shared object
    itself. *)
From S2P Require Import Prelude GoLib Types DynamicContent Capabilities MemoryState.
From S2P Require Import MemoryAccounts MemoryMessages MemoryGroups Prog.
From stdpp Require Import gmap strings list.
From Stdlib Require Import ZArith.

Local Open Scope Z_scope.
Local Open Scope go_scope.

(** ** Protocol *)

Record Request := mkRequest {
  Request_Action : string; Request_Params : json; Request_Echo : string }.

Record Response := mkResponse {
  Response_Status : string; Response_RetCode : Z; Response_Data : json;
  Response_Msg : string; Response_Echo : string }.

Record NoticeEvent := mkNoticeEvent {
  Notice_NoticeType : string; Notice_UserID : string; Notice_GroupID : string;
  Notice_MessageID : string; Notice_OperatorID : string; Notice_TargetID : string;
  Notice_ConversationID : string; Notice_LastReadMessageID : string; Notice_ReadAt : Z;
  Notice_SubType : string; Notice_Duration : Z; Notice_Enabled : bool;
  Notice_EmojiID : string; Notice_Removed : bool; Notice_Online : option bool;
  Notice_IsPinned : option bool; Notice_IsMuted : option bool;
  Notice_NotificationLevel : string; Notice_AnnouncementID : string; Notice_Action : string;
  Notice_Reactions : list Reaction; Notice_Nickname : string; Notice_Avatar : string;
  Notice_ProfileVersion : Z }.
#[export] Instance eta_NoticeEvent : Eta NoticeEvent := fun r => mkNoticeEvent
    (r.(Notice_NoticeType)) (r.(Notice_UserID)) (r.(Notice_GroupID)) (r.(Notice_MessageID))
    (r.(Notice_OperatorID)) (r.(Notice_TargetID)) (r.(Notice_ConversationID))
    (r.(Notice_LastReadMessageID)) (r.(Notice_ReadAt)) (r.(Notice_SubType))
    (r.(Notice_Duration)) (r.(Notice_Enabled)) (r.(Notice_EmojiID)) (r.(Notice_Removed))
    (r.(Notice_Online)) (r.(Notice_IsPinned)) (r.(Notice_IsMuted))
    (r.(Notice_NotificationLevel)) (r.(Notice_AnnouncementID)) (r.(Notice_Action))
    (r.(Notice_Reactions)) (r.(Notice_Nickname)) (r.(Notice_Avatar))
    (r.(Notice_ProfileVersion)).

(** [NoticeEvent{PostType: "notice", NoticeType: ty}], the other fields zero *)
Definition notice (ty : string) : NoticeEvent :=
  mkNoticeEvent ty "" "" "" "" "" "" "" 0 "" 0 false "" false None None None "" "" "" [] "" "" 0.

Record RequestEvent := mkRequestEvent {
  RequestEvent_RequestType : string; RequestEvent_UserID : string;
  RequestEvent_GroupID : string; RequestEvent_Comment : string; RequestEvent_Flag : string }.

Record MessageEvent := mkMessageEvent {
  MessageEvent_MessageType : string; MessageEvent_MessageID : string;
  MessageEvent_ConversationID : string; MessageEvent_Sender : json;
  MessageEvent_Message : list MessageSegment; MessageEvent_Reactions : list Reaction;
  MessageEvent_Timestamp : Z; MessageEvent_TimestampMS : Z;
  MessageEvent_LocalAgent : bool; MessageEvent_FairyOwned : bool;
  MessageEvent_DynamicEventAudit : bool }.
#[export] Instance eta_MessageEvent : Eta MessageEvent := fun r => mkMessageEvent
    (r.(MessageEvent_MessageType)) (r.(MessageEvent_MessageID))
    (r.(MessageEvent_ConversationID)) (r.(MessageEvent_Sender)) (r.(MessageEvent_Message))
    (r.(MessageEvent_Reactions)) (r.(MessageEvent_Timestamp)) (r.(MessageEvent_TimestampMS))
    (r.(MessageEvent_LocalAgent)) (r.(MessageEvent_FairyOwned))
    (r.(MessageEvent_DynamicEventAudit)).

(** what is written to a socket *)
Inductive outgoing :=
| OutResponse (r : Response)
| OutNotice (n : NoticeEvent)
| OutRequest (r : RequestEvent)
| OutMessage (m : MessageEvent).

(** does json.Marshal accept it? *)
Definition encodable_event (v : outgoing) : bool :=
  match v with
  | OutResponse r => encodable r.(Response_Data)
  | OutMessage m => encodable m.(MessageEvent_Sender)
                    && forallb (fun s => encodable (JObj s.(MessageSegment_Data)))
                         m.(MessageEvent_Message)
  | OutNotice _ | OutRequest _ => true
  end.

(** ** State *)

Definition conn_id := nat.

Record Client := mkClient {
  Client_userID : string; Client_deviceID : string; Client_terminalSessionID : string;
  Client_capabilities : Capabilities; Client_send : list outgoing; Client_sendDone : bool }.
#[export] Instance eta_Client : Eta Client := fun r => mkClient
    (r.(Client_userID)) (r.(Client_deviceID)) (r.(Client_terminalSessionID))
    (r.(Client_capabilities)) (r.(Client_send)) (r.(Client_sendDone)).

(** the state of a connection that was just accepted *)
Definition new_client : Client := mkClient "" "" "" no_capabilities [] false.

(** a goroutine started with [go func() ...] that delivers push notifications *)
Inductive push_job :=
| PushToUser (userID : string) (payload : json)
| PushToConversation (convID : string) (recipients : list string) (message : Message)
    (important : bool) (payload : json).

Record World := mkWorld {
  store : MemoryStore;
  clients : gmap string (gset conn_id);
  conns : gmap conn_id Client;
  pokeLast : gmap string time;
  accessToken : string;
  inviteCode : string;
  pushEnabled : bool;
  push_jobs : list push_job;
  tick : nat;
  draws : nat }.
#[export] Instance eta_World : Eta World := fun r => mkWorld
    (r.(store)) (r.(clients)) (r.(conns)) (r.(pokeLast)) (r.(accessToken)) (r.(inviteCode))
    (r.(pushEnabled)) (r.(push_jobs)) (r.(tick)) (r.(draws)).

Definition NewGateway (database : MemoryStore) (push : bool) : World :=
  mkWorld database ∅ ∅ ∅ "" "" push [] 0%nat 0%nat.

Definition client_of (w : World) (c : conn_id) : Client := default new_client (w.(conns) !! c).
Definition on_client (c : conn_id) (f : Client -> Client) (w : World) : World :=
  w <| conns ::= alter f c |>.

Definition handler := prog World unit.

(** ** Atomic steps *)

(** a store call that only reads *)
Definition query {A} (f : MemoryStore -> A) : prog World A := reads (fun w => f w.(store)).
(** a store call *)
Definition call {A} (f : MemoryStore -> A * MemoryStore) : prog World A :=
  atomic (fun w => let '(a, s) := f w.(store) in (a, w <| store := s |>)).

Section runtime.
Context `{Runtime}.

(** time.Now *)
Definition now : prog World time :=
  atomic (fun w => (clock w.(tick), w <| tick ::= S |>)).
(** a store call that reads the clock once, or twice, while it holds the lock *)
Definition call_at {A} (f : time -> MemoryStore -> A * MemoryStore) : prog World A :=
  atomic (fun w => let '(a, s) := f (clock w.(tick)) w.(store) in
                   (a, w <| store := s |> <| tick ::= S |>)).
Definition call_at2 {A} (f : time -> time -> MemoryStore -> A * MemoryStore) : prog World A :=
  atomic (fun w => let '(a, s) := f (clock w.(tick)) (clock (S w.(tick))) w.(store) in
                   (a, w <| store := s |> <| tick ::= fun n => S (S n) |>)).
End runtime.

Definition client_userID (c : conn_id) : prog World string :=
  reads (fun w => (client_of w c).(Client_userID)).

(** ** The send queue of a connection *)

Definition send_capacity : nat := 256.

(** returns false when the queue is closed or full *)
Definition enqueue_client (data : outgoing) (c : Client) : bool * Client :=
  if c.(Client_sendDone) then (false, c)
  else if (length c.(Client_send) <? send_capacity)%nat
  then (true, c <| Client_send ::= fun q => q ++ [data] |>)
  else (false, c).

Definition enqueue (c : conn_id) (data : outgoing) : prog World bool :=
  atomic (fun w => ((enqueue_client data (client_of w c)).1,
                    on_client c (fun cl => (enqueue_client data cl).2) w)).

Definition closeSend (c : conn_id) : handler :=
  writes (on_client c (fun cl => if cl.(Client_sendDone) then cl
                                 else cl <| Client_sendDone := true |>)).

(** one iteration of writePump: [None] when there is nothing to write *)
Definition writePump_step (c : conn_id) : prog World (option outgoing) :=
  atomic (fun w => match (client_of w c).(Client_send) with
                   | [] => (None, w)
                   | data :: q => (Some data, on_client c (fun cl => cl <| Client_send := q |>) w)
                   end).

Definition sendJSON (c : conn_id) (v : outgoing) : handler :=
  if encodable_event v then enqueue c v;; Ret tt else Ret tt.

Definition sendError (c : conn_id) (echo msg : string) : handler :=
  sendJSON c (OutResponse (mkResponse "error" 100 JNull msg echo)).

(** [Response{Status: "ok", RetCode: 0, Data: data, Echo: echo}] *)
Definition sendOk (c : conn_id) (echo : string) (data : json) : handler :=
  sendJSON c (OutResponse (mkResponse "ok" 0 data "" echo)).

(** ** Delivery *)

Definition clientsForUser (userID : string) : prog World (list conn_id) :=
  reads (fun w => elements (default ∅ (w.(clients) !! userID))).

Section delivery.
Context `{Runtime}.

(** marshalClientEvent and the capability test before it: [None] skips the client *)
Definition outgoing_for (capabilities : Capabilities) (event : outgoing) : option outgoing :=
  match event with
  | OutMessage m =>
      if hasCapabilitySensitiveSegment m.(MessageEvent_Message) then
        match segmentsForClient capabilities m.(MessageEvent_Message) with
        | Some segments =>
            let outgoing := OutMessage (m <| MessageEvent_Message := segments |>) in
            if encodable_event outgoing then Some outgoing else None
        | None => None
        end
      else Some event
  | _ => Some event
  end.

Definition deliver (event : outgoing) (c : conn_id) : handler :=
  capabilities <- reads (fun w => (client_of w c).(Client_capabilities));;
  match outgoing_for capabilities event with
  | Some data => enqueue c data;; Ret tt
  | None => Ret tt
  end.

Definition sendToUser (userID : string) (event : outgoing) : handler :=
  if encodable_event event then
    cs <- clientsForUser userID;;
    for_each cs (deliver event)
  else Ret tt.

(** the connections of each user of the list, in order *)
Fixpoint clients_of_users (users : list string) : prog World (list conn_id) :=
  match users with
  | [] => Ret []
  | u :: users =>
      cs <- clientsForUser u;;
      rest <- clients_of_users users;;
      Ret (cs ++ rest)
  end.

(** the users a conversation's events go to, before any exclusion *)
Definition audience (convID : string) (conv : Conversation) : prog World (list string) :=
  if bool_decide (conv.(Conversation_Type) = "private")
  then Ret conv.(Conversation_Participants)
  else
    members <- query (GetGroupMembers convID);;
    Ret (match members with Ok ms => GroupMember_UserID <$> ms | Err _ => [] end).

Definition broadcastToConversation (convID : string) (event : outgoing) (excludeUserID : string)
  : handler :=
  if negb (encodable_event event) then Ret tt
  else
    conv <- query (GetConversation convID);;
    match conv with
    | Ok (Some conv) =>
        users <- audience convID conv;;
        cs <- clients_of_users (filter (fun u => u <> excludeUserID) users);;
        for_each cs (deliver event)
    | _ => Ret tt
    end.

Definition broadcastToConversationExceptClient (convID : string) (event : outgoing)
    (excluded : conn_id) : handler :=
  if negb (encodable_event event) then Ret tt
  else
    conv <- query (GetConversation convID);;
    match conv with
    | Ok (Some conv) =>
        users <- audience convID conv;;
        cs <- clients_of_users users;;
        for_each cs (fun c => if bool_decide (c = excluded) then Ret tt else deliver event c)
    | _ => Ret tt
    end.
End delivery.

(** the distinct non-empty recipients, without the excluded user *)
Fixpoint distinct_from (excludeUserID : string) (seen : gset string) (l : list string)
  : list string :=
  match l with
  | [] => []
  | u :: l =>
      if bool_decide (u = "") || bool_decide (u = excludeUserID) || bool_decide (u ∈ seen)
      then distinct_from excludeUserID seen l
      else u :: distinct_from excludeUserID ({[u]} ∪ seen) l
  end.

Definition conversationRecipients (convID excludeUserID : string) : prog World (list string) :=
  conv <- query (GetConversation convID);;
  match conv with
  | Ok (Some conversation) =>
      if bool_decide (conversation.(Conversation_Type) = "private")
      then Ret (distinct_from excludeUserID ∅ conversation.(Conversation_Participants))
      else
        members <- query (GetGroupMembers convID);;
        match members with
        | Err _ => Ret []
        | Ok ms => Ret (distinct_from excludeUserID ∅ (GroupMember_UserID <$> ms))
        end
  | _ => Ret []
  end.

Definition notifyFriendPresence (userID : string) (online : bool) `{Runtime} : handler :=
  friends <- query (GetFriends userID);;
  match friends with
  | Err _ => Ret tt
  | Ok friends =>
      let event := OutNotice ((notice "friend_presence") <| Notice_UserID := userID |>
                                <| Notice_Online := Some online |>) in
      for_each friends (fun friend => sendToUser friend.(User_ID) event)
  end.

(** the goroutine is started; it reads the subscriptions and delivers later *)
Definition pushEventToUser (userID : string) (payload : json) : handler :=
  writes (fun w => if negb w.(pushEnabled) || bool_decide (userID = "") then w
                   else w <| push_jobs ::= fun js => js ++ [PushToUser userID payload] |>).

(** ** The registry of connections *)

(** connections of a user, [None] when the inner map is absent *)
Definition addClient_step (c : conn_id) (userID : string) (w : World) : result bool * World :=
  if negb (bool_decide ((client_of w c).(Client_userID) = "")) then (Ok false, w)
  else
    let cs := default ∅ (w.(clients) !! userID) in
    let firstConnection := bool_decide (cs = ∅) in
    let online := if firstConnection then SetUserOnline userID true w.(store)
                  else (Ok tt, w.(store)) in
    match online with
    | (Err e, s) => (Err e, w <| store := s |>)
    | (Ok _, s) =>
        (Ok firstConnection,
         on_client c (fun cl => cl <| Client_userID := userID |>)
           (w <| store := s |> <| clients ::= <[userID := cs ∪ {[c]}]> |>))
    end.
Definition addClient (c : conn_id) (userID : string) : prog World (result bool) :=
  atomic (addClient_step c userID).

Definition detachClient_step (c : conn_id) (w : World) : (string * bool) * World :=
  let userID := (client_of w c).(Client_userID) in
  if bool_decide (userID = "") then (("", false), w)
  else
    let w := on_client c (fun cl => cl <| Client_userID := "" |>) w in
    match w.(clients) !! userID with
    | None => ((userID, false), w)
    | Some cs =>
        let cs := cs ∖ {[c]} in
        if bool_decide (cs = ∅)
        then ((userID, true),
              w <| clients ::= delete userID |>
                <| store := (SetUserOnline userID false w.(store)).2 |>)
        else ((userID, false), w <| clients ::= <[userID := cs]> |>)
    end.
Definition detachClient (c : conn_id) : prog World (string * bool) :=
  atomic (detachClient_step c).

Definition removeClient (c : conn_id) `{Runtime} : handler :=
  '(userID, lastConnection) <- detachClient c;;
  terminalSessionID <- reads (fun w => (client_of w c).(Client_terminalSessionID));;
  (if bool_decide (terminalSessionID = "") then Ret tt
   else
     endedAt <- now;;
     call_at (EndTerminalSession terminalSessionID endedAt);;
     writes (on_client c (fun cl => cl <| Client_terminalSessionID := "" |>)));;
  closeSend c;;
  if lastConnection then notifyFriendPresence userID false else Ret tt.

(** HandleWebSocket: a connection is accepted under a new identity *)
Definition HandleWebSocket (c : conn_id) : handler :=
  writes (fun w => w <| conns ::= <[c := new_client]> |>).

(** ** Access to conversations *)

Definition isEitherBlocked (firstID secondID : string) : prog World bool :=
  blocked <- query (IsUserBlocked firstID secondID);;
  if bool_decide (blocked = Ok true) then Ret true
  else
    blocked <- query (IsUserBlocked secondID firstID);;
    Ret (bool_decide (blocked = Ok true)).

(** the first participant other than the user *)
Definition other_participant (userID : string) (participants : list string) : string :=
  default "" (find_first (fun p => negb (bool_decide (p = userID)) && negb (bool_decide (p = "")))
                participants).

Definition canAccessConversation (userID conversationID : string) : prog World bool :=
  if bool_decide (userID = "") || bool_decide (conversationID = "") then Ret false
  else if HasPrefix conversationID "group_" then
    member <- query (IsGroupMember conversationID userID);;
    Ret (bool_decide (member = Ok true))
  else
    conversation <- query (GetConversation conversationID);;
    match conversation with
    | Ok (Some conversation) =>
        let participants := conversation.(Conversation_Participants) in
        let otherUserID := other_participant userID participants in
        if negb (bool_decide (userID ∈ participants)) then Ret false
        else if bool_decide (conversation.(Conversation_Type) = "private") then
          if bool_decide (otherUserID = "fairy") then Ret true
          else
            friends <- query (AreFriends userID otherUserID);;
            if bool_decide (friends = Ok true) then
              blocked <- isEitherBlocked userID otherUserID;;
              Ret (negb blocked)
            else Ret false
        else Ret true
    | _ => Ret false
    end.

(** ** Roles *)

Definition groupMemberRole (groupID userID : string) : prog World string :=
  members <- query (GetGroupMembers groupID);;
  Ret (match members with
       | Err _ => ""
       | Ok ms => from_option GroupMember_Role "" (find_first (is_member userID) ms)
       end).

Definition isGroupAdmin (groupID userID : string) : prog World bool :=
  role <- groupMemberRole groupID userID;;
  Ret (bool_decide (role = "owner") || bool_decide (role = "admin")).

Definition groupRoleOrder (role : string) : Z :=
  if bool_decide (role = "owner") then 0 else if bool_decide (role = "admin") then 1 else 2.

Definition canManageGroupMember (actorRole targetRole : string) : bool :=
  (bool_decide (actorRole = "owner")
   && (bool_decide (targetRole = "admin") || bool_decide (targetRole = "member")))
  || (bool_decide (actorRole = "admin") && bool_decide (targetRole = "member")).

Definition unixTimeOrZero (value : time) : Z := if IsZero value then 0 else Unix value.

Definition validUserID (value : string) : bool :=
  negb (bool_decide (value = "")) && (slen value <=? 128)
  && bool_decide (value = TrimSpace value) && forallb (fun r => negb (IsControl r)) (runes value).

Definition isZZZTermDevice (deviceID : string) : bool :=
  HasPrefix deviceID "zzzterm-" && (slen "zzzterm-" <? slen deviceID).

(** ** Handlers: the checks they share *)

(** [if client.userID == "" ...; params, ok := req.Params.(map[string]interface{}) ...] *)
Definition authenticated (c : conn_id) (req : Request) (badParams : string)
    (k : string -> jmap -> handler) : handler :=
  userID <- client_userID c;;
  if bool_decide (userID = "") then sendError c req.(Request_Echo) "not authenticated"
  else
    match as_object req.(Request_Params) with
    | None => sendError c req.(Request_Echo) badParams
    | Some params => k userID params
    end.
