(* ===== verification/GatewayGroups.v ===== *)
(** * Group requests (gateway/gateway.go)

    The handlers that create, join, leave, govern and dismiss groups. *)
From S2P Require Import Prelude GoLib Types DynamicContent Capabilities MemoryState.
From S2P Require Import MemoryAccounts MemoryMessages MemoryGroups Prog Gateway.
From stdpp Require Import gmap strings list.
From Stdlib Require Import ZArith.

Local Open Scope Z_scope.
Local Open Scope go_scope.

Definition maxGroupMembers : Z := 500.
Definition maxGroupInviteBatch : Z := 100.
Definition maxGroupBanSeconds : Z := 30 * 24 * 60 * 60.

Definition jstrs (l : list string) : json := JArr (JStr <$> l).

(** role, then seniority, then id *)
Definition member_before (a b : GroupMember) : bool :=
  let left := groupRoleOrder a.(GroupMember_Role) in
  let right := groupRoleOrder b.(GroupMember_Role) in
  if negb (Z.eqb left right) then left <? right
  else if negb (Z.eqb a.(GroupMember_JoinedAt) b.(GroupMember_JoinedAt))
  then Before a.(GroupMember_JoinedAt) b.(GroupMember_JoinedAt)
  else string_less a.(GroupMember_UserID) b.(GroupMember_UserID).

Definition syncGroupConversationParticipants (groupID : string)
  : prog World (result (list string)) :=
  group <- query (GetGroup groupID);;
  match group with
  | Ok (Some group) =>
      members <- query (GetGroupMembers groupID);;
      match members with
      | Err err => Ret (Err err)
      | Ok members =>
          let participants := GroupMember_UserID <$> sort_slice member_before members in
          conversation <- query (GetConversation groupID);;
          match conversation with
          | Err err => Ret (Err err)
          | Ok conversation =>
              let conversation := default
                (mkConversation groupID "" "" "" "" [] group.(Group_CreatedAt)) conversation in
              let conversation :=
                if IsZero conversation.(Conversation_CreatedAt)
                then conversation <| Conversation_CreatedAt := group.(Group_CreatedAt) |>
                else conversation in
              let conversation := conversation
                <| Conversation_Type := "group" |>
                <| Conversation_Title := group.(Group_Name) |>
                <| Conversation_Avatar := group.(Group_Avatar) |>
                <| Conversation_OwnerID := group.(Group_OwnerID) |>
                <| Conversation_Participants := participants |> in
              saved <- call (SaveConversation conversation);;
              match saved with
              | Err err => Ret (Err err)
              | Ok _ => Ret (Ok participants)
              end
          end
      end
  | _ => Ret (Err "group not found")
  end.

(** the distinct friends to add, or the message refusing the list *)
Fixpoint check_invite_targets (inviterID : string) (values : list json) (seen : gset string)
    (targets : list string) : prog World (list string * string) :=
  match values with
  | [] => Ret (targets, "")
  | value :: values =>
      match as_string value with
      | None => Ret ([], "invalid member id")
      | Some targetID =>
          if negb (validUserID targetID) then Ret ([], "invalid member id")
          else if bool_decide (targetID ∈ seen)
          then check_invite_targets inviterID values seen targets
          else
            user <- query (GetUser targetID);;
            match user with
            | Ok (Some _) =>
                friends <- query (AreFriends inviterID targetID);;
                if bool_decide (friends = Ok true)
                then check_invite_targets inviterID values ({[targetID]} ∪ seen)
                       (targets ++ [targetID])
                else Ret ([], "only friends can be invited: " +:+ targetID)
            | _ => Ret ([], "member account not found: " +:+ targetID)
            end
      end
  end.

Definition validateGroupInviteTargets (inviterID : string) (raw : option json)
  : prog World (list string * string) :=
  match raw with
  | None | Some JNull => Ret ([], "")
  | Some (JArr values) =>
      if maxGroupInviteBatch <? Z.of_nat (length values)
      then Ret ([], "invite at most 100 members at once")
      else check_invite_targets inviterID values {[inviterID]} []
  | Some _ => Ret ([], "members must be a list")
  end.

Section handlers.
Context `{Runtime}.

(** adds the members one by one; [None] when one was refused, and the ones already
    added have been removed again *)
Fixpoint add_members (groupID : string) (members added : list string)
  : prog World (option (list string)) :=
  match members with
  | [] => Ret (Some added)
  | memberID :: members =>
      ok <- call_at (AddGroupMember groupID memberID);;
      if bool_decide (ok = Ok true) then add_members groupID members (added ++ [memberID])
      else
        for_each added (fun rollbackID => call (RemoveGroupMember groupID rollbackID);; Ret tt);;
        Ret None
  end.

Definition handleCreateGroup (c : conn_id) (req : Request) : handler :=
  authenticated c req "invalid params" (fun userID params =>
    let echo := req.(Request_Echo) in
    let name := TrimSpace (str params "name") in
    let avatar := str params "avatar" in
    if bool_decide (name = "") || (80 <? slen name)
    then sendError c echo "group name must be 1-80 characters"
    else if 2048 <? slen avatar then sendError c echo "group avatar is invalid"
    else
      '(memberIDs, validationError) <- validateGroupInviteTargets userID (params !! "members");;
      if negb (bool_decide (validationError = "")) then sendError c echo validationError
      else
        t <- now;;
        let groupID := "group_" +:+ sprint_d (UnixNano t) in
        group <- call_at2 (CreateGroup groupID name avatar userID);;
        match group with
        | Err _ => sendError c echo "failed to create group"
        | Ok group =>
            addedMembers <- add_members groupID memberIDs [];;
            match addedMembers with
            | None => sendError c echo "failed to add group members"
            | Some addedMembers =>
                let participants := userID :: addedMembers in
                synced <- syncGroupConversationParticipants groupID;;
                match synced with
                | Err _ => sendError c echo "failed to create group conversation"
                | Ok _ =>
                    sendOk c echo (obj
                      [("group_id", JStr group.(Group_ID)); ("name", JStr group.(Group_Name));
                       ("avatar_url", JStr group.(Group_Avatar));
                       ("owner_id", JStr group.(Group_OwnerID));
                       ("member_count", jint (Z.of_nat (length participants)));
                       ("participants", jstrs participants)]);;
                    for_each addedMembers (fun memberID =>
                      sendToUser memberID (OutNotice
                        ((notice "group_increase") <| Notice_GroupID := groupID |>
                           <| Notice_UserID := memberID |> <| Notice_OperatorID := userID |>)))
                end
            end
        end).

Definition handleGroupInvite (c : conn_id) (req : Request) : handler :=
  authenticated c req "invalid group_invite params" (fun userID params =>
    let echo := req.(Request_Echo) in
    let groupID := str params "group_id" in
    group <- query (GetGroup groupID);;
    match group with
    | Ok (Some _) =>
        admin <- isGroupAdmin groupID userID;;
        if negb admin then sendError c echo "group permission denied"
        else
          '(targets, validationError) <- validateGroupInviteTargets userID (params !! "members");;
          if negb (bool_decide (validationError = "")) then sendError c echo validationError
          else
            members <- query (GetGroupMembers groupID);;
            match members with
            | Err _ => sendError c echo "failed to load group members"
            | Ok members =>
                let targets := filter (fun t => t ∉ (GroupMember_UserID <$> members)) targets in
                if maxGroupMembers <? Z.of_nat (length members) + Z.of_nat (length targets)
                then sendError c echo "group member limit is 500"
                else
                  addedMembers <- add_members groupID targets [];;
                  match addedMembers with
                  | None => sendError c echo "failed to invite group members"
                  | Some addedMembers =>
                      participants <- syncGroupConversationParticipants groupID;;
                      match participants with
                      | Err _ =>
                          for_each addedMembers (fun rollbackID =>
                            call (RemoveGroupMember groupID rollbackID);; Ret tt);;
                          syncGroupConversationParticipants groupID;;
                          sendError c echo "failed to update group conversation"
                      | Ok participants =>
                          sendOk c echo (obj
                            [("added_members", jstrs addedMembers);
                             ("participants", jstrs participants);
                             ("member_count", jint (Z.of_nat (length participants)))]);;
                          for_each addedMembers (fun targetID =>
                            broadcastToConversation groupID (OutNotice
                              ((notice "group_increase") <| Notice_GroupID := groupID |>
                                 <| Notice_UserID := targetID |>
                                 <| Notice_OperatorID := userID |>)) "")
                      end
                  end
            end
    | _ => sendError c echo "group not found"
    end).

Definition handleJoinGroup (c : conn_id) (req : Request) : handler :=
  authenticated c req "invalid params" (fun userID params =>
    let echo := req.(Request_Echo) in
    let groupID := str params "group_id" in
    group <- query (GetGroup groupID);;
    match group with
    | Ok (Some _) =>
        addOk <- call_at (AddGroupMember groupID userID);;
        if bool_decide (addOk = Ok true) then
          participants <- syncGroupConversationParticipants groupID;;
          match participants with
          | Err _ =>
              call (RemoveGroupMember groupID userID);;
              sendError c echo "failed to update group conversation"
          | Ok participants =>
              sendOk c echo (obj [("participants", jstrs participants)]);;
              broadcastToConversation groupID (OutNotice
                ((notice "group_increase") <| Notice_GroupID := groupID |>
                   <| Notice_UserID := userID |>)) ""
          end
        else sendError c echo "failed to join group"
    | _ => sendError c echo "group not found"
    end).

Definition handleLeaveGroup (c : conn_id) (req : Request) : handler :=
  authenticated c req "invalid params" (fun userID params =>
    let echo := req.(Request_Echo) in
    let groupID := str params "group_id" in
    group <- query (GetGroup groupID);;
    match group with
    | Ok (Some group) =>
        if bool_decide (group.(Group_OwnerID) = userID)
        then sendError c echo "group owner cannot leave"
        else
          removeOk <- call (RemoveGroupMember groupID userID);;
          if bool_decide (removeOk = Ok true) then
            synced <- syncGroupConversationParticipants groupID;;
            match synced with
            | Err _ =>
                call_at (AddGroupMember groupID userID);;
                syncGroupConversationParticipants groupID;;
                sendError c echo "failed to update group conversation"
            | Ok _ =>
                let event := OutNotice
                  ((notice "group_decrease") <| Notice_GroupID := groupID |>
                     <| Notice_UserID := userID |> <| Notice_OperatorID := userID |>) in
                sendOk c echo JNull;;
                sendToUser userID event;;
                broadcastToConversation groupID event userID
            end
          else sendError c echo "failed to leave group"
    | _ => sendError c echo "group not found"
    end).

Definition handleGroupKick (c : conn_id) (req : Request) : handler :=
  authenticated c req "invalid params" (fun actorID params =>
    let echo := req.(Request_Echo) in
    let groupID := str params "group_id" in
    let userID := str params "user_id" in
    group <- query (GetGroup groupID);;
    match group with
    | Ok (Some group) =>
        actorRole <- groupMemberRole groupID actorID;;
        targetRole <- groupMemberRole groupID userID;;
        let canKick := canManageGroupMember actorRole targetRole in
        if negb canKick || bool_decide (userID = actorID)
           || bool_decide (userID = group.(Group_OwnerID))
        then sendError c echo "group permission denied"
        else
          kickOk <- call (RemoveGroupMember groupID userID);;
          if bool_decide (kickOk = Ok true) then
            synced <- syncGroupConversationParticipants groupID;;
            match synced with
            | Err _ =>
                call_at (AddGroupMember groupID userID);;
                syncGroupConversationParticipants groupID;;
                sendError c echo "failed to update group conversation"
            | Ok _ =>
                let event := OutNotice
                  ((notice "group_decrease") <| Notice_GroupID := groupID |>
                     <| Notice_UserID := userID |> <| Notice_OperatorID := actorID |>) in
                sendOk c echo JNull;;
                sendToUser userID event;;
                broadcastToConversation groupID event userID
            end
          else sendError c echo "failed to kick user"
    | _ => sendError c echo "group not found"
    end).

Definition handleGroupBan (c : conn_id) (req : Request) : handler :=
  authenticated c req "invalid group_ban params" (fun actorID params =>
    let echo := req.(Request_Echo) in
    let groupID := str params "group_id" in
    let userID := str params "user_id" in
    let durationValue := get_float64 params "duration" in
    let duration := from_option int64_of_num 0 durationValue in
    if bool_decide (groupID = "") || bool_decide (userID = "")
       || match durationValue with
          | None => true
          | Some v => negb (num_eqb v (num_of_Z duration))
          end
       || (duration <? 0) || (maxGroupBanSeconds <? duration)
    then sendError c echo "duration must be 0-2592000 seconds"
    else
      group <- query (GetGroup groupID);;
      match group with
      | Ok (Some _) =>
          actorRole <- groupMemberRole groupID actorID;;
          targetRole <- groupMemberRole groupID userID;;
          if bool_decide (userID = actorID) || negb (canManageGroupMember actorRole targetRole)
          then sendError c echo "group permission denied"
          else
            mutedUntil <- (if 0 <? duration
                           then t <- now;; Ret (t + duration * second)
                           else Ret zero_time);;
            done <- call (SetGroupMemberMute groupID userID mutedUntil);;
            match done with
            | Err _ => sendError c echo "failed to update member mute"
            | Ok _ =>
                sendOk c echo (obj [("group_id", JStr groupID); ("user_id", JStr userID);
                                    ("muted_until", jint (unixTimeOrZero mutedUntil))]);;
                broadcastToConversation groupID (OutNotice
                  ((notice "group_ban") <| Notice_GroupID := groupID |>
                     <| Notice_UserID := userID |> <| Notice_OperatorID := actorID |>
                     <| Notice_SubType := if 0 <? duration then "ban" else "lift_ban" |>
                     <| Notice_Duration := duration |>)) ""
            end
      | _ => sendError c echo "group not found"
      end).

(** an optional string parameter: absent, valid, or refused *)
Definition optional_param (params : jmap) (key : string) (valid : string -> option string)
    (old : string) : option (string * bool) :=
  match params !! key with
  | None => Some (old, false)
  | Some raw => match as_string raw ≫= valid with
                | Some value => Some (value, true)
                | None => None
                end
  end.

Definition handleUpdateGroup (c : conn_id) (req : Request) : handler :=
  authenticated c req "invalid update_group params" (fun userID params =>
    let echo := req.(Request_Echo) in
    let groupID := str params "group_id" in
    group <- query (GetGroup groupID);;
    match group with
    | Ok (Some group) =>
        admin <- isGroupAdmin groupID userID;;
        if negb admin then sendError c echo "group permission denied"
        else
          match optional_param params "name" (fun v => let v := TrimSpace v in
                  if bool_decide (v = "") || (80 <? slen v) then None else Some v)
                  group.(Group_Name) with
          | None => sendError c echo "group name must be 1-80 characters"
          | Some (name, changed1) =>
          match optional_param params "avatar_url" (fun v =>
                  if 2048 <? slen v then None else Some v) group.(Group_Avatar) with
          | None => sendError c echo "group avatar is invalid"
          | Some (avatar, changed2) =>
          match optional_param params "announcement" (fun v => let v := TrimSpace v in
                  if 2000 <? slen v then None else Some v) group.(Group_Announcement) with
          | None => sendError c echo "group announcement is too long"
          | Some (announcement, changed3) =>
              if negb (changed1 || changed2 || changed3)
              then sendError c echo "at least one group field is required"
              else
                updated <- call (UpdateGroup groupID name avatar announcement group.(Group_MuteAll));;
                match updated with
                | Err _ => sendError c echo "failed to update group"
                | Ok _ =>
                    synced <- syncGroupConversationParticipants groupID;;
                    match synced with
                    | Err _ =>
                        call (UpdateGroup groupID group.(Group_Name) group.(Group_Avatar)
                                group.(Group_Announcement) group.(Group_MuteAll));;
                        sendError c echo "failed to update group conversation"
                    | Ok _ =>
                        sendOk c echo (obj [("group_id", JStr groupID); ("name", JStr name);
                          ("avatar_url", JStr avatar); ("announcement", JStr announcement)]);;
                        broadcastToConversation groupID (OutNotice
                          ((notice "group_update") <| Notice_GroupID := groupID |>
                             <| Notice_OperatorID := userID |>)) ""
                    end
                end
          end end end
    | _ => sendError c echo "group not found"
    end).

Definition handleSetGroupAdmin (c : conn_id) (req : Request) : handler :=
  authenticated c req "invalid set_group_admin params" (fun actorID params =>
    let echo := req.(Request_Echo) in
    let groupID := str params "group_id" in
    let userID := str params "user_id" in
    let enabledOK := get_bool params "enabled" in
    let enabled := default false enabledOK in
    group <- query (GetGroup groupID);;
    match group with
    | Ok (Some group) =>
        if negb (bool_decide (group.(Group_OwnerID) = actorID)) || bool_decide (userID = actorID)
        then sendError c echo "only the group owner can manage administrators"
        else
          targetRole <- groupMemberRole groupID userID;;
          if bool_decide (enabledOK = None) || bool_decide (targetRole = "")
             || bool_decide (targetRole = "owner")
             || (enabled && negb (bool_decide (targetRole = "member")))
             || (negb enabled && negb (bool_decide (targetRole = "admin")))
          then sendError c echo "invalid administrator change"
          else
            let role := if enabled then "admin" else "member" in
            done <- call (SetGroupMemberRole groupID userID role);;
            match done with
            | Err _ => sendError c echo "failed to update administrator"
            | Ok _ =>
                sendOk c echo JNull;;
                broadcastToConversation groupID (OutNotice
                  ((notice "group_admin") <| Notice_GroupID := groupID |>
                     <| Notice_UserID := userID |> <| Notice_OperatorID := actorID |>
                     <| Notice_SubType := if enabled then "set" else "unset" |>
                     <| Notice_Enabled := enabled |>)) ""
            end
    | _ => sendError c echo "group not found"
    end).

Definition handleTransferGroup (c : conn_id) (req : Request) : handler :=
  authenticated c req "invalid transfer_group params" (fun actorID params =>
    let echo := req.(Request_Echo) in
    let groupID := str params "group_id" in
    let userID := str params "user_id" in
    group <- query (GetGroup groupID);;
    match group with
    | Ok (Some group) =>
        if negb (bool_decide (group.(Group_OwnerID) = actorID)) || bool_decide (userID = actorID)
        then sendError c echo "group ownership transfer denied"
        else
          role <- groupMemberRole groupID userID;;
          if bool_decide (role = "") then sendError c echo "group ownership transfer denied"
          else
            done <- call (TransferGroupOwnership groupID actorID userID);;
            match done with
            | Err _ => sendError c echo "failed to transfer group ownership"
            | Ok _ =>
                synced <- syncGroupConversationParticipants groupID;;
                match synced with
                | Err _ =>
                    call (TransferGroupOwnership groupID userID actorID);;
                    sendError c echo "failed to update group conversation"
                | Ok _ =>
                    sendOk c echo JNull;;
                    broadcastToConversation groupID (OutNotice
                      ((notice "group_transfer") <| Notice_GroupID := groupID |>
                         <| Notice_UserID := userID |> <| Notice_OperatorID := actorID |>)) ""
                end
            end
    | _ => sendError c echo "group not found"
    end).

Definition handleDismissGroup (c : conn_id) (req : Request) : handler :=
  authenticated c req "invalid dismiss_group params" (fun userID params =>
    let echo := req.(Request_Echo) in
    let groupID := str params "group_id" in
    group <- query (GetGroup groupID);;
    match group with
    | Ok (Some group) =>
        if negb (bool_decide (group.(Group_OwnerID) = userID))
        then sendError c echo "only the group owner can dismiss the group"
        else
          members <- query (GetGroupMembers groupID);;
          match members with
          | Err _ => sendError c echo "failed to load group members"
          | Ok members =>
              done <- call (DeleteGroup groupID);;
              match done with
              | Err _ => sendError c echo "failed to dismiss group"
              | Ok _ =>
                  sendOk c echo JNull;;
                  for_each members (fun member =>
                    sendToUser member.(GroupMember_UserID) (OutNotice
                      ((notice "group_dismiss") <| Notice_GroupID := groupID |>
                         <| Notice_OperatorID := userID |>)))
              end
          end
    | _ => sendError c echo "group not found"
    end).

Definition handleGroupMuteAll (c : conn_id) (req : Request) : handler :=
  authenticated c req "invalid group_mute_all params" (fun userID params =>
    let echo := req.(Request_Echo) in
    let groupID := str params "group_id" in
    let enabledOK := get_bool params "enabled" in
    let enabled := default false enabledOK in
    group <- query (GetGroup groupID);;
    match group with
    | Ok (Some group) =>
        admin <- (if bool_decide (enabledOK = None) then Ret false
                  else isGroupAdmin groupID userID);;
        if negb admin then sendError c echo "group permission denied"
        else
          done <- call (UpdateGroup groupID group.(Group_Name) group.(Group_Avatar)
                          group.(Group_Announcement) enabled);;
          match done with
          | Err _ => sendError c echo "failed to update group mute"
          | Ok _ =>
              sendOk c echo JNull;;
              broadcastToConversation groupID (OutNotice
                ((notice "group_mute_all") <| Notice_GroupID := groupID |>
                   <| Notice_OperatorID := userID |>
                   <| Notice_SubType := if enabled then "enable" else "disable" |>
                   <| Notice_Enabled := enabled |>)) ""
          end
    | _ => sendError c echo "group not found"
    end).
End handlers.
