(* ===== verification/GatewayAccounts.v ===== *)
(** * Accounts (gateway/gateway.go, profile_cards.go, terminal_vault.go)

    Sessions, login, registration, profiles, blocks, reports, titles, friend
    requests, direct conversations and terminal vaults. *)
From S2P Require Import Prelude GoLib Types DynamicContent Capabilities MemoryState.
From S2P Require Import MemoryAccounts MemoryMessages MemoryGroups Prog Gateway.
From S2P Require Import GatewayGroups Vault.
From stdpp Require Import gmap strings list.
From Stdlib Require Import ZArith.

Local Open Scope Z_scope.
Local Open Scope go_scope.

Definition omit_str (k v : string) : list (string * json) :=
  if bool_decide (v = "") then [] else [(k, JStr v)].
Definition omit_int (k : string) (v : Z) : list (string * json) :=
  if Z.eqb v 0 then [] else [(k, jint v)].
Definition omit_list (k : string) (l : list json) : list (string * json) :=
  match l with [] => [] | _ => [(k, JArr l)] end.

(** the fields of the user a pointer denotes *)
Definition read_user (p : ptr) : prog World User :=
  query (fun s => default (mkUser "" "" "" "" "" "" false false false false "" zero_time) (user_at s p)).
Definition write_user_fields (p : ptr) (f : User -> User) : handler :=
  writes (fun w => w <| store ::= write_user p f |>).

(** the requester's display name *)
Definition nickname_or_id (userID : string) : prog World string :=
  user <- query (fun s => user_of s userID);;
  Ret (match user with
       | Some u => if bool_decide (u.(User_Nickname) = "") then userID else u.(User_Nickname)
       | None => userID
       end).

Definition protocolTitle (title : UserTitle) : json :=
  obj ([("title_id", JStr title.(UserTitle_ID)); ("scope_type", JStr title.(UserTitle_ScopeType));
        ("text", JStr title.(UserTitle_Text)); ("style", JStr title.(UserTitle_Style));
        ("granted_by", JStr title.(UserTitle_GrantedBy));
        ("created_at", jint (Unix title.(UserTitle_CreatedAt)))]
       ++ omit_str "scope_id" title.(UserTitle_ScopeID)
       ++ match title.(UserTitle_ExpiresAt) with
          | Some t => omit_int "expires_at" (Unix t)
          | None => []
          end).

Definition protocol_group (group : Group) (memberCount : Z) : json :=
  obj ([("group_id", JStr group.(Group_ID)); ("name", JStr group.(Group_Name));
        ("owner_id", JStr group.(Group_OwnerID)); ("member_count", jint memberCount);
        ("mute_all", JBool group.(Group_MuteAll))]
       ++ omit_str "avatar_url" group.(Group_Avatar)).

Fixpoint groups_with_counts (groups : list Group) : prog World (list json) :=
  match groups with
  | [] => Ret []
  | group :: groups =>
      members <- query (GetGroupMembers group.(Group_ID));;
      rest <- groups_with_counts groups;;
      Ret (protocol_group group (match members with
                                 | Ok ms => Z.of_nat (length ms)
                                 | Err _ => 0
                                 end) :: rest)
  end.

Definition mutualGroups (viewerID targetID : string) : prog World (list json) :=
  viewerGroups <- query (GetUserGroups viewerID);;
  targetGroups <- query (GetUserGroups targetID);;
  match viewerGroups, targetGroups with
  | Ok viewerGroups, Ok targetGroups =>
      groups_with_counts (filter (fun g => g.(Group_ID) ∈ (Group_ID <$> viewerGroups)) targetGroups)
  | _, _ => Ret []
  end.

Definition validProfileBackgroundColor (raw : string) : bool :=
  bool_decide (raw = "")
  || (Z.eqb (slen raw) 7
      && match bytes raw with
         | h :: _ => Z.eqb h 35
         | [] => false
         end
      && forallb (fun r => is_digit r || (GoLib.between 97 102 r) || (GoLib.between 65 70 r))
           (decode_runes 6 (drop 1 (bytes raw)))).

Definition allowedTitleStyles : gset string := {["gold"; "red"; "yellow"; "aurora"; "ember"]}.
Definition allowedReportReasons : gset string :=
  {["spam"; "harassment"; "impersonation"; "inappropriate"; "other"]}.

Definition isExactAgentConversationParticipants (participants : list string) (userID : string)
  : bool :=
  if negb (Nat.eqb (length participants) 2) || bool_decide (userID = "") then false
  else
    forallb (fun p => bool_decide (p = userID) || bool_decide (p = "fairy")) participants
    && bool_decide (userID ∈ participants)
    && existsb (fun p => bool_decide (p = "fairy") && negb (bool_decide (p = userID))) participants.

Section accounts.
Context `{Runtime}.

(** ** Sessions *)

Definition sessionTTL : Z := 90 * 24 * hour.

Definition hashSessionToken (token : string) : string := sha256_hex token.

Definition issueSession (userID : string) : prog World (result string) :=
  raw <- atomic (fun w => (rand_token w.(draws), w <| draws ::= S |>));;
  match raw with
  | None => Ret (Err "random source")
  | Some token =>
      t <- now;;
      stored <- call_at (UpsertSession (mkSession (hashSessionToken token) userID (t + sessionTTL)
                                          zero_time));;
      match stored with
      | Err e => Ret (Err e)
      | Ok _ => Ret (Ok token)
      end
  end.

(** the user of a valid session; an expired one is deleted *)
Definition userForSession (token : string) : prog World (option string) :=
  session <- query (GetSession (hashSessionToken token));;
  match session with
  | Ok (Some session) =>
      t <- now;;
      if negb (After session.(Session_ExpiresAt) t) then
        call (DeleteSession session.(Session_TokenHash));; Ret None
      else Ret (Some session.(Session_UserID))
  | _ => Ret None
  end.

Definition handleLogout (c : conn_id) (req : Request) : handler :=
  let echo := req.(Request_Echo) in
  match as_object req.(Request_Params) with
  | None => sendError c echo "invalid logout params"
  | Some params =>
      let token := str params "session_token" in
      if bool_decide (token = "") then sendError c echo "session_token required"
      else
        done <- call (DeleteSession (hashSessionToken token));;
        match done with
        | Err _ => sendError c echo "failed to revoke session"
        | Ok _ => sendOk c echo JNull
        end
  end.

(** ** Login *)

Definition capability_strings (l : list string) : json := jstrs l.
Definition capabilities_json (caps : Capabilities) : json :=
  obj ([("protocol_version", JStr caps.(ProtocolVersion))]
       ++ match caps.(DynamicContent) with
          | None => []
          | Some d => [("dynamic_content", obj
              [("schema_versions", capability_strings d.(SchemaVersions));
               ("component_version", JStr d.(ComponentVersion));
               ("components", capability_strings d.(Components)); ("events", JBool d.(Events));
               ("node_id_patch", JBool d.(NodeIDPatch));
               ("content_operations", JBool d.(ContentOperations))])]
          end).

(** who the credentials identify: the user id and whether a session did, or the
    refusal *)
Definition check_credentials (params : jmap) : prog World (result (string * bool)) :=
  let sessionToken := if bool_decide (str params "session_token" = "") then str params "token"
                      else str params "session_token" in
  let password := str params "password" in
  access <- reads accessToken;;
  resolved <- (if bool_decide (sessionToken = "") then Ret None else userForSession sessionToken);;
  let userID := default (str params "user_id") resolved in
  let bySession := bool_decide (is_Some resolved) in
  let token_matches := bool_decide (sessionToken = access) in
  if negb (bool_decide (sessionToken = "")) && negb bySession
     && negb (bool_decide (access = "")) && negb token_matches && bool_decide (password = "")
  then Ret (Err "invalid credentials")
  else
    password_ok <- (if bool_decide (password = "") then Ret true
                    else
                      user <- query (fun s => user_of s userID);;
                      Ret (match user with
                           | Some u => negb (bool_decide (u.(User_PasswordHash) = ""))
                                       && bcrypt_matches u.(User_PasswordHash) password
                           | None => false
                           end));;
    if negb password_ok then Ret (Err "invalid credentials")
    else if bool_decide (password = "") && bool_decide (userID = "") && bool_decide (access = "")
    then Ret (Err "user_id required")
    else if bool_decide (password = "") && negb bySession && negb (bool_decide (access = ""))
            && negb token_matches
    then Ret (Err "invalid credentials")
    else if negb (validUserID userID) then Ret (Err "valid user_id required")
    else Ret (Ok (userID, bySession)).

(** the account, created on first use unless a password was given *)
Definition load_account (userID password : string) : prog World (result ptr) :=
  user <- query (GetUser userID);;
  match user with
  | Ok (Some p) => Ret (Ok p)
  | _ =>
      if negb (bool_decide (password = "")) then Ret (Err "account not found")
      else
        p <- call (new_user (mkUser userID userID "" "" "" "" false true true false "" zero_time));;
        stored <- call (SetUser p);;
        match stored with
        | Err _ => Ret (Err "failed to load account")
        | Ok _ => Ret (Ok p)
        end
  end.

Definition handleAuth (c : conn_id) (req : Request) : handler :=
  current <- client_userID c;;
  let echo := req.(Request_Echo) in
  let wasAuthenticated := negb (bool_decide (current = "")) in
  match as_object req.(Request_Params) with
  | None => sendError c echo "invalid auth params"
  | Some params =>
      let password := str params "password" in
      let deviceID := TrimSpace (str params "device_id") in
      if 128 <? slen deviceID then sendError c echo "device_id must not exceed 128 bytes"
      else
        match parseClientCapabilities (params !! "capabilities") with
        | Err err => sendError c echo err
        | Ok advertised =>
            let negotiated := negotiateCapabilities advertised in
            credentials <- check_credentials params;;
            match credentials with
            | Err err => sendError c echo err
            | Ok (userID, _) =>
                if wasAuthenticated && negb (bool_decide (current = userID))
                then sendError c echo "connection already authenticated as another user"
                else
                  account <- load_account userID password;;
                  match account with
                  | Err err => sendError c echo err
                  | Ok user =>
                      added <- (if wasAuthenticated then Ret (Ok false)
                                else
                                  writes (on_client c (fun cl =>
                                    cl <| Client_capabilities := negotiated |>));;
                                  addClient c userID);;
                      match added with
                      | Err _ => sendError c echo "failed to update presence"
                      | Ok firstConnection =>
                          (if firstConnection
                           then write_user_fields user (fun u => u <| User_Online := true |>)
                           else Ret tt);;
                          (if negb wasAuthenticated && isZZZTermDevice deviceID then
                             t1 <- now;;
                             let id := "term-session-" +:+ sprint_d (UnixNano t1) in
                             writes (on_client c (fun cl =>
                               cl <| Client_deviceID := deviceID |>
                                  <| Client_terminalSessionID := id |>));;
                             t2 <- now;;
                             call_at (UpsertTerminalSession (mkTerminalSession id userID deviceID
                                        "desktop" true t2 t2 None));;
                             Ret tt
                           else Ret tt);;
                          u <- read_user user;;
                          caps <- reads (fun w => (client_of w c).(Client_capabilities));;
                          session <- (if bool_decide (password = "") then Ret []
                                      else
                                        issued <- issueSession userID;;
                                        Ret (match issued with
                                             | Ok s => [("session_token", JStr s)]
                                             | Err _ => []
                                             end));;
                          sendOk c echo (obj (session ++
                            [("user_id", JStr u.(User_ID)); ("nickname", JStr u.(User_Nickname));
                             ("avatar_url", JStr u.(User_Avatar)); ("bio", JStr u.(User_Bio));
                             ("card_background_url", JStr u.(User_CardBackgroundURL));
                             ("card_background_color", JStr u.(User_CardBackgroundColor));
                             ("card_background_sensitive", JBool u.(User_CardBackgroundSensitive));
                             ("show_mutual_groups", JBool u.(User_ShowMutualGroups));
                             ("show_account_id", JBool u.(User_ShowAccountID));
                             ("server_capabilities", capabilities_json CurrentServerCapabilities);
                             ("negotiated_capabilities", capabilities_json caps)]));;
                          if firstConnection then notifyFriendPresence userID true else Ret tt
                      end
                  end
            end
        end
  end.

(** ** Registration *)

(** the media service the gateway was given, if any: file name, kind, content type,
    data and uploader to the stored file *)
Definition media_uploader : Type :=
  option (string -> string -> string -> string -> string -> prog World (result (option MediaFile))).

Definition store_avatar (media : media_uploader) (userID avatarURL avatarFile avatarFileName
    avatarMimeType : string) : prog World (result string) :=
  if bool_decide (avatarFile = "") then Ret (Ok avatarURL)
  else
    match media with
    | None => Ret (Err "avatar storage is not configured")
    | Some save =>
        if 7 * 1024 * 1024 <? slen avatarFile then Ret (Err "avatar must be 5 MB or smaller")
        else
          match base64_decode avatarFile with
          | None => Ret (Err "invalid avatar file")
          | Some avatarData =>
              if bool_decide (avatarData = "") || (5 * 1024 * 1024 <? slen avatarData)
              then Ret (Err "invalid avatar file")
              else
                let detectedType := detect_content_type avatarData in
                if negb (HasPrefix detectedType "image/")
                   || bool_decide (detectedType = "image/svg+xml")
                then Ret (Err "avatar must be a supported raster image")
                else
                  let name := if bool_decide (TrimSpace avatarFileName = "") then "avatar"
                              else avatarFileName in
                  let mime := if HasPrefix avatarMimeType "image/" then avatarMimeType
                              else detectedType in
                  saved <- save name "image" mime avatarData userID;;
                  Ret (match saved with
                       | Ok (Some file) => if bool_decide (file.(MediaFile_URL) = "")
                                           then Err "failed to store avatar"
                                           else Ok file.(MediaFile_URL)
                       | _ => Err "failed to store avatar"
                       end)
          end
    end.

Definition handleRegister (media : media_uploader) (c : conn_id) (req : Request) : handler :=
  let echo := req.(Request_Echo) in
  match as_object req.(Request_Params) with
  | None => sendError c echo "invalid register params"
  | Some params =>
      let userID := TrimSpace (str params "user_id") in
      let password := str params "password" in
      let nickname := TrimSpace (str params "nickname") in
      let code := TrimSpace (str params "invite_code") in
      let avatarURL := TrimSpace (str params "avatar_url") in
      let avatarFile := str params "avatar_file" in
      configuredCode <- reads inviteCode;;
      if bool_decide (configuredCode = "") then sendError c echo "registration is disabled"
      else if negb (bool_decide (sha256 configuredCode = sha256 code))
      then sendError c echo "invalid invite code"
      else if negb (validUserID userID) || (slen userID <? 3) || (32 <? slen userID)
      then sendError c echo "user_id must be 3-32 characters"
      else if (slen password <? 8) || (72 <? slen password)
      then sendError c echo "password must be 8-72 characters"
      else
        let nickname := if bool_decide (nickname = "") then userID else nickname in
        if 64 <? slen nickname then sendError c echo "nickname is too long"
        else if (2048 <? slen avatarURL)
                || (negb (bool_decide (avatarURL = "")) && negb (bool_decide (avatarFile = "")))
        then sendError c echo "choose either a built-in or uploaded avatar"
        else
          existing <- query (GetUser userID);;
          if negb (bool_decide (existing = Ok None))
          then sendError c echo "account already exists"
          else
            hash <- atomic (fun w => (bcrypt_hash w.(draws) password, w <| draws ::= S |>));;
            match hash with
            | None => sendError c echo "failed to create account"
            | Some hash =>
                avatar <- store_avatar media userID avatarURL avatarFile
                            (str params "avatar_file_name") (str params "avatar_mime_type");;
                match avatar with
                | Err err => sendError c echo err
                | Ok avatarURL =>
                    t <- now;;
                    user <- call (new_user (mkUser userID nickname avatarURL "" "" "" false true true
                                              true hash t));;
                    stored <- call (SetUser user);;
                    match stored with
                    | Err _ => sendError c echo "failed to create account"
                    | Ok _ =>
                        session <- issueSession userID;;
                        match session with
                        | Err _ => sendError c echo "failed to create session"
                        | Ok session =>
                            u <- read_user user;;
                            sendOk c echo (obj [("user_id", JStr u.(User_ID));
                              ("nickname", JStr u.(User_Nickname));
                              ("avatar_url", JStr u.(User_Avatar)); ("session_token", JStr session)])
                        end
                    end
                end
            end
  end.

(** ** Profiles *)

Definition validProfileBackgroundURL (raw : string) : bool :=
  if bool_decide (raw = "") then true
  else if (2048 <? slen raw) || negb (bool_decide (raw = TrimSpace raw)) then false
  else
    match parse_request_uri raw with
    | None => false
    | Some parsed =>
        if negb (bool_decide (parsed.(URL_Scheme) = "https")) || bool_decide (parsed.(URL_Host) = "")
           || parsed.(URL_HasUser)
        then false
        else
          let host := TrimSuffix (to_lower parsed.(URL_Hostname)) "." in
          if bool_decide (host = "localhost") || HasSuffix host ".localhost" then false
          else match private_ip host with Some private => negb private | None => true end
    end.

(** what [viewerID] sees of a user *)
Definition profileUser (viewerID : string) (p : ptr) (groupID : string) : prog World json :=
  user <- read_user p;;
  let id := user.(User_ID) in
  blocked <- query (IsUserBlocked viewerID id);;
  relationship <- (if bool_decide (blocked = Ok true) then Ret "blocked"
                   else
                     blockedBy <- query (IsUserBlocked id viewerID);;
                     if bool_decide (blockedBy = Ok true) then Ret "blocked_by"
                     else
                       friends <- query (AreFriends viewerID id);;
                       Ret (if bool_decide (friends = Ok true) then "friend" else ""));;
  t <- now;;
  titles <- query (GetUserTitles id groupID t);;
  mutual <- (if user.(User_ShowMutualGroups) || bool_decide (viewerID = id)
             then mutualGroups viewerID id else Ret []);;
  let visible := if negb (bool_decide (viewerID = id)) && negb user.(User_ShowAccountID)
                 then "" else id in
  Ret (obj (omit_str "user_id" visible ++ [("nickname", JStr user.(User_Nickname))]
            ++ omit_str "avatar_url" user.(User_Avatar) ++ omit_str "bio" user.(User_Bio)
            ++ omit_str "card_background_url" user.(User_CardBackgroundURL)
            ++ omit_str "card_background_color" user.(User_CardBackgroundColor)
            ++ [("card_background_sensitive", JBool user.(User_CardBackgroundSensitive));
                ("show_mutual_groups", JBool user.(User_ShowMutualGroups));
                ("show_account_id", JBool user.(User_ShowAccountID));
                ("online", JBool user.(User_Online))]
            ++ omit_str "relationship" relationship
            ++ omit_list "titles" (match titles with Ok l => protocolTitle <$> l | Err _ => [] end)
            ++ omit_list "mutual_groups" mutual)).

Definition notifyProfileUpdate (p : ptr) (exclude : conn_id) : handler :=
  user <- read_user p;;
  t <- now;;
  let event := OutNotice
    ((notice "profile_update") <| Notice_UserID := user.(User_ID) |>
       <| Notice_Nickname := user.(User_Nickname) |> <| Notice_Avatar := user.(User_Avatar) |>
       <| Notice_ProfileVersion := UnixMilli t |>) in
  cs <- clientsForUser user.(User_ID);;
  for_each cs (fun registered =>
    if bool_decide (registered = exclude) then Ret tt else enqueue registered event;; Ret tt);;
  friends <- query (GetFriends user.(User_ID));;
  match friends with
  | Err _ => Ret tt
  | Ok friends =>
      for_each friends (fun friend =>
        if bool_decide (friend.(User_ID) = user.(User_ID)) then Ret tt
        else sendToUser friend.(User_ID) event)
  end.

(** one optional field of update_profile: checked, then written at once to the
    user object *)
Definition profile_field (c : conn_id) (echo : string) (p : ptr) (params : jmap) (key : string)
    (valid : json -> option (User -> User)) (refusal : string) (k : handler) : handler :=
  match params !! key with
  | None => k
  | Some raw =>
      match valid raw with
      | None => sendError c echo refusal
      | Some f => write_user_fields p f;; k
      end
  end.

Definition handleUpdateProfile (c : conn_id) (req : Request) : handler :=
  authenticated c req "invalid update_profile params" (fun userID params =>
    let echo := req.(Request_Echo) in
    user <- query (GetUser userID);;
    match user with
    | Ok (Some p) =>
        profile_field c echo p params "nickname" (fun raw =>
          match as_string raw with
          | Some v => let v := TrimSpace v in
                      if bool_decide (v = "") || (64 <? slen v) then None
                      else Some (fun u => u <| User_Nickname := v |>)
          | None => None
          end) "nickname must be 1-64 characters" (
        profile_field c echo p params "avatar_url" (fun raw =>
          match as_string raw with
          | Some v => if 2048 <? slen v then None else Some (fun u => u <| User_Avatar := v |>)
          | None => None
          end) "avatar url is invalid" (
        profile_field c echo p params "bio" (fun raw =>
          match as_string raw with
          | Some v => let v := TrimSpace v in
                      if 280 <? Z.of_nat (length (runes v)) then None
                      else Some (fun u => u <| User_Bio := v |>)
          | None => None
          end) "bio must not exceed 280 characters" (
        profile_field c echo p params "card_background_url" (fun raw =>
          match as_string raw with
          | Some v => let v := TrimSpace v in
                      if validProfileBackgroundURL v
                      then Some (fun u => u <| User_CardBackgroundURL := v |>) else None
          | None => None
          end) "card background must be a public HTTPS image URL" (
        profile_field c echo p params "card_background_color" (fun raw =>
          match as_string raw with
          | Some v => let v := TrimSpace v in
                      if validProfileBackgroundColor v
                      then Some (fun u => u <| User_CardBackgroundColor := ToUpperASCII v |>)
                      else None
          | None => None
          end) "card background color must use #RRGGBB" (
        profile_field c echo p params "card_background_sensitive" (fun raw =>
          (fun v => fun u => u <| User_CardBackgroundSensitive := v |>) <$> as_bool raw)
          "card background sensitivity is invalid" (
        profile_field c echo p params "show_mutual_groups" (fun raw =>
          (fun v => fun u => u <| User_ShowMutualGroups := v |>) <$> as_bool raw)
          "mutual group privacy is invalid" (
        profile_field c echo p params "show_account_id" (fun raw =>
          (fun v => fun u => u <| User_ShowAccountID := v |>) <$> as_bool raw)
          "account ID privacy is invalid" (
        stored <- call (SetUser p);;
        match stored with
        | Err _ => sendError c echo "failed to update profile"
        | Ok _ =>
            notifyProfileUpdate p c;;
            data <- profileUser userID p "";;
            sendOk c echo data
        end))))))))
    | _ => sendError c echo "account not found"
    end).

(** ** Direct conversations *)

(** the distinct non-empty strings of the list, in order *)
Definition distinct_strings (raw : list json) : list string :=
  foldl (fun acc v => match as_string v with
                      | Some s => if bool_decide (s = "") || bool_decide (s ∈ acc) then acc
                                  else acc ++ [s]
                      | None => acc
                      end) [] raw.

Definition handleEnsureConversation (c : conn_id) (req : Request) : handler :=
  authenticated c req "invalid ensure_conversation params" (fun userID params =>
    let echo := req.(Request_Echo) in
    let id := str params "conversation_id" in
    if bool_decide (id = "") then sendError c echo "conversation_id required"
    else
      denied <- (if HasPrefix id "group_" then
                   group <- query (GetGroup id);;
                   match group with
                   | Ok (Some _) =>
                       member <- query (IsGroupMember id userID);;
                       Ret (negb (bool_decide (member = Ok true)))
                   | _ => Ret false
                   end
                 else Ret false);;
      if denied then sendError c echo "group access denied"
      else
        let convType := if bool_decide (str params "type" = "group") then "group" else "private" in
        let title := if bool_decide (str params "title" = "") then id else str params "title" in
        let avatar := str params "avatar_url" in
        let participants :=
          match get_array params "participants" with
          | None => [userID]
          | Some raw => let ps := distinct_strings raw in
                        if bool_decide (userID ∈ ps) then ps else ps ++ [userID]
          end in
        if HasPrefix id "agent_"
           && (negb (bool_decide (convType = "private"))
               || negb (isExactAgentConversationParticipants participants userID))
        then sendError c echo "Agent conversations must contain only the current user and Fairy"
        else
          refused <- (if bool_decide (convType = "private") then
                        existing <- query (GetConversation id);;
                        match existing with
                        | Ok (Some _) =>
                            ok <- canAccessConversation userID id;;
                            Ret (if ok then "" else "direct messages require a friend relationship")
                        | _ =>
                            let otherUserID := default ""
                              (find_first (fun p => negb (bool_decide (p = userID))) participants) in
                            friends <- query (AreFriends userID otherUserID);;
                            if bool_decide (otherUserID = "")
                               || (negb (bool_decide (otherUserID = "fairy"))
                                   && negb (bool_decide (friends = Ok true)))
                            then Ret "direct messages require a friend relationship"
                            else if bool_decide (otherUserID = "fairy") then Ret ""
                            else
                              blocked <- isEitherBlocked userID otherUserID;;
                              Ret (if blocked then "direct messages are blocked" else "")
                        end
                      else Ret "");;
          if negb (bool_decide (refused = "")) then sendError c echo refused
          else
            t <- now;;
            saved <- call (SaveConversation (mkConversation id convType title avatar "" participants t));;
            match saved with
            | Err _ => sendError c echo "failed to save conversation"
            | Ok _ => sendOk c echo JNull
            end).

(** ** Friends *)

Definition concerns (a b : string) (req : FriendRequest) : bool :=
  (bool_decide (req.(FriendRequest_FromID) = a) && bool_decide (req.(FriendRequest_ToID) = b))
  || (bool_decide (req.(FriendRequest_FromID) = b) && bool_decide (req.(FriendRequest_ToID) = a)).

Definition handleFriendRequest (c : conn_id) (req : Request) : handler :=
  authenticated c req "invalid params" (fun userID params =>
    let echo := req.(Request_Echo) in
    let targetID := TrimSpace (str params "user_id") in
    let comment := TrimSpace (str params "comment") in
    if bool_decide (targetID = "") || bool_decide (targetID = userID)
    then sendError c echo "valid target user required"
    else if 200 <? slen comment then sendError c echo "comment is too long"
    else
      target <- query (GetUser targetID);;
      if bool_decide (target = Ok None) then sendError c echo "user not found"
      else
        blocked <- isEitherBlocked userID targetID;;
        if blocked then sendError c echo "friend requests are blocked"
        else
          friends <- query (AreFriends userID targetID);;
          if bool_decide (friends = Ok true) then sendError c echo "already friends"
          else
            pending <- query (GetPendingFriendRequests userID);;
            if match pending with Ok l => existsb (concerns userID targetID) l | Err _ => false end
            then sendError c echo "friend request already pending"
            else
              friendReq <- call_at (CreateFriendRequest userID targetID comment);;
              match friendReq with
              | Err _ => sendError c echo "failed to create friend request"
              | Ok friendReq =>
                  sendToUser targetID (OutRequest
                    (mkRequestEvent "friend" userID "" comment friendReq.(FriendRequest_ID)));;
                  requesterName <- nickname_or_id userID;;
                  let body := requesterName +:+ " wants to connect"
                              +:+ (if bool_decide (comment = "") then "" else ": " +:+ comment) in
                  pushEventToUser targetID (obj
                    [("type", JStr "friend_request"); ("title", JStr "New friend request");
                     ("body", JStr body); ("request_id", JStr friendReq.(FriendRequest_ID));
                     ("user_id", JStr userID); ("path", JStr "/contacts")]);;
                  sendOk c echo (obj [("flag", JStr friendReq.(FriendRequest_ID))])
              end).

Definition handleFriendHandle (c : conn_id) (req : Request) : handler :=
  authenticated c req "invalid params" (fun userID params =>
    let echo := req.(Request_Echo) in
    let flag := str params "flag" in
    let action := str params "action" in
    friendReq <- query (GetFriendRequest flag);;
    match friendReq with
    | Ok (Some friendReq) =>
        if negb (bool_decide (friendReq.(FriendRequest_ToID) = userID))
           || negb (bool_decide (friendReq.(FriendRequest_Status) = "pending"))
        then sendError c echo "friend request not found"
        else
          let normalizedAction :=
            if bool_decide (action = "accept") || bool_decide (action = "accepted")
            then "accepted"
            else if bool_decide (action = "reject") || bool_decide (action = "rejected")
            then "rejected" else "" in
          let fromID := friendReq.(FriendRequest_FromID) in
          let toID := friendReq.(FriendRequest_ToID) in
          if bool_decide (normalizedAction = "")
          then sendError c echo "action must be accept or reject"
          else
            added <- (if bool_decide (normalizedAction = "accepted")
                      then call_at (AddFriend fromID toID) else Ret (Ok false));;
            match added with
            | Err _ => sendError c echo "failed to add friend"
            | Ok friendAdded =>
                handled <- call (HandleFriendRequest flag normalizedAction);;
                let handleOk := bool_decide (handled = Ok true) in
                (if negb handleOk && friendAdded
                 then call (RemoveFriend fromID toID);; Ret tt else Ret tt);;
                if handleOk then
                  sendOk c echo JNull;;
                  sendToUser fromID (OutNotice
                    (if bool_decide (normalizedAction = "accepted")
                     then (notice "friend_add") <| Notice_UserID := userID |>
                     else (notice "friend_request_result") <| Notice_UserID := userID |>
                            <| Notice_SubType := normalizedAction |>));;
                  handlerName <- nickname_or_id userID;;
                  let resultText := if bool_decide (normalizedAction = "accepted")
                                    then "accepted your friend request"
                                    else "declined your friend request" in
                  pushEventToUser fromID (obj
                    [("type", JStr "friend_request_result");
                     ("title", JStr "Friend request updated");
                     ("body", JStr (handlerName +:+ " " +:+ resultText));
                     ("request_id", JStr friendReq.(FriendRequest_ID)); ("user_id", JStr userID);
                     ("path", JStr "/contacts")])
                else sendError c echo "failed to handle request"
            end
    | _ => sendError c echo "friend request not found"
    end).

Definition handleRemoveFriend (c : conn_id) (req : Request) : handler :=
  authenticated c req "invalid remove_friend params" (fun userID params =>
    let echo := req.(Request_Echo) in
    let friendID := str params "user_id" in
    removed <- call (RemoveFriend userID friendID);;
    if negb (bool_decide (removed = Ok true))
    then sendError c echo "friend relationship not found"
    else
      sendOk c echo JNull;;
      sendToUser friendID (OutNotice ((notice "friend_remove") <| Notice_UserID := userID |>))).

(** ** Blocks, reports and titles *)

Definition handleSetUserBlocked (c : conn_id) (req : Request) : handler :=
  authenticated c req "invalid set_user_blocked params" (fun userID params =>
    let echo := req.(Request_Echo) in
    let targetID := TrimSpace (str params "user_id") in
    match get_bool params "blocked" with
    | Some blocked =>
        if bool_decide (targetID = "") || bool_decide (targetID = userID)
        then sendError c echo "valid target user and blocked state required"
        else
          target <- query (GetUser targetID);;
          if bool_decide (target = Ok None) then sendError c echo "user not found"
          else
            done <- call_at (SetUserBlocked userID targetID blocked);;
            match done with
            | Err _ => sendError c echo "failed to update block state"
            | Ok _ =>
                (if blocked then
                   removed <- call (RemoveFriend userID targetID);;
                   if bool_decide (removed = Ok true)
                   then sendToUser targetID (OutNotice
                          ((notice "friend_remove") <| Notice_UserID := userID |>))
                   else Ret tt
                 else Ret tt);;
                sendOk c echo (obj [("user_id", JStr targetID); ("blocked", JBool blocked)])
            end
    | None => sendError c echo "valid target user and blocked state required"
    end).

Definition handleReportUser (c : conn_id) (req : Request) : handler :=
  authenticated c req "invalid report_user params" (fun userID params =>
    let echo := req.(Request_Echo) in
    let targetID := TrimSpace (str params "user_id") in
    let reason := TrimSpace (str params "reason") in
    let details := TrimSpace (str params "details") in
    if bool_decide (targetID = "") || bool_decide (targetID = userID)
       || negb (bool_decide (reason ∈ allowedReportReasons))
       || (500 <? Z.of_nat (length (runes details)))
    then sendError c echo "report target, reason, or details are invalid"
    else
      target <- query (GetUser targetID);;
      if bool_decide (target = Ok None) then sendError c echo "user not found"
      else
        t1 <- now;;
        t2 <- now;;
        let id := "report_" +:+ sprint_d (UnixNano t1) in
        done <- call_at (CreateUserReport (mkUserReport id userID targetID reason details t2));;
        match done with
        | Err _ => sendError c echo "failed to submit report"
        | Ok _ => sendOk c echo (obj [("report_id", JStr id)])
        end).

(** the zero time when the value is neither a time string nor a number *)
Definition title_expiration (raw : json) : time :=
  match raw with
  | JStr value => default zero_time (parse_rfc3339 value)
  | JNum value => int64_of_num value * second
  | _ => zero_time
  end.

Definition handleGrantUserTitle (c : conn_id) (req : Request) : handler :=
  authenticated c req "invalid grant_user_title params" (fun userID params =>
    let echo := req.(Request_Echo) in
    let groupID := TrimSpace (str params "group_id") in
    let targetID := TrimSpace (str params "user_id") in
    let text := TrimSpace (str params "text") in
    let style := TrimSpace (str params "style") in
    let len := Z.of_nat (length (runes text)) in
    if bool_decide (groupID = "") || bool_decide (targetID = "") || Z.eqb len 0 || (24 <? len)
       || negb (bool_decide (style ∈ allowedTitleStyles))
    then sendError c echo "group title fields are invalid"
    else
      admin <- isGroupAdmin groupID userID;;
      if negb admin then sendError c echo "group manager permission required"
      else
        member <- query (IsGroupMember groupID targetID);;
        if negb (bool_decide (member = Ok true))
        then sendError c echo "target user is not a group member"
        else
          expires <- (match params !! "expires_at" with
                      | None | Some JNull => Ret (Some None)
                      | Some raw =>
                          if is_str (Some raw) "" then Ret (Some None)
                          else
                            t <- now;;
                            let parsed := title_expiration raw in
                            Ret (if After parsed t then Some (Some parsed) else None)
                      end);;
          match expires with
          | None => sendError c echo "title expiration must be a future RFC3339 time"
          | Some expiresAt =>
              t1 <- now;;
              t2 <- now;;
              let title := mkUserTitle ("title_" +:+ sprint_d (UnixNano t1)) targetID "group"
                             groupID text style userID expiresAt t2 in
              done <- call_at (GrantUserTitle title);;
              match done with
              | Err err => if bool_decide (err = ErrActiveTitleLimit) then sendError c echo err
                           else sendError c echo "failed to grant title"
              | Ok _ => sendOk c echo (protocolTitle title)
              end
          end).

Definition handleRevokeUserTitle (c : conn_id) (req : Request) : handler :=
  authenticated c req "invalid revoke_user_title params" (fun userID params =>
    let echo := req.(Request_Echo) in
    let groupID := str params "group_id" in
    let targetID := str params "user_id" in
    let titleID := str params "title_id" in
    admin <- isGroupAdmin groupID userID;;
    if negb admin then sendError c echo "group manager permission required"
    else
      t <- now;;
      titles <- query (GetUserTitles targetID groupID t);;
      let allowed := match titles with
                     | Ok l => existsb (fun title =>
                         bool_decide (title.(UserTitle_ID) = titleID)
                         && bool_decide (title.(UserTitle_ScopeType) = "group")
                         && bool_decide (title.(UserTitle_ScopeID) = groupID)) l
                     | Err _ => false
                     end in
      if negb allowed then sendError c echo "group title not found"
      else
        deleted <- call (DeleteUserTitle titleID);;
        if negb (bool_decide (deleted = Ok true)) then sendError c echo "failed to revoke title"
        else sendOk c echo JNull).

(** ** Terminal vaults *)

Definition maxTerminalVaultPayloadBytes : Z := 4 * 1024 * 1024.

(** a time.Time in a response, written as its instant *)
Definition jtime (t : time) : json := jint t.

Definition vault_json (vault : TerminalVault) : json :=
  obj [("payload", JStr vault.(TerminalVault_Payload));
       ("revision", jint vault.(TerminalVault_Revision));
       ("updated_at", jtime vault.(TerminalVault_UpdatedAt))].

Definition handleGetTerminalVault (c : conn_id) (req : Request) : handler :=
  userID <- client_userID c;;
  let echo := req.(Request_Echo) in
  if bool_decide (userID = "") then sendError c echo "not authenticated"
  else
    '(vault, err) <- query (Memory.GetTerminalVault userID);;
    match err with
    | Some _ => sendError c echo "failed to load terminal vault"
    | None => match vault with
              | None => sendOk c echo (obj [("revision", jint 0)])
              | Some vault => sendOk c echo (vault_json vault)
              end
    end.

Definition handlePutTerminalVault (c : conn_id) (req : Request) : handler :=
  authenticated c req "invalid terminal vault params" (fun userID params =>
    let echo := req.(Request_Echo) in
    let payload := str params "payload" in
    if bool_decide (get_string params "payload" = None) || bool_decide (TrimSpace payload = "")
       || (maxTerminalVaultPayloadBytes <? slen payload)
    then sendError c echo "terminal vault payload must contain 1-4194304 bytes"
    else
      match get_float64 params "expected_revision" with
      | None => sendError c echo "terminal vault expected_revision is invalid"
      | Some expected =>
          let revision := int64_of_num expected in
          if num_ltb expected (num_of_Z 0) || negb (num_eqb expected (num_of_Z revision))
          then sendError c echo "terminal vault expected_revision is invalid"
          else
            '(vault, err) <- call_at (fun t => Memory.PutTerminalVault userID payload revision t);;
            match err with
            | Some err =>
                if bool_decide (err = ErrTerminalVaultConflict) then
                  sendJSON c (OutResponse (mkResponse "failed" 409
                    (obj [("revision", jint (from_option TerminalVault_Revision 0 vault))])
                    "terminal vault revision conflict" echo))
                else sendError c echo "failed to save terminal vault"
            | None => sendOk c echo (from_option vault_json JNull vault)
            end
      end).

Definition handleDeleteTerminalVault (c : conn_id) (req : Request) : handler :=
  userID <- client_userID c;;
  let echo := req.(Request_Echo) in
  if bool_decide (userID = "") then sendError c echo "not authenticated"
  else
    err <- call (Memory.DeleteTerminalVault userID);;
    match err with
    | Some _ => sendError c echo "failed to delete terminal vault"
    | None => sendOk c echo JNull
    end.

(** ** Heartbeats *)

Definition handlePing (c : conn_id) (req : Request) : handler :=
  id <- reads (fun w => (client_of w c).(Client_terminalSessionID));;
  (if bool_decide (id = "") then Ret tt
   else
     t <- now;;
     call (TouchTerminalSession id t);;
     Ret tt);;
  sendOk c req.(Request_Echo) (JStr "pong").
End accounts.
