(* ===== verification/GatewayMessages.v ===== *)
(** * Messages (gateway/gateway.go, group_announcements.go)

    Recall, reactions, read receipts, preferences, history, forwards, uploads,
    push notifications and group announcements. *)
From S2P Require Import Prelude GoLib Types DynamicContent Capabilities MemoryState.
From S2P Require Import MemoryAccounts MemoryMessages MemoryGroups Prog Gateway.
From S2P Require Import GatewayGroups Vault GatewayAccounts.
From stdpp Require Import gmap strings list.
From Stdlib Require Import ZArith.

Local Open Scope Z_scope.
Local Open Scope go_scope.

Definition reaction_json (r : Reaction) : json :=
  obj [("emoji_id", JStr r.(Reaction_EmojiID)); ("count", jint r.(Reaction_Count))].

Section messages.
Context `{Runtime}.

(** ** Reactions *)

Definition handleReactMessage (c : conn_id) (req : Request) : handler :=
  authenticated c req "invalid react_message params" (fun userID params =>
    let echo := req.(Request_Echo) in
    let messageID := TrimSpace (str params "message_id") in
    let emojiID := TrimSpace (str params "emoji_id") in
    let remove := default false (get_bool params "remove") in
    if bool_decide (messageID = "") then sendError c echo "message_id required"
    else if bool_decide (emojiID = "") || (32 <? Z.of_nat (length (runes emojiID)))
    then sendError c echo "emoji_id must contain 1-32 characters"
    else if existsb IsControl (runes emojiID)
    then sendError c echo "emoji_id contains invalid characters"
    else
      message <- query (GetMessage messageID);;
      match message with
      | Err _ => sendError c echo "failed to load message"
      | Ok None => sendError c echo "message not found"
      | Ok (Some message) =>
          let convID := message.(Message_ConversationID) in
          allowed <- canAccessConversation userID convID;;
          if negb allowed then sendError c echo "conversation access denied"
          else
            updated <- call (ReactToMessage messageID userID emojiID remove);;
            match updated with
            | Err err => sendError c echo ("failed to update reaction: " +:+ err)
            | Ok None => sendError c echo "message not found or recalled"
            | Ok (Some updated) =>
                mine <- query (GetMessageReactionIDs messageID userID);;
                match mine with
                | Err _ => sendError c echo "failed to load reaction state"
                | Ok mine =>
                    sendOk c echo (obj
                      [("message_id", JStr messageID); ("emoji_id", JStr emojiID);
                       ("removed", JBool remove);
                       ("reactions", JArr (reaction_json <$> updated.(Message_Reactions)));
                       ("my_reactions", jstrs mine)]);;
                    broadcastToConversation convID (OutNotice
                      ((notice "message_reaction") <| Notice_ConversationID := convID |>
                         <| Notice_MessageID := messageID |> <| Notice_UserID := userID |>
                         <| Notice_EmojiID := emojiID |> <| Notice_Removed := remove |>
                         <| Notice_Reactions := updated.(Message_Reactions) |>)) ""
                end
            end
      end).

(** ** Recall *)

Definition handleRecallMessage (c : conn_id) (req : Request) : handler :=
  authenticated c req "invalid params" (fun userID params =>
    let echo := req.(Request_Echo) in
    let msgID := str params "message_id" in
    if bool_decide (msgID = "") then sendError c echo "message_id required"
    else
      msg <- query (GetMessage msgID);;
      match msg with
      | Err _ => sendError c echo "failed to load message"
      | Ok None => sendError c echo "message not found"
      | Ok (Some msg) =>
          let convID := msg.(Message_ConversationID) in
          allowed <- canAccessConversation userID convID;;
          if negb allowed then sendError c echo "conversation access denied"
          else if msg.(Message_Recalled) then sendError c echo "message already recalled"
          else
            t <- now;;
            if 2 * minute <? t - msg.(Message_Timestamp)
            then sendError c echo "message can only be recalled within two minutes"
            else
              conversation <- query (GetConversation convID);;
              match conversation with
              | Ok (Some conversation) =>
                  let isGroup := bool_decide (conversation.(Conversation_Type) = "group") in
                  permitted <- (if bool_decide (msg.(Message_SenderID) = userID) then Ret true
                                else if isGroup then isGroupAdmin convID userID else Ret false);;
                  if negb permitted then sendError c echo "message recall permission denied"
                  else
                    recalled <- call (RecallMessage msgID);;
                    match recalled with
                    | Err _ => sendError c echo "failed to recall message"
                    | Ok false => sendError c echo "message not found"
                    | Ok true =>
                        sendOk c echo JNull;;
                        broadcastToConversation convID (OutNotice
                          ((notice (if isGroup then "group_recall" else "friend_recall"))
                             <| Notice_ConversationID := convID |> <| Notice_MessageID := msgID |>
                             <| Notice_UserID := msg.(Message_SenderID) |>
                             <| Notice_OperatorID := userID |>)) ""
                    end
              | _ => sendError c echo "failed to load conversation"
              end
      end).

(** ** Preferences and read receipts *)

Definition conversationNotificationLevel (preference : option ConversationPreference) : string :=
  match preference with
  | None => NotificationLevelNormal
  | Some p => NormalizeNotificationLevel p.(ConversationPreference_NotificationLevel)
                p.(ConversationPreference_IsMuted)
  end.

Definition preference_json (p : ConversationPreference) : json :=
  obj [("conversation_id", JStr p.(ConversationPreference_ConversationID));
       ("user_id", JStr p.(ConversationPreference_UserID));
       ("is_pinned", JBool p.(ConversationPreference_IsPinned));
       ("notification_level", JStr p.(ConversationPreference_NotificationLevel));
       ("is_muted", JBool p.(ConversationPreference_IsMuted));
       ("updated_at", jtime p.(ConversationPreference_UpdatedAt))].

Definition handleSetConversationPreferences (c : conn_id) (req : Request) : handler :=
  authenticated c req "invalid params" (fun userID params =>
    let echo := req.(Request_Echo) in
    let conversationID := str params "conversation_id" in
    let levelOK := get_string params "notification_level" in
    let mutedOK := get_bool params "is_muted" in
    match get_bool params "is_pinned" with
    | None => sendError c echo "conversation_id, is_pinned and notification_level required"
    | Some isPinned =>
        if bool_decide (conversationID = "")
           || (bool_decide (levelOK = None) && bool_decide (mutedOK = None))
        then sendError c echo "conversation_id, is_pinned and notification_level required"
        else if negb (from_option valid_notification_level true levelOK)
        then sendError c echo "invalid notification_level"
        else
          let level := NormalizeNotificationLevel (default "" levelOK) (default false mutedOK) in
          let isMuted := bool_decide (level = NotificationLevelMuted) in
          allowed <- canAccessConversation userID conversationID;;
          if negb allowed then sendError c echo "conversation access denied"
          else
            let preference :=
              mkConversationPreference conversationID userID isPinned level isMuted zero_time in
            done <- call_at (SetConversationPreference preference);;
            match done with
            | Err _ => sendError c echo "failed to save conversation preferences"
            | Ok _ =>
                sendOk c echo (preference_json preference);;
                sendToUser userID (OutNotice
                  ((notice "conversation_preferences") <| Notice_UserID := userID |>
                     <| Notice_ConversationID := conversationID |>
                     <| Notice_IsPinned := Some isPinned |> <| Notice_IsMuted := Some isMuted |>
                     <| Notice_NotificationLevel := level |>))
            end
    end).

Definition read_state_json (st : ReadState) : json :=
  obj ([("conversation_id", JStr st.(ReadState_ConversationID));
        ("user_id", JStr st.(ReadState_UserID)); ("read_at", jtime st.(ReadState_ReadAt))]
       ++ omit_str "last_read_message_id" st.(ReadState_LastReadMessageID)).

Definition handleMarkRead (c : conn_id) (req : Request) : handler :=
  authenticated c req "invalid params" (fun userID params =>
    let echo := req.(Request_Echo) in
    let conversationID := str params "conversation_id" in
    if bool_decide (conversationID = "") then sendError c echo "conversation_id required"
    else
      allowed <- canAccessConversation userID conversationID;;
      if negb allowed then sendError c echo "conversation access denied"
      else
        state <- call_at (MarkConversationRead conversationID userID);;
        match state with
        | Err _ => sendError c echo "failed to mark conversation read"
        | Ok state =>
            sendOk c echo (read_state_json state);;
            broadcastToConversation conversationID (OutNotice
              ((notice "message_read") <| Notice_UserID := userID |>
                 <| Notice_ConversationID := conversationID |>
                 <| Notice_LastReadMessageID := state.(ReadState_LastReadMessageID) |>
                 <| Notice_ReadAt := Unix state.(ReadState_ReadAt) |>)) userID
        end).

Definition hasReadMessage (state : option ReadState) (message : Message) : bool :=
  match state with
  | None => false
  | Some state =>
      After state.(ReadState_ReadAt) message.(Message_Timestamp)
      || Z.eqb state.(ReadState_ReadAt) message.(Message_Timestamp)
      || bool_decide (state.(ReadState_LastReadMessageID) = message.(Message_ID))
  end.

(** ** History *)

Definition sender_json (userID nickname avatar : string) : json :=
  obj [("user_id", JStr userID); ("nickname", JStr nickname); ("avatar_url", JStr avatar)].

Fixpoint message_list (caps : Capabilities) (userID : string) (recipients : list string)
    (states : gmap string ReadState) (msgs : list Message) : prog World (result (list json)) :=
  match msgs with
  | [] => Ret (Ok [])
  | msg :: msgs =>
      sender <- query (fun s => user_of s msg.(Message_SenderID));;
      let own := bool_decide (msg.(Message_SenderID) = userID) in
      let recipientCount := if own then length recipients else 0%nat in
      let readCount := if own
        then length (filter (fun r => hasReadMessage (states !! r) msg = true) recipients)
        else 0%nat in
      mine <- query (GetMessageReactionIDs msg.(Message_ID) userID);;
      match mine with
      | Err e => Ret (Err e)
      | Ok mine =>
          rest <- message_list caps userID recipients states msgs;;
          match rest with
          | Err e => Ret (Err e)
          | Ok rest =>
              Ret (Ok (obj
                [("message_id", JStr msg.(Message_ID));
                 ("conversation_id", JStr msg.(Message_ConversationID));
                 ("sender", sender_json msg.(Message_SenderID) msg.(Message_SenderNickname)
                              (from_option User_Avatar "" sender));
                 ("message", JArr (segment_json <$> clientMessageSegments caps msg.(Message_Segments)));
                 ("timestamp", jint (Unix msg.(Message_Timestamp)));
                 ("timestamp_ms", jint (UnixMilli msg.(Message_Timestamp)));
                 ("recalled", JBool msg.(Message_Recalled));
                 ("reactions", JArr (reaction_json <$> msg.(Message_Reactions)));
                 ("my_reactions", jstrs mine);
                 ("status", JStr (if (0 <? readCount)%nat then "read" else "sent"));
                 ("read_count", jint (Z.of_nat readCount));
                 ("recipient_count", jint (Z.of_nat recipientCount))] :: rest))
          end
      end
  end.

Definition handleGetMessages (c : conn_id) (req : Request) : handler :=
  authenticated c req "invalid params" (fun userID params =>
    let echo := req.(Request_Echo) in
    let convID := str params "conversation_id" in
    if bool_decide (convID = "") then sendError c echo "conversation_id required"
    else
      allowed <- canAccessConversation userID convID;;
      if negb allowed then sendError c echo "conversation access denied"
      else
        let limit := from_option int64_of_num 50 (get_float64 params "limit") in
        let limit := if limit <? 1 then 1 else if 100 <? limit then 100 else limit in
        msgs <- query (GetMessagesBefore convID (str params "before_message_id") limit);;
        match msgs with
        | Err _ => sendError c echo "failed to load messages"
        | Ok msgs =>
            states <- query (GetConversationReadStates convID);;
            match states with
            | Err _ => sendError c echo "failed to load read state"
            | Ok states =>
                let byUser := list_to_map ((fun st => (st.(ReadState_UserID), st)) <$> reverse states) in
                recipients <- conversationRecipients convID userID;;
                caps <- reads (fun w => (client_of w c).(Client_capabilities));;
                result <- message_list caps userID recipients byUser msgs;;
                match result with
                | Err _ => sendError c echo "failed to load reaction state"
                | Ok result => sendOk c echo (JArr result)
                end
            end
        end).

(** ** Forwards *)

(** the snapshots of the selected messages, or the refusal *)
Fixpoint forward_sources (userID : string) (ids : list json) (seen : gset string)
  : prog World (result (list Message)) :=
  match ids with
  | [] => Ret (Ok [])
  | rawID :: ids =>
      let refused := "message_ids contains an invalid or duplicate ID" in
      match as_string rawID with
      | None => Ret (Err refused)
      | Some messageID =>
          if bool_decide (TrimSpace messageID = "") || bool_decide (messageID ∈ seen)
          then Ret (Err refused)
          else
            message <- query (GetMessage messageID);;
            match message with
            | Ok (Some message) =>
                allowed <- (if message.(Message_Recalled) then Ret false
                            else canAccessConversation userID message.(Message_ConversationID));;
                if negb allowed then Ret (Err "forward source message is unavailable")
                else if negb (forallb (fun s => encodable (JObj s.(MessageSegment_Data)))
                                message.(Message_Segments))
                then Ret (Err "failed to copy forward source message")
                else
                  rest <- forward_sources userID ids ({[messageID]} ∪ seen);;
                  match rest with
                  | Err e => Ret (Err e)
                  | Ok rest => Ret (Ok (message :: rest))
                  end
            | _ => Ret (Err "forward source message is unavailable")
            end
      end
  end.

Definition handleCreateForward (c : conn_id) (req : Request) : handler :=
  authenticated c req "invalid create_forward params" (fun userID params =>
    let echo := req.(Request_Echo) in
    let conversationID := str params "conversation_id" in
    allowed <- (if bool_decide (conversationID = "") then Ret false
                else canAccessConversation userID conversationID);;
    if negb allowed then sendError c echo "conversation access denied"
    else
      match get_array params "message_ids" with
      | None => sendError c echo "message_ids must contain between 1 and 100 messages"
      | Some rawIDs =>
          if (Z.of_nat (length rawIDs) =? 0) || (100 <? Z.of_nat (length rawIDs))
          then sendError c echo "message_ids must contain between 1 and 100 messages"
          else
            sources <- forward_sources userID rawIDs ∅;;
            match sources with
            | Err err => sendError c echo err
            | Ok messages =>
                forward <- call_at2 (StoreForward conversationID messages);;
                match forward with
                | Err _ => sendError c echo "failed to create forward"
                | Ok forward =>
                    sendOk c echo (obj [("forward_id", JStr forward.(ForwardMessage_ID));
                                        ("count", jint (Z.of_nat (length messages)))])
                end
            end
      end).

Definition handleGetForwardMessage (c : conn_id) (req : Request) : handler :=
  authenticated c req "invalid params" (fun userID params =>
    let echo := req.(Request_Echo) in
    forward <- query (GetForward (str params "forward_id"));;
    match forward with
    | Ok (Some forward) =>
        let convID := forward.(ForwardMessage_ConversationID) in
        allowed <- (if bool_decide (convID = "") then Ret false
                    else canAccessConversation userID convID);;
        if negb allowed then sendError c echo "forward access denied"
        else
          caps <- reads (fun w => (client_of w c).(Client_capabilities));;
          sendOk c echo (JArr ((fun msg => obj
            [("message_id", JStr msg.(Message_ID));
             ("sender", obj [("user_id", JStr msg.(Message_SenderID));
                             ("nickname", JStr msg.(Message_SenderNickname))]);
             ("message", JArr (segment_json <$> clientMessageSegments caps msg.(Message_Segments)));
             ("timestamp", jint (Unix msg.(Message_Timestamp)));
             ("timestamp_ms", jint (UnixMilli msg.(Message_Timestamp)))])
            <$> forward.(ForwardMessage_Messages)))
    | _ => sendError c echo "forward not found"
    end).

(** ** Uploads *)

Definition handleUploadFile (media : media_uploader) (c : conn_id) (req : Request) : handler :=
  authenticated c req "invalid params" (fun userID params =>
    let echo := req.(Request_Echo) in
    let fileName := str params "file_name" in
    let fileData := str params "file" in
    let fileType := str params "file_type" in
    if bool_decide (fileName = "") || bool_decide (fileData = "")
    then sendError c echo "file_name and file required"
    else if negb (bool_decide (fileType = "image")) && negb (bool_decide (fileType = "voice"))
            && negb (bool_decide (fileType = "video")) && negb (bool_decide (fileType = "file"))
    then sendError c echo "invalid file_type"
    else
      match media with
      | None => sendError c echo "media storage is not configured"
      | Some save =>
          let maxBytes := if bool_decide (fileType = "voice") then 10 * 1024 * 1024
                          else 20 * 1024 * 1024 in
          if Z.quot (maxBytes * 4) 3 + 16 <? slen fileData
          then sendError c echo "file exceeds the size limit"
          else
            match base64_decode fileData with
            | None => sendError c echo "invalid base64 file data"
            | Some data =>
                if bool_decide (data = "") || (maxBytes <? slen data)
                then sendError c echo "file exceeds the size limit"
                else
                  saved <- save fileName fileType (str params "mime_type") data userID;;
                  match saved with
                  | Ok (Some file) =>
                      sendOk c echo (obj
                        [("file_id", JStr file.(MediaFile_ID)); ("url", JStr file.(MediaFile_URL));
                         ("thumbnail_url", JStr file.(MediaFile_ThumbnailURL));
                         ("mime_type", JStr file.(MediaFile_MimeType));
                         ("size", jint file.(MediaFile_Size)); ("width", jint file.(MediaFile_Width));
                         ("height", jint file.(MediaFile_Height))])
                  | _ => sendError c echo "failed to store file"
                  end
            end
      end).

(** ** Push notifications *)

Definition titled (label : string) (v : option string) : string :=
  match v with
  | Some t => if bool_decide (TrimSpace t = "") then label else label +:+ " " +:+ t
  | None => label
  end.

Definition push_text (segment : MessageSegment) : string :=
  let ty := segment.(MessageSegment_Type) in
  let data := segment.(MessageSegment_Data) in
  if bool_decide (ty = "text") then str data "text"
  else if bool_decide (ty = "image") then "[Image]"
  else if bool_decide (ty = "record") then "[Voice message]"
  else if bool_decide (ty = "video") then "[Video]"
  else if bool_decide (ty = "file") then "[File]"
  else if bool_decide (ty = "sticker") then "[Sticker]"
  else if bool_decide (ty = "share") then titled "[Link]" (get_string data "title")
  else if bool_decide (ty = "location") then titled "[Location]" (get_string data "name")
  else if bool_decide (ty = "forward") then "[Chat records]"
  else if bool_decide (ty = "poke") then "[Poke]"
  else if bool_decide (ty = "system") then default "[System message]" (get_string data "text")
  else if bool_decide (ty = "terminal_request") then "[Terminal approval request]"
  else if bool_decide (ty = "terminal_result") then "[Terminal operation result]"
  else if bool_decide (ty = "dynamic_content") then "[Interactive content]"
  else "".

Definition pushBody (segments : list MessageSegment) : string :=
  let result := TrimSpace (foldr (fun s acc => push_text s +:+ acc) "" segments) in
  if bool_decide (result = "") then "New message"
  else
    let rs := runes result in
    if 160 <? Z.of_nat (length rs) then of_runes (take 160 rs) +:+ "..." else result.

Definition messageMentionsUser (segments : list MessageSegment) (userID : string) : bool :=
  existsb (fun s => bool_decide (s.(MessageSegment_Type) = "at")
    && existsb (fun key => let target := str s.(MessageSegment_Data) key in
                           bool_decide (target = userID) || bool_decide (target = "all"))
         ["qq"; "user_id"; "target_id"]) segments.

Definition pushToConversation (convID : string) (message : Message) (excludeUserID : string)
    (important : bool) : handler :=
  enabled <- reads pushEnabled;;
  if negb enabled then Ret tt
  else
    recipients <- conversationRecipients convID excludeUserID;;
    match recipients with
    | [] => Ret tt
    | _ =>
        let payload := obj [("title", JStr message.(Message_SenderNickname));
                            ("body", JStr (pushBody message.(Message_Segments)));
                            ("conversation_id", JStr message.(Message_ConversationID));
                            ("message_id", JStr message.(Message_ID))] in
        writes (fun w => w <| push_jobs ::= fun js =>
          js ++ [PushToConversation convID recipients message important payload] |>)
    end.

(** The sender the gateway was given: whether the subscription has expired. *)
Section push_sender.
Context (send : PushSubscription -> json -> bool).

Definition push_to_subscriptions (userID : string) (payload : json) : handler :=
  subscriptions <- query (GetPushSubscriptions userID);;
  match subscriptions with
  | Err _ => Ret tt
  | Ok subscriptions =>
      for_each subscriptions (fun subscription =>
        if send subscription payload
        then call (DeletePushSubscription userID subscription.(PushSubscription_Endpoint));; Ret tt
        else Ret tt)
  end.

(** the goroutine a job stands for *)
Definition run_push_job (job : push_job) : handler :=
  match job with
  | PushToUser userID payload => push_to_subscriptions userID payload
  | PushToConversation convID recipients message important payload =>
      for_each recipients (fun userID =>
        preference <- query (GetConversationPreference convID userID);;
        match preference with
        | Err _ => Ret tt
        | Ok preference =>
            let level := conversationNotificationLevel preference in
            if bool_decide (level = NotificationLevelMuted)
               || (bool_decide (level = NotificationLevelMentionsOnly) && negb important
                   && negb (messageMentionsUser message.(Message_Segments) userID))
            then Ret tt
            else push_to_subscriptions userID payload
        end)
  end.
End push_sender.

Definition handleRegisterPush (c : conn_id) (req : Request) : handler :=
  userID <- client_userID c;;
  let echo := req.(Request_Echo) in
  if bool_decide (userID = "") then sendError c echo "not authenticated"
  else
    enabled <- reads pushEnabled;;
    if negb enabled then sendError c echo "web push is not configured"
    else
      match as_object req.(Request_Params) with
      | None => sendError c echo "invalid push subscription"
      | Some params =>
          let endpoint := str params "endpoint" in
          let keys := default ∅ (get_object params "keys") in
          let p256dh := str keys "p256dh" in
          let auth := str keys "auth" in
          if bool_decide (endpoint = "") || bool_decide (p256dh = "") || bool_decide (auth = "")
          then sendError c echo "endpoint, keys.p256dh, and keys.auth are required"
          else
            done <- call_at (UpsertPushSubscription
                      (mkPushSubscription userID endpoint p256dh auth zero_time zero_time));;
            match done with
            | Err _ => sendError c echo "failed to save push subscription"
            | Ok _ => sendOk c echo JNull
            end
      end.

Definition handleUnregisterPush (c : conn_id) (req : Request) : handler :=
  authenticated c req "invalid unregister_push params" (fun userID params =>
    let echo := req.(Request_Echo) in
    let endpoint := str params "endpoint" in
    if bool_decide (endpoint = "") then sendError c echo "endpoint required"
    else
      done <- call (DeletePushSubscription userID endpoint);;
      match done with
      | Err _ => sendError c echo "failed to delete push subscription"
      | Ok _ => sendOk c echo JNull
      end).

(** ** Group announcements *)

(** the group, when the caller may read (or manage) its announcements *)
Definition groupAnnouncementTarget (c : conn_id) (req : Request) (requireManager : bool)
    (k : string -> jmap -> string -> handler) : handler :=
  authenticated c req "invalid group announcement params" (fun userID params =>
    let echo := req.(Request_Echo) in
    let groupID := str params "group_id" in
    member <- query (IsGroupMember groupID userID);;
    if bool_decide (groupID = "") || negb (bool_decide (member = Ok true))
    then sendError c echo "group access denied"
    else
      permitted <- (if requireManager then isGroupAdmin groupID userID else Ret true);;
      if negb permitted then sendError c echo "group permission denied"
      else k userID params groupID).

Definition groupAnnouncementByID (c : conn_id) (req : Request) (requireManager : bool)
    (k : string -> jmap -> GroupAnnouncement -> handler) : handler :=
  authenticated c req "invalid group announcement params" (fun userID params =>
    let echo := req.(Request_Echo) in
    let id := str params "announcement_id" in
    announcement <- query (GetGroupAnnouncement id);;
    match announcement with
    | Ok (Some announcement) =>
        if bool_decide (id = "") then sendError c echo "group announcement not found"
        else
          let groupID := announcement.(GroupAnnouncement_GroupID) in
          member <- query (IsGroupMember groupID userID);;
          if negb (bool_decide (member = Ok true)) then sendError c echo "group access denied"
          else
            permitted <- (if requireManager then isGroupAdmin groupID userID else Ret true);;
            if negb permitted then sendError c echo "group permission denied"
            else k userID params announcement
    | _ => sendError c echo "group announcement not found"
    end).

Definition announcement_json (a : GroupAnnouncement) : json :=
  obj [("announcement_id", JStr a.(GroupAnnouncement_ID));
       ("group_id", JStr a.(GroupAnnouncement_GroupID));
       ("content", JStr a.(GroupAnnouncement_Content));
       ("author_id", JStr a.(GroupAnnouncement_AuthorID));
       ("is_pinned", JBool a.(GroupAnnouncement_IsPinned));
       ("is_read", JBool a.(GroupAnnouncement_IsRead));
       ("created_at", jtime a.(GroupAnnouncement_CreatedAt));
       ("updated_at", jtime a.(GroupAnnouncement_UpdatedAt))].

Definition handleGetGroupAnnouncements (c : conn_id) (req : Request) : handler :=
  groupAnnouncementTarget c req false (fun userID params groupID =>
    announcements <- query (GetGroupAnnouncements groupID userID);;
    match announcements with
    | Err _ => sendError c req.(Request_Echo) "failed to load group announcements"
    | Ok l => sendOk c req.(Request_Echo) (JArr (announcement_json <$> l))
    end).

(** the first announcement is mirrored in the group's own field *)
Definition syncLegacyGroupAnnouncement (groupID : string) : handler :=
  group <- query (GetGroup groupID);;
  match group with
  | Ok (Some group) =>
      announcements <- query (GetGroupAnnouncements groupID "");;
      match announcements with
      | Err _ => Ret tt
      | Ok l =>
          let content := match l with a :: _ => a.(GroupAnnouncement_Content) | [] => "" end in
          call (UpdateGroup groupID group.(Group_Name) group.(Group_Avatar) content
                  group.(Group_MuteAll));;
          Ret tt
      end
  | _ => Ret tt
  end.

Definition broadcastGroupAnnouncementNotice (groupID announcementID operatorID action : string)
  : handler :=
  broadcastToConversation groupID (OutNotice
    ((notice "group_announcement") <| Notice_GroupID := groupID |>
       <| Notice_AnnouncementID := announcementID |> <| Notice_OperatorID := operatorID |>
       <| Notice_Action := action |>)) "".

Definition publishGroupAnnouncement (authorID : string) (announcement : GroupAnnouncement)
  : handler :=
  user <- query (fun s => user_of s authorID);;
  let nickname := from_option User_Nickname authorID user in
  let avatar := from_option User_Avatar "" user in
  let groupID := announcement.(GroupAnnouncement_GroupID) in
  let id := announcement.(GroupAnnouncement_ID) in
  let segments := [mkMessageSegment "system" (list_to_map
    [("text", JStr ("Group announcement: " +:+ announcement.(GroupAnnouncement_Content)));
     ("event", JStr "group_announcement"); ("announcement_id", JStr id)])] in
  message <- call_at (StoreMessage groupID authorID nickname segments);;
  match message with
  | Err _ => Ret tt
  | Ok message =>
      broadcastToConversation groupID (OutMessage (mkMessageEvent "group" message.(Message_ID)
        groupID (obj ([("user_id", JStr authorID); ("nickname", JStr nickname)]
                      ++ omit_str "avatar_url" avatar))
        segments [] (Unix message.(Message_Timestamp)) (UnixMilli message.(Message_Timestamp))
        false false false)) "";;
      pushToConversation groupID message authorID true
  end;;
  broadcastGroupAnnouncementNotice groupID id authorID "created".

(** the announcement text, when it is acceptable *)
Definition announcement_params (params : jmap) : option (string * bool) :=
  match get_string params "content", get_bool params "is_pinned" with
  | Some content, Some isPinned =>
      let content := TrimSpace content in
      if bool_decide (content = "") || (2000 <? slen content) then None
      else Some (content, isPinned)
  | _, _ => None
  end.

Definition handleCreateGroupAnnouncement (c : conn_id) (req : Request) : handler :=
  groupAnnouncementTarget c req true (fun userID params groupID =>
    let echo := req.(Request_Echo) in
    match announcement_params params with
    | None => sendError c echo "announcement content must be 1-2000 characters"
    | Some (content, isPinned) =>
        created <- call_at (CreateGroupAnnouncement groupID content userID isPinned);;
        match created with
        | Err _ => sendError c echo "failed to create group announcement"
        | Ok announcement =>
            call (MarkGroupAnnouncementRead announcement.(GroupAnnouncement_ID) userID);;
            let announcement := announcement <| GroupAnnouncement_IsRead := true |> in
            syncLegacyGroupAnnouncement groupID;;
            sendOk c echo (announcement_json announcement);;
            publishGroupAnnouncement userID announcement
        end
    end).

Definition handleUpdateGroupAnnouncement (c : conn_id) (req : Request) : handler :=
  groupAnnouncementByID c req true (fun userID params announcement =>
    let echo := req.(Request_Echo) in
    match announcement_params params with
    | None => sendError c echo "announcement content must be 1-2000 characters"
    | Some (content, isPinned) =>
        updated <- call_at (UpdateGroupAnnouncement announcement.(GroupAnnouncement_ID) content
                              isPinned);;
        match updated with
        | Ok (Some updated) =>
            let updated := updated <| GroupAnnouncement_IsRead := true |> in
            call (MarkGroupAnnouncementRead updated.(GroupAnnouncement_ID) userID);;
            syncLegacyGroupAnnouncement updated.(GroupAnnouncement_GroupID);;
            sendOk c echo (announcement_json updated);;
            broadcastGroupAnnouncementNotice updated.(GroupAnnouncement_GroupID)
              updated.(GroupAnnouncement_ID) userID "updated"
        | _ => sendError c echo "failed to update group announcement"
        end
    end).

Definition handleDeleteGroupAnnouncement (c : conn_id) (req : Request) : handler :=
  groupAnnouncementByID c req true (fun userID params announcement =>
    let echo := req.(Request_Echo) in
    deleted <- call (DeleteGroupAnnouncement announcement.(GroupAnnouncement_ID));;
    if negb (bool_decide (deleted = Ok true))
    then sendError c echo "failed to delete group announcement"
    else
      syncLegacyGroupAnnouncement announcement.(GroupAnnouncement_GroupID);;
      sendOk c echo JNull;;
      broadcastGroupAnnouncementNotice announcement.(GroupAnnouncement_GroupID)
        announcement.(GroupAnnouncement_ID) userID "deleted").

Definition handleMarkGroupAnnouncementRead (c : conn_id) (req : Request) : handler :=
  groupAnnouncementByID c req false (fun userID params announcement =>
    let echo := req.(Request_Echo) in
    done <- call (MarkGroupAnnouncementRead announcement.(GroupAnnouncement_ID) userID);;
    match done with
    | Err _ => sendError c echo "failed to mark group announcement read"
    | Ok _ =>
        sendOk c echo JNull;;
        sendToUser userID (OutNotice
          ((notice "group_announcement")
             <| Notice_GroupID := announcement.(GroupAnnouncement_GroupID) |>
             <| Notice_AnnouncementID := announcement.(GroupAnnouncement_ID) |>
             <| Notice_OperatorID := userID |> <| Notice_Action := "read" |>))
    end).
End messages.
