(* ===== verification/GatewayReads.v ===== *)
(** * Listings (gateway/gateway.go)

    The requests that only read: conversation list, users, friends, search, friend
    requests, groups and the push configuration. *)
From S2P Require Import Prelude GoLib Types DynamicContent Capabilities MemoryState.
From S2P Require Import MemoryAccounts MemoryMessages MemoryGroups Prog Gateway.
From S2P Require Import GatewayGroups Vault GatewayAccounts GatewayMessages.
From stdpp Require Import gmap strings list.
From Stdlib Require Import ZArith.

Local Open Scope Z_scope.
Local Open Scope go_scope.

(** protocol.User with the fields a listing fills; the others are at their zero value *)
Definition listed_user (u : User) (relationship : string) : json :=
  obj (omit_str "user_id" u.(User_ID) ++ [("nickname", JStr u.(User_Nickname))]
       ++ omit_str "avatar_url" u.(User_Avatar)
       ++ [("card_background_sensitive", JBool false); ("show_mutual_groups", JBool false);
           ("show_account_id", JBool false); ("online", JBool u.(User_Online))]
       ++ omit_str "relationship" relationship).

(** a handler that needs a logged-in user and no parameters *)
Definition logged_in `{Runtime} (c : conn_id) (req : Request) (k : string -> handler) : handler :=
  userID <- client_userID c;;
  if bool_decide (userID = "") then sendError c req.(Request_Echo) "not authenticated"
  else k userID.

Section reads.
Context `{Runtime}.

(** ** Conversations *)

(** the title and avatar shown to [userID]: those of the other participant of a
    private conversation *)
Definition shown_as (userID : string) (conv : Conversation) : prog World (string * string) :=
  let own := (conv.(Conversation_Title), conv.(Conversation_Avatar)) in
  if bool_decide (conv.(Conversation_Type) = "private") then
    match find_first (fun p => negb (bool_decide (p = userID))) conv.(Conversation_Participants) with
    | None => Ret own
    | Some participantID =>
        peer <- query (fun s => user_of s participantID);;
        Ret (match peer with
             | Some peer => (peer.(User_Nickname), peer.(User_Avatar))
             | None => own
             end)
    end
  else Ret own.

Definition last_text (msg : Message) : string :=
  match msg.(Message_Segments) with
  | seg :: _ => if bool_decide (seg.(MessageSegment_Type) = "text")
                then str seg.(MessageSegment_Data) "text" else ""
  | [] => ""
  end.

Fixpoint conversation_list (userID : string) (convs : list Conversation)
  : prog World (result (list json)) :=
  match convs with
  | [] => Ret (Ok [])
  | conv :: convs =>
      let id := conv.(Conversation_ID) in
      accessible <- canAccessConversation userID id;;
      if negb accessible then conversation_list userID convs
      else
        '(title, avatar) <- shown_as userID conv;;
        msgs <- query (GetMessages id 1);;
        match msgs with
        | Err _ => Ret (Err "failed to load conversations")
        | Ok msgs =>
            unread <- query (CountUnreadMessages id userID);;
            match unread with
            | Err _ => Ret (Err "failed to load unread count")
            | Ok unreadCount =>
                preference <- query (GetConversationPreference id userID);;
                match preference with
                | Err _ => Ret (Err "failed to load conversation preferences")
                | Ok preference =>
                    rest <- conversation_list userID convs;;
                    Ret (match rest with
                         | Err e => Err e
                         | Ok rest => Ok (obj
                             ([("conversation_id", JStr id); ("type", JStr conv.(Conversation_Type));
                               ("title", JStr title); ("unread_count", jint unreadCount);
                               ("is_pinned", JBool (from_option ConversationPreference_IsPinned false
                                                      preference));
                               ("is_muted", JBool (from_option ConversationPreference_IsMuted false
                                                     preference));
                               ("notification_level",
                                JStr (conversationNotificationLevel preference));
                               ("last_timestamp", jint (match msgs with
                                  m :: _ => Unix m.(Message_Timestamp) | [] => 0 end));
                               ("last_timestamp_ms", jint (match msgs with
                                  m :: _ => UnixMilli m.(Message_Timestamp) | [] => 0 end))]
                              ++ omit_str "avatar_url" avatar
                              ++ omit_str "last_message" (match msgs with
                                   m :: _ => last_text m | [] => "" end)
                              ++ omit_list "participants" (JStr <$> conv.(Conversation_Participants)))
                             :: rest)
                         end)
                end
            end
        end
  end.

Definition handleGetConversations (c : conn_id) (req : Request) : handler :=
  logged_in c req (fun userID =>
    convs <- query (GetUserConversations userID);;
    match convs with
    | Err _ => sendError c req.(Request_Echo) "failed to load conversations"
    | Ok convs =>
        result <- conversation_list userID convs;;
        match result with
        | Err e => sendError c req.(Request_Echo) e
        | Ok result => sendOk c req.(Request_Echo) (JArr result)
        end
    end).

(** ** Users and friends *)

Definition handleGetUser (c : conn_id) (req : Request) : handler :=
  authenticated c req "invalid params" (fun viewerID params =>
    let userID := str params "user_id" in
    user <- query (GetUser userID);;
    match user with
    | Ok (Some p) =>
        let groupID := str params "group_id" in
        shared <- (if bool_decide (groupID = "") then Ret false
                   else
                     viewerMember <- query (IsGroupMember groupID viewerID);;
                     targetMember <- query (IsGroupMember groupID userID);;
                     Ret (bool_decide (viewerMember = Ok true) && bool_decide (targetMember = Ok true)));;
        data <- profileUser viewerID p (if shared : bool then groupID else "");;
        sendOk c req.(Request_Echo) data
    | _ => sendError c req.(Request_Echo) "user not found"
    end).

Definition handleGetUsers (c : conn_id) (req : Request) : handler :=
  logged_in c req (fun userID =>
    users <- query (GetFriends userID);;
    sendOk c req.(Request_Echo)
      (JArr ((fun u => listed_user u "") <$> (match users with Ok l => l | Err _ => [] end)))).

Definition handleGetFriends (c : conn_id) (req : Request) : handler :=
  logged_in c req (fun userID =>
    users <- query (GetFriends userID);;
    sendOk c req.(Request_Echo)
      (JArr ((fun u => listed_user u "")
             <$> filter (fun u => u.(User_ID) <> userID)
                   (match users with Ok l => l | Err _ => [] end)))).

Definition pending_relationship (userID otherID : string) (requests : list FriendRequest) : string :=
  match find_first (concerns userID otherID) requests with
  | None => "none"
  | Some pending => if bool_decide (pending.(FriendRequest_FromID) = userID)
                       && bool_decide (pending.(FriendRequest_ToID) = otherID)
                    then "outgoing" else "incoming"
  end.

Section search.

Fixpoint search_matches (userID query' : string) (requests : list FriendRequest)
    (users : list ptr) : prog World (list (User * string)) :=
  match users with
  | [] => Ret []
  | p :: users =>
      user <- read_user p;;
      if bool_decide (user.(User_ID) = userID)
         || (negb (Contains (to_lower user.(User_ID)) query')
             && negb (Contains (to_lower user.(User_Nickname)) query'))
      then search_matches userID query' requests users
      else
        friends <- query (AreFriends userID user.(User_ID));;
        rest <- search_matches userID query' requests users;;
        Ret ((user, if bool_decide (friends = Ok true) then "friend"
                    else pending_relationship userID user.(User_ID) requests) :: rest)
  end.

Definition search_before (query' : string) (a b : User * string) : bool :=
  let aExact := bool_decide (to_lower a.1.(User_ID) = query') in
  let bExact := bool_decide (to_lower b.1.(User_ID) = query') in
  if negb (Bool.eqb aExact bExact) then aExact
  else String.ltb (to_lower a.1.(User_Nickname)) (to_lower b.1.(User_Nickname)).

Definition handleSearchUsers (c : conn_id) (req : Request) : handler :=
  authenticated c req "invalid search_users params" (fun userID params =>
    let echo := req.(Request_Echo) in
    let query' := to_lower (TrimSpace (str params "query")) in
    if bool_decide (query' = "") || (64 <? slen query')
    then sendError c echo "query must be 1-64 characters"
    else
      requests <- query (GetPendingFriendRequests userID);;
      users <- query GetUsers;;
      match users with
      | Err _ => sendError c echo "failed to search users"
      | Ok users =>
          matches <- search_matches userID query'
                       (match requests with Ok l => l | Err _ => [] end) users;;
          sendOk c echo (JArr ((fun '(u, r) => listed_user u r)
                               <$> take 20 (sort_slice (search_before query') matches)))
      end).
End search.

Fixpoint friend_request_list (requests : list FriendRequest) : prog World (list json) :=
  match requests with
  | [] => Ret []
  | friendRequest :: requests =>
      from <- query (fun s => user_of s friendRequest.(FriendRequest_FromID));;
      to <- query (fun s => user_of s friendRequest.(FriendRequest_ToID));;
      rest <- friend_request_list requests;;
      Ret (match from, to with
           | Some from, Some to =>
               obj ([("flag", JStr friendRequest.(FriendRequest_ID));
                     ("from_user", listed_user from ""); ("to_user", listed_user to "");
                     ("status", JStr friendRequest.(FriendRequest_Status));
                     ("created_at", jint (Unix friendRequest.(FriendRequest_CreatedAt)))]
                    ++ omit_str "comment" friendRequest.(FriendRequest_Comment)) :: rest
           | _, _ => rest
           end)
  end.

Definition handleGetFriendRequests (c : conn_id) (req : Request) : handler :=
  logged_in c req (fun userID =>
    requests <- query (GetPendingFriendRequests userID);;
    match requests with
    | Err _ => sendError c req.(Request_Echo) "failed to load friend requests"
    | Ok requests =>
        result <- friend_request_list requests;;
        sendOk c req.(Request_Echo) (JArr result)
    end).

(** ** Groups *)

Fixpoint group_list (groups : list Group) : prog World (list json) :=
  match groups with
  | [] => Ret []
  | grp :: groups =>
      memberCount <- (match grp.(Group_Members) with
                      | [] =>
                          members <- query (GetGroupMembers grp.(Group_ID));;
                          Ret (match members with Ok ms => Z.of_nat (length ms) | Err _ => 0 end)
                      | ms => Ret (Z.of_nat (length ms))
                      end);;
      rest <- group_list groups;;
      Ret (obj ([("group_id", JStr grp.(Group_ID)); ("name", JStr grp.(Group_Name));
                 ("owner_id", JStr grp.(Group_OwnerID)); ("member_count", jint memberCount);
                 ("mute_all", JBool grp.(Group_MuteAll))]
                ++ omit_str "avatar_url" grp.(Group_Avatar)
                ++ omit_str "announcement" grp.(Group_Announcement)) :: rest)
  end.

Definition handleGetGroupList (c : conn_id) (req : Request) : handler :=
  logged_in c req (fun userID =>
    groups <- query (GetUserGroups userID);;
    result <- group_list (match groups with Ok l => l | Err _ => [] end);;
    sendOk c req.(Request_Echo) (JArr result)).

Fixpoint member_list (members : list GroupMember) : prog World (list json) :=
  match members with
  | [] => Ret []
  | m :: members =>
      user <- query (fun s => user_of s m.(GroupMember_UserID));;
      rest <- member_list members;;
      Ret (obj ([("user_id", JStr m.(GroupMember_UserID));
                 ("nickname", JStr (from_option User_Nickname m.(GroupMember_UserID) user));
                 ("role", JStr m.(GroupMember_Role))]
                ++ omit_str "avatar_url" (from_option User_Avatar "" user)
                ++ omit_int "joined_at" (Unix m.(GroupMember_JoinedAt))
                ++ omit_int "muted_until" (unixTimeOrZero m.(GroupMember_MutedUntil))) :: rest)
  end.

Definition handleGetGroupInfo (c : conn_id) (req : Request) : handler :=
  authenticated c req "invalid params" (fun userID params =>
    let echo := req.(Request_Echo) in
    let groupID := str params "group_id" in
    member <- query (IsGroupMember groupID userID);;
    if negb (bool_decide (member = Ok true)) then sendError c echo "group access denied"
    else
      group <- query (GetGroup groupID);;
      match group with
      | Ok (Some group) =>
          members <- query (GetGroupMembers groupID);;
          let members := match members with Ok l => l | Err _ => [] end in
          memberList <- member_list members;;
          sendOk c echo (obj
            [("group_id", JStr group.(Group_ID)); ("name", JStr group.(Group_Name));
             ("avatar_url", JStr group.(Group_Avatar));
             ("announcement", JStr group.(Group_Announcement));
             ("owner_id", JStr group.(Group_OwnerID)); ("mute_all", JBool group.(Group_MuteAll));
             ("member_count", jint (Z.of_nat (length members))); ("members", JArr memberList)])
      | _ => sendError c echo "group not found"
      end).

(** the public key is the push sender's *)
Definition handleGetPushConfig (publicKey : string) (c : conn_id) (req : Request) : handler :=
  logged_in c req (fun _ =>
    enabled <- reads pushEnabled;;
    sendOk c req.(Request_Echo)
      (obj [("enabled", JBool enabled);
            ("public_key", JStr (if enabled : bool then publicKey else ""))])).
End reads.
