(* ===== verification/GatewayEvents.v ===== *)
(** * Interactions with cards (gateway/gateway.go)

    [handleDynamicEvent] records an event of a card and writes the card's next state;
    [handleGetDynamicInteractions] reads the recorded events back, as far as the
    card's visibility allows.  The per-message mutex under which an event is handled
    is modelled by itself in [DynamicLock]. *)
From S2P Require Import Prelude GoLib Types DynamicContent Capabilities DynamicInteraction.
From S2P Require Import DynamicAction MemoryState MemoryAccounts MemoryMessages MemoryGroups.
From S2P Require Import Prog Gateway GatewayGroups Vault GatewayAccounts.
From stdpp Require Import gmap strings list.
From Stdlib Require Import ZArith.

Local Open Scope Z_scope.
Local Open Scope go_scope.

(** the nickname and avatar an event shows for its sender *)
Definition sender_of (userID : string) : prog World (string * string) :=
  user <- query (fun s => user_of s userID);;
  Ret (match user with
       | Some user => (user.(User_Nickname), user.(User_Avatar))
       | None => (userID, "")
       end).

Definition event_sender (userID nickname avatar : string) : json :=
  obj ([("user_id", JStr userID); ("nickname", JStr nickname)] ++ omit_str "avatar_url" avatar).

Definition dynamicInteractionTotal (conversationID : string) : prog World Z :=
  conversation <- query (GetConversation conversationID);;
  match conversation with
  | Ok (Some conversation) =>
      let of_participants :=
        if bool_decide (conversation.(Conversation_Participants) = []) then 1
        else Z.of_nat (length conversation.(Conversation_Participants)) in
      if bool_decide (conversation.(Conversation_Type) = "group") then
        members <- query (GetGroupMembers conversationID);;
        Ret (match members with
             | Ok (m :: ms) => Z.of_nat (length (m :: ms))
             | _ => of_participants
             end)
      else Ret of_participants
  | _ => Ret 1
  end.

Definition dynamicEventShouldRouteToFairy (config : dynamicInteractionConfig) (configured : bool)
    (reduction : dynamicInteractionReduction) : bool :=
  if negb configured then true
  else if bool_decide (config.(fairyRoute) = "each_event") then true
  else if bool_decide (config.(fairyRoute) = "on_close") then reduction.(red_closed)
  else if bool_decide (config.(fairyRoute) = "on_threshold")
  then (0 <? config.(fairyThreshold)) && (config.(fairyThreshold) <=? reduction.(red_responded))
  else false.

Section events.
Context `{Runtime}.

(** does a local agent own the card, does the assistant? *)
Definition dynamicEventTargetOwnership (message : Message) : bool * bool :=
  foldl (fun acc segment =>
    let data := segment.(MessageSegment_Data) in
    if bool_decide (segment.(MessageSegment_Type) = "agent_route")
    then (acc.1 || bool_decide (str data "route" = "local"), acc.2)
    else if bool_decide (segment.(MessageSegment_Type) = "dynamic_content") then
      match dynamicSchemaFromData data with
      | Err _ => acc
      | Ok schema => (acc.1, acc.2 || bool_decide (str schema "source" = "ai")
                             || bool_decide (str schema "source" = "plugin"))
      end
    else acc) (false, bool_decide (message.(Message_SenderID) = "fairy")) message.(Message_Segments).

(** the event as it is recorded *)
Definition event_candidate (conversationID userID nickname : string) (data : jmap) (t : time)
  : DynamicInteractionEvent :=
  let text key := sprint "%v" "<nil>" (data !! key) in
  mkDynamicInteractionEvent (dynamicInteractionEventID conversationID userID data) conversationID
    (str data "message_id") (str data "content_id") (text "node_id") (text "event") (text "action")
    (Some (cloneDynamicMap (default ∅ (get_object data "payload")))) userID nickname
    (if bool_decide (userID = "fairy") then "agent" else "user") t.

Definition event_response (event : DynamicInteractionEvent) (duplicate : bool)
    (state : list (string * json)) : json :=
  obj ([("message_id", JStr event.(DynamicInteractionEvent_MessageID));
        ("content_id", JStr event.(DynamicInteractionEvent_ContentID));
        ("event_id", JStr event.(DynamicInteractionEvent_EventID));
        ("dispatched", JBool true); ("duplicate", JBool duplicate)] ++ state).

(** what the event makes of the card: its segments, the replacement, the reduction,
    whether it changed; with the stored segments as they were changed in place *)
Definition project_event (config : dynamicInteractionConfig) (configured : bool) (target : Message)
    (candidate : DynamicInteractionEvent) (payload : option jmap)
    (events : list DynamicInteractionEvent) (total : Z) (t : time)
  : result interaction_outcome * option (list MessageSegment) :=
  let contentID := candidate.(DynamicInteractionEvent_ContentID) in
  let '(outcome, in_place) :=
    if configured then applyDynamicInteraction target contentID events total t
    else (Ok (target.(Message_Segments), no_segment, no_reduction, false), None) in
  match outcome with
  | Err _ => (Err "failed to update interaction state", in_place)
  | Ok (segments, replacement, reduction, changed) =>
      if negb configured || bool_decide (config.(reducer) = "none") then
        (match applyDynamicActionProjection target contentID
                 candidate.(DynamicInteractionEvent_Event)
                 candidate.(DynamicInteractionEvent_Action) payload with
         | Err _ => Err "failed to update dynamic action state"
         | Ok (next, next_replacement, true) => Ok (next, next_replacement, reduction, true)
         | Ok (_, _, false) => Ok (segments, replacement, reduction, changed)
         end, in_place)
      else (outcome, in_place)
  end.

(** the answer and the broadcasts of an event that was recorded *)
Definition announce_event (c : conn_id) (echo userID nickname avatar conversationType : string)
    (candidate : DynamicInteractionEvent) (target : Message) (segment replacement : MessageSegment)
    (reduction : dynamicInteractionReduction) (fairyRouted stateChanged : bool) : handler :=
  let conversationID := candidate.(DynamicInteractionEvent_ConversationID) in
  let t := candidate.(DynamicInteractionEvent_CreatedAt) in
  let '(localAgent, fairyOwned) := dynamicEventTargetOwnership target in
  let sender := event_sender userID nickname avatar in
  sendOk c echo (event_response candidate false
                   [("state", from_option JObj JNull reduction.(red_state))]);;
  broadcastToConversationExceptClient conversationID (OutMessage (mkMessageEvent conversationType
    candidate.(DynamicInteractionEvent_MessageID) conversationID sender [segment] []
    (Unix t) (UnixMilli t) localAgent (fairyOwned && fairyRouted) false)) c;;
  if stateChanged then
    broadcastToConversation conversationID (OutMessage (mkMessageEvent conversationType
      target.(Message_ID) conversationID sender [replacement] [] (Unix t) (UnixMilli t)
      false false false)) ""
  else Ret tt.

(** the part after the event is known to be new *)
Definition apply_event (c : conn_id) (echo userID nickname avatar conversationType : string)
    (config : dynamicInteractionConfig) (configured : bool) (target : Message)
    (candidate : DynamicInteractionEvent) (segment : MessageSegment)
    (events : list DynamicInteractionEvent) : handler :=
  let conversationID := candidate.(DynamicInteractionEvent_ConversationID) in
  let t := candidate.(DynamicInteractionEvent_CreatedAt) in
  groupRole <- (if bool_decide (conversationType = "group")
                then groupMemberRole conversationID userID else Ret "");;
  match validateDynamicInteractionPolicy config configured events candidate groupRole
          (bool_decide (target.(Message_SenderID) = userID)) t with
  | Err err => sendError c echo err
  | Ok _ =>
      total <- (if configured then dynamicInteractionTotal conversationID else Ret 1);;
      let '(outcome, in_place) :=
        project_event config configured target candidate
          (get_object segment.(MessageSegment_Data) "payload")
          (sortedDynamicInteractionEvents (events ++ [candidate])) total t in
      (match in_place with
       | Some segments => call (UpdateMessageSegments target.(Message_ID) segments);; Ret tt
       | None => Ret tt
       end);;
      match outcome with
      | Err err => sendError c echo err
      | Ok (updatedSegments, replacement, reduction, stateChanged) =>
          stored <- call (CommitDynamicInteractionEvent candidate updatedSegments t);;
          match stored with
          | Err err =>
              sendError c echo (if bool_decide (err = ErrDynamicInteractionIdempotencyConflict)
                then "dynamic event_id was already used for a different event"
                else "failed to commit dynamic interaction")
          | Ok true =>
              sendOk c echo (event_response candidate true
                               [("state", from_option JObj JNull reduction.(red_state))])
          | Ok false =>
              announce_event c echo userID nickname avatar conversationType candidate target segment
                replacement reduction (dynamicEventShouldRouteToFairy config configured reduction)
                stateChanged
          end
      end
  end.

(** the message an event is for: the refusal, or the message with its configuration *)
Definition event_target (conversationID : string) (data : jmap) (target : result (option Message))
  : result (Message * dynamicInteractionConfig * bool) :=
  match target with
  | Ok (Some target) =>
      if negb (bool_decide (target.(Message_ConversationID) = conversationID))
      then Err "dynamic event target belongs to another conversation"
      else if target.(Message_Recalled) then Err "cannot interact with a recalled message"
      else
        match validateDynamicEventTarget target.(Message_Segments) data with
        | Err e => Err e
        | Ok _ =>
            match dynamicInteractionSchema target (str data "content_id") with
            | Err e => Err e
            | Ok (_, config, configured) => Ok (target, config, configured)
            end
        end
  | _ => Err "dynamic event target message not found"
  end.

Definition handleDynamicEvent (c : conn_id) (echo userID conversationID conversationType : string)
    (segment : MessageSegment) : handler :=
  let data := segment.(MessageSegment_Data) in
  let messageID := str data "message_id" in
  let contentID := str data "content_id" in
  if bool_decide (messageID = "") || bool_decide (contentID = "")
  then sendError c echo "dynamic event message_id and content_id are required"
  else
    target <- query (GetMessage messageID);;
    match event_target conversationID data target with
    | Err err => sendError c echo err
    | Ok (target, config, configured) =>
        t <- now;;
        '(nickname, avatar) <- sender_of userID;;
        let candidate := event_candidate conversationID userID nickname data t in
        events <- query (GetDynamicInteractionEvents conversationID messageID contentID
                           maxDynamicInteractionEvents);;
        match events with
        | Err _ => sendError c echo "failed to load dynamic interaction state"
        | Ok events =>
            match existingDynamicInteractionEvent events userID
                    candidate.(DynamicInteractionEvent_EventID) with
            | Some existing =>
                if sameDynamicInteractionEvent existing candidate
                then sendOk c echo (event_response candidate true [])
                else sendError c echo "dynamic event_id was already used for a different event"
            | None =>
                apply_event c echo userID nickname avatar conversationType config configured target
                  candidate segment events
            end
        end
    end.

(** ** Reading the events back *)

(** may the reader see who responded, and what? *)
Definition detail_allowed (config : dynamicInteractionConfig) (role userID : string)
    (target : Message) : bool :=
  bool_decide (config.(visibility) = "public_detail")
  || (bool_decide (config.(visibility) = "admin_detail")
      && (bool_decide (role = "owner") || bool_decide (role = "admin")
          || bool_decide (target.(Message_SenderID) = userID))).

(** an event as the reader sees it; [None] when it is withheld *)
Definition visible_event (config : dynamicInteractionConfig) (detailAllowed : bool) (userID : string)
    (event : DynamicInteractionEvent) : option json :=
  let v := config.(visibility) in
  if bool_decide (v = "public_aggregate") || bool_decide (v = "anonymous_aggregate") then None
  else if bool_decide (v = "actor_only")
          && negb (bool_decide (event.(DynamicInteractionEvent_ActorID) = userID)) then None
  else if bool_decide (v = "admin_detail") && negb detailAllowed then None
  else
    let item := dynamicInteractionEventDetail event in
    Some (JObj (if negb detailAllowed && negb (bool_decide (v = "actor_only"))
                then <["actor_id" := JStr ""]> (<["actor_nickname" := JStr ""]>
                      (<["payload" := JNull]> item))
                else item)).

Definition handleGetDynamicInteractions (c : conn_id) (req : Request) : handler :=
  authenticated c req "invalid dynamic interaction params" (fun userID params =>
    let echo := req.(Request_Echo) in
    let conversationID := str params "conversation_id" in
    let messageID := str params "message_id" in
    let contentID := str params "content_id" in
    if bool_decide (conversationID = "") || bool_decide (messageID = "")
       || bool_decide (contentID = "")
    then sendError c echo "dynamic interaction target is invalid"
    else
      allowed <- canAccessConversation userID conversationID;;
      if negb allowed then sendError c echo "dynamic interaction target is invalid"
      else
        target <- query (GetMessage messageID);;
        match target with
        | Ok (Some target) =>
            if negb (bool_decide (target.(Message_ConversationID) = conversationID))
            then sendError c echo "dynamic interaction target not found"
            else
              match dynamicInteractionSchema target contentID with
              | Ok (schema, config, true) =>
                  events <- query (GetDynamicInteractionEvents conversationID messageID contentID
                                     maxDynamicInteractionEvents);;
                  match events with
                  | Err _ => sendError c echo "failed to load dynamic interactions"
                  | Ok events =>
                      conversation <- query (GetConversation conversationID);;
                      role <- (match conversation with
                               | Ok (Some conversation) =>
                                   if bool_decide (conversation.(Conversation_Type) = "group")
                                   then groupMemberRole conversationID userID else Ret ""
                               | _ => Ret ""
                               end);;
                      let detailAllowed := detail_allowed config role userID target in
                      sendOk c echo (obj
                        [("message_id", JStr messageID); ("content_id", JStr contentID);
                         ("visibility", JStr config.(visibility));
                         ("events", JArr (omap (visible_event config detailAllowed userID) events));
                         ("state", from_option JObj JNull
                            (get_object (default ∅ (get_object schema "metadata"))
                               "interaction_state"))])
                  end
              | _ => sendError c echo "dynamic interaction is not configured"
              end
        | _ => sendError c echo "dynamic interaction target not found"
        end).
End events.
