(* ===== verification/GatewaySend.v ===== *)
(** * Sending messages (gateway/gateway.go)

    [handleSendMessage] with the validators of its segments and the mutation of
    dynamic content; a [dynamic_event] segment goes to [GatewayEvents].  The
    per-message mutex of [lockDynamicMessageUpdate] only removes interleavings; it
    is modelled by itself in [DynamicLock]. *)
From S2P Require Import Prelude GoLib Types DynamicContent Capabilities MemoryState.
From S2P Require Import MemoryAccounts MemoryMessages MemoryGroups Prog Gateway.
From S2P Require Import GatewayGroups Vault GatewayAccounts GatewayMessages GatewayReads GatewayEvents.
From stdpp Require Import gmap strings list.
From Stdlib Require Import ZArith.

Local Open Scope Z_scope.
Local Open Scope go_scope.

(** ** Decoding the segments

    json.Unmarshal of the re-encoded "message" parameter into []MessageSegment. *)
Definition set_segment_field (key : string) (v : json) (s : MessageSegment)
  : option MessageSegment :=
  if same_key key "type"
  then (fun x => s <| MessageSegment_Type := x |>) <$> decode_string v s.(MessageSegment_Type)
  else if same_key key "data" then
    match v with
    | JObj m => Some (s <| MessageSegment_Data := m ∪ s.(MessageSegment_Data) |>)
    | JNull => Some (s <| MessageSegment_Data := ∅ |>)
    | _ => None
    end
  else Some s.

Definition decode_segment (v : json) : option MessageSegment :=
  match v with
  | JObj m => decode_members set_segment_field m (mkMessageSegment "" ∅)
  | JNull => Some (mkMessageSegment "" ∅)
  | _ => None
  end.

Definition decode_segments (v : json) : option (list MessageSegment) :=
  match v with
  | JArr l => mapM decode_segment l
  | JNull => Some []
  | _ => None
  end.

(** ** Validators *)

Definition id_rune (r : Z) : bool :=
  is_lower r || is_upper r || is_digit r || is_char "." r || is_char "-" r || is_char "_" r.

Definition validClientMessageID (value : string) : bool :=
  negb (bool_decide (value = "")) && (slen value <=? 128)
  && forallb (fun r => id_rune r || is_char ":" r) (runes value).

Definition validStickerIdentifier (value : string) : bool :=
  negb (slen value =? 0) && (slen value <=? 64) && forallb id_rune (runes value).

(** the type of a segment and its data, when the type is the expected one *)
Definition for_type (ty : string) (segment : MessageSegment) (k : jmap -> result unit)
  : result unit :=
  if bool_decide (segment.(MessageSegment_Type) = ty) then k segment.(MessageSegment_Data) else Ok tt.

Definition validateStickerSegment (segment : MessageSegment) : result unit :=
  for_type "sticker" segment (fun data =>
    if negb (Nat.eqb (size data) 3) then Err "sticker data is invalid"
    else
      match get_string data "pack_id", get_string data "asset_id" with
      | Some packID, Some assetID =>
          if negb (validStickerIdentifier packID) || negb (validStickerIdentifier assetID)
          then Err "sticker pack_id and asset_id are invalid"
          else
            match get_float64 data "version" with
            | None => Err "sticker version is invalid"
            | Some version =>
                if num_ltb version (num_of_Z 1) || num_ltb (num_of_Z 1000) version
                   || negb (num_eqb version (num_of_Z (int64_of_num version)))
                then Err "sticker version is invalid" else Ok tt
            end
      | _, _ => Err "sticker pack_id and asset_id are invalid"
      end).

Definition outside (lo hi : Z) (n : option num) : bool :=
  from_option (fun n => num_ltb n (num_of_Z lo) || num_ltb (num_of_Z hi) n) false n.

Definition validateRecordSegment (segment : MessageSegment) : result unit :=
  for_type "record" segment (fun data =>
    if outside 0 120000 (get_float64 data "duration_ms")
    then Err "voice message duration must not exceed 2 minutes"
    else if outside 0 (10 * 1024 * 1024) (get_float64 data "size")
    then Err "voice message must not exceed 10 MB" else Ok tt).

Definition validateLocationSegment (segment : MessageSegment) : result unit :=
  for_type "location" segment (fun data =>
    let name := str data "name" in
    let lat := get_float64 data "lat" in
    let lon := get_float64 data "lon" in
    if bool_decide (TrimSpace name = "") || (120 <? Z.of_nat (length (runes name)))
    then Err "location name is required and must not exceed 120 characters"
    else if negb (Bool.eqb (bool_decide (is_Some lat)) (bool_decide (is_Some lon)))
    then Err "location coordinates must include both latitude and longitude"
    else if outside (-90) 90 lat || outside (-180) 180 lon
    then Err "location coordinates are invalid" else Ok tt).

Section send.
Context `{Runtime}.

Definition validate_image_url (rawURL : string) : result unit :=
  if bool_decide (rawURL = "") then Ok tt
  else if (2048 <? slen rawURL) || negb (bool_decide (rawURL = TrimSpace rawURL))
  then Err "image URL is invalid"
  else
    match parse_request_uri rawURL with
    | None => if HasPrefix rawURL "/files/" then Err "image URL is invalid"
              else Err "external image URL must use HTTPS"
    | Some parsed =>
        if HasPrefix rawURL "/files/" then
          if negb (bool_decide (parsed.(URL_Scheme) = "")) || negb (bool_decide (parsed.(URL_Host) = ""))
          then Err "image URL is invalid" else Ok tt
        else if negb (bool_decide (parsed.(URL_Scheme) = "https"))
                || bool_decide (parsed.(URL_Host) = "") || parsed.(URL_HasUser)
        then Err "external image URL must use HTTPS" else Ok tt
    end.

Definition validateImageSegmentURL (segment : MessageSegment) : result unit :=
  for_type "image" segment (fun data =>
    first_error (fun key => validate_image_url (str data key)) ["url"; "thumbnail_url"]).

Definition validateShareSegment (segment : MessageSegment) : result unit :=
  for_type "share" segment (fun data =>
    let rawURL := str data "url" in
    if (slen rawURL =? 0) || (2048 <? slen rawURL) || negb (bool_decide (rawURL = TrimSpace rawURL))
    then Err "link URL is invalid"
    else
      match parse_request_uri rawURL with
      | None => Err "link URL must use HTTP or HTTPS"
      | Some parsed =>
          if (negb (bool_decide (parsed.(URL_Scheme) = "https"))
              && negb (bool_decide (parsed.(URL_Scheme) = "http")))
             || bool_decide (parsed.(URL_Host) = "") || parsed.(URL_HasUser)
          then Err "link URL must use HTTP or HTTPS"
          else if 160 <? Z.of_nat (length (runes (str data "title")))
          then Err "link title is too long" else Ok tt
      end).

Definition validateForwardSegment (segment : MessageSegment) (conversationID : string)
  : prog World (result unit) :=
  if negb (bool_decide (segment.(MessageSegment_Type) = "forward")) then Ret (Ok tt)
  else
    forward <- query (GetForward (str segment.(MessageSegment_Data) "id"));;
    Ret (match forward with
         | Ok (Some forward) =>
             if bool_decide (forward.(ForwardMessage_ConversationID) = conversationID) then Ok tt
             else Err "forward belongs to another conversation"
         | _ => Err "forward not found"
         end).

(** the critical section under [pokeMu]: refused within five seconds of the last poke *)
Definition poke_step (key : string) (t : time) (w : World) : result unit * World :=
  let previous := default zero_time (w.(pokeLast) !! key) in
  if negb (IsZero previous) && (t - previous <? 5 * second)
  then (Err "please wait before poking again", w)
  else (Ok tt, w <| pokeLast ::= <[key := t]> |>).

Definition validatePokeSegment (segment : MessageSegment) (conversationID senderID : string)
  : prog World (result unit) :=
  if negb (bool_decide (segment.(MessageSegment_Type) = "poke")) then Ret (Ok tt)
  else
    let targetID := str segment.(MessageSegment_Data) "target_id" in
    if bool_decide (targetID = "") || bool_decide (targetID = senderID)
    then Ret (Err "poke target is invalid")
    else
      conversation <- query (GetConversation conversationID);;
      match conversation with
      | Ok (Some conversation) =>
          allowed <- (if bool_decide (conversation.(Conversation_Type) = "group")
                      then query (IsGroupMember conversationID targetID)
                      else Ret (Ok (bool_decide (targetID ∈ conversation.(Conversation_Participants)))));;
          if negb (bool_decide (allowed = Ok true))
          then Ret (Err "poke target is not in this conversation")
          else
            t <- now;;
            atomic (poke_step (composite_key senderID conversationID) t)
      | _ => Ret (Err "conversation not found")
      end.

Definition terminal_statuses : gset string :=
  {["approved"; "denied"; "expired"; "failed"; "completed"]}.
Definition terminal_operations : gset string := {["list_hosts"; "get_host"; "run_command"]}.

Definition validateTerminalSegment (segment : MessageSegment) (conversationType : string)
  : prog World (result unit) :=
  let ty := segment.(MessageSegment_Type) in
  let data := segment.(MessageSegment_Data) in
  if negb (bool_decide (ty = "terminal_request")) && negb (bool_decide (ty = "terminal_result"))
  then Ret (Ok tt)
  else if negb (bool_decide (conversationType = "private"))
  then Ret (Err "terminal operations are only allowed in private conversations")
  else if negb (validClientMessageID (str data "request_id"))
  then Ret (Err "terminal request_id is invalid")
  else if bool_decide (ty = "terminal_result") then
    Ret (if negb (bool_decide (str data "status" ∈ terminal_statuses))
         then Err "terminal result status is invalid"
         else if 64 * 1024 <? slen (str data "output")
         then Err "terminal result output is too large" else Ok tt)
  else
    let operation := str data "operation" in
    if negb (bool_decide (operation ∈ terminal_operations))
    then Ret (Err "terminal operation is invalid")
    else
      match exactInt64 (default JNull (data !! "expires_at")) with
      | None => Ret (Err "terminal expires_at is invalid")
      | Some expiresAt =>
          if expiresAt <=? 0 then Ret (Err "terminal expires_at is invalid")
          else
            t1 <- now;;
            late <- (if expiresAt <? UnixMilli (t1 - minute) then Ret true
                     else t2 <- now;; Ret (UnixMilli (t2 + 10 * minute) <? expiresAt));;
            Ret (if late : bool
                 then Err "terminal request expiry is outside the allowed window"
                 else
                   let hostID := str data "host_id" in
                   let command := str data "command" in
                   if (bool_decide (operation = "get_host") || bool_decide (operation = "run_command"))
                      && (bool_decide (TrimSpace hostID = "") || (128 <? slen hostID))
                   then Err "terminal host_id is required"
                   else if bool_decide (operation = "run_command")
                           && (bool_decide (TrimSpace command = "") || (8192 <? slen command))
                   then Err "terminal command is required and must not exceed 8192 bytes"
                   else Ok tt)
      end.

(** the role the agent_route segments agree on, "" when there is none *)
Fixpoint agent_route_role (deviceID userID conversationID conversationType : string)
    (routeRole : string) (segments : list MessageSegment) : prog World (result string) :=
  match segments with
  | [] => Ret (Ok routeRole)
  | segment :: segments =>
      if negb (bool_decide (segment.(MessageSegment_Type) = "agent_route"))
      then agent_route_role deviceID userID conversationID conversationType routeRole segments
      else if negb (isZZZTermDevice deviceID)
      then Ret (Err "agent_route is only available to ZZZTerm devices")
      else if negb (bool_decide (conversationType = "private")) || bool_decide (conversationID = "")
      then Ret (Err "agent_route requires a private Agent conversation")
      else
        conversation <- query (GetConversation conversationID);;
        match conversation with
        | Ok (Some conversation) =>
            let role := str segment.(MessageSegment_Data) "role" in
            if negb (bool_decide (conversation.(Conversation_Type) = "private"))
            then Ret (Err "agent_route conversation was not found")
            else if negb (isExactAgentConversationParticipants
                            conversation.(Conversation_Participants) userID)
            then Ret (Err "agent_route requires a private conversation with only the current user and Fairy")
            else if negb (bool_decide (str segment.(MessageSegment_Data) "route" = "local"))
            then Ret (Err "agent_route route is invalid")
            else if negb (bool_decide (role = "user")) && negb (bool_decide (role = "assistant"))
            then Ret (Err "agent_route role is invalid")
            else if negb (bool_decide (routeRole = "")) && negb (bool_decide (routeRole = role))
            then Ret (Err "agent_route roles must agree")
            else agent_route_role deviceID userID conversationID conversationType role segments
        | _ => Ret (Err "agent_route conversation was not found")
        end
  end.

Definition barred_for_agent_user : gset string :=
  {["dynamic_content"; "terminal_request"; "terminal_result"]}.

Definition validateAgentRouteSegments (deviceID userID conversationID conversationType : string)
    (segments : list MessageSegment) : prog World (result unit) :=
  role <- agent_route_role deviceID userID conversationID conversationType "" segments;;
  Ret (match role with
       | Err e => Err e
       | Ok role =>
           if bool_decide (role = "user") then
             first_error (fun s =>
               if bool_decide (s.(MessageSegment_Type) ∈ barred_for_agent_user)
               then Err ("local Agent user messages cannot contain " +:+ s.(MessageSegment_Type))
               else Ok tt) segments
           else Ok tt
       end).

(** ** Mutations of dynamic content *)

Definition dynamicUpdateRequestFingerprint (conversationID : string) (segment : MessageSegment)
  : result string :=
  match json_marshal (obj [("conversation_id", JStr conversationID);
                           ("segment", segment_json segment)]) with
  | None => Err "marshal"
  | Some encoded => Ok (sha256_hex encoded)
  end.

Definition mutation_response (message : Message) (duplicate : bool) (clientMessageID : string)
  : json :=
  obj [("message_id", JStr message.(Message_ID)); ("updated", JBool true);
       ("duplicate", JBool duplicate); ("client_message_id", JStr clientMessageID);
       ("timestamp_ms", jint (UnixMilli message.(Message_Timestamp)))].

(** the part after the idempotency lookup *)
Definition mutate_dynamic (c : conn_id) (echo userID conversationID conversationType
    clientMessageID fingerprint messageID : string) (segment : MessageSegment) : handler :=
  target <- query (GetMessage messageID);;
  match target with
  | Ok (Some target) =>
      if negb (bool_decide (target.(Message_ConversationID) = conversationID))
      then sendError c echo "dynamic update target belongs to another conversation"
      else if target.(Message_Recalled) then sendError c echo "cannot update a recalled message"
      else
        match applyDynamicMutationToSegments target.(Message_Segments) segment with
        | Err err => sendError c echo err
        | Ok (updatedSegments, _) =>
            stored <- call (StoreDynamicUpdateIdempotent userID clientMessageID fingerprint
                              target.(Message_ID) updatedSegments);;
            match stored with
            | Err err =>
                sendError c echo (if bool_decide (err = ErrDynamicUpdateIdempotencyConflict)
                  then "client_message_id was already used for a different dynamic update"
                  else "failed to update dynamic content")
            | Ok (None, _) => sendError c echo "dynamic update target message not found"
            | Ok (Some updated, duplicate) =>
                sendOk c echo (mutation_response updated duplicate clientMessageID);;
                if duplicate : bool then Ret tt
                else
                  '(nickname, avatar) <- sender_of userID;;
                  broadcastToConversation conversationID (OutMessage (mkMessageEvent
                    conversationType updated.(Message_ID) conversationID
                    (event_sender userID nickname avatar) [segment] updated.(Message_Reactions)
                    (Unix updated.(Message_Timestamp)) (UnixMilli updated.(Message_Timestamp))
                    false false false)) ""
            end
        end
  | _ => sendError c echo "dynamic update target message not found"
  end.

Definition handleDynamicMutation (c : conn_id) (echo userID conversationID conversationType
    clientMessageID : string) (segment : MessageSegment) : handler :=
  match dynamicMutationMessageID segment with
  | Err err => sendError c echo err
  | Ok messageID =>
      let mutate fingerprint := mutate_dynamic c echo userID conversationID conversationType
                                  clientMessageID fingerprint messageID segment in
      if bool_decide (clientMessageID = "") then mutate ""
      else
        match dynamicUpdateRequestFingerprint conversationID segment with
        | Err _ => sendError c echo "invalid dynamic update fingerprint"
        | Ok fingerprint =>
            cached <- query (LookupDynamicUpdateIdempotency userID clientMessageID fingerprint);;
            match cached with
            | Err err =>
                sendError c echo (if bool_decide (err = ErrDynamicUpdateIdempotencyConflict)
                  then "client_message_id was already used for a different dynamic update"
                  else "failed to check dynamic update idempotency")
            | Ok (Some cached, true) =>
                sendOk c echo (mutation_response cached true clientMessageID)
            | Ok (None, true) => sendError c echo "dynamic update target message not found"
            | Ok (_, false) => mutate fingerprint
            end
        end
  end.

(** ** Sending *)

(** may the user speak in the conversation? the refusal, or "" *)
Definition private_refusal (userID convID : string) : prog World string :=
  conversation <- query (GetConversation convID);;
  match conversation with
  | Ok (Some conversation) =>
      (fix blocked (participants : list string) : prog World string :=
         match participants with
         | [] => Ret ""
         | p :: participants =>
             if bool_decide (p = userID) || bool_decide (p = "fairy") then blocked participants
             else
               b <- isEitherBlocked userID p;;
               if b : bool then Ret "direct messages are blocked" else blocked participants
         end) conversation.(Conversation_Participants)
  | _ => Ret ""
  end.

Definition group_refusal (userID convID : string) : prog World string :=
  group <- query (GetGroup convID);;
  members <- query (GetGroupMembers convID);;
  match group, members with
  | Ok (Some group), Ok members =>
      match find_first (is_member userID) members with
      | None => Ret "group access denied"
      | Some currentMember =>
          if group.(Group_MuteAll) && bool_decide (currentMember.(GroupMember_Role) = "member")
          then Ret "the group is muted for all members"
          else if bool_decide (currentMember.(GroupMember_Role) = "owner") then Ret ""
          else
            t <- now;;
            Ret (if After currentMember.(GroupMember_MutedUntil) t
                 then "you are muted until " +:+ FormatRFC3339 currentMember.(GroupMember_MutedUntil)
                 else "")
      end
  | _, _ => Ret "failed to load group permissions"
  end.

(** the dynamic segments: each is checked; at most one mutation or event, which must
    be the only segment of the message *)
Inductive dynamic_plan := PlainMessage | Mutation (s : MessageSegment) | DynamicEvent (s : MessageSegment).

Definition check_content (userID convID convType : string) (segment : MessageSegment)
  : prog World (result unit) :=
  match validateDynamicContentSegment segment with
  | Err e => Ret (Err e)
  | Ok _ =>
      if negb (bool_decide (convType = "group")) then Ret (Ok tt)
      else
        match dynamicSchemaFromData segment.(MessageSegment_Data) with
        | Err e => Ret (Err e)
        | Ok schema =>
            if negb (bool_decide (str schema "source" = "user")) then Ret (Ok tt)
            else
              admin <- isGroupAdmin convID userID;;
              Ret (if admin : bool then Ok tt
                   else Err "only group owners and administrators can send custom bubbles")
        end
  end.

Definition single (alone : bool) (ty : string) (check : result unit) : result unit :=
  if alone then check else Err (ty +:+ " must be the only message segment").

Fixpoint scan_dynamic (userID convID convType : string) (alone : bool) (plan : dynamic_plan)
    (segments : list MessageSegment) : prog World (result dynamic_plan) :=
  match segments with
  | [] => Ret (Ok plan)
  | segment :: segments =>
      let ty := segment.(MessageSegment_Type) in
      let special check next :=
        match single alone ty check with
        | Err e => Ret (Err e)
        | Ok _ => scan_dynamic userID convID convType alone next segments
        end in
      if bool_decide (ty = "dynamic_content") then
        checked <- check_content userID convID convType segment;;
        match checked with
        | Err e => Ret (Err e)
        | Ok _ => scan_dynamic userID convID convType alone plan segments
        end
      else if bool_decide (ty = "dynamic_update")
      then special (validateDynamicUpdateSegment segment) (Mutation segment)
      else if bool_decide (ty = "dynamic_replace")
      then special (validateDynamicReplaceSegment segment) (Mutation segment)
      else if bool_decide (ty = "dynamic_remove")
      then special (validateDynamicRemoveSegment segment) (Mutation segment)
      else if bool_decide (ty = "dynamic_event")
      then special (validateDynamicEventSegment segment) (DynamicEvent segment)
      else scan_dynamic userID convID convType alone plan segments
  end.

(** the reply segment: one at most, to a message of the same conversation *)
Definition check_reply (convID : string) (replyCount : nat) (segment : MessageSegment)
  : prog World (result nat) :=
  if negb (bool_decide (segment.(MessageSegment_Type) = "reply")) then Ret (Ok replyCount)
  else if (0 <? replyCount)%nat then Ret (Err "only one reply segment is allowed")
  else
    let replyID := str segment.(MessageSegment_Data) "id" in
    if bool_decide (TrimSpace replyID = "") then Ret (Err "reply message_id required")
    else
      replied <- query (GetMessage replyID);;
      Ret (match replied with
           | Ok (Some replied) =>
               if bool_decide (replied.(Message_ConversationID) = convID) then Ok (S replyCount)
               else Err "reply message belongs to another conversation"
           | _ => Err "reply message not found"
           end).

(** the checks one after another, stopping at the first error *)
Definition and_then {A} (p : prog World (result unit)) (k : prog World (result A))
  : prog World (result A) :=
  r <- p;; match r with Err e => Ret (Err e) | Ok _ => k end.

Fixpoint validate_segments (userID convID convType : string) (replyCount : nat)
    (segments : list MessageSegment) : prog World (result unit) :=
  match segments with
  | [] => Ret (Ok tt)
  | segment :: segments =>
      and_then (Ret (first_error (fun check => check segment)
        [validateImageSegmentURL; validateStickerSegment; validateRecordSegment;
         validateShareSegment; validateLocationSegment]))
      (and_then (validateForwardSegment segment convID)
      (and_then (validatePokeSegment segment convID userID)
      (and_then (validateTerminalSegment segment convType)
      (replies <- check_reply convID replyCount segment;;
       match replies with
       | Err e => Ret (Err e)
       | Ok replyCount => validate_segments userID convID convType replyCount segments
       end))))
  end.

(** storing the message and telling the conversation *)
Definition store_and_broadcast (c : conn_id) (echo userID convID convType clientMessageID : string)
    (segments : list MessageSegment) : handler :=
  created <- call_at (GetOrCreateConversation convID convType convID);;
  match created with
  | Err _ => sendError c echo "failed to load conversation"
  | Ok _ =>
      '(nickname, avatar) <- sender_of userID;;
      stored <- call_at (StoreMessageIdempotent convID userID nickname clientMessageID segments);;
      match stored with
      | Err err =>
          sendError c echo (if bool_decide (err = ErrMessageIdempotencyConflict)
                            then "client_message_id was already used for a different message"
                            else "failed to store message")
      | Ok (msg, duplicate) =>
          sendOk c echo (obj
            [("message_id", JStr msg.(Message_ID));
             ("timestamp_ms", jint (UnixMilli msg.(Message_Timestamp)));
             ("client_message_id", JStr clientMessageID); ("duplicate", JBool duplicate)]);;
          if duplicate : bool then Ret tt
          else
            let event := OutMessage (mkMessageEvent convType msg.(Message_ID) convID
              (event_sender userID nickname avatar) segments msg.(Message_Reactions)
              (Unix msg.(Message_Timestamp)) (UnixMilli msg.(Message_Timestamp))
              false false false) in
            deviceID <- reads (fun w => (client_of w c).(Client_deviceID));;
            (if isZZZTermDevice deviceID
             then broadcastToConversationExceptClient convID event c
             else broadcastToConversation convID event userID);;
            pushToConversation convID msg userID false
      end
  end.

Definition conversation_type (convID : string) : string :=
  if (6 <? slen convID) && HasPrefix convID "group_" then "group" else "private".

(** the optional client_message_id: [None] when it is present and not acceptable *)
Definition client_message_id (params : jmap) : option string :=
  match params !! "client_message_id" with
  | None => Some ""
  | Some raw => match as_string raw with
                | Some id => if validClientMessageID id then Some id else None
                | None => None
                end
  end.

(** refuses with the message, unless it is "" *)
Definition unless_refused (c : conn_id) (echo refusal : string) (k : handler) : handler :=
  if bool_decide (refusal = "") then k else sendError c echo refusal.

Definition handleSendMessage (c : conn_id) (req : Request) : handler :=
  authenticated c req "invalid send_message params" (fun userID params =>
    let echo := req.(Request_Echo) in
    let convID := str params "conversation_id" in
    if bool_decide (convID = "") then sendError c echo "conversation_id required"
    else
      match client_message_id params with
      | None => sendError c echo "client_message_id must contain 1-128 letters, digits, dots, colons, dashes, or underscores"
      | Some clientMessageID =>
          match decode_segments (default JNull (params !! "message")) with
          | None => sendError c echo "invalid message segments"
          | Some segments =>
              if (Z.of_nat (length segments) =? 0) || (20 <? Z.of_nat (length segments))
              then sendError c echo "message must contain between 1 and 20 segments"
              else
                let convType := conversation_type convID in
                deviceID <- reads (fun w => (client_of w c).(Client_deviceID));;
                route <- validateAgentRouteSegments deviceID userID convID convType segments;;
                match route with
                | Err err => sendError c echo err
                | Ok _ =>
                    allowed <- canAccessConversation userID convID;;
                    if negb allowed then sendError c echo "conversation access denied"
                    else
                      refusal <- (if bool_decide (convType = "private")
                                  then private_refusal userID convID
                                  else group_refusal userID convID);;
                      unless_refused c echo refusal (
                        plan <- scan_dynamic userID convID convType
                                  (Nat.eqb (length segments) 1) PlainMessage segments;;
                        match plan with
                        | Err err => sendError c echo err
                        | Ok (Mutation segment) =>
                            handleDynamicMutation c echo userID convID convType clientMessageID segment
                        | Ok (DynamicEvent segment) => handleDynamicEvent c echo userID convID convType segment
                        | Ok PlainMessage =>
                            valid <- validate_segments userID convID convType 0 segments;;
                            match valid with
                            | Err err => sendError c echo err
                            | Ok _ => store_and_broadcast c echo userID convID convType
                                        clientMessageID segments
                            end
                        end)
                end
          end
      end).
End send.

(** ** The table of requests (handleRequest)

    [routes] lists the actions with their handlers, [handleRequest] dispatches.
    What the gateway is configured with is the fields of [services]. *)

Record services := mkServices {
  media : media_uploader;
  push_public_key : string }.

Definition routes `{Runtime} (sv : services) : list (string * (conn_id -> Request -> handler)) :=
  [("auth", handleAuth); ("register", handleRegister sv.(media)); ("logout", handleLogout);
   ("ping", handlePing); ("send_message", handleSendMessage);
   ("ensure_conversation", handleEnsureConversation); ("recall_message", handleRecallMessage);
   ("react_message", handleReactMessage); ("get_conversations", handleGetConversations);
   ("set_conversation_preferences", handleSetConversationPreferences);
   ("get_messages", handleGetMessages);
   ("get_dynamic_interactions", handleGetDynamicInteractions); ("mark_read", handleMarkRead);
   ("get_user", handleGetUser); ("update_profile", handleUpdateProfile);
   ("grant_user_title", handleGrantUserTitle); ("revoke_user_title", handleRevokeUserTitle);
   ("set_user_blocked", handleSetUserBlocked); ("report_user", handleReportUser);
   ("get_users", handleGetUsers); ("get_friends", handleGetFriends);
   ("search_users", handleSearchUsers);
   ("get_friend_requests", handleGetFriendRequests); ("remove_friend", handleRemoveFriend);
   ("get_group_list", handleGetGroupList); ("get_group_info", handleGetGroupInfo);
   ("create_group", handleCreateGroup); ("group_invite", handleGroupInvite);
   ("join_group", handleJoinGroup); ("leave_group", handleLeaveGroup);
   ("group_kick", handleGroupKick); ("group_ban", handleGroupBan);
   ("update_group", handleUpdateGroup); ("set_group_admin", handleSetGroupAdmin);
   ("transfer_group", handleTransferGroup); ("dismiss_group", handleDismissGroup);
   ("group_mute_all", handleGroupMuteAll);
   ("get_group_announcements", handleGetGroupAnnouncements);
   ("create_group_announcement", handleCreateGroupAnnouncement);
   ("update_group_announcement", handleUpdateGroupAnnouncement);
   ("delete_group_announcement", handleDeleteGroupAnnouncement);
   ("mark_group_announcement_read", handleMarkGroupAnnouncementRead);
   ("friend_request", handleFriendRequest); ("friend_request_handle", handleFriendHandle);
   ("get_forward_msg", handleGetForwardMessage); ("create_forward", handleCreateForward);
   ("upload_file", handleUploadFile sv.(media));
   ("get_push_config", handleGetPushConfig sv.(push_public_key));
   ("register_push", handleRegisterPush); ("unregister_push", handleUnregisterPush);
   ("get_terminal_vault", handleGetTerminalVault); ("put_terminal_vault", handlePutTerminalVault);
   ("delete_terminal_vault", handleDeleteTerminalVault)].

Definition handleRequest `{Runtime} (sv : services) (c : conn_id) (req : Request) : handler :=
  match (list_to_map (routes sv) : gmap string _) !! req.(Request_Action) with
  | Some h => h c req
  | None => sendError c req.(Request_Echo) ("unknown action: " +:+ req.(Request_Action))
  end.

(** readPump: a frame that is not a request is answered, the others are dispatched *)
Definition readPump_step `{Runtime} (sv : services) (c : conn_id) (frame : option Request)
  : handler :=
  match frame with
  | None => sendError c "" "invalid JSON"
  | Some req => handleRequest sv c req
  end.
