(* ===== verification/MessageFacts.v ===== *)
(** * Messages: the invariant of the heap and of its indexes

    [messages_ok] ties the conversation lists, the message heap, the counter and
    the idempotency records together.  Every operation of the store preserves it;
    the lemmas here are about the operations that touch those fields, the others
    fall under [messages_ok_frame]. *)
From S2P Require Import Prelude GoLib Types MemoryState MemoryMessages MemoryGroups.
From stdpp Require Import gmap strings list.
From Stdlib Require Import ZArith.

Local Open Scope Z_scope.

Record messages_ok (s : MemoryStore) : Prop := {
  mo_counter : 0 <= s.(msgCounter);
  mo_heap : forall p m, msg_at s p = Some m ->
    (p < s.(next_ptr))%nat
    /\ exists k, 1 <= k <= s.(msgCounter) /\ m.(Message_ID) = message_id k;
  mo_inj : forall p q m n, msg_at s p = Some m -> msg_at s q = Some n ->
    m.(Message_ID) = n.(Message_ID) -> p = q;
  mo_list : forall c p, p ∈ conv_ptrs s c ->
    exists m, msg_at s p = Some m /\ m.(Message_ConversationID) = c;
  mo_nodup : forall c, NoDup (conv_ptrs s c);
  mo_idem : forall key r, s.(messageIdempotency) !! key = Some r ->
    exists m, msg_at s r.(mi_message) = Some m }.

#[export] Instance message_id_inj : Inj (=) (=) message_id.
Proof. intros a b. unfold message_id. intros H%(inj (String.app "msg_")).
  by apply sprint_d_inj. Qed.

(** Only these five fields matter. *)
Lemma messages_ok_frame s s' :
  s'.(message_heap) = s.(message_heap) ->
  s'.(messages) = s.(messages) ->
  s'.(messageIdempotency) = s.(messageIdempotency) ->
  s'.(msgCounter) = s.(msgCounter) ->
  (s.(next_ptr) <= s'.(next_ptr))%nat ->
  messages_ok s -> messages_ok s'.
Proof.
  intros Hh Hm Hi Hc Hn [H1 H2 H3 H4 H5 H6].
  split; unfold msg_at, conv_ptrs in *; rewrite ?Hh, ?Hm, ?Hi, ?Hc; eauto.
  intros p m Hp. destruct (H2 p m Hp). split; [lia|done].
Qed.

Lemma NewMemoryStore_messages_ok : messages_ok NewMemoryStore.
Proof.
  split; simpl; try done.
  - intros c p. unfold conv_ptrs; simpl. rewrite lookup_empty. inversion 1.
  - intros c. unfold conv_ptrs; simpl. rewrite lookup_empty. constructor.
Qed.

(** ** Membership in the lists *)

Lemma elem_of_all_ptrs s p : p ∈ all_ptrs s <-> exists c, p ∈ conv_ptrs s c.
Proof.
  unfold all_ptrs, conv_ptrs. rewrite list_elem_of_bind. split.
  - intros (l & Hp & Hl). apply list_elem_of_fmap in Hl as ([c l'] & -> & Hc).
    apply elem_of_map_to_list in Hc. exists c. simpl in *. by rewrite Hc.
  - intros [c Hp]. destruct (s.(messages) !! c) as [l|] eqn:E; [|inversion Hp].
    exists l. split; [done|]. apply list_elem_of_fmap. exists (c, l).
    split; [done|]. by apply elem_of_map_to_list.
Qed.

Lemma has_id_spec s id p :
  has_id s id p = true <-> exists m, msg_at s p = Some m /\ m.(Message_ID) = id.
Proof.
  unfold has_id. destruct (msg_at s p) as [m|] eqn:E.
  - rewrite bool_decide_eq_true. naive_solver.
  - naive_solver.
Qed.

(** Under the invariant an id names at most one pointer, so the iteration order
    of the map of conversations is irrelevant. *)
Lemma find_ptr_iff s id p :
  messages_ok s ->
  find_ptr s id = Some p <->
  (exists c, p ∈ conv_ptrs s c) /\ exists m, msg_at s p = Some m /\ m.(Message_ID) = id.
Proof.
  intros Hok. unfold find_ptr. rewrite <-elem_of_all_ptrs, <-has_id_spec. split.
  - intros ?%find_first_Some. done.
  - intros [Hp Hid]. apply find_first_unique; [done|done|].
    intros q Hq Hq'. apply has_id_spec in Hid as (m & Hm & Him).
    apply has_id_spec in Hq' as (n & Hn & Hin).
    eapply mo_inj; [done|done|done|congruence].
Qed.

Lemma findMessageLocked_iff s id m :
  messages_ok s ->
  findMessageLocked s id = Some m <->
  m.(Message_ID) = id /\ exists c, m ∈ conv_messages s c.
Proof.
  intros Hok. unfold findMessageLocked, conv_messages, deref. split.
  - intros (p & Hp & Hm)%bind_Some.
    apply find_ptr_iff in Hp as [[c Hc] (m' & Hm' & Hid)]; [|done].
    split; [congruence|]. exists c. apply list_elem_of_omap. eauto.
  - intros [Hid [c Hc]]. apply list_elem_of_omap in Hc as (p & Hp & Hm).
    apply bind_Some. exists p. split; [|done]. apply find_ptr_iff; eauto.
Qed.

(** ** Allocation of a new message *)

Lemma conv_ptrs_append c c' m s :
  conv_ptrs (append_message c m s) c' =
  if decide (c = c') then conv_ptrs s c ++ [s.(next_ptr)] else conv_ptrs s c'.
Proof.
  unfold append_message, conv_ptrs; simpl. case_decide as E.
  - subst. by rewrite lookup_insert_eq.
  - by rewrite lookup_insert_ne.
Qed.

Lemma msg_at_append c m s p :
  msg_at (append_message c m s) p =
  if decide (p = s.(next_ptr)) then Some m else msg_at s p.
Proof.
  unfold append_message, msg_at; simpl. case_decide as E.
  - subst. by rewrite lookup_insert_eq.
  - by rewrite lookup_insert_ne.
Qed.

Lemma next_ptr_fresh s : messages_ok s -> msg_at s s.(next_ptr) = None.
Proof.
  intros Hok. destruct (msg_at s s.(next_ptr)) as [m|] eqn:E; [|done].
  apply (mo_heap _ Hok) in E as [? _]. lia.
Qed.

Lemma append_message_ok c m s :
  messages_ok s -> s.(msgCounter) < maxInt64 ->
  m.(Message_ConversationID) = c ->
  m.(Message_ID) = message_id (s.(msgCounter) + 1) ->
  messages_ok (append_message c m (s <| msgCounter ::= Z.succ |>)).
Proof.
  intros Hok Hlt Hc Hid. pose proof (next_ptr_fresh s Hok) as Hf.
  destruct Hok as [H1 H2 H3 H4 H5 H6].
  assert (Hat : forall p, msg_at (append_message c m (s <| msgCounter ::= Z.succ |>)) p =
            if decide (p = s.(next_ptr)) then Some m else msg_at s p)
    by (intros p; by rewrite msg_at_append).
  assert (Hps : forall c', conv_ptrs (append_message c m (s <| msgCounter ::= Z.succ |>)) c' =
            if decide (c = c') then conv_ptrs s c ++ [s.(next_ptr)] else conv_ptrs s c')
    by (intros c'; by rewrite conv_ptrs_append).
  assert (Hold : forall p n, msg_at s p = Some n -> p <> s.(next_ptr)) by congruence.
  assert (Hnew : forall q n, msg_at s q = Some n -> m.(Message_ID) <> n.(Message_ID)).
  { intros q n Hq. apply H2 in Hq as (_ & k & Hk & ->). rewrite Hid.
    intros ?%message_id_inj. lia. }
  split.
  - simpl. lia.
  - intros p n. rewrite Hat. case_decide as E; simpl.
    + intros [= <-]. split; [lia|]. exists (s.(msgCounter) + 1). split; [lia|done].
    + intros (? & k & ? & ?)%H2. split; [lia|]. exists k. split; [lia|done].
  - intros p q m1 m2. rewrite !Hat. do 2 case_decide; subst; try done.
    + intros [= <-] Hq Heq. by destruct (Hnew _ _ Hq).
    + intros Hp [= <-] Heq. by destruct (Hnew _ _ Hp).
    + apply H3.
  - intros c' p. rewrite Hps. setoid_rewrite Hat. case_decide as E; [subst c'|].
    + intros [Hp|Hp%list_elem_of_singleton]%elem_of_app.
      * destruct (H4 _ _ Hp) as (n & Hn & Hcn). exists n.
        rewrite decide_False by eauto. done.
      * exists m. rewrite decide_True; done.
    + intros Hp. destruct (H4 _ _ Hp) as (n & Hn & Hcn). exists n.
      rewrite decide_False by eauto. done.
  - intros c'. rewrite Hps. case_decide as E; [|apply H5].
    apply NoDup_app. split; [apply H5|]. split; [|apply NoDup_singleton].
    intros p Hp ->%list_elem_of_singleton. destruct (H4 _ _ Hp) as (? & ? & _). congruence.
  - intros key r Hr. destruct (H6 _ _ Hr) as [n Hn]. exists n.
    rewrite Hat, decide_False by eauto. done.
Qed.

(** ** Writing through a message pointer *)

Lemma msg_at_write p f s q :
  msg_at (write_message p f s) q = (if decide (q = p) then f <$> msg_at s q else msg_at s q).
Proof.
  unfold write_message, msg_at; simpl. rewrite lookup_alter.
  repeat case_decide; subst; done.
Qed.

Lemma write_message_ok p f s :
  (forall m, (f m).(Message_ID) = m.(Message_ID)) ->
  (forall m, (f m).(Message_ConversationID) = m.(Message_ConversationID)) ->
  messages_ok s -> messages_ok (write_message p f s).
Proof.
  intros Hid Hc [H1 H2 H3 H4 H5 H6].
  assert (Hget : forall q m, msg_at (write_message p f s) q = Some m ->
    exists m0, msg_at s q = Some m0 /\ m.(Message_ID) = m0.(Message_ID)
               /\ m.(Message_ConversationID) = m0.(Message_ConversationID)).
  { intros q m. rewrite msg_at_write. case_decide; [|eauto].
    intros (m0 & ? & ->)%fmap_Some. eauto. }
  assert (Hset : forall q m0, msg_at s q = Some m0 ->
    exists m, msg_at (write_message p f s) q = Some m
              /\ m.(Message_ConversationID) = m0.(Message_ConversationID)).
  { intros q m0 Hq. rewrite msg_at_write, Hq. case_decide; simpl; eauto. }
  split; try done.
  - intros q m (m0 & Hq & -> & _)%Hget. by apply H2 in Hq.
  - intros q r m n (m0 & Hq & -> & _)%Hget (n0 & Hr & -> & _)%Hget. eauto.
  - intros c q Hq. destruct (H4 c q Hq) as (m0 & Hm0 & Hcm).
    apply Hset in Hm0 as (m & ? & ?). exists m. split; [done|congruence].
  - intros key r Hr. destruct (H6 _ _ Hr) as [m0 Hm0]. apply Hset in Hm0 as (m & ? & _). eauto.
Qed.

(** ** Shrinking the indexes *)

Lemma messages_ok_shrink s s' :
  s'.(message_heap) = s.(message_heap) ->
  s'.(msgCounter) = s.(msgCounter) ->
  s'.(next_ptr) = s.(next_ptr) ->
  (forall c, conv_ptrs s' c `sublist_of` conv_ptrs s c) ->
  (forall key r, s'.(messageIdempotency) !! key = Some r ->
                 s.(messageIdempotency) !! key = Some r) ->
  messages_ok s -> messages_ok s'.
Proof.
  intros Hh Hc Hn Hsub Hidem [H1 H2 H3 H4 H5 H6].
  assert (Hat : forall p, msg_at s' p = msg_at s p) by (intros; unfold msg_at; by rewrite Hh).
  split; rewrite ?Hc, ?Hn; try setoid_rewrite Hat; eauto.
  - intros c p Hp. apply H4. eapply elem_of_sublist; [exact Hp|]. apply Hsub.
  - intros c. eapply sublist_NoDup; [apply H5|apply Hsub].
Qed.

(** ** The operations that touch the invariant *)

Lemma StoreMessageIdempotent_ok `{Runtime} c u nick cid segs now s :
  messages_ok s -> s.(msgCounter) < maxInt64 ->
  messages_ok (StoreMessageIdempotent c u nick cid segs now s).2.
Proof.
  intros Hok Hlt. unfold StoreMessageIdempotent.
  destruct (messageRequestFingerprint c segs) as [fp|]; [|done].
  set (existing := if bool_decide (cid = "") then None else _).
  destruct existing as [r|].
  { repeat case_goal; done. }
  rewrite wrap64_id by (pose proof (mo_counter _ Hok); unfold maxInt64 in *; lia).
  set (m := mkMessage _ _ _ _ _ _ _ _).
  assert (Ha : messages_ok (append_message c m (s <| msgCounter := s.(msgCounter) + 1 |>))).
  { apply append_message_ok; done. }
  case_bool_decide; [done|]. simpl.
  destruct Ha as [H1 H2 H3 H4 H5 H6]. split; try done.
  intros key r. simpl. intros [[<- <-]|[_ Hr]]%lookup_insert_Some; [|by eapply H6].
  exists m. unfold msg_at; simpl. by rewrite lookup_insert_eq.
Qed.

Lemma updateMessageSegmentsLocked_ok id segs s :
  messages_ok s -> messages_ok (updateMessageSegmentsLocked id segs s).2.
Proof.
  intros Hok. unfold updateMessageSegmentsLocked.
  destruct (find_ptr s id); [|done]. by apply write_message_ok.
Qed.

Lemma RecallMessage_ok id s : messages_ok s -> messages_ok (RecallMessage id s).2.
Proof.
  intros Hok. unfold RecallMessage. destruct (find_ptr s id); [|done].
  by apply write_message_ok.
Qed.

Lemma deleteMessageIdempotencyLocked_ok id s :
  messages_ok s -> messages_ok (deleteMessageIdempotencyLocked id s).
Proof.
  apply messages_ok_shrink; try done. intros key r. simpl.
  intros [Hr _]%map_lookup_filter_Some. done.
Qed.

Lemma deleteDynamicInteractionEventsLocked_ok id s :
  messages_ok s -> messages_ok (deleteDynamicInteractionEventsLocked id s).
Proof. by apply messages_ok_frame. Qed.

#[export] Hint Resolve deleteMessageIdempotencyLocked_ok
  deleteDynamicInteractionEventsLocked_ok updateMessageSegmentsLocked_ok
  RecallMessage_ok : zzz.

Lemma conv_ptrs_insert s c l c' :
  conv_ptrs (s <| messages ::= <[c := l]> |>) c' =
  if decide (c = c') then l else conv_ptrs s c'.
Proof.
  unfold conv_ptrs; simpl. case_decide; subst.
  - by rewrite lookup_insert_eq.
  - by rewrite lookup_insert_ne.
Qed.

Lemma conv_ptrs_delete s c c' :
  conv_ptrs (s <| messages ::= delete c |>) c' =
  if decide (c = c') then [] else conv_ptrs s c'.
Proof.
  unfold conv_ptrs; simpl. case_decide; subst.
  - by rewrite lookup_delete_eq.
  - by rewrite lookup_delete_ne.
Qed.

Lemma messages_ok_drop_conv c s : messages_ok s -> messages_ok (s <| messages ::= delete c |>).
Proof.
  apply messages_ok_shrink; try done. intros c'. rewrite conv_ptrs_delete.
  case_decide; [apply sublist_nil_l|done].
Qed.

Lemma DeleteMessage_ok id s : messages_ok s -> messages_ok (DeleteMessage id s).2.
Proof.
  intros Hok. unfold DeleteMessage. destruct (conv_of s id) as [c|]; [|done]. simpl.
  apply deleteMessageIdempotencyLocked_ok, deleteDynamicInteractionEventsLocked_ok.
  revert Hok. apply messages_ok_shrink; try done. intros c'.
  change (conv_ptrs (s <| messages ::= <[c := remove_first (has_id s id) (conv_ptrs s c)]> |>) c'
          `sublist_of` conv_ptrs s c').
  rewrite conv_ptrs_insert. case_decide; [subst; apply remove_first_sublist|done].
Qed.

Lemma DeleteConversation_ok id s : messages_ok s -> messages_ok (DeleteConversation id s).2.
Proof.
  intros Hok. unfold DeleteConversation; simpl.
  set (drop_one := fun (s : MemoryStore) (m : Message) => _).
  assert (Hfold : forall l s, messages_ok s -> messages_ok (fold_left drop_one l s)).
  { intros l. induction l as [|m l IH]; intros s0 Hs0; simpl; [done|].
    apply IH. unfold drop_one.
    apply deleteDynamicInteractionEventsLocked_ok, deleteMessageIdempotencyLocked_ok.
    revert Hs0. by apply messages_ok_frame. }
  specialize (Hfold (conv_messages s id) s Hok).
  apply (messages_ok_drop_conv id) in Hfold. revert Hfold. by apply messages_ok_frame.
Qed.

Lemma DeleteGroup_ok id s : messages_ok s -> messages_ok (DeleteGroup id s).2.
Proof.
  intros Hok. unfold DeleteGroup. destruct (s.(groups) !! id); [|done]. simpl.
  apply (messages_ok_drop_conv id) in Hok. revert Hok. by apply messages_ok_frame.
Qed.

Lemma StoreDynamicUpdateIdempotent_ok u cid fp id segs s :
  messages_ok s -> messages_ok (StoreDynamicUpdateIdempotent u cid fp id segs s).2.
Proof.
  intros Hok. unfold StoreDynamicUpdateIdempotent.
  pose proof (updateMessageSegmentsLocked_ok id segs s Hok) as Hu.
  destruct (LookupDynamicUpdateIdempotency u cid fp s) as [[? []]|]; [done| |done].
  destruct (updateMessageSegmentsLocked id segs s) as [[[m|]|e] s1]; simpl in *; [|done|done].
  case_bool_decide; [done|]. revert Hu. by apply messages_ok_frame.
Qed.

Lemma interaction_op_ok `{Runtime} e now commit s :
  (forall s, messages_ok s -> messages_ok (commit s).2) ->
  messages_ok s -> messages_ok (interaction_op e now commit s).2.
Proof.
  intros Hcommit Hok. unfold interaction_op.
  destruct (bool_decide _ || bool_decide _); [done|].
  destruct (dynamicInteractionFingerprint e) as [fp|]; [|done].
  destruct (s.(dynamicInteractionByID) !! interaction_key e) as [r|].
  { case_bool_decide; done. }
  specialize (Hcommit s Hok). destruct (commit s) as [[|] s1]; [|done].
  simpl in *. revert Hcommit. by apply messages_ok_frame.
Qed.

Lemma AppendDynamicInteractionEvent_ok `{Runtime} e now s :
  messages_ok s -> messages_ok (AppendDynamicInteractionEvent e now s).2.
Proof. by apply interaction_op_ok. Qed.

Lemma CommitDynamicInteractionEvent_ok `{Runtime} e segs now s :
  messages_ok s -> messages_ok (CommitDynamicInteractionEvent e segs now s).2.
Proof.
  apply interaction_op_ok. intros s0 Hok.
  destruct (findMessageLocked s0 _); [|done].
  pose proof (updateMessageSegmentsLocked_ok
    e.(DynamicInteractionEvent_MessageID) segs s0 Hok) as Hu.
  by destruct (updateMessageSegmentsLocked _ _ _) as [[|] ?].
Qed.

#[export] Hint Resolve StoreDynamicUpdateIdempotent_ok AppendDynamicInteractionEvent_ok
  CommitDynamicInteractionEvent_ok DeleteMessage_ok DeleteConversation_ok DeleteGroup_ok : zzz.
