(* ===== verification/StoreSteps.v ===== *)
(** * The store as a state machine

    [store_op] lists the mutating operations of the [Store] interface; [exec]
    runs one.  Since every operation holds the store's mutex from beginning to
    end, the states a concurrent server can reach are those of the sequences of
    operations, whatever the interleaving of the connections' goroutines. *)
From S2P Require Import Prelude GoLib Types MemoryState MemoryAccounts MemoryMessages.
From S2P Require Import MemoryGroups MessageFacts.
From stdpp Require Import gmap strings list.
From Stdlib Require Import ZArith.

Local Open Scope Z_scope.

Inductive store_op : Type :=
| OpNewUser (u : User)
| OpWriteUser (p : ptr) (f : User -> User)
| OpSetUser (p : ptr)
| OpSetUserOnline (id : string) (online : bool)
| OpUpsertSession (session : Session) (now : time)
| OpDeleteSession (tokenHash : string)
| OpDeleteSessionsForUser (userID : string)
| OpAddFriend (a b : string) (now : time)
| OpRemoveFriend (a b : string)
| OpCreateFriendRequest (fromID toID comment : string) (now : time)
| OpHandleFriendRequest (reqID action : string)
| OpGrantUserTitle (title : UserTitle) (now : time)
| OpDeleteUserTitle (titleID : string)
| OpSetUserBlocked (a b : string) (blocked : bool) (now : time)
| OpCreateUserReport (report : UserReport) (now : time)
| OpUpsertTerminalSession (session : TerminalSession) (now : time)
| OpTouchTerminalSession (id : string) (seenAt : time)
| OpEndTerminalSession (id : string) (endedAt now : time)
| OpStoreMedia (file : MediaFile)
| OpDeleteMedia (id : string)
| OpUpsertPushSubscription (subscription : PushSubscription) (now : time)
| OpDeletePushSubscription (userID endpoint : string)
| OpGetOrCreateConversation (id convType title : string) (now : time)
| OpSaveConversation (conversation : Conversation)
| OpSetConversationPreference (preference : ConversationPreference) (now : time)
| OpDeleteConversation (id : string)
| OpStoreMessageIdempotent (convID senderID nick clientMessageID : string)
    (segments : list MessageSegment) (now : time)
| OpUpdateMessageSegments (msgID : string) (segments : list MessageSegment)
| OpDeleteMessage (msgID : string)
| OpRecallMessage (msgID : string)
| OpReactToMessage (msgID userID emojiID : string) (remove : bool)
| OpStoreDynamicUpdateIdempotent (senderID clientMessageID fingerprint msgID : string)
    (segments : list MessageSegment)
| OpAppendDynamicInteractionEvent (event : DynamicInteractionEvent) (now : time)
| OpCommitDynamicInteractionEvent (event : DynamicInteractionEvent)
    (segments : list MessageSegment) (now : time)
| OpMarkConversationRead (convID userID : string) (now : time)
| OpStoreForward (convID : string) (msgs : list Message) (now1 now2 : time)
| OpCreateGroup (id name avatar ownerID : string) (now1 now2 : time)
| OpUpdateGroup (groupID name avatar announcement : string) (muteAll : bool)
| OpSetGroupMemberRole (groupID userID role : string)
| OpSetGroupMemberMute (groupID userID : string) (mutedUntil : time)
| OpTransferGroupOwnership (groupID currentOwnerID newOwnerID : string)
| OpDeleteGroup (groupID : string)
| OpAddGroupMember (groupID userID : string) (now : time)
| OpRemoveGroupMember (groupID userID : string)
| OpCreateGroupAnnouncement (groupID content authorID : string) (pinned : bool) (now : time)
| OpUpdateGroupAnnouncement (id content : string) (pinned : bool) (now : time)
| OpDeleteGroupAnnouncement (id : string)
| OpMarkGroupAnnouncementRead (id userID : string).

Definition exec `{Runtime} (op : store_op) (s : MemoryStore) : MemoryStore :=
  match op with
  | OpNewUser u => (new_user u s).2
  | OpWriteUser p f => write_user p f s
  | OpSetUser p => (SetUser p s).2
  | OpSetUserOnline id online => (SetUserOnline id online s).2
  | OpUpsertSession session now => (UpsertSession session now s).2
  | OpDeleteSession h => (DeleteSession h s).2
  | OpDeleteSessionsForUser u => (DeleteSessionsForUser u s).2
  | OpAddFriend a b now => (AddFriend a b now s).2
  | OpRemoveFriend a b => (RemoveFriend a b s).2
  | OpCreateFriendRequest a b c now => (CreateFriendRequest a b c now s).2
  | OpHandleFriendRequest id a => (HandleFriendRequest id a s).2
  | OpGrantUserTitle t now => (GrantUserTitle t now s).2
  | OpDeleteUserTitle id => (DeleteUserTitle id s).2
  | OpSetUserBlocked a b x now => (SetUserBlocked a b x now s).2
  | OpCreateUserReport r now => (CreateUserReport r now s).2
  | OpUpsertTerminalSession x now => (UpsertTerminalSession x now s).2
  | OpTouchTerminalSession id t => (TouchTerminalSession id t s).2
  | OpEndTerminalSession id t now => (EndTerminalSession id t now s).2
  | OpStoreMedia f => (StoreMedia f s).2
  | OpDeleteMedia id => (DeleteMedia id s).2
  | OpUpsertPushSubscription x now => (UpsertPushSubscription x now s).2
  | OpDeletePushSubscription u e => (DeletePushSubscription u e s).2
  | OpGetOrCreateConversation id t title now => (GetOrCreateConversation id t title now s).2
  | OpSaveConversation c => (SaveConversation c s).2
  | OpSetConversationPreference p now => (SetConversationPreference p now s).2
  | OpDeleteConversation id => (DeleteConversation id s).2
  | OpStoreMessageIdempotent c u n cid segs now => (StoreMessageIdempotent c u n cid segs now s).2
  | OpUpdateMessageSegments id segs => (UpdateMessageSegments id segs s).2
  | OpDeleteMessage id => (DeleteMessage id s).2
  | OpRecallMessage id => (RecallMessage id s).2
  | OpReactToMessage id u e r => (ReactToMessage id u e r s).2
  | OpStoreDynamicUpdateIdempotent u cid fp id segs =>
      (StoreDynamicUpdateIdempotent u cid fp id segs s).2
  | OpAppendDynamicInteractionEvent e now => (AppendDynamicInteractionEvent e now s).2
  | OpCommitDynamicInteractionEvent e segs now => (CommitDynamicInteractionEvent e segs now s).2
  | OpMarkConversationRead c u now => (MarkConversationRead c u now s).2
  | OpStoreForward c ms t1 t2 => (StoreForward c ms t1 t2 s).2
  | OpCreateGroup id n a o t1 t2 => (CreateGroup id n a o t1 t2 s).2
  | OpUpdateGroup id n a x m => (UpdateGroup id n a x m s).2
  | OpSetGroupMemberRole id u r => (SetGroupMemberRole id u r s).2
  | OpSetGroupMemberMute id u t => (SetGroupMemberMute id u t s).2
  | OpTransferGroupOwnership id a b => (TransferGroupOwnership id a b s).2
  | OpDeleteGroup id => (DeleteGroup id s).2
  | OpAddGroupMember id u now => (AddGroupMember id u now s).2
  | OpRemoveGroupMember id u => (RemoveGroupMember id u s).2
  | OpCreateGroupAnnouncement g c a p now => (CreateGroupAnnouncement g c a p now s).2
  | OpUpdateGroupAnnouncement id c p now => (UpdateGroupAnnouncement id c p now s).2
  | OpDeleteGroupAnnouncement id => (DeleteGroupAnnouncement id s).2
  | OpMarkGroupAnnouncementRead id u => (MarkGroupAnnouncementRead id u s).2
  end.

Definition run_ops `{Runtime} (ops : list store_op) (s : MemoryStore) : MemoryStore :=
  fold_left (fun s op => exec op s) ops s.

(** Splits an operation that is not about the fields of interest into its
    branches, each a record update that [frame] closes. *)
Ltac op_cases tac :=
  cbv beta iota zeta delta [exec new_user write_user SetUser SetUserOnline UpsertSession
    DeleteSession DeleteSessionsForUser AddFriend RemoveFriend CreateFriendRequest
    HandleFriendRequest GrantUserTitle DeleteUserTitle SetUserBlocked CreateUserReport
    UpsertTerminalSession TouchTerminalSession EndTerminalSession StoreMedia DeleteMedia
    UpsertPushSubscription DeletePushSubscription GetOrCreateConversation SaveConversation
    SetConversationPreference ReactToMessage MarkConversationRead StoreForward
    CreateGroup UpdateGroup update_member SetGroupMemberRole SetGroupMemberMute write_group
    TransferGroupOwnership AddGroupMember RemoveGroupMember CreateGroupAnnouncement
    UpdateGroupAnnouncement DeleteGroupAnnouncement MarkGroupAnnouncementRead];
  repeat (case_goal; try solve [tac]); try solve [tac].

Section invariant.
Context `{Runtime}.

Lemma exec_messages_ok op s :
  messages_ok s -> s.(msgCounter) < maxInt64 -> messages_ok (exec op s).
Proof.
  intros Hok Hlt. destruct op;
    try solve [op_cases ltac:(first [done | revert Hok; apply messages_ok_frame; simpl; done || lia])];
    cbn [exec]; eauto using StoreMessageIdempotent_ok with zzz.
Qed.

(** No operation advances the counter by more than one. *)
Lemma StoreMessageIdempotent_counter c u n cid segs now s :
  s.(msgCounter) < maxInt64 -> 0 <= s.(msgCounter) ->
  s.(msgCounter) <= (StoreMessageIdempotent c u n cid segs now s).2.(msgCounter)
    <= s.(msgCounter) + 1.
Proof.
  intros Hlt H0. unfold StoreMessageIdempotent.
  destruct (messageRequestFingerprint c segs) as [fp|]; simpl; [|lia].
  set (existing := if bool_decide (cid = "") then None else _).
  destruct existing as [r|]; [repeat case_goal; simpl; lia|].
  rewrite wrap64_id by (unfold maxInt64 in *; lia).
  case_bool_decide; simpl; lia.
Qed.

Lemma deleteConversation_counter id s :
  (DeleteConversation id s).2.(msgCounter) = s.(msgCounter).
Proof.
  unfold DeleteConversation; simpl. generalize (conv_messages s id).
  intros l. revert s. induction l as [|m l IH]; intros s; simpl; [done|].
  by rewrite IH.
Qed.

Lemma interaction_op_counter e now commit s :
  (forall s, (commit s).2.(msgCounter) = s.(msgCounter)) ->
  (interaction_op e now commit s).2.(msgCounter) = s.(msgCounter).
Proof.
  intros Hc. unfold interaction_op. specialize (Hc s).
  repeat (case_goal; simpl in *; try done).
Qed.

Lemma updateMessageSegmentsLocked_counter id segs s :
  (updateMessageSegmentsLocked id segs s).2.(msgCounter) = s.(msgCounter).
Proof. unfold updateMessageSegmentsLocked. by destruct (find_ptr s id). Qed.

Lemma exec_counter op s :
  s.(msgCounter) < maxInt64 -> 0 <= s.(msgCounter) ->
  s.(msgCounter) <= (exec op s).(msgCounter) <= s.(msgCounter) + 1.
Proof.
  intros Hlt H0.
  destruct op; try solve [op_cases ltac:(simpl; lia)]; cbn [exec].
  - rewrite deleteConversation_counter. lia.
  - by apply StoreMessageIdempotent_counter.
  - unfold UpdateMessageSegments. rewrite updateMessageSegmentsLocked_counter. lia.
  - unfold DeleteMessage. case_goal; simpl; lia.
  - unfold RecallMessage. case_goal; simpl; lia.
  - unfold StoreDynamicUpdateIdempotent.
    pose proof (updateMessageSegmentsLocked_counter msgID segments s) as Hu.
    repeat (case_goal; simpl in *; try lia).
  - unfold AppendDynamicInteractionEvent. rewrite interaction_op_counter; [lia|done].
  - unfold CommitDynamicInteractionEvent. rewrite interaction_op_counter; [lia|].
    intros s0. pose proof (updateMessageSegmentsLocked_counter
      event.(DynamicInteractionEvent_MessageID) segments s0) as Hu.
    repeat (case_goal; simpl in *; try done).
  - unfold DeleteGroup. case_goal; simpl; lia.
Qed.

Lemma run_ops_messages_ok ops s :
  messages_ok s -> s.(msgCounter) + Z.of_nat (length ops) <= maxInt64 ->
  messages_ok (run_ops ops s).
Proof.
  revert s. induction ops as [|op ops IH]; intros s Hok Hlen; simpl in *; [done|].
  pose proof (mo_counter _ Hok).
  pose proof (exec_counter op s ltac:(lia) ltac:(lia)).
  apply IH; [|lia]. apply exec_messages_ok; [done|lia].
Qed.
End invariant.

(** ** Framing: fields an operation does not touch *)
Section frame.
Context `{Runtime} {B : Type} (proj : MemoryStore -> B).

Lemma DeleteConversation_frame id s :
  (forall s m, proj (deleteDynamicInteractionEventsLocked m (deleteMessageIdempotencyLocked m
     (s <| messageReactions ::= delete m |>))) = proj s) ->
  (forall s, proj (s <| conversations ::= delete id |> <| preferences ::= delete id |>
                     <| messages ::= delete id |> <| readStates ::= delete id |>) = proj s) ->
  proj (DeleteConversation id s).2 = proj s.
Proof.
  intros H1 H2. unfold DeleteConversation. cbn [snd]. rewrite H2.
  generalize (conv_messages s id). intros l. revert s.
  induction l as [|m l IH]; intros s; cbn [fold_left]; [done|]. by rewrite IH.
Qed.

Lemma StoreMessageIdempotent_frame c u n cid segs now s :
  (forall s k v, proj (s <| messageIdempotency ::= <[k := v]> |>) = proj s) ->
  (forall s c m x, proj (append_message c m (s <| msgCounter := x |>)) = proj s) ->
  proj (StoreMessageIdempotent c u n cid segs now s).2 = proj s.
Proof.
  intros H1 H2. unfold StoreMessageIdempotent.
  repeat (case_goal; cbn [fst snd]; rewrite ?H1, ?H2; try done).
Qed.
End frame.

(** Closes [proj (exec op s) = proj s] for an operation [op] that leaves [proj]. *)
Ltac frame_exec :=
  first
    [ solve [op_cases ltac:(done)]
    | cbn [exec]; by apply DeleteConversation_frame
    | cbn [exec]; by apply StoreMessageIdempotent_frame
    | cbv beta iota zeta delta [exec UpdateMessageSegments updateMessageSegmentsLocked
        DeleteMessage RecallMessage StoreDynamicUpdateIdempotent AppendDynamicInteractionEvent
        CommitDynamicInteractionEvent interaction_op DeleteGroup];
      repeat (case_goal; simpl; simplify_eq; try done) ].
