(* ===== verification/GroupFacts.v ===== *)
(** * Groups and friendships: invariants

    [group_ok]: a group's members are distinct, every role is owner, admin or
    member, and the owner is the member named by [Group_OwnerID], alone in that
    role.  [friends_ok]: friendship is symmetric and irreflexive. *)
From S2P Require Import Prelude GoLib Types MemoryState MemoryAccounts MemoryMessages.
From S2P Require Import MemoryGroups MessageFacts StoreSteps.
From stdpp Require Import gmap strings list.
From Stdlib Require Import ZArith.

Local Open Scope Z_scope.

Definition valid_role (r : string) : Prop := r = "owner" \/ r = "admin" \/ r = "member".

Record group_ok (g : Group) : Prop := {
  go_nodup : NoDup (GroupMember_UserID <$> g.(Group_Members));
  go_roles : Forall (fun m => valid_role m.(GroupMember_Role)) g.(Group_Members);
  go_owner : Forall (fun m => m.(GroupMember_Role) = "owner" <->
                              m.(GroupMember_UserID) = g.(Group_OwnerID)) g.(Group_Members);
  go_present : g.(Group_OwnerID) ∈ (GroupMember_UserID <$> g.(Group_Members)) }.

Definition groups_ok (s : MemoryStore) : Prop :=
  map_Forall (fun id g => g.(Group_ID) = id /\ group_ok g) s.(groups).

(** ** Updating the member with a given id *)

Definition at_member (u : string) (f : GroupMember -> GroupMember) (m : GroupMember) : GroupMember :=
  if is_member u m then f m else m.

Lemma update_first_at u f ms :
  NoDup (GroupMember_UserID <$> ms) ->
  update_first (is_member u) f ms = at_member u f <$> ms.
Proof.
  induction ms as [|m ms IH]; simpl; [done|]. intros [Hm Hn]%NoDup_cons.
  unfold at_member at 1. destruct (is_member u m) eqn:E; [|f_equal; by apply IH].
  apply bool_decide_eq_true in E. f_equal. rewrite <-(list_fmap_id ms) at 1. apply list_fmap_ext.
  intros i x Hx. unfold at_member, is_member. rewrite bool_decide_false; [done|].
  intros Hu. apply Hm. rewrite E, <-Hu. by eapply list_elem_of_fmap_2, list_elem_of_lookup_2.
Qed.

Lemma update_last_at u f ms :
  NoDup (GroupMember_UserID <$> ms) ->
  update_last_member u f ms = at_member u f <$> ms.
Proof.
  intros Hn. unfold update_last_member. rewrite update_first_at.
  - by rewrite <-fmap_reverse, reverse_involutive.
  - rewrite fmap_reverse. by rewrite reverse_Permutation.
Qed.

Lemma at_member_ids u f (ms : list GroupMember) :
  (forall m, (f m).(GroupMember_UserID) = m.(GroupMember_UserID)) ->
  GroupMember_UserID <$> (at_member u f <$> ms) = GroupMember_UserID <$> ms.
Proof.
  intros Hf. rewrite <-list_fmap_compose. apply list_fmap_ext. intros i m _. simpl.
  unfold at_member. by destruct (is_member u m).
Qed.

Lemma find_member_ids u (ms : list GroupMember) :
  is_Some (find_first (is_member u) ms) <-> u ∈ (GroupMember_UserID <$> ms).
Proof.
  rewrite find_first_is_Some, list_elem_of_fmap. unfold is_member.
  setoid_rewrite bool_decide_eq_true. naive_solver.
Qed.

Lemma find_last_member_ids u (ms : list GroupMember) :
  is_Some (find_last_member u ms) <-> u ∈ (GroupMember_UserID <$> ms).
Proof.
  unfold find_last_member. by rewrite find_member_ids, fmap_reverse, elem_of_reverse.
Qed.

(** ** Operations on one group *)

Lemma new_group_ok id name avatar o t1 t2 :
  group_ok (mkGroup id name avatar "" o false [mkGroupMember o "owner" t1 zero_time] t2).
Proof.
  split; simpl.
  - apply NoDup_singleton.
  - repeat constructor.
  - repeat constructor.
  - apply list_elem_of_singleton. done.
Qed.

(** a change of member fields that leaves ids alone and moves no one into or out
    of the owner's role *)
Lemma update_member_ok g u f :
  (forall m, (f m).(GroupMember_UserID) = m.(GroupMember_UserID)) ->
  (forall m, m ∈ g.(Group_Members) -> m.(GroupMember_UserID) = u ->
     valid_role (f m).(GroupMember_Role)
     /\ ((f m).(GroupMember_Role) = "owner" <-> m.(GroupMember_Role) = "owner")) ->
  group_ok g -> group_ok (g <| Group_Members ::= update_first (is_member u) f |>).
Proof.
  intros Hid Hrole [H1 H2 H3 H4]. split; simpl; rewrite update_first_at by done;
    rewrite ?at_member_ids by done; [done| | |done].
  - apply Forall_fmap, Forall_forall. intros m Hm. simpl. unfold at_member, is_member.
    rewrite Forall_forall in H2. case_bool_decide; [by apply Hrole|by apply H2].
  - apply Forall_fmap, Forall_forall. intros m Hm. simpl. unfold at_member, is_member.
    rewrite Forall_forall in H3. specialize (H3 m Hm).
    case_bool_decide as E; [|done]. rewrite Hid. destruct (Hrole m Hm E) as [_ ->]. done.
Qed.

Lemma add_member_ok g u now :
  find_first (is_member u) g.(Group_Members) = None ->
  group_ok g ->
  group_ok (g <| Group_Members ::= fun ms => ms ++ [mkGroupMember u "member" now zero_time] |>).
Proof.
  intros Hnew [H1 H2 H3 H4].
  assert (Hu : u ∉ (GroupMember_UserID <$> g.(Group_Members))).
  { rewrite <-find_member_ids, Hnew. by intros [? [=]]. }
  split; simpl; rewrite ?fmap_app.
  - apply NoDup_app. split; [done|]. split; [|apply NoDup_singleton].
    intros x Hx ->%list_elem_of_singleton. done.
  - apply Forall_app. split; [done|]. constructor; [by right; right|constructor].
  - apply Forall_app. split; [done|]. constructor; [|constructor]. simpl.
    split; [done|]. intros ->. done.
  - apply elem_of_app. by left.
Qed.

Lemma remove_member_ok g u :
  u <> g.(Group_OwnerID) -> group_ok g ->
  group_ok (g <| Group_Members ::= remove_first (is_member u) |>).
Proof.
  intros Hu [H1 H2 H3 H4].
  assert (Hsub : remove_first (is_member u) g.(Group_Members) `sublist_of` g.(Group_Members))
    by apply remove_first_sublist.
  split; simpl.
  - eapply sublist_NoDup; [exact H1|]. by apply fmap_sublist.
  - rewrite Forall_forall in *. intros m Hm. by eapply H2, elem_of_remove_first.
  - rewrite Forall_forall in *. intros m Hm. by eapply H3, elem_of_remove_first.
  - apply list_elem_of_fmap in H4 as (m & Hm & Hin). apply list_elem_of_fmap.
    exists m. split; [done|]. apply elem_of_remove_first_ne; [done|].
    apply bool_decide_eq_false. congruence.
Qed.

Lemma transfer_ok g a b :
  a = g.(Group_OwnerID) -> b <> a -> b ∈ (GroupMember_UserID <$> g.(Group_Members)) ->
  group_ok g ->
  group_ok (g <| Group_Members ::= update_last_member a (fun m => m <| GroupMember_Role := "member" |>) |>
              <| Group_Members ::= update_last_member b
                   (fun m => m <| GroupMember_Role := "owner" |>
                               <| GroupMember_MutedUntil := zero_time |>) |>
              <| Group_OwnerID := b |>).
Proof.
  intros -> Hne Hb [H1 H2 H3 H4]. split; simpl.
  all: rewrite (update_last_at g.(Group_OwnerID)) by done;
    rewrite (update_last_at b) by (by rewrite at_member_ids).
  - by rewrite !at_member_ids.
  - apply Forall_fmap, Forall_fmap, Forall_forall. intros m Hm. simpl.
    rewrite Forall_forall in H2. unfold at_member, is_member.
    repeat (case_bool_decide; simpl); unfold valid_role; try (by left); try (by right; right).
    by apply H2.
  - apply Forall_fmap, Forall_fmap, Forall_forall. intros m Hm. simpl.
    rewrite Forall_forall in H3. specialize (H3 m Hm). unfold at_member, is_member.
    repeat (case_bool_decide; simpl in *); naive_solver.
  - by rewrite !at_member_ids.
Qed.

(** ** The store *)

Lemma groups_ok_write s id f :
  (forall g, s.(groups) !! id = Some g -> group_ok g -> group_ok (f g)) ->
  (forall g, (f g).(Group_ID) = g.(Group_ID)) ->
  groups_ok s -> groups_ok (write_group id f s).
Proof.
  intros Hf Hid Hok i g. unfold write_group; simpl. rewrite lookup_alter.
  case_decide as E; [subst|apply Hok].
  intros (g0 & Hg0 & ->)%fmap_Some. destruct (Hok _ _ Hg0) as [Hi Hg].
  rewrite Hid. split; [done|]. by apply Hf.
Qed.

Lemma groups_ok_frame s s' : s'.(groups) = s.(groups) -> groups_ok s -> groups_ok s'.
Proof. unfold groups_ok. by intros ->. Qed.

(** The conditions under which an operation keeps groups well formed; the callers
    check them (see the gateway). *)
Definition group_safe (s : MemoryStore) (op : store_op) : Prop :=
  match op with
  | OpSetGroupMemberRole id u role =>
      (role = "admin" \/ role = "member")
      /\ forall g, s.(groups) !! id = Some g -> u <> g.(Group_OwnerID)
  | OpRemoveGroupMember id u => forall g, s.(groups) !! id = Some g -> u <> g.(Group_OwnerID)
  | _ => True
  end.

Lemma groups_ok_update_member s id u f :
  (forall m, (f m).(GroupMember_UserID) = m.(GroupMember_UserID)) ->
  (forall g m, s.(groups) !! id = Some g -> group_ok g ->
     m ∈ g.(Group_Members) -> m.(GroupMember_UserID) = u ->
     valid_role (f m).(GroupMember_Role)
     /\ ((f m).(GroupMember_Role) = "owner" <-> m.(GroupMember_Role) = "owner")) ->
  groups_ok s -> groups_ok (update_member id u f s).2.
Proof.
  intros Hid Hf Hok. unfold update_member. destruct (s.(groups) !! id) as [g|] eqn:Eg; [|done].
  destruct (find_first _ _); [|done]. apply groups_ok_write; [|done|done].
  intros g' Hg' Hg. apply update_member_ok; [done| |done].
  intros m Hm Hu. apply (Hf g'); congruence || done.
Qed.

Lemma SetGroupMemberRole_groups_ok s id u role :
  group_safe s (OpSetGroupMemberRole id u role) ->
  groups_ok s -> groups_ok (SetGroupMemberRole id u role s).2.
Proof.
  intros [Hrole Hown] Hok. apply groups_ok_update_member; [done| |done].
  intros g m Hg [_ H2 H3 _] Hm Hu. rewrite Forall_forall in H3. specialize (H3 m Hm).
  specialize (Hown _ Hg). simpl. split; [right; tauto|].
  split; [intros ->; by destruct Hrole|]. intros Ho%H3. congruence.
Qed.

Lemma SetGroupMemberMute_groups_ok s id u t :
  groups_ok s -> groups_ok (SetGroupMemberMute id u t s).2.
Proof.
  intros Hok. apply groups_ok_update_member; [done| |done].
  intros g m Hg [_ H2 _ _] Hm Hu. rewrite Forall_forall in H2. simpl. split; [|done].
  by apply H2.
Qed.

Lemma TransferGroupOwnership_groups_ok s id a b :
  groups_ok s -> groups_ok (TransferGroupOwnership id a b s).2.
Proof.
  intros Hok. unfold TransferGroupOwnership.
  destruct (s.(groups) !! id) as [g|] eqn:Eg; [|done].
  case_bool_decide as Eo; simpl; [|done].
  destruct (find_last_member a g.(Group_Members)) as [ma|]; [|done].
  case_bool_decide as Eab; [done|].
  destruct (find_last_member b g.(Group_Members)) as [mb|] eqn:Eb; [|done].
  case_bool_decide; [done|]. simpl. apply groups_ok_write; [|done|done].
  intros g' Hg' Hgok. assert (g' = g) as -> by congruence.
  apply transfer_ok; [done|done| |done].
  apply find_last_member_ids. by rewrite Eb.
Qed.

Lemma AddGroupMember_groups_ok s id u now :
  groups_ok s -> groups_ok (AddGroupMember id u now s).2.
Proof.
  intros Hok. unfold AddGroupMember. destruct (s.(groups) !! id) as [g|] eqn:Eg; [|done].
  destruct (find_first _ _) eqn:Ef; [done|]. apply groups_ok_write; [|done|done].
  intros g' Hg' Hgok. assert (g' = g) as -> by congruence. by apply add_member_ok.
Qed.

Lemma RemoveGroupMember_groups_ok s id u :
  group_safe s (OpRemoveGroupMember id u) ->
  groups_ok s -> groups_ok (RemoveGroupMember id u s).2.
Proof.
  intros Hs Hok. unfold RemoveGroupMember. destruct (s.(groups) !! id) as [g|] eqn:Eg; [|done].
  destruct (find_first _ _) eqn:Ef; [|done]. apply groups_ok_write; [|done|done].
  intros g' Hg' Hgok. apply remove_member_ok; [by apply Hs|done].
Qed.

Lemma UpdateGroup_groups_ok s id n a x m :
  groups_ok s -> groups_ok (UpdateGroup id n a x m s).2.
Proof.
  intros Hok. unfold UpdateGroup. destruct (s.(groups) !! id) as [g|] eqn:Eg; [|done].
  apply groups_ok_write; [|done|done]. intros g' _ [H1 H2 H3 H4]. done.
Qed.

Lemma CreateGroup_groups_ok s id n a o t1 t2 :
  groups_ok s -> groups_ok (CreateGroup id n a o t1 t2 s).2.
Proof.
  intros Hok. unfold CreateGroup, groups_ok; simpl. apply map_Forall_insert_2; [|done].
  split; [done|]. apply new_group_ok.
Qed.

Lemma DeleteGroup_groups_ok s id : groups_ok s -> groups_ok (DeleteGroup id s).2.
Proof.
  intros Hok. unfold DeleteGroup. case_goal; [|done]. unfold groups_ok; simpl.
  by apply map_Forall_delete.
Qed.

#[export] Hint Resolve SetGroupMemberRole_groups_ok SetGroupMemberMute_groups_ok
  TransferGroupOwnership_groups_ok AddGroupMember_groups_ok RemoveGroupMember_groups_ok
  UpdateGroup_groups_ok CreateGroup_groups_ok DeleteGroup_groups_ok : zzz.

Section steps.
Context `{Runtime}.

Lemma exec_groups_ok op s : groups_ok s -> group_safe s op -> groups_ok (exec op s).
Proof.
  intros Hok Hs.
  destruct op; cbn [group_safe] in *;
    solve [cbn [exec]; eauto with zzz | revert Hok; apply groups_ok_frame; frame_exec].
Qed.

(** a run whose every operation is safe when it happens *)
Fixpoint safe_run (ops : list store_op) (s : MemoryStore) : Prop :=
  match ops with
  | [] => True
  | op :: ops => group_safe s op /\ safe_run ops (exec op s)
  end.

Lemma run_ops_groups_ok ops s : groups_ok s -> safe_run ops s -> groups_ok (run_ops ops s).
Proof.
  revert s. induction ops as [|op ops IH]; intros s Hok Hs; simpl in *; [done|].
  destruct Hs. apply IH; [by apply exec_groups_ok|done].
Qed.

(** ** Friendships *)

Definition friends_ok (s : MemoryStore) : Prop :=
  forall a b, lookup2 s.(friendships) a b = lookup2 s.(friendships) b a
              /\ lookup2 s.(friendships) a a = None /\ lookup2 s.(friendships) "" b = None.

Lemma lookup2_ensure_inner {V} (m : gmap string (gmap string V)) id a b :
  lookup2 (ensure_inner id m) a b = lookup2 m a b.
Proof.
  unfold ensure_inner, lookup2. destruct (m !! id) eqn:E; [done|].
  destruct (decide (id = a)) as [<-|].
  - by rewrite lookup_insert_eq, E.
  - by rewrite lookup_insert_ne.
Qed.

Lemma AddFriend_lookup a b now s x y :
  lookup2 (AddFriend a b now s).2.(friendships) x y =
  if decide (a <> "" /\ b <> "" /\ a <> b /\ lookup2 s.(friendships) a b = None
             /\ ((x = a /\ y = b) \/ (x = b /\ y = a)))
  then Some now else lookup2 s.(friendships) x y.
Proof.
  unfold AddFriend.
  destruct (bool_decide (a = "") || bool_decide (b = "") || bool_decide (a = b)) eqn:E; simpl.
  { rewrite decide_False; [done|]. intros (?&?&?&_).
    apply orb_true_iff in E as [[E|E]%orb_true_iff|E]; apply bool_decide_eq_true in E; done. }
  apply orb_false_iff in E as [[E1 E2]%orb_false_iff E3].
  apply bool_decide_eq_false in E1, E2, E3.
  destruct (lookup2 (ensure_inner b _) a b) as [t|] eqn:El; simpl;
    rewrite !lookup2_ensure_inner in El.
  - rewrite !lookup2_ensure_inner, decide_False; [done|]. naive_solver.
  - rewrite !lookup2_insert2, !lookup2_ensure_inner.
    repeat case_decide; naive_solver.
Qed.

Lemma RemoveFriend_lookup a b s x y :
  lookup2 (RemoveFriend a b s).2.(friendships) x y =
  if decide (lookup2 s.(friendships) a b <> None /\ ((x = a /\ y = b) \/ (x = b /\ y = a)))
  then None else lookup2 s.(friendships) x y.
Proof.
  unfold RemoveFriend. destruct (lookup2 s.(friendships) a b) as [t|] eqn:El; simpl.
  - rewrite !lookup2_delete2. repeat case_decide; naive_solver.
  - done.
Qed.

Lemma friends_ok_frame s s' :
  s'.(friendships) = s.(friendships) -> friends_ok s -> friends_ok s'.
Proof. unfold friends_ok. by intros ->. Qed.

Lemma exec_friends_ok op s : friends_ok s -> friends_ok (exec op s).
Proof.
  intros Hok. destruct op; try solve [revert Hok; apply friends_ok_frame; frame_exec];
    cbn [exec]; intros x y; destruct (Hok x y) as (H1 & H2 & H3).
  - rewrite !AddFriend_lookup. repeat case_decide; naive_solver.
  - rewrite !RemoveFriend_lookup. repeat case_decide; naive_solver.
Qed.

Lemma run_ops_friends_ok ops s : friends_ok s -> friends_ok (run_ops ops s).
Proof.
  revert s. induction ops as [|op ops IH]; intros s Hok; simpl; [done|].
  by apply IH, exec_friends_ok.
Qed.
End steps.
