(* ===== verification/IdempotencyFacts.v ===== *)
(** * Idempotency records over time

    [filed s key fp id c]: the record under [key] has fingerprint [fp] and points
    to a live message [id] of conversation [c].  Only deleting that message, or
    its conversation, removes it. *)
From S2P Require Import Prelude GoLib Types MemoryState MemoryAccounts MemoryMessages.
From S2P Require Import MemoryGroups MessageFacts StoreSteps.
From stdpp Require Import gmap strings list.
From Stdlib Require Import ZArith.

Local Open Scope Z_scope.

Definition filed (s : MemoryStore) (key fp id c : string) : Prop :=
  exists p m, s.(messageIdempotency) !! key = Some (mkMessageIdempotency fp p)
    /\ msg_at s p = Some m
    /\ m.(Message_ID) = id /\ m.(Message_ConversationID) = c.

(** the operations that do not delete the message [id] of conversation [c] *)
Definition keeps (id c : string) (op : store_op) : Prop :=
  match op with
  | OpDeleteMessage id' => id' <> id
  | OpDeleteConversation c' => c' <> c
  | _ => True
  end.

Lemma filed_frame s s' key fp id c :
  s'.(message_heap) = s.(message_heap) ->
  s'.(messageIdempotency) = s.(messageIdempotency) ->
  filed s key fp id c -> filed s' key fp id c.
Proof.
  intros Hh Hi (p & m & ? & ? & ? & ?). exists p, m. unfold msg_at in *.
  rewrite Hh, Hi. done.
Qed.

Lemma filed_write_message s q f key fp id c :
  (forall m, (f m).(Message_ID) = m.(Message_ID)) ->
  (forall m, (f m).(Message_ConversationID) = m.(Message_ConversationID)) ->
  filed s key fp id c -> filed (write_message q f s) key fp id c.
Proof.
  intros Hid Hc (p & m & Hr & Hm & Him & Hcm).
  destruct (decide (p = q)) as [->|Hne].
  - exists q, (f m). rewrite msg_at_write, Hm, decide_True by done.
    rewrite Hid, Hc. done.
  - exists p, m. rewrite msg_at_write, decide_False; done.
Qed.

Lemma filed_updateMessageSegmentsLocked s id' segs key fp id c :
  filed s key fp id c -> filed (updateMessageSegmentsLocked id' segs s).2 key fp id c.
Proof.
  intros Hf. unfold updateMessageSegmentsLocked. destruct (find_ptr s id'); [|done].
  by apply filed_write_message.
Qed.

Lemma filed_deleteMessageIdempotencyLocked s id' key fp id c :
  id' <> id -> filed s key fp id c ->
  filed (deleteMessageIdempotencyLocked id' s) key fp id c.
Proof.
  intros Hne (p & m & Hr & Hm & Him & Hcm). exists p, m.
  split; [|done]. simpl. apply map_lookup_filter_Some. split; [done|].
  simpl. unfold has_id. rewrite Hm. apply bool_decide_eq_false. congruence.
Qed.

Lemma filed_DeleteMessage s id' key fp id c :
  id' <> id -> filed s key fp id c -> filed (DeleteMessage id' s).2 key fp id c.
Proof.
  intros Hne Hf. unfold DeleteMessage. destruct (conv_of s id'); [|done]. simpl.
  apply filed_deleteMessageIdempotencyLocked; [done|].
  revert Hf. by apply filed_frame.
Qed.

(** a message of another conversation has another id *)
Lemma other_conversation_id s key fp id c c' m :
  messages_ok s -> c' <> c -> filed s key fp id c ->
  m ∈ conv_messages s c' -> m.(Message_ID) <> id.
Proof.
  intros Hok Hne (p & n & _ & Hn & Hid & Hcn) Hm Heq.
  apply list_elem_of_omap in Hm as (q & Hq & Hqm).
  destruct (mo_list _ Hok _ _ Hq) as (m' & Hm' & Hcm').
  assert (q = p) as -> by (eapply mo_inj; [done|done|done|congruence]).
  congruence.
Qed.

Lemma filed_DeleteConversation s c' key fp id c :
  messages_ok s -> c' <> c -> filed s key fp id c ->
  filed (DeleteConversation c' s).2 key fp id c.
Proof.
  intros Hok Hne Hf. unfold DeleteConversation; simpl.
  set (drop_one := fun (s : MemoryStore) (m : Message) => _).
  assert (Hfold : forall l s, Forall (fun m => m.(Message_ID) <> id) l ->
            filed s key fp id c -> filed (fold_left drop_one l s) key fp id c).
  { intros l. induction l as [|m l IH]; intros s0 Hl Hs0; simpl; [done|].
    apply Forall_cons in Hl as [Hm Hl]. apply IH; [done|]. unfold drop_one.
    eapply filed_frame; [done|done|].
    eapply (filed_deleteMessageIdempotencyLocked
              (s0 <| messageReactions ::= delete m.(Message_ID) |>)); [exact Hm|].
    revert Hs0. by apply filed_frame. }
  assert (Hall : Forall (fun m => m.(Message_ID) <> id) (conv_messages s c')).
  { apply Forall_forall. intros m. by apply (other_conversation_id s key fp id c). }
  specialize (Hfold _ s Hall Hf). revert Hfold. by apply filed_frame.
Qed.

Section filed.
Context `{Runtime}.

Lemma filed_StoreMessageIdempotent s c' u n cid segs now key fp id c :
  messages_ok s -> filed s key fp id c ->
  filed (StoreMessageIdempotent c' u n cid segs now s).2 key fp id c.
Proof.
  intros Hok (p & m & Hr & Hm & Him & Hcm). unfold StoreMessageIdempotent.
  assert (Hf : filed s key fp id c) by (by exists p, m).
  assert (Hp : p <> s.(next_ptr)).
  { intros ->. rewrite next_ptr_fresh in Hm; done. }
  destruct (messageRequestFingerprint c' segs) as [fp'|]; [|done].
  case_bool_decide as Hcid; simpl.
  - exists p, m. split; [done|]. split; [|done].
    unfold msg_at; simpl. by rewrite lookup_insert_ne.
  - destruct (s.(messageIdempotency) !! composite_key u cid) as [r|] eqn:Er.
    { repeat case_goal; done. }
    simpl. exists p, m. split; [|split; [|done]].
    + simpl. rewrite lookup_insert_ne; [done|]. congruence.
    + unfold msg_at; simpl. by rewrite lookup_insert_ne.
Qed.

Lemma filed_interaction_op e now commit s key fp id c :
  (filed s key fp id c -> filed (commit s).2 key fp id c) ->
  filed s key fp id c -> filed (interaction_op e now commit s).2 key fp id c.
Proof.
  intros Hc Hf. unfold interaction_op. specialize (Hc Hf).
  repeat (case_goal; simpl in *; try done).
  all: revert Hc; by apply filed_frame.
Qed.

Lemma exec_filed op s key fp id c :
  messages_ok s -> keeps id c op -> filed s key fp id c ->
  filed (exec op s) key fp id c.
Proof.
  intros Hok Hk Hf. destruct op;
    try solve [op_cases ltac:(first [done | revert Hf; apply filed_frame; done])];
    cbn [exec keeps] in *.
  - by apply filed_DeleteConversation.
  - by apply filed_StoreMessageIdempotent.
  - by apply filed_updateMessageSegmentsLocked.
  - by apply filed_DeleteMessage.
  - unfold RecallMessage. destruct (find_ptr s msgID); [|done]. by apply filed_write_message.
  - unfold StoreDynamicUpdateIdempotent.
    pose proof (filed_updateMessageSegmentsLocked s msgID segments key fp id c Hf) as Hu.
    repeat (case_goal; simpl in *; try done).
  - by apply filed_interaction_op.
  - apply filed_interaction_op; [|done]. intros _.
    pose proof (filed_updateMessageSegmentsLocked s
      event.(DynamicInteractionEvent_MessageID) segments key fp id c Hf) as Hu.
    repeat (case_goal; simpl in *; try done).
  - unfold DeleteGroup. case_goal; [|done]. revert Hf. by apply filed_frame.
Qed.

Lemma run_ops_filed ops s key fp id c :
  messages_ok s -> s.(msgCounter) + Z.of_nat (length ops) <= maxInt64 ->
  Forall (keeps id c) ops ->
  filed s key fp id c -> filed (run_ops ops s) key fp id c.
Proof.
  revert s. induction ops as [|op ops IH]; intros s Hok Hlen Hk Hf; simpl in *; [done|].
  apply Forall_cons in Hk as [Hop Hk].
  pose proof (mo_counter _ Hok).
  pose proof (exec_counter op s ltac:(lia) ltac:(lia)).
  apply IH; [apply exec_messages_ok; [done|lia]|lia|done|by apply exec_filed].
Qed.

(** A first send files its record ... *)
Lemma send_files s c u n cid segs now m s' :
  cid <> "" ->
  StoreMessageIdempotent c u n cid segs now s = (Ok (m, false), s') ->
  exists fp, messageRequestFingerprint c segs = Ok fp
    /\ filed s' (composite_key u cid) fp m.(Message_ID) c.
Proof.
  intros Hcid. unfold StoreMessageIdempotent.
  destruct (messageRequestFingerprint c segs) as [fp|]; [|done].
  rewrite bool_decide_false by done.
  destruct (s.(messageIdempotency) !! composite_key u cid) as [r|] eqn:Er.
  { repeat case_goal; naive_solver. }
  intros [= <- <-]. exists fp. split; [done|].
  eexists s.(next_ptr), _. split; [by apply lookup_insert_eq|].
  split; [unfold msg_at; simpl; apply lookup_insert_eq|]. done.
Qed.

(** ... and a request that finds its record is answered from it. *)
Lemma replay_filed s c u n cid segs now fp id :
  cid <> "" -> messageRequestFingerprint c segs = Ok fp ->
  filed s (composite_key u cid) fp id c ->
  exists m, StoreMessageIdempotent c u n cid segs now s = (Ok (m, true), s)
    /\ m.(Message_ID) = id /\ m.(Message_ConversationID) = c.
Proof.
  intros Hcid Hfp (p & m & Hr & Hm & Hid & Hc). unfold StoreMessageIdempotent.
  rewrite Hfp, bool_decide_false by done. rewrite Hr; simpl.
  rewrite bool_decide_true by done. rewrite Hm. eexists. split; [done|]. done.
Qed.

Lemma conflict_filed s c c' u n cid segs now fp fp' id :
  cid <> "" -> messageRequestFingerprint c' segs = Ok fp' -> fp' <> fp ->
  filed s (composite_key u cid) fp id c ->
  StoreMessageIdempotent c' u n cid segs now s = (Err ErrMessageIdempotencyConflict, s).
Proof.
  intros Hcid Hfp Hne (p & m & Hr & Hm & Hid & Hc). unfold StoreMessageIdempotent.
  rewrite Hfp, bool_decide_false by done. rewrite Hr; simpl.
  by rewrite bool_decide_false by congruence.
Qed.

Lemma StoreMessageIdempotent_groups s c u n cid segs now r s1 :
  StoreMessageIdempotent c u n cid segs now s = (r, s1) -> s1.(groups) = s.(groups).
Proof.
  unfold StoreMessageIdempotent. intros Heq.
  repeat (case_in Heq; simplify_eq; try done).
Qed.

(** the record of a first send points into its conversation's list *)
Lemma send_lists s c u n cid segs now m s1 :
  cid <> "" ->
  StoreMessageIdempotent c u n cid segs now s = (Ok (m, false), s1) ->
  exists r, s1.(messageIdempotency) !! composite_key u cid = Some r
    /\ r.(mi_message) ∈ conv_ptrs s1 c.
Proof.
  intros Hcid. unfold StoreMessageIdempotent.
  destruct (messageRequestFingerprint c segs) as [fp|]; [|done].
  rewrite bool_decide_false by done.
  destruct (s.(messageIdempotency) !! composite_key u cid) as [r|] eqn:Er.
  { repeat case_goal; naive_solver. }
  intros [= <- <-]. eexists. split; [by apply lookup_insert_eq|]. simpl.
  unfold conv_ptrs; simpl. rewrite lookup_insert_eq; simpl.
  apply elem_of_app. right. by apply list_elem_of_singleton.
Qed.
End filed.

(** Deleting a conversation keeps only records of messages it does not hold. *)
Lemma DeleteConversation_keeps s c key r :
  (DeleteConversation c s).2.(messageIdempotency) !! key = Some r ->
  s.(messageIdempotency) !! key = Some r
  /\ Forall (fun m => has_id s m.(Message_ID) r.(mi_message) = false) (conv_messages s c).
Proof.
  unfold DeleteConversation; simpl. generalize (conv_messages s c).
  intros l. revert s. induction l as [|m l IH]; intros s; simpl; [done|].
  intros [Hr Hl]%IH. simpl in *. apply map_lookup_filter_Some in Hr as [Hr Hm].
  split; [exact Hr|]. constructor; [exact Hm|]. exact Hl.
Qed.

Lemma DeleteConversation_clears s c key :
  messages_ok s ->
  (exists r, s.(messageIdempotency) !! key = Some r /\ r.(mi_message) ∈ conv_ptrs s c) ->
  (DeleteConversation c s).2.(messageIdempotency) !! key = None.
Proof.
  intros Hok (r & Hr & Hin).
  destruct ((DeleteConversation c s).2.(messageIdempotency) !! key) as [r'|] eqn:E; [|done].
  apply DeleteConversation_keeps in E as [Hr' Hall].
  assert (r' = r) as -> by congruence.
  destruct (mo_list _ Hok _ _ Hin) as (m & Hm & _).
  rewrite Forall_forall in Hall. specialize (Hall m).
  exfalso. assert (has_id s m.(Message_ID) r.(mi_message) = false) as Hf.
  { apply Hall. apply list_elem_of_omap. eauto. }
  unfold has_id in Hf. rewrite Hm in Hf. by apply bool_decide_eq_false in Hf.
Qed.

(** ** What a record points to

    A record points to a message of its conversation's list, or the conversation was a
    group in [gone], which were dismissed. *)
Definition recorded (gone : string -> Prop) (s : MemoryStore) : Prop :=
  forall key r, s.(messageIdempotency) !! key = Some r ->
    exists m, msg_at s r.(mi_message) = Some m
      /\ (r.(mi_message) ∈ conv_ptrs s m.(Message_ConversationID) \/ gone m.(Message_ConversationID)).

(** [s'] has no new record, keeps the messages, and keeps on their lists the messages
    that its records point to *)
Lemma recorded_step (gone gone' : string -> Prop) s s' :
  (forall key r, s'.(messageIdempotency) !! key = Some r -> s.(messageIdempotency) !! key = Some r) ->
  (forall p m, msg_at s p = Some m -> exists m', msg_at s' p = Some m'
     /\ m'.(Message_ConversationID) = m.(Message_ConversationID)) ->
  (forall key r m, s'.(messageIdempotency) !! key = Some r -> msg_at s r.(mi_message) = Some m ->
     r.(mi_message) ∈ conv_ptrs s m.(Message_ConversationID) ->
     r.(mi_message) ∈ conv_ptrs s' m.(Message_ConversationID) \/ gone' m.(Message_ConversationID)) ->
  (forall c, gone c -> gone' c) ->
  recorded gone s -> recorded gone' s'.
Proof.
  intros Hr Hm Hl Hg Hs key r Hk. destruct (Hs key r (Hr _ _ Hk)) as (m & Hat & Hin).
  destruct (Hm _ _ Hat) as (m' & Hat' & Hc). exists m'. split; [done|]. rewrite Hc.
  destruct Hin as [Hin|Hin]; [by eapply Hl|right; auto].
Qed.

Lemma recorded_frame gone s s' :
  s'.(message_heap) = s.(message_heap) -> s'.(messages) = s.(messages) ->
  s'.(messageIdempotency) = s.(messageIdempotency) ->
  recorded gone s -> recorded gone s'.
Proof.
  intros Hh Hm Hi. apply recorded_step; [by rewrite Hi| | |done].
  - intros p m Hp. exists m. unfold msg_at in *. by rewrite Hh.
  - intros key r m _ _ Hin. left. unfold conv_ptrs in *. by rewrite Hm.
Qed.

Lemma recorded_write_message gone p f s :
  (forall m, (f m).(Message_ConversationID) = m.(Message_ConversationID)) ->
  recorded gone s -> recorded gone (write_message p f s).
Proof.
  intros Hc. apply recorded_step; [done| |by left|done].
  intros q m Hq. rewrite msg_at_write, Hq. case_decide; simpl; eauto.
Qed.

Lemma recorded_updateMessageSegmentsLocked gone id segs s :
  recorded gone s -> recorded gone (updateMessageSegmentsLocked id segs s).2.
Proof.
  intros Hs. unfold updateMessageSegmentsLocked. destruct (find_ptr s id); [|done].
  by apply recorded_write_message.
Qed.

(** the records of a deleted message go with it *)
Lemma recorded_DeleteMessage gone id s :
  recorded gone s -> recorded gone (DeleteMessage id s).2.
Proof.
  unfold DeleteMessage. destruct (conv_of s id) as [c|]; [|done]. cbn [snd].
  apply recorded_step; [|eauto| |done].
  - intros key r. cbn. by intros [Hr _]%map_lookup_filter_Some.
  - intros key r m. cbn. intros [_ Hid]%map_lookup_filter_Some Hat Hin. left. cbn in Hid.
    change (r.(mi_message) ∈ conv_ptrs (s <| messages ::=
      <[c := remove_first (has_id s id) (conv_ptrs s c)]> |>) m.(Message_ConversationID)).
    rewrite conv_ptrs_insert. case_decide as Hc; [|done]. subst c.
    by apply elem_of_remove_first_ne.
Qed.

Section recorded.
Context `{Runtime}.

Lemma recorded_StoreMessageIdempotent gone c u n cid segs now s :
  messages_ok s -> recorded gone s ->
  recorded gone (StoreMessageIdempotent c u n cid segs now s).2.
Proof.
  intros Hok Hs. unfold StoreMessageIdempotent.
  destruct (messageRequestFingerprint c segs) as [fp|]; [|done].
  set (existing := if bool_decide (cid = "") then None else _).
  destruct existing as [r|]; [repeat case_goal; done|].
  set (m := mkMessage _ _ _ _ _ _ _ _). set (s1 := append_message _ _ _).
  assert (Hnew : msg_at s1 s.(next_ptr) = Some m).
  { unfold s1. rewrite msg_at_append. by rewrite decide_True. }
  assert (Hlist : s.(next_ptr) ∈ conv_ptrs s1 c).
  { unfold s1. rewrite conv_ptrs_append, decide_True by done.
    apply elem_of_app. right. by apply list_elem_of_singleton. }
  assert (Hs1 : recorded gone s1).
  { revert Hs. apply recorded_step; [done| | |done].
    - intros p m' Hp. exists m'. split; [|done]. unfold s1. rewrite msg_at_append.
      rewrite decide_False; [done|]. intros ->.
      pose proof (next_ptr_fresh s Hok) as Hf. unfold msg_at in *. cbn in Hp. congruence.
    - intros key r m' _ _ Hin. left. unfold s1. rewrite conv_ptrs_append.
      case_decide as Hc; [|done]. rewrite <-Hc in Hin. apply elem_of_app. by left. }
  case_bool_decide; [done|]. cbn [snd]. intros key r. cbn.
  intros [[<- <-]|[_ Hr]]%lookup_insert_Some; [exists m; by split; [|left]|by apply (Hs1 key)].
Qed.

Lemma recorded_DeleteConversation gone c s :
  messages_ok s -> recorded gone s -> recorded gone (DeleteConversation c s).2.
Proof.
  intros Hok Hs key r Hr. apply DeleteConversation_keeps in Hr as [Hr Hall].
  destruct (Hs key r Hr) as (m & Hat & Hin).
  assert (Hheap : (DeleteConversation c s).2.(message_heap) = s.(message_heap))
    by (by apply (DeleteConversation_frame message_heap)).
  assert (Hmsgs : conv_ptrs (DeleteConversation c s).2 = conv_ptrs (s <| messages ::= delete c |>)).
  { unfold DeleteConversation, conv_ptrs. cbn [snd messages]. cbn.
    set (l := conv_messages s c). clearbody l. clear. revert s.
    induction l as [|m l IH]; intros s; [done|]. cbn [fold_left]. rewrite IH. done. }
  exists m. unfold msg_at. rewrite Hheap. split; [done|]. destruct Hin as [Hin|]; [|by right].
  left. rewrite Hmsgs, conv_ptrs_delete. case_decide as Hc; [|done]. exfalso. subst c.
  rewrite Forall_forall in Hall.
  assert (Hf : has_id s m.(Message_ID) r.(mi_message) = false)
    by (apply Hall, list_elem_of_omap; eauto).
  unfold has_id in Hf. rewrite Hat in Hf. by apply bool_decide_eq_false in Hf.
Qed.

Lemma recorded_interaction_op gone e now commit s :
  (forall s, recorded gone s -> recorded gone (commit s).2) ->
  recorded gone s -> recorded gone (interaction_op e now commit s).2.
Proof.
  intros Hc Hs. specialize (Hc s Hs). unfold interaction_op.
  repeat (case_goal; simpl in *; try done).
  all: revert Hc; by apply recorded_frame.
Qed.

Lemma exec_recorded gone op s :
  messages_ok s -> recorded gone s ->
  recorded (fun c => gone c \/ op = OpDeleteGroup c) (exec op s).
Proof.
  intros Hok Hs.
  assert (Hw : forall s', recorded gone s' -> recorded (fun c => gone c \/ op = OpDeleteGroup c) s').
  { intros s' Hs'. revert Hs'. apply recorded_step; eauto. }
  destruct op;
    try solve [apply Hw; op_cases ltac:(first [done | revert Hs; apply recorded_frame; done])];
    cbn [exec] in *.
  - by apply Hw, recorded_DeleteConversation.
  - by apply Hw, recorded_StoreMessageIdempotent.
  - by apply Hw, recorded_updateMessageSegmentsLocked.
  - by apply Hw, recorded_DeleteMessage.
  - apply Hw. unfold RecallMessage. destruct (find_ptr s msgID); [|done].
    by apply recorded_write_message.
  - apply Hw. unfold StoreDynamicUpdateIdempotent.
    pose proof (recorded_updateMessageSegmentsLocked gone msgID segments s Hs) as Hu.
    repeat (case_goal; simpl in *; try done).
  - by apply Hw, recorded_interaction_op.
  - apply Hw, recorded_interaction_op; [|done]. intros s0 Hs0.
    pose proof (recorded_updateMessageSegmentsLocked gone
      event.(DynamicInteractionEvent_MessageID) segments s0 Hs0) as Hu.
    repeat (case_goal; simpl in *; try done).
  - unfold DeleteGroup. case_goal; [|by apply Hw]. cbn [snd]. revert Hs.
    apply recorded_step; [done|eauto| |auto]. intros key r m _ _ Hin.
    destruct (decide (groupID = m.(Message_ConversationID))) as [->|Hne]; [by right; right|left].
    change (r.(mi_message) ∈ conv_ptrs (s <| messages ::= delete groupID |>) m.(Message_ConversationID)).
    by rewrite conv_ptrs_delete, decide_False.
Qed.

Lemma run_ops_recorded gone ops s :
  messages_ok s -> s.(msgCounter) + Z.of_nat (length ops) <= maxInt64 ->
  recorded gone s -> recorded (fun c => gone c \/ OpDeleteGroup c ∈ ops) (run_ops ops s).
Proof.
  revert gone s. induction ops as [|op ops IH]; intros gone s Hok Hlen Hs; simpl in *.
  - revert Hs. apply recorded_step; eauto.
  - pose proof (mo_counter _ Hok). pose proof (exec_counter op s ltac:(lia) ltac:(lia)).
    pose proof (exec_recorded gone op s Hok Hs) as He.
    apply IH in He; [|apply exec_messages_ok; [done|lia]|lia].
    revert He. apply recorded_step; eauto. intros c [[Hc| ->]|Hc]; [by left|right; left|right; by right].
Qed.
End recorded.
