(* ===== verification/MessageReads.v ===== *)
(** * Reading a conversation

    What [GetMessagesBefore], the read cursors and [CountUnreadMessages] compute,
    in terms of the conversation's list of messages; in particular how a client
    walks back through the history page by page. *)
From S2P Require Import Prelude GoLib Types MemoryState MemoryMessages MemoryGroups.
From S2P Require Import MessageFacts StoreSteps.
From stdpp Require Import gmap strings list.
From Stdlib Require Import ZArith.

Local Open Scope Z_scope.

(** Walking back: each page asks for what precedes the first message of the page
    before it, until a page is empty. *)
Fixpoint fetch_history (fuel : nat) (s : MemoryStore) (c before : string) (limit : Z)
  : list Message :=
  match fuel with
  | O => []
  | S fuel =>
      match GetMessagesBefore c before limit s with
      | Ok ((first :: _) as page) => fetch_history fuel s c first.(Message_ID) limit ++ page
      | _ => []
      end
  end.

Section ids.
Context {s : MemoryStore} (Hok : messages_ok s).

Lemma conv_messages_ids c : NoDup (Message_ID <$> conv_messages s c).
Proof.
  unfold conv_messages, deref. pose proof (mo_nodup _ Hok c) as Hn.
  assert (Hl : forall p, p ∈ conv_ptrs s c -> is_Some (msg_at s p)).
  { intros p Hp. destruct (mo_list _ Hok _ _ Hp) as (m & Hm & _). eauto. }
  induction (conv_ptrs s c) as [|p ps IH]; simpl; [constructor|].
  apply NoDup_cons in Hn as [Hp Hn].
  destruct (Hl p) as [m Hm]; [left|]. rewrite Hm; simpl.
  constructor; [|apply IH; [done|]; intros q Hq; apply Hl; by right].
  intros (n & Hid & Hin)%list_elem_of_fmap. apply list_elem_of_omap in Hin as (q & Hq & Hqn).
  assert (p = q) as -> by (eapply mo_inj; done). done.
Qed.

Lemma conv_messages_id_nonempty c m : m ∈ conv_messages s c -> m.(Message_ID) <> "".
Proof.
  intros (p & Hp & Hm)%list_elem_of_omap.
  destruct (mo_heap _ Hok _ _ Hm) as (_ & k & _ & ->). done.
Qed.
End ids.

(** The page before index [e]. *)
Definition page_end (before : string) (msgs : list Message) : nat :=
  if bool_decide (before = "") then length msgs
  else default (length msgs) (index_first (has_msg_id before) msgs).

Lemma GetMessagesBefore_page s c before limit : 0 < limit ->
  GetMessagesBefore c before limit s =
  let e := page_end before (conv_messages s c) in
  Ok (with_reactions s <$>
      drop (e - Nat.min e (Z.to_nat limit)) (take e (conv_messages s c))).
Proof.
  intros Hl. unfold GetMessagesBefore. cbv zeta. fold (has_msg_id before).
  fold (page_end before (conv_messages s c)).
  set (e := page_end before (conv_messages s c)). do 3 f_equal.
  destruct (Z.leb_spec limit 0); [lia|]; simpl. destruct (Z.ltb_spec (Z.of_nat e) limit); lia.
Qed.

Lemma fetch_history_spec s c limit fuel before : messages_ok s -> 0 < limit ->
  let e := page_end before (conv_messages s c) in
  (e <= fuel)%nat ->
  fetch_history fuel s c before limit = with_reactions s <$> take e (conv_messages s c).
Proof.
  intros Hok Hl. revert before. induction fuel as [|fuel IH]; intros before e He.
  { assert (e = 0%nat) as -> by lia. done. }
  cbn [fetch_history]. rewrite GetMessagesBefore_page by done. cbv zeta. fold e.
  set (msgs := conv_messages s c) in *.
  assert (Hlen : (e <= length msgs)%nat).
  { unfold e, page_end. case_bool_decide; [done|].
    destruct (index_first (has_msg_id before) msgs) as [i|] eqn:Ei; simpl; [|done].
    apply index_first_lt in Ei. lia. }
  set (st := (e - Nat.min e (Z.to_nat limit))%nat).
  destruct (drop st (take e msgs)) as [|first rest] eqn:Ep; cbn [fmap list_fmap].
  - apply (f_equal length) in Ep. rewrite length_drop, length_take in Ep. simpl in Ep.
    assert (e = 0%nat) as -> by lia. done.
  - assert (Hfirst : msgs !! st = Some first).
    { rewrite <-(lookup_take_lt msgs e) by (apply (f_equal length) in Ep;
        rewrite length_drop, length_take in Ep; simpl in Ep; lia).
      rewrite <-(Nat.add_0_r st), <-lookup_drop, Ep. done. }
    assert (Hend : page_end first.(Message_ID) msgs = st).
    { unfold page_end. rewrite bool_decide_false.
      - erewrite index_first_lookup; [done|by apply conv_messages_ids|done].
      - eapply (conv_messages_id_nonempty Hok c). by eapply list_elem_of_lookup_2. }
    assert (Hst : (st < e)%nat).
    { apply (f_equal length) in Ep. rewrite length_drop, length_take in Ep. simpl in Ep. lia. }
    change ((with_reactions s first).(Message_ID)) with first.(Message_ID).
    rewrite (IH first.(Message_ID)) by (fold msgs; rewrite Hend; lia).
    fold msgs. rewrite Hend.
    change (with_reactions s first :: (with_reactions s <$> rest))
      with (with_reactions s <$> (first :: rest)).
    rewrite <-Ep, <-fmap_app. f_equal.
    replace (take st msgs) with (take st (take e msgs)); [apply take_drop|].
    rewrite take_take. f_equal. lia.
Qed.

(** ** Histories that only extend a conversation

    [grows c u op]: the operation neither deletes messages of [c] nor moves the
    read cursor of [u] in [c]. *)
Definition grows (c u : string) (op : store_op) : Prop :=
  match op with
  | OpDeleteMessage _ => False
  | OpDeleteConversation c' => c' <> c
  | OpDeleteGroup g => g <> c
  | OpMarkConversationRead c' u' _ => ~ (c' = c /\ u' = u)
  | _ => True
  end.

(** what a read cursor and an unread count see of a message *)
Definition msg_sig (m : Message) : string * string := (m.(Message_ID), m.(Message_SenderID)).
Definition sigs (s : MemoryStore) (c : string) : list (string * string) :=
  msg_sig <$> conv_messages s c.

Definition extends (c u : string) (s s' : MemoryStore) : Prop :=
  lookup2 s'.(readStates) c u = lookup2 s.(readStates) c u
  /\ exists new, sigs s' c = sigs s c ++ new.

Lemma extends_refl c u s : extends c u s s.
Proof. split; [done|]. exists []. by rewrite app_nil_r. Qed.

Lemma extends_trans c u s1 s2 s3 : extends c u s1 s2 -> extends c u s2 s3 -> extends c u s1 s3.
Proof.
  intros [H1 [n1 E1]] [H2 [n2 E2]]. split; [congruence|].
  exists (n1 ++ n2). rewrite E2, E1. by rewrite app_assoc.
Qed.

Lemma extends_frame c u s s' :
  s'.(message_heap) = s.(message_heap) ->
  s'.(messages) !! c = s.(messages) !! c ->
  lookup2 s'.(readStates) c u = lookup2 s.(readStates) c u ->
  extends c u s s'.
Proof.
  intros Hh Hm Hr. split; [done|]. exists []. rewrite app_nil_r.
  unfold sigs, conv_messages, deref, conv_ptrs, msg_at. by rewrite Hh, Hm.
Qed.

Lemma sigs_write_message c p f s :
  (forall m, msg_sig (f m) = msg_sig m) -> sigs (write_message p f s) c = sigs s c.
Proof.
  intros Hf. unfold sigs, conv_messages, deref.
  change (conv_ptrs (write_message p f s) c) with (conv_ptrs s c).
  induction (conv_ptrs s c) as [|q ps IH]; [done|]. cbn [omap list_omap].
  rewrite msg_at_write. destruct (msg_at s q) as [m|]; case_decide; cbn -[msg_sig];
    rewrite ?Hf; by rewrite ?IH.
Qed.

Lemma extends_write_message c u p f s :
  (forall m, msg_sig (f m) = msg_sig m) -> extends c u s (write_message p f s).
Proof.
  intros Hf. split; [done|]. exists []. by rewrite sigs_write_message, app_nil_r.
Qed.

Lemma extends_updateMessageSegmentsLocked c u id segs s :
  extends c u s (updateMessageSegmentsLocked id segs s).2.
Proof.
  unfold updateMessageSegmentsLocked. destruct (find_ptr s id); simpl.
  - by apply extends_write_message.
  - apply extends_refl.
Qed.

Lemma deref_append c m s ps :
  messages_ok s -> (forall p, p ∈ ps -> is_Some (msg_at s p)) ->
  deref (append_message c m s) ps = deref s ps.
Proof.
  intros Hok Hps. unfold deref. induction ps as [|p ps IH]; [done|]. cbn [omap list_omap].
  rewrite msg_at_append. rewrite decide_False.
  - destruct (msg_at s p); rewrite IH; try done; intros q Hq; apply Hps; by right.
  - intros ->. destruct (Hps s.(next_ptr)) as [x Hx]; [left|].
    rewrite next_ptr_fresh in Hx; done.
Qed.

Lemma conv_messages_append c c' m s :
  messages_ok s ->
  conv_messages (append_message c m s) c' =
  if decide (c = c') then conv_messages s c ++ [m] else conv_messages s c'.
Proof.
  intros Hok. unfold conv_messages. rewrite conv_ptrs_append.
  assert (Hl : forall c p, p ∈ conv_ptrs s c -> is_Some (msg_at s p)).
  { intros c0 p Hp. destruct (mo_list _ Hok _ _ Hp) as (x & Hx & _). eauto. }
  case_decide as E.
  - unfold deref. rewrite omap_app. f_equal.
    + apply deref_append; [done|]. apply Hl.
    + cbn [omap list_omap]. by rewrite msg_at_append, decide_True.
  - apply deref_append; [done|]. apply Hl.
Qed.

Section history.
Context `{Runtime}.

Lemma extends_StoreMessageIdempotent c u c' u' n cid segs now s :
  messages_ok s -> extends c u s (StoreMessageIdempotent c' u' n cid segs now s).2.
Proof.
  intros Hok. unfold StoreMessageIdempotent.
  destruct (messageRequestFingerprint c' segs) as [fp|]; [|apply extends_refl].
  destruct (if bool_decide (cid = "") then None else _) as [r|].
  { repeat case_goal; apply extends_refl. }
  set (n0 := wrap64 _). set (m := mkMessage _ _ _ _ _ _ _ _).
  assert (Hok' : messages_ok (s <| msgCounter := s.(msgCounter) |>))
    by (revert Hok; by apply messages_ok_frame).
  assert (Ha : extends c u s (append_message c' m (s <| msgCounter := n0 |>))).
  { split; [done|]. pose proof (conv_messages_append c' c m s Hok) as Hc.
    exists (if decide (c' = c) then [msg_sig m] else []).
    change (msg_sig <$> conv_messages (append_message c' m s) c =
            sigs s c ++ (if decide (c' = c) then [msg_sig m] else [])).
    rewrite Hc. unfold sigs. case_decide; subst.
    - by rewrite fmap_app.
    - by rewrite app_nil_r. }
  case_bool_decide; exact Ha.
Qed.

Lemma extends_DeleteConversation c u c' s : c' <> c -> extends c u s (DeleteConversation c' s).2.
Proof.
  intros Hne. unfold DeleteConversation; simpl.
  set (drop_one := fun (s : MemoryStore) (m : Message) => _).
  assert (Hfold : forall l s0, (fold_left drop_one l s0).(message_heap) = s0.(message_heap)
            /\ (fold_left drop_one l s0).(messages) = s0.(messages)
            /\ (fold_left drop_one l s0).(readStates) = s0.(readStates)).
  { intros l. induction l as [|m l IH]; intros s0; simpl; [done|].
    destruct (IH (drop_one s0 m)) as (-> & -> & ->). done. }
  destruct (Hfold (conv_messages s c') s) as (Hh & Hm & Hr).
  apply extends_frame; simpl.
  - exact Hh.
  - by rewrite lookup_delete_ne, Hm.
  - unfold lookup2. by rewrite lookup_delete_ne, Hr.
Qed.

Lemma extends_interaction_op c u e now commit s :
  extends c u s (commit s).2 -> extends c u s (interaction_op e now commit s).2.
Proof.
  intros Hc. unfold interaction_op.
  repeat (case_goal; simpl in *; try apply extends_refl; try done).
Qed.

Lemma exec_extends c u op s : messages_ok s -> grows c u op -> extends c u s (exec op s).
Proof.
  intros Hok Hg. destruct op;
    try solve [op_cases ltac:(first [apply extends_refl | apply extends_frame; done])];
    cbn [exec grows] in *; try done.
  - by apply extends_DeleteConversation.
  - by apply extends_StoreMessageIdempotent.
  - apply extends_updateMessageSegmentsLocked.
  - unfold RecallMessage. destruct (find_ptr s msgID); simpl.
    + by apply extends_write_message.
    + apply extends_refl.
  - pose proof (extends_updateMessageSegmentsLocked c u msgID segments s) as Hu.
    unfold StoreDynamicUpdateIdempotent.
    repeat (case_goal; simpl in *; try apply extends_refl; try done).
  - apply extends_interaction_op, extends_refl.
  - apply extends_interaction_op.
    pose proof (extends_updateMessageSegmentsLocked c u
      event.(DynamicInteractionEvent_MessageID) segments s) as Hu.
    repeat (case_goal; simpl in *; try apply extends_refl; try done).
  - apply extends_frame; [done|done|]. simpl. rewrite lookup2_insert2.
    by rewrite decide_False.
  - unfold DeleteGroup. case_goal; simpl; [|apply extends_refl].
    apply extends_frame; simpl; [done|by rewrite lookup_delete_ne|].
    unfold lookup2. by rewrite lookup_delete_ne.
Qed.

Lemma run_ops_extends c u ops s :
  messages_ok s -> s.(msgCounter) + Z.of_nat (length ops) <= maxInt64 ->
  Forall (grows c u) ops -> extends c u s (run_ops ops s).
Proof.
  revert s. induction ops as [|op ops IH]; intros s Hok Hlen Hg; simpl in *;
    [apply extends_refl|].
  apply Forall_cons in Hg as [Hop Hg]. pose proof (mo_counter _ Hok).
  pose proof (exec_counter op s ltac:(lia) ltac:(lia)).
  eapply extends_trans; [by apply exec_extends|].
  apply IH; [apply exec_messages_ok; [done|lia]|lia|done].
Qed.
End history.

(** ** Unread counts through signatures *)

Definition sig_not_from (u : string) (x : string * string) : Prop := x.2 <> u.
#[export] Instance sig_not_from_dec u x : Decision (sig_not_from u x).
Proof. unfold sig_not_from. apply _. Defined.

Lemma filter_sigs u (l : list Message) :
  length (filter (not_from u) l) = length (filter (sig_not_from u) (msg_sig <$> l)).
Proof.
  induction l as [|m l IH]; [done|]. cbn [fmap list_fmap].
  rewrite !filter_cons. unfold sig_not_from at 1, not_from at 1.
  repeat case_decide; simpl; unfold msg_sig in *; simpl in *; try done; lia.
Qed.

(** With the cursor on the message at index [i], the unread messages are the
    later ones by others. *)
Lemma CountUnread_at_index s c u st i m :
  messages_ok s -> lookup2 s.(readStates) c u = Some st ->
  conv_messages s c !! i = Some m -> st.(ReadState_LastReadMessageID) = m.(Message_ID) ->
  CountUnreadMessages c u s
  = Ok (Z.of_nat (length (filter (sig_not_from u) (drop (S i) (sigs s c))))).
Proof.
  intros Hok Hst Hi Hid. unfold CountUnreadMessages. rewrite Hst. cbn [unread_start].
  rewrite bool_decide_false.
  - rewrite Hid. fold (has_msg_id m.(Message_ID)).
    rewrite (index_first_lookup _ i) by (done || by apply conv_messages_ids).
    rewrite filter_sigs. unfold sigs. by rewrite fmap_drop.
  - rewrite Hid. eapply (conv_messages_id_nonempty Hok c). by eapply list_elem_of_lookup_2.
Qed.
