(* ===== verification/GatewayFacts.v ===== *)
(** * Invariants of the gateway, under any interleaving

    [gateway_ok cs w]: the registry lists exactly the authenticated connections,
    send queues respect their bound, friendship is symmetric and groups keep their
    structure.  Every modelled handler preserves it step by step, so it holds in
    every interleaving of requests on the connections [cs]. *)
From S2P Require Import Prelude GoLib Types DynamicContent Capabilities MemoryState.
From S2P Require Import MemoryAccounts MemoryMessages MemoryGroups MessageFacts StoreSteps.
From S2P Require Import GroupFacts Prog Vault Gateway GatewayGroups GatewayAccounts.
From S2P Require Import GatewayMessages.
From stdpp Require Import gmap strings list.
From Stdlib Require Import ZArith.

Local Open Scope Z_scope.
Local Open Scope go_scope.

(** ** The invariant *)

Definition user_on (w : World) (c : conn_id) : string := (client_of w c).(Client_userID).

Record registry_ok (w : World) : Prop := {
  ro_registered : forall c u, c ∈ default ∅ (w.(clients) !! u) <->
    is_Some (w.(conns) !! c) /\ user_on w c = u /\ u <> "";
  ro_nonempty : forall u, w.(clients) !! u <> Some ∅ }.

Definition queues_ok (w : World) : Prop :=
  map_Forall (fun _ cl => (length cl.(Client_send) <= send_capacity)%nat) w.(conns).

(** the part of [group_ok] that no interleaving breaks *)
Definition members_ok (g : Group) : Prop :=
  NoDup (GroupMember_UserID <$> g.(Group_Members))
  /\ Forall (fun m => valid_role m.(GroupMember_Role)) g.(Group_Members).
Definition groups_shape (s : MemoryStore) : Prop := map_Forall (fun _ g => members_ok g) s.(groups).

Definition store_ok (s : MemoryStore) : Prop := friends_ok s /\ groups_shape s.

Record gateway_ok (cs : gset conn_id) (w : World) : Prop := {
  gw_registry : registry_ok w;
  gw_queues : queues_ok w;
  gw_known : forall c, c ∈ cs -> is_Some (w.(conns) !! c);
  gw_store : store_ok w.(store) }.

(** ** Store operations preserve the store part *)

Definition roles_valid (op : store_op) : Prop :=
  match op with OpSetGroupMemberRole _ _ r => valid_role r | _ => True end.

Lemma groups_shape_write s id f :
  (forall g, members_ok g -> members_ok (f g)) ->
  groups_shape s -> groups_shape (write_group id f s).
Proof.
  intros Hf Hok i g. unfold write_group; simpl. rewrite lookup_alter. case_decide as E; [subst|apply Hok].
  intros (g0 & Hg0 & ->)%fmap_Some. apply Hf. by eapply Hok.
Qed.

Lemma members_ok_update g u f :
  (forall m, (f m).(GroupMember_UserID) = m.(GroupMember_UserID)) ->
  (forall m, valid_role m.(GroupMember_Role) -> valid_role (f m).(GroupMember_Role)) ->
  members_ok g -> members_ok (g <| Group_Members ::= update_first (is_member u) f |>).
Proof.
  intros Hid Hr [Hn Hv]. unfold members_ok; simpl. rewrite update_first_at by done.
  rewrite at_member_ids by done. split; [done|].
  apply Forall_fmap. eapply Forall_impl; [exact Hv|]. intros m Hm. simpl.
  unfold at_member. destruct (is_member u m); auto.
Qed.

Lemma members_ok_update_last g u f :
  (forall m, (f m).(GroupMember_UserID) = m.(GroupMember_UserID)) ->
  (forall m, valid_role m.(GroupMember_Role) -> valid_role (f m).(GroupMember_Role)) ->
  members_ok g -> members_ok (g <| Group_Members ::= update_last_member u f |>).
Proof.
  intros Hid Hr [Hn Hv]. unfold members_ok; simpl. rewrite update_last_at by done.
  rewrite at_member_ids by done. split; [done|].
  apply Forall_fmap. eapply Forall_impl; [exact Hv|]. intros m Hm. simpl.
  unfold at_member. destruct (is_member u m); auto.
Qed.

Lemma groups_shape_update_member s id u f :
  (forall m, (f m).(GroupMember_UserID) = m.(GroupMember_UserID)) ->
  (forall m, valid_role m.(GroupMember_Role) -> valid_role (f m).(GroupMember_Role)) ->
  groups_shape s -> groups_shape (update_member id u f s).2.
Proof.
  intros H1 H2 Hok. unfold update_member. destruct (s.(groups) !! id); [|done].
  destruct (find_first _ _); [|done]. apply groups_shape_write; [|done].
  intros g'. by apply members_ok_update.
Qed.

Lemma AddGroupMember_shape s id u now :
  groups_shape s -> groups_shape (AddGroupMember id u now s).2.
Proof.
  intros Hok. unfold AddGroupMember. destruct (s.(groups) !! id) as [g|] eqn:Eg; [|done].
  destruct (find_first _ _) eqn:Ef; [done|]. intros i g'. unfold write_group; simpl.
  rewrite lookup_alter. case_decide as E; [subst|apply Hok].
  intros (g0 & Hg0 & ->)%fmap_Some. assert (g0 = g) as -> by congruence.
  destruct (Hok _ _ Hg0) as [Hn Hv]. split; simpl.
  - rewrite fmap_app. apply NoDup_app. split; [done|]. split; [|apply NoDup_singleton].
    intros x Hx ->%list_elem_of_singleton. apply find_member_ids in Hx as [? Hx].
    simpl in Hx. congruence.
  - apply Forall_app. split; [done|]. constructor; [by right; right|constructor].
Qed.

Lemma RemoveGroupMember_shape s id u :
  groups_shape s -> groups_shape (RemoveGroupMember id u s).2.
Proof.
  intros Hok. unfold RemoveGroupMember. destruct (s.(groups) !! id) as [g|] eqn:Eg; [|done].
  destruct (find_first _ _) eqn:Ef; [|done]. apply groups_shape_write; [|done].
  intros g' [Hn Hv]. split; simpl.
  - eapply sublist_NoDup; [exact Hn|]. apply fmap_sublist, remove_first_sublist.
  - rewrite Forall_forall in *. intros m Hm. by eapply Hv, elem_of_remove_first.
Qed.

Lemma TransferGroupOwnership_shape s id a b :
  groups_shape s -> groups_shape (TransferGroupOwnership id a b s).2.
Proof.
  intros Hok. unfold TransferGroupOwnership.
  repeat (case_goal; simpl; try done). apply groups_shape_write; [|done].
  intros g' Hg'.
  apply (members_ok_update_last _ a (fun m => m <| GroupMember_Role := "member" |>)) in Hg';
    [|done|by right; right].
  apply (members_ok_update_last _ b (fun m => m <| GroupMember_Role := "owner" |>
    <| GroupMember_MutedUntil := zero_time |>)) in Hg'; [done|done|by left].
Qed.

Lemma groups_shape_frame s s' : s'.(groups) = s.(groups) -> groups_shape s -> groups_shape s'.
Proof. unfold groups_shape. by intros ->. Qed.

Lemma store_ok_frame s s' :
  s'.(friendships) = s.(friendships) -> s'.(groups) = s.(groups) -> store_ok s -> store_ok s'.
Proof.
  intros H1 H2 [Hf Hg]. split; [by eapply friends_ok_frame|by eapply groups_shape_frame].
Qed.

Section store_steps.
Context `{Runtime}.

Lemma exec_groups_shape op s : roles_valid op -> groups_shape s -> groups_shape (exec op s).
Proof.
  intros Hr Hok. destruct op; try solve [revert Hok; apply groups_shape_frame; frame_exec];
    cbn [exec roles_valid] in *.
  - unfold CreateGroup, groups_shape; simpl. apply map_Forall_insert_2; [|done].
    destruct (new_group_ok id name avatar ownerID now1 now2). done.
  - unfold UpdateGroup. destruct (s.(groups) !! groupID); [|done].
    apply groups_shape_write; [|done]. by intros g' [H1 H2].
  - by apply groups_shape_update_member.
  - by apply groups_shape_update_member.
  - by apply TransferGroupOwnership_shape.
  - unfold DeleteGroup. case_goal; [|done]. by apply map_Forall_delete.
  - by apply AddGroupMember_shape.
  - by apply RemoveGroupMember_shape.
Qed.

Lemma StoreMessage_state conv u n segs t s :
  (StoreMessage conv u n segs t s).2 = (StoreMessageIdempotent conv u n "" segs t s).2.
Proof.
  unfold StoreMessage. by destruct (StoreMessageIdempotent _ _ _ _ _ _ _) as [[[]|] ].
Qed.

Lemma exec_store_ok op s : roles_valid op -> store_ok s -> store_ok (exec op s).
Proof.
  intros Hr [Hf Hg]. split; [by apply exec_friends_ok|by apply exec_groups_shape].
Qed.
End store_steps.

(** ** Atomic steps preserve the invariant *)

(** [store_step Hs] closes [store_ok (f s).2] for a store operation [f] from
    [Hs : store_ok s], by naming the operation. *)
Ltac by_op op := refine (exec_store_ok op _ _ _); [cbn [roles_valid]; try exact Logic.I|assumption].
Ltac store_step :=
  lazymatch goal with
  | |- store_ok (snd (UpdateMessageSegments ?a ?b ?s)) => by_op (OpUpdateMessageSegments a b)
  | |- store_ok (snd (CommitDynamicInteractionEvent ?e ?x ?t ?s)) =>
      by_op (OpCommitDynamicInteractionEvent e x t)
  | |- store_ok (snd (AddFriend ?a ?b ?t ?s)) => by_op (OpAddFriend a b t)
  | |- store_ok (snd (RemoveFriend ?a ?b ?s)) => by_op (OpRemoveFriend a b)
  | |- store_ok (snd (new_user ?u ?s)) => by_op (OpNewUser u)
  | |- store_ok (write_user ?p ?f ?s) => by_op (OpWriteUser p f)
  | |- store_ok (snd (SetUser ?p ?s)) => by_op (OpSetUser p)
  | |- store_ok (snd (SetUserOnline ?u ?b ?s)) => by_op (OpSetUserOnline u b)
  | |- store_ok (snd (UpsertSession ?x ?t ?s)) => by_op (OpUpsertSession x t)
  | |- store_ok (snd (DeleteSession ?x ?s)) => by_op (OpDeleteSession x)
  | |- store_ok (snd (CreateFriendRequest ?a ?b ?x ?t ?s)) => by_op (OpCreateFriendRequest a b x t)
  | |- store_ok (snd (HandleFriendRequest ?a ?b ?s)) => by_op (OpHandleFriendRequest a b)
  | |- store_ok (snd (GrantUserTitle ?x ?t ?s)) => by_op (OpGrantUserTitle x t)
  | |- store_ok (snd (DeleteUserTitle ?x ?s)) => by_op (OpDeleteUserTitle x)
  | |- store_ok (snd (SetUserBlocked ?a ?b ?x ?t ?s)) => by_op (OpSetUserBlocked a b x t)
  | |- store_ok (snd (CreateUserReport ?x ?t ?s)) => by_op (OpCreateUserReport x t)
  | |- store_ok (snd (UpsertTerminalSession ?x ?t ?s)) => by_op (OpUpsertTerminalSession x t)
  | |- store_ok (snd (TouchTerminalSession ?x ?t ?s)) => by_op (OpTouchTerminalSession x t)
  | |- store_ok (snd (EndTerminalSession ?x ?t ?t' ?s)) => by_op (OpEndTerminalSession x t t')
  | |- store_ok (snd (UpsertPushSubscription ?x ?t ?s)) => by_op (OpUpsertPushSubscription x t)
  | |- store_ok (snd (DeletePushSubscription ?a ?b ?s)) => by_op (OpDeletePushSubscription a b)
  | |- store_ok (snd (StoreMessage ?c ?u ?n ?g ?t ?s)) =>
      rewrite StoreMessage_state; by_op (OpStoreMessageIdempotent c u n "" g t)
  | |- store_ok (snd (StoreMessageIdempotent ?c ?u ?n ?i ?g ?t ?s)) =>
      by_op (OpStoreMessageIdempotent c u n i g t)
  | |- store_ok (snd (StoreDynamicUpdateIdempotent ?u ?i ?f ?m ?g ?s)) =>
      by_op (OpStoreDynamicUpdateIdempotent u i f m g)
  | |- store_ok (snd (GetOrCreateConversation ?i ?ty ?n ?t ?s)) =>
      by_op (OpGetOrCreateConversation i ty n t)
  | |- store_ok (snd (Memory.PutTerminalVault _ _ _ _ _)) =>
      eapply store_ok_frame; [..|eassumption]; unfold Memory.PutTerminalVault; by repeat case_goal
  | |- store_ok (snd (Memory.DeleteTerminalVault _ _)) =>
      by (eapply store_ok_frame; [..|eassumption])
  | |- store_ok (snd (SaveConversation ?x ?s)) => by_op (OpSaveConversation x)
  | |- store_ok (snd (SetConversationPreference ?x ?t ?s)) => by_op (OpSetConversationPreference x t)
  | |- store_ok (snd (RecallMessage ?x ?s)) => by_op (OpRecallMessage x)
  | |- store_ok (snd (ReactToMessage ?a ?b ?x ?r ?s)) => by_op (OpReactToMessage a b x r)
  | |- store_ok (snd (MarkConversationRead ?a ?b ?t ?s)) => by_op (OpMarkConversationRead a b t)
  | |- store_ok (snd (StoreForward ?a ?b ?t ?t' ?s)) => by_op (OpStoreForward a b t t')
  | |- store_ok (snd (CreateGroup ?a ?b ?x ?o ?t ?t' ?s)) => by_op (OpCreateGroup a b x o t t')
  | |- store_ok (snd (UpdateGroup ?a ?b ?x ?y ?m ?s)) => by_op (OpUpdateGroup a b x y m)
  | |- store_ok (snd (SetGroupMemberRole ?a ?b ?r ?s)) => by_op (OpSetGroupMemberRole a b r)
  | |- store_ok (snd (SetGroupMemberMute ?a ?b ?t ?s)) => by_op (OpSetGroupMemberMute a b t)
  | |- store_ok (snd (TransferGroupOwnership ?a ?b ?x ?s)) => by_op (OpTransferGroupOwnership a b x)
  | |- store_ok (snd (DeleteGroup ?a ?s)) => by_op (OpDeleteGroup a)
  | |- store_ok (snd (AddGroupMember ?a ?b ?t ?s)) => by_op (OpAddGroupMember a b t)
  | |- store_ok (snd (RemoveGroupMember ?a ?b ?s)) => by_op (OpRemoveGroupMember a b)
  | |- store_ok (snd (CreateGroupAnnouncement ?a ?b ?x ?p ?t ?s)) =>
      by_op (OpCreateGroupAnnouncement a b x p t)
  | |- store_ok (snd (UpdateGroupAnnouncement ?a ?b ?p ?t ?s)) =>
      by_op (OpUpdateGroupAnnouncement a b p t)
  | |- store_ok (snd (DeleteGroupAnnouncement ?a ?s)) => by_op (OpDeleteGroupAnnouncement a)
  | |- store_ok (snd (MarkGroupAnnouncementRead ?a ?b ?s)) => by_op (OpMarkGroupAnnouncementRead a b)
  end.

Lemma is_Some_alter {V} (f : V -> V) (m : gmap conn_id V) c c' :
  is_Some (alter f c m !! c') <-> is_Some (m !! c').
Proof. rewrite lookup_alter. case_decide; subst; [by rewrite fmap_is_Some|done]. Qed.

Lemma client_of_insert w c cl c' :
  client_of (w <| conns ::= <[c := cl]> |>) c' = if decide (c = c') then cl else client_of w c'.
Proof.
  unfold client_of; simpl. case_decide; subst.
  - by rewrite lookup_insert_eq.
  - by rewrite lookup_insert_ne.
Qed.

Lemma client_of_on_client w c f c' :
  client_of (on_client c f w) c' =
  if decide (c = c' /\ is_Some (w.(conns) !! c)) then f (client_of w c') else client_of w c'.
Proof.
  unfold client_of, on_client; simpl. destruct (decide (c = c')) as [<-|Hne].
  - rewrite lookup_alter_eq. destruct (w.(conns) !! c) as [cl|]; simpl.
    + by rewrite decide_True.
    + rewrite decide_False; [done|]. by intros [_ [? ?]].
  - rewrite lookup_alter_ne by done. rewrite decide_False; [done|]. by intros [? _].
Qed.

Section gateway.
Context `{Runtime} (cs : gset conn_id).
Local Notation ok := (gateway_ok cs).

(** a change of store fields, of counters or of the other gateway fields *)
Lemma gateway_ok_frame w w' :
  w'.(clients) = w.(clients) -> w'.(conns) = w.(conns) -> store_ok w'.(store) -> ok w -> ok w'.
Proof.
  intros Hc Hn Hs [[H1 H2] H3 H4 H5]. split; [split| | |done].
  - unfold user_on, client_of in *. by rewrite Hc, Hn.
  - by rewrite Hc.
  - unfold queues_ok. by rewrite Hn.
  - by rewrite Hn.
Qed.

(** a change of one connection that keeps its user and the bound of its queue *)
Lemma gateway_ok_on_client w c f :
  (forall cl, (f cl).(Client_userID) = cl.(Client_userID)) ->
  (forall cl, (length cl.(Client_send) <= send_capacity)%nat ->
              (length (f cl).(Client_send) <= send_capacity)%nat) ->
  ok w -> ok (on_client c f w).
Proof.
  intros Hu Hq [[H1 H2] H3 H4 H5]. split; [split| | |done].
  - intros c' u. unfold user_on. rewrite client_of_on_client. simpl. rewrite H1.
    unfold user_on. rewrite is_Some_alter.
    case_decide; [rewrite Hu|]; done.
  - done.
  - intros c' cl. simpl. rewrite lookup_alter. case_decide; [|apply H3].
    intros (cl0 & Hcl0 & ->)%fmap_Some. apply Hq. by eapply H3.
  - intros c' Hc'. simpl. rewrite is_Some_alter. by apply H4.
Qed.

Lemma enqueue_client_userID data cl : (enqueue_client data cl).2.(Client_userID) = cl.(Client_userID).
Proof. unfold enqueue_client. by repeat case_goal. Qed.

Lemma enqueue_client_bound data cl :
  (length cl.(Client_send) <= send_capacity)%nat ->
  (length (enqueue_client data cl).2.(Client_send) <= send_capacity)%nat.
Proof.
  unfold enqueue_client. destruct (Client_sendDone cl); [done|].
  destruct (Nat.ltb_spec (length cl.(Client_send)) send_capacity) as [Hlt|]; [|done].
  intros _. simpl. rewrite length_app. simpl. lia.
Qed.

(** registering a connection *)
Lemma addClient_ok w c u :
  c ∈ cs -> u <> "" -> ok w -> ok (addClient_step c u w).2.
Proof.
  intros Hc Hu Hok. unfold addClient_step.
  case_bool_decide as Hfree; simpl; [|done].
  set (online := if bool_decide (_ = ∅) then _ else _).
  assert (Hs : store_ok online.2).
  { destruct Hok as [_ _ _ Hs]. unfold online. case_bool_decide; [store_step|done]. }
  destruct online as [[x|e] s]; simpl in *.
  2: { revert Hok. by apply gateway_ok_frame. }
  destruct Hok as [[H1 H2] H3 H4 H5]. split; [split| | |done].
  - intros c' u'. simpl. unfold user_on. rewrite client_of_on_client.
    change (client_of (w <| store := s |> <| clients ::= _ |>) c') with (client_of w c').
    rewrite is_Some_alter. simpl. destruct (decide (u = u')) as [<-|Hne].
    + rewrite lookup_insert_eq. simpl. rewrite elem_of_union, elem_of_singleton, H1.
      unfold user_on. case_decide as E; [destruct E as [<- _]; naive_solver|].
      split; [intros [?| ->]|]; [done| |naive_solver].
      exfalso. apply E. split; [done|by apply H4].
    + rewrite lookup_insert_ne by done. rewrite H1. unfold user_on.
      case_decide as E; [destruct E as [<- _]|done].
      rewrite Hfree. simpl. naive_solver.
  - intros u'. simpl. destruct (decide (u = u')) as [<-|Hne].
    + rewrite lookup_insert_eq. intros [= Heq]. set_solver.
    + by rewrite lookup_insert_ne.
  - intros c' cl. simpl. rewrite lookup_alter. case_decide; [|apply H3].
    intros (cl0 & Hcl0 & ->)%fmap_Some. by eapply H3 in Hcl0.
  - intros c' Hc'. simpl. rewrite is_Some_alter. by apply H4.
Qed.

(** unregistering it *)
Lemma unregister_ok w w' c :
  is_Some (w.(conns) !! c) ->
  w'.(conns) = alter (fun cl => cl <| Client_userID := "" |>) c w.(conns) ->
  (forall u' c', c' ∈ default ∅ (w'.(clients) !! u') <->
                 c' ∈ default ∅ (w.(clients) !! u') /\ c' <> c) ->
  (forall u', w'.(clients) !! u' <> Some ∅) -> store_ok w'.(store) -> ok w -> ok w'.
Proof.
  intros Hc Hconns Hcl Hne Hs [[H1 H2] H3 H4 H5].
  assert (Huser : forall c', user_on w' c' = if decide (c = c') then "" else user_on w c').
  { intros c'. unfold user_on.
    replace (client_of w' c') with
      (client_of (on_client c (fun cl => cl <| Client_userID := "" |>) w) c')
      by (unfold client_of, on_client; simpl; by rewrite Hconns).
    rewrite client_of_on_client. destruct (decide (c = c')) as [<-|].
    - by rewrite decide_True.
    - by rewrite decide_False by naive_solver. }
  split; [split| | |done].
  - intros c' u'. rewrite Hcl, Hconns, is_Some_alter, Huser, H1.
    case_decide; subst; naive_solver.
  - done.
  - intros c' cl. rewrite Hconns, lookup_alter. case_decide; [|apply H3].
    intros (cl0 & Hcl0 & ->)%fmap_Some. by eapply H3 in Hcl0.
  - intros c' Hc'. rewrite Hconns, is_Some_alter. by apply H4.
Qed.

Lemma detachClient_ok w c : ok w -> ok (detachClient_step c w).2.
Proof.
  intros Hok. unfold detachClient_step. case_bool_decide as Hu; [done|].
  set (u := (client_of w c).(Client_userID)) in *.
  pose proof (gw_registry _ _ Hok) as [H1 H2].
  assert (Hs : store_ok (SetUserOnline u false w.(store)).2)
    by (destruct Hok as [_ _ _ Hs]; store_step).
  assert (Hknown : is_Some (w.(conns) !! c)).
  { unfold u, client_of in Hu. destruct (w.(conns) !! c); [eauto|done]. }
  assert (Hother : forall u' c', u <> u' -> c' ∈ default ∅ (w.(clients) !! u') -> c' <> c).
  { intros u' c' Hne Hc' ->. apply H1 in Hc' as (_ & Heq & _). by apply Hne. }
  change ((on_client c (fun cl => cl <| Client_userID := "" |>) w).(clients)) with w.(clients).
  assert (Hin : c ∈ default ∅ (w.(clients) !! u)) by (apply H1; done).
  destruct (w.(clients) !! u) as [set|] eqn:Eset; [|set_solver].
  case_bool_decide as Hlast; simpl;
    (apply (unregister_ok w _ c); [done|done| | | |done]); simpl.
  - intros u' c'. destruct (decide (u = u')) as [<-|Hne].
    + rewrite lookup_delete_eq, Eset. set_solver.
    + rewrite lookup_delete_ne by done. naive_solver.
  - intros u'. destruct (decide (u = u')) as [<-|Hne].
    + by rewrite lookup_delete_eq.
    + by rewrite lookup_delete_ne.
  - done.
  - intros u' c'. destruct (decide (u = u')) as [<-|Hne].
    + rewrite lookup_insert_eq, Eset. set_solver.
    + rewrite lookup_insert_ne by done. naive_solver.
  - intros u'. destruct (decide (u = u')) as [<-|Hne].
    + rewrite lookup_insert_eq. congruence.
    + by rewrite lookup_insert_ne.
  - apply Hok.
Qed.

(** ** The building blocks *)

Lemma always_query {A} (f : MemoryStore -> A) : always ok any (query f).
Proof. apply always_reads. Qed.

Lemma always_call {A} (f : MemoryStore -> A * MemoryStore) :
  (forall s, store_ok s -> store_ok (f s).2) -> always ok any (call f).
Proof.
  intros Hf. apply always_atomic. intros w Hw. specialize (Hf w.(store) (gw_store _ _ Hw)).
  destruct (f w.(store)) as [a s]. simpl in *. revert Hw. by apply gateway_ok_frame.
Qed.

Lemma always_call_at {A} (f : time -> MemoryStore -> A * MemoryStore) :
  (forall t s, store_ok s -> store_ok (f t s).2) -> always ok any (call_at f).
Proof.
  intros Hf. apply always_atomic. intros w Hw.
  specialize (Hf (clock w.(tick)) w.(store) (gw_store _ _ Hw)).
  destruct (f (clock w.(tick)) w.(store)) as [a s]. simpl in *. revert Hw. by apply gateway_ok_frame.
Qed.

Lemma always_call_at2 {A} (f : time -> time -> MemoryStore -> A * MemoryStore) :
  (forall t t' s, store_ok s -> store_ok (f t t' s).2) -> always ok any (call_at2 f).
Proof.
  intros Hf. apply always_atomic. intros w Hw.
  specialize (Hf (clock w.(tick)) (clock (S w.(tick))) w.(store) (gw_store _ _ Hw)).
  destruct (f (clock w.(tick)) (clock (S w.(tick))) w.(store)) as [a s]. simpl in *.
  revert Hw. by apply gateway_ok_frame.
Qed.

Lemma always_frame {A} (f : World -> A * World) :
  (forall w, (f w).2.(clients) = w.(clients)) -> (forall w, (f w).2.(conns) = w.(conns)) ->
  (forall w, (f w).2.(store) = w.(store)) -> always ok any (atomic f).
Proof.
  intros H1 H2 H3. apply always_atomic. intros w Hw. pose proof (gw_store _ _ Hw) as Hs.
  revert Hw. apply gateway_ok_frame; [done|done|]. by rewrite H3.
Qed.

Lemma always_now : always ok any now.
Proof. by apply always_frame. Qed.

Lemma always_enqueue c data : always ok any (enqueue c data).
Proof.
  apply always_atomic. intros w Hw. apply gateway_ok_on_client; [| |done].
  - intros cl. apply enqueue_client_userID.
  - intros cl. apply enqueue_client_bound.
Qed.

Lemma always_closeSend c : always ok any (closeSend c).
Proof.
  apply always_writes. intros w Hw. apply gateway_ok_on_client; [| |done];
    intros cl; by destruct (Client_sendDone cl).
Qed.

Lemma always_set_client c f :
  (forall cl, (f cl).(Client_userID) = cl.(Client_userID)) ->
  (forall cl, (f cl).(Client_send) = cl.(Client_send)) -> always ok any (writes (on_client c f)).
Proof.
  intros H1 H2. apply always_writes. intros w Hw. apply gateway_ok_on_client; [done| |done].
  intros cl. by rewrite H2.
Qed.

Lemma always_writePump c : always ok any (writePump_step c).
Proof.
  apply always_atomic. intros w Hw. destruct (client_of w c).(Client_send) as [|d q] eqn:E; [done|].
  simpl. destruct (w.(conns) !! c) as [cl|] eqn:Ec.
  2: { unfold client_of in E. rewrite Ec in E. done. }
  assert (Hq : (length q <= send_capacity)%nat).
  { pose proof (gw_queues _ _ Hw c cl Ec) as Hb. simpl in Hb.
    unfold client_of in E. rewrite Ec in E. simpl in E. rewrite E in Hb. simpl in Hb. lia. }
  by apply gateway_ok_on_client.
Qed.

Lemma always_addClient c u : c ∈ cs -> u <> "" -> always ok any (addClient c u).
Proof. intros Hc Hu. apply always_atomic. intros w Hw. by apply addClient_ok. Qed.

Lemma always_detachClient c : always ok any (detachClient c).
Proof. apply always_atomic. intros w Hw. by apply detachClient_ok. Qed.

Lemma always_write_user p f : always ok any (write_user_fields p f).
Proof.
  apply always_writes. intros w Hw. pose proof (gw_store _ _ Hw) as Hs. revert Hw.
  apply gateway_ok_frame; [done|done|]. simpl. store_step.
Qed.
End gateway.

Create HintDb gw discriminated.
#[export] Hint Resolve always_query always_now always_enqueue always_closeSend always_writePump
  always_detachClient always_write_user : gw.
#[export] Hint Constants Opaque : gw.

(** One step of the proof that a program preserves the invariant. *)
Ltac gw_step :=
  lazymatch goal with
  | |- always _ _ (Ret _) => exact Logic.I
  | |- always _ _ (bind _ _) => apply (always_bind _ any); [|intros ? _]
  | |- always _ _ (for_each _ _) => apply always_for_each; intros ?
  | |- always _ _ (reads _) => apply always_reads
  | |- always _ _ (call _) => apply always_call; intros; store_step
  | |- always _ _ (call_at _) => apply always_call_at; intros; cbv beta; store_step
  | |- always _ _ (call_at2 _) => apply always_call_at2; intros; store_step
  | |- always _ _ (match ?x with _ => _ end) => destruct x
  | |- always _ _ (let x := _ in _) => cbv zeta
  | |- always _ _ ((fun _ => _) _) => cbv beta
  | |- _ => solve [eauto with gw]
  end.
Ltac gw := repeat gw_step.

Section blocks.
Context `{Runtime} (cs : gset conn_id).
Local Notation ok := (gateway_ok cs).

Lemma always_sendJSON c v : always ok any (sendJSON c v).
Proof. unfold sendJSON. gw. Qed.
Hint Resolve always_sendJSON : gw.

Lemma always_sendError c e m : always ok any (sendError c e m).
Proof. unfold sendError. gw. Qed.
Lemma always_sendOk c e d : always ok any (sendOk c e d).
Proof. unfold sendOk. gw. Qed.
Lemma always_clientsForUser u : always ok any (clientsForUser u).
Proof. unfold clientsForUser. gw. Qed.
Hint Resolve always_sendError always_sendOk always_clientsForUser : gw.

Lemma always_deliver ev c : always ok any (deliver ev c).
Proof. unfold deliver. gw. Qed.
Hint Resolve always_deliver : gw.

Lemma always_sendToUser u ev : always ok any (sendToUser u ev).
Proof. unfold sendToUser. gw. Qed.

Lemma always_clients_of_users us : always ok any (clients_of_users us).
Proof. induction us; cbn [clients_of_users]; gw. Qed.
Lemma always_audience c conv : always ok any (audience c conv).
Proof. unfold audience. gw. Qed.
Hint Resolve always_sendToUser always_clients_of_users always_audience : gw.

Lemma always_broadcast c ev u : always ok any (broadcastToConversation c ev u).
Proof. unfold broadcastToConversation. gw. Qed.
Lemma always_broadcast_except c ev x : always ok any (broadcastToConversationExceptClient c ev x).
Proof. unfold broadcastToConversationExceptClient. gw. Qed.
Lemma always_recipients c u : always ok any (conversationRecipients c u).
Proof. unfold conversationRecipients. gw. Qed.
Lemma always_presence u b : always ok any (notifyFriendPresence u b).
Proof. unfold notifyFriendPresence. gw. Qed.
Lemma always_push_user u p : always ok any (pushEventToUser u p).
Proof.
  unfold pushEventToUser, writes. apply always_frame; intros w; simpl; by case_goal.
Qed.
Lemma always_blocked a b : always ok any (isEitherBlocked a b).
Proof. unfold isEitherBlocked. gw. Qed.
Hint Resolve always_broadcast always_broadcast_except always_recipients always_presence
  always_push_user always_blocked : gw.

Lemma always_canAccess u c : always ok any (canAccessConversation u c).
Proof. unfold canAccessConversation. gw. Qed.
Lemma always_role g u : always ok any (groupMemberRole g u).
Proof. unfold groupMemberRole. gw. Qed.
Hint Resolve always_canAccess always_role : gw.
Lemma always_admin g u : always ok any (isGroupAdmin g u).
Proof. unfold isGroupAdmin. gw. Qed.
Lemma always_sync g : always ok any (syncGroupConversationParticipants g).
Proof. unfold syncGroupConversationParticipants. gw. Qed.
Hint Resolve always_admin always_sync : gw.

Lemma always_check_targets u vs seen ts : always ok any (check_invite_targets u vs seen ts).
Proof.
  revert seen ts. induction vs; intros seen ts; cbn [check_invite_targets]; gw; done.
Qed.
Hint Resolve always_check_targets : gw.
Lemma always_targets u raw : always ok any (validateGroupInviteTargets u raw).
Proof. unfold validateGroupInviteTargets. gw. Qed.
Lemma always_add_members g ms added : always ok any (add_members g ms added).
Proof. revert added. induction ms; intros added; cbn [add_members]; gw. Qed.
Hint Resolve always_targets always_add_members : gw.

Lemma always_authenticated c req bad k :
  (forall u params, always ok any (k u params)) -> always ok any (authenticated c req bad k).
Proof. intros Hk. unfold authenticated, client_userID. gw. Qed.
End blocks.
#[export] Hint Resolve always_sendJSON always_sendError always_sendOk always_clientsForUser
  always_deliver always_sendToUser always_clients_of_users always_audience always_broadcast
  always_broadcast_except always_recipients always_presence always_push_user always_blocked
  always_canAccess always_role always_admin always_sync always_check_targets always_targets
  always_add_members : gw.

(** A handler that starts with the shared checks. *)
Ltac gw_handler := apply always_authenticated; intros ? ?; gw.

Section handlers.
Context `{Runtime} (cs : gset conn_id).
Local Notation ok := (gateway_ok cs).

Lemma always_handleCreateGroup c req : always ok any (handleCreateGroup c req).
Proof. gw_handler. Qed.
Lemma always_handleGroupInvite c req : always ok any (handleGroupInvite c req).
Proof. gw_handler. Qed.
Lemma always_handleJoinGroup c req : always ok any (handleJoinGroup c req).
Proof. gw_handler. Qed.
Lemma always_handleLeaveGroup c req : always ok any (handleLeaveGroup c req).
Proof. gw_handler. Qed.
Lemma always_handleGroupKick c req : always ok any (handleGroupKick c req).
Proof. gw_handler. Qed.
Lemma always_handleGroupBan c req : always ok any (handleGroupBan c req).
Proof. gw_handler. Qed.
Lemma always_handleUpdateGroup c req : always ok any (handleUpdateGroup c req).
Proof. gw_handler. Qed.
Lemma always_handleSetGroupAdmin c req : always ok any (handleSetGroupAdmin c req).
Proof. gw_handler. all: case_goal; [by right; left|by right; right]. Qed.
Lemma always_handleTransferGroup c req : always ok any (handleTransferGroup c req).
Proof. gw_handler. Qed.
Lemma always_handleDismissGroup c req : always ok any (handleDismissGroup c req).
Proof. gw_handler. Qed.
Lemma always_handleGroupMuteAll c req : always ok any (handleGroupMuteAll c req).
Proof. gw_handler. Qed.
End handlers.
