(* ===== verification/HandlerFacts.v ===== *)
(** * The handlers and the dispatch preserve the invariant

    The remaining handlers of the gateway, in the style of the group handlers of
    [GatewayFacts]; then every request. *)
From S2P Require Import Prelude GoLib Types DynamicContent Capabilities MemoryState.
From S2P Require Import MemoryAccounts MemoryMessages MemoryGroups MessageFacts StoreSteps.
From S2P Require Import GroupFacts Prog Vault Gateway GatewayGroups GatewayAccounts.
From S2P Require Import GatewayMessages GatewayReads GatewayEvents GatewaySend GatewayFacts.
From stdpp Require Import gmap strings list.
From Stdlib Require Import ZArith.

Local Open Scope Z_scope.
Local Open Scope go_scope.

Ltac case_if :=
  lazymatch goal with |- always _ _ (if ?b then _ else _) => destruct b eqn:? end.

Section accounts.
Context `{Runtime} (cs : gset conn_id).
Local Notation ok := (gateway_ok cs).

Lemma always_read_user p : always ok any (read_user p).
Proof. apply always_query. Qed.
Lemma always_nickname u : always ok any (nickname_or_id u).
Proof. unfold nickname_or_id. gw. Qed.
Lemma always_groups_with_counts gs : always ok any (groups_with_counts gs).
Proof. induction gs; cbn [groups_with_counts]; gw. Qed.
Hint Resolve always_read_user always_nickname always_groups_with_counts : gw.
Lemma always_mutualGroups a b : always ok any (mutualGroups a b).
Proof. unfold mutualGroups. gw. Qed.
Hint Resolve always_mutualGroups : gw.

Lemma always_draw {A} (f : nat -> A) :
  always ok any (atomic (fun w => (f w.(draws), w <| draws ::= S |>))).
Proof. by apply always_frame. Qed.
Hint Resolve always_draw : gw.

Lemma always_issueSession u : always ok any (issueSession u).
Proof. unfold issueSession. gw. Qed.
Lemma always_userForSession t : always ok any (userForSession t).
Proof. unfold userForSession. gw. Qed.
Hint Resolve always_issueSession always_userForSession : gw.

Lemma always_handleLogout c req : always ok any (handleLogout c req).
Proof. unfold handleLogout. gw. Qed.

(** credentials, when accepted, name a valid user *)
Definition valid_identity (r : result (string * bool)) : Prop :=
  match r with Ok (u, _) => validUserID u = true | Err _ => True end.

Lemma always_check_credentials params : always ok valid_identity (check_credentials params).
Proof.
  unfold check_credentials.
  apply (always_bind _ any); [gw|intros access _].
  apply (always_bind _ any); [gw|intros resolved _]. cbv zeta.
  case_if; [done|].
  apply (always_bind _ any); [gw|intros pw _].
  repeat case_if; try done. simpl. by apply negb_false_iff.
Qed.

Lemma validUserID_nonempty u : validUserID u = true -> u <> "".
Proof. unfold validUserID. intros Hv ->. done. Qed.

Lemma always_load_account u p : always ok any (load_account u p).
Proof. unfold load_account. gw. Qed.
Hint Resolve always_load_account : gw.

Lemma always_handleAuth c req : c ∈ cs -> always ok any (handleAuth c req).
Proof.
  intros Hc. unfold handleAuth, client_userID.
  apply (always_bind _ any); [gw|intros current _]. cbv zeta.
  destruct (as_object _) as [params|]; [|gw].
  destruct (128 <? _); [gw|]. destruct (parseClientCapabilities _) as [caps|]; [|gw].
  eapply always_bind; [apply always_check_credentials|]. intros [[u b]|e] Hu; [|gw].
  simpl in Hu. apply validUserID_nonempty in Hu.
  pose proof (always_addClient cs c u Hc Hu) as Hadd.
  assert (Hcaps : forall caps, always ok any (writes (on_client c (fun cl =>
            cl <| Client_capabilities := caps |>)))) by (intros; by apply always_set_client).
  assert (Hterm : forall d id, always ok any (writes (on_client c (fun cl =>
            cl <| Client_deviceID := d |> <| Client_terminalSessionID := id |>))))
    by (intros; by apply always_set_client).
  gw.
Qed.
(** what the gateway assumes of the media service: it preserves the invariant too *)
Definition media_ok (media : media_uploader) : Prop :=
  match media with
  | None => True
  | Some save => forall name kind mime data u, always ok any (save name kind mime data u)
  end.

Lemma always_store_avatar media u a f n m :
  media_ok media -> always ok any (store_avatar media u a f n m).
Proof. intros Hm. unfold store_avatar. destruct media; simpl in Hm; gw. Qed.
Hint Resolve always_store_avatar : gw.

Lemma always_handleRegister media c req :
  media_ok media -> always ok any (handleRegister media c req).
Proof. intros Hm. unfold handleRegister. gw. by apply always_frame. Qed.

Lemma always_profileUser v p g : always ok any (profileUser v p g).
Proof. unfold profileUser. gw. Qed.
Lemma always_notifyProfile p x : always ok any (notifyProfileUpdate p x).
Proof. unfold notifyProfileUpdate. gw. Qed.
Hint Resolve always_profileUser always_notifyProfile : gw.

Lemma always_profile_field c e p params key valid refusal k :
  always ok any k -> always ok any (profile_field c e p params key valid refusal k).
Proof. intros Hk. unfold profile_field. gw. Qed.

Lemma always_handleUpdateProfile c req : always ok any (handleUpdateProfile c req).
Proof.
  apply always_authenticated; intros u params. gw.
  repeat (apply always_profile_field). gw.
Qed.

Lemma always_handleEnsureConversation c req : always ok any (handleEnsureConversation c req).
Proof. gw_handler. Qed.
Lemma always_handleFriendRequest c req : always ok any (handleFriendRequest c req).
Proof. gw_handler. Qed.
Lemma always_handleFriendHandle c req : always ok any (handleFriendHandle c req).
Proof. gw_handler. Qed.
Lemma always_handleRemoveFriend c req : always ok any (handleRemoveFriend c req).
Proof. gw_handler. Qed.
Lemma always_handleSetUserBlocked c req : always ok any (handleSetUserBlocked c req).
Proof. gw_handler. Qed.
Lemma always_handleReportUser c req : always ok any (handleReportUser c req).
Proof. gw_handler. Qed.
Lemma always_handleGrantUserTitle c req : always ok any (handleGrantUserTitle c req).
Proof. gw_handler. Qed.
Lemma always_handleRevokeUserTitle c req : always ok any (handleRevokeUserTitle c req).
Proof. gw_handler. Qed.
Lemma always_handleGetTerminalVault c req : always ok any (handleGetTerminalVault c req).
Proof. unfold handleGetTerminalVault, client_userID. gw. Qed.
Lemma always_handlePutTerminalVault c req : always ok any (handlePutTerminalVault c req).
Proof. gw_handler. Qed.
Lemma always_handleDeleteTerminalVault c req : always ok any (handleDeleteTerminalVault c req).
Proof. unfold handleDeleteTerminalVault, client_userID. gw. Qed.
Lemma always_handlePing c req : always ok any (handlePing c req).
Proof. unfold handlePing. gw. Qed.

Lemma always_removeClient c : always ok any (removeClient c).
Proof.
  unfold removeClient. assert (Ht : always ok any (writes (on_client c (fun cl =>
    cl <| Client_terminalSessionID := "" |>)))) by (by apply always_set_client).
  gw.
Qed.
End accounts.

Section messages.
Context `{Runtime} (cs : gset conn_id).
Local Notation ok := (gateway_ok cs).

Lemma always_handleReactMessage c req : always ok any (handleReactMessage c req).
Proof. gw_handler. Qed.
Lemma always_handleRecallMessage c req : always ok any (handleRecallMessage c req).
Proof. gw_handler. Qed.
Lemma always_handleSetConversationPreferences c req :
  always ok any (handleSetConversationPreferences c req).
Proof. gw_handler. Qed.
Lemma always_handleMarkRead c req : always ok any (handleMarkRead c req).
Proof. gw_handler. Qed.
Lemma always_message_list caps u rs st ms : always ok any (message_list caps u rs st ms).
Proof. induction ms; cbn [message_list]; gw. Qed.
Hint Resolve always_message_list : gw.
Lemma always_handleGetMessages c req : always ok any (handleGetMessages c req).
Proof. gw_handler. Qed.
Lemma always_forward_sources u ids seen : always ok any (forward_sources u ids seen).
Proof. revert seen. induction ids; intros seen; cbn [forward_sources]; gw. Qed.
Hint Resolve always_forward_sources : gw.
Lemma always_handleCreateForward c req : always ok any (handleCreateForward c req).
Proof. gw_handler. Qed.
Lemma always_handleGetForwardMessage c req : always ok any (handleGetForwardMessage c req).
Proof. gw_handler. Qed.
Lemma always_handleUploadFile media c req :
  media_ok cs media -> always ok any (handleUploadFile media c req).
Proof. intros Hm. destruct media; simpl in Hm; gw_handler. Qed.

Lemma always_pushToConversation c m u i : always ok any (pushToConversation c m u i).
Proof.
  unfold pushToConversation. gw. by apply always_frame.
Qed.
Hint Resolve always_pushToConversation : gw.
Lemma always_push_subs send u p : always ok any (push_to_subscriptions send u p).
Proof. unfold push_to_subscriptions. gw. Qed.
Hint Resolve always_push_subs : gw.
Lemma always_run_push_job send job : always ok any (run_push_job send job).
Proof. destruct job; cbn [run_push_job]; gw. Qed.
Lemma always_handleRegisterPush c req : always ok any (handleRegisterPush c req).
Proof. unfold handleRegisterPush, client_userID. gw. Qed.
Lemma always_handleUnregisterPush c req : always ok any (handleUnregisterPush c req).
Proof. gw_handler. Qed.

(** *** Announcements *)

Lemma always_announcementTarget c req m k :
  (forall u params g, always ok any (k u params g)) ->
  always ok any (groupAnnouncementTarget c req m k).
Proof. intros Hk. gw_handler. Qed.
Lemma always_announcementByID c req m k :
  (forall u params a, always ok any (k u params a)) ->
  always ok any (groupAnnouncementByID c req m k).
Proof. intros Hk. gw_handler. Qed.
Lemma always_syncLegacy g : always ok any (syncLegacyGroupAnnouncement g).
Proof. unfold syncLegacyGroupAnnouncement. gw. Qed.
Lemma always_announcementNotice g a o x :
  always ok any (broadcastGroupAnnouncementNotice g a o x).
Proof. unfold broadcastGroupAnnouncementNotice. gw. Qed.
Hint Resolve always_syncLegacy always_announcementNotice : gw.
Lemma always_publish u a : always ok any (publishGroupAnnouncement u a).
Proof. unfold publishGroupAnnouncement. gw. Qed.
Hint Resolve always_publish : gw.

Lemma always_handleGetGroupAnnouncements c req :
  always ok any (handleGetGroupAnnouncements c req).
Proof. apply always_announcementTarget. intros. gw. Qed.
Lemma always_handleCreateGroupAnnouncement c req :
  always ok any (handleCreateGroupAnnouncement c req).
Proof. apply always_announcementTarget. intros. gw. Qed.
Lemma always_handleUpdateGroupAnnouncement c req :
  always ok any (handleUpdateGroupAnnouncement c req).
Proof. apply always_announcementByID. intros. gw. Qed.
Lemma always_handleDeleteGroupAnnouncement c req :
  always ok any (handleDeleteGroupAnnouncement c req).
Proof. apply always_announcementByID. intros. gw. Qed.
Lemma always_handleMarkGroupAnnouncementRead c req :
  always ok any (handleMarkGroupAnnouncementRead c req).
Proof. apply always_announcementByID. intros. gw. Qed.
End messages.

(** ** Every request

    The listings, [handleSendMessage] and the dispatch; [gateway_thread] lists the
    goroutines of the gateway. *)

Section reads.
Context `{Runtime} (cs : gset conn_id).
Local Notation ok := (gateway_ok cs).

Lemma always_logged_in c req k : (forall u, always ok any (k u)) -> always ok any (logged_in c req k).
Proof. intros Hk. unfold logged_in, client_userID. gw. Qed.

Lemma always_shown_as u conv : always ok any (shown_as u conv).
Proof. unfold shown_as. gw. Qed.
Hint Resolve always_shown_as : gw.
Lemma always_conversation_list u convs : always ok any (conversation_list u convs).
Proof. induction convs; cbn [conversation_list]; gw. Qed.
Hint Resolve always_conversation_list : gw.
Lemma always_handleGetConversations c req : always ok any (handleGetConversations c req).
Proof. apply always_logged_in. intros. gw. Qed.
Lemma always_handleGetUser c req : always ok any (handleGetUser c req).
Proof. apply always_authenticated. intros. pose proof (always_profileUser cs). gw. Qed.
Lemma always_handleGetUsers c req : always ok any (handleGetUsers c req).
Proof. apply always_logged_in. intros. gw. Qed.
Lemma always_handleGetFriends c req : always ok any (handleGetFriends c req).
Proof. apply always_logged_in. intros. gw. Qed.
Lemma always_search_matches u q rs us : always ok any (search_matches u q rs us).
Proof.
  induction us; cbn [search_matches]; [gw|]. apply (always_bind _ any); [apply always_query|intros ? _]. gw.
Qed.
Hint Resolve always_search_matches : gw.
Lemma always_handleSearchUsers c req : always ok any (handleSearchUsers c req).
Proof. gw_handler. Qed.
Lemma always_friend_request_list rs : always ok any (friend_request_list rs).
Proof. induction rs; cbn [friend_request_list]; gw. Qed.
Hint Resolve always_friend_request_list : gw.
Lemma always_handleGetFriendRequests c req : always ok any (handleGetFriendRequests c req).
Proof. apply always_logged_in. intros. gw. Qed.
Lemma always_group_list gs : always ok any (group_list gs).
Proof. induction gs; cbn [group_list]; gw. Qed.
Hint Resolve always_group_list : gw.
Lemma always_handleGetGroupList c req : always ok any (handleGetGroupList c req).
Proof. apply always_logged_in. intros. gw. Qed.
Lemma always_member_list ms : always ok any (member_list ms).
Proof. induction ms; cbn [member_list]; gw. Qed.
Hint Resolve always_member_list : gw.
Lemma always_handleGetGroupInfo c req : always ok any (handleGetGroupInfo c req).
Proof. gw_handler. Qed.
Lemma always_handleGetPushConfig key c req : always ok any (handleGetPushConfig key c req).
Proof. apply always_logged_in. intros. gw. Qed.
End reads.

Section send.
Context `{Runtime} (cs : gset conn_id).
Local Notation ok := (gateway_ok cs).

Lemma always_validateForward s c : always ok any (validateForwardSegment s c).
Proof. unfold validateForwardSegment. gw. Qed.
Lemma always_validatePoke s c u : always ok any (validatePokeSegment s c u).
Proof.
  unfold validatePokeSegment. gw. apply always_frame; intros w; unfold poke_step; by case_goal.
Qed.
Lemma always_validateTerminal s t : always ok any (validateTerminalSegment s t).
Proof. unfold validateTerminalSegment. gw. Qed.
Lemma always_agent_route_role d u c t r segs : always ok any (agent_route_role d u c t r segs).
Proof. revert r. induction segs; intros r; cbn [agent_route_role]; gw. Qed.
Hint Resolve always_validateForward always_validatePoke always_validateTerminal
  always_agent_route_role : gw.
Lemma always_validateAgentRoute d u c t segs :
  always ok any (validateAgentRouteSegments d u c t segs).
Proof. unfold validateAgentRouteSegments. gw. Qed.
Lemma always_sender_of u : always ok any (sender_of u).
Proof. unfold sender_of. gw. Qed.
Hint Resolve always_validateAgentRoute always_sender_of : gw.
Lemma always_mutate_dynamic c e u conv t i f m s :
  always ok any (mutate_dynamic c e u conv t i f m s).
Proof. unfold mutate_dynamic. gw. Qed.
Hint Resolve always_mutate_dynamic : gw.
Lemma always_handleDynamicMutation c e u conv t i s :
  always ok any (handleDynamicMutation c e u conv t i s).
Proof. unfold handleDynamicMutation. gw. Qed.
Lemma always_private_refusal u c : always ok any (private_refusal u c).
Proof.
  unfold private_refusal. apply (always_bind _ any); [gw|]. intros [[conv|]|] _; [|done..].
  induction (Conversation_Participants conv); gw.
Qed.
Lemma always_group_refusal u c : always ok any (group_refusal u c).
Proof. unfold group_refusal. gw. Qed.
Lemma always_check_content u c t s : always ok any (check_content u c t s).
Proof. unfold check_content. gw. Qed.
Hint Resolve always_handleDynamicMutation always_private_refusal always_group_refusal
  always_check_content : gw.
Lemma always_scan_dynamic u c t a p segs : always ok any (scan_dynamic u c t a p segs).
Proof. revert p. induction segs; intros p; cbn [scan_dynamic]; gw. Qed.
Lemma always_check_reply c n s : always ok any (check_reply c n s).
Proof. unfold check_reply. gw. Qed.
Hint Resolve always_scan_dynamic always_check_reply : gw.
Lemma always_validate_segments u c t n segs : always ok any (validate_segments u c t n segs).
Proof. revert n. induction segs; intros n; cbn [validate_segments]; unfold and_then; gw. Qed.
Lemma always_store_and_broadcast c e u conv t i segs :
  always ok any (store_and_broadcast c e u conv t i segs).
Proof. unfold store_and_broadcast. pose proof (always_pushToConversation cs). gw. Qed.
Hint Resolve always_validate_segments always_store_and_broadcast : gw.

Lemma always_interaction_total c : always ok any (dynamicInteractionTotal c).
Proof. unfold dynamicInteractionTotal. gw. Qed.
Hint Resolve always_interaction_total : gw.
Lemma always_announce_event c e u n a t ev m s r red f b :
  always ok any (announce_event c e u n a t ev m s r red f b).
Proof. unfold announce_event. gw. Qed.
Hint Resolve always_announce_event : gw.
Lemma always_apply_event c e u n a t cfg b m ev s evs :
  always ok any (apply_event c e u n a t cfg b m ev s evs).
Proof. unfold apply_event. gw. Qed.
Hint Resolve always_apply_event : gw.
Lemma always_handleDynamicEvent c e u conv t s : always ok any (handleDynamicEvent c e u conv t s).
Proof. unfold handleDynamicEvent. gw. Qed.
Lemma always_handleGetDynamicInteractions c req :
  always ok any (handleGetDynamicInteractions c req).
Proof. gw_handler. Qed.
Hint Resolve always_handleDynamicEvent : gw.

Lemma always_handleSendMessage c req : always ok any (handleSendMessage c req).
Proof.
  apply always_authenticated. intros u params. unfold unless_refused. gw.
Qed.
End send.

(** ** Dispatch *)

Create HintDb routes discriminated.
#[export] Hint Resolve always_handleAuth always_handleRegister always_handleLogout
  always_handlePing always_handleSendMessage always_handleEnsureConversation
  always_handleRecallMessage always_handleReactMessage always_handleGetConversations
  always_handleSetConversationPreferences always_handleGetMessages always_handleMarkRead
  always_handleGetUser always_handleUpdateProfile always_handleGrantUserTitle
  always_handleRevokeUserTitle always_handleSetUserBlocked always_handleReportUser
  always_handleGetUsers always_handleGetFriends always_handleSearchUsers
  always_handleGetFriendRequests always_handleRemoveFriend always_handleGetGroupList
  always_handleGetGroupInfo always_handleCreateGroup always_handleGroupInvite
  always_handleJoinGroup always_handleLeaveGroup always_handleGroupKick always_handleGroupBan
  always_handleUpdateGroup always_handleSetGroupAdmin always_handleTransferGroup
  always_handleDismissGroup always_handleGroupMuteAll always_handleGetGroupAnnouncements
  always_handleCreateGroupAnnouncement always_handleUpdateGroupAnnouncement
  always_handleDeleteGroupAnnouncement always_handleMarkGroupAnnouncementRead
  always_handleFriendRequest always_handleFriendHandle always_handleGetForwardMessage
  always_handleCreateForward always_handleUploadFile always_handleGetPushConfig
  always_handleRegisterPush always_handleUnregisterPush always_handleGetTerminalVault
  always_handlePutTerminalVault always_handleDeleteTerminalVault
  always_handleGetDynamicInteractions : routes.
#[export] Hint Constants Opaque : routes.

Section routes.
Context `{Runtime} (cs : gset conn_id).
Local Notation ok := (gateway_ok cs).

(** what the invariant needs of the services: the uploader preserves it too *)
Record services_ok (sv : services) : Prop := { sv_media : media_ok cs sv.(media) }.

Lemma always_routes sv c req :
  services_ok sv -> c ∈ cs -> Forall (fun r => always ok any (r.2 c req)) (routes sv).
Proof.
  intros [Hm] Hc. unfold routes. repeat apply Forall_cons_2; try apply Forall_nil_2; cbn [snd].
  all: eauto with routes.
Qed.

Lemma always_handleRequest sv c req :
  services_ok sv -> c ∈ cs -> always ok any (handleRequest sv c req).
Proof.
  intros Hsv Hc. unfold handleRequest.
  destruct (_ !! _) as [h|] eqn:E; [|apply always_sendError].
  apply elem_of_list_to_map_2 in E.
  pose proof (always_routes sv c req Hsv Hc) as Hall. rewrite Forall_forall in Hall.
  by apply (Hall _ E).
Qed.

(** a goroutine of the gateway, serving one of the connections [cs] *)
Inductive gateway_thread (sv : services) (send : PushSubscription -> json -> bool)
  : handler -> Prop :=
| thread_request c frame : c ∈ cs -> gateway_thread sv send (readPump_step sv c frame)
| thread_close c : c ∈ cs -> gateway_thread sv send (removeClient c)
| thread_write c : gateway_thread sv send (bind (writePump_step c) (fun _ => Ret tt))
| thread_push job : gateway_thread sv send (run_push_job send job).

Lemma always_gateway_thread sv send p :
  services_ok sv -> gateway_thread sv send p -> always ok any p.
Proof.
  intros Hsv [c [req|] Hc|c Hc|c|job]; cbn [readPump_step].
  - by apply always_handleRequest.
  - apply always_sendError.
  - apply always_removeClient.
  - gw.
  - apply always_run_push_job.
Qed.
End routes.
