(* ===== verification/InteractionFacts.v ===== *)
(** * Facts about interactions with cards

    What the reducers count, how the projection rewrites a tree, and what a refused
    metadata value looks like; shared by the theorems of [InteractionProps]. *)
From S2P Require Import Prelude GoLib Types DynamicContent Capabilities DynamicInteraction.
From stdpp Require Import gmap strings list sorting.
From Stdlib Require Import ZArith.

Local Open Scope Z_scope.

Section counting.
Context `{Runtime}.
Notation Event := DynamicInteractionEvent.
Implicit Types (events : list Event).

(** ** The latest event of each actor *)

(** the actors of a list of events, each once *)
Definition actors events : list string := remove_dups (DynamicInteractionEvent_ActorID <$> events).

(** what an actor's latest event answers *)
Definition answer (fallback : string) events (actorID : string) : string :=
  from_option (fun e => or_else (dynamicInteractionValue e) fallback) fallback
    (last (events_of actorID events)).

Lemma events_of_snoc a events e :
  events_of a (events ++ [e]) =
  events_of a events ++ (if bool_decide (e.(DynamicInteractionEvent_ActorID) = a) then [e] else []).
Proof. unfold events_of. rewrite filter_app. f_equal. rewrite filter_cons, filter_nil. by case_decide; case_bool_decide. Qed.

Lemma latest_lookup events a :
  latestInteractionEventsByActor events !! a = last (events_of a events).
Proof.
  unfold latestInteractionEventsByActor.
  induction events as [|e events IH] using rev_ind; [done|].
  rewrite foldl_app, events_of_snoc. cbn [foldl]. case_bool_decide as E.
  - subst a. by rewrite lookup_insert_eq, last_snoc.
  - by rewrite lookup_insert_ne, app_nil_r.
Qed.

Lemma is_Some_last {A} (l : list A) : is_Some (last l) <-> l <> [].
Proof. rewrite <-not_eq_None_Some. by rewrite last_None. Qed.

Lemma latest_dom events a :
  is_Some (latestInteractionEventsByActor events !! a) <-> a ∈ actors events.
Proof.
  rewrite latest_lookup, is_Some_last. unfold actors.
  rewrite elem_of_remove_dups, list_elem_of_fmap. unfold events_of. split.
  - intros Hne. destruct (filter _ events) as [|e l] eqn:E; [done|]. exists e.
    assert (He : e ∈ filter (fun e => DynamicInteractionEvent_ActorID e = a) events)
      by (rewrite E; apply elem_of_cons; by left).
    apply list_elem_of_filter in He as [<- He]. done.
  - intros (e & -> & He) Hn. assert (e ∈ @nil Event) as []%not_elem_of_nil.
    rewrite <-Hn. by apply list_elem_of_filter.
Qed.

Lemma map_fst_fmap_some {A B} (f : string -> B) (g : A -> B) (m : gmap string A) :
  (forall k x, m !! k = Some x -> g x = f k) -> (map_to_list (g <$> m)).*2 = f <$> (map_to_list m).*1.
Proof.
  intros Hf. rewrite map_to_list_fmap, <-!list_fmap_compose.
  apply list_fmap_ext. intros i [k x] Hi. simpl. apply Hf.
  apply elem_of_map_to_list. by eapply list_elem_of_lookup_2.
Qed.

Lemma keys_perm events : (map_to_list (latestInteractionEventsByActor events)).*1 ≡ₚ actors events.
Proof.
  apply NoDup_Permutation; [apply NoDup_fst_map_to_list|apply NoDup_remove_dups|].
  intros a. rewrite <-latest_dom. split.
  - intros ([k x] & -> & Hx%elem_of_map_to_list)%list_elem_of_fmap. eauto.
  - intros [x Hx]. apply list_elem_of_fmap. exists (a, x). by rewrite elem_of_map_to_list.
Qed.

(** the values counted are the answers of the actors, each once *)
Lemma latest_values_perm fallback events :
  values_of (latest_values fallback events) ≡ₚ answer fallback events <$> actors events.
Proof.
  unfold values_of, latest_values.
  rewrite (map_fst_fmap_some (answer fallback events)); [by rewrite keys_perm|].
  intros a e He. unfold answer. rewrite latest_lookup in He. by rewrite He.
Qed.

Lemma size_latest events : size (latestInteractionEventsByActor events) = length (actors events).
Proof. rewrite <-length_map_to_list, <-(length_fmap fst), keys_perm. done. Qed.
Lemma size_latest_values fallback events :
  size (latest_values fallback events) = length (actors events).
Proof. unfold latest_values. by rewrite map_size_fmap, size_latest. Qed.

(** ** Counting *)

Lemma count_where_app p l1 l2 : count_where p (l1 ++ l2) = count_where p l1 + count_where p l2.
Proof. unfold count_where. rewrite filter_app, length_app. lia. Qed.
Lemma count_where_perm p l1 l2 : l1 ≡ₚ l2 -> count_where p l1 = count_where p l2.
Proof. unfold count_where. by intros ->. Qed.
Lemma count_where_nonneg p l : 0 <= count_where p l.
Proof. unfold count_where. lia. Qed.
Lemma count_where_le p l : count_where p l <= Z.of_nat (length l).
Proof. unfold count_where. pose proof (length_filter (fun v => p v = true) l). lia. Qed.
Lemma count_where_one p v : count_where p [v] = if p v then 1 else 0.
Proof. unfold count_where. rewrite filter_cons, filter_nil. case_decide as E; destruct (p v); done. Qed.

Lemma count_where_fmap {A} p (f : A -> string) l :
  count_where p (f <$> l) = Z.of_nat (length (filter (fun a => p (f a) = true) l)).
Proof.
  unfold count_where. f_equal. induction l as [|x l IH]; [done|].
  rewrite fmap_cons, !filter_cons. case_decide; simpl; by rewrite IH.
Qed.

Lemma tally_lookup l v : default 0 (tally l !! v) = count_where (fun x => bool_decide (x = v)) l.
Proof.
  unfold tally. induction l as [|x l IH] using rev_ind; [done|].
  rewrite foldl_app, count_where_app, count_where_one. cbn [foldl]. case_bool_decide as E.
  - subst x. rewrite lookup_insert_eq. simpl. lia.
  - rewrite lookup_insert_ne by done. rewrite IH. lia.
Qed.

(** the sum of the numbers of a map *)
Definition sum_counts (m : gmap string Z) : Z := map_total (fun _ n => n) m.

Lemma sum_counts_insert m v n :
  sum_counts (<[v := n]> m) = sum_counts m - default 0 (m !! v) + n.
Proof.
  unfold sum_counts. rewrite map_total_set. by destruct (m !! v).
Qed.

Lemma tally_sum l : sum_counts (tally l) = Z.of_nat (length l).
Proof.
  unfold tally. induction l as [|x l IH] using rev_ind; [done|].
  rewrite foldl_app, length_app. cbn [foldl length]. rewrite sum_counts_insert, IH.
  rewrite Z.add_assoc, Z.sub_add, Nat2Z.inj_add. done.
Qed.

Lemma normalized_total_spec configured observed :
  normalizedInteractionTotal configured observed = Z.max 1 (Z.max configured observed).
Proof.
  unfold normalizedInteractionTotal. destruct (Z.ltb_spec configured observed); case_Z; lia.
Qed.
End counting.

(** ** The shape of a tree

    Two trees have the same shape when they have nodes at the same paths, equal but
    for their properties. *)
Definition same_node (n1 n2 : jmap) : Prop :=
  forall k, k <> "props" -> k <> "children" -> n1 !! k = n2 !! k.
Definition same_shape (r1 r2 : jmap) : Prop :=
  forall path, option_Forall2 same_node (node_at r1 path) (node_at r2 path).

#[export] Instance same_node_equiv : Equivalence same_node.
Proof.
  split; [done| |].
  - intros n1 n2 E k H1 H2. symmetry. by apply E.
  - intros n1 n2 n3 E1 E2 k H1 H2. rewrite E1, E2; done.
Qed.
#[export] Instance same_shape_equiv : Equivalence same_shape.
Proof.
  split; intros r1; [intros p|intros r2 E p|intros r2 r3 E1 E2 p].
  - destruct (node_at r1 p); constructor. done.
  - by symmetry.
  - by transitivity (node_at r2 p).
Qed.

Lemma same_shape_at r1 r2 path : same_shape r1 r2 ->
  option_Forall2 same_node (node_at r1 path) (node_at r2 path).
Proof. intros E. apply E. Qed.

(** shapes of children *)
Definition same_child (c1 c2 : json) : Prop :=
  match c1, c2 with
  | JObj n1, JObj n2 => same_shape n1 n2
  | JObj _, _ | _, JObj _ => False
  | _, _ => True
  end.

Lemma same_child_refl c : same_child c c.
Proof. destruct c; try done. cbn. reflexivity. Qed.

Lemma same_shape_node r1 r2 :
  same_node r1 r2 -> Forall2 same_child (children_of r1) (children_of r2) -> same_shape r1 r2.
Proof.
  intros Hn Hc path. destruct path as [|i path]; [by constructor|]. cbn [node_at].
  destruct (children_of r1 !! i) as [c1|] eqn:E1.
  - destruct (Forall2_lookup_l _ _ _ _ _ Hc E1) as (c2 & -> & Hs).
    destruct c1, c2; simpl in Hs; try done; constructor.
  - apply Forall2_length in Hc. apply lookup_ge_None_1 in E1.
    rewrite lookup_ge_None_2 by lia. constructor.
Qed.

Lemma Forall2_same_child l : Forall2 same_child l l.
Proof. induction l as [|c l IH]; [constructor|]. constructor; [apply same_child_refl|done]. Qed.

Lemma children_of_insert_props v node :
  children_of (<["props" := v]> node) = children_of node.
Proof. unfold children_of, get_array. by rewrite lookup_insert_ne. Qed.
Lemma same_node_props v node : same_node (<["props" := v]> node) node.
Proof. intros k Hk _. by rewrite lookup_insert_ne. Qed.

Lemma same_shape_props v node : same_shape (<["props" := v]> node) node.
Proof.
  apply same_shape_node; [apply same_node_props|]. rewrite children_of_insert_props.
  apply Forall2_same_child.
Qed.

Lemma same_node_children v node : same_node (<["children" := v]> node) node.
Proof. intros k _ Hk. by rewrite lookup_insert_ne. Qed.
Lemma children_of_set l node : children_of (<["children" := JArr l]> node) = l.
Proof. unfold children_of, get_array. by rewrite lookup_insert_eq. Qed.

Lemma alter_at_shape path f root :
  (forall node, same_shape (f node) node) -> same_shape (alter_at path f root) root.
Proof.
  intros Hf. revert root. induction path as [|i path IH]; intros root; [apply Hf|]. cbn [alter_at].
  apply same_shape_node; [apply same_node_children|]. rewrite children_of_set.
  generalize (children_of root) as l. clear root. revert i. induction i as [|i IHi]; intros [|c l].
  1,3: constructor.
  - constructor; [|apply Forall2_same_child]. destruct c; try done. apply IH.
  - constructor; [apply same_child_refl|]. apply IHi.
Qed.

Lemma map_nodes_shape fuel f root :
  (forall node, same_shape (f node) node) ->
  (forall node, get_array (f node) "children" = get_array node "children") ->
  same_shape (map_nodes fuel f root) root.
Proof.
  intros Hf Hg. revert root. induction fuel as [|fuel IH]; intros root; cbn [map_nodes]; [apply Hf|].
  destruct (get_array (f root) "children") as [l|] eqn:El; [|apply Hf].
  transitivity (f root); [|apply Hf].
  apply same_shape_node; [apply same_node_children|]. rewrite children_of_set.
  unfold children_of. rewrite El. simpl. clear El.
  induction l as [|c l IHl]; [constructor|]. constructor; [|done]. destruct c; try done. apply IH.
Qed.

Section projection.
Context `{Runtime}.

Lemma with_props_shape f node : same_shape (with_props f node) node.
Proof. apply same_shape_props. Qed.

Lemma project_onto_shape root id ty f : same_shape (project_onto root id ty f) root.
Proof.
  unfold project_onto. destruct (find_by_id root id).
  - apply alter_at_shape. intros. apply with_props_shape.
  - destruct (find_by_type root ty); [|done]. apply alter_at_shape. intros. apply with_props_shape.
Qed.
End projection.

(** ** Values that are refused *)

Lemma first_error_err {A} (check : A -> result unit) x l e :
  x ∈ l -> check x = Err e -> exists e', first_error check l = Err e'.
Proof.
  intros Hx He. induction Hx as [y l|y z l Hy IH]; cbn [first_error]; [rewrite He; eauto|].
  destruct (check z); eauto.
Qed.

(** a refused member makes an object refused *)
Lemma refused_member fuel m k v path d :
  m !! k = Some v ->
  (forall path, exists e, validateDynamicValues_fuel fuel v path (d + 1) = Err e) ->
  exists e, validateDynamicValues_fuel (S fuel) (JObj m) path d = Err e.
Proof.
  intros Hk Hv. cbn [validateDynamicValues_fuel]. destruct (_ <? d); [eauto|].
  destruct (Hv (path +:+ "." +:+ k)) as [e He].
  apply (first_error_err _ (k, v) _ e); [by apply elem_of_map_to_list|exact He].
Qed.

Lemma refused_list fuel l path d :
  maxDynamicChildren < Z.of_nat (length l) ->
  exists e, validateDynamicValues_fuel (S fuel) (JArr l) path d = Err e.
Proof.
  intros Hl. cbn [validateDynamicValues_fuel]. destruct (_ <? d); [eauto|].
  apply Z.ltb_lt in Hl. rewrite Hl. eauto.
Qed.

(** a schema whose metadata is refused is refused *)
Lemma refused_metadata `{Runtime} schema metadata :
  schema !! "metadata" = Some (JObj metadata) ->
  (exists e, validateDynamicValues (JObj metadata) "metadata" 0 = Err e) ->
  exists e, validateDynamicSchema schema = Err e.
Proof.
  intros Hm [e He]. unfold validateDynamicSchema.
  assert (Hv : validate_metadata schema = Err e) by (unfold validate_metadata; by rewrite Hm).
  destruct (negb _); [eauto|]. destruct (_ || _); [eauto|]. destruct (negb _); [eauto|].
  destruct (get_object _ _); [|eauto]. destruct (validateDynamicNode _ _ _ _ _); [|eauto].
  destruct (validate_fallback _); [|eauto]. rewrite Hv. eauto.
Qed.
