(* ===== verification/Demo.v ===== *)
(** * A concrete runtime

    An instance of [Runtime] on which the concrete scenarios of the development
    evaluate: a clock that advances by one second at each reading, an injective
    stand-in for the digest, and a JSON printer. *)
From S2P Require Import Prelude GoLib Types.
From stdpp Require Import gmap strings list pretty.
From Stdlib Require Import ZArith SpecFloat.

Local Open Scope Z_scope.

Fixpoint demo_print (j : json) : string :=
  match j with
  | JNull | JNaN => "null"
  | JBool b => if b then "true" else "false"
  | JNum n => pretty (num_m n) +:+ "p" +:+ pretty (num_e n)
  | JStr s => "'" +:+ s +:+ "'"
  | JArr l => "[" +:+ foldr (fun j acc => demo_print j +:+ "," +:+ acc) "]" l
  | JObj m => "{" +:+ map_fold (fun k j acc => k +:+ ":" +:+ demo_print j +:+ "," +:+ acc) "}" m
  end.

Definition demo_marshal (j : json) : option string :=
  if encodable j then Some (demo_print j) else None.

Lemma demo_marshal_nan j : encodable j = false -> demo_marshal j = None.
Proof. unfold demo_marshal. by intros ->. Qed.

(** the instant at which the demonstration clock starts: 1 January 2026 *)
Definition demo_epoch : time := 1767225600 * second.

Definition demo_runtime : Runtime := {|
  clock n := demo_epoch + Z.of_nat n * second;
  rand_token n := Some ("token" +:+ pretty (Z.of_nat n));
  sha256 s := s;
  json_marshal := demo_marshal;
  json_marshal_nan := demo_marshal_nan;
  json_unmarshal _ := None;
  bcrypt_hash _ s := Some ("hash:" +:+ s);
  bcrypt_matches h s := bool_decide (h = "hash:" +:+ s);
  base64_decode s := Some s;
  detect_content_type _ := "image/png";
  parse_request_uri _ := None;
  private_ip _ := None;
  parse_rfc3339 _ := None;
  to_lower := ToLowerASCII;
  parse_float s := if bool_decide (s = "NaN") then (S754_nan, true) else (S754_zero false, false);
  reparse_int _ := None;
  sprintf1 _ := demo_print;
  sprintf2 template a b :=
    if bool_decide (template = "%d/%d") then sprint_d a +:+ "/" +:+ sprint_d b else template
|}.

Definition demo_text (t : string) : MessageSegment :=
  mkMessageSegment "text" {["text" := JStr t]}.
