(* ===== verification/DynamicLock.v ===== *)
(** * The lock of a message under update (gateway/gateway.go, lockDynamicMessageUpdate)

    Mutations and events of one message are serialised by a mutex that exists only while
    somebody uses it: a table from message ids to reference-counted mutexes, under a
    mutex of its own.  A request takes a reference (one critical section), waits for the
    mutex, works, unlocks it, and drops the reference (another critical section), which
    removes the entry with the last reference.

    The state is the table, the mutexes (by pointer) and the program counters of the
    requests; [lock_step] interleaves them. *)
From S2P Require Import Prelude.
From stdpp Require Import gmap strings list.
From Stdlib Require Import ZArith.

Local Open Scope Z_scope.

(** dynamicMessageUpdateLock: the mutex and its reference count *)
Record dynamicMessageUpdateLock := mkLock { lock_locked : bool; lock_refs : Z }.
#[export] Instance eta_lock : Eta dynamicMessageUpdateLock :=
  fun r => mkLock r.(lock_locked) r.(lock_refs).

(** where a request is in handleDynamicMutation or handleDynamicEvent *)
Inductive stage :=
| Outside
| Waiting (messageID : string) (lock : nat)
| Holding (messageID : string) (lock : nat)
| Unlocked (messageID : string) (lock : nat).

Record LockState := mkLockState {
  dynamicUpdateLocks : gmap string nat;
  lock_heap : gmap nat dynamicMessageUpdateLock;
  requests : list stage }.
#[export] Instance eta_LockState : Eta LockState :=
  fun r => mkLockState r.(dynamicUpdateLocks) r.(lock_heap) r.(requests).

Definition no_locks (n : nat) : LockState := mkLockState ∅ ∅ (replicate n Outside).

(** the lock a request has a reference to *)
Definition uses (s : stage) : option (string * nat) :=
  match s with
  | Outside => None
  | Waiting id p | Holding id p | Unlocked id p => Some (id, p)
  end.

(** the first critical section: look the lock up or create it, and count the reference *)
Definition take_reference (messageID : string) (s : LockState) : nat * LockState :=
  let '(p, s) :=
    match s.(dynamicUpdateLocks) !! messageID with
    | Some p => (p, s)
    | None =>
        let p := fresh (dom s.(lock_heap)) in
        (p, s <| lock_heap ::= <[p := mkLock false 0]> |>
              <| dynamicUpdateLocks ::= <[messageID := p]> |>)
    end in
  (p, s <| lock_heap ::= alter (fun l => l <| lock_refs ::= Z.succ |>) p |>).

Definition set_locked (b : bool) (p : nat) (s : LockState) : LockState :=
  s <| lock_heap ::= alter (fun l => l <| lock_locked := b |>) p |>.

(** the last critical section: drop the reference, and the entry with the last one *)
Definition drop_reference (messageID : string) (p : nat) (s : LockState) : LockState :=
  let s := s <| lock_heap ::= alter (fun l => l <| lock_refs ::= Z.pred |>) p |> in
  if from_option (fun l => l.(lock_refs) =? 0) false (s.(lock_heap) !! p)
  then s <| dynamicUpdateLocks ::= delete messageID |> else s.

Definition at_stage (t : nat) (st : stage) (s : LockState) : LockState :=
  s <| requests ::= <[t := st]> |>.

Inductive lock_step : LockState -> LockState -> Prop :=
| step_reference t id s p s' :
    s.(requests) !! t = Some Outside -> take_reference id s = (p, s') ->
    lock_step s (at_stage t (Waiting id p) s')
| step_lock t id p l s :
    s.(requests) !! t = Some (Waiting id p) ->
    s.(lock_heap) !! p = Some l -> l.(lock_locked) = false ->
    lock_step s (at_stage t (Holding id p) (set_locked true p s))
| step_unlock t id p s :
    s.(requests) !! t = Some (Holding id p) ->
    lock_step s (at_stage t (Unlocked id p) (set_locked false p s))
| step_drop t id p s :
    s.(requests) !! t = Some (Unlocked id p) ->
    lock_step s (at_stage t Outside (drop_reference id p s)).

Inductive lock_reachable (n : nat) : LockState -> Prop :=
| reach_start : lock_reachable n (no_locks n)
| reach_step s s' : lock_reachable n s -> lock_step s s' -> lock_reachable n s'.

(** ** Counting requests *)

Definition refers (p : nat) (s : stage) : bool :=
  from_option (fun u : string * nat => bool_decide (u.2 = p)) false (uses s).
Definition holds (p : nat) (s : stage) : bool :=
  match s with Holding _ q => bool_decide (q = p) | _ => false end.

(** ** The invariant *)

Record lock_ok (s : LockState) : Prop := {
  lk_registered : forall t st id p, s.(requests) !! t = Some st -> uses st = Some (id, p) ->
    s.(dynamicUpdateLocks) !! id = Some p;
  lk_refs : forall p l, s.(lock_heap) !! p = Some l ->
    l.(lock_refs) = count (refers p) s.(requests);
  lk_held : forall p l, s.(lock_heap) !! p = Some l ->
    count (holds p) s.(requests) = if l.(lock_locked) then 1 else 0;
  lk_known : forall id p, s.(dynamicUpdateLocks) !! id = Some p -> is_Some (s.(lock_heap) !! p);
  lk_inj : forall id1 id2 p, s.(dynamicUpdateLocks) !! id1 = Some p ->
    s.(dynamicUpdateLocks) !! id2 = Some p -> id1 = id2 }.

(** every entry of the table is in use *)
Definition in_use (s : LockState) : Prop :=
  forall id p, s.(dynamicUpdateLocks) !! id = Some p -> 0 < count (refers p) s.(requests).

Lemma refers_uses p st : refers p st = true <-> exists id, uses st = Some (id, p).
Proof.
  unfold refers. destruct (uses st) as [[id q]|]; simpl; rewrite ?bool_decide_eq_true; naive_solver.
Qed.

Lemma holds_stage p st : holds p st = true <-> exists id, st = Holding id p.
Proof. destruct st; simpl; rewrite ?bool_decide_eq_true; naive_solver. Qed.

(** nobody refers to a lock that does not exist *)
Lemma count_unknown P s p :
  lock_ok s -> s.(lock_heap) !! p = None -> (forall st, P st = true -> refers p st = true) ->
  count P s.(requests) = 0.
Proof.
  intros [H1 _ _ H4 _] Hp HP. pose proof (count_nonneg P s.(requests)).
  destruct (Z.eq_dec (count P s.(requests)) 0) as [|Hne]; [done|exfalso].
  assert (Hpos : 0 < count P s.(requests)) by lia.
  apply count_pos in Hpos as (t & st & Ht & [id Hu]%HP%refers_uses).
  destruct (H4 _ _ (H1 _ _ _ _ Ht Hu)). congruence.
Qed.

Lemma holds_refers p st : holds p st = true -> refers p st = true.
Proof. intros [id ->]%holds_stage. simpl. by apply bool_decide_eq_true. Qed.

(** creating an entry nobody refers to yet *)
Lemma create_ok s id :
  lock_ok s -> s.(dynamicUpdateLocks) !! id = None ->
  let p := fresh (dom s.(lock_heap)) in
  lock_ok (s <| lock_heap ::= <[p := mkLock false 0]> |> <| dynamicUpdateLocks ::= <[id := p]> |>).
Proof.
  intros Hok Hid p. pose proof (is_fresh (dom s.(lock_heap))) as Hf. fold p in Hf.
  apply not_elem_of_dom in Hf. pose proof Hok as [H1 H2 H3 H4 H5]. split; simpl.
  - intros t st id' p' Ht Hu. specialize (H1 _ _ _ _ Ht Hu).
    by rewrite lookup_insert_ne by congruence.
  - intros q l. rewrite lookup_insert_Some. intros [[<- <-]|[_ Hl]]; [|by apply H2].
    simpl. by rewrite (count_unknown _ _ _ Hok Hf).
  - intros q l. rewrite lookup_insert_Some. intros [[<- <-]|[_ Hl]]; [|by apply H3].
    simpl. rewrite (count_unknown _ _ _ Hok Hf); [done|]. apply holds_refers.
  - intros id' q. rewrite !lookup_insert_Some. intros [[<- <-]|[_ Hl]].
    + rewrite lookup_insert_eq. eauto.
    + destruct (H4 _ _ Hl) as [l Hl']. rewrite lookup_insert_ne by congruence. eauto.
  - intros i j q. rewrite !lookup_insert_Some.
    intros [[<- <-]|[Hi Hq]] [[<- Hp]|[Hj Hq']]; [done|..].
    + exfalso. destruct (H4 _ _ Hq'). congruence.
    + exfalso. subst q. destruct (H4 _ _ Hq). congruence.
    + by eapply H5.
Qed.

(** what a step of a request that keeps the table and one lock's count must check *)
Lemma change_ok s t st st' p f :
  lock_ok s -> s.(requests) !! t = Some st ->
  (forall id q, uses st' = Some (id, q) -> s.(dynamicUpdateLocks) !! id = Some q) ->
  (forall q, q <> p -> refers q st = refers q st' /\ holds q st = holds q st') ->
  (forall l, s.(lock_heap) !! p = Some l ->
     (f l).(lock_refs) = l.(lock_refs) - (if refers p st then 1 else 0) + (if refers p st' then 1 else 0)
     /\ (if (f l).(lock_locked) then 1 else 0)
        = (if l.(lock_locked) then 1 else 0) - (if holds p st then 1 else 0)
          + (if holds p st' then 1 else 0)) ->
  lock_ok (at_stage t st' (s <| lock_heap ::= alter f p |>)).
Proof.
  intros [H1 H2 H3 H4 H5] Ht Huses Hother Hf. split; simpl.
  - intros t' st0 id q. rewrite list_lookup_insert_Some.
    intros [(-> & <- & _)|[_ Ht']] Hu; [by apply Huses|by eapply H1].
  - intros q l. rewrite lookup_alter. rewrite (count_insert _ _ _ _ _ Ht). case_decide as Hq.
    + subst q. intros (l0 & Hl0 & ->)%fmap_Some. destruct (Hf _ Hl0) as [-> _].
      rewrite (H2 _ _ Hl0). lia.
    + intros Hl. rewrite (H2 _ _ Hl). destruct (Hother q ltac:(congruence)) as [-> _]. lia.
  - intros q l. rewrite lookup_alter. rewrite (count_insert _ _ _ _ _ Ht). case_decide as Hq.
    + subst q. intros (l0 & Hl0 & ->)%fmap_Some. destruct (Hf _ Hl0) as [_ ->].
      rewrite (H3 _ _ Hl0). lia.
    + intros Hl. rewrite (H3 _ _ Hl). destruct (Hother q ltac:(congruence)) as [_ ->]. lia.
  - intros id q Hq. rewrite lookup_alter. case_decide; [subst; rewrite fmap_is_Some|]; by eapply H4.
  - done.
Qed.

Ltac stages :=
  unfold refers, holds; simpl; rewrite ?bool_decide_true by congruence;
  rewrite ?bool_decide_false by congruence.

Lemma reference_ok s t id p s' :
  lock_ok s -> in_use s -> s.(requests) !! t = Some Outside -> take_reference id s = (p, s') ->
  lock_ok (at_stage t (Waiting id p) s') /\ in_use (at_stage t (Waiting id p) s').
Proof.
  intros Hok Huse Ht Hs.
  assert (Hcount : forall q, count (refers q) (<[t := Waiting id p]> s.(requests))
    = count (refers q) s.(requests) + if refers q (Waiting id p) then 1 else 0).
  { intros q. rewrite (count_insert _ _ _ _ _ Ht). simpl. lia. }
  assert (Hself : refers p (Waiting id p) = true) by (simpl; by apply bool_decide_eq_true).
  assert (Hstep : forall s0, lock_ok s0 -> s0.(requests) = s.(requests) ->
    s0.(dynamicUpdateLocks) !! id = Some p ->
    lock_ok (at_stage t (Waiting id p) (s0 <| lock_heap ::= alter (fun l => l <| lock_refs ::= Z.succ |>) p |>))).
  { intros s0 Hok0 Hr Hid. eapply change_ok; [done|by rewrite Hr| | |].
    - intros id' q [= <- <-]. done.
    - intros q Hq. by stages.
    - intros l _. rewrite Hself. simpl. lia. }
  unfold take_reference in Hs. destruct (s.(dynamicUpdateLocks) !! id) as [q|] eqn:Eid.
  - injection Hs as -> <-. split; [by apply Hstep|]. intros id' q Hq. simpl in *. rewrite Hcount.
    pose proof (Huse _ _ Hq). destruct (refers q _); lia.
  - cbv zeta in Hs. injection Hs as Hp <-. rewrite Hp. split.
    + apply Hstep; [|done|apply lookup_insert_eq]. rewrite <-Hp. by apply create_ok.
    + intros id' q. simpl. rewrite Hcount, lookup_insert_Some. intros [[<- <-]|[_ Hq]].
      * rewrite Hself. pose proof (count_nonneg (refers p) s.(requests)). lia.
      * pose proof (Huse _ _ Hq). destruct (refers q _); lia.
Qed.

Lemma lock_held_ok s t id p l :
  lock_ok s -> in_use s -> s.(requests) !! t = Some (Waiting id p) ->
  s.(lock_heap) !! p = Some l -> l.(lock_locked) = false ->
  lock_ok (at_stage t (Holding id p) (set_locked true p s))
  /\ in_use (at_stage t (Holding id p) (set_locked true p s)).
Proof.
  intros Hok Huse Ht Hl Hfree. split.
  - eapply change_ok; [done|exact Ht| | |].
    + intros id' q [= <- <-]. by apply (lk_registered _ Hok _ _ _ _ Ht).
    + intros q Hq. by stages.
    + intros l' Hl'. assert (l' = l) as -> by congruence. stages. rewrite Hfree. lia.
  - intros id' q Hq. simpl in *. rewrite (count_insert _ _ _ _ _ Ht).
    specialize (Huse _ _ Hq). unfold refers at 2 3. simpl. destruct (bool_decide (p = q)); lia.
Qed.

Lemma unlock_ok s t id p :
  lock_ok s -> in_use s -> s.(requests) !! t = Some (Holding id p) ->
  lock_ok (at_stage t (Unlocked id p) (set_locked false p s))
  /\ in_use (at_stage t (Unlocked id p) (set_locked false p s)).
Proof.
  intros Hok Huse Ht. split.
  - eapply change_ok; [done|exact Ht| | |].
    + intros id' q [= <- <-]. by apply (lk_registered _ Hok _ _ _ _ Ht).
    + intros q Hq. by stages.
    + intros l Hl. stages. split; [lia|].
      assert (Hpos : 0 < count (holds p) s.(requests)).
      { apply count_pos. exists t, (Holding id p). split; [done|]. simpl.
        by apply bool_decide_eq_true. }
      rewrite (lk_held _ Hok _ _ Hl) in Hpos. destruct (lock_locked l); lia.
  - intros id' q Hq. simpl in *. rewrite (count_insert _ _ _ _ _ Ht).
    specialize (Huse _ _ Hq). unfold refers at 2 3. simpl. destruct (bool_decide (p = q)); lia.
Qed.

Lemma drop_ok s t id p :
  lock_ok s -> in_use s -> s.(requests) !! t = Some (Unlocked id p) ->
  lock_ok (at_stage t Outside (drop_reference id p s))
  /\ in_use (at_stage t Outside (drop_reference id p s)).
Proof.
  intros Hok Huse Ht. pose proof (lk_registered _ Hok _ _ _ _ Ht eq_refl) as Hid.
  assert (Hcount : forall q, count (refers q) (<[t := Outside]> s.(requests))
    = count (refers q) s.(requests) - if bool_decide (p = q) then 1 else 0).
  { intros q. rewrite (count_insert _ _ _ _ _ Ht). unfold refers at 2 3. simpl. lia. }
  set (s1 := s <| lock_heap ::= alter (fun l => l <| lock_refs ::= Z.pred |>) p |>).
  assert (Hok1 : lock_ok (at_stage t Outside s1)).
  { eapply change_ok; [done|exact Ht|done| |].
    - intros q Hq. by stages.
    - intros l _. stages. lia. }
  destruct (lk_known _ Hok _ _ Hid) as [l Hl].
  assert (Hl1 : s1.(lock_heap) !! p = Some (l <| lock_refs ::= Z.pred |>)).
  { unfold s1. simpl. rewrite lookup_alter_eq, Hl. done. }
  pose proof (lk_refs _ Hok1 p _ Hl1) as Hrefs. simpl in Hrefs. rewrite Hcount in Hrefs.
  rewrite bool_decide_true in Hrefs by done.
  unfold drop_reference. fold s1. rewrite Hl1. cbn [from_option].
  destruct (Z.eqb_spec (lock_refs (l <| lock_refs ::= Z.pred |>)) 0) as [Hz|Hnz]; simpl in *.
  - destruct Hok1 as [K1 K2 K3 K4 K5]. split.
    + split; simpl in *; [|exact K2|exact K3| |].
      * intros t' st id' q Ht' Hu. specialize (K1 _ _ _ _ Ht' Hu).
        assert (Hne : id <> id').
        { intros <-. assert (q = p) as -> by congruence.
          assert (Hpos : 0 < count (refers p) (<[t := Outside]> s.(requests))).
          { apply count_pos. exists t', st. split; [done|]. apply refers_uses. eauto. }
          rewrite Hcount, bool_decide_true in Hpos by done. lia. }
        by rewrite lookup_delete_ne.
      * intros id' q. rewrite lookup_delete_Some. intros [_ Hq]. by eapply K4.
      * intros i j q. rewrite !lookup_delete_Some. intros [_ Hi] [_ Hj]. by eapply K5.
    + intros id' q. simpl. rewrite lookup_delete_Some, Hcount. intros [Hne Hq].
      specialize (Huse _ _ Hq). rewrite bool_decide_false; [lia|]. intros <-.
      apply Hne. by eapply (lk_inj _ Hok).
  - split; [done|]. intros id' q Hq. simpl in *. rewrite Hcount. specialize (Huse _ _ Hq).
    case_bool_decide as E; [subst q|lia].
    rewrite <-Hrefs. pose proof (lk_refs _ Hok _ _ Hl). lia.
Qed.

Lemma no_locks_ok n : lock_ok (no_locks n) /\ in_use (no_locks n).
Proof.
  split; [split|]; simpl; try done. intros t st id p Ht Hu.
  apply lookup_replicate in Ht as [-> _]. done.
Qed.

Lemma reachable_ok n s : lock_reachable n s -> lock_ok s /\ in_use s.
Proof.
  induction 1 as [|s s' _ [Hok Huse] Hstep]; [apply no_locks_ok|].
  destruct Hstep; [by eapply reference_ok|by eapply lock_held_ok|by apply unlock_ok|by apply drop_ok].
Qed.

(** C14: in every interleaving of requests, two requests never work on the same message at
    the same time; the table never holds an entry that no request uses; and a request
    that waits for a message can go on, or there is a request working on that same
    message that it waits for. *)
Theorem dynamic_update_mutex (n : nat) (s : LockState) :
  lock_reachable n s ->
  (forall t1 t2 id p1 p2, s.(requests) !! t1 = Some (Holding id p1) ->
     s.(requests) !! t2 = Some (Holding id p2) -> t1 = t2)
  /\ (forall id p, s.(dynamicUpdateLocks) !! id = Some p ->
        exists t st, s.(requests) !! t = Some st /\ uses st = Some (id, p))
  /\ (forall t id p, s.(requests) !! t = Some (Waiting id p) ->
        lock_step s (at_stage t (Holding id p) (set_locked true p s))
        \/ exists t', s.(requests) !! t' = Some (Holding id p)).
Proof.
  intros [Hok Huse]%reachable_ok.
  assert (Hsame : forall t st id q id', s.(requests) !! t = Some st -> uses st = Some (id, q) ->
    s.(dynamicUpdateLocks) !! id' = Some q -> id = id').
  { intros t st id q id' Ht Hu Hq. pose proof (lk_registered _ Hok _ _ _ _ Ht Hu).
    by eapply (lk_inj _ Hok). }
  split; [|split].
  - intros t1 t2 id p1 p2 H1 H2.
    pose proof (lk_registered _ Hok _ _ _ _ H1 eq_refl) as R1.
    pose proof (lk_registered _ Hok _ _ _ _ H2 eq_refl) as R2. assert (p2 = p1) as -> by congruence.
    destruct (lk_known _ Hok _ _ R1) as [l Hl]. pose proof (lk_held _ Hok _ _ Hl) as Hc.
    destruct (decide (t1 = t2)) as [|Hne]; [done|exfalso].
    pose proof (count_two (holds p1) _ _ _ _ _ H1 H2 Hne (proj2 (holds_stage _ _) (ex_intro _ id eq_refl))
      (proj2 (holds_stage _ _) (ex_intro _ id eq_refl))). destruct (lock_locked l); lia.
  - intros id p Hp. pose proof (Huse _ _ Hp) as (t & st & Ht & [id' Hu]%refers_uses)%count_pos.
    exists t, st. split; [done|]. by rewrite (Hsame _ _ _ _ _ Ht Hu Hp) in Hu.
  - intros t id p Ht. pose proof (lk_registered _ Hok _ _ _ _ Ht eq_refl) as Hr.
    destruct (lk_known _ Hok _ _ Hr) as [l Hl]. destruct (lock_locked l) eqn:El.
    + right. assert (Hpos : 0 < count (holds p) s.(requests)).
      { rewrite (lk_held _ Hok _ _ Hl), El. lia. }
      apply count_pos in Hpos as (t' & st & Ht' & [id' ->]%holds_stage).
      exists t'. by rewrite <-(Hsame _ _ _ _ _ Ht' eq_refl Hr).
    + left. by eapply step_lock.
Qed.

(** request 0 works on a message that request 1 waits for *)
Definition demo_locks : LockState :=
  at_stage 0 (Holding "m" 0) (set_locked true 0
    (at_stage 1 (Waiting "m" 0) (take_reference "m"
      (at_stage 0 (Waiting "m" 0) (take_reference "m" (no_locks 2)).2)).2)).

Lemma demo_locks_reachable : lock_reachable 2 demo_locks.
Proof.
  eapply reach_step; [eapply reach_step; [eapply reach_step; [apply reach_start|]|]|].
  - apply (step_reference 0 "m" _ 0%nat); vm_compute; reflexivity.
  - apply (step_reference 1 "m" _ 0%nat); vm_compute; reflexivity.
  - eapply step_lock; vm_compute; reflexivity.
Qed.

Lemma dynamic_update_mutex_witness :
  exists t', demo_locks.(requests) !! t' = Some (Holding "m" 0).
Proof.
  destruct (dynamic_update_mutex 2 demo_locks demo_locks_reachable) as (_ & _ & Hwait).
  destruct (Hwait 1%nat "m" 0%nat) as [Hstep|Hholder]; [vm_compute; reflexivity| |exact Hholder].
  exists 0%nat. vm_compute. reflexivity.
Defined.

(** ** Every request gets through *)

Definition waiting (s : stage) : bool := match s with Waiting _ _ => true | _ => false end.
Definition holding (s : stage) : bool := match s with Holding _ _ => true | _ => false end.
Definition unlocked (s : stage) : bool := match s with Unlocked _ _ => true | _ => false end.

(** the steps the requests in progress have still to make *)
Definition work (s : LockState) : Z :=
  3 * count waiting s.(requests) + 2 * count holding s.(requests) + count unlocked s.(requests).

Lemma work_step s s' t st st' :
  s.(requests) !! t = Some st -> s'.(requests) = <[t := st']> s.(requests) ->
  work s' = work s
    - (3 * (if waiting st then 1 else 0) + 2 * (if holding st then 1 else 0) + (if unlocked st then 1 else 0))
    + (3 * (if waiting st' then 1 else 0) + 2 * (if holding st' then 1 else 0) + (if unlocked st' then 1 else 0)).
Proof. intros Ht Hs. unfold work. rewrite Hs, !(count_insert _ _ _ _ _ Ht). lia. Qed.

Lemma take_reference_requests id s p s' : take_reference id s = (p, s') -> s'.(requests) = s.(requests).
Proof. unfold take_reference. destruct (_ !! id); by intros [= <- <-]. Qed.
Lemma drop_reference_requests id p s : (drop_reference id p s).(requests) = s.(requests).
Proof. unfold drop_reference. by case_goal. Qed.

(** a request that has entered always gets through: each step is either the arrival of
    a request or brings the requests in progress closer to their end, such a step is
    possible as long as one of them is in progress, so without arrivals every schedule
    ends after at most [work] steps, and then the table is empty. *)
Theorem dynamic_lock_completes (n : nat) (s : LockState) :
  lock_reachable n s ->
  (forall s', lock_step s s' -> 0 <= work s' < work s
     \/ exists t, s.(requests) !! t = Some Outside /\ s'.(requests) !! t <> Some Outside)
  /\ ((exists t st, s.(requests) !! t = Some st /\ st <> Outside) ->
      exists s', lock_step s s' /\ work s' < work s)
  /\ (work s = 0 -> s.(dynamicUpdateLocks) = ∅).
Proof.
  intros Hr. pose proof (reachable_ok _ _ Hr) as [Hok Huse].
  assert (Hnn : forall s, 0 <= work s).
  { intros s0. unfold work. pose proof (count_nonneg waiting (requests s0)).
    pose proof (count_nonneg holding (requests s0)). pose proof (count_nonneg unlocked (requests s0)). lia. }
  assert (Hstep : forall s', lock_step s s' -> work s' < work s
     \/ exists t, s.(requests) !! t = Some Outside /\ s'.(requests) !! t <> Some Outside).
  { intros s' Hs. destruct Hs as [t id s p s' Ht Hs'|t id p l s Ht _ _|t id p s Ht|t id p s Ht].
    - right. exists t. split; [done|]. simpl. rewrite (take_reference_requests _ _ _ _ Hs').
      rewrite list_lookup_insert_eq by (by eapply lookup_lt_Some). done.
    - left. rewrite (work_step s _ t (Waiting id p) (Holding id p)) by done. simpl. lia.
    - left. rewrite (work_step s _ t (Holding id p) (Unlocked id p)) by done. simpl. lia.
    - left. rewrite (work_step s _ t (Unlocked id p) Outside); [simpl; lia|done|].
      simpl. by rewrite drop_reference_requests. }
  split; [|split].
  - intros s' [Hs|Hs]%Hstep; [left|by right]. split; [apply Hnn|done].
  - intros (t & st & Ht & Hst). destruct st as [|id p|id p|id p]; [done|..].
    + pose proof (lk_registered _ Hok _ _ _ _ Ht eq_refl) as Hreg.
      destruct (lk_known _ Hok _ _ Hreg) as [l Hl]. destruct (lock_locked l) eqn:El.
      * assert (Hpos : 0 < count (holds p) s.(requests)) by (rewrite (lk_held _ Hok _ _ Hl), El; lia).
        apply count_pos in Hpos as (t' & st & Ht' & [id' ->]%holds_stage).
        eexists. split; [by apply (step_unlock t' id' p)|].
        rewrite (work_step s _ t' (Holding id' p) (Unlocked id' p)) by done. simpl. lia.
      * eexists. split; [by eapply (step_lock t id p)|].
        rewrite (work_step s _ t (Waiting id p) (Holding id p)) by done. simpl. lia.
    + eexists. split; [by apply (step_unlock t id p)|].
      rewrite (work_step s _ t (Holding id p) (Unlocked id p)) by done. simpl. lia.
    + eexists. split; [by apply (step_drop t id p)|].
      rewrite (work_step s _ t (Unlocked id p) Outside); [simpl; lia|done|].
      simpl. by rewrite drop_reference_requests.
  - intros Hw. apply map_empty. intros id. destruct (_ !! id) as [p|] eqn:Hp; [exfalso|done].
    pose proof (Huse _ _ Hp) as (t & st & Ht & [id' Hu]%refers_uses)%count_pos.
    assert (Hone : forall P, P st = true -> 0 < count P s.(requests)) by (intros P HP; apply count_pos; eauto).
    unfold work in Hw. pose proof (count_nonneg waiting (requests s)).
    pose proof (count_nonneg holding (requests s)). pose proof (count_nonneg unlocked (requests s)).
    destruct st; [done|specialize (Hone waiting eq_refl)|specialize (Hone holding eq_refl)
                  |specialize (Hone unlocked eq_refl)]; lia.
Qed.

Lemma dynamic_lock_completes_witness : exists s', lock_step demo_locks s' /\ work s' < 5.
Proof.
  destruct (dynamic_lock_completes 2 demo_locks demo_locks_reachable) as (_ & Hprogress & _).
  apply Hprogress. exists 0%nat, (Holding "m" 0). split; [vm_compute; reflexivity|discriminate].
Defined.
