(* ===== verification/MessageProps.v ===== *)
(** * Messages: what the store guarantees

    Unique ids, idempotent sends, complete pagination, reactions, atomic
    interaction commits, and unread counts. *)
From S2P Require Import Prelude GoLib Types MemoryState MemoryMessages MemoryGroups.
From S2P Require Import MessageFacts StoreSteps IdempotencyFacts MessageReads Prog SqlReads.
From S2P Require Import Demo.
From stdpp Require Import gmap strings list.
From Stdlib Require Import ZArith.

Local Open Scope Z_scope.

(** ** Ids *)

(** C4: whatever sequence of store operations the goroutines of the server
    perform, starting from an empty store, message ids stay unique and every
    conversation list holds messages of that conversation without repetition; and
    every idempotency record points to a message that is still on the list of its
    conversation, so that the record of a deleted message or conversation is gone --
    unless that conversation was a group that has been dismissed, whose records are
    left behind.  This holds as long as fewer than 2^63 operations are performed (the
    int64 counter). *)
Theorem store_messages_invariant `{Runtime} (ops : list store_op) :
  Z.of_nat (length ops) <= maxInt64 ->
  let s := run_ops ops NewMemoryStore in
  messages_ok s
  /\ forall key r, s.(messageIdempotency) !! key = Some r ->
       exists m, msg_at s r.(mi_message) = Some m
         /\ (r.(mi_message) ∈ conv_ptrs s m.(Message_ConversationID)
             \/ OpDeleteGroup m.(Message_ConversationID) ∈ ops).
Proof.
  intros Hlen. split; [apply run_ops_messages_ok; [apply NewMemoryStore_messages_ok|done]|].
  intros key r Hr.
  destruct (run_ops_recorded (fun _ => False) ops NewMemoryStore) with (key := key) (r := r)
    as (m & Hm & Hin); [apply NewMemoryStore_messages_ok|done|done|done|].
  exists m. naive_solver.
Qed.

Definition demo_ops : list store_op :=
  [OpStoreMessageIdempotent "c" "alice" "Alice" "k1" [demo_text "hi"] demo_epoch;
   OpStoreMessageIdempotent "c" "bob" "Bob" "" [demo_text "yo"] demo_epoch;
   OpRecallMessage "msg_1"; OpDeleteMessage "msg_2"].

Lemma store_messages_invariant_witness :
  let s := run_ops (H := demo_runtime) demo_ops NewMemoryStore in
  Z.of_nat (length demo_ops) <= maxInt64
  /\ messages_ok s
  /\ is_Some (s.(messageIdempotency) !! composite_key "alice" "k1")
  /\ (forall r, s.(messageIdempotency) !! composite_key "alice" "k1" = Some r ->
        exists m, msg_at s r.(mi_message) = Some m
          /\ (r.(mi_message) ∈ conv_ptrs s m.(Message_ConversationID)
              \/ OpDeleteGroup m.(Message_ConversationID) ∈ demo_ops)).
Proof.
  split; [done|]. split; [|split].
  - apply (store_messages_invariant (H := demo_runtime) demo_ops). done.
  - vm_compute. eauto.
  - apply (store_messages_invariant (H := demo_runtime) demo_ops). done.
Defined.

(** [findMessageLocked] scans the map of conversations in Go's random
    iteration order; under the invariant every order finds the same message. *)
Theorem find_message_order_independent (s : MemoryStore) (id : string) (ps : list ptr) :
  messages_ok s -> ps ≡ₚ all_ptrs s ->
  find_first (has_id s id) ps ≫= msg_at s = findMessageLocked s id.
Proof.
  intros Hok Hps. unfold findMessageLocked. f_equal.
  destruct (find_ptr s id) as [p|] eqn:E.
  - apply find_ptr_iff in E as [[c Hc] (m & Hm & Hid)]; [|done].
    apply find_first_unique.
    + rewrite Hps. apply elem_of_all_ptrs. eauto.
    + apply has_id_spec. eauto.
    + intros q _ (n & Hn & Hid')%has_id_spec. eapply mo_inj; [done|done|done|congruence].
  - unfold find_ptr in E. rewrite find_first_None in E.
    apply find_first_None. intros q Hq. apply E. by rewrite <-Hps.
Qed.

Definition demo_store : MemoryStore := run_ops (H := demo_runtime)
  [OpStoreMessageIdempotent "c" "alice" "Alice" "k1" [demo_text "hi"] demo_epoch;
   OpStoreMessageIdempotent "d" "bob" "Bob" "k2" [demo_text "yo"] (demo_epoch + second);
   OpStoreMessageIdempotent "c" "bob" "Bob" "" [demo_text "hey"] (demo_epoch + 2 * second)]
  NewMemoryStore.

Lemma demo_store_ok : messages_ok demo_store.
Proof.
  apply (run_ops_messages_ok (H := demo_runtime)); [apply NewMemoryStore_messages_ok|].
  vm_compute. discriminate.
Qed.

Lemma find_message_order_independent_witness :
  find_first (has_id demo_store "msg_2") (reverse (all_ptrs demo_store)) ≫= msg_at demo_store
  = findMessageLocked demo_store "msg_2".
Proof.
  apply find_message_order_independent; [apply demo_store_ok|]. apply reverse_Permutation.
Defined.

(** ** Idempotent sends *)

(** C9: when the store is asked again to store a message under the
    [client_message_id] of an earlier request, after any history of store operations
    that do not delete that message (sends by anyone, recalls, edits, group changes,
    even deletion of the group), it answers with the message the first request stored,
    marked as a replay, and changes nothing.  This is the contract of the store; the
    gateway checks access, the replied-to message and the poke limit before it, and may
    refuse a retry that the store would answer. *)
Theorem retry_is_replay `{Runtime} s c u n n' cid segs now now' m s1 ops :
  messages_ok s -> cid <> "" ->
  s.(msgCounter) + 1 + Z.of_nat (length ops) <= maxInt64 ->
  StoreMessageIdempotent c u n cid segs now s = (Ok (m, false), s1) ->
  Forall (keeps m.(Message_ID) c) ops ->
  exists m', StoreMessageIdempotent c u n' cid segs now' (run_ops ops s1)
               = (Ok (m', true), run_ops ops s1)
    /\ m'.(Message_ID) = m.(Message_ID) /\ m'.(Message_ConversationID) = c.
Proof.
  intros Hok Hcid Hlen Hsend Hk. pose proof (mo_counter _ Hok) as H0.
  destruct (send_files _ _ _ _ _ _ _ _ _ Hcid Hsend) as (fp & Hfp & Hf).
  pose proof (StoreMessageIdempotent_counter c u n cid segs now s ltac:(lia) H0) as Hc.
  pose proof (StoreMessageIdempotent_ok c u n cid segs now s Hok ltac:(lia)) as Hok1.
  rewrite Hsend in Hc, Hok1; simpl in *.
  eapply replay_filed; [done|exact Hfp|]. apply run_ops_filed; [done|lia|done|done].
Qed.

Lemma retry_is_replay_witness : exists m',
  StoreMessageIdempotent (H := demo_runtime) "c" "u" "U2" "k" [demo_text "hi"] (demo_epoch + 9)
    (run_ops (H := demo_runtime) [OpRecallMessage "msg_4"; OpDeleteGroup "c"; OpDeleteMessage "msg_1"]
       (StoreMessageIdempotent (H := demo_runtime) "c" "u" "U" "k" [demo_text "hi"] demo_epoch
          demo_store).2)
  = (Ok (m', true), run_ops (H := demo_runtime)
       [OpRecallMessage "msg_4"; OpDeleteGroup "c"; OpDeleteMessage "msg_1"]
       (StoreMessageIdempotent (H := demo_runtime) "c" "u" "U" "k" [demo_text "hi"] demo_epoch
          demo_store).2)
  /\ m'.(Message_ID) = "msg_4" /\ m'.(Message_ConversationID) = "c".
Proof.
  eapply (retry_is_replay (H := demo_runtime) demo_store "c" "u" "U" "U2" "k"
    [demo_text "hi"] demo_epoch _ (mkMessage "msg_4" "c" "u" "U" [demo_text "hi"] demo_epoch false []));
    [apply demo_store_ok|discriminate|vm_compute; discriminate|vm_compute; reflexivity|].
  repeat constructor; simpl; discriminate.
Defined.

(** reusing a [client_message_id] for another request (another conversation
    or other segments, seen through their fingerprints) is refused with
    [ErrMessageIdempotencyConflict], at any later time, and changes nothing. *)
Theorem reuse_is_conflict `{Runtime} s c c' u n n' cid segs segs' now now' m s1 ops :
  messages_ok s -> cid <> "" ->
  s.(msgCounter) + 1 + Z.of_nat (length ops) <= maxInt64 ->
  StoreMessageIdempotent c u n cid segs now s = (Ok (m, false), s1) ->
  Forall (keeps m.(Message_ID) c) ops ->
  messageRequestFingerprint c' segs' <> messageRequestFingerprint c segs ->
  is_ok (messageRequestFingerprint c' segs') = true ->
  StoreMessageIdempotent c' u n' cid segs' now' (run_ops ops s1)
  = (Err ErrMessageIdempotencyConflict, run_ops ops s1).
Proof.
  intros Hok Hcid Hlen Hsend Hk Hne Hfp'. pose proof (mo_counter _ Hok) as H0.
  destruct (send_files _ _ _ _ _ _ _ _ _ Hcid Hsend) as (fp & Hfp & Hf).
  pose proof (StoreMessageIdempotent_counter c u n cid segs now s ltac:(lia) H0) as Hc.
  pose proof (StoreMessageIdempotent_ok c u n cid segs now s Hok ltac:(lia)) as Hok1.
  rewrite Hsend in Hc, Hok1; simpl in *.
  destruct (messageRequestFingerprint c' segs') as [fp'|] eqn:Hfp2; [|done].
  apply (conflict_filed _ c _ _ _ _ _ _ fp fp' m.(Message_ID)); [done|done|congruence|].
  apply run_ops_filed; [done|lia|done|done].
Qed.

Lemma reuse_is_conflict_witness :
  StoreMessageIdempotent (H := demo_runtime) "d" "u" "U" "k" [demo_text "hi"] demo_epoch
    (run_ops (H := demo_runtime) [OpRecallMessage "msg_4"]
       (StoreMessageIdempotent (H := demo_runtime) "c" "u" "U" "k" [demo_text "hi"] demo_epoch
          demo_store).2)
  = (Err ErrMessageIdempotencyConflict, run_ops (H := demo_runtime) [OpRecallMessage "msg_4"]
       (StoreMessageIdempotent (H := demo_runtime) "c" "u" "U" "k" [demo_text "hi"] demo_epoch
          demo_store).2).
Proof.
  eapply (reuse_is_conflict (H := demo_runtime) demo_store "c" "d" "u" "U" "U" "k"
    [demo_text "hi"] [demo_text "hi"] demo_epoch demo_epoch
    (mkMessage "msg_4" "c" "u" "U" [demo_text "hi"] demo_epoch false []));
    [apply demo_store_ok|discriminate|vm_compute; discriminate|vm_compute; reflexivity
    |repeat constructor|vm_compute; discriminate|reflexivity].
Defined.

(** [DeleteGroup] drops the conversation's messages but keeps their
    idempotency records: a retried send to the deleted group is acknowledged with
    a message no conversation holds, instead of being stored or refused. *)
Theorem delete_group_keeps_ghost_record `{Runtime} s g u n cid segs now m s1 :
  messages_ok s -> s.(msgCounter) < maxInt64 -> cid <> "" -> is_Some (s.(groups) !! g) ->
  StoreMessageIdempotent g u n cid segs now s = (Ok (m, false), s1) ->
  let s2 := (DeleteGroup g s1).2 in
  conv_messages s2 g = []
  /\ findMessageLocked s2 m.(Message_ID) = None
  /\ exists m', StoreMessageIdempotent g u n cid segs now s2 = (Ok (m', true), s2)
       /\ m'.(Message_ID) = m.(Message_ID).
Proof.
  intros Hok Hlt Hcid Hg Hsend s2. pose proof (mo_counter _ Hok) as H0.
  destruct (send_files _ _ _ _ _ _ _ _ _ Hcid Hsend) as (fp & Hfp & Hf).
  pose proof (StoreMessageIdempotent_ok g u n cid segs now s Hok Hlt) as Hok1.
  rewrite Hsend in Hok1; simpl in *.
  assert (Hg1 : is_Some (s1.(groups) !! g)).
  { rewrite (StoreMessageIdempotent_groups _ _ _ _ _ _ _ _ _ Hsend). done. }
  assert (Hok2 : messages_ok s2) by by apply DeleteGroup_ok.
  assert (Hf2 : filed s2 (composite_key u cid) fp m.(Message_ID) g)
    by (by apply (exec_filed (OpDeleteGroup g))).
  assert (Hempty : conv_ptrs s2 g = []).
  { unfold s2, DeleteGroup, conv_ptrs. destruct Hg1 as [? ->]; simpl.
    by rewrite lookup_delete_eq. }
  split; [unfold conv_messages; by rewrite Hempty|].
  destruct (replay_filed _ g u n cid segs now _ _ Hcid Hfp Hf2) as (m' & Hm' & Hid & _).
  split; [|by exists m'].
  destruct (findMessageLocked s2 m.(Message_ID)) as [x|] eqn:E; [exfalso|done].
  apply findMessageLocked_iff in E as [Hx [c Hc]]; [|done].
  destruct Hf2 as (p & y & _ & Hy & Hyid & Hyc).
  apply list_elem_of_omap in Hc as (q & Hq & Hqx).
  destruct (mo_list _ Hok2 _ _ Hq) as (x' & Hx' & Hxc).
  assert (q = p) as -> by (eapply mo_inj; [done|done|done|congruence]).
  assert (c = g) as -> by congruence. rewrite Hempty in Hq. inversion Hq.
Qed.

Definition demo_group_store : MemoryStore := run_ops (H := demo_runtime)
  [OpCreateGroup "g" "G" "" "alice" demo_epoch demo_epoch] demo_store.

Lemma demo_group_store_ok : messages_ok demo_group_store.
Proof.
  apply (run_ops_messages_ok (H := demo_runtime)); [apply demo_store_ok|].
  vm_compute. discriminate.
Qed.

Lemma delete_group_keeps_ghost_record_witness :
  let s1 := (StoreMessageIdempotent (H := demo_runtime) "g" "u" "U" "k" [demo_text "hi"]
               demo_epoch demo_group_store).2 in
  let s2 := (DeleteGroup "g" s1).2 in
  conv_messages s2 "g" = [] /\ findMessageLocked s2 "msg_4" = None
  /\ exists m', StoreMessageIdempotent (H := demo_runtime) "g" "u" "U" "k" [demo_text "hi"]
                  demo_epoch s2 = (Ok (m', true), s2) /\ m'.(Message_ID) = "msg_4".
Proof.
  eapply (delete_group_keeps_ghost_record (H := demo_runtime) demo_group_store "g" "u" "U" "k"
    [demo_text "hi"] demo_epoch
    (mkMessage "msg_4" "g" "u" "U" [demo_text "hi"] demo_epoch false []));
    [apply demo_group_store_ok|vm_compute; reflexivity|discriminate
    |vm_compute; eauto|vm_compute; reflexivity].
Defined.

(** [DeleteConversation] does clear them: a retried send is stored anew. *)
Theorem delete_conversation_clears_records `{Runtime} s c u n cid segs now m s1 :
  messages_ok s -> s.(msgCounter) < maxInt64 -> cid <> "" ->
  StoreMessageIdempotent c u n cid segs now s = (Ok (m, false), s1) ->
  exists m' s3, StoreMessageIdempotent c u n cid segs now (DeleteConversation c s1).2
                = (Ok (m', false), s3).
Proof.
  intros Hok Hlt Hcid Hsend.
  pose proof (StoreMessageIdempotent_ok c u n cid segs now s Hok Hlt) as Hok1.
  rewrite Hsend in Hok1; simpl in *.
  assert (Hnone : (DeleteConversation c s1).2.(messageIdempotency) !! composite_key u cid = None).
  { eapply DeleteConversation_clears; [exact Hok1|].
    eapply send_lists; [exact Hcid|exact Hsend]. }
  revert Hsend. unfold StoreMessageIdempotent.
  destruct (messageRequestFingerprint c segs); [|done]. intros _.
  rewrite bool_decide_false by done. cbv zeta. destruct (_ !! _) eqn:E; [congruence|]. eauto.
Qed.

Lemma delete_conversation_clears_records_witness : exists m' s3,
  StoreMessageIdempotent (H := demo_runtime) "c" "u" "U" "k" [demo_text "hi"] demo_epoch
    (DeleteConversation "c" (StoreMessageIdempotent (H := demo_runtime) "c" "u" "U" "k"
       [demo_text "hi"] demo_epoch demo_store).2).2 = (Ok (m', false), s3).
Proof.
  eapply (delete_conversation_clears_records (H := demo_runtime) demo_store);
    [apply demo_store_ok|vm_compute; reflexivity|discriminate|vm_compute; reflexivity].
Defined.

(** ** Pagination *)

(** C11: walking back through a conversation with [GetMessagesBefore], from the
    newest page, each time asking for what precedes the first message of the
    previous page, returns the whole history, in order, nothing twice -- for every
    positive page size, in at most as many requests as there are messages. *)
Theorem pagination_complete (s : MemoryStore) (c : string) (limit : Z) (fuel : nat) :
  messages_ok s -> 0 < limit -> (length (conv_messages s c) <= fuel)%nat ->
  fetch_history fuel s c "" limit = with_reactions s <$> conv_messages s c.
Proof.
  intros Hok Hl Hf. rewrite fetch_history_spec; try done.
  unfold page_end. simpl. by rewrite take_ge by done.
Qed.

Lemma pagination_complete_witness :
  fetch_history 2 demo_store "c" "" 1 = with_reactions demo_store <$> conv_messages demo_store "c".
Proof.
  apply pagination_complete; [apply demo_store_ok|lia|vm_compute; lia].
Defined.

(** ** Read cursors *)

(** after [MarkConversationRead], and through any history that neither deletes
    messages of the conversation nor moves that cursor, the unread count is the
    number of messages others sent since: zero at first, and the user's own
    messages never count. *)
Theorem unread_counts_later_messages `{Runtime} s c u now st s1 ops :
  messages_ok s -> conv_messages s c <> [] ->
  s.(msgCounter) + Z.of_nat (length ops) <= maxInt64 ->
  MarkConversationRead c u now s = (Ok st, s1) -> Forall (grows c u) ops ->
  exists new, sigs (run_ops ops s1) c = sigs s c ++ new
    /\ CountUnreadMessages c u (run_ops ops s1)
       = Ok (Z.of_nat (length (filter (sig_not_from u) new))).
Proof.
  intros Hok Hne Hlen Hmark Hg.
  assert (Hok1 : messages_ok s1)
    by (injection Hmark as <- <-; revert Hok; by apply messages_ok_frame).
  assert (Hc1 : s1.(msgCounter) = s.(msgCounter)) by (by injection Hmark as <- <-).
  assert (Hs1 : sigs s1 c = sigs s c) by (by injection Hmark as <- <-).
  destruct (run_ops_extends c u ops s1) as [Hr [new Hnew]]; [done|lia|done|].
  assert (Hok2 : messages_ok (run_ops ops s1)) by (apply run_ops_messages_ok; [done|lia]).
  rewrite Hs1 in Hnew. exists new. split; [done|].
  destruct (last (conv_messages s c)) as [m|] eqn:Hm; [|by apply last_None in Hm].
  assert (Hst : lookup2 s1.(readStates) c u = Some st
                /\ st.(ReadState_LastReadMessageID) = m.(Message_ID)).
  { unfold MarkConversationRead in Hmark. rewrite Hm in Hmark. injection Hmark as <- <-.
    simpl. rewrite lookup2_insert2, decide_True by done. done. }
  destruct Hst as [Hst Hid]. rewrite <-Hr in Hst. rewrite last_lookup in Hm.
  set (i := pred (length (conv_messages s c))) in *.
  assert (Hlast : sigs (run_ops ops s1) c !! i = Some (msg_sig m)).
  { rewrite Hnew. apply lookup_app_l_Some. unfold sigs. by rewrite list_lookup_fmap, Hm. }
  unfold sigs in Hlast. rewrite list_lookup_fmap in Hlast.
  apply fmap_Some in Hlast as (m' & Hm' & Hsig).
  rewrite (CountUnread_at_index _ c u st i m');
    [|done|done|done|unfold msg_sig in Hsig; congruence].
  rewrite Hnew. replace (S i) with (length (sigs s c)).
  - by rewrite drop_app_length.
  - unfold sigs. rewrite length_fmap. apply lookup_lt_Some in Hm. lia.
Qed.

Lemma unread_counts_later_messages_witness : exists new,
  sigs (run_ops (H := demo_runtime)
     [OpStoreMessageIdempotent "c" "bob" "Bob" "" [demo_text "again"] demo_epoch]
     (MarkConversationRead "c" "alice" demo_epoch demo_store).2) "c"
    = sigs demo_store "c" ++ new
  /\ CountUnreadMessages "c" "alice" (run_ops (H := demo_runtime)
       [OpStoreMessageIdempotent "c" "bob" "Bob" "" [demo_text "again"] demo_epoch]
       (MarkConversationRead "c" "alice" demo_epoch demo_store).2)
     = Ok (Z.of_nat (length (filter (sig_not_from "alice") new))).
Proof.
  eapply (unread_counts_later_messages (H := demo_runtime) demo_store "c" "alice" demo_epoch);
    [apply demo_store_ok|vm_compute; discriminate|vm_compute; discriminate|reflexivity
    |repeat constructor].
Defined.

(** once the message a cursor points to has been deleted, the in-memory store
    reports no unread messages at all, however many arrive afterwards, until the
    conversation is marked as read again. *)
Theorem unread_stuck_after_cursor_deleted (s : MemoryStore) c u st :
  lookup2 s.(readStates) c u = Some st -> st.(ReadState_LastReadMessageID) <> "" ->
  (forall m, m ∈ conv_messages s c -> m.(Message_ID) <> st.(ReadState_LastReadMessageID)) ->
  CountUnreadMessages c u s = Ok 0.
Proof.
  intros Hst Hne Hno. unfold CountUnreadMessages. rewrite Hst. cbn [unread_start].
  rewrite bool_decide_false by done.
  destruct (index_first _ _) as [i|] eqn:E.
  - exfalso. assert (Hnone : index_first (has_msg_id st.(ReadState_LastReadMessageID))
                       (conv_messages s c) = None).
    { apply index_first_None. intros m Hm. apply bool_decide_eq_false. by apply Hno. }
    unfold has_msg_id in Hnone. congruence.
  - by rewrite drop_all.
Qed.

Definition demo_cursor_deleted : MemoryStore := run_ops (H := demo_runtime)
  [OpMarkConversationRead "c" "alice" demo_epoch; OpDeleteMessage "msg_3";
   OpStoreMessageIdempotent "c" "bob" "Bob" "" [demo_text "unseen"] demo_epoch] demo_store.

Lemma unread_stuck_after_cursor_deleted_witness :
  length (conv_messages demo_cursor_deleted "c") = 2%nat
  /\ CountUnreadMessages "c" "alice" demo_cursor_deleted = Ok 0.
Proof.
  split; [reflexivity|].
  eapply (unread_stuck_after_cursor_deleted demo_cursor_deleted "c" "alice"
    (mkReadState "c" "alice" "msg_3" (demo_epoch + 2 * second)));
    [reflexivity|discriminate|].
  intros m Hm.
  assert (Hids : Message_ID <$> conv_messages demo_cursor_deleted "c" = ["msg_1"; "msg_4"])
    by reflexivity.
  apply (list_elem_of_fmap_2 Message_ID) in Hm. rewrite Hids in Hm.
  simpl. intros Heq. rewrite Heq in Hm.
  apply elem_of_cons in Hm as [[=]|[[=]|Hm]%elem_of_cons]. inversion Hm.
Defined.

(** C18: the SQL stores refine the in-memory one, whatever a database keeps of a
    timestamp (as long as what it keeps is kept exactly, and compares as the times it
    stands for): while the kept timestamps of a conversation increase and its cursor's
    message exists, marking it as read answers the same cursor, up to what is kept of
    its time, and leaves the tables in agreement; the cursor read back is the same; and
    the unread count by timestamp is the unread count by position.  A failing statement
    is answered by its error; the table is then as it was, except that a failed INSERT
    whose answer alone was lost has done all it should. *)
Theorem sql_reads_refine_memory `{TimeColumnLaws} fault lost (s : MemoryStore) (t : sql_tables) c u now :
  messages_ok s -> agree c u s t ->
  let s' := (MarkConversationRead c u now s).2 in
  match run (sql_MarkConversationRead fault lost c u now) t with
  | (Ok st, t') => agree c u s' t' /\ fault QueryLast = None /\ fault ExecRead = None
      /\ exists st', (MarkConversationRead c u now s).1 = Ok st' /\ same_cursor st st'
  | (Err err, t') => (fault QueryLast = Some err /\ t' = t)
      \/ (fault QueryLast = None /\ fault ExecRead = Some err
          /\ if lost then agree c u s' t' else t' = t)
  end
  /\ match fault QueryRead with
     | Some err => run (sql_GetConversationRead fault c u) t = (Err err, t)
     | None => exists row state, run (sql_GetConversationRead fault c u) t = (Ok row, t)
         /\ GetConversationRead c u s = Ok state /\ option_Forall2 same_cursor row state
     end
  /\ run (sql_CountUnreadMessages fault c u) t
     = (match fault QueryRead, fault QueryCount with
        | Some err, _ | None, Some err => Err err
        | None, None => CountUnreadMessages c u s
        end, t).
Proof.
  intros Hok Hag. split; [|split].
  - apply agree_mark; [by apply conv_messages_id_nonempty|by apply conv_messages_ids|done].
  - pose proof (agree_get fault c u s t Hag) as Hg.
    destruct (fault QueryRead); [done|]. destruct Hg as (row & Hr & Hs). by exists row, (lookup2 s.(readStates) c u).
  - by apply agree_count.
Qed.

(** the rows of [demo_store] in PostgreSQL *)
Definition demo_tables : sql_tables (H := microseconds) := mkSqlTables
  [mkMessageRow "msg_3" "c" "bob" (write_time (demo_epoch + 2 * second));
   mkMessageRow "msg_2" "d" "bob" (write_time (demo_epoch + second));
   mkMessageRow "msg_1" "c" "alice" (write_time demo_epoch)] ∅.

Lemma demo_agree : agree "c" "alice" demo_store demo_tables.
Proof.
  assert (Hl : conv_messages demo_store "c" =
    [mkMessage "msg_1" "c" "alice" "Alice" [demo_text "hi"] demo_epoch false [];
     mkMessage "msg_3" "c" "bob" "Bob" [demo_text "hey"] (demo_epoch + 2 * second) false []])
    by (vm_compute; reflexivity).
  split; rewrite ?Hl.
  - apply Permutation_swap.
  - vm_compute. reflexivity.
  - intros st Hst. vm_compute in Hst. discriminate.
  - repeat constructor.
  - intros st Hst. vm_compute in Hst. discriminate.
Qed.

Lemma sql_reads_refine_memory_witness :
  run (sql_CountUnreadMessages (fun _ => None) "c" "alice") demo_tables = (Ok 1, demo_tables)
  /\ CountUnreadMessages "c" "alice" demo_store = Ok 1
  /\ run (sql_CountUnreadMessages (fun _ => None) "c" "alice") demo_tables
     = (CountUnreadMessages "c" "alice" demo_store, demo_tables).
Proof.
  split; [reflexivity|]. split; [reflexivity|].
  apply (sql_reads_refine_memory (fun _ => None) false demo_store demo_tables "c" "alice" demo_epoch);
    [apply demo_store_ok|apply demo_agree].
Defined.
