(* ===== verification/AccountProps.v ===== *)
(** * Accounts, groups, reactions: what the store guarantees *)
From S2P Require Import Prelude GoLib Types MemoryState MemoryAccounts MemoryMessages.
From S2P Require Import MemoryGroups MessageFacts StoreSteps GroupFacts Demo.
From stdpp Require Import gmap strings list.
From Stdlib Require Import ZArith.

Local Open Scope Z_scope.

(** through any sequence of store operations friendship stays symmetric (with
    the same date on both sides) and irreflexive, and the empty id has no friends. *)
Theorem friendship_symmetric `{Runtime} (ops : list store_op) (a b : string) :
  let F := (run_ops ops NewMemoryStore).(friendships) in
  lookup2 F a b = lookup2 F b a /\ lookup2 F a a = None /\ lookup2 F "" b = None.
Proof.
  intros F. apply (run_ops_friends_ok ops NewMemoryStore).
  intros x y. unfold lookup2; simpl. by rewrite !lookup_empty.
Qed.

(** C13: groups stay well formed -- stored under their own id, members distinct,
    roles among owner, admin and member, exactly one owner and it is the one the
    group names -- through any sequence of operations in which roles other than
    the owner's are set on members other than the owner, and the owner is not
    removed, as seen by each operation when it happens. *)
Theorem groups_well_formed `{Runtime} (ops : list store_op) :
  safe_run ops NewMemoryStore -> groups_ok (run_ops ops NewMemoryStore).
Proof. apply run_ops_groups_ok. by intros i g. Qed.

Definition demo_group_ops : list store_op :=
  [OpCreateGroup "g" "G" "" "alice" demo_epoch demo_epoch; OpAddGroupMember "g" "bob" demo_epoch;
   OpSetGroupMemberRole "g" "bob" "admin"; OpTransferGroupOwnership "g" "alice" "bob";
   OpRemoveGroupMember "g" "alice"].

Lemma groups_well_formed_witness :
  groups_ok (run_ops (H := demo_runtime) demo_group_ops NewMemoryStore).
Proof.
  apply (groups_well_formed (H := demo_runtime)).
  cbn [safe_run demo_group_ops group_safe]. repeat split; try (by left);
    intros g Hg; vm_compute in Hg; injection Hg as <-; vm_compute; discriminate.
Defined.

(** ** Titles *)

(** the grant times along a sequence of operations never decrease, from [t0] on *)
Fixpoint grants_from (t0 : time) (ops : list store_op) : Prop :=
  match ops with
  | [] => True
  | OpGrantUserTitle _ now :: ops => t0 <= now /\ grants_from now ops
  | _ :: ops => grants_from t0 ops
  end.

(** the time of the last grant *)
Fixpoint last_grant (t0 : time) (ops : list store_op) : time :=
  match ops with
  | [] => t0
  | OpGrantUserTitle _ now :: ops => last_grant now ops
  | _ :: ops => last_grant t0 ops
  end.

Definition titles_ok (t0 : time) (s : MemoryStore) : Prop :=
  forall u t, t0 <= t -> (size (active_titles s u t) <= 5)%nat.

(** A title that is active later was active before. *)
Lemma titleIsActive_mono title u t t' :
  t <= t' -> titleIsActive title u t' = true -> titleIsActive title u t = true.
Proof.
  unfold titleIsActive. rewrite !andb_true_iff. intros Ht [Hu He]. split; [done|].
  destruct title.(UserTitle_ExpiresAt) as [e|]; [|done].
  unfold After in *. apply Z.ltb_lt. apply Z.ltb_lt in He. lia.
Qed.

Lemma active_titles_mono s u t t' :
  t <= t' -> (size (active_titles s u t') <= size (active_titles s u t))%nat.
Proof.
  intros Ht. apply map_subseteq_size. apply map_subseteq_spec. intros k v.
  unfold active_titles. rewrite !map_lookup_filter_Some. intros [? ?].
  split; [done|]. simpl in *. by eapply titleIsActive_mono.
Qed.

Lemma GrantUserTitle_ok title now s t0 :
  t0 <= now -> titles_ok t0 s -> titles_ok now (GrantUserTitle title now s).2.
Proof.
  intros Hnow Hok u t Ht. unfold GrantUserTitle.
  case_Z; simpl; [apply Hok; lia|].
  set (copy := if IsZero _ then _ else _).
  assert (Hcopy : copy.(UserTitle_UserID) = title.(UserTitle_UserID)).
  { unfold copy. by case_goal. }
  unfold active_titles; simpl. rewrite map_filter_insert. case_decide as E.
  - rewrite map_size_insert. destruct (decide (u = title.(UserTitle_UserID))) as [->|Hne].
    + pose proof (active_titles_mono s title.(UserTitle_UserID) now t Ht).
      unfold active_titles in *. case_goal; unfold id; lia.
    + simpl in E. unfold titleIsActive in E. apply andb_true_iff in E as [E _].
      apply bool_decide_eq_true in E. congruence.
  - etrans; [|apply (Hok u t); lia]. rewrite map_filter_delete. apply map_subseteq_size, delete_subseteq.
Qed.

Lemma titles_ok_weaken t0 t1 s : t0 <= t1 -> titles_ok t0 s -> titles_ok t1 s.
Proof. intros Hle Hok u t Ht. apply Hok. lia. Qed.

Lemma run_ops_titles_ok `{Runtime} ops s t0 :
  titles_ok t0 s -> grants_from t0 ops -> titles_ok (last_grant t0 ops) (run_ops ops s).
Proof.
  revert s t0. induction ops as [|op ops IH]; intros s t0 Hok Hg; [done|].
  destruct op; cbn [grants_from last_grant run_ops fold_left] in *;
    try solve [apply IH; [|done]; intros u0 t Ht; unfold active_titles;
      replace (userTitles _) with s.(userTitles) by (symmetry; frame_exec); by apply Hok].
  - destruct Hg. apply IH; [|done]. by eapply GrantUserTitle_ok.
  - apply IH; [|done]. intros u t Ht. etrans; [|apply (Hok u t Ht)].
    cbn [exec]. unfold DeleteUserTitle. case_goal; [|done]. unfold active_titles; simpl.
    rewrite map_filter_delete. apply map_subseteq_size, delete_subseteq.
Qed.

(** no user ever has more than five active titles: through any operations on
    an initially empty store whose grants happen at non-decreasing times, and at any
    moment from the last grant on (titles only expire in between). *)
Theorem active_titles_at_most_five `{Runtime} (ops : list store_op) t0 u t :
  grants_from t0 ops -> last_grant t0 ops <= t ->
  (size (active_titles (run_ops ops NewMemoryStore) u t) <= 5)%nat.
Proof.
  intros Hg Ht. refine (run_ops_titles_ok ops NewMemoryStore t0 _ Hg u t Ht).
  intros u' t' _. unfold active_titles; simpl. rewrite map_filter_empty, map_size_empty. lia.
Qed.

Definition demo_title (n : Z) : UserTitle :=
  mkUserTitle (sprint_d n) "alice" "system" "" "Title" "" "admin" None zero_time.

Definition demo_grants : list store_op :=
  (fun n => OpGrantUserTitle (demo_title n) (demo_epoch + n)) <$> [1;2;3;4;5;6;7].
Definition demo_titled : MemoryStore := run_ops (H := demo_runtime) demo_grants NewMemoryStore.

Lemma active_titles_at_most_five_witness :
  size (active_titles demo_titled "alice" (Z.add demo_epoch 8)) = 5%nat
  /\ (size (active_titles demo_titled "alice" (Z.add demo_epoch 8)) <= 5)%nat.
Proof.
  split; [vm_compute; reflexivity|].
  apply (active_titles_at_most_five (H := demo_runtime) demo_grants demo_epoch).
  - cbn. repeat split; lia.
  - cbn. lia.
Defined.

(** ** Reactions and dynamic interactions *)

(** the users who reacted to a message with an emoji *)
Definition voters_of (s : MemoryStore) (msgID emojiID : string) : gset string :=
  default ∅ (default ∅ (s.(messageReactions) !! msgID) !! emojiID).

Lemma voters_of_set s id byEmoji id' e :
  voters_of (s <| messageReactions ::= <[id := byEmoji]> |>) id' e =
  if decide (id = id') then default ∅ (byEmoji !! e) else voters_of s id' e.
Proof.
  unfold voters_of; simpl. case_decide; subst.
  - by rewrite lookup_insert_eq.
  - by rewrite lookup_insert_ne.
Qed.

(** An emoji is listed, with its number of voters, exactly when it has voters. *)
Lemma reactionCountsLocked_iff s id e n :
  mkReaction e n ∈ reactionCountsLocked s id <->
  n = Z.of_nat (size (voters_of s id e)) /\ voters_of s id e <> ∅.
Proof.
  unfold reactionCountsLocked, voters_of. set (byEmoji := default ∅ (_ !! id)).
  rewrite list_elem_of_fmap. setoid_rewrite (sort_slice_perm string_less).
  setoid_rewrite list_elem_of_fmap. setoid_rewrite list_elem_of_filter. split.
  - intros (e' & [= -> ->] & [e'' vs] & -> & Hne & Hin). simpl in *.
    apply elem_of_map_to_list in Hin. rewrite Hin. simpl. done.
  - intros [-> Hne]. exists e. split; [done|].
    destruct (byEmoji !! e) as [vs|] eqn:E; [|done].
    exists (e, vs). simpl in *. split; [done|]. split; [done|].
    by apply elem_of_map_to_list.
Qed.

(** reacting to a live, unrecalled message adds (or removes) exactly the
    acting user among the voters of that emoji of that message, and the message
    returned lists every emoji with voters, with their number, and no other. *)
Theorem ReactToMessage_effect (s : MemoryStore) id u e (rm : bool) m :
  findMessageLocked s id = Some m -> m.(Message_Recalled) = false ->
  exists m' s', ReactToMessage id u e rm s = (Ok (Some m'), s')
    /\ (forall id' e', voters_of s' id' e' =
          if decide (id = id' /\ e = e')
          then (if rm then voters_of s id e ∖ {[u]} else voters_of s id e ∪ {[u]})
          else voters_of s id' e')
    /\ (m.(Message_ID) = id -> forall e' n, mkReaction e' n ∈ m'.(Message_Reactions) <->
          n = Z.of_nat (size (voters_of s' id e')) /\ voters_of s' id e' <> ∅).
Proof.
  intros Hm Hrec. unfold ReactToMessage. rewrite Hm, Hrec.
  eexists _, _. split; [reflexivity|]. split.
  - intros id' e'. rewrite voters_of_set.
    change (default ∅ (default ∅ (s.(messageReactions) !! id) !! e)) with (voters_of s id e).
    set (vs := if rm then _ else _). destruct (decide (id = id')) as [<-|Hne].
    + destruct (decide (e = e')) as [<-|Hee].
      * rewrite decide_True by done. case_bool_decide as Hvs.
        -- by rewrite lookup_delete_eq, Hvs.
        -- by rewrite lookup_insert_eq.
      * rewrite decide_False by naive_solver. case_bool_decide.
        -- by rewrite lookup_delete_ne.
        -- by rewrite lookup_insert_ne.
    + by rewrite decide_False by naive_solver.
  - intros Hid e' n. cbn [with_reactions]. unfold with_reactions; simpl.
    rewrite Hid. apply reactionCountsLocked_iff.
Qed.

Definition demo_chat : MemoryStore := run_ops (H := demo_runtime)
  [OpStoreMessageIdempotent "c" "alice" "Alice" "k1" [demo_text "hi"] demo_epoch;
   OpReactToMessage "msg_1" "bob" "76" false] NewMemoryStore.

Lemma ReactToMessage_effect_witness :
  exists m' s', ReactToMessage "msg_1" "carol" "76" false demo_chat = (Ok (Some m'), s')
    /\ voters_of s' "msg_1" "76" = voters_of demo_chat "msg_1" "76" ∪ {["carol"]}
    /\ mkReaction "76" 2 ∈ m'.(Message_Reactions).
Proof.
  destruct (ReactToMessage_effect demo_chat "msg_1" "carol" "76" false
    (mkMessage "msg_1" "c" "alice" "Alice" [demo_text "hi"] demo_epoch false [])
    ltac:(vm_compute; reflexivity) eq_refl) as (m' & s' & Hr & Hv & Hm).
  exists m', s'. split; [exact Hr|]. split.
  - rewrite Hv. rewrite decide_True by (split; reflexivity). reflexivity.
  - apply Hm; [reflexivity|]. rewrite (Hv "msg_1" "76").
    rewrite decide_True by (split; reflexivity). split; vm_compute; [reflexivity|discriminate].
Defined.

(** ** Dynamic interaction events *)

(** the event list of a message *)
Definition reactions_of (s : MemoryStore) (msgID : string) : list DynamicInteractionEvent :=
  default [] (s.(dynamicInteractionEvents) !! msgID).

Lemma CommitDynamicInteractionEvent_cases `{Runtime} e segs now s r s' :
  CommitDynamicInteractionEvent e segs now s = (r, s') ->
  (exists err, r = Err err /\ s' = s)
  \/ (r = Ok true /\ s' = s)
  \/ exists fp p, r = Ok false
       /\ dynamicInteractionFingerprint e = Ok fp
       /\ find_ptr s e.(DynamicInteractionEvent_MessageID) = Some p
       /\ s' = record_interaction fp e now
                 (write_message p (fun m => m <| Message_Segments := segs |>) s).
Proof.
  unfold CommitDynamicInteractionEvent, interaction_op.
  destruct (_ || _); [intros [= <- <-]; eauto|].
  destruct (dynamicInteractionFingerprint e) as [fp|err]; [|intros [= <- <-]; eauto].
  destruct (s.(dynamicInteractionByID) !! interaction_key e) as [x|].
  { case_bool_decide; intros [= <- <-]; eauto. }
  unfold findMessageLocked, updateMessageSegmentsLocked.
  destruct (find_ptr s e.(DynamicInteractionEvent_MessageID)) as [p|] eqn:Ep; simpl.
  - destruct (msg_at s p); simpl; intros [= <- <-]; [|eauto].
    right; right. exists fp, p. done.
  - intros [= <- <-]. eauto.
Qed.

(** committing an interaction is atomic.  A refused commit, or a repeated one,
    leaves the store as it was; an accepted one replaces the segments of the
    target message and appends the event to its log, both together. *)
Theorem commit_is_atomic `{Runtime} (s : MemoryStore) e segs now r s' :
  messages_ok s ->
  CommitDynamicInteractionEvent e segs now s = (r, s') ->
  (r <> Ok false -> s' = s)
  /\ (r = Ok false ->
      let id := e.(DynamicInteractionEvent_MessageID) in
      (exists m, findMessageLocked s' id = Some m /\ m.(Message_Segments) = segs)
      /\ exists copy, reactions_of s' id = reactions_of s id ++ [copy]
           /\ copy.(DynamicInteractionEvent_EventID) = e.(DynamicInteractionEvent_EventID)).
Proof.
  intros Hok Hc. apply CommitDynamicInteractionEvent_cases in Hc
    as [(err & -> & ->)|[[-> ->]|(fp & p & -> & Hfp & Hp & ->)]]; [done|done|].
  split; [done|]. intros _ id. split.
  - assert (Hok' : messages_ok (write_message p (fun m => m <| Message_Segments := segs |>) s))
      by (by apply write_message_ok).
    apply find_ptr_iff in Hp as [[c Hpc] (m & Hm & Hid)]; [|done].
    exists (m <| Message_Segments := segs |>). split; [|done].
    change (findMessageLocked (write_message p (fun m => m <| Message_Segments := segs |>) s) id
            = Some (m <| Message_Segments := segs |>)).
    unfold findMessageLocked. apply bind_Some. exists p.
    assert (Hmp : msg_at (write_message p (fun m => m <| Message_Segments := segs |>) s) p
                  = Some (m <| Message_Segments := segs |>))
      by (by rewrite msg_at_write, decide_True, Hm).
    split; [|done]. apply find_ptr_iff; [done|]. split; [by exists c|]. by eexists.
  - unfold record_interaction. case_goal;
      (eexists; split; [unfold reactions_of; simpl; by rewrite lookup_insert_eq|done]).
Qed.

Definition demo_event : DynamicInteractionEvent := mkDynamicInteractionEvent
  "ev1" "c" "msg_1" "card" "button" "tap" "press" None "bob" "Bob" "user" zero_time.

Lemma commit_is_atomic_witness :
  let s' := (CommitDynamicInteractionEvent (H := demo_runtime) demo_event [demo_text "pressed"]
               demo_epoch demo_chat).2 in
  exists m, findMessageLocked s' "msg_1" = Some m /\ m.(Message_Segments) = [demo_text "pressed"].
Proof.
  destruct (commit_is_atomic (H := demo_runtime) demo_chat demo_event [demo_text "pressed"]
    demo_epoch (Ok false)
    (CommitDynamicInteractionEvent (H := demo_runtime) demo_event [demo_text "pressed"]
               demo_epoch demo_chat).2) as [_ Hok].
  - apply (run_ops_messages_ok (H := demo_runtime)); [apply NewMemoryStore_messages_ok|].
    vm_compute. discriminate.
  - vm_compute. reflexivity.
  - exact (proj1 (Hok eq_refl)).
Defined.

(** an accepted commit is remembered: the same event sent again, even with
    other segments, is acknowledged as a duplicate without effect, and the same
    event id with another content is refused. *)
Theorem commit_is_idempotent `{Runtime} (s : MemoryStore) e e2 segs segs' now now' s' :
  CommitDynamicInteractionEvent e segs now s = (Ok false, s') ->
  interaction_key e2 = interaction_key e ->
  e2.(DynamicInteractionEvent_EventID) <> "" -> e2.(DynamicInteractionEvent_ActorID) <> "" ->
  forall fp2, dynamicInteractionFingerprint e2 = Ok fp2 ->
  CommitDynamicInteractionEvent e2 segs' now' s' =
  (if bool_decide (dynamicInteractionFingerprint e = Ok fp2) then Ok true
   else Err ErrDynamicInteractionIdempotencyConflict, s').
Proof.
  intros Hc Hkey Hid Hact fp2 Hfp2. apply CommitDynamicInteractionEvent_cases in Hc
    as [(err & [=] & _)|[[[=] _]|(fp & p & _ & Hfp & Hp & ->)]].
  unfold CommitDynamicInteractionEvent at 1, interaction_op.
  rewrite !bool_decide_false by done. cbv [orb]. rewrite Hfp2, Hkey, Hfp.
  unfold record_interaction at 1. cbn [dynamicInteractionByID field_update].
  replace (_ !! interaction_key e) with
    (Some (mkDynamicInteractionRecord fp
      (if IsZero e.(DynamicInteractionEvent_CreatedAt)
       then e <| DynamicInteractionEvent_CreatedAt := now |> else e)))
    by (simpl; by rewrite lookup_insert_eq).
  cbn [di_fingerprint]. repeat case_bool_decide; naive_solver.
Qed.

Lemma commit_is_idempotent_witness :
  let s' := (CommitDynamicInteractionEvent (H := demo_runtime) demo_event [demo_text "pressed"]
               demo_epoch demo_chat).2 in
  CommitDynamicInteractionEvent (H := demo_runtime) demo_event [demo_text "other"] 0 s'
  = (Ok true, s').
Proof.
  refine (commit_is_idempotent (H := demo_runtime) demo_chat demo_event demo_event
    [demo_text "pressed"] [demo_text "other"] demo_epoch 0 _ _ eq_refl _ _ _ eq_refl);
    [vm_compute; reflexivity|discriminate|discriminate].
Defined.
