(* ===== verification/GatewayProps.v ===== *)
(** * Properties of the gateway

    The invariant in every interleaving, what a connection can do before it logs
    in, who a login identifies, and who receives a broadcast. *)
From S2P Require Import Prelude GoLib Types DynamicContent Capabilities MemoryState.
From S2P Require Import MemoryAccounts MemoryMessages MemoryGroups MessageFacts StoreSteps.
From S2P Require Import GroupFacts Prog Vault Gateway GatewayGroups GatewayAccounts.
From S2P Require Import GatewayMessages GatewayReads GatewaySend GatewayFacts.
From S2P Require Import HandlerFacts Demo.
From stdpp Require Import gmap strings list.
From Stdlib Require Import ZArith.

Local Open Scope Z_scope.
Local Open Scope go_scope.

(** ** A gateway to demonstrate on *)

Definition no_services : services :=
  mkServices None "".

Lemma no_services_ok `{Runtime} cs : services_ok cs no_services.
Proof. by split. Qed.

(** a gateway with an empty store and two connections *)
Definition demo_world : World :=
  (NewGateway NewMemoryStore false) <| conns := {[1%nat := new_client; 2%nat := new_client]} |>.

Definition demo_request (action : string) (params : list (string * json)) : Request :=
  mkRequest action (obj params) "e".

Lemma demo_world_new c cl : demo_world.(conns) !! c = Some cl -> cl = new_client.
Proof.
  change (conns demo_world) with (<[1%nat := new_client]> {[2%nat := new_client]} : gmap conn_id Client).
  intros [[_ <-]|[_ [_ <-]%lookup_singleton_Some]]%lookup_insert_Some; done.
Qed.

Lemma demo_world_ok : gateway_ok {[1%nat; 2%nat]} demo_world.
Proof.
  split.
  - split; [|done]. intros c u. change (clients demo_world) with (∅ : gmap string (gset conn_id)).
    rewrite lookup_empty. split; [set_solver|]. intros (_ & Hu & Hne).
    unfold user_on, client_of in Hu. destruct (conns demo_world !! c) as [cl|] eqn:E.
    + apply demo_world_new in E as ->. by subst.
    + by subst.
  - intros c cl ->%demo_world_new. simpl. unfold send_capacity. lia.
  - intros c [->%elem_of_singleton| ->%elem_of_singleton]%elem_of_union; eauto.
  - split; [|done]. split; done.
Qed.

(** ** The invariant in every interleaving *)

(** C1: in every interleaving of any number of requests, disconnections, socket
    writers and push goroutines of the gateway, the registry lists exactly the
    connections that have logged in, under the user they logged in as; a send queue
    never holds more than 256 events; friendship is symmetric; and the members of a
    group are distinct and have a role. *)
Theorem gateway_invariant `{Runtime} (cs : gset conn_id) (sv : services)
    (send : PushSubscription -> json -> bool) (w w' : World) (ps ps' : list handler) :
  services_ok cs sv -> gateway_ok cs w -> Forall (gateway_thread cs sv send) ps ->
  pool_steps (w, ps) (w', ps') -> gateway_ok cs w'.
Proof.
  intros Hsv Hw Hps Hrun. apply (pool_invariant (gateway_ok cs) _ _ Hrun); [done|].
  eapply Forall_impl; [exact Hps|]. intros p. by apply always_gateway_thread.
Qed.

Definition demo_auth : Request := demo_request "auth" [("user_id", JStr "alice")].
Definition demo_logged_in : World :=
  (run (readPump_step (H := demo_runtime) no_services 1%nat (Some demo_auth)) demo_world).2.

Lemma gateway_invariant_witness :
  demo_logged_in.(clients) !! "alice" = Some {[1%nat]}
  /\ gateway_ok {[1%nat; 2%nat]} demo_logged_in.
Proof.
  split; [vm_compute; reflexivity|].
  apply (gateway_invariant (H := demo_runtime) {[1%nat; 2%nat]} no_services (fun _ _ => false)
           demo_world _ [readPump_step (H := demo_runtime) no_services 1%nat (Some demo_auth)] [Ret tt]).
  - apply (no_services_ok (H := demo_runtime)).
  - apply demo_world_ok.
  - constructor; [|constructor]. constructor. set_solver.
  - apply (run_pool_steps _ _ [] []). unfold demo_logged_in. by destruct (run _ _) as [[] ?].
Defined.

(** ** Before login *)

(** the requests that do not need a login; the last one is not part of the table's
    own handlers *)
Definition public_actions : gset string :=
  {["auth"; "register"; "logout"; "ping"; "get_dynamic_interactions"]}.

Definition guarded `{Runtime} (h : conn_id -> Request -> handler) : Prop :=
  forall c req w, user_on w c = "" ->
    run (h c req) w = run (sendError c req.(Request_Echo) "not authenticated") w.

Section guards.
Context `{Runtime}.

Lemma guarded_authenticated c req bad k w :
  user_on w c = "" ->
  run (authenticated c req bad k) w = run (sendError c req.(Request_Echo) "not authenticated") w.
Proof.
  intros Hu. unfold authenticated, client_userID. rewrite run_bind. cbn [run reads atomic].
  unfold user_on in Hu. rewrite Hu. by rewrite bool_decide_true.
Qed.

Lemma guarded_logged_in c req k w :
  user_on w c = "" ->
  run (logged_in c req k) w = run (sendError c req.(Request_Echo) "not authenticated") w.
Proof.
  intros Hu. unfold logged_in, client_userID. rewrite run_bind. cbn [run reads atomic].
  unfold user_on in Hu. rewrite Hu. by rewrite bool_decide_true.
Qed.

Lemma guarded_routes sv : Forall (fun r => r.1 ∈ public_actions \/ guarded r.2) (routes sv).
Proof.
  unfold routes. repeat apply Forall_cons_2; try apply Forall_nil_2; cbn [fst snd].
  all: try (left; apply (bool_decide_unpack _); vm_compute; exact Logic.I).
  all: right; intros c req w Hu.
  all: first [ exact (guarded_authenticated c req _ _ w Hu)
             | exact (guarded_logged_in c req _ w Hu)
             | exact (guarded_logged_in c req (fun u => _) w Hu)].
Qed.
End guards.

(** before a connection has logged in, no request other than auth, register,
    logout and ping does anything but queue one error response on that connection:
    the store, the registry and every other connection stay as they are. *)
Theorem login_required `{Runtime} (sv : services) (c : conn_id) (req : Request) (w : World) :
  user_on w c = "" -> req.(Request_Action) ∉ public_actions ->
  exists msg, run (handleRequest sv c req) w = run (sendError c req.(Request_Echo) msg) w.
Proof.
  intros Hu Hp. unfold handleRequest. destruct (_ !! _) as [h|] eqn:E; [|by eexists].
  apply elem_of_list_to_map_2 in E.
  pose proof (guarded_routes sv) as Hall. rewrite Forall_forall in Hall.
  destruct (Hall _ E) as [?|Hg]; [done|]. eexists. by apply Hg.
Qed.

Definition demo_create_group : Request :=
  demo_request "create_group" [("name", JStr "friends")].

Lemma login_required_witness :
  user_on demo_world 1%nat = ""
  /\ exists msg, run (handleRequest (H := demo_runtime) no_services 1%nat demo_create_group) demo_world
     = run (sendError 1%nat "e" msg) demo_world.
Proof.
  split; [reflexivity|].
  apply (login_required (H := demo_runtime) no_services 1%nat demo_create_group demo_world).
  - reflexivity.
  - apply (bool_decide_unpack _). vm_compute. exact Logic.I.
Defined.

(** ** Sessions *)

Lemma run_call {A} (f : MemoryStore -> A * MemoryStore) w :
  run (call f) w = ((f w.(store)).1, w <| store := (f w.(store)).2 |>).
Proof. unfold call. cbn [run atomic]. by destruct (f w.(store)). Qed.
Lemma run_call_at `{Runtime} {A} (f : time -> MemoryStore -> A * MemoryStore) w :
  run (call_at f) w = ((f (clock w.(tick)) w.(store)).1,
    w <| store := (f (clock w.(tick)) w.(store)).2 |> <| tick ::= S |>).
Proof. unfold call_at. cbn [run atomic]. by destruct (f _ w.(store)). Qed.
Lemma run_query {A} (f : MemoryStore -> A) w : run (query f) w = (f w.(store), w).
Proof. done. Qed.
Lemma run_now `{Runtime} w : run now w = (clock w.(tick), w <| tick ::= S |>).
Proof. done. Qed.

Lemma run_issueSession `{Runtime} u w token w' :
  run (issueSession u) w = (Ok token, w') ->
  exists s, w'.(store).(sessions) !! hashSessionToken token = Some s
    /\ s.(Session_TokenHash) = hashSessionToken token /\ s.(Session_UserID) = u
    /\ s.(Session_ExpiresAt) = clock w.(tick) + sessionTTL.
Proof.
  unfold issueSession. rewrite run_bind. cbn [run atomic].
  destruct (rand_token w.(draws)) as [tk|]; [|done].
  rewrite run_bind, run_now, run_bind, run_call_at. simpl.
  intros [= <- <-]. simpl. eexists. by rewrite lookup_insert_eq.
Qed.

(** a session token that login issued is accepted, for the user it was issued to,
    until 90 days after it was issued and not later; when it is refused, the session is
    no longer stored. *)
Theorem session_lifetime `{Runtime} (u token : string) (w w1 w2 : World) :
  run (issueSession u) w = (Ok token, w1) ->
  w2.(store).(sessions) !! hashSessionToken token
    = w1.(store).(sessions) !! hashSessionToken token ->
  (run (userForSession token) w2).1
    = (if clock w2.(tick) <? clock w.(tick) + sessionTTL then Some u else None)
  /\ ((run (userForSession token) w2).1 = None ->
      (run (userForSession token) w2).2.(store).(sessions) !! hashSessionToken token = None).
Proof.
  intros Hi Hs. destruct (run_issueSession _ _ _ _ Hi) as (s & Hl & Hh & Hu & He).
  rewrite Hl in Hs. unfold userForSession. rewrite run_bind, run_query. unfold GetSession.
  rewrite Hs, run_bind, run_now. unfold After. rewrite He.
  destruct (_ <? _); simpl; [by rewrite Hu|]. split; [done|].
  intros _. by rewrite Hh, lookup_delete_eq.
Qed.

Definition demo_issued : World := (run (issueSession (H := demo_runtime) "alice") demo_world).2.
Lemma session_lifetime_witness :
  (run (userForSession (H := demo_runtime) "token0") demo_issued).1 = Some "alice".
Proof.
  destruct (session_lifetime (H := demo_runtime) "alice" "token0" demo_world demo_issued
              demo_issued) as [Heq _].
  - vm_compute. reflexivity.
  - reflexivity.
  - rewrite Heq. vm_compute. reflexivity.
Defined.

(** ** Login *)

(** the password is the user's *)
Definition password_of `{Runtime} (s : MemoryStore) (u password : string) : Prop :=
  exists user, user_of s u = Some user /\ user.(User_PasswordHash) <> ""
    /\ bcrypt_matches user.(User_PasswordHash) password = true.

Lemma run_userForSession `{Runtime} token w :
  let '(r, w') := run (userForSession token) w in
  (forall u, user_of w'.(store) u = user_of w.(store) u)
  /\ (forall u, r = Some u -> exists s, w.(store).(sessions) !! hashSessionToken token = Some s
        /\ s.(Session_UserID) = u /\ clock w.(tick) < s.(Session_ExpiresAt)).
Proof.
  unfold userForSession. rewrite run_bind, run_query. unfold GetSession.
  destruct (_ !! _) as [s|]; [|done]. rewrite run_bind, run_now. unfold After.
  destruct (Z.ltb_spec (clock w.(tick)) s.(Session_ExpiresAt)); simpl.
  - split; [done|]. intros u [= <-]. eauto.
  - done.
Qed.

(** on a server with an access token, credentials are accepted for a user only if
    they contain a stored, unexpired session of that user, the password of that user, or
    the access token itself; and a password that is given is always the right one. *)
Theorem login_is_authenticated `{Runtime} (params : jmap) (w : World) u bySession :
  w.(accessToken) <> "" -> (run (check_credentials params) w).1 = Ok (u, bySession) ->
  let token := if bool_decide (str params "session_token" = "") then str params "token"
               else str params "session_token" in
  let password := str params "password" in
  ((exists s, w.(store).(sessions) !! hashSessionToken token = Some s
      /\ s.(Session_UserID) = u /\ clock w.(tick) < s.(Session_ExpiresAt))
   \/ password_of w.(store) u password
   \/ (token = w.(accessToken) /\ u = str params "user_id"))
  /\ (password = "" \/ password_of w.(store) u password).
Proof.
  intros Ha Hrun token password. unfold check_credentials in Hrun.
  change (str params "password") with password in Hrun.
  change (if bool_decide (str params "session_token" = "") then str params "token"
          else str params "session_token") with token in Hrun.
  rewrite run_bind in Hrun. cbn [run reads atomic] in Hrun. rewrite run_bind in Hrun.
  set (look := if bool_decide (token = "") then Ret None else userForSession token) in Hrun.
  assert (Hlook : let '(r, w') := run look w in
    (forall u, user_of w'.(store) u = user_of w.(store) u)
    /\ (forall u, r = Some u -> exists s, w.(store).(sessions) !! hashSessionToken token = Some s
          /\ s.(Session_UserID) = u /\ clock w.(tick) < s.(Session_ExpiresAt))).
  { unfold look. case_bool_decide; [done|]. apply run_userForSession. }
  destruct (run look w) as [resolved w']. destruct Hlook as [Husers Hsession].
  cbv zeta in Hrun. set (id := default (str params "user_id") resolved) in Hrun.
  destruct (_ && _) in Hrun; [done|].
  destruct (decide (password = "")) as [Hp|Hp].
  - split; [|by left]. rewrite (bool_decide_true _ Hp) in Hrun. simpl in Hrun.
    rewrite (bool_decide_false (accessToken w = "")), andb_false_r in Hrun by done. simpl in Hrun.
    destruct resolved as [r|].
    + left. apply Hsession. simpl in Hrun. case_in Hrun; naive_solver.
    + right; right. simpl in Hrun. case_bool_decide; simpl in Hrun; [|done].
      case_in Hrun; [done|]. naive_solver.
  - assert (Hpw : password_of w.(store) u password); [|by auto].
    rewrite (bool_decide_false _ Hp), run_bind in Hrun. cbn [andb] in Hrun.
    rewrite run_bind, run_query, Husers in Hrun. cbn [run] in Hrun.
    destruct (user_of w.(store) id) as [user|] eqn:Eu; [|done]. simpl in Hrun.
    case_bool_decide as Eh; simpl in Hrun; [done|].
    destruct (bcrypt_matches _ _) eqn:Em; simpl in Hrun; [|done].
    destruct (validUserID id); simpl in Hrun; [|done].
    injection Hrun as <- _. by exists user.
Qed.

Definition demo_account : World :=
  demo_world <| accessToken := "secret" |>
    <| store ::= fun s => (SetUser 0%nat (new_user (mkUser "alice" "Alice" "" "" "" "" false true true
         false "hash:pw" zero_time) s).2).2 |>.
Definition demo_credentials : jmap :=
  {["user_id" := JStr "alice"; "password" := JStr "pw"]}.

Lemma login_is_authenticated_witness :
  (run (check_credentials (H := demo_runtime) demo_credentials) demo_account).1
    = Ok ("alice", false)
  /\ password_of (H := demo_runtime) demo_account.(store) "alice" "pw".
Proof.
  split; [vm_compute; reflexivity|].
  destruct (login_is_authenticated (H := demo_runtime) demo_credentials demo_account "alice" false)
    as [_ [Hp|Hp]].
  - done.
  - vm_compute. reflexivity.
  - vm_compute in Hp. done.
  - exact Hp.
Defined.
