(* ===== verification/DeliveryProps.v ===== *)
(** * Who receives an event

    A broadcast reaches every open connection of every participant, once, and no
    other connection. *)
From S2P Require Import Prelude GoLib Types DynamicContent Capabilities MemoryState.
From S2P Require Import MemoryAccounts MemoryMessages MemoryGroups StoreSteps Prog Gateway.
From S2P Require Import GatewayGroups GatewayAccounts GatewayMessages GatewayReads.
From S2P Require Import GatewaySend GatewayFacts HandlerFacts GatewayProps Demo.
From stdpp Require Import gmap strings list.
From Stdlib Require Import ZArith.

Local Open Scope Z_scope.
Local Open Scope go_scope.

(** the users of a conversation in a store *)
Definition audience_of (s : MemoryStore) (convID : string) : list string :=
  match s.(conversations) !! convID with
  | None => []
  | Some conv =>
      if bool_decide (conv.(Conversation_Type) = "private") then conv.(Conversation_Participants)
      else GroupMember_UserID <$> from_option Group_Members [] (s.(groups) !! convID)
  end.

(** what happens to a connection an event is delivered to *)
Definition delivered `{Runtime} (event : outgoing) (cl : Client) : Client :=
  match outgoing_for cl.(Client_capabilities) event with
  | Some data => (enqueue_client data cl).2
  | None => cl
  end.

Section delivery.
Context `{Runtime}.

Lemma on_client_ext c f g w :
  (forall cl, w.(conns) !! c = Some cl -> f cl = g cl) -> on_client c f w = on_client c g w.
Proof.
  intros Hfg. assert (Heq : alter f c w.(conns) = alter g c w.(conns)) by (by apply alter_ext).
  change (w <| conns := alter f c w.(conns) |> = w <| conns := alter g c w.(conns) |>).
  by rewrite Heq.
Qed.

Lemma on_client_id c w : on_client c id w = w.
Proof.
  assert (Heq : alter id c w.(conns) = w.(conns)) by (by apply alter_id).
  change (w <| conns := alter id c w.(conns) |> = w). rewrite Heq. by destruct w.
Qed.

Lemma run_deliver event c w :
  run (deliver event c) w = (tt, on_client c (delivered event) w).
Proof.
  unfold deliver. rewrite run_bind. cbn [run reads atomic].
  assert (Hcl : forall cl, w.(conns) !! c = Some cl -> client_of w c = cl)
    by (intros cl Hcl; unfold client_of; by rewrite Hcl).
  destruct (outgoing_for _ _) as [data|] eqn:E; cbn; f_equal.
  - apply on_client_ext. intros cl Hc. unfold delivered. by rewrite (Hcl _ Hc) in E; rewrite E.
  - rewrite <-(on_client_id c w) at 1. apply on_client_ext. intros cl Hc.
    unfold delivered. by rewrite (Hcl _ Hc) in E; rewrite E.
Qed.

Lemma run_clients_of_users us w :
  run (clients_of_users us) w = (us ≫= fun u => elements (default ∅ (w.(clients) !! u)), w).
Proof.
  induction us as [|u us IH]; [done|]. cbn [clients_of_users]. rewrite run_bind.
  cbn [run clientsForUser reads atomic]. by rewrite run_bind, IH.
Qed.

Lemma run_for_each_deliver event cs w :
  NoDup cs ->
  let w' := (run (for_each cs (deliver event)) w).2 in
  w'.(store) = w.(store) /\ w'.(clients) = w.(clients)
  /\ forall c, w'.(conns) !! c =
       if decide (c ∈ cs) then delivered event <$> w.(conns) !! c else w.(conns) !! c.
Proof.
  intros Hn. revert w. induction Hn as [|c cs Hc Hn IH]; intros w; [done|].
  cbn [for_each]. rewrite run_bind, run_deliver. simpl.
  destruct (IH (on_client c (delivered event) w)) as (H1 & H2 & H3). split; [done|]. split; [done|].
  intros c'. rewrite H3. simpl. destruct (decide (c = c')) as [<-|Hne].
  - rewrite lookup_alter_eq, decide_False, decide_True by set_solver. done.
  - rewrite lookup_alter_ne by done. destruct (decide (c' ∈ cs)).
    + by rewrite decide_True by set_solver.
    + by rewrite decide_False by set_solver.
Qed.

Lemma elements_of_users w (us : list string) c :
  registry_ok w ->
  c ∈ (us ≫= fun u => elements (default ∅ (w.(clients) !! u)))
  <-> is_Some (w.(conns) !! c) /\ user_on w c ∈ us /\ user_on w c <> "".
Proof.
  intros [Hr _]. rewrite list_elem_of_bind. setoid_rewrite elem_of_elements. setoid_rewrite Hr.
  naive_solver.
Qed.

Lemma NoDup_elements_of_users w (us : list string) :
  registry_ok w -> NoDup us -> NoDup (us ≫= fun u => elements (default ∅ (w.(clients) !! u))).
Proof.
  intros Hr Hn. induction Hn as [|u us Hu Hn IH]; [constructor|]. cbn [mbind list_bind].
  apply NoDup_app. split; [apply NoDup_elements|]. split; [|done].
  intros c Hc Hc'. apply (elements_of_users w us c Hr) in Hc' as (_ & Hin & _).
  apply elem_of_elements, Hr in Hc as (_ & Heq & _). congruence.
Qed.

Lemma run_audience convID w conv :
  w.(store).(conversations) !! convID = Some conv ->
  run (audience convID conv) w = (audience_of w.(store) convID, w).
Proof.
  intros Hc. unfold audience, audience_of. rewrite Hc. case_bool_decide; [done|].
  rewrite run_bind, run_query. unfold GetGroupMembers. by destruct (_ !! _).
Qed.
End delivery.

(** C10: a broadcast to a conversation changes no state but send queues, and is put once
    in the queue of every connection logged in as a participant (a member, for a
    group) other than the excluded user, unless the queue is full or closed or the
    connection cannot display the event; no other connection receives anything.  This
    is for an event that can be encoded, and the gateway's registry of connections and
    its lists of participants as its invariant keeps them. *)
Theorem broadcast_reaches_audience `{Runtime} (convID excluded : string) (event : outgoing)
    (w : World) :
  encodable_event event = true -> registry_ok w -> NoDup (audience_of w.(store) convID) ->
  let w' := (run (broadcastToConversation convID event excluded) w).2 in
  w'.(store) = w.(store) /\ w'.(clients) = w.(clients)
  /\ forall c cl, w.(conns) !! c = Some cl ->
       w'.(conns) !! c = Some
         (if bool_decide (user_on w c ∈ audience_of w.(store) convID
                          /\ user_on w c <> excluded /\ user_on w c <> "")
          then delivered event cl else cl).
Proof.
  intros He Hr Hn. unfold broadcastToConversation. rewrite He. cbn [negb]. rewrite run_bind, run_query. unfold GetConversation.
  destruct (w.(store).(conversations) !! convID) as [conv|] eqn:Ec; cbn [run].
  2: { split; [done|]. split; [done|]. intros c cl Hc. cbn [snd]. rewrite Hc. unfold audience_of. rewrite Ec.
       case_bool_decide; [|done]. set_solver. }
  rewrite run_bind, (run_audience _ _ _ Ec), run_bind, run_clients_of_users.
  set (us := filter _ (audience_of w.(store) convID)).
  assert (Hn' : NoDup us) by (by apply NoDup_filter).
  destruct (run_for_each_deliver event _ w (NoDup_elements_of_users w us Hr Hn')) as (H1 & H2 & H3).
  split; [done|]. split; [done|]. intros c cl Hc. rewrite H3, Hc. simpl.
  assert (Hin : c ∈ (us ≫= fun u => elements (default ∅ (w.(clients) !! u)))
    <-> user_on w c ∈ audience_of w.(store) convID /\ user_on w c <> excluded /\ user_on w c <> "").
  { assert (Hs : is_Some (w.(conns) !! c)) by eauto.
    rewrite elements_of_users by done. unfold us. rewrite list_elem_of_filter. naive_solver. }
  case_decide; case_bool_decide; naive_solver.
Qed.

(** two users, each on a connection, in a private conversation *)
Definition demo_both : World :=
  (run (handleRequest (H := demo_runtime) no_services 2%nat
          (demo_request "auth" [("user_id", JStr "bob")])) demo_logged_in).2.
Definition demo_private : World :=
  demo_both <| store ::= fun s => (SaveConversation (mkConversation "chat" "private" "" "" ""
                                     ["alice"; "bob"] zero_time) s).2 |>.
Definition demo_notice : outgoing := OutNotice (notice "hello").

(** a request served alone preserves the invariant *)
Lemma run_request_ok `{Runtime} cs c req w :
  c ∈ cs -> gateway_ok cs w -> gateway_ok cs (run (handleRequest no_services c req) w).2.
Proof.
  intros Hc Hw. eapply always_run; [|exact Hw].
  apply always_handleRequest; [apply no_services_ok|done].
Qed.

Lemma registry_ok_frame w w' :
  w'.(clients) = w.(clients) -> w'.(conns) = w.(conns) -> registry_ok w -> registry_ok w'.
Proof.
  intros Hc Hn [H1 H2]. split; [|by rewrite Hc].
  unfold user_on, client_of in *. by rewrite Hc, Hn.
Qed.

Lemma demo_private_registry : registry_ok demo_private.
Proof.
  apply (registry_ok_frame demo_both); [done..|]. apply (gw_registry {[1%nat; 2%nat]}).
  apply run_request_ok; [set_solver|]. apply run_request_ok; [set_solver|]. apply demo_world_ok.
Qed.

Lemma broadcast_reaches_audience_witness :
  last (client_of (run (broadcastToConversation (H := demo_runtime) "chat" demo_notice "alice")
                demo_private).2 2%nat).(Client_send) = Some demo_notice.
Proof.
  destruct (broadcast_reaches_audience (H := demo_runtime) "chat" "alice" demo_notice demo_private)
    as (_ & _ & Hc).
  - vm_compute. reflexivity.
  - apply demo_private_registry.
  - apply (bool_decide_unpack _). vm_compute. exact Logic.I.
  - unfold client_of. rewrite (Hc 2%nat (client_of demo_private 2%nat)).
    2: { vm_compute. reflexivity. }
    vm_compute. reflexivity.
Defined.
