(* ===== verification/AuthorityProps.v ===== *)
(** * Who may do what

    Changes of a group need the role the code requires for them; a message is
    recalled by its sender or a group manager; a muted member cannot send. *)
From S2P Require Import Prelude GoLib Types DynamicContent Capabilities MemoryState.
From S2P Require Import MemoryAccounts MemoryMessages MemoryGroups StoreSteps Prog Gateway.
From S2P Require Import GatewayGroups GatewayAccounts GatewayMessages GatewayReads.
From S2P Require Import GatewaySend GatewayFacts GatewayProps Demo.
From stdpp Require Import gmap strings list.
From Stdlib Require Import ZArith.

Local Open Scope Z_scope.
Local Open Scope go_scope.

(** the role of a user in a group, "" for none *)
Definition role_of (s : MemoryStore) (groupID userID : string) : string :=
  from_option GroupMember_Role ""
    (find_first (is_member userID) (from_option Group_Members [] (s.(groups) !! groupID))).
Definition is_manager (role : string) : Prop := role = "owner" \/ role = "admin".

#[export] Instance is_manager_dec role : Decision (is_manager role).
Proof. unfold is_manager. apply _. Defined.

Lemma run_groupMemberRole g u w : run (groupMemberRole g u) w = (role_of w.(store) g u, w).
Proof.
  unfold groupMemberRole. rewrite run_bind, run_query. unfold GetGroupMembers, role_of. cbn [run].
  by destruct (w.(store).(groups) !! g).
Qed.

Lemma run_isGroupAdmin g u w :
  run (isGroupAdmin g u) w = (bool_decide (is_manager (role_of w.(store) g u)), w).
Proof.
  unfold isGroupAdmin. rewrite run_bind, run_groupMemberRole. cbn [run].
  f_equal. unfold is_manager. repeat case_bool_decide; naive_solver.
Qed.

(** [walk H] follows the run in [H] through reads and tests up to the next call
    that changes the store, naming the outcomes. *)
Ltac walk H :=
  repeat first
    [ rewrite run_bind in H
    | rewrite run_query in H
    | rewrite run_groupMemberRole in H
    | rewrite run_isGroupAdmin in H
    | rewrite run_now in H
    | progress cbv beta iota zeta in H
    | lazymatch type of H with
      | context [run (Ret _) _] => progress cbn [run] in H
      | context [run (reads _) _] => progress cbn [run reads atomic] in H
      | context [run (match ?x with _ => _ end) _] => destruct x eqn:?
      end ].

Lemma GetGroup_Ok s g grp : GetGroup g s = Ok (Some grp) -> s.(groups) !! g = Some grp.
Proof. unfold GetGroup. by intros [= ->]. Qed.

(** evaluates the membership tests of constant sets *)
Ltac decide_sets :=
  repeat match goal with
  | |- context [bool_decide (?a ∈ ?s)] =>
      let b := eval vm_compute in (bool_decide (a ∈ s)) in
      change (bool_decide (a ∈ s)) with b; cbv iota
  end.

(** turns the outcomes of tests into propositions *)
Ltac tests :=
  repeat match goal with
  | H : GetGroup _ _ = Ok (Some _) |- _ => apply GetGroup_Ok in H
  | H : _ || _ = false |- _ => apply orb_false_iff in H as [? ?]
  | H : negb _ = false |- _ => apply negb_false_iff in H
  | H : bool_decide _ = true |- _ => apply bool_decide_eq_true in H
  | H : bool_decide _ = false |- _ => apply bool_decide_eq_false in H
  end; subst.

(** ** Groups *)

Definition owner_actions : gset string := {["set_group_admin"; "transfer_group"; "dismiss_group"]}.
Definition member_actions : gset string := {["group_kick"; "group_ban"]}.
Definition manager_actions : gset string := {["update_group"; "group_mute_all"]}.

(** [u] may apply the action to the group, or to the target in it *)
Definition may_manage (s : MemoryStore) (action u groupID target : string) : Prop :=
  if bool_decide (action ∈ owner_actions)
  then exists g, s.(groups) !! groupID = Some g /\ g.(Group_OwnerID) = u
  else if bool_decide (action ∈ member_actions)
  then canManageGroupMember (role_of s groupID u) (role_of s groupID target) = true /\ target <> u
  else is_manager (role_of s groupID u).

Section groups.
Context `{Runtime}.

(** the groups a request leaves *)
Definition groups_after (h : conn_id -> Request -> handler) (c : conn_id) (req : Request) (w : World)
  : gmap string Group := (run (h c req) w).2.(store).(groups).

Definition authorised (action : string) (h : conn_id -> Request -> handler) : Prop :=
  forall c req w, groups_after h c req w <> w.(store).(groups) ->
    exists params, as_object req.(Request_Params) = Some params
      /\ may_manage w.(store) action (user_on w c) (str params "group_id") (str params "user_id").

(** opens a handler and follows it to its first change of the store *)
Tactic Notation "authority" reference(h) :=
  intros c req w Hne; unfold groups_after, h, authenticated, client_userID in Hne; walk Hne;
  try solve [exfalso; by apply Hne];
  match goal with Hp : as_object _ = Some ?params |- _ => exists params; split; [done|] end;
  unfold may_manage, user_on; decide_sets.

Lemma kick_authorised : authorised "group_kick" handleGroupKick.
Proof. authority handleGroupKick. tests. naive_solver. Qed.
Lemma ban_authorised : authorised "group_ban" handleGroupBan.
Proof. authority handleGroupBan; tests; naive_solver. Qed.
Lemma update_authorised : authorised "update_group" handleUpdateGroup.
Proof. authority handleUpdateGroup; tests; done. Qed.
Lemma set_admin_authorised : authorised "set_group_admin" handleSetGroupAdmin.
Proof. authority handleSetGroupAdmin; tests; naive_solver. Qed.
Lemma transfer_authorised : authorised "transfer_group" handleTransferGroup.
Proof. authority handleTransferGroup; tests; naive_solver. Qed.
Lemma dismiss_authorised : authorised "dismiss_group" handleDismissGroup.
Proof. authority handleDismissGroup; tests; naive_solver. Qed.
Lemma mute_all_authorised : authorised "group_mute_all" handleGroupMuteAll.
Proof. authority handleGroupMuteAll; tests; done. Qed.
End groups.

(** the handler a known action is dispatched to *)
Lemma routes_NoDup `{Runtime} sv : NoDup (routes sv).*1.
Proof. apply (bool_decide_unpack _). vm_compute. exact Logic.I. Qed.

Lemma handleRequest_route `{Runtime} sv c req i h :
  routes sv !! i = Some (req.(Request_Action), h) -> handleRequest sv c req = h c req.
Proof.
  intros Hi. unfold handleRequest.
  by rewrite (elem_of_list_to_map_1 _ _ _ (routes_NoDup sv) (list_elem_of_lookup_2 _ _ _ Hi)).
Qed.

(** C2: a request that kicks, mutes, updates, appoints, transfers, dismisses or mutes all
    changes groups only if the user of the connection has the authority the action
    needs: the owner for appointing administrators, transferring and dismissing; a
    member of higher rank than the target, other than oneself, for kicking and muting;
    the owner or an administrator for the rest. *)
Theorem group_management_authorised `{Runtime} (sv : services) (c : conn_id) (req : Request)
    (w : World) :
  req.(Request_Action) ∈ owner_actions ∪ member_actions ∪ manager_actions ->
  (run (handleRequest sv c req) w).2.(store).(groups) <> w.(store).(groups) ->
  exists params, as_object req.(Request_Params) = Some params
    /\ may_manage w.(store) req.(Request_Action) (user_on w c)
         (str params "group_id") (str params "user_id").
Proof.
  destruct req as [action ps echo]; cbn [Request_Action]. intros Ha.
  assert (action ∈ ["set_group_admin"; "transfer_group"; "dismiss_group"; "group_kick";
                    "group_ban"; "update_group"; "group_mute_all"]) as Hin.
  { unfold owner_actions, member_actions, manager_actions in Ha. set_solver. }
  clear Ha. repeat (apply elem_of_cons in Hin as [->|Hin]); [..|by apply elem_of_nil in Hin].
  - rewrite (handleRequest_route sv c _ 33 handleSetGroupAdmin) by reflexivity. apply set_admin_authorised.
  - rewrite (handleRequest_route sv c _ 34 handleTransferGroup) by reflexivity. apply transfer_authorised.
  - rewrite (handleRequest_route sv c _ 35 handleDismissGroup) by reflexivity. apply dismiss_authorised.
  - rewrite (handleRequest_route sv c _ 30 handleGroupKick) by reflexivity. apply kick_authorised.
  - rewrite (handleRequest_route sv c _ 31 handleGroupBan) by reflexivity. apply ban_authorised.
  - rewrite (handleRequest_route sv c _ 32 handleUpdateGroup) by reflexivity. apply update_authorised.
  - rewrite (handleRequest_route sv c _ 36 handleGroupMuteAll) by reflexivity. apply mute_all_authorised.
Qed.

(** a group of alice with bob in it, alice being logged in on connection 1 *)
Definition demo_group : World :=
  demo_logged_in <| store ::= run_ops (H := demo_runtime)
    [OpCreateGroup "group_1" "g" "" "alice" demo_epoch demo_epoch;
     OpAddGroupMember "group_1" "bob" demo_epoch] |>.
Definition demo_kick : Request :=
  demo_request "group_kick" [("group_id", JStr "group_1"); ("user_id", JStr "bob")].

Lemma group_management_authorised_witness :
  role_of (run (handleRequest (H := demo_runtime) no_services 1%nat demo_kick) demo_group).2.(store)
    "group_1" "bob" = ""
  /\ exists params, as_object demo_kick.(Request_Params) = Some params
       /\ may_manage demo_group.(store) "group_kick" (user_on demo_group 1%nat)
            (str params "group_id") (str params "user_id").
Proof.
  split; [vm_compute; reflexivity|].
  apply (group_management_authorised (H := demo_runtime) no_services 1%nat demo_kick demo_group).
  - apply (bool_decide_unpack _). vm_compute. exact Logic.I.
  - intros Heq. assert (Hr : role_of (run (handleRequest (H := demo_runtime) no_services 1%nat
      demo_kick) demo_group).2.(store) "group_1" "bob" = role_of demo_group.(store) "group_1" "bob").
    { unfold role_of. by rewrite Heq. }
    vm_compute in Hr. discriminate Hr.
Defined.

(** ** Messages *)

(** may the user see the conversation: as a member of the group; as a participant whose
    peer is Fairy, or a friend without a block in either direction *)
Definition may_access (s : MemoryStore) (u conv : string) : bool :=
  if bool_decide (u = "") || bool_decide (conv = "") then false
  else if HasPrefix conv "group_" then isGroupMember s conv u
  else
    match s.(conversations) !! conv with
    | None => false
    | Some cv =>
        let other := other_participant u cv.(Conversation_Participants) in
        bool_decide (u ∈ cv.(Conversation_Participants))
        && (negb (bool_decide (cv.(Conversation_Type) = "private"))
            || bool_decide (other = "fairy")
            || (bool_decide (AreFriends u other s = Ok true)
                && negb (bool_decide (IsUserBlocked u other s = Ok true))
                && negb (bool_decide (IsUserBlocked other u s = Ok true))))
    end.

Lemma run_isEitherBlocked a b w :
  run (isEitherBlocked a b) w = (bool_decide (IsUserBlocked a b w.(store) = Ok true)
    || bool_decide (IsUserBlocked b a w.(store) = Ok true), w).
Proof.
  unfold isEitherBlocked. rewrite run_bind, run_query. case_bool_decide; [done|].
  by rewrite run_bind, run_query.
Qed.

Lemma run_canAccess u conv w :
  run (canAccessConversation u conv) w = (may_access w.(store) u conv, w).
Proof.
  unfold canAccessConversation, may_access. destruct (_ || _); [done|].
  destruct (HasPrefix _ _).
  { rewrite run_bind, run_query. unfold IsGroupMember. cbn [run].
    by destruct (isGroupMember _ _ _). }
  rewrite run_bind, run_query. unfold GetConversation.
  destruct (_ !! _) as [cv|]; [|done]. cbv zeta.
  case_bool_decide; cbn [negb andb]; [|done].
  case_bool_decide; cbn [negb orb]; [|done].
  case_bool_decide; cbn [orb]; [done|]. rewrite run_bind, run_query.
  case_bool_decide; cbn [andb]; [|done]. rewrite run_bind, run_isEitherBlocked. cbn [run].
  by rewrite negb_orb.
Qed.

(** a recall request changes a message only if the message exists, is in a conversation
    the user may access, has not been recalled, was sent at most two minutes before, and
    the user sent it or is the owner or an administrator of the group it is in. *)
Theorem recall_needs_permission `{Runtime} (c : conn_id) (req : Request) (w : World) :
  (run (handleRecallMessage c req) w).2.(store) <> w.(store) ->
  exists params msg cv, as_object req.(Request_Params) = Some params
    /\ GetMessage (str params "message_id") w.(store) = Ok (Some msg)
    /\ w.(store).(conversations) !! msg.(Message_ConversationID) = Some cv
    /\ may_access w.(store) (user_on w c) msg.(Message_ConversationID) = true
    /\ msg.(Message_Recalled) = false
    /\ clock w.(tick) - msg.(Message_Timestamp) <= 2 * minute
    /\ (msg.(Message_SenderID) = user_on w c
        \/ cv.(Conversation_Type) = "group"
           /\ is_manager (role_of w.(store) msg.(Message_ConversationID) (user_on w c))).
Proof.
  intros Hne. unfold handleRecallMessage, authenticated, client_userID in Hne.
  repeat (walk Hne; try rewrite run_canAccess in Hne).
  all: try solve [exfalso; by apply Hne]. all: clear Hne; tests; unfold user_on.
  all: match goal with H : GetConversation _ _ = Ok (Some ?cv) |- _ => injection H as H end.
  all: do 3 eexists; repeat (split; [by eauto|]); split; [by apply Z.ltb_ge|]; auto.
Qed.

Definition demo_said : World :=
  demo_group <| store ::= run_ops (H := demo_runtime)
    [OpGetOrCreateConversation "group_1" "group" "g" demo_epoch;
     OpStoreMessageIdempotent "group_1" "bob" "Bob" "" [demo_text "hi"] demo_epoch] |>.
Definition demo_recall : Request := demo_request "recall_message" [("message_id", JStr "msg_1")].

Lemma recall_needs_permission_witness :
  exists params msg cv, as_object demo_recall.(Request_Params) = Some params
    /\ GetMessage (str params "message_id") demo_said.(store) = Ok (Some msg)
    /\ demo_said.(store).(conversations) !! msg.(Message_ConversationID) = Some cv
    /\ cv.(Conversation_Type) = "group"
    /\ is_manager (role_of demo_said.(store) msg.(Message_ConversationID) "alice").
Proof.
  destruct (recall_needs_permission (H := demo_runtime) 1%nat demo_recall demo_said)
    as (params & msg & cv & Hp & Hm & Hc & _ & _ & _ & Hor).
  - intros Heq. apply (f_equal (fun s => from_option Message_Recalled false (msg_at s 1%nat))) in Heq.
    vm_compute in Heq. discriminate Heq.
  - exists params, msg, cv. do 3 (split; [done|]). destruct Hor as [Hs|Hor]; [exfalso|exact Hor].
    injection Hp as <-. vm_compute in Hm. injection Hm as <-. vm_compute in Hs. discriminate Hs.
Defined.

(** programs that only read *)
Definition reading {A} (p : prog World A) : Prop := forall w, (run p w).2 = w.

Lemma reading_bind {A B} (p : prog World A) (k : A -> prog World B) :
  reading p -> (forall a, reading (k a)) -> reading (bind p k).
Proof.
  intros Hp Hk w. rewrite run_bind. specialize (Hp w). destruct (run p w) as [a w'].
  simpl in Hp. subst w'. apply Hk.
Qed.

Lemma reading_run {A} (p : prog World A) w : reading p -> run p w = ((run p w).1, w).
Proof. intros Hp. specialize (Hp w). destruct (run p w). simpl in *. by subst. Qed.

Lemma reading_agent_route_role d u conv t r segs : reading (agent_route_role d u conv t r segs).
Proof.
  revert r. induction segs as [|s segs IH]; intros r w; cbn [agent_route_role]; [done|].
  repeat (destruct (negb _); [by first [apply IH|done]|]).
  destruct (_ || _); [done|]. rewrite run_bind, run_query.
  destruct (GetConversation conv w.(store)) as [[cv|]|]; [|done..].
  repeat (case_goal; [done|]). apply IH.
Qed.

Lemma reading_validateAgentRoute `{Runtime} d u conv t segs :
  reading (validateAgentRouteSegments d u conv t segs).
Proof. apply reading_bind; [apply reading_agent_route_role|done]. Qed.

(** no participant other than the user and Fairy is on either side of a block *)
Definition unblocked (s : MemoryStore) (u : string) (participants : list string) : Prop :=
  forall p, p ∈ participants -> p <> u -> p <> "fairy" ->
    IsUserBlocked u p s <> Ok true /\ IsUserBlocked p u s <> Ok true.

Lemma run_private_refusal u conv cv w :
  w.(store).(conversations) !! conv = Some cv ->
  (run (private_refusal u conv) w).2 = w
  /\ ((run (private_refusal u conv) w).1 = "" -> unblocked w.(store) u cv.(Conversation_Participants)).
Proof.
  intros Hc. unfold private_refusal. rewrite run_bind, run_query. unfold GetConversation. rewrite Hc.
  induction (Conversation_Participants cv) as [|p ps [IH1 IH2]].
  { split; [done|]. intros _ p Hp. by apply elem_of_nil in Hp. }
  destruct (_ || _) eqn:E.
  - split; [done|]. intros Hr p' Hp' Hu Hf. apply orb_true_iff in E. rewrite !bool_decide_eq_true in E.
    apply (IH2 Hr); [|done..]. apply elem_of_cons in Hp' as [->|?]; [naive_solver|done].
  - rewrite run_bind, run_isEitherBlocked.
    destruct (bool_decide (IsUserBlocked u p _ = _)) eqn:E1; [done|].
    destruct (bool_decide (IsUserBlocked p u _ = _)) eqn:E2; [done|]. split; [done|].
    intros Hr p' Hp' Hu Hf. apply bool_decide_eq_false in E1, E2.
    apply elem_of_cons in Hp' as [->|Hp']; [done|]. by apply (IH2 Hr).
Qed.

(** a member who is not muted at [t] *)
Definition may_speak (s : MemoryStore) (conv u : string) (t : time) : Prop :=
  exists g m, s.(groups) !! conv = Some g /\ find_first (is_member u) g.(Group_Members) = Some m
    /\ (g.(Group_MuteAll) = true -> m.(GroupMember_Role) <> "member")
    /\ (m.(GroupMember_Role) = "owner" \/ m.(GroupMember_MutedUntil) <= t).

Lemma append_nonempty (a b : string) : a <> "" -> a +:+ b <> "".
Proof. by destruct a. Qed.

Lemma run_group_refusal `{Runtime} u conv w :
  (run (group_refusal u conv) w).2.(store) = w.(store)
  /\ ((run (group_refusal u conv) w).1 = "" -> may_speak w.(store) conv u (clock w.(tick))).
Proof.
  unfold group_refusal. rewrite run_bind, run_query, run_bind, run_query.
  unfold GetGroup, GetGroupMembers, may_speak.
  destruct (w.(store).(groups) !! conv) as [g|]; [|done].
  destruct (find_first _ _) as [m|] eqn:Em; [|done].
  destruct (_ && _) eqn:E1; [done|]. apply andb_false_iff in E1. rewrite bool_decide_eq_false in E1.
  assert (Hall : g.(Group_MuteAll) = true -> m.(GroupMember_Role) <> "member")
    by (intros Hm; destruct E1; congruence).
  case_bool_decide.
  { split; [done|]. intros _. exists g, m. by auto. }
  rewrite run_bind, run_now. cbn [run fst snd]. split; [done|]. intros Hr.
  destruct (After _ _) eqn:E2; [by apply append_nonempty in Hr|]. apply Z.ltb_ge in E2.
  exists g, m. by auto.
Qed.

(** C3: a send_message request changes the store only if the user may access the
    conversation and, in a group, is a member who is not muted (individually, or by the
    mute of all members), and otherwise is not blocked by or blocking any other
    participant but the assistant: the participant "fairy" is exempt, so that a user who
    has blocked it may still write to it. *)
Theorem send_needs_permission `{Runtime} (c : conn_id) (req : Request) (w : World) :
  (run (handleSendMessage c req) w).2.(store) <> w.(store) ->
  exists params, as_object req.(Request_Params) = Some params /\
    let conv := str params "conversation_id" in
    may_access w.(store) (user_on w c) conv = true
    /\ if bool_decide (conversation_type conv = "private")
       then forall cv, w.(store).(conversations) !! conv = Some cv ->
              unblocked w.(store) (user_on w c) cv.(Conversation_Participants)
       else may_speak w.(store) conv (user_on w c) (clock w.(tick)).
Proof.
  intros Hne. unfold handleSendMessage, authenticated, client_userID in Hne. walk Hne.
  all: try solve [exfalso; by apply Hne].
  rewrite (reading_run _ _ (reading_validateAgentRoute _ _ _ _ _)) in Hne.
  destruct (run _ w).1; [|exfalso; by apply Hne].
  rewrite run_bind, run_canAccess in Hne.
  destruct (may_access _ _ _) eqn:Ea; [|exfalso; by apply Hne].
  exists g. split; [done|]. cbv zeta. split; [done|]. cbn [negb] in Hne. unfold unless_refused in Hne.
  rewrite run_bind in Hne. unfold user_on. set (u := Client_userID (client_of w c)) in *.
  set (conv := str g "conversation_id") in *.
  destruct (bool_decide (conversation_type conv = "private")).
  - intros cv Hcv. destruct (run_private_refusal u conv cv w Hcv) as [H1 H2].
    destruct (run (private_refusal u conv) w) as [r w']. cbn [fst snd] in *. subst w'. apply H2.
    case_bool_decide; [done|]. exfalso; by apply Hne.
  - destruct (run_group_refusal u conv w) as [H1 H2].
    destruct (run (group_refusal u conv) w) as [r w']. cbn [fst snd] in *. apply H2.
    case_bool_decide; [done|]. exfalso. by apply Hne.
Qed.

Definition demo_send : Request := demo_request "send_message"
  [("conversation_id", JStr "group_1");
   ("message", JArr [obj [("type", JStr "text"); ("data", obj [("text", JStr "hi")])]])].

Lemma send_needs_permission_witness :
  may_speak demo_group.(store) "group_1" "alice" (clock (Runtime := demo_runtime) demo_group.(tick)).
Proof.
  destruct (send_needs_permission (H := demo_runtime) 1%nat demo_send
              demo_group) as (params & Hp & Ha & Hs).
  - intros Heq. apply (f_equal msgCounter) in Heq. vm_compute in Heq. discriminate Heq.
  - injection Hp as <-. exact Hs.
Defined.
