(* ===== verification/ScenarioProps.v ===== *)
(** * Scenarios

    Behaviours of the code that its comments and responses do not announce, each as
    a run of the model: two interleavings of requests from two devices of one user,
    and sequences of requests served one after the other. *)
From S2P Require Import Prelude GoLib Types DynamicContent Capabilities MemoryState.
From S2P Require Import MemoryAccounts MemoryMessages MemoryGroups StoreSteps GroupFacts.
From S2P Require Import Prog Gateway GatewayGroups GatewayAccounts GatewayMessages.
From S2P Require Import GatewayReads GatewaySend GatewayFacts GatewayProps.
From S2P Require Import AuthorityProps Demo.
From stdpp Require Import gmap strings list.
From Stdlib Require Import ZArith.

Local Open Scope Z_scope.
Local Open Scope go_scope.

Notation serve c req := (handleRequest (H := demo_runtime) no_services c%nat req).

(** the status of each response queued on a connection *)
Definition statuses (w : World) (c : conn_id) : list string :=
  omap (fun d => match d with OutResponse r => Some r.(Response_Status) | _ => None end)
    (client_of w c).(Client_send).

(** ** Two devices *)

(** alice on connections 1 and 2 *)
Definition two_devices : World := (run (serve 2 demo_auth) demo_logged_in).2.

(** *** Accepting a friend request twice *)

Definition requested : World :=
  two_devices <| store ::= run_ops (H := demo_runtime)
    [OpCreateFriendRequest "bob" "alice" "" demo_epoch] |>.
Definition accept : Request :=
  demo_request "friend_request_handle" [("flag", JStr "freq_1"); ("action", JStr "accept")].

(** device 1 adds the friendship; device 2 then handles the request to the end; device 1
    finds it handled and takes the friendship back *)
Definition accept_twice : World * list handler :=
  schedule (repeat 0%nat 3 ++ repeat 1%nat 40 ++ repeat 0%nat 40)
    (requested, [serve 1 accept; serve 2 accept]).

(** when a user accepts the same friend request on two devices at once, both requests
    can finish with the request recorded as accepted, one device having been told that it
    succeeded, and the two users not being friends. *)
Theorem friend_accept_race :
  pool_steps (requested, [serve 1 accept; serve 2 accept]) accept_twice
  /\ forallb finished accept_twice.2 = true
  /\ last (statuses accept_twice.1 2%nat) = Some "ok"
  /\ FriendRequest_Status <$> accept_twice.1.(store).(friendRequests) !! "freq_1" = Some "accepted"
  /\ AreFriends "alice" "bob" accept_twice.1.(store) = Ok false.
Proof.
  split; [apply schedule_pool_steps|].
  repeat (split; [vm_compute; reflexivity|]). vm_compute. reflexivity.
Qed.

(** *** Appointing an administrator while the group changes hands *)

Definition owned : World :=
  two_devices <| store ::= run_ops (H := demo_runtime)
    [OpCreateGroup "group_1" "g" "" "alice" demo_epoch demo_epoch;
     OpAddGroupMember "group_1" "bob" demo_epoch] |>.
Definition appoint : Request :=
  demo_request "set_group_admin"
    [("group_id", JStr "group_1"); ("user_id", JStr "bob"); ("enabled", JBool true)].
Definition hand_over : Request :=
  demo_request "transfer_group" [("group_id", JStr "group_1"); ("user_id", JStr "bob")].

(** device 1 checks that bob is a plain member; device 2 makes him the owner; device 1
    then writes his role *)
Definition appoint_and_transfer : World * list handler :=
  schedule (repeat 0%nat 3 ++ repeat 1%nat 40 ++ repeat 0%nat 40)
    (owned, [serve 1 appoint; serve 2 hand_over]).

Lemma owned_ok : groups_ok owned.(store).
Proof.
  apply run_ops_groups_ok.
  - intros i g. replace (groups (store two_devices)) with (∅ : gmap string Group)
      by (vm_compute; reflexivity). by rewrite lookup_empty.
  - cbn [safe_run group_safe]. done.
Qed.

(** appointing a member an administrator while ownership is transferred to that member
    can leave the group with an owner whose role is "admin", and no member whose role is
    "owner": the structure that every sequence of group operations respects (the owner
    is a member with role "owner") is not preserved by interleaved requests. *)
Theorem owner_demotion_race :
  groups_ok owned.(store)
  /\ pool_steps (owned, [serve 1 appoint; serve 2 hand_over]) appoint_and_transfer
  /\ forallb finished appoint_and_transfer.2 = true
  /\ Group_OwnerID <$> appoint_and_transfer.1.(store).(groups) !! "group_1" = Some "bob"
  /\ role_of appoint_and_transfer.1.(store) "group_1" "bob" = "admin"
  /\ role_of appoint_and_transfer.1.(store) "group_1" "alice" = "member"
  /\ ~ groups_ok appoint_and_transfer.1.(store).
Proof.
  split; [apply owned_ok|]. split; [apply schedule_pool_steps|].
  repeat (split; [vm_compute; reflexivity|]). intros Hok.
  destruct (appoint_and_transfer.1.(store).(groups) !! "group_1") as [g|] eqn:Eg;
    [|vm_compute in Eg; discriminate Eg].
  destruct (Hok _ _ Eg) as [_ [_ _ Hown _]]. clear Hok.
  vm_compute in Eg. injection Eg as <-. apply Forall_cons in Hown as [_ [Hb _]%Forall_cons].
  cbn in Hb. destruct Hb as [_ Hb]. discriminate (Hb eq_refl).
Qed.

(** ** Taking over a conversation *)

Definition as_group (id echo : string) : Request :=
  mkRequest "ensure_conversation"
    (obj [("conversation_id", JStr id); ("type", JStr "group")]) echo.

(** any logged-in user who knows the id of a private conversation gains access to it,
    with its history, by an ensure_conversation request of type "group": the checks of
    friendship and participation are made for the type "private" only, and the stored
    conversation is replaced by one whose only participant is the requester. *)
Theorem ensure_conversation_takeover `{Runtime} (c : conn_id) (id echo : string) (w : World) :
  user_on w c <> "" -> id <> "" ->
  HasPrefix id "group_" = false -> HasPrefix id "agent_" = false ->
  let w' := (run (handleEnsureConversation c (as_group id echo)) w).2 in
  may_access w'.(store) (user_on w c) id = true
  /\ conv_messages w'.(store) id = conv_messages w.(store) id.
Proof.
  intros Hu Hid Hg Ha. unfold handleEnsureConversation, authenticated, client_userID.
  rewrite run_bind. cbn [run reads atomic]. rewrite bool_decide_false by done.
  change (as_object (Request_Params (as_group id echo)))
    with (Some (list_to_map [("conversation_id", JStr id); ("type", JStr "group")] : jmap)).
  cbv beta iota zeta. set (params := list_to_map _ : jmap).
  replace (str params "conversation_id") with id by reflexivity.
  replace (str params "type") with "group" by reflexivity.
  replace (get_array params "participants") with (None : option (list json)) by reflexivity.
  rewrite bool_decide_false by done. rewrite Hg, Ha. cbn [bind run andb].
  rewrite bool_decide_false by done. cbn [bind].
  rewrite bool_decide_true by done. cbn [negb].
  rewrite run_bind, run_now, run_bind, run_call. cbn [fst snd SaveConversation].
  set (cv := mkConversation _ _ _ _ _ _ _). split; [|done].
  unfold may_access. cbn [snd run sendOk sendJSON bind enqueue atomic store on_client].
  rewrite !bool_decide_false by done. cbn [orb]. rewrite Hg.
  lazymatch goal with |- context [conversations ?s !! id] =>
    assert (Hl : conversations s !! id = Some cv) by apply lookup_insert_eq; rewrite Hl end.
  rewrite (bool_decide_true (user_on w c ∈ _)) by (by apply list_elem_of_singleton).
  by rewrite (bool_decide_false (Conversation_Type cv = "private")).
Qed.

(** carol, logged in, is no participant of the conversation of alice and bob *)
Definition private_chat : World :=
  (run (serve 2 (demo_request "auth" [("user_id", JStr "carol")])) demo_logged_in).2
    <| store ::= run_ops (H := demo_runtime)
      [OpSaveConversation (mkConversation "chat" "private" "" "" "" ["alice"; "bob"] demo_epoch);
       OpStoreMessageIdempotent "chat" "alice" "Alice" "" [demo_text "secret"] demo_epoch] |>.

Lemma ensure_conversation_takeover_witness :
  may_access private_chat.(store) "carol" "chat" = false
  /\ may_access (run (handleEnsureConversation (H := demo_runtime) 2%nat (as_group "chat" "e"))
       private_chat).2.(store) "carol" "chat" = true.
Proof.
  split; [vm_compute; reflexivity|].
  destruct (ensure_conversation_takeover (H := demo_runtime) 2%nat "chat" "e" private_chat) as [Hm _];
    [vm_compute; discriminate|discriminate|reflexivity|reflexivity|exact Hm].
Defined.

(** ** A refused profile update *)

Definition half_update (nickname : string) (bio : json) (echo : string) : Request :=
  mkRequest "update_profile" (obj [("nickname", JStr nickname); ("bio", bio)]) echo.

(** with the in-memory store, an update_profile request that is refused because of a
    later field (here a bio that is not a string) has already changed the fields before
    it: the handler assigns to the stored user object while it validates. *)
Theorem refused_update_changes_profile `{Runtime} (c : conn_id) (nickname echo : string)
    (p : ptr) (user : User) (w : World) :
  user_on w c <> "" -> w.(store).(users) !! user_on w c = Some p ->
  user_at w.(store) p = Some user ->
  TrimSpace nickname <> "" -> slen (TrimSpace nickname) <= 64 ->
  let r := run (handleUpdateProfile c (half_update nickname (JBool true) echo)) w in
  user_at r.2.(store) p = Some (user <| User_Nickname := TrimSpace nickname |>)
  /\ exists w1, r = run (sendError c echo "bio must not exceed 280 characters") w1.
Proof.
  intros Hu Hp Hat Hn Hlen r.
  assert (Hr : r = run (sendError c echo "bio must not exceed 280 characters") (w <| store ::=
    write_user p (fun u => u <| User_Nickname := TrimSpace nickname |>) |>)).
  2: { rewrite Hr. split; [|by eexists]. unfold user_at in *. change (alter (fun u =>
         u <| User_Nickname := TrimSpace nickname |>) p w.(store).(user_heap) !! p
         = Some (user <| User_Nickname := TrimSpace nickname |>)).
       by rewrite lookup_alter_eq, Hat. }
  unfold r, handleUpdateProfile, authenticated, client_userID.
  rewrite run_bind. cbn [run reads atomic]. rewrite bool_decide_false by done.
  change (as_object _)
    with (Some (list_to_map [("nickname", JStr nickname); ("bio", JBool true)] : jmap)).
  cbv beta iota zeta. set (params := list_to_map _ : jmap).
  rewrite run_bind, run_query. unfold GetUser.
  unfold user_on in Hp. rewrite Hp.
  unfold profile_field at 1.
  replace (params !! "nickname") with (Some (JStr nickname)) by reflexivity. cbn [as_string].
  rewrite bool_decide_false by done. rewrite (proj2 (Z.ltb_ge _ _) Hlen). cbn [orb].
  rewrite run_bind. cbn [run write_user_fields writes atomic].
  unfold profile_field at 1.
  replace (params !! "avatar_url") with (None : option json) by reflexivity.
  unfold profile_field at 1.
  replace (params !! "bio") with (Some (JBool true)) by reflexivity. cbn [as_string].
  reflexivity.
Qed.

Lemma refused_update_changes_profile_witness :
  let r := run (handleUpdateProfile (H := demo_runtime) 1%nat (half_update "New" (JBool true) "e"))
             demo_logged_in in
  User_Nickname <$> user_of r.2.(store) "alice" = Some "New".
Proof.
  destruct (refused_update_changes_profile (H := demo_runtime) 1%nat "New" "e" 0%nat
    (mkUser "alice" "alice" "" "" "" "" false true true true "" zero_time) demo_logged_in)
    as [Hat _]; [vm_compute; discriminate|vm_compute; reflexivity|vm_compute; reflexivity
                |vm_compute; discriminate|vm_compute; discriminate|].
  cbv zeta. unfold user_of. replace (users _ !! "alice") with (Some 0%nat) by (vm_compute; reflexivity).
  cbn [mbind option_bind]. rewrite Hat. reflexivity.
Defined.

(** ** Retrying a poke *)

(** alice and bob in a group with its conversation *)
Definition poked : World :=
  owned <| store ::= run_ops (H := demo_runtime)
    [OpGetOrCreateConversation "group_1" "group" "g" demo_epoch] |>.
Definition segment (ty : string) (data : list (string * json)) : json :=
  obj [("type", JStr ty); ("data", obj data)].
Definition poke : Request := demo_request "send_message"
  [("conversation_id", JStr "group_1"); ("client_message_id", JStr "k1");
   ("message", JArr [segment "poke" [("target_id", JStr "bob")]])].
Definition poke_once : World := (run (serve 1 poke) poked).2.
Definition poke_again : World := (run (serve 1 poke) poke_once).2.

(** a client that retries a poke with the same client_message_id within five seconds is
    refused, although the message was stored: the limit on pokes is checked, and the
    attempt recorded, before the idempotency record is consulted. *)
Theorem poke_retry_refused :
  last (statuses poke_once 1%nat) = Some "ok"
  /\ length (conv_messages poke_once.(store) "group_1") = 1%nat
  /\ last (statuses poke_again 1%nat) = Some "error"
  /\ poke_again.(store) = poke_once.(store).
Proof. repeat (split; [vm_compute; reflexivity|]). vm_compute. reflexivity. Qed.

(** ** Custom cards *)

Definition card (source text : string) : json :=
  obj [("id", JStr "card"); ("version", JStr "1.0"); ("source", JStr source);
       ("tree", obj [("id", JStr "root"); ("type", JStr "text");
                     ("props", obj [("text", JStr text)])])].
Definition to_group (segments : list json) : Request :=
  demo_request "send_message" [("conversation_id", JStr "group_1"); ("message", JArr segments)].
Definition send_card (source text : string) : Request :=
  to_group [segment "dynamic_content" [("content", card source text)]].
Definition replace_card (source text : string) : Request :=
  to_group [segment "dynamic_replace"
    [("message_id", JStr "msg_1"); ("content_id", JStr "card"); ("content", card source text)]].

(** alice owns the group and has sent a card; bob, an ordinary member, is on connection 2 *)
Definition carded : World :=
  (run (serve 1 (send_card "user" "hello"))
    ((run (serve 2 (demo_request "auth" [("user_id", JStr "bob")])) demo_logged_in).2
       <| store ::= run_ops (H := demo_runtime)
         [OpCreateGroup "group_1" "g" "" "alice" demo_epoch demo_epoch;
          OpAddGroupMember "group_1" "bob" demo_epoch;
          OpGetOrCreateConversation "group_1" "group" "g" demo_epoch] |>)).2.

(** the sender of a message, and the source and text of the card in it *)
Definition card_of (w : World) (msgID : string) : option (string * string * json) :=
  match GetMessage msgID w.(store) with
  | Ok (Some m) =>
      match m.(Message_Segments) with
      | seg :: _ =>
          match dynamicSchemaFromData (H := demo_runtime) seg.(MessageSegment_Data) with
          | Ok schema => Some (m.(Message_SenderID), str schema "source",
              default JNull (get_object schema "tree" ≫= fun t => get_object t "props"
                               ≫= fun props => props !! "text"))
          | Err _ => None
          end
      | [] => None
      end
  | _ => None
  end.

(** an ordinary member of a group, who may not send a card of source "user", can turn
    any card of the group into one with a dynamic_replace request: the permission is
    checked for dynamic_content segments only, and the sender of the target message is
    not compared with the requester, so the new content appears under the name of the
    member who sent the card. *)
Theorem card_permission_bypass :
  role_of carded.(store) "group_1" "bob" = "member"
  /\ last (statuses (run (serve 2 (send_card "user" "spam")) carded).2 2%nat) = Some "error"
  /\ last (statuses (run (serve 2 (replace_card "user" "spam")) carded).2 2%nat) = Some "ok"
  /\ card_of (run (serve 2 (replace_card "user" "spam")) carded).2 "msg_1"
     = Some ("alice", "user", JStr "spam").
Proof. repeat (split; [vm_compute; reflexivity|]). vm_compute. reflexivity. Qed.
