(* ===== verification/InteractionProps.v ===== *)
(** * Interactions with cards: what they promise

    What the reducers compute, that the projection only changes properties, who may
    add an event and who may read one, and four scenarios in which an interaction
    goes wrong. *)
From S2P Require Import Prelude GoLib Types Float64 DynamicContent Capabilities DynamicInteraction.
From S2P Require Import DynamicAction MemoryState MemoryAccounts MemoryMessages MemoryGroups.
From S2P Require Import StoreSteps Prog Gateway GatewayGroups GatewayAccounts GatewayMessages.
From S2P Require Import GatewayReads GatewayEvents GatewaySend GatewayFacts.
From S2P Require Import InteractionFacts Demo GatewayProps AuthorityProps ScenarioProps.
From stdpp Require Import gmap strings list.
From Stdlib Require Import ZArith.

Local Open Scope Z_scope.
Local Open Scope go_scope.

(** ** Votes *)

(** the "set_by_actor" reducer counts each actor once, with the answer of the
    actor's latest event (the card's kind when that is empty): the counts add up to the
    number of actors that responded, which the total never falls below. *)
Theorem set_by_actor_tally `{Runtime} (ctx : dynamicInteractionReduceContext) :
  let voters := actors ctx.(ctx_events) in
  let answers := answer ctx.(ctx_config).(kind) ctx.(ctx_events) in
  exists red, reduceSetByActor ctx = Ok red
    /\ (forall v, default 0 (red.(red_counts) !! v)
                  = Z.of_nat (length (filter (fun a => answers a = v) voters)))
    /\ sum_counts red.(red_counts) = Z.of_nat (length voters)
    /\ red.(red_responded) = Z.of_nat (length voters)
    /\ red.(red_total) = Z.max 1 (Z.max ctx.(ctx_total) (Z.of_nat (length voters))).
Proof.
  cbv zeta. eexists. split; [reflexivity|]. cbn [red_counts red_responded red_total].
  rewrite size_latest_values, normalized_total_spec, tally_sum.
  pose proof (latest_values_perm ctx.(ctx_config).(kind) ctx.(ctx_events)) as Hp.
  split; [|rewrite Hp, length_fmap; done].
  intros v. rewrite tally_lookup, (count_where_perm _ _ _ Hp), count_where_fmap.
  do 2 f_equal. apply list_filter_iff.
  intros a. simpl. by rewrite bool_decide_eq_true.
Qed.

(** ** Approvals *)

Section approvals.
Context `{Runtime} (ctx : dynamicInteractionReduceContext).
Let voters := actors ctx.(ctx_events).
Let answers := answer "" ctx.(ctx_events).

(** the actors whose latest answer is an approval, a rejection *)
Definition approving : list string :=
  filter (fun a => isPositiveInteractionAction (answers a) = true) voters.
Definition rejecting : list string :=
  filter (fun a => isPositiveInteractionAction (answers a) = false
                   /\ isNegativeInteractionAction (answers a) = true) voters.
Definition needed : Z :=
  if ctx.(ctx_config).(quorum) <=? 0
  then Z.max 1 (Z.max ctx.(ctx_total) (Z.of_nat (length voters))) else ctx.(ctx_config).(quorum).

Lemma count_answers p :
  count_where p (values_of (latest_values "" ctx.(ctx_events)))
  = Z.of_nat (length (filter (fun a => p (answers a) = true) voters)).
Proof.
  by rewrite (count_where_perm _ _ _ (latest_values_perm "" ctx.(ctx_events))), count_where_fmap.
Qed.

Lemma approval_reduction :
  exists red, reduceApprovalQuorum ctx = Ok red
    /\ (red.(red_status), red.(red_closed))
       = approval_status ctx.(ctx_config) (last ctx.(ctx_events)) (Z.of_nat (length approving))
           (Z.of_nat (length rejecting)) needed.
Proof.
  unfold reduceApprovalQuorum, needed. rewrite !count_answers, size_latest_values.
  rewrite normalized_total_spec.
  rewrite (list_filter_iff (fun a => negb (isPositiveInteractionAction (answers a))
             && isNegativeInteractionAction (answers a) = true)
             (fun a => isPositiveInteractionAction (answers a) = false
                       /\ isNegativeInteractionAction (answers a) = true))
    by (intros a; by rewrite andb_true_iff, negb_true_iff).
  fold approving rejecting voters.
  destruct (approval_status _ _ _ _ _) as [status closed]. eexists. split; [reflexivity|done].
Qed.
End approvals.

(** under the "approval_quorum" reducer without the legacy close-on-response flag, a
    card is approved exactly when the latest answers of at least the quorum's number of
    distinct actors approve (of all expected actors, when there is no quorum) and, if
    a rejection vetoes, none rejects; it is rejected exactly when a veto is in force
    and some actor's latest answer rejects; it is closed in these two cases only. *)
Theorem approval_needs_quorum `{Runtime} (ctx : dynamicInteractionReduceContext) :
  ctx.(ctx_config).(legacyCloseOnResponse) = false ->
  exists red, reduceApprovalQuorum ctx = Ok red
    /\ (red.(red_status) = "approved" <->
          needed ctx <= Z.of_nat (length (approving ctx))
          /\ (ctx.(ctx_config).(veto) = true -> rejecting ctx = []))
    /\ (red.(red_status) = "rejected" <->
          ctx.(ctx_config).(veto) = true /\ rejecting ctx <> [])
    /\ (red.(red_closed) = true <-> red.(red_status) = "approved" \/ red.(red_status) = "rejected").
Proof.
  intros Hl. destruct (approval_reduction ctx) as (red & Hr & Hs). exists red. split; [done|].
  unfold approval_status in Hs. rewrite Hl in Hs.
  assert (Hrej : (0 <? Z.of_nat (length (rejecting ctx))) = negb (bool_decide (rejecting ctx = []))).
  { destruct (rejecting ctx); [done|]. rewrite bool_decide_false by done. apply Z.ltb_lt. simpl. lia. }
  rewrite Hrej in Hs. clear Hrej.
  destruct (veto _), (bool_decide_reflect (rejecting ctx = []));
    destruct (Z.leb_spec (needed ctx) (Z.of_nat (length (approving ctx))));
    injection Hs as -> ->; naive_solver lia.
Qed.

(** ** State machines *)

(** the states a machine goes through on a list of requested states *)
Inductive machine_path (transitions : gmap string (list string))
  : string -> list string -> string -> Prop :=
| path_end s : machine_path transitions s [] s
| path_step s next l s' :
    (transitions = ∅ \/ exists allowed, transitions !! s = Some allowed /\ next ∈ allowed) ->
    machine_path transitions next l s' ->
    machine_path transitions s (next :: l) s'.

Lemma machine_run_path `{Runtime} T s events s' :
  machine_run T s events = Ok s' <->
  machine_path T s (filter (fun v => v <> "") (dynamicInteractionValue <$> events)) s'.
Proof.
  revert s. induction events as [|e events IH]; intros s; cbn [machine_run fmap list_fmap].
  - rewrite filter_nil. split; [intros [= ->]; constructor|by inversion 1].
  - unfold machine_step. rewrite filter_cons. case_bool_decide as E.
    { rewrite decide_False by (intros Hn; by apply Hn). apply IH. }
    rewrite decide_True by done. unfold containsDynamicString.
    case_bool_decide as ET; cbn [negb andb].
    + rewrite IH. split; [by intros; constructor; [left|]|by inversion 1].
    + case_bool_decide as EA; cbn [negb].
      * rewrite IH. destruct (T !! s) as [allowed|] eqn:Es; [|by apply not_elem_of_nil in EA].
        split; [intros; constructor; [right; eauto|done]|by inversion 1].
      * split; [done|]. inversion 1 as [|? ? ? ? [?|(allowed & Ha & Hin)]]; subst; [done|].
        rewrite Ha in EA. done.
Qed.

(** C16: the "state_machine" reducer accepts a list of events exactly when their non-empty
    values form a path of the card's transition table from its initial state (any path,
    when there is no table), and then reports the last state of that path. *)
Theorem state_machine_follows_table `{Runtime} (ctx : dynamicInteractionReduceContext) (s : string) :
  (exists red, reduceStateMachine ctx = Ok red /\ red.(red_status) = s) <->
  machine_path ctx.(ctx_config).(wire).(Wire_Policy).(Policy_Transitions)
    (initial_state ctx.(ctx_config))
    (filter (fun v => v <> "") (dynamicInteractionValue <$> ctx.(ctx_events))) s.
Proof.
  rewrite <-machine_run_path. unfold reduceStateMachine. destruct (machine_run _ _ _) as [current|e].
  - split; [by intros (red & [= <-] & <-)|intros [= ->]; by eexists].
  - split; [by intros (red & ? & _)|done].
Qed.

(** ** The projection *)

(** writing a state into a card keeps its tree: the nodes are at the same places, and
    no node changes but in its properties. *)
Theorem projection_keeps_shape `{Runtime} (root : jmap) (config : dynamicInteractionConfig)
    (result : dynamicInteractionReduction) :
  same_shape (updateInteractionProjection root config result) root.
Proof.
  unfold updateInteractionProjection. set (root1 := map_nodes _ _ root).
  assert (H1 : same_shape root1 root).
  { apply map_nodes_shape; intros node; [apply with_props_shape|].
    unfold with_props, get_array. by rewrite lookup_insert_ne. }
  cbv zeta. case_bool_decide.
  - by rewrite project_onto_shape.
  - by rewrite !project_onto_shape.
Qed.

(** ** Who may add an event *)

Lemma run_sender_of u w :
  run (sender_of u) w = (match user_of w.(store) u with
                         | Some x => (x.(User_Nickname), x.(User_Avatar)) | None => (u, "") end, w).
Proof. unfold sender_of. rewrite run_bind, run_query. by destruct (user_of _ _). Qed.

(** *** The record of events

    What the rest of the handler does to the recorded events: nothing, or it records the
    event, when the store knew no event of that actor under that id. *)
Definition event_log (s : MemoryStore) :=
  (s.(dynamicInteractionByID), s.(dynamicInteractionEvents)).

Inductive log_after `{Runtime} (s : MemoryStore) (e : DynamicInteractionEvent) (s' : MemoryStore) : Prop :=
| log_same : event_log s' = event_log s -> log_after s e s'
| log_recorded fp :
    dynamicInteractionFingerprint e = Ok fp ->
    s.(dynamicInteractionByID) !! interaction_key e = None ->
    s'.(dynamicInteractionByID) = <[interaction_key e := mkDynamicInteractionRecord fp e]> s.(dynamicInteractionByID) ->
    s'.(dynamicInteractionEvents) =
      <[e.(DynamicInteractionEvent_MessageID) :=
          default [] (s.(dynamicInteractionEvents) !! e.(DynamicInteractionEvent_MessageID)) ++ [e]]>
        s.(dynamicInteractionEvents) ->
    log_after s e s'.

Section log.
Context `{Runtime} (s0 : MemoryStore) (e : DynamicInteractionEvent).
Local Notation logged := (fun w : World => log_after s0 e w.(store)).

Lemma log_after_frame s s' : event_log s' = event_log s -> log_after s0 e s -> log_after s0 e s'.
Proof.
  intros [= Hi He] [Hs|fp Hf Hn Hi' He']; [left; unfold event_log in *; congruence|].
  eright; [exact Hf|exact Hn|congruence|congruence].
Qed.

Lemma logged_call {A} (f : MemoryStore -> A * MemoryStore) :
  (forall s, log_after s0 e s -> log_after s0 e (f s).2) -> always logged any (call f).
Proof. intros Hf. apply always_atomic. intros w Hw. specialize (Hf _ Hw). by destruct (f w.(store)). Qed.

Lemma logged_atomic {A} (f : World -> A * World) :
  (forall w, (f w).2.(store) = w.(store)) -> always logged any (atomic f).
Proof. intros Hf. apply always_atomic. intros w. by rewrite Hf. Qed.

(** one step of a program that only reads the store and sends *)
Ltac logged :=
  repeat lazymatch goal with
  | |- always _ _ (Ret _) => exact Logic.I
  | |- always _ _ (bind _ _) => apply (always_bind _ any); [|intros ? _]
  | |- always _ _ (for_each _ _) => apply always_for_each; intros ?
  | |- always _ _ (reads _) => apply always_reads
  | |- always _ _ (query _) => apply always_reads
  | |- always _ _ (enqueue _ _) => by apply logged_atomic
  | |- always _ _ (match ?x with _ => _ end) => destruct x
  | |- always _ _ (let x := _ in _) => cbv zeta
  | |- _ => solve [auto]
  end.

Lemma logged_sendError c echo m : always logged any (sendError c echo m).
Proof. unfold sendError, sendJSON. logged. Qed.
Lemma logged_sendOk c echo d : always logged any (sendOk c echo d).
Proof. unfold sendOk, sendJSON. logged. Qed.
Lemma logged_audience c conv : always logged any (audience c conv).
Proof. unfold audience. logged. Qed.
Lemma logged_deliver ev c : always logged any (deliver ev c).
Proof. unfold deliver. logged. Qed.
Lemma logged_clients_of_users us : always logged any (clients_of_users us).
Proof. induction us; cbn [clients_of_users]; unfold clientsForUser; logged. Qed.
Hint Resolve logged_sendError logged_sendOk logged_audience logged_deliver logged_clients_of_users : core.
Lemma logged_broadcast c ev u : always logged any (broadcastToConversation c ev u).
Proof. unfold broadcastToConversation. logged. Qed.
Lemma logged_broadcast_except c ev x : always logged any (broadcastToConversationExceptClient c ev x).
Proof. unfold broadcastToConversationExceptClient. logged. Qed.
Hint Resolve logged_broadcast logged_broadcast_except : core.
Lemma logged_total c : always logged any (dynamicInteractionTotal c).
Proof. unfold dynamicInteractionTotal. logged. Qed.
Lemma logged_announce c echo u n a ty m seg rep red b1 b2 :
  always logged any (announce_event c echo u n a ty e m seg rep red b1 b2).
Proof. unfold announce_event. logged. Qed.
Hint Resolve logged_total logged_announce : core.

Lemma event_log_update id segs s : event_log (updateMessageSegmentsLocked id segs s).2 = event_log s.
Proof. unfold updateMessageSegmentsLocked. by destruct (find_ptr s id). Qed.

(** the store's own check of the id, over every event it holds *)
Lemma log_commit segs t s :
  e.(DynamicInteractionEvent_CreatedAt) = t ->
  log_after s0 e s -> log_after s0 e (CommitDynamicInteractionEvent e segs t s).2.
Proof.
  intros Ht Hs. unfold CommitDynamicInteractionEvent, interaction_op.
  destruct (_ || _); [done|]. destruct (dynamicInteractionFingerprint e) as [fp|] eqn:Ef; [|done].
  destruct (s.(dynamicInteractionByID) !! interaction_key e) as [r|] eqn:Er; [by case_goal|].
  destruct (findMessageLocked s _); [|done].
  pose proof (event_log_update e.(DynamicInteractionEvent_MessageID) segs s) as Hl.
  destruct (updateMessageSegmentsLocked _ segs s) as [[upd|err] s1]; cbn [snd] in *;
    [|by eapply log_after_frame].
  destruct Hs as [Hs|fp' Hf' Hn Hi He].
  2: { rewrite Hi, lookup_insert_eq in Er. done. }
  assert (Hcopy : (if IsZero e.(DynamicInteractionEvent_CreatedAt)
                   then e <| DynamicInteractionEvent_CreatedAt := t |> else e) = e)
    by (destruct e; cbn in *; subst; by case_goal).
  unfold event_log in *. injection Hl as Hl1 Hl2. injection Hs as Hs1 Hs2.
  eright; [exact Ef|congruence|unfold record_interaction; rewrite Hcopy; cbn; congruence|].
  unfold record_interaction. rewrite Hcopy. cbn. congruence.
Qed.

Lemma logged_apply_event c echo u n a ty config configured target seg events :
  always logged any (apply_event c echo u n a ty config configured target e seg events).
Proof.
  unfold apply_event. apply (always_bind _ any); [case_goal; unfold groupMemberRole; logged|].
  intros role _. cbv zeta. destruct (validateDynamicInteractionPolicy _ _ _ _ _ _ _); [|auto].
  apply (always_bind _ any); [logged|]. intros total _.
  destruct (project_event _ _ _ _ _ _ _ _) as [outcome in_place].
  apply (always_bind _ any).
  - destruct in_place; [|done]. apply (always_bind _ any); [|done]. apply logged_call.
    intros s. apply log_after_frame. apply event_log_update.
  - intros _ _. destruct outcome as [[[[segs rep] red] changed]|]; [|auto].
    apply (always_bind _ any); [apply logged_call; intros s; by apply log_commit|].
    intros stored _. logged.
Qed.
End log.

(** C15: an event changes the store only if its message is a message of the conversation
    that is not recalled and declares the event, none of the card's latest 10000 events
    is the actor's under this event id, and the card's policy (expiry, audience, limits)
    admits the actor now.  The recorded events change only in that the event is added, and
    only if the store held no event of any card for this actor under this id. *)
Theorem event_needs_policy `{Runtime} (c : conn_id) (echo u conv ty : string)
    (segment : MessageSegment) (w : World) :
  let data := segment.(MessageSegment_Data) in
  let t := clock w.(tick) in
  let s' := (run (handleDynamicEvent c echo u conv ty segment) w).2.(store) in
  s' <> w.(store) ->
  exists target schema config configured events nickname,
    let event := event_candidate conv u nickname data t in
    GetMessage (str data "message_id") w.(store) = Ok (Some target)
    /\ target.(Message_ConversationID) = conv /\ target.(Message_Recalled) = false
    /\ validateDynamicEventTarget target.(Message_Segments) data = Ok tt
    /\ dynamicInteractionSchema target (str data "content_id") = Ok (schema, config, configured)
    /\ GetDynamicInteractionEvents conv (str data "message_id") (str data "content_id")
         maxDynamicInteractionEvents w.(store) = Ok events
    /\ existingDynamicInteractionEvent events u (dynamicInteractionEventID conv u data) = None
    /\ validateDynamicInteractionPolicy config configured events event
         (if bool_decide (ty = "group") then role_of w.(store) conv u else "")
         (bool_decide (target.(Message_SenderID) = u)) t = Ok tt
    /\ log_after w.(store) event s'.
Proof.
  intros data t s'. unfold s', handleDynamicEvent. fold data. clear s'. intros Hne.
  destruct (_ || _); [done|]. rewrite run_bind, run_query in Hne |- *.
  destruct (GetMessage _ _) as [[target|]|]; try done.
  destruct (event_target conv data _) as [[[target' config] configured]|e] eqn:Et; [|done].
  unfold event_target in Et. case_bool_decide as Ec; [|done]. cbn [negb] in Et.
  destruct (Message_Recalled target) eqn:Er; [done|].
  destruct (validateDynamicEventTarget _ _) as [[]|] eqn:Ev; [|done].
  destruct (dynamicInteractionSchema _ _) as [[[schema config'] configured']|] eqn:Es; [|done].
  injection Et as <- <- <-.
  rewrite run_bind, run_now, run_bind, run_sender_of in Hne |- *. cbn [store] in Hne |- *.
  destruct (match user_of _ _ with Some _ => _ | None => _ end) as [nickname avatar].
  rewrite run_bind, run_query in Hne |- *. cbn [fst snd] in Hne |- *.
  destruct (GetDynamicInteractionEvents _ _ _ _ _) as [events|] eqn:Ee; [|done].
  destruct (existingDynamicInteractionEvent _ _ _) as [ex|] eqn:Ex.
  { exfalso. apply Hne. by destruct (sameDynamicInteractionEvent _ _). }
  exists target, schema, config', configured', events, nickname. cbv zeta.
  do 7 (split; [done|]). split.
  - unfold apply_event in Hne.
    match type of Hne with context [run (bind ?p _) ?w'] =>
      assert (Hrole : run p w' = (if bool_decide (ty = "group") then role_of w.(store) conv u else "", w'))
        by (case_bool_decide; [rewrite run_groupMemberRole|]; done);
      rewrite run_bind, Hrole in Hne end.
    destruct (validateDynamicInteractionPolicy _ _ _ _ _ _ _) as [[]|]; [done|]. exfalso. by apply Hne.
  - apply (always_run _ _ _ _ (logged_apply_event w.(store) _ _ _ _ _ _ _ _ _ _ _ _)). by left.
Qed.

(** ** Who may read the events *)

(** evaluates the comparisons of constant strings *)
Ltac decide_strings :=
  repeat match goal with
  | |- context [bool_decide (@eq string ?a ?b)] =>
      let v := eval vm_compute in (bool_decide (@eq string a b)) in
      lazymatch v with true => idtac | false => idtac end;
      change (bool_decide (@eq string a b)) with v
  end.

Lemma config_visibility `{Runtime} schema config :
  parseDynamicInteractionConfig schema = Ok (config, true) -> config.(visibility) ∈ visibilities.
Proof.
  unfold parseDynamicInteractionConfig. destruct (get_object _ _); [|done].
  destruct (json_marshal _); [|done]. destruct (decode_members _ _ _) as [w|]; [|done].
  unfold config_of_wire. destruct (negb _); [done|]. destruct (_ && _); [done|].
  case_bool_decide as Hv; [|done]. cbn [negb]. destruct (_ && _); [done|]. by intros [= <-].
Qed.

(** of a configured card, get_dynamic_interactions shows an event, and then all of it,
    to everyone who may access the conversation when the card declares "public_detail",
    to the actor alone under "actor_only", to the managers of the group and the author
    of the card under "admin_detail", and to nobody otherwise. *)
Theorem event_visible_to `{Runtime} (schema : jmap) (config : dynamicInteractionConfig)
    (role u : string) (target : Message) (e : DynamicInteractionEvent) (item : json) :
  parseDynamicInteractionConfig schema = Ok (config, true) ->
  visible_event config (detail_allowed config role u target) u e = Some item <->
  item = JObj (dynamicInteractionEventDetail e)
  /\ (config.(visibility) = "public_detail"
      \/ config.(visibility) = "actor_only" /\ e.(DynamicInteractionEvent_ActorID) = u
      \/ config.(visibility) = "admin_detail"
         /\ (is_manager role \/ target.(Message_SenderID) = u)).
Proof.
  intros Hv%config_visibility. unfold visible_event, detail_allowed, is_manager.
  unfold visibilities in Hv.
  repeat (apply elem_of_cons in Hv as [->|Hv]); [..|by apply not_elem_of_nil in Hv].
  all: decide_strings; cbn [orb andb negb].
  - naive_solver.
  - split; [intros [= <-]; auto|by intros [-> _]].
  - destruct (bool_decide_reflect (role = "owner")), (bool_decide_reflect (role = "admin")),
      (bool_decide_reflect (Message_SenderID target = u)); cbn [orb andb negb]; naive_solver.
  - destruct (bool_decide_reflect (DynamicInteractionEvent_ActorID e = u)); cbn [negb]; naive_solver.
  - naive_solver.
Qed.

(** ** Cards that stop *)

(** a card with the "append" reducer and the visibility "public_detail" accepts no
    event after its fiftieth: the state lists every event, and a list of more than 50
    values is refused by the validation of the card's metadata. *)
Theorem append_detail_stops `{Runtime} (target : Message) (contentID : string) (index : nat)
    (segment : MessageSegment) (schema : jmap) (config : dynamicInteractionConfig)
    (events : list DynamicInteractionEvent) (total_ : Z) (t : time) :
  first_content target.(Message_Segments) 0 contentID = Ok (Some (index, segment, schema)) ->
  parseDynamicInteractionConfig schema = Ok (config, true) ->
  config.(reducer) = "append" -> config.(visibility) = "public_detail" ->
  50 < Z.of_nat (length events) ->
  exists e, (applyDynamicInteraction target contentID events total_ t).1 = Err e.
Proof.
  intros Hf Hc Hr Hv Hl. unfold applyDynamicInteraction. rewrite Hf, Hc, Hr. cbn [negb orb].
  rewrite bool_decide_false by done. unfold reduce. cbn [ctx_config]. rewrite Hr.
  change (list_to_map dynamicInteractionReducers !! "append") with (Some reduceAppend).
  cbv beta iota zeta. unfold reduceAppend. cbn [ctx_config ctx_events ctx_total].
  set (state := when_public _ _ _ _). cbn [red_state from_option].
  destruct (get_object _ "tree") as [root|]; [|eauto]. cbn [fst].
  set (root' := updateInteractionProjection _ _ _).
  set (metadata := <["interaction_state" := JObj state]> _).
  set (schema' := <["tree" := JObj root']> _).
  assert (Hm : schema' !! "metadata" = Some (JObj metadata))
    by (unfold schema'; rewrite lookup_insert_ne by done; apply lookup_insert_eq).
  destruct (refused_metadata schema' metadata Hm) as [e He]; [|rewrite He; eauto].
  apply (refused_member 11 metadata "interaction_state" (JObj state)); [apply lookup_insert_eq|].
  intros path.
  apply (refused_member 10 state "entries" (JArr ((fun e => JObj (dynamicInteractionEventDetail e)) <$> events))).
  - unfold state, when_public, is_public. cbn [ctx_config]. rewrite Hv, bool_decide_true by done.
    apply lookup_insert_eq.
  - intros path'. apply (refused_list 9). by rewrite length_fmap.
Qed.

(** ** Four scenarios *)

(** a card of one progress node that anyone can move with a click *)
Definition progress_card : json :=
  obj [("id", JStr "card"); ("version", JStr "1.0"); ("source", JStr "user");
       ("tree", obj [("id", JStr "root"); ("type", JStr "progress");
                     ("props", obj [("value", jint 0)]);
                     ("events", obj [("click", obj [("action", JStr "set_progress")])])])].
Definition click (message : string) (payload : list (string * json)) : Request :=
  to_group [segment "dynamic_event"
    [("message_id", JStr message); ("content_id", JStr "card"); ("node_id", JStr "root");
     ("event", JStr "click"); ("event_id", JStr "e1"); ("action", JStr "set_progress");
     ("payload", obj payload)]].

(** what a current client declares at login *)
Definition full_capabilities : json :=
  obj [("protocol_version", JStr "1.0");
       ("dynamic_content", obj [("schema_versions", JArr [JStr "1.0"]);
          ("component_version", JStr "1.0"); ("components", JArr [JStr "progress"]);
          ("events", JBool true); ("node_id_patch", JBool true);
          ("content_operations", JBool true)])].
Definition current_client (c : conn_id) (user : string) (w : World) : World :=
  (run (serve c (demo_request "auth" [("user_id", JStr user);
                                      ("capabilities", full_capabilities)])) w).2.

(** alice owns the group of which bob is a member, and has sent the message [card] *)
Definition with_card (card : list (string * json)) : World :=
  (run (serve 1 (to_group [segment "dynamic_content" card]))
    (current_client 2%nat "bob" (current_client 1%nat "alice" demo_world)
       <| store ::= run_ops (H := demo_runtime)
         [OpCreateGroup "group_1" "g" "" "alice" demo_epoch demo_epoch;
          OpAddGroupMember "group_1" "bob" demo_epoch;
          OpGetOrCreateConversation "group_1" "group" "g" demo_epoch] |>)).2.

Definition progress_world : World := with_card [("content", progress_card)].
Definition poisoned : World := (run (serve 2 (click "msg_1" [("value", JStr "NaN")])) progress_world).2.
Definition history : Request :=
  demo_request "get_messages" [("conversation_id", JStr "group_1")].
Definition answers_to (c : conn_id) (req : Request) (w : World) : nat :=
  (length (statuses (run (serve c req) w).2 c) - length (statuses w c))%nat.
Definition node_prop (w : World) (k : string) : option json :=
  match GetMessage "msg_1" w.(store) with
  | Ok (Some m) =>
      match m.(Message_Segments) with
      | seg :: _ => node_props (default ∅ (get_object seg.(MessageSegment_Data) "tree")) !! k
      | [] => None
      end
  | _ => None
  end.

(** one event can make a conversation unreadable: a "set_progress" action whose value
    is the text "NaN" is accepted, the card then holds a number that has no JSON
    encoding, and get_messages, which answered before, sends no answer at all. *)
Theorem nan_event_silences_history :
  last (statuses poisoned 2%nat) = Some "ok" /\ node_prop poisoned "value" = Some JNaN
  /\ answers_to 1%nat history progress_world = 1%nat /\ answers_to 1%nat history poisoned = 0%nat.
Proof. repeat (split; [vm_compute; reflexivity|]). vm_compute. reflexivity. Qed.

(** a card whose tree sits beside its content, and fifty events already recorded for it *)
Definition beside_card : list (string * json) :=
  [("content", obj [("id", JStr "card"); ("version", JStr "1.0"); ("source", JStr "user");
      ("metadata", obj [("interaction", obj [("reducer", JStr "append");
          ("policy", obj [("visibility", JStr "public_detail")])])])]);
   ("tree", obj [("id", JStr "root"); ("type", JStr "progress");
                 ("props", obj [("value", jint 0)]);
                 ("events", obj [("click", obj [("action", JStr "set_progress")])])])].
Definition past_event (i : nat) : DynamicInteractionEvent :=
  mkDynamicInteractionEvent ("past" +:+ sprint_d (Z.of_nat i)) "group_1" "msg_1" "card" "root"
    "click" "set_progress" (Some ∅) "bob" "bob" "user" demo_epoch.
Definition full_card : World :=
  (with_card beside_card) <| store ::= run_ops (H := demo_runtime)
    ((fun i => OpAppendDynamicInteractionEvent (past_event i) demo_epoch) <$> seq 0 50) |>.
Definition refused_event : World := (run (serve 2 (click "msg_1" [])) full_card).2.

(** an event that is refused can change the card all the same: when the card's tree
    sits beside its content, the projection writes into the stored tree before the new
    state is validated, so the progress shown counts an event that was not recorded. *)
Theorem refused_event_changes_card :
  last (statuses refused_event 2%nat) = Some "error"
  /\ length (default [] (refused_event.(store).(dynamicInteractionEvents) !! "msg_1")) = 50%nat
  /\ node_prop full_card "text" = None /\ node_prop refused_event "text" = Some (JStr "51/51").
Proof. repeat (split; [vm_compute; reflexivity|]). vm_compute. reflexivity. Qed.

(** an event without an action and without a payload is recorded with the value
    "<nil>", the text fmt gives a missing member: a vote that should count under the
    card's kind is counted under "<nil>". *)
Theorem missing_action_is_nil `{Runtime} (conv u nickname : string) (data : jmap) (t : time)
    (fallback : string) :
  data !! "action" = None -> data !! "payload" = None ->
  let e := event_candidate conv u nickname data t in
  dynamicInteractionValue e = "<nil>" /\ answer fallback [e] u = "<nil>".
Proof.
  intros Ha Hp e.
  assert (Hv : dynamicInteractionValue e = "<nil>").
  { unfold e, dynamicInteractionValue, event_candidate, dynamicPayloadString, get_object.
    cbn [DynamicInteractionEvent_Payload DynamicInteractionEvent_Action]. rewrite Ha, Hp.
    cbn [mbind option_bind default from_option]. vm_compute. reflexivity. }
  split; [done|]. unfold answer, events_of.
  rewrite filter_cons, filter_nil, decide_True by done. simpl. by rewrite Hv.
Qed.

(** ** Witnesses *)

Definition demo_event (actor value : string) : DynamicInteractionEvent :=
  mkDynamicInteractionEvent ("e-" +:+ actor) "group_1" "msg_1" "card" "root" "click" value (Some ∅)
    actor actor "user" demo_epoch.
Definition demo_approval : dynamicInteractionReduceContext :=
  mkContext (defaultDynamicInteractionConfig <| quorum := 2 |>)
    [demo_event "alice" "no"; demo_event "bob" "yes"; demo_event "alice" "approve"] 3 demo_epoch.

Lemma approval_needs_quorum_witness :
  exists red, reduceApprovalQuorum (H := demo_runtime) demo_approval = Ok red
    /\ red.(red_status) = "approved".
Proof.
  destruct (approval_needs_quorum (H := demo_runtime) demo_approval) as (red & Hr & [_ Ha] & _).
  - reflexivity.
  - exists red. split; [exact Hr|]. apply Ha. split; [vm_compute; discriminate|].
    intros _. vm_compute. reflexivity.
Defined.

Definition demo_click_segment : MessageSegment :=
  mkMessageSegment "dynamic_event" (list_to_map
    [("message_id", JStr "msg_1"); ("content_id", JStr "card"); ("node_id", JStr "root");
     ("event", JStr "click"); ("event_id", JStr "e1"); ("action", JStr "set_progress");
     ("payload", obj [("value", jint 1)])]).

Lemma event_needs_policy_witness :
  exists target, GetMessage "msg_1" progress_world.(store) = Ok (Some target)
    /\ target.(Message_Recalled) = false
    /\ exists event, log_after (H := demo_runtime) progress_world.(store) event
         (run (handleDynamicEvent (H := demo_runtime) 2%nat "e" "bob" "group_1" "group"
                 demo_click_segment) progress_world).2.(store).
Proof.
  destruct (event_needs_policy (H := demo_runtime) 2%nat "e" "bob" "group_1" "group"
              demo_click_segment progress_world)
    as (target & ? & ? & ? & ? & ? & Hg & _ & Hr & _ & _ & _ & _ & _ & Hl).
  - intros Heq. apply (f_equal (fun s => size s.(dynamicInteractionEvents))) in Heq.
    vm_compute in Heq. discriminate Heq.
  - exists target. split; [exact Hg|]. split; [exact Hr|]. eexists. exact Hl.
Defined.

Definition poll_schema (visibility : string) : jmap :=
  list_to_map [("metadata", obj [("interaction", obj
    [("reducer", JStr "append"); ("policy", obj [("visibility", JStr visibility)])])])].
Definition config_of (schema : jmap) : dynamicInteractionConfig :=
  match parseDynamicInteractionConfig (H := demo_runtime) schema with
  | Ok (config, _) => config
  | Err _ => zero_config
  end.

Definition demo_append_card : Message :=
  mkMessage "msg_1" "group_1" "alice" "Alice"
    [mkMessageSegment "dynamic_content" (list_to_map beside_card)] demo_epoch false [].

Lemma event_visible_to_witness :
  visible_event (config_of (poll_schema "actor_only"))
    (detail_allowed (config_of (poll_schema "actor_only")) "member" "bob" demo_append_card) "bob"
    (demo_event "bob" "yes") = Some (JObj (dynamicInteractionEventDetail (demo_event "bob" "yes"))).
Proof.
  apply (event_visible_to (H := demo_runtime) (poll_schema "actor_only")).
  - vm_compute. reflexivity.
  - split; [reflexivity|]. right. left. split; vm_compute; reflexivity.
Defined.

Definition beside_schema : jmap :=
  match dynamicSchemaFromData (H := demo_runtime) (list_to_map beside_card) with
  | Ok schema => schema
  | Err _ => ∅
  end.

Lemma append_detail_stops_witness :
  exists e, (applyDynamicInteraction (H := demo_runtime) demo_append_card "card"
               (past_event <$> seq 0 51) 1 demo_epoch).1 = Err e.
Proof.
  apply (append_detail_stops (H := demo_runtime) demo_append_card "card" 0%nat
           (mkMessageSegment "dynamic_content" (list_to_map beside_card)) beside_schema
           (config_of beside_schema)); vm_compute; reflexivity.
Defined.

Lemma missing_action_is_nil_witness :
  answer "vote"
    [event_candidate (H := demo_runtime) "group_1" "bob" "bob" ∅ demo_epoch] "bob" = "<nil>".
Proof.
  apply (missing_action_is_nil (H := demo_runtime) "group_1" "bob" "bob" ∅ demo_epoch "vote");
    reflexivity.
Defined.
