(* ===== verification/ContentProps.v ===== *)
(** * Dynamic content

    What validation guarantees of a card's tree, and what it does not guarantee of
    the card that is stored. *)
From S2P Require Import Prelude GoLib Types DynamicContent Capabilities Demo.
From stdpp Require Import gmap strings list.
From Stdlib Require Import ZArith.

Local Open Scope Z_scope.

(** ** The nodes of a tree, with their paths *)

Fixpoint paths_of (fuel : nat) (node : jmap) : list (list nat * jmap) :=
  ([], node) ::
  match fuel with
  | O => []
  | S fuel =>
      (fix go (index : nat) (l : list json) : list (list nat * jmap) :=
         match l with
         | [] => []
         | rawChild :: l =>
             match as_object rawChild with
             | Some child => (fun pn : list nat * jmap => (index :: pn.1, pn.2)) <$> paths_of fuel child
             | None => []
             end ++ go (S index) l
         end) 0%nat (children_of node)
  end.

Definition node_id (pn : list nat * jmap) : string := str pn.2 "id".

(** [ns] are the nodes that validation from [st] to [st'] has accepted, at depth [d] and
    below: their ids are new and distinct, they are counted, and none is too deep *)
Record tree_accepted (d : Z) (st st' : dynamicValidationState) (ns : list (list nat * jmap)) : Prop := {
  acc_nodup : NoDup (node_id <$> ns);
  acc_new : forall x, x ∈ (node_id <$> ns) -> x ∉ st.(ds_ids);
  acc_ids : st'.(ds_ids) = st.(ds_ids) ∪ list_to_set (node_id <$> ns);
  acc_count : st'.(ds_count) = st.(ds_count) + Z.of_nat (length ns);
  acc_bound : st.(ds_count) <= maxDynamicNodes -> st'.(ds_count) <= maxDynamicNodes;
  acc_depth : Forall (fun pn => d + Z.of_nat (length pn.1) <= maxDynamicDepth
                                /\ validDynamicIdentifier (node_id pn) = true) ns }.

Lemma accepted_nil d st : tree_accepted d st st [].
Proof. split; simpl; [constructor|set_solver|set_solver|lia|done|constructor]. Qed.

Lemma accepted_app d st1 st2 st3 ns1 ns2 :
  tree_accepted d st1 st2 ns1 -> tree_accepted d st2 st3 ns2 -> tree_accepted d st1 st3 (ns1 ++ ns2).
Proof.
  intros [A1 A2 A3 A4 A5 A6] [B1 B2 B3 B4 B5 B6]. split.
  - rewrite fmap_app. apply NoDup_app. split; [done|]. split; [|done].
    intros x Hx Hx'. apply B2 in Hx'. rewrite A3 in Hx'. set_solver.
  - intros x. rewrite fmap_app, elem_of_app. intros [Hx|Hx]; [by apply A2|].
    apply B2 in Hx. rewrite A3 in Hx. set_solver.
  - rewrite B3, A3, fmap_app, list_to_set_app_L. set_solver.
  - rewrite B4, A4, length_app. lia.
  - auto.
  - by apply Forall_app.
Qed.

Lemma accepted_child d st st' i ns :
  tree_accepted (d + 1) st st' ns ->
  tree_accepted d st st' ((fun pn : list nat * jmap => (i :: pn.1, pn.2)) <$> ns).
Proof.
  intros [A1 A2 A3 A4 A5 A6].
  assert (Hid : node_id <$> ((fun pn : list nat * jmap => (i :: pn.1, pn.2)) <$> ns) = node_id <$> ns)
    by (rewrite <-list_fmap_compose; done).
  split; rewrite ?Hid; try done.
  - by rewrite length_fmap.
  - apply Forall_fmap. eapply Forall_impl; [exact A6|]. intros [p n] [Hd Hv]. simpl in *.
    split; [lia|done].
Qed.

Section validation.
Context `{Runtime}.

Lemma validate_image_frame node path ty st st' :
  validate_image node path ty st = Ok st' ->
  st'.(ds_ids) = st.(ds_ids) /\ st'.(ds_count) = st.(ds_count).
Proof.
  unfold validate_image. destruct (negb _); [by intros [= <-]|]. cbv zeta.
  destruct (_ <? _); [done|]. destruct (_ !! "url") as [raw|]; [|by intros [= <-]].
  destruct (as_string raw) as [u|]; [|done]. destruct (validDynamicHTTPSURL u); [|done].
  by intros [= <-].
Qed.

Lemma header_accepted node path d st st' :
  validate_node_header node path d st = Ok st' -> tree_accepted d st st' [([], node)].
Proof.
  unfold validate_node_header. cbv zeta.
  destruct (Z.ltb_spec maxDynamicNodes (ds_count (st <| ds_count ::= Z.succ |>))) as [|Hc]; [done|].
  destruct (Z.ltb_spec maxDynamicDepth d) as [|Hd]; [done|].
  destruct (validDynamicIdentifier (str node "id")) eqn:Hv; [|done]. cbn [negb].
  case_bool_decide as Hid; [done|]. destruct (_ || _); [done|].
  destruct (validate_props _ _); [|done]. destruct (validate_image _ _ _ _) as [st1|] eqn:Ei; [|done].
  destruct (validate_events _ _); [|done]. intros [= <-].
  apply validate_image_frame in Ei as [H1 H2]. simpl in *.
  split; unfold node_id; simpl.
  - apply NoDup_singleton.
  - intros x ->%list_elem_of_singleton. done.
  - rewrite H1. set_solver.
  - rewrite H2. lia.
  - rewrite H2. lia.
  - constructor; [|constructor]. unfold node_id. simpl. split; [lia|done].
Qed.

Lemma validateDynamicNode_accepted fuel node path d st st' :
  validateDynamicNode fuel node path d st = Ok st' -> tree_accepted d st st' (paths_of fuel node).
Proof.
  revert node path d st st'. induction fuel as [|fuel IH]; intros node path d st st';
    cbn [validateDynamicNode paths_of];
    (destruct (validate_node_header node path d st) as [st1|] eqn:Eh; [|done]); [done|].
  apply header_accepted in Eh. intros Hc.
  eapply (accepted_app _ _ _ _ [([], node)]); [exact Eh|].
  unfold children_of, get_array. destruct (node !! "children") as [[| | | | |l|]|]; try done; simpl.
  2: { injection Hc as <-. apply accepted_nil. }
  destruct (_ <? _); [done|]. clear Eh. revert Hc. generalize 0%nat as i. revert st1.
  induction l as [|c l IHl]; intros st1 i Hc; [injection Hc as <-; apply accepted_nil|].
  destruct (as_object c) as [child|]; [|done].
  destruct (validateDynamicNode fuel child _ _ _) as [st2|] eqn:E; [|done].
  eapply accepted_app; [|by eapply IHl]. by eapply accepted_child, IH.
Qed.

(** every node is among them *)
Lemma node_at_paths fuel root path n :
  (length path <= fuel)%nat -> node_at root path = Some n -> (path, n) ∈ paths_of fuel root.
Proof.
  revert root path. induction fuel as [|fuel IH]; intros root path Hl Hn.
  - destruct path; [|simpl in Hl; lia]. injection Hn as <-. cbn [paths_of]. set_solver.
  - cbn [paths_of]. destruct path as [|i path]; [injection Hn as <-; set_solver|].
    apply elem_of_cons. right. cbn [node_at] in Hn.
    destruct (children_of root !! i) as [c|] eqn:Ei; [|done].
    destruct c as [| | | | | |child]; try done.
    assert (Hin : (path, n) ∈ paths_of fuel child) by (apply IH; [simpl in Hl; lia|done]). clear Hn Hl IH.
    rewrite <-(Nat.add_0_l i). generalize 0%nat as j. revert i Ei.
    induction (children_of root) as [|c l IHl]; intros i Ei j; [done|].
    apply elem_of_app. destruct i as [|i].
    + left. injection Ei as ->. cbn [as_object]. apply list_elem_of_fmap. exists (path, n).
      split; [|done]. simpl. by rewrite Nat.add_0_r.
    + right. rewrite Nat.add_succ_r, <-Nat.add_succ_l. by apply IHl.
Qed.

Lemma node_at_prefix root path k n :
  node_at root path = Some n -> is_Some (node_at root (take k path)).
Proof.
  revert root k. induction path as [|i path IH]; intros root [|k] Hn; cbn [node_at take] in *; eauto.
  destruct (children_of root !! i) as [[]|]; try done. by eapply IH.
Qed.
End validation.

(** C17: a schema that passes validation has a tree no node of which is deeper than ten
    levels or has an invalid id, no two nodes of which have the same id, and which has at
    most a hundred nodes. *)
Theorem validated_tree_bounds `{Runtime} (schema : jmap) :
  validateDynamicSchema schema = Ok tt ->
  exists tree, get_object schema "tree" = Some tree
    /\ (forall path n, node_at tree path = Some n ->
          (length path <= 10)%nat /\ validDynamicIdentifier (str n "id") = true)
    /\ (forall p1 p2 n1 n2, node_at tree p1 = Some n1 -> node_at tree p2 = Some n2 ->
          str n1 "id" = str n2 "id" -> p1 = p2)
    /\ (forall paths, NoDup paths -> Forall (fun p => is_Some (node_at tree p)) paths ->
          (length paths <= 100)%nat).
Proof.
  unfold validateDynamicSchema. destruct (negb _); [done|]. destruct (_ || _); [done|].
  destruct (negb _); [done|]. destruct (get_object schema "tree") as [tree|]; [|done].
  destruct (validateDynamicNode _ _ _ _ _) as [st|] eqn:Ev; [|done]. intros _.
  apply validateDynamicNode_accepted in Ev as [A1 _ _ A4 A5 A6]. cbn [ds_ids ds_count] in *.
  unfold dynamic_fuel in *.
  assert (Hdeep : forall path n, node_at tree path = Some n -> (length path <= 10)%nat).
  { intros path n Hn. destruct (le_lt_dec (length path) 10) as [|Hlt]; [done|exfalso].
    destruct (node_at_prefix tree path 11 n Hn) as [n' Hn'].
    assert (Hin : (take 11 path, n') ∈ paths_of 12 tree)
      by (apply node_at_paths; [rewrite length_take; lia|done]).
    rewrite Forall_forall in A6. destruct (A6 _ Hin) as [Hd _]. simpl in Hd.
    rewrite length_take in Hd. unfold maxDynamicDepth in Hd. lia. }
  assert (Hall : forall path n, node_at tree path = Some n -> (path, n) ∈ paths_of 12 tree).
  { intros path n Hn. apply node_at_paths; [|done]. apply Hdeep in Hn. lia. }
  exists tree. split; [done|]. split; [|split].
  - intros path n Hn. split; [by eapply Hdeep|].
    rewrite Forall_forall in A6. by destruct (A6 _ (Hall _ _ Hn)).
  - intros p1 p2 n1 n2 H1%Hall H2%Hall Hid.
    apply list_elem_of_lookup in H1 as [i Hi], H2 as [j Hj].
    assert (i = j) as ->.
    { apply (NoDup_lookup _ i j (str n1 "id") A1); rewrite list_lookup_fmap, ?Hi, ?Hj; [done|].
      cbn. unfold node_id. cbn. by rewrite Hid. }
    congruence.
  - intros paths Hn Hf. assert (Hsub : paths ⊆+ (paths_of 12 tree).*1).
    { apply NoDup_submseteq; [done|]. intros p Hp. rewrite Forall_forall in Hf.
      destruct (Hf _ Hp) as [n Hn']. apply list_elem_of_fmap. by exists (p, n); auto. }
    apply submseteq_length in Hsub. rewrite length_fmap in Hsub.
    unfold maxDynamicNodes in A5. specialize (A5 ltac:(lia)). lia.
Qed.

Definition demo_tree : json :=
  obj [("id", JStr "root"); ("type", JStr "column");
       ("children", JArr [obj [("id", JStr "a"); ("type", JStr "text")];
                          obj [("id", JStr "b"); ("type", JStr "text")]])].
Definition demo_schema : jmap :=
  {["id" := JStr "card"; "version" := JStr "1.0"; "source" := JStr "ai"; "tree" := demo_tree]}.

Lemma validated_tree_bounds_witness :
  exists tree, get_object demo_schema "tree" = Some tree /\ is_Some (node_at tree [1%nat])
    /\ (forall paths, NoDup paths -> Forall (fun p => is_Some (node_at tree p)) paths ->
          (length paths <= 100)%nat).
Proof.
  destruct (validated_tree_bounds (H := demo_runtime) demo_schema) as (tree & Ht & _ & _ & Hn).
  - vm_compute. reflexivity.
  - exists tree. split; [done|]. split; [|done]. injection Ht as <-. vm_compute. by eexists.
Defined.

(** ** The depth guard makes the recursion finite *)

Lemma header_depth `{Runtime} node path d st st' :
  validate_node_header node path d st = Ok st' -> d <= maxDynamicDepth.
Proof.
  intros Hh. apply header_accepted in Hh as [_ _ _ _ _ Hd].
  apply Forall_cons in Hd as [[Hd _] _]. simpl in Hd. lia.
Qed.

(** the walk over a tree needs no more than one unit of fuel per level up to the depth
    limit: with that much fuel it never stops for lack of fuel, and more fuel does not
    change its verdict, however deep the tree is. *)
Theorem validation_fuel_enough `{Runtime} (fuel1 fuel2 : nat) (node : jmap) (path : string)
    (d : Z) (st : dynamicValidationState) :
  maxDynamicDepth < Z.of_nat fuel1 + d -> maxDynamicDepth < Z.of_nat fuel2 + d ->
  validateDynamicNode fuel1 node path d st = validateDynamicNode fuel2 node path d st.
Proof.
  revert fuel2 node path d st. induction fuel1 as [|fuel1 IH]; intros [|fuel2] node path d st H1 H2;
    cbn [validateDynamicNode]; [done|..].
  all: destruct (validate_node_header node path d st) as [st1|] eqn:Eh; [|done].
  all: pose proof (header_depth _ _ _ _ _ Eh); try lia. clear Eh.
  destruct (node !! "children") as [[| | | | |l|]|]; try done. destruct (_ <? _); [done|].
  generalize 0%nat. revert st1. induction l as [|c l IHl]; intros st1 i; [done|].
  destruct (as_object c) as [child|]; [|done].
  rewrite (IH fuel2) by lia. destruct (validateDynamicNode _ _ _ _ _); [apply IHl|done].
Qed.

Lemma validation_fuel_enough_witness :
  validateDynamicNode (H := demo_runtime) dynamic_fuel (default ∅ (as_object demo_tree)) "tree" 0
    (mkDynState ∅ 0 0)
  = validateDynamicNode (H := demo_runtime) 1000 (default ∅ (as_object demo_tree)) "tree" 0
      (mkDynState ∅ 0 0).
Proof.
  apply (validation_fuel_enough (H := demo_runtime)); unfold maxDynamicDepth, dynamic_fuel; lia.
Defined.

(** ** Finding a node *)

Lemma json_height_member (m : jmap) k j :
  m !! k = Some j -> (json_height j < json_height (JObj m))%nat.
Proof.
  intros Hk. cbn [json_height]. apply Nat.lt_succ_r. revert k j Hk.
  apply (map_fold_weak_ind (fun r m => forall k j, m !! k = Some j -> (json_height j <= r)%nat)).
  - intros k j. by rewrite lookup_empty.
  - intros i x m' r _ IH k j. rewrite lookup_insert_Some.
    intros [[_ <-]|[_ Hj]]; [lia|]. specialize (IH _ _ Hj). lia.
Qed.

Lemma json_height_item (l : list json) i j :
  l !! i = Some j -> (json_height j < json_height (JArr l))%nat.
Proof.
  cbn [json_height]. intros Hi. apply Nat.lt_succ_r. revert i Hi.
  induction l as [|x l IH]; intros [|i] Hi; simpl in *; [done|done|injection Hi as ->; lia|].
  specialize (IH _ Hi). lia.
Qed.

Lemma children_height root i c :
  children_of root !! i = Some c -> (S (json_height c) < json_height (JObj root))%nat.
Proof.
  unfold children_of, get_array. intros Hi.
  destruct (root !! "children") as [v|] eqn:Ev; [|done].
  destruct v as [| | | | |l|]; simpl in Hi; try done.
  apply json_height_item in Hi. apply json_height_member in Ev. lia.
Qed.

Lemma node_at_height root path n :
  node_at root path = Some n -> (length path < json_height (JObj root))%nat.
Proof.
  revert root. induction path as [|i path IH]; intros root Hn; [cbn; lia|]. cbn [node_at] in Hn.
  destruct (children_of root !! i) as [[| | | | | |child]|] eqn:Ei; try done.
  apply children_height in Ei. specialize (IH _ Hn). cbn [length]. lia.
Qed.

(** [find_path_by] over the children from the index [k] on *)
Definition find_in (found : jmap -> bool) (fuel : nat) : nat -> list json -> option (list nat) :=
  fix walk (index : nat) (l : list json) : option (list nat) :=
    match l with
    | [] => None
    | rawChild :: l =>
        match as_object rawChild with
        | None => walk (S index) l
        | Some child =>
            match find_path_by found fuel child with
            | Some p => Some (index :: p)
            | None => walk (S index) l
            end
        end
    end.

Lemma find_path_S found fuel root :
  find_path_by found (S fuel) root =
  if found root then Some [] else find_in found fuel 0 (children_of root).
Proof. done. Qed.

Lemma find_in_sound found fuel k l path :
  find_in found fuel k l = Some path ->
  exists i child p, path = (k + i)%nat :: p /\ l !! i = Some (JObj child)
    /\ find_path_by found fuel child = Some p.
Proof.
  revert k. induction l as [|c l IH]; intros k Hf; [done|]. cbn [find_in] in Hf.
  destruct c as [| | | | | |child]; cbn [as_object] in Hf.
  7: destruct (find_path_by found fuel child) as [p|] eqn:Ep.
  7: { injection Hf as <-. exists 0%nat, child, p. by rewrite Nat.add_0_r. }
  all: destruct (IH (S k) Hf) as (i & child' & p & -> & Hi & Hp); exists (S i), child', p;
    by rewrite Nat.add_succ_r.
Qed.

Lemma find_in_complete found fuel k l i child :
  l !! i = Some (JObj child) -> is_Some (find_path_by found fuel child) ->
  is_Some (find_in found fuel k l).
Proof.
  revert k i. induction l as [|c l IH]; intros k i Hi [p Hp]; [done|]. cbn [find_in].
  destruct i as [|i].
  - injection Hi as ->. cbn [as_object]. rewrite Hp. eauto.
  - destruct (as_object c) as [o|]; [destruct (find_path_by found fuel o); eauto|]; eauto.
Qed.

Lemma find_path_by_sound found fuel root path :
  find_path_by found fuel root = Some path ->
  exists n, node_at root path = Some n /\ found n = true.
Proof.
  revert root path. induction fuel as [|fuel IH]; intros root path.
  { cbn [find_path_by]. destruct (found root) eqn:E; [intros [= <-]; by exists root|done]. }
  rewrite find_path_S. destruct (found root) eqn:E; [intros [= <-]; by exists root|].
  intros (i & child & p & -> & Hi & Hp)%find_in_sound. cbn [node_at].
  rewrite Nat.add_0_l, Hi. by apply IH.
Qed.

Lemma find_path_by_complete found fuel root path n :
  node_at root path = Some n -> found n = true -> (length path <= fuel)%nat ->
  is_Some (find_path_by found fuel root).
Proof.
  revert root path. induction fuel as [|fuel IH]; intros root path Hn Hid Hl.
  { destruct path; [|simpl in Hl; lia]. injection Hn as ->. cbn [find_path_by].
    rewrite Hid. eauto. }
  rewrite find_path_S. destruct (found root) eqn:Hne; [eauto|].
  destruct path as [|i path]; [injection Hn as ->; congruence|]. cbn [node_at] in Hn.
  destruct (children_of root !! i) as [[| | | | | |child]|] eqn:Ei; try done.
  eapply find_in_complete; [exact Ei|]. eapply IH; [done|done|simpl in Hl; lia].
Qed.

Lemma find_path_sound fuel root id path :
  find_path fuel root id = Some path -> exists n, node_at root path = Some n /\ str n "id" = id.
Proof.
  intros (n & Hn & Hid)%find_path_by_sound. exists n. by rewrite bool_decide_eq_true in Hid.
Qed.

Lemma find_path_of_update root id : is_Some (path_to root id) <->
  exists path n, node_at root path = Some n /\ str n "id" = id.
Proof.
  unfold path_to. split.
  - intros [path Hp]. exists path. by eapply find_path_sound.
  - intros (path & n & Hn & Hid). eapply find_path_by_complete; [done| |].
    + by apply bool_decide_eq_true.
    + apply node_at_height in Hn. lia.
Qed.

(** looking a node up by its id finds a node exactly when the tree has one with that
    id, at any depth, and the node found has the id; in a tree whose ids are distinct it
    is the only one. *)
Theorem findDynamicNode_correct (root : jmap) (id : string) :
  match findDynamicNode root id with
  | Some (node, _) => str node "id" = id /\ exists path, node_at root path = Some node
  | None => forall path n, node_at root path = Some n -> str n "id" <> id
  end.
Proof.
  unfold findDynamicNode. fold (path_to root id).
  destruct (path_to root id) as [path|] eqn:Ep.
  - destruct (find_path_sound _ _ _ _ Ep) as (n & Hn & Hid). rewrite Hn.
    destruct (reverse path) as [|i up] eqn:Er; [eauto|].
    assert (Hpath : path = reverse up ++ [i]) by (by rewrite <-reverse_cons, <-Er, reverse_involutive).
    destruct (node_at_prefix root path (length (reverse up)) n Hn) as [parent Hparent].
    rewrite Hpath, take_app_length in Hparent. rewrite Hparent. eauto.
  - intros path n Hn Hid. assert (Hs : is_Some (path_to root id))
      by (apply find_path_of_update; eauto). rewrite Ep in Hs. by destruct Hs.
Qed.

(** ** What a connection is shown *)

(** the client declared the version and every component type of the card *)
Definition displayable `{Runtime} (dynamic : option DynamicContentCapabilities)
    (segment : MessageSegment) : Prop :=
  segment.(MessageSegment_Type) = "dynamic_content" ->
  exists d schema tree, dynamic = Some d
    /\ dynamicSchemaFromData segment.(MessageSegment_Data) = Ok schema
    /\ str schema "version" ∈ d.(SchemaVersions) /\ schema !! "tree" = Some (JObj tree)
    /\ forall path n, node_at tree path = Some n -> str n "type" ∈ d.(Components).

Lemma tree_uses_only_nodes fuel root components path n :
  tree_uses_only fuel (JObj root) components = true -> node_at root path = Some n ->
  str n "type" ∈ components.
Proof.
  revert root path. induction fuel as [|fuel IH]; intros root path; [done|]. cbn [tree_uses_only].
  rewrite andb_true_iff, bool_decide_eq_true, forallb_forall. intros [Ht Hc].
  destruct path as [|i path]; [by intros [= <-]|]. cbn [node_at].
  destruct (children_of root !! i) as [[| | | | | |child]|] eqn:Ei; try done.
  apply IH, Hc. apply list_elem_of_In. by eapply list_elem_of_lookup_2.
Qed.

Lemma supports_displayable `{Runtime} dynamic segment :
  supportsDynamicContentSegment dynamic segment = true -> displayable dynamic segment.
Proof.
  unfold supportsDynamicContentSegment, displayable. destruct dynamic as [d|]; [|done].
  destruct (dynamicSchemaFromData _) as [schema|]; [|done].
  case_bool_decide as Hv; [|done]. cbn [negb]. case_bool_decide; [|done]. cbn [negb].
  destruct (schema !! "tree") as [t|] eqn:Et; [|done]. unfold dynamicTreeUsesOnlyComponents.
  intros Hu _. destruct t as [| | | | | |tree]; try done. exists d, schema, tree.
  do 4 (split; [done|]). intros path n. by eapply tree_uses_only_nodes.
Qed.

(** whatever message is delivered or listed to a connection, every card in it has a
    schema version and, on every node, a component type that the connection declared; a
    connection that declared nothing is shown no card at all.  The message keeps its
    number of segments. *)
Theorem delivered_cards_displayable `{Runtime} (capabilities : Capabilities)
    (segments shown : list MessageSegment) :
  segmentsForClient capabilities segments = Some shown ->
  Forall (displayable capabilities.(DynamicContent)) shown /\ length shown = length segments.
Proof.
  unfold segmentsForClient. destruct (hasCapabilitySensitiveSegment segments) eqn:Es; cbn [negb].
  - intros Hm%mapM_Some. clear Es. split; [|by rewrite (Forall2_length _ _ _ Hm)].
    induction Hm as [|s s' l l' Hs Hl IH]; constructor; [|done].
    unfold segment_for_client in Hs. case_bool_decide as Ht.
    + destruct (supportsDynamicContentSegment _ s) eqn:Esup; injection Hs as <-;
        [by apply supports_displayable|done].
    + assert (Hsame : s' = s) by (repeat case_in Hs; congruence). subst s'. by intros ?.
  - intros [= <-]. split; [|done]. apply Forall_forall. intros s Hin Ht. exfalso.
    apply not_true_iff_false in Es. apply Es, existsb_exists. exists s.
    split; [by apply list_elem_of_In|]. rewrite Ht. vm_compute. reflexivity.
Qed.

Definition demo_capabilities : Capabilities :=
  mkCapabilities "1.0" (Some (mkDynamicContentCapabilities ["1.0"] "1.0" ["column"; "text"] true true true)).

Lemma delivered_cards_displayable_witness :
  Forall (displayable (H := demo_runtime) demo_capabilities.(DynamicContent))
    [DynamicContentSegment demo_schema; TextSegment "hi"].
Proof.
  apply (delivered_cards_displayable (H := demo_runtime) demo_capabilities
    [DynamicContentSegment demo_schema; TextSegment "hi"]).
  vm_compute. reflexivity.
Defined.

(** ** A card inside a card *)

Definition big_tree : json :=
  obj [("id", JStr ""); ("type", JStr "text")].
Definition nested_card_schema : jmap :=
  <["content" := obj [("id", JStr "card"); ("tree", big_tree)]]> demo_schema.
Definition replace_with_nested : MessageSegment :=
  mkMessageSegment "dynamic_replace"
    {["message_id" := JStr "msg_1"; "content_id" := JStr "card"; "content" := JObj nested_card_schema]}.

(** the card a later request reads from the message after the replacement *)
Definition card_after `{Runtime} (segments : list MessageSegment) (mutation : MessageSegment)
  : result jmap :=
  match applyDynamicMutationToSegments segments mutation with
  | Ok (s :: _, _) => dynamicSchemaFromData s.(MessageSegment_Data)
  | Ok ([], _) => Err "no segment"
  | Err e => Err e
  end.

(** validation can be bypassed by nesting: the replacement of a card is validated
    without its own "content" member, but stored as the data of a segment, where that
    member is the card; so an accepted dynamic_replace can leave a stored card that
    validation refuses. *)
Theorem nested_card_not_validated :
  validateDynamicReplaceSegment (H := demo_runtime) replace_with_nested = Ok tt
  /\ match card_after (H := demo_runtime) [DynamicContentSegment demo_schema] replace_with_nested with
     | Ok schema => is_ok (validateDynamicSchema (H := demo_runtime) schema) = false
     | Err _ => False
     end.
Proof. split; vm_compute; reflexivity. Qed.
