(* ===== verification/FairyTypes.v ===== *)
(** * The Fairy assistant: shared data (internal/fairy)

    The assistant is a client of the server: it receives the events of its account,
    decides which messages to answer, queues one turn per message, and replies through
    the gateway.  This file holds the records and validators that several of its parts
    use (client.go, context.go, gate.go, config.go, model.go, tool.go, plugin.go,
    trace_store.go), identifiers (scheduler.go), HMAC digests, and what a message says
    (engine.go, media_input.go). *)
From S2P Require Import Prelude GoLib Types.
From stdpp Require Import gmap strings list.
From Stdlib Require Import ZArith.

Local Open Scope Z_scope.

(** membership in the cases of a [switch] *)
Definition one_of (l : list string) (v : string) : bool := bool_decide (v ∈ l).

(** ** Events of the server *)

Record Sender := mkSender { Sender_UserID : string; Sender_Nickname : string; Sender_Avatar : string }.
#[export] Instance eta_Sender : Eta Sender :=
  fun r => mkSender r.(Sender_UserID) r.(Sender_Nickname) r.(Sender_Avatar).

Record messageEvent := mkMessageEvent {
  messageEvent_PostType : string; messageEvent_MessageType : string;
  messageEvent_MessageID : string; messageEvent_ConversationID : string;
  messageEvent_Sender : Sender; messageEvent_Message : list MessageSegment;
  messageEvent_Timestamp : Z; messageEvent_LocalAgent : bool; messageEvent_FairyOwned : bool;
  messageEvent_DynamicEventAudit : bool }.
#[export] Instance eta_messageEvent : Eta messageEvent := fun r => mkMessageEvent
    r.(messageEvent_PostType) r.(messageEvent_MessageType) r.(messageEvent_MessageID)
    r.(messageEvent_ConversationID) r.(messageEvent_Sender) r.(messageEvent_Message)
    r.(messageEvent_Timestamp) r.(messageEvent_LocalAgent) r.(messageEvent_FairyOwned)
    r.(messageEvent_DynamicEventAudit).

(** the test for a group, written out at each use in the code *)
Definition isGroup (event : messageEvent) : bool :=
  bool_decide (event.(messageEvent_MessageType) = "group")
  || HasPrefix event.(messageEvent_ConversationID) "group_".

(** protocol.TextSegment, AtSegment, ReplySegment *)
Definition TextSegment (text : string) : MessageSegment :=
  mkMessageSegment "text" {["text" := JStr text]}.
Definition AtSegment (userID : string) : MessageSegment :=
  mkMessageSegment "at" {["qq" := JStr userID]}.
Definition ReplySegment (messageID : string) : MessageSegment :=
  mkMessageSegment "reply" {["id" := JStr messageID]}.

(** ** Decisions of the message gate *)

Definition GateTrigger := "trigger".
Definition GateWait := "wait".
Definition GateIgnore := "ignore".
Definition GateReject := "reject".

Definition GateReasonPrivateMessage := "private_message".
Definition GateReasonExplicitMention := "explicit_mention".
Definition GateReasonCommand := "command".
Definition GateReasonSelfMessage := "self_message".
Definition GateReasonInvalidEvent := "invalid_event".
Definition GateReasonEmptyText := "empty_text".
Definition GateReasonGroupDisabled := "group_disabled".
Definition GateReasonGroupNoTrigger := "group_no_trigger".
Definition GateReasonSoftDisabled := "soft_disabled".
Definition GateReasonSoftShadow := "soft_shadow".
Definition GateReasonSoftTrigger := "soft_trigger".
Definition GateReasonSoftCooldown := "soft_cooldown".
Definition GateReasonFocusConflict := "focus_conflict".

Record GateDecision := mkGateDecision {
  GateDecision_Action : string; GateDecision_Reason : string; GateDecision_Hard : bool;
  GateDecision_Shadow : bool }.
#[export] Instance GateDecision_eq_dec : EqDecision GateDecision.
Proof. solve_decision. Defined.

Definition validGateAction (value : string) : bool :=
  one_of [GateTrigger; GateWait; GateIgnore; GateReject] value.

Definition validGateReason (value : string) : bool :=
  one_of [GateReasonPrivateMessage; GateReasonExplicitMention; GateReasonCommand;
    GateReasonSelfMessage; GateReasonInvalidEvent; GateReasonEmptyText;
    GateReasonGroupDisabled; GateReasonGroupNoTrigger; GateReasonSoftDisabled;
    GateReasonSoftShadow; GateReasonSoftTrigger; GateReasonSoftCooldown;
    GateReasonFocusConflict] value.

Definition validGateDecision (decision : GateDecision) : bool :=
  let action a := bool_decide (decision.(GateDecision_Action) = a) in
  let reason l := one_of l decision.(GateDecision_Reason) in
  let hard := decision.(GateDecision_Hard) in
  let shadow := decision.(GateDecision_Shadow) in
  if negb (validGateAction decision.(GateDecision_Action))
     || negb (validGateReason decision.(GateDecision_Reason)) then false
  else if reason [GateReasonPrivateMessage; GateReasonExplicitMention; GateReasonCommand]
  then action GateTrigger && hard && negb shadow
  else if reason [GateReasonSoftTrigger] then action GateTrigger && negb hard && negb shadow
  else if reason [GateReasonSoftShadow] then action GateWait && negb hard && shadow
  else if reason [GateReasonSoftCooldown; GateReasonFocusConflict]
  then action GateWait && negb hard && negb shadow
  else if reason [GateReasonSelfMessage; GateReasonEmptyText; GateReasonGroupDisabled;
                  GateReasonGroupNoTrigger; GateReasonSoftDisabled]
  then action GateIgnore && negb hard && negb shadow
  else if reason [GateReasonInvalidEvent] then action GateReject && negb hard && negb shadow
  else false.

(** ** Switches of the configuration *)

Definition GroupSoftOff := "off".
Definition GroupSoftShadow := "shadow".
Definition GroupSoftOn := "on".
Definition validGroupSoftMode (value : string) : bool :=
  one_of [GroupSoftOff; GroupSoftShadow; GroupSoftOn] value.

Definition validExpressionStyle (value : string) : bool :=
  one_of ["brief"; "normal"; "detailed"] value.

(** ** Tasks, failure codes and labels *)

Definition PlannerTaskID := "planner".
Definition ReplyerTaskID := "replyer".
Definition VisionTaskID := "vision".
Definition TranscriberTaskID := "transcriber".
Definition maxPlannerSteps : Z := 4.

Definition validModelFailureCode (value : string) : bool :=
  one_of ["cancelled"; "deadline_exceeded"; "network_error"; "rate_limited";
    "provider_server_error"; "authentication_error"; "invalid_request"; "content_rejected";
    "invalid_response"] value.

Definition validToolFailureCode (value : string) : bool :=
  one_of ["tool_not_found"; "invalid_arguments"; "not_visible"; "unauthorized"; "policy_denied";
    "call_limit_exceeded"; "timeout"; "cancelled"; "execution_failed"; "invalid_output";
    "output_too_large"] value.

Definition validToolTraceRisk (value : string) : bool :=
  one_of ["low"; "medium"; "high"; "unknown"] value.
Definition validToolTracePolicy (value : string) : bool :=
  one_of ["allowed"; "denied"; "not_evaluated"] value.
Definition validToolTraceStatus (value : string) : bool :=
  one_of ["completed"; "rejected"; "failed"; "timed_out"; "cancelled"] value.

(** the characters of a label: lower-case letters, digits, and [marks] *)
Definition label_character (marks : list string) (character : Z) : bool :=
  is_lower character || is_digit character || existsb (fun m => is_char m character) marks.

Definition validTraceLabel (value : string) : bool :=
  if bool_decide (value = "") || (64 <? slen value) then false
  else forallb (label_character ["-"; "_"; "."]) (runes value).

Definition validRuntimeID (value : string) : bool :=
  if bool_decide (value = "") || (80 <? slen value) then false
  else forallb (label_character ["-"; "_"]) (runes value).

(** ** Identifiers and digests *)

(** [value] is the draw of 16 bytes from crypto/rand, [None] its failure *)
Definition newRuntimeID (value : option string) (prefix : string) : result string :=
  match value with
  | None => Err ("generate Fairy " +:+ prefix +:+ " ID")
  | Some v => Ok (prefix +:+ "_" +:+ EncodeToString v)
  end.

Definition limitRunes (value : string) (maximum : Z) : string :=
  let l := runes value in
  if Z.of_nat (length l) <=? maximum then value
  else of_runes (take (Z.to_nat maximum) l) +:+ "...".

(** crypto/hmac over SHA-256 (blocks of 64 bytes) *)
Definition hmac_sha256 `{Runtime} (key message : string) : string :=
  let key := if 64 <? slen key then sha256 key else key in
  let block := bytes key ++ replicate (64 - String.length key) 0 in
  let pad b := of_bytes (Z.lxor b <$> block) in
  sha256 (pad 0x5C +:+ sha256 (pad 0x36 +:+ message)).

(** ** Messages of a model conversation *)

Record ModelToolCall := mkModelToolCall {
  ModelToolCall_ID : string; ModelToolCall_Type : string;
  ModelToolCall_Name : string; ModelToolCall_Arguments : string }.
#[export] Instance ModelToolCall_eq_dec : EqDecision ModelToolCall.
Proof. solve_decision. Defined.

Record ChatMessage := mkChatMessage {
  ChatMessage_Role : string; ChatMessage_Content : string; ChatMessage_ToolCallID : string;
  ChatMessage_ToolCalls : list ModelToolCall; ChatMessage_SourceID : string;
  ChatMessage_SourceEndID : string; ChatMessage_SourceCount : Z; ChatMessage_SourceTimeMS : Z }.
#[export] Instance eta_ChatMessage : Eta ChatMessage := fun r => mkChatMessage
    r.(ChatMessage_Role) r.(ChatMessage_Content) r.(ChatMessage_ToolCallID)
    r.(ChatMessage_ToolCalls) r.(ChatMessage_SourceID) r.(ChatMessage_SourceEndID)
    r.(ChatMessage_SourceCount) r.(ChatMessage_SourceTimeMS).
#[export] Instance ChatMessage_eq_dec : EqDecision ChatMessage.
Proof. solve_decision. Defined.

(** a message with a role and a content only *)
Definition chat (role content : string) : ChatMessage := mkChatMessage role content "" [] "" "" 0 0.

(** ** What a message says to the assistant (engine.go, media_input.go)

    The text and the mention of a message, the triggers and commands in it, the media it
    carries.  strings.ToLower is the parameter [to_lower] of [Runtime]. *)

Local Open Scope go_scope.

Local Open Scope go_scope.

(** ** Text *)

(** a message for the local agent *)
Definition local_route (segment : MessageSegment) : bool :=
  bool_decide (segment.(MessageSegment_Type) = "agent_route")
  && bool_decide (str segment.(MessageSegment_Data) "route" = "local").
Definition segment_text (segment : MessageSegment) : string :=
  if bool_decide (segment.(MessageSegment_Type) = "text") then str segment.(MessageSegment_Data) "text" else "".
Definition segment_mentions (fairyUserID : string) (segment : MessageSegment) : bool :=
  bool_decide (segment.(MessageSegment_Type) = "at")
  && existsb (fun key => bool_decide (str segment.(MessageSegment_Data) key = fairyUserID))
       ["qq"; "user_id"; "target_id"].

Fixpoint messageText_from (segments : list MessageSegment) (fairyUserID text : string) (mentioned : bool)
  : string * bool :=
  match segments with
  | [] => (text, mentioned)
  | segment :: rest =>
      if local_route segment then ("", false)
      else messageText_from rest fairyUserID (text +:+ segment_text segment)
             (mentioned || segment_mentions fairyUserID segment)
  end.
Definition messageText (segments : list MessageSegment) (fairyUserID : string) : string * bool :=
  messageText_from segments fairyUserID "" false.

(** ** Media *)

Definition mediaInputImage := "image".
Definition mediaInputRecord := "record".
Definition maxMediaImages : Z := 4.

Record mediaInput := mkMediaInput {
  Media_Kind : string; Media_URL : string; Media_Name : string; Media_MIMEType : string;
  Media_Size : Z; Media_DurationMS : Z }.
Record mediaInputSummary := mkMediaSummary { images : Z; records : Z; inputs : list mediaInput }.
#[export] Instance eta_mediaInputSummary : Eta mediaInputSummary :=
  fun r => mkMediaSummary r.(images) r.(records) r.(inputs).

Definition mediaString (data : gmap string json) (key : string) : string := TrimSpace (str data key).
(** decoded numbers are float64, and float64(math.MaxInt64) is 2^63 *)
Definition mediaInt64 (value : option json) : Z :=
  match value with
  | Some (JNum n) =>
      if num_leb (num_of_Z 0) n && num_leb n (num_of_Z (2 ^ 63)) && num_eqb n (num_of_Z (num_trunc n))
      then int64_of_num n else 0
  | _ => 0
  end.
Definition mediaInputFromSegment (kind : string) (segment : MessageSegment) : mediaInput :=
  let data := segment.(MessageSegment_Data) in
  mkMediaInput kind (mediaString data "url") (mediaString data "name") (mediaString data "mime_type")
    (mediaInt64 (data !! "size")) (mediaInt64 (data !! "duration_ms")).

Definition add_media (summary : mediaInputSummary) (segment : MessageSegment) : mediaInputSummary :=
  if bool_decide (segment.(MessageSegment_Type) = "image")
  then summary <| images ::= Z.succ |>
         <| inputs ::= fun l => l ++ [mediaInputFromSegment mediaInputImage segment] |>
  else if bool_decide (segment.(MessageSegment_Type) = "record")
  then summary <| records ::= Z.succ |>
         <| inputs ::= fun l => l ++ [mediaInputFromSegment mediaInputRecord segment] |>
  else summary.
Definition summarizeMediaInputs (segments : list MessageSegment) : mediaInputSummary :=
  foldl add_media (mkMediaSummary 0 0 []) segments.

Definition present (s : mediaInputSummary) : bool := (0 <? s.(images)) || (0 <? s.(records)).
Definition unavailableReply (s : mediaInputSummary) : string :=
  if (0 <? s.(images)) && (0 <? s.(records))
  then "Fairy 暂未启用图片理解和语音转写。本次未下载附件，也未调用 AI。"
  else if 0 <? s.(records) then "Fairy 暂未启用语音转写。本次未下载语音，也未调用 AI。"
  else "Fairy 暂未启用图片理解。本次未下载图片，也未调用 AI。".
Definition validateBatch (s : mediaInputSummary) : result unit :=
  if (0 <? s.(images)) && (0 <? s.(records)) then Err "mixed image and voice input is not supported"
  else if maxMediaImages <? s.(images) then Err ("at most " +:+ sprint_d maxMediaImages +:+ " images are supported")
  else if 1 <? s.(records) then Err "only one voice message is supported"
  else if existsb (fun i => bool_decide (TrimSpace i.(Media_URL) = "")) s.(inputs) then Err "media URL is required"
  else Ok tt.

(** ** Triggers and commands *)

Section triggers.
Context `{Runtime}.

Definition commandTrigger (text : string) : bool :=
  let lower := to_lower (TrimSpace text) in
  existsb (HasPrefix lower) ["/fairy"; "/zzz"; "fairy "; "zzz "; "zzz查询 "; "绝区零查询 "].

(** the prefix is looked for in the lowered text and cut off the text itself *)
Definition normalizeTrigger (text : string) : string :=
  let value := TrimSpace text in
  match find_first (HasPrefix (to_lower value)) ["@fairy"; "fairy："; "fairy:"; "fairy,"] with
  | Some prefix => TrimSpace (slice_from (String.length prefix) value)
  | None => value
  end.

(** the command and its argument *)
Definition fairyCommand (text : string) : option (string * string) :=
  match Fields (TrimSpace text) with
  | [] => None
  | first :: rest =>
      if negb (one_of ["/fairy"; "fairy"] (to_lower first)) then None
      else match rest with
           | [] => Some ("help", "")
           | command :: arguments => Some (to_lower command, String.concat " " arguments)
           end
  end.

Definition parseSwitch (value : string) : option bool :=
  let v := to_lower (TrimSpace value) in
  if one_of ["on"; "开启"; "开"] v then Some true
  else if one_of ["off"; "关闭"; "关"] v then Some false
  else None.

Definition parseGroupSoftMode (value : string) : string * bool :=
  let mode := to_lower (TrimSpace value) in (mode, validGroupSoftMode mode).

Definition replyReferenceForEvent (event : messageEvent) : string :=
  if isGroup event then event.(messageEvent_MessageID) else "".

Definition isMessageCandidate (event : messageEvent) (fairyUserID : string) : bool :=
  let sender := event.(messageEvent_Sender).(Sender_UserID) in
  if bool_decide (sender = "") || bool_decide (sender = fairyUserID)
     || bool_decide (event.(messageEvent_ConversationID) = "") then false
  else
    let '(text, mentioned) := messageText event.(messageEvent_Message) fairyUserID in
    let text := TrimSpace text in
    if bool_decide (text = "") && negb (present (summarizeMediaInputs event.(messageEvent_Message))) then false
    else negb (isGroup event) || mentioned || (negb (bool_decide (text = "")) && commandTrigger text).

Definition isStopCommand (event : messageEvent) (fairyUserID : string) : bool :=
  isMessageCandidate event fairyUserID
  && let text := (messageText event.(messageEvent_Message) fairyUserID).1 in
     match fairyCommand (normalizeTrigger (TrimSpace text)) with
     | Some (command, _) => one_of ["stop"; "cancel"; "停止"; "取消"] command
     | None => false
     end.
End triggers.

(** ** Facts *)

(** a message for the local agent says nothing, wherever the route is *)
Lemma local_messages_say_nothing segments fairyUserID :
  Exists (fun segment => local_route segment = true) segments -> messageText segments fairyUserID = ("", false).
Proof.
  intros He. unfold messageText.
  assert (Hg : forall text mentioned, messageText_from segments fairyUserID text mentioned = ("", false)); [|apply Hg].
  induction He as [segment rest Hs|segment rest _ IH]; intros text mentioned; cbn [messageText_from].
  - by rewrite Hs.
  - by destruct (local_route segment).
Qed.

Lemma summary_counts segments :
  let s := summarizeMediaInputs segments in
  0 <= s.(images) /\ 0 <= s.(records) /\ Z.of_nat (length s.(inputs)) = s.(images) + s.(records).
Proof.
  unfold summarizeMediaInputs.
  assert (Hg : forall s0, 0 <= s0.(images) -> 0 <= s0.(records) ->
    Z.of_nat (length s0.(inputs)) = s0.(images) + s0.(records) ->
    let s := foldl add_media s0 segments in
    0 <= s.(images) /\ 0 <= s.(records) /\ Z.of_nat (length s.(inputs)) = s.(images) + s.(records)).
  { induction segments as [|segment rest IH]; intros s0 H1 H2 H3; [done|]. simpl. apply IH; unfold add_media;
      repeat case_bool_decide; cbn; rewrite ?length_app; cbn; lia. }
  by apply Hg.
Qed.

(** a batch that passes holds one to four images, or one voice message, with an address *)
Lemma validateBatch_ok segments :
  let s := summarizeMediaInputs segments in
  validateBatch s = Ok tt -> present s = true ->
  (1 <= s.(images) <= maxMediaImages /\ s.(records) = 0 \/ s.(images) = 0 /\ s.(records) = 1)
  /\ Forall (fun i => TrimSpace i.(Media_URL) <> "") s.(inputs).
Proof.
  intros s. destruct (summary_counts segments) as (Hi & Hr & _). fold s in Hi, Hr.
  unfold validateBatch, present. destruct (_ && _) eqn:E1; [done|].
  destruct (maxMediaImages <? images s) eqn:E2; [done|]. destruct (1 <? records s) eqn:E3; [done|].
  destruct (existsb _ _) eqn:E4; [done|]. intros _ Hp. apply Z.ltb_ge in E2, E3. split.
  - destruct (0 <? images s) eqn:Ei, (0 <? records s) eqn:Er; try done;
      rewrite ?Z.ltb_lt, ?Z.ltb_ge in *; lia.
  - apply Forall_forall. intros i Hin Ht. apply not_true_iff_false in E4. apply E4, existsb_exists.
    exists i. split; [by apply list_elem_of_In|by apply bool_decide_eq_true].
Qed.
