(* ===== verification/RuneFacts.v ===== *)
(** * UTF-8 (GoLib)

    Encoding followed by decoding, and the lengths of texts that are cut to a number of
    runes. *)
From S2P Require Import Prelude GoLib Types FairyTypes.
From stdpp Require Import strings list.
From Stdlib Require Import ZArith Lia.

Local Open Scope Z_scope.
Local Open Scope go_scope.

(** the Unicode scalar values *)
Definition scalar (r : Z) : Prop := 0 <= r <= 0x10FFFF /\ ~ (0xD800 <= r <= 0xDFFF).

(** decides the conditions that linear arithmetic settles *)
Ltac settle_ifs :=
  repeat match goal with
  | |- context [if ?b then _ else _] => first [replace b with true by lia | replace b with false by lia]
  | |- context [if ?x =? ?y then _ else _] => destruct (Z.eqb_spec x y)
  end.

Lemma split2 r n : 0 < n -> exists q m, r = n * q + m /\ 0 <= m < n /\ r / n = q /\ r mod n = m.
Proof. intros Hn. exists (r / n), (r mod n). pose proof (Z.mod_pos_bound r n Hn). pose proof (Z.div_mod r n). lia. Qed.

Lemma decode_encode r rest :
  scalar r -> decode_rune (encode_rune r ++ rest) = (r, length (encode_rune r)).
Proof.
  intros [Hr Hs]. unfold encode_rune.
  replace ((r <? 0) || (0x10FFFF <? r) || ((0xD800 <=? r) && (r <=? 0xDFFF))) with false by lia.
  cbv zeta. destruct (split2 r 64) as (q & m & E & Hm & -> & ->); [lia|].
  destruct (split2 q 64) as (q2 & m2 & E2 & Hm2 & Eq2 & ->); [lia|].
  destruct (split2 q2 64) as (q3 & m3 & E3 & Hm3 & Eq3 & Em3); [lia|].
  assert (E4 : r / 4096 = q2) by (symmetry; apply (Z.div_unique r 4096 q2 (64 * m2 + m)); lia).
  assert (E5 : r / 262144 = q3) by (symmetry; apply (Z.div_unique r 262144 q3 (4096 * m3 + 64 * m2 + m)); lia).
  assert (E6 : (r / 4096) mod 64 = m3) by (by rewrite E4).
  rewrite E6, E4, E5. clear E4 E5 E6 Eq2 Eq3 Em3.
  destruct (Z.ltb_spec r 0x80); [|destruct (Z.ltb_spec r 0x800); [|destruct (Z.ltb_spec r 0x10000)]];
    unfold decode_rune, GoLib.between, cont; cbn [app length]; cbv zeta; settle_ifs; f_equal; lia.
Qed.

(** ** Bytes *)

Definition byte (b : Z) : Prop := 0 <= b < 256.

Lemma bytes_range s : Forall byte (bytes s).
Proof.
  unfold bytes. apply Forall_fmap, Forall_forall. intros a _. unfold byte. cbn.
  pose proof (Ascii.N_ascii_bounded a). lia.
Qed.
Lemma bytes_of_bytes l : Forall byte l -> bytes (of_bytes l) = l.
Proof.
  intros Hl. unfold bytes, of_bytes. rewrite String.list_ascii_of_string_of_list_ascii.
  rewrite <-list_fmap_compose. rewrite <-(list_fmap_id l) at 2. apply list_fmap_ext. intros i b Hb. cbn.
  rewrite Forall_lookup in Hl. specialize (Hl i b Hb). unfold byte in Hl. rewrite Ascii.N_ascii_embedding; lia.
Qed.
Lemma of_bytes_bytes s : of_bytes (bytes s) = s.
Proof.
  unfold bytes, of_bytes. rewrite <-list_fmap_compose.
  rewrite <-(String.string_of_list_ascii_of_string s) at 2. f_equal.
  rewrite <-(list_fmap_id (String.list_ascii_of_string s)) at 2. apply list_fmap_ext. intros i a _. cbn.
  by rewrite N2Z.id, Ascii.ascii_N_embedding.
Qed.
Lemma bytes_app s1 s2 : bytes (s1 +:+ s2) = bytes s1 ++ bytes s2.
Proof. unfold bytes. rewrite <-fmap_app. f_equal. induction s1 as [|a s1 IH]; [done|]. exact (f_equal (cons a) IH). Qed.
Lemma of_bytes_app l1 l2 : of_bytes (l1 ++ l2) = of_bytes l1 +:+ of_bytes l2.
Proof.
  unfold of_bytes. rewrite fmap_app. generalize ((fun z => Ascii.ascii_of_N (Z.to_N z)) <$> l1). intros l.
  induction l as [|a l IH]; [done|]. exact (f_equal (String.String a) IH).
Qed.

(** ** Decoding *)

(** a step consumes a byte at least and gives a scalar value *)
Lemma decode_step b l : byte b ->
  scalar (decode_rune (b :: l)).1 /\ exists k, (decode_rune (b :: l)).2 = S k.
Proof.
  intros Hb. unfold byte in Hb. unfold decode_rune, GoLib.between, cont, scalar. cbv zeta.
  repeat (case_match; try (cbn; split; [lia|by eexists])); cbn; split; try (by eexists);
    repeat match goal with E : _ && _ = true |- _ => apply andb_true_iff in E as [? ?] end; lia.
Qed.

Lemma encode_length r : (1 <= length (encode_rune r) <= 4)%nat.
Proof. unfold encode_rune. cbv zeta. repeat case_match; cbn; lia. Qed.
Lemma encode_range r : scalar r -> Forall byte (encode_rune r).
Proof.
  intros [Hr Hs]. unfold encode_rune. cbv zeta. settle_ifs.
  repeat case_match; repeat constructor; Z.to_euclidean_division_equations; lia.
Qed.

Lemma decode_runes_encode l fuel :
  Forall scalar l -> (length (l ≫= encode_rune) <= fuel)%nat -> decode_runes fuel (l ≫= encode_rune) = l.
Proof.
  intros Hl. revert fuel. induction Hl as [|r l Hr Hl IH]; intros fuel Hf; [by destruct fuel|].
  cbn [mbind list_bind] in *. rewrite length_app in Hf. pose proof (encode_length r) as He.
  destruct fuel as [|fuel]; [lia|]. pose proof (decode_encode r (l ≫= encode_rune) Hr) as Hd.
  assert (Hc : exists b e, encode_rune r = b :: e) by (destruct (encode_rune r) as [|b e]; [cbn in He; lia|by exists b, e]).
  destruct Hc as (b & e & Ee). rewrite Ee in *. cbn [app decode_runes] in *. rewrite Hd. f_equal.
  change (b :: e ++ (l ≫= encode_rune)) with ((b :: e) ++ (l ≫= encode_rune)). rewrite drop_app_length.
  apply IH. cbn in Hf. lia.
Qed.
(** string(runes) is read back *)
Lemma runes_of_runes l : Forall scalar l -> runes (of_runes l) = l.
Proof.
  intros Hl. unfold runes, of_runes. rewrite bytes_of_bytes.
  - by apply decode_runes_encode.
  - induction Hl as [|r l Hr Hl IH]; [constructor|]. cbn. apply Forall_app. split; [by apply encode_range|done].
Qed.

Lemma decode_runes_scalar fuel l : Forall byte l -> Forall scalar (decode_runes fuel l).
Proof.
  revert l. induction fuel as [|fuel IH]; intros l Hl; [constructor|]. destruct l as [|b l]; [constructor|].
  pose proof (decode_step b l (Forall_inv Hl)) as [Hs _]. cbn [decode_runes].
  destruct (decode_rune (b :: l)) as [r n]. constructor; [done|]. apply IH. by apply Forall_drop.
Qed.
Lemma runes_scalar s : Forall scalar (runes s).
Proof. apply decode_runes_scalar, bytes_range. Qed.

Lemma decode_runes_fuel fuel l :
  Forall byte l -> (length l <= fuel)%nat -> decode_runes fuel l = decode_runes (length l) l.
Proof.
  revert l. induction fuel as [fuel IH] using lt_wf_ind; intros l Hl Hf.
  destruct l as [|b l]; [by destruct fuel|]. destruct fuel as [|fuel]; [cbn in Hf; lia|].
  destruct (decode_step b l (Forall_inv Hl)) as [_ [k Hk]]. cbn [length decode_runes].
  destruct (decode_rune (b :: l)) as [r n]. cbn in Hk. subst n. f_equal. cbn [drop].
  assert (Hd : Forall byte (drop k l)) by (apply Forall_drop; by inversion Hl).
  assert (length (drop k l) <= length l)%nat by (rewrite length_drop; lia). cbn in Hf.
  rewrite (IH fuel), (IH (length l)); [done|lia|done|lia|lia|done|lia].
Qed.

(** an ASCII text before another is decoded on its own *)
Definition ascii (s : string) : Prop := Forall (fun b => 0 <= b < 128) (bytes s).
Lemma runes_ascii_app p s : ascii p -> runes (p +:+ s) = bytes p ++ runes s.
Proof.
  intros Hp. unfold runes. rewrite bytes_app. unfold ascii in Hp. pose proof (bytes_range s) as Hs.
  induction Hp as [|b l Hb Hl IH]; [done|]. cbn [app length decode_runes].
  replace (decode_rune _) with (b, 1%nat) by (unfold decode_rune; by replace (b <? 0x80) with true by lia).
  exact (f_equal (cons b) IH).
Qed.
Lemma of_runes_ascii_app p l : ascii p -> of_runes (bytes p ++ l) = p +:+ of_runes l.
Proof.
  intros Hp. unfold of_runes. rewrite bind_app, of_bytes_app. f_equal.
  rewrite <-(of_bytes_bytes p) at 2. f_equal. unfold ascii in Hp. clear -Hp.
  induction Hp as [|b l Hb Hl IH]; [done|]. cbn [mbind list_bind]. rewrite IH. unfold encode_rune. cbv zeta.
  settle_ifs. done.
Qed.
Lemma append_assoc s1 s2 s3 : s1 +:+ s2 +:+ s3 = (s1 +:+ s2) +:+ s3.
Proof. induction s1 as [|a s1 IH]; [done|]. exact (f_equal (String.String a) IH). Qed.
Lemma HasPrefix_app p s : HasPrefix (p +:+ s) p = true.
Proof.
  unfold HasPrefix. induction p as [|a p IH]; [by destruct s|].
  change ((if Ascii.ascii_dec a a then String.prefix p (p +:+ s) else false) = true).
  by destruct (Ascii.ascii_dec a a).
Qed.

(** ** Texts cut to a number of runes *)

Lemma runes_limit s n : 0 <= n ->
  runes (limitRunes s n)
  = if Z.of_nat (length (runes s)) <=? n then runes s else take (Z.to_nat n) (runes s) ++ [46; 46; 46].
Proof.
  intros Hn. unfold limitRunes. cbv zeta. destruct (_ <=? n); [done|].
  change "..." with (of_runes [46; 46; 46]). unfold of_runes. rewrite <-of_bytes_app, <-bind_app.
  apply runes_of_runes, Forall_app. split; [apply Forall_take, runes_scalar|].
  repeat constructor; unfold scalar; lia.
Qed.
Lemma limit_length s n : 0 <= n -> Z.of_nat (length (runes (limitRunes s n))) <= n + 3.
Proof.
  intros Hn. rewrite runes_limit by done. destruct (Z.leb_spec (Z.of_nat (length (runes s))) n); [lia|].
  rewrite length_app, length_take. cbn. lia.
Qed.
Lemma limit_prefix p s n : ascii p -> slen p <= n -> HasPrefix (limitRunes (p +:+ s) n) p = true.
Proof.
  intros Hp Hn. unfold limitRunes. cbv zeta. rewrite runes_ascii_app by done.
  destruct (_ <=? n); [apply HasPrefix_app|].
  assert (Hl : length (bytes p) = String.length p).
  { unfold bytes. rewrite length_fmap. clear. induction p; cbn; congruence. }
  unfold slen in Hn. rewrite take_app_ge by lia. rewrite of_runes_ascii_app by done.
  rewrite <-append_assoc. apply HasPrefix_app.
Qed.

(** ** Identifiers *)

Definition id_byte (b : Z) : bool := label_character ["-"; "_"] b.
Lemma hex_digit_bytes z : 0 <= z < 16 -> exists b, bytes (hex_digit z) = [b] /\ id_byte b = true /\ 0 <= b < 128.
Proof.
  intros Hz. assert (Hall : forallb (fun z => match bytes (hex_digit z) with [b] => id_byte b && (0 <=? b) && (b <? 128) | _ => false end)
    (seqZ 0 16) = true) by (vm_compute; reflexivity).
  rewrite forallb_forall in Hall. specialize (Hall z). rewrite <-list_elem_of_In, elem_of_seqZ in Hall.
  specialize (Hall ltac:(lia)). destruct (bytes (hex_digit z)) as [|b [|]]; [done| |done]. exists b.
  apply andb_true_iff in Hall as [[Hi Hlo]%andb_true_iff Hhi]. apply Z.leb_le in Hlo. apply Z.ltb_lt in Hhi. done.
Qed.
Lemma hex_bytes l : Forall byte l ->
  let s := foldr (fun b acc => hex_digit (b / 16) +:+ hex_digit (b mod 16) +:+ acc) "" l in
  Forall (fun b => id_byte b = true /\ 0 <= b < 128) (bytes s) /\ length (bytes s) = (2 * length l)%nat.
Proof.
  induction 1 as [|b l Hb Hl [IH1 IH2]]; [by repeat constructor|]. cbn [foldr]. unfold byte in Hb. rewrite !bytes_app.
  destruct (hex_digit_bytes (b / 16)) as (x & -> & ?); [split; [apply Z.div_pos; lia|apply Z.div_lt_upper_bound; lia]|].
  destruct (hex_digit_bytes (b mod 16)) as (y & -> & ?); [apply Z.mod_pos_bound; lia|].
  split; [do 2 (constructor; [done|]); exact IH1|]. cbn in *. lia.
Qed.
Lemma length_bytes s : length (bytes s) = String.length s.
Proof. unfold bytes. rewrite length_fmap. induction s; cbn; congruence. Qed.

Lemma runes_ascii p : ascii p -> runes p = bytes p.
Proof.
  intros Hp. pose proof (runes_ascii_app p "" Hp) as E. change (runes "") with (@nil Z) in E. rewrite app_nil_r in E.
  rewrite <-E. f_equal. clear. induction p as [|a p IH]; [done|]. exact (f_equal (String.String a) IH).
Qed.

(** the identifiers of newRuntimeID pass their validator *)
Lemma runtime_id_valid draw prefix id :
  newRuntimeID (Some draw) prefix = Ok id -> slen prefix + 1 + 2 * slen draw <= 80 ->
  forallb id_byte (bytes prefix) = true -> ascii prefix ->
  validRuntimeID id = true.
Proof.
  unfold newRuntimeID. intros [= <-] Hl Hp Ha. destruct (hex_bytes (bytes draw) (bytes_range draw)) as [H1 H2].
  change (foldr _ _ (bytes draw)) with (EncodeToString draw) in *. set (e := EncodeToString draw) in *.
  assert (Hb : bytes (prefix +:+ "_" +:+ e) = bytes prefix ++ 95 :: bytes e) by (by rewrite !bytes_app).
  unfold validRuntimeID.
  assert (He : bool_decide (prefix +:+ "_" +:+ e = "") = false) by (apply bool_decide_eq_false; by destruct prefix).
  rewrite He. assert (Hs : (80 <? slen (prefix +:+ "_" +:+ e)) = false).
  { apply Z.ltb_ge. unfold slen. rewrite <-length_bytes, Hb, length_app. cbn [length]. rewrite H2, !length_bytes. unfold slen in Hl. lia. }
  rewrite Hs. cbn [orb].
  assert (Hascii : ascii (prefix +:+ "_" +:+ e)).
  { unfold ascii. rewrite Hb. apply Forall_app. split; [exact Ha|]. constructor; [lia|].
    eapply Forall_impl; [exact H1|]. by intros b [_ ?]. }
  rewrite (runes_ascii _ Hascii), Hb. change (forallb id_byte (bytes prefix ++ 95 :: bytes e) = true).
  rewrite forallb_app, Hp. cbn [forallb andb]. apply forallb_forall. intros b Hin%list_elem_of_In.
  rewrite Forall_forall in H1. by destruct (H1 b Hin).
Qed.
