(* ===== verification/FairyTrace.v ===== *)
(** * The trace store of the assistant (fairy/trace_store.go)

    A SQLite database that holds the ingress claims (an event is admitted once), the
    trace events, and the feedback tables of feedback_store.go.
    The tables are maps by primary key, the event table a list in sequence order; a row
    keeps the value its JSON payload denotes.  [faults] says which statements the driver
    fails; a failed transaction is rolled back. *)
From S2P Require Import Prelude GoLib Types Float64 FairyTypes.
From stdpp Require Import gmap strings list.
From Stdlib Require Import ZArith.

Local Open Scope Z_scope.
Local Open Scope go_scope.

(** ** Events *)

Definition defaultIngressRetention : Z := 30 * 24 * hour.
Definition maxTraceContentBytes : Z := 2 * 1024 * 1024.
Definition maxTraceSignatureBytes : Z := 64 * 1024.
Definition maxTraceDetailBytes : Z := 256 * 1024.

Definition TraceAdmissionAccepted := "admission_accepted".
Definition TraceAdmissionRejected := "admission_rejected".
Definition TraceIngressDuplicate := "ingress_duplicate".
Definition TraceTurnStarted := "turn_started".
Definition TraceTurnCompleted := "turn_completed".
Definition TraceTurnCancelled := "turn_cancelled".
Definition TraceTurnTimedOut := "turn_timed_out".
Definition TraceModelAttempt := "model_attempt".
Definition TraceModelReasoning := "model_reasoning".
Definition TracePlannerDecision := "planner_decision".
Definition TraceReplyerResult := "replyer_result".
Definition TraceToolCall := "tool_call".
Definition TraceGateDecision := "gate_decision".

Record TraceEvent := mkTraceEvent {
  TraceEvent_Time : time; TraceEvent_Type : string; TraceEvent_TraceID : string;
  TraceEvent_TurnID : string; TraceEvent_ConversationID : string; TraceEvent_Source : string;
  TraceEvent_Status : string; TraceEvent_QueueDepth : Z; TraceEvent_Pending : Z;
  TraceEvent_TaskID : string; TraceEvent_ProviderID : string; TraceEvent_ModelID : string;
  TraceEvent_SnapshotID : string; TraceEvent_Attempt : Z; TraceEvent_DurationMS : Z;
  TraceEvent_InputTokens : Z; TraceEvent_OutputTokens : Z; TraceEvent_CostMicroUSD : Z;
  TraceEvent_FailureCode : string; TraceEvent_Fallback : bool; TraceEvent_Repair : bool;
  TraceEvent_Step : Z; TraceEvent_PromptVersion : string; TraceEvent_PromptDigest : string;
  TraceEvent_ToolCallID : string; TraceEvent_ToolName : string; TraceEvent_ToolRisk : string;
  TraceEvent_ToolPolicy : string; TraceEvent_ToolStatus : string;
  TraceEvent_ToolResultBytes : Z; TraceEvent_GateAction : string;
  TraceEvent_GateReason : string; TraceEvent_GateHard : bool; TraceEvent_GateShadow : bool;
  TraceEvent_Content : string; TraceEvent_Signature : string; TraceEvent_Redacted : bool;
  TraceEvent_Detail : string }.
#[export] Instance eta_TraceEvent : Eta TraceEvent := fun r => mkTraceEvent
    r.(TraceEvent_Time) r.(TraceEvent_Type) r.(TraceEvent_TraceID) r.(TraceEvent_TurnID)
    r.(TraceEvent_ConversationID) r.(TraceEvent_Source) r.(TraceEvent_Status)
    r.(TraceEvent_QueueDepth) r.(TraceEvent_Pending) r.(TraceEvent_TaskID)
    r.(TraceEvent_ProviderID) r.(TraceEvent_ModelID) r.(TraceEvent_SnapshotID)
    r.(TraceEvent_Attempt) r.(TraceEvent_DurationMS) r.(TraceEvent_InputTokens)
    r.(TraceEvent_OutputTokens) r.(TraceEvent_CostMicroUSD) r.(TraceEvent_FailureCode)
    r.(TraceEvent_Fallback) r.(TraceEvent_Repair) r.(TraceEvent_Step)
    r.(TraceEvent_PromptVersion) r.(TraceEvent_PromptDigest) r.(TraceEvent_ToolCallID)
    r.(TraceEvent_ToolName) r.(TraceEvent_ToolRisk) r.(TraceEvent_ToolPolicy)
    r.(TraceEvent_ToolStatus) r.(TraceEvent_ToolResultBytes) r.(TraceEvent_GateAction)
    r.(TraceEvent_GateReason) r.(TraceEvent_GateHard) r.(TraceEvent_GateShadow)
    r.(TraceEvent_Content) r.(TraceEvent_Signature) r.(TraceEvent_Redacted)
    r.(TraceEvent_Detail).

(** the literal [TraceEvent{Time: .., Type: .., ..}]: its other fields are zero *)
Definition trace_event (at_ : time) (type traceID turnID conversationID source status : string)
  : TraceEvent :=
  mkTraceEvent at_ type traceID turnID conversationID source status 0 0 "" "" "" "" 0 0 0 0 0 ""
    false false 0 "" "" "" "" "" "" "" 0 "" "" false false "" "" false "".

(** ** Validation *)

Definition validTraceEventType (value : string) : bool :=
  one_of [TraceAdmissionAccepted; TraceAdmissionRejected; TraceIngressDuplicate;
    TraceTurnStarted; TraceTurnCompleted; TraceTurnCancelled; TraceTurnTimedOut;
    TraceModelAttempt; TraceModelReasoning; TracePlannerDecision; TraceReplyerResult;
    TraceToolCall; TraceGateDecision] value.

Definition validTraceStatus (value : string) : bool :=
  one_of ["admitted"; "global_pending_limit"; "conversation_pending_limit"; "ignored";
    "running"; "completed"; "failed"; "user_cancelled"; "deadline_exceeded"; "runtime_cancelled";
    GateTrigger; GateWait; GateIgnore; GateReject] value.

(** the characters hex.DecodeString accepts, two by two *)
Definition is_hex (b : Z) : bool :=
  is_digit b || between_byte "a" "f" b || between_byte "A" "F" b.
Definition hex_decodes (s : string) : bool :=
  forallb is_hex (bytes s) && (Z.of_nat (String.length s) mod 2 =? 0).

Definition validPromptDigest (value : string) : bool :=
  let prefix := "hmac-sha256:" in
  if negb (HasPrefix value prefix) || negb (slen value =? slen prefix + 32 * 2) then false
  else hex_decodes (String.substring (String.length prefix)
                      (String.length value - String.length prefix) value).

Section validation.
Context `{Runtime}.
Implicit Type event : TraceEvent.

Notation is_empty s := (bool_decide (s = "")).

Definition hasTraceDecisionPayload event : bool :=
  negb (is_empty event.(TraceEvent_Content)) || negb (is_empty event.(TraceEvent_Signature))
  || event.(TraceEvent_Redacted) || negb (is_empty event.(TraceEvent_Detail)).

(** groups of conditions that the validators below share *)
Definition no_model event : bool :=
  is_empty event.(TraceEvent_ProviderID) && is_empty event.(TraceEvent_ModelID)
  && is_empty event.(TraceEvent_SnapshotID).
Definition no_usage event : bool :=
  (event.(TraceEvent_InputTokens) =? 0) && (event.(TraceEvent_OutputTokens) =? 0)
  && (event.(TraceEvent_CostMicroUSD) =? 0).
Definition no_prompt event : bool :=
  is_empty event.(TraceEvent_PromptVersion) && is_empty event.(TraceEvent_PromptDigest).
Definition no_tool event : bool :=
  is_empty event.(TraceEvent_ToolCallID) && is_empty event.(TraceEvent_ToolName)
  && is_empty event.(TraceEvent_ToolRisk) && is_empty event.(TraceEvent_ToolPolicy)
  && is_empty event.(TraceEvent_ToolStatus) && (event.(TraceEvent_ToolResultBytes) =? 0).
Definition no_gate event : bool :=
  is_empty event.(TraceEvent_GateAction) && is_empty event.(TraceEvent_GateReason)
  && negb event.(TraceEvent_GateHard) && negb event.(TraceEvent_GateShadow).

Definition validModelReasoningTrace event : bool :=
  if negb (bool_decide (event.(TraceEvent_Status) = "completed"))
     || negb (validTraceLabel event.(TraceEvent_TaskID))
     || negb (validTraceLabel event.(TraceEvent_ProviderID))
     || negb (validTraceLabel event.(TraceEvent_ModelID))
     || negb (validRuntimeID event.(TraceEvent_SnapshotID))
     || (event.(TraceEvent_Attempt) <? 1) || negb (event.(TraceEvent_DurationMS) =? 0)
     || negb (no_usage event) || negb (is_empty event.(TraceEvent_FailureCode))
     || negb (no_tool event) || negb (no_gate event)
     || negb (is_empty event.(TraceEvent_Detail)) then false
  else if event.(TraceEvent_Redacted)
  then is_empty event.(TraceEvent_Content) && negb (is_empty event.(TraceEvent_Signature))
  else negb (is_empty event.(TraceEvent_Content)).

Definition validAgentDecisionTrace event : bool :=
  let wantTask := if bool_decide (event.(TraceEvent_Type) = TraceReplyerResult)
                  then ReplyerTaskID else PlannerTaskID in
  one_of ["completed"; "failed"] event.(TraceEvent_Status)
  && bool_decide (event.(TraceEvent_TaskID) = wantTask)
  && (0 <=? event.(TraceEvent_Step)) && (event.(TraceEvent_Step) <=? maxPlannerSteps)
  && no_model event && (event.(TraceEvent_Attempt) =? 0) && (event.(TraceEvent_DurationMS) =? 0)
  && no_usage event && is_empty event.(TraceEvent_FailureCode) && negb event.(TraceEvent_Fallback)
  && no_prompt event && no_tool event && no_gate event
  && is_empty event.(TraceEvent_Signature) && negb event.(TraceEvent_Redacted).

Definition validGateTrace event : bool :=
  if negb (validGateDecision (mkGateDecision event.(TraceEvent_GateAction)
             event.(TraceEvent_GateReason) event.(TraceEvent_GateHard)
             event.(TraceEvent_GateShadow)))
     || negb (bool_decide (event.(TraceEvent_Status) = event.(TraceEvent_GateAction))) then false
  else (event.(TraceEvent_QueueDepth) =? 0) && (event.(TraceEvent_Pending) =? 0)
    && (event.(TraceEvent_Attempt) =? 0) && (event.(TraceEvent_DurationMS) =? 0)
    && no_usage event && is_empty event.(TraceEvent_FailureCode)
    && negb event.(TraceEvent_Fallback) && negb event.(TraceEvent_Repair)
    && (event.(TraceEvent_Step) =? 0) && no_prompt event
    && is_empty event.(TraceEvent_TaskID) && no_model event && no_tool event
    && negb (hasTraceDecisionPayload event).

Definition validToolTrace event : bool :=
  if negb (validRuntimeID event.(TraceEvent_ToolCallID))
     || negb (validTraceLabel event.(TraceEvent_ToolName))
     || negb (validToolTraceRisk event.(TraceEvent_ToolRisk))
     || negb (validToolTracePolicy event.(TraceEvent_ToolPolicy))
     || negb (validToolTraceStatus event.(TraceEvent_ToolStatus))
     || negb (event.(TraceEvent_Attempt) =? 0) || negb (no_usage event)
     || negb (is_empty event.(TraceEvent_TaskID)) || negb (no_model event)
     || negb (no_prompt event) || event.(TraceEvent_Fallback) || event.(TraceEvent_Repair)
     || negb (no_gate event) || negb (is_empty event.(TraceEvent_Content))
     || negb (is_empty event.(TraceEvent_Signature)) || event.(TraceEvent_Redacted) then false
  else if bool_decide (event.(TraceEvent_Status) = "completed")
  then bool_decide (event.(TraceEvent_ToolStatus) = "completed")
    && bool_decide (event.(TraceEvent_ToolPolicy) = "allowed")
    && is_empty event.(TraceEvent_FailureCode)
  else bool_decide (event.(TraceEvent_Status) = "failed")
    && negb (bool_decide (event.(TraceEvent_ToolStatus) = "completed"))
    && validToolFailureCode event.(TraceEvent_FailureCode).

(** the events of turns and admissions, which carry no details *)
Definition validPlainTrace event : bool :=
  is_empty event.(TraceEvent_TaskID) && no_model event && (event.(TraceEvent_Attempt) =? 0)
  && (event.(TraceEvent_DurationMS) =? 0) && no_usage event
  && is_empty event.(TraceEvent_FailureCode) && negb event.(TraceEvent_Fallback)
  && negb event.(TraceEvent_Repair) && (event.(TraceEvent_Step) =? 0) && no_prompt event
  && no_tool event && no_gate event && negb (hasTraceDecisionPayload event).

Definition validModelTrace event : bool :=
  if negb (validTraceLabel event.(TraceEvent_TaskID))
     || negb (validTraceLabel event.(TraceEvent_ProviderID))
     || negb (validTraceLabel event.(TraceEvent_ModelID))
     || negb (validRuntimeID event.(TraceEvent_SnapshotID))
     || (event.(TraceEvent_Attempt) <? 1) || negb (no_tool event) || negb (no_gate event)
     || hasTraceDecisionPayload event then false
  else if event.(TraceEvent_Repair)
     && (negb (one_of [PlannerTaskID; ReplyerTaskID] event.(TraceEvent_TaskID))
         || (event.(TraceEvent_Step) <? 1)) then false
  else if negb (Bool.eqb (is_empty event.(TraceEvent_PromptVersion))
                         (is_empty event.(TraceEvent_PromptDigest)))
     || negb (is_empty event.(TraceEvent_PromptVersion))
        && (negb (validTraceLabel event.(TraceEvent_PromptVersion))
            || negb (validPromptDigest event.(TraceEvent_PromptDigest))) then false
  else if bool_decide (event.(TraceEvent_Status) = "completed")
  then is_empty event.(TraceEvent_FailureCode)
  else bool_decide (event.(TraceEvent_Status) = "failed")
    && validModelFailureCode event.(TraceEvent_FailureCode).

(** every number of an event is at least 0, and its step a planner step *)
Definition trace_numbers_ok event : bool :=
  negb ((event.(TraceEvent_QueueDepth) <? 0) || (event.(TraceEvent_Pending) <? 0)
    || (event.(TraceEvent_Attempt) <? 0) || (event.(TraceEvent_DurationMS) <? 0)
    || (event.(TraceEvent_InputTokens) <? 0) || (event.(TraceEvent_OutputTokens) <? 0)
    || (event.(TraceEvent_CostMicroUSD) <? 0) || (event.(TraceEvent_Step) <? 0)
    || (maxPlannerSteps <? event.(TraceEvent_Step)) || (event.(TraceEvent_ToolResultBytes) <? 0)).

Definition trace_sizes_ok event : bool :=
  negb ((maxTraceContentBytes <? slen event.(TraceEvent_Content))
    || (maxTraceSignatureBytes <? slen event.(TraceEvent_Signature))
    || (maxTraceDetailBytes <? slen event.(TraceEvent_Detail))
    || negb (is_empty event.(TraceEvent_Detail))
       && bool_decide (json_unmarshal event.(TraceEvent_Detail) = None)).

Definition validTraceEventDetails event : bool :=
  let type l := one_of l event.(TraceEvent_Type) in
  if negb (trace_numbers_ok event) then false
  else if negb (trace_sizes_ok event) then false
  else if type [TraceModelReasoning] then validModelReasoningTrace event
  else if type [TracePlannerDecision; TraceReplyerResult] then validAgentDecisionTrace event
  else if type [TraceGateDecision] then validGateTrace event
  else if type [TraceToolCall] then validToolTrace event
  else if negb (type [TraceModelAttempt]) then validPlainTrace event
  else validModelTrace event.

(** the guard of Append *)
Definition validTraceEvent event : bool :=
  validTraceEventType event.(TraceEvent_Type) && validTraceLabel event.(TraceEvent_Source)
  && validTraceStatus event.(TraceEvent_Status) && validRuntimeID event.(TraceEvent_TraceID)
  && (is_empty event.(TraceEvent_TurnID) || validRuntimeID event.(TraceEvent_TurnID))
  && validTraceEventDetails event.
End validation.

(** ** Payloads *)

(** the [omitempty] of encoding/json: false, 0 and the empty string are left out *)
Definition zero_json (v : json) : bool :=
  match v with
  | JStr s => bool_decide (s = "")
  | JNum n => num_m n =? 0
  | JBool b => negb b
  | _ => false
  end.
Definition omitempty (fields : list (string * json)) : list (string * json) :=
  filter (fun kv => zero_json kv.2 = false) fields.

(** the struct literal of Append, with its tags; [Detail] is raw JSON *)
Definition payload_fields (event : TraceEvent) : list (string * json) :=
  [("source", JStr event.(TraceEvent_Source)); ("status", JStr event.(TraceEvent_Status));
   ("queue_depth", jint event.(TraceEvent_QueueDepth)); ("pending", jint event.(TraceEvent_Pending));
   ("gen_ai.operation.name", JStr event.(TraceEvent_TaskID));
   ("gen_ai.provider.name", JStr event.(TraceEvent_ProviderID));
   ("gen_ai.request.model", JStr event.(TraceEvent_ModelID));
   ("fairy.config.snapshot_id", JStr event.(TraceEvent_SnapshotID));
   ("fairy.model.attempt", jint event.(TraceEvent_Attempt));
   ("fairy.duration_ms", jint event.(TraceEvent_DurationMS));
   ("gen_ai.usage.input_tokens", jint event.(TraceEvent_InputTokens));
   ("gen_ai.usage.output_tokens", jint event.(TraceEvent_OutputTokens));
   ("fairy.cost_microusd", jint event.(TraceEvent_CostMicroUSD));
   ("error.type", JStr event.(TraceEvent_FailureCode));
   ("fairy.model.fallback", JBool event.(TraceEvent_Fallback));
   ("fairy.model.repair", JBool event.(TraceEvent_Repair));
   ("fairy.step", jint event.(TraceEvent_Step));
   ("fairy.prompt.version", JStr event.(TraceEvent_PromptVersion));
   ("fairy.prompt.digest", JStr event.(TraceEvent_PromptDigest));
   ("gen_ai.tool.call.id", JStr event.(TraceEvent_ToolCallID));
   ("gen_ai.tool.name", JStr event.(TraceEvent_ToolName));
   ("fairy.tool.risk", JStr event.(TraceEvent_ToolRisk));
   ("fairy.tool.policy", JStr event.(TraceEvent_ToolPolicy));
   ("fairy.tool.status", JStr event.(TraceEvent_ToolStatus));
   ("fairy.tool.result_bytes", jint event.(TraceEvent_ToolResultBytes));
   ("fairy.gate.action", JStr event.(TraceEvent_GateAction));
   ("fairy.gate.reason", JStr event.(TraceEvent_GateReason));
   ("fairy.gate.hard", JBool event.(TraceEvent_GateHard));
   ("fairy.gate.shadow", JBool event.(TraceEvent_GateShadow));
   ("fairy.content", JStr event.(TraceEvent_Content));
   ("fairy.signature", JStr event.(TraceEvent_Signature));
   ("fairy.redacted", JBool event.(TraceEvent_Redacted))].

(** json.Marshal of that struct; it fails on a [Detail] that is not JSON *)
Definition trace_payload `{Runtime} (event : TraceEvent) : option (gmap string json) :=
  let fields := omitempty (payload_fields event) in
  if bool_decide (event.(TraceEvent_Detail) = "") then Some (list_to_map fields)
  else (fun v => list_to_map (("fairy.detail", v) :: fields))
         <$> json_unmarshal event.(TraceEvent_Detail).

(** ** The database *)

Record ingress_row := mkIngressRow { received_at : Z; ingress_expires_at : Z; ingress_status : string }.
Record trace_row := mkTraceRow {
  row_seq : Z; row_time_ms : Z; row_type : string; row_trace_id : string; row_turn_id : string;
  row_conversation_ref : string; row_payload_json : gmap string json }.
Record output_row := mkOutputRow { output_turn_id : string; output_created_at : Z; output_expires_at : Z }.
Record rating_row := mkRatingRow { rating_label : string; rated_at : Z }.

Record TraceDB := mkTraceDB {
  fairy_ingress_events : gmap (string * string) ingress_row;
  fairy_trace_events : list trace_row;
  fairy_feedback_outputs : gmap string output_row;
  fairy_feedback_ratings : gmap (string * string) rating_row;
  next_seq : Z;
  trace_key : string; retention : Z; nextCleanupAt : time }.
#[export] Instance eta_TraceDB : Eta TraceDB := fun r => mkTraceDB
  r.(fairy_ingress_events) r.(fairy_trace_events) r.(fairy_feedback_outputs)
  r.(fairy_feedback_ratings) r.(next_seq) r.(trace_key) r.(retention) r.(nextCleanupAt).

(** the database a process finds at its first start *)
Definition empty_trace_db (key : string) : TraceDB :=
  mkTraceDB ∅ [] ∅ ∅ 1 key defaultIngressRetention zero_time.

Inductive trace_stmt :=
| PruneIngress | PruneEvents | PruneOutputs | BeginClaim | RemoveExpired | InsertClaim | CommitClaim
| InsertEvent | InsertOutput | FindOutput | BeginFeedback | WriteRating | CommitFeedback
| DeleteOutput | QueryEvents | QueryRatings.
Definition faults := trace_stmt -> option string.
Definition no_faults : faults := fun _ => None.

(** run a statement, or stop with the wrapped error of the driver *)
Definition exec {stmt DB A} (fault : stmt -> option string) (st : stmt) (what : string) (db : DB)
    (next : result A * DB) : result A * DB :=
  match fault st with
  | Some err => (Err (what +:+ ": " +:+ err), db)
  | None => next
  end.
Lemma exec_inv {stmt DB A} (I : DB -> Prop) (fault : stmt -> option string) st what (db : DB)
    (next : result A * DB) :
  I db -> I next.2 -> I (exec fault st what db next).2.
Proof. unfold exec. by destruct (fault st). Qed.

Definition delete_expired_claims (now : time) (db : TraceDB) : TraceDB :=
  db <| fairy_ingress_events ::= filter (fun kv => UnixMilli now < kv.2.(ingress_expires_at)) |>.
Definition delete_old_events (before : time) (db : TraceDB) : TraceDB :=
  db <| fairy_trace_events ::= filter (fun r => UnixMilli before < r.(row_time_ms)) |>.
(** deleting an output deletes its ratings (ON DELETE CASCADE) *)
Definition cascade_ratings (db : TraceDB) : TraceDB :=
  db <| fairy_feedback_ratings ::=
    filter (fun kv => is_Some (db.(fairy_feedback_outputs) !! kv.1.1)) |>.
Definition delete_expired_outputs (now : time) (db : TraceDB) : TraceDB :=
  cascade_ratings
    (db <| fairy_feedback_outputs ::= filter (fun kv => UnixMilli now < kv.2.(output_expires_at)) |>).

(** the three deletions, each a statement of its own *)
Definition prune_tables (fault : faults) (now : time) (db : TraceDB) : result unit * TraceDB :=
  exec fault PruneIngress "prune expired Fairy ingress events" db
  (let db := delete_expired_claims now db in
   exec fault PruneEvents "prune expired Fairy trace events" db
   (let db := delete_old_events (now - db.(retention)) db in
    exec fault PruneOutputs "prune expired Fairy feedback outputs" db
    (let db := delete_expired_outputs now db in
     (Ok tt, db <| nextCleanupAt := now + hour |>)))).

Definition pruneIfDue (fault : faults) (now : time) (db : TraceDB) : result unit * TraceDB :=
  if Before now db.(nextCleanupAt) then (Ok tt, db) else prune_tables fault now db.

(** the start of a process: the same deletions at the wall clock *)
Definition initialize (fault : faults) (wall : time) (db : TraceDB) : result unit * TraceDB :=
  prune_tables fault wall db.

(** ** Ingress claims *)

(** DELETE ... WHERE source = ? AND event_id = ? AND expires_at <= ? *)
Definition remove_expired (key : string * string) (at_ : time)
    (rows : gmap (string * string) ingress_row) : gmap (string * string) ingress_row :=
  match rows !! key with
  | Some row => if row.(ingress_expires_at) <=? UnixMilli at_ then delete key rows else rows
  | None => rows
  end.
(** INSERT OR IGNORE, and whether it inserted a row *)
Definition insert_or_ignore (key : string * string) (row : ingress_row)
    (rows : gmap (string * string) ingress_row) : bool * gmap (string * string) ingress_row :=
  match rows !! key with Some _ => (false, rows) | None => (true, <[key := row]> rows) end.

Definition ClaimIngress (fault : faults) (wall : time) (source eventID : string) (at_ : time)
    (db : TraceDB) : result bool * TraceDB :=
  if negb (validTraceLabel source) || bool_decide (eventID = "") || (1024 <? slen eventID)
  then (Err "Fairy ingress source and event ID are required", db)
  else
    let at_ := if IsZero at_ then wall else at_ in
    match pruneIfDue fault at_ db with
    | (Err err, db) => (Err err, db)
    | (Ok _, db) =>
        exec fault BeginClaim "begin Fairy ingress claim" db
        (exec fault RemoveExpired "remove expired Fairy ingress claim" db
         (let rows := remove_expired (source, eventID) at_ db.(fairy_ingress_events) in
          exec fault InsertClaim "claim Fairy ingress event" db
          (let '(claimed, rows) := insert_or_ignore (source, eventID)
             (mkIngressRow (UnixMilli at_) (UnixMilli (at_ + db.(retention))) "admitted") rows in
           exec fault CommitClaim "commit Fairy ingress claim" db
           (Ok claimed, db <| fairy_ingress_events := rows |>))))
    end.

(** ** Appending events *)

Section append.
Context `{Runtime}.

Definition conversationRef (conversationID : string) (db : TraceDB) : string :=
  if bool_decide (conversationID = "") then ""
  else "hmac-sha256:" +:+ EncodeToString (hmac_sha256 db.(trace_key) conversationID).

Definition DigestPrompt (content : string) (db : TraceDB) : string :=
  "hmac-sha256:" +:+ EncodeToString (hmac_sha256 db.(trace_key) content).

Definition Append (fault : faults) (wall : time) (event : TraceEvent) (db : TraceDB)
  : result unit * TraceDB :=
  if negb (validTraceEvent event) then (Err "invalid Fairy trace event metadata", db)
  else
    let at_ := if IsZero event.(TraceEvent_Time) then wall else event.(TraceEvent_Time) in
    match trace_payload event with
    | None => (Err "encode Fairy trace payload", db)
    | Some payload =>
        exec fault InsertEvent "append Fairy trace event" db
        (let row := mkTraceRow db.(next_seq) (UnixMilli at_) event.(TraceEvent_Type)
           event.(TraceEvent_TraceID) event.(TraceEvent_TurnID)
           (conversationRef event.(TraceEvent_ConversationID) db) payload in
         (Ok tt, db <| fairy_trace_events ::= fun l => l ++ [row] |> <| next_seq ::= Z.succ |>))
    end.
End append.

(** ** Feedback on replies (feedback.go, feedback_store.go)

    A reply is registered under a digest of its message id; users rate it with two
    reactions.  The tables are those of [TraceDB]. *)

Definition FairyPositiveReactionID := "76".
Definition FairyNegativeReactionID := "fairy-negative".
Definition FeedbackPositive := "positive".
Definition FeedbackNegative := "negative".

Definition feedbackLabelForReaction (emojiID : string) : option string :=
  if bool_decide (emojiID = FairyPositiveReactionID) then Some FeedbackPositive
  else if bool_decide (emojiID = FairyNegativeReactionID) then Some FeedbackNegative
  else None.

Definition validFeedbackLabel (label : string) : bool :=
  one_of [FeedbackPositive; FeedbackNegative] label.

Definition validFeedbackSourceID (value : string) (maxBytes : Z) : bool :=
  negb (bool_decide (value = "")) && (slen value <=? maxBytes).

Section feedback.
Context `{Runtime}.

Definition feedbackRef (domain value : string) (db : TraceDB) : string :=
  "hmac-sha256:" +:+ EncodeToString (hmac_sha256 db.(trace_key) (domain +:+ NUL +:+ value)).
Definition feedbackMessageRef (messageID : string) (db : TraceDB) : string :=
  feedbackRef "fairy-feedback-message:v1" messageID db.
Definition feedbackActorRef (messageRef actorID : string) (db : TraceDB) : string :=
  feedbackRef "fairy-feedback-actor:v1" (messageRef +:+ NUL +:+ actorID) db.

Definition RegisterFeedbackOutput (fault : faults) (wall : time) (messageID turnID : string)
    (at_ : time) (db : TraceDB) : result unit * TraceDB :=
  if negb (validFeedbackSourceID messageID 1024) || negb (validRuntimeID turnID)
  then (Err "invalid Fairy feedback output metadata", db)
  else
    let at_ := if IsZero at_ then wall else at_ in
    match pruneIfDue fault at_ db with
    | (Err err, db) => (Err err, db)
    | (Ok _, db) =>
        exec fault InsertOutput "register Fairy feedback output" db
        (let ref := feedbackMessageRef messageID db in
         match db.(fairy_feedback_outputs) !! ref with
         | Some _ => (Ok tt, db)
         | None => (Ok tt, db <| fairy_feedback_outputs ::=
             <[ref := mkOutputRow turnID (UnixMilli at_) (UnixMilli (at_ + db.(retention)))]> |>)
         end)
    end.

(** SELECT 1 ... WHERE message_ref = ? AND expires_at > ? *)
Definition live_output (ref : string) (now : time) (db : TraceDB) : bool :=
  from_option (fun row => UnixMilli now <? row.(output_expires_at)) false
    (db.(fairy_feedback_outputs) !! ref).

Definition FeedbackOutputExists (fault : faults) (wall : time) (messageID : string) (db : TraceDB)
  : result bool :=
  if negb (validFeedbackSourceID messageID 1024)
  then Err "invalid Fairy feedback output metadata"
  else match fault FindOutput with
       | Some err => Err ("find Fairy feedback output: " +:+ err)
       | None => Ok (live_output (feedbackMessageRef messageID db) wall db)
       end.

(** the statement on the ratings, and the number of rows it affects *)
Definition write_rating (removed : bool) (messageRef actorRef label : string) (at_ : time)
    (ratings : gmap (string * string) rating_row) : Z * gmap (string * string) rating_row :=
  if removed then
    match ratings !! (messageRef, actorRef) with
    | Some row => if bool_decide (row.(rating_label) = label)
                  then (1, delete (messageRef, actorRef) ratings) else (0, ratings)
    | None => (0, ratings)
    end
  else (1, <[(messageRef, actorRef) := mkRatingRow label (UnixMilli at_)]> ratings).

Definition ApplyFeedback (fault : faults) (wall : time) (messageID actorID label : string)
    (removed : bool) (at_ : time) (db : TraceDB) : result bool * TraceDB :=
  if negb (validFeedbackSourceID messageID 1024) || negb (validFeedbackSourceID actorID 256)
     || negb (validFeedbackLabel label)
  then (Err "invalid Fairy feedback metadata", db)
  else
    let at_ := if IsZero at_ then wall else at_ in
    match pruneIfDue fault at_ db with
    | (Err err, db) => (Err err, db)
    | (Ok _, db) =>
        let messageRef := feedbackMessageRef messageID db in
        let actorRef := feedbackActorRef messageRef actorID db in
        exec fault BeginFeedback "begin Fairy feedback update" db
        (exec fault FindOutput "find Fairy feedback output" db
         (if negb (live_output messageRef at_ db) then (Ok false, db)
          else exec fault WriteRating "apply Fairy feedback" db
            (let '(rows, ratings) :=
               write_rating removed messageRef actorRef label at_ db.(fairy_feedback_ratings) in
             exec fault CommitFeedback "commit Fairy feedback update" db
             (Ok (0 <? rows), db <| fairy_feedback_ratings := ratings |>))))
    end.

Definition DeleteFeedbackOutput (fault : faults) (messageID : string) (db : TraceDB)
  : result bool * TraceDB :=
  if negb (validFeedbackSourceID messageID 1024)
  then (Err "invalid Fairy feedback output metadata", db)
  else
    exec fault DeleteOutput "delete Fairy feedback output" db
    (let ref := feedbackMessageRef messageID db in
     (Ok (bool_decide (is_Some (db.(fairy_feedback_outputs) !! ref))),
      cascade_ratings (db <| fairy_feedback_outputs ::= delete ref |>))).

Record FeedbackRuntimeStats := mkFeedbackRuntimeStats {
  WindowHours : Z; RatedOutputs : Z; Positive : Z; Negative : Z;
  PositiveRate : float64 }.

(** the join: ratings of the window whose output has not expired *)
Definition counted_ratings (since now : time) (db : TraceDB) : gmap (string * string) rating_row :=
  filter (fun kv => UnixMilli since <= kv.2.(rated_at) /\ live_output kv.1.1 now db = true)
    db.(fairy_feedback_ratings).

Definition labelled (label : string) (m : gmap (string * string) rating_row) : Z :=
  map_total (fun _ row => if bool_decide (row.(rating_label) = label) then 1 else 0) m.

Definition FeedbackStats (fault : faults) (wall since : time) (db : TraceDB)
  : result FeedbackRuntimeStats * TraceDB :=
  let since := if IsZero since then wall - 24 * hour else since in
  match pruneIfDue fault wall db with
  | (Err err, db) => (Err err, db)
  | (Ok _, db) =>
      exec fault QueryRatings "query Fairy feedback stats" db
      (let rows := counted_ratings since wall db in
       let positive := labelled FeedbackPositive rows in
       let negative := labelled FeedbackNegative rows in
       let total := positive + negative in
       (Ok (mkFeedbackRuntimeStats 24 (Z.of_nat (size (set_map fst (dom rows) : gset string)))
              positive negative
              (if 0 <? total then f_div (f_of_Z positive) (f_of_Z total) else f_zero)), db))
  end.
End feedback.
