(* ===== verification/FairyStats.v ===== *)
(** * Reading the trace store (fairy/trace_store.go RuntimeStats, fairy/trace_decision.go)

    The counters of the administration page and the decision chains are rebuilt from the
    payloads that Append wrote; a row that does not validate makes the whole reading
    fail. *)
From S2P Require Import Prelude GoLib Types MemoryState Float64 FairyTypes FairyTrace.
From stdpp Require Import gmap strings list.
From Stdlib Require Import ZArith SpecFloat.

Local Open Scope Z_scope.
Local Open Scope go_scope.

(** ** Decoding payloads *)

(** a field of a struct: absent or null is the zero value, another type an error *)
Definition read_str (m : gmap string json) (k : string) : option string :=
  match m !! k with
  | None | Some JNull => Some "" | Some (JStr s) => Some s | Some _ => None
  end.
Definition read_int (m : gmap string json) (k : string) : option Z :=
  match m !! k with
  | None | Some JNull => Some 0
  | Some (JNum n) => let z := num_trunc n in if num_eqb n (num_of_Z z) then Some z else None
  | Some _ => None
  end.
Definition read_bool (m : gmap string json) (k : string) : option bool :=
  match m !! k with
  | None | Some JNull => Some false | Some (JBool b) => Some b | Some _ => None
  end.

Record traceRuntimeStatsPayload := mkPayload {
  payload_Status : string; payload_QueueDepth : Z; payload_Pending : Z; payload_TaskID : string;
  payload_ProviderID : string; payload_ModelID : string; payload_Attempt : Z;
  payload_DurationMS : Z; payload_InputTokens : Z; payload_OutputTokens : Z;
  payload_CostMicroUSD : Z; payload_FailureCode : string; payload_Fallback : bool;
  payload_Repair : bool; payload_Step : Z; payload_ToolName : string; payload_ToolRisk : string;
  payload_ToolPolicy : string; payload_ToolStatus : string; payload_ToolResultBytes : Z;
  payload_GateAction : string; payload_GateReason : string }.
#[export] Instance eta_traceRuntimeStatsPayload : Eta traceRuntimeStatsPayload := fun r => mkPayload
    r.(payload_Status) r.(payload_QueueDepth) r.(payload_Pending) r.(payload_TaskID)
    r.(payload_ProviderID) r.(payload_ModelID) r.(payload_Attempt) r.(payload_DurationMS)
    r.(payload_InputTokens) r.(payload_OutputTokens) r.(payload_CostMicroUSD)
    r.(payload_FailureCode) r.(payload_Fallback) r.(payload_Repair) r.(payload_Step)
    r.(payload_ToolName) r.(payload_ToolRisk) r.(payload_ToolPolicy) r.(payload_ToolStatus)
    r.(payload_ToolResultBytes) r.(payload_GateAction) r.(payload_GateReason).

Definition decode_stats_payload (m : gmap string json) : option traceRuntimeStatsPayload :=
  status ← read_str m "status"; queue ← read_int m "queue_depth"; pending ← read_int m "pending";
  task ← read_str m "gen_ai.operation.name"; provider ← read_str m "gen_ai.provider.name";
  model ← read_str m "gen_ai.request.model"; attempt ← read_int m "fairy.model.attempt";
  duration ← read_int m "fairy.duration_ms"; input ← read_int m "gen_ai.usage.input_tokens";
  output ← read_int m "gen_ai.usage.output_tokens"; cost ← read_int m "fairy.cost_microusd";
  failure ← read_str m "error.type"; fallback ← read_bool m "fairy.model.fallback";
  repair ← read_bool m "fairy.model.repair"; step ← read_int m "fairy.step";
  tool ← read_str m "gen_ai.tool.name"; risk ← read_str m "fairy.tool.risk";
  policy ← read_str m "fairy.tool.policy"; tool_status ← read_str m "fairy.tool.status";
  bytes ← read_int m "fairy.tool.result_bytes"; action ← read_str m "fairy.gate.action";
  reason ← read_str m "fairy.gate.reason";
  Some (mkPayload status queue pending task provider model attempt duration input output cost
          failure fallback repair step tool risk policy tool_status bytes action reason).

(** ** Validation *)

Section payloads.
Implicit Type payload : traceRuntimeStatsPayload.
Notation is_empty s := (bool_decide (s = "")).
Notation completed payload := (bool_decide (payload.(payload_Status) = "completed")).

Definition validTraceModelHealthPayload payload : bool :=
  if negb (validTraceLabel payload.(payload_TaskID))
     || negb (validTraceLabel payload.(payload_ProviderID))
     || negb (validTraceLabel payload.(payload_ModelID))
     || (payload.(payload_Attempt) <? 1) || (payload.(payload_Step) <? 0)
     || (maxPlannerSteps <? payload.(payload_Step)) || (payload.(payload_DurationMS) <? 0)
     || (payload.(payload_InputTokens) <? 0) || (payload.(payload_OutputTokens) <? 0)
     || (payload.(payload_CostMicroUSD) <? 0) then false
  else if payload.(payload_Repair)
     && (negb (one_of [PlannerTaskID; ReplyerTaskID] payload.(payload_TaskID))
         || (payload.(payload_Step) <? 1)) then false
  else if completed payload then is_empty payload.(payload_FailureCode)
  else bool_decide (payload.(payload_Status) = "failed")
    && validModelFailureCode payload.(payload_FailureCode).

Definition validTraceToolRuntimePayload payload : bool :=
  if negb (validTraceLabel payload.(payload_ToolName))
     || negb (validToolTraceRisk payload.(payload_ToolRisk))
     || negb (validToolTracePolicy payload.(payload_ToolPolicy))
     || negb (validToolTraceStatus payload.(payload_ToolStatus))
     || (payload.(payload_Step) <? 0) || (maxPlannerSteps <? payload.(payload_Step))
     || (payload.(payload_DurationMS) <? 0) || (payload.(payload_ToolResultBytes) <? 0) then false
  else if completed payload
  then bool_decide (payload.(payload_ToolStatus) = "completed")
    && bool_decide (payload.(payload_ToolPolicy) = "allowed")
    && is_empty payload.(payload_FailureCode)
  else bool_decide (payload.(payload_Status) = "failed")
    && negb (bool_decide (payload.(payload_ToolStatus) = "completed"))
    && validToolFailureCode payload.(payload_FailureCode).

Definition validTraceAdmissionFailurePayload payload : bool :=
  one_of ["global_pending_limit"; "conversation_pending_limit"] payload.(payload_Status)
  && (0 <=? payload.(payload_QueueDepth)) && (0 <=? payload.(payload_Pending)).

Definition validTraceTurnFailurePayload payload : bool :=
  bool_decide (payload.(payload_Status) = "deadline_exceeded").
End payloads.

(** ** Statistics *)

Definition maxRecentTraceFailures : nat := 20.

Record TraceModelHealthStats := mkHealth {
  health_TaskID : string; health_ProviderID : string; health_ModelID : string;
  health_Attempts : Z; health_Completed : Z; health_Failed : Z; health_FallbackAttempts : Z;
  health_RepairAttempts : Z; health_P50Millis : Z; health_P95Millis : Z; health_InputTokens : Z;
  health_OutputTokens : Z; health_CostMicroUSD : Z; health_FailureCodes : gmap string Z }.
#[export] Instance eta_TraceModelHealthStats : Eta TraceModelHealthStats := fun r => mkHealth
    r.(health_TaskID) r.(health_ProviderID) r.(health_ModelID) r.(health_Attempts)
    r.(health_Completed) r.(health_Failed) r.(health_FallbackAttempts) r.(health_RepairAttempts)
    r.(health_P50Millis) r.(health_P95Millis) r.(health_InputTokens) r.(health_OutputTokens)
    r.(health_CostMicroUSD) r.(health_FailureCodes).

Record TraceRecentFailure := mkFailure {
  failure_OccurredAt : time; failure_Kind : string; failure_Code : string;
  failure_TaskID : string; failure_ProviderID : string; failure_ModelID : string;
  failure_ToolName : string; failure_ToolStatus : string; failure_DurationMS : Z;
  failure_Attempt : Z; failure_Step : Z; failure_Fallback : bool; failure_Repair : bool;
  failure_QueueDepth : Z; failure_PendingTurns : Z }.
#[export] Instance eta_TraceRecentFailure : Eta TraceRecentFailure := fun r => mkFailure
    r.(failure_OccurredAt) r.(failure_Kind) r.(failure_Code) r.(failure_TaskID)
    r.(failure_ProviderID) r.(failure_ModelID) r.(failure_ToolName) r.(failure_ToolStatus)
    r.(failure_DurationMS) r.(failure_Attempt) r.(failure_Step) r.(failure_Fallback)
    r.(failure_Repair) r.(failure_QueueDepth) r.(failure_PendingTurns).

Record TraceRuntimeStats := mkStats {
  stats_WindowHours : Z; stats_ModelAttempts : Z; stats_ModelCompleted : Z;
  stats_ModelFailed : Z; stats_ModelHealth : list TraceModelHealthStats; stats_ToolCalls : Z;
  stats_ToolCompleted : Z; stats_ToolFailed : Z; stats_GateDecisions : Z;
  stats_GateActions : gmap string Z; stats_GateReasons : gmap string Z; stats_InputTokens : Z;
  stats_OutputTokens : Z; stats_CostMicroUSD : Z;
  stats_RecentFailures : list TraceRecentFailure }.
#[export] Instance eta_TraceRuntimeStats : Eta TraceRuntimeStats := fun r => mkStats
    r.(stats_WindowHours) r.(stats_ModelAttempts) r.(stats_ModelCompleted) r.(stats_ModelFailed)
    r.(stats_ModelHealth) r.(stats_ToolCalls) r.(stats_ToolCompleted) r.(stats_ToolFailed)
    r.(stats_GateDecisions) r.(stats_GateActions) r.(stats_GateReasons) r.(stats_InputTokens)
    r.(stats_OutputTokens) r.(stats_CostMicroUSD) r.(stats_RecentFailures).

(** the failure of one event *)
Definition recent_failure (timeMS : Z) (eventType : string) (p : traceRuntimeStatsPayload)
  : option TraceRecentFailure :=
  let failure := mkFailure (timeMS * 1000000) "" "" "" "" "" "" "" 0 0 0 false false 0 0 in
  if bool_decide (eventType = TraceModelAttempt) then
    Some (mkFailure (timeMS * 1000000) "model" p.(payload_FailureCode) p.(payload_TaskID)
            p.(payload_ProviderID) p.(payload_ModelID) "" "" p.(payload_DurationMS)
            p.(payload_Attempt) p.(payload_Step) p.(payload_Fallback) p.(payload_Repair) 0 0)
  else if bool_decide (eventType = TraceToolCall) then
    Some (failure <| failure_Kind := "tool" |> <| failure_Code := p.(payload_FailureCode) |>
            <| failure_ToolName := p.(payload_ToolName) |>
            <| failure_ToolStatus := p.(payload_ToolStatus) |>
            <| failure_DurationMS := p.(payload_DurationMS) |>
            <| failure_Step := p.(payload_Step) |>)
  else if bool_decide (eventType = TraceAdmissionRejected) then
    Some (failure <| failure_Kind := "admission" |> <| failure_Code := p.(payload_Status) |>
            <| failure_QueueDepth := p.(payload_QueueDepth) |>
            <| failure_PendingTurns := p.(payload_Pending) |>)
  else if bool_decide (eventType = TraceTurnTimedOut) then
    Some (failure <| failure_Kind := "turn" |> <| failure_Code := p.(payload_Status) |>)
  else None.

Definition appendTraceRecentFailure (stats : TraceRuntimeStats) (timeMS : Z) (eventType : string)
    (p : traceRuntimeStatsPayload) : TraceRuntimeStats :=
  if bool_decide (maxRecentTraceFailures <= length stats.(stats_RecentFailures))%nat then stats
  else match recent_failure timeMS eventType p with
       | Some failure => stats <| stats_RecentFailures ::= fun l => l ++ [failure] |>
       | None => stats
       end.

Record accumulator := mkAccumulator { acc_stats : TraceModelHealthStats; durations : list Z }.
#[export] Instance eta_accumulator : Eta accumulator :=
  fun r => mkAccumulator r.(acc_stats) r.(durations).
Notation health_groups := (gmap (string * string * string) accumulator).

(** [m[key]++] *)
Definition increment (key : string) (m : gmap string Z) : gmap string Z :=
  <[key := default 0 (m !! key) + 1]> m.

Definition recordTraceModelHealth (groups : health_groups) (p : traceRuntimeStatsPayload)
  : health_groups :=
  let key := (p.(payload_TaskID), p.(payload_ProviderID), p.(payload_ModelID)) in
  let group := default
    (mkAccumulator (mkHealth p.(payload_TaskID) p.(payload_ProviderID) p.(payload_ModelID)
       0 0 0 0 0 0 0 0 0 0 ∅) []) (groups !! key) in
  let h := group.(acc_stats) in
  let h := h <| health_Attempts ::= Z.succ |>
             <| health_InputTokens ::= Z.add p.(payload_InputTokens) |>
             <| health_OutputTokens ::= Z.add p.(payload_OutputTokens) |>
             <| health_CostMicroUSD ::= Z.add p.(payload_CostMicroUSD) |> in
  let h := if p.(payload_Fallback) then h <| health_FallbackAttempts ::= Z.succ |> else h in
  let h := if p.(payload_Repair) then h <| health_RepairAttempts ::= Z.succ |> else h in
  let h := if bool_decide (p.(payload_Status) = "completed")
           then h <| health_Completed ::= Z.succ |>
           else h <| health_Failed ::= Z.succ |>
                  <| health_FailureCodes ::= increment p.(payload_FailureCode) |> in
  <[key := mkAccumulator h (group.(durations) ++ [p.(payload_DurationMS)])]> groups.

(** [int(f)]: truncation toward zero *)
Definition f_to_int (x : float64) : Z :=
  match x with
  | S754_finite s m e => num_trunc (Num (if s then Z.neg m else Z.pos m) e)
  | S754_zero _ => 0
  | _ => - 2 ^ 63
  end.
Definition f_half : float64 := binary_normalize 53 1024 1 (-1) false.
(** the constant 0.95 *)
Definition f_095 : float64 := binary_normalize 53 1024 8556839292003942 (-53) false.

Definition percentileTraceMillis (values : list Z) (percentile : float64) : Z :=
  if bool_decide (values = []) then 0
  else
    let n := Z.of_nat (length values) in
    let index := f_to_int (f_add (f_mul (f_of_Z (n - 1)) percentile) f_half) in
    let index := if index <? 0 then 0 else index in
    let index := if n <=? index then n - 1 else index in
    default 0 (values !! Z.to_nat index).

Definition health_less (a b : TraceModelHealthStats) : bool :=
  if negb (bool_decide (a.(health_TaskID) = b.(health_TaskID)))
  then string_less a.(health_TaskID) b.(health_TaskID)
  else if negb (bool_decide (a.(health_ProviderID) = b.(health_ProviderID)))
  then string_less a.(health_ProviderID) b.(health_ProviderID)
  else string_less a.(health_ModelID) b.(health_ModelID).

Definition finalizeTraceModelHealth (groups : health_groups) : list TraceModelHealthStats :=
  sort_slice health_less
    ((fun kv : (string * string * string) * accumulator =>
        let d := sort_slice Z.ltb kv.2.(durations) in
        kv.2.(acc_stats) <| health_P50Millis := percentileTraceMillis d f_half |>
                         <| health_P95Millis := percentileTraceMillis d f_095 |>)
     <$> map_to_list groups).

(** the body of the loop over the rows *)
Definition stats_row (row : trace_row) (st : TraceRuntimeStats * health_groups)
  : result (TraceRuntimeStats * health_groups) :=
  let '(stats, groups) := st in
  let type t := bool_decide (row.(row_type) = t) in
  let failed p := appendTraceRecentFailure stats row.(row_time_ms) row.(row_type) p in
  match decode_stats_payload row.(row_payload_json) with
  | None => Err "decode Fairy runtime trace stats"
  | Some p =>
      let completed := bool_decide (p.(payload_Status) = "completed") in
      if type TraceModelAttempt then
        if negb (validTraceModelHealthPayload p)
        then Err "invalid Fairy model metadata in trace store"
        else
          let stats := stats <| stats_ModelAttempts ::= Z.succ |>
            <| stats_InputTokens ::= Z.add p.(payload_InputTokens) |>
            <| stats_OutputTokens ::= Z.add p.(payload_OutputTokens) |>
            <| stats_CostMicroUSD ::= Z.add p.(payload_CostMicroUSD) |> in
          let stats := if completed then stats <| stats_ModelCompleted ::= Z.succ |>
                       else stats <| stats_ModelFailed ::= Z.succ |> in
          Ok (if bool_decide (p.(payload_Status) = "failed")
              then appendTraceRecentFailure stats row.(row_time_ms) TraceModelAttempt p else stats,
              recordTraceModelHealth groups p)
      else if type TraceToolCall then
        if negb (validTraceToolRuntimePayload p)
        then Err "invalid Fairy tool metadata in trace store"
        else
          let stats := stats <| stats_ToolCalls ::= Z.succ |> in
          Ok (if completed then stats <| stats_ToolCompleted ::= Z.succ |>
              else appendTraceRecentFailure (stats <| stats_ToolFailed ::= Z.succ |>)
                     row.(row_time_ms) TraceToolCall p, groups)
      else if type TraceGateDecision then
        if negb (validGateAction p.(payload_GateAction)) || negb (validGateReason p.(payload_GateReason))
        then Err "invalid Fairy gate metadata in trace store"
        else Ok (stats <| stats_GateDecisions ::= Z.succ |>
                   <| stats_GateActions ::= increment p.(payload_GateAction) |>
                   <| stats_GateReasons ::= increment p.(payload_GateReason) |>, groups)
      else if type TraceAdmissionRejected then
        if negb (validTraceAdmissionFailurePayload p)
        then Err "invalid Fairy admission metadata in trace store" else Ok (failed p, groups)
      else if type TraceTurnTimedOut then
        if negb (validTraceTurnFailurePayload p)
        then Err "invalid Fairy turn metadata in trace store" else Ok (failed p, groups)
      else Ok (stats, groups)
  end.

Fixpoint stats_rows (rows : list trace_row) (st : TraceRuntimeStats * health_groups)
  : result (TraceRuntimeStats * health_groups) :=
  match rows with
  | [] => Ok st
  | row :: rows => match stats_row row st with Ok st => stats_rows rows st | Err err => Err err end
  end.

(** ORDER BY time_ms DESC, seq DESC *)
Definition newer_row (a b : trace_row) : bool :=
  if Z.eqb a.(row_time_ms) b.(row_time_ms) then b.(row_seq) <? a.(row_seq)
  else b.(row_time_ms) <? a.(row_time_ms).

Definition stats_query (since : time) (db : TraceDB) : list trace_row :=
  sort_slice newer_row
    (filter (fun r => UnixMilli since <= r.(row_time_ms)
               /\ r.(row_type) ∈ [TraceModelAttempt; TraceToolCall; TraceGateDecision;
                                  TraceAdmissionRejected; TraceTurnTimedOut])
       db.(fairy_trace_events)).

Definition no_stats : TraceRuntimeStats := mkStats 24 0 0 0 [] 0 0 0 0 ∅ ∅ 0 0 0 [].

Definition RuntimeStats (fault : faults) (wall since : time) (db : TraceDB)
  : result TraceRuntimeStats :=
  let since := if IsZero since then wall - 24 * hour else since in
  match fault QueryEvents with
  | Some err => Err ("query Fairy runtime trace stats: " +:+ err)
  | None =>
      match stats_rows (stats_query since db) (no_stats, ∅) with
      | Err err => Err err
      | Ok (stats, groups) => Ok (stats <| stats_ModelHealth := finalizeTraceModelHealth groups |>)
      end
  end.

(** ** Decision chains *)

Definition defaultDecisionChainLimit : Z := 10.
Definition maxDecisionChainLimit : Z := 50.

Record DecisionChainEvent := mkEvent {
  Event_Sequence : Z; Event_OccurredAt : time; Event_Type : string; Event_Status : string;
  Event_Source : string; Event_QueueDepth : Z; Event_Pending : Z; Event_TaskID : string;
  Event_ProviderID : string; Event_ModelID : string; Event_SnapshotID : string;
  Event_Attempt : Z; Event_Step : Z; Event_Repair : bool; Event_Fallback : bool;
  Event_DurationMS : Z; Event_InputTokens : Z; Event_OutputTokens : Z; Event_CostMicroUSD : Z;
  Event_FailureCode : string; Event_PromptVersion : string; Event_PromptDigest : string;
  Event_ToolCallID : string; Event_ToolName : string; Event_ToolRisk : string;
  Event_ToolPolicy : string; Event_ToolStatus : string; Event_ToolResultBytes : Z;
  Event_GateAction : string; Event_GateReason : string; Event_GateHard : bool;
  Event_GateShadow : bool; Event_Content : string; Event_Signature : string;
  Event_Redacted : bool; Event_Detail : string }.
#[export] Instance eta_DecisionChainEvent : Eta DecisionChainEvent := fun r => mkEvent
    r.(Event_Sequence) r.(Event_OccurredAt) r.(Event_Type) r.(Event_Status) r.(Event_Source)
    r.(Event_QueueDepth) r.(Event_Pending) r.(Event_TaskID) r.(Event_ProviderID)
    r.(Event_ModelID) r.(Event_SnapshotID) r.(Event_Attempt) r.(Event_Step) r.(Event_Repair)
    r.(Event_Fallback) r.(Event_DurationMS) r.(Event_InputTokens) r.(Event_OutputTokens)
    r.(Event_CostMicroUSD) r.(Event_FailureCode) r.(Event_PromptVersion) r.(Event_PromptDigest)
    r.(Event_ToolCallID) r.(Event_ToolName) r.(Event_ToolRisk) r.(Event_ToolPolicy)
    r.(Event_ToolStatus) r.(Event_ToolResultBytes) r.(Event_GateAction) r.(Event_GateReason)
    r.(Event_GateHard) r.(Event_GateShadow) r.(Event_Content) r.(Event_Signature)
    r.(Event_Redacted) r.(Event_Detail).

Record DecisionChain := mkChain {
  Chain_TurnID : string; Chain_TraceID : string; Chain_ConversationRef : string;
  Chain_StartedAt : time; Chain_UpdatedAt : time; Chain_Status : string;
  Chain_Events : list DecisionChainEvent }.
#[export] Instance eta_DecisionChain : Eta DecisionChain := fun r => mkChain
    r.(Chain_TurnID) r.(Chain_TraceID) r.(Chain_ConversationRef) r.(Chain_StartedAt)
    r.(Chain_UpdatedAt) r.(Chain_Status) r.(Chain_Events).

Section chains.
Context `{Runtime}.

(** a RawMessage is the text of the value, compacted by the encoder that wrote it *)
Definition read_raw (m : gmap string json) (k : string) : option string :=
  match m !! k with None => Some "" | Some v => json_marshal v end.

(** its event, trace id and conversation *)
Definition scanDecisionChainEvent (row : trace_row) : option (DecisionChainEvent * string * string) :=
  let m := row.(row_payload_json) in
  status ← read_str m "status"; source ← read_str m "source";
  queue ← read_int m "queue_depth"; pending ← read_int m "pending";
  task ← read_str m "gen_ai.operation.name"; provider ← read_str m "gen_ai.provider.name";
  model ← read_str m "gen_ai.request.model"; snapshot ← read_str m "fairy.config.snapshot_id";
  attempt ← read_int m "fairy.model.attempt"; step ← read_int m "fairy.step";
  repair ← read_bool m "fairy.model.repair"; fallback ← read_bool m "fairy.model.fallback";
  duration ← read_int m "fairy.duration_ms"; input ← read_int m "gen_ai.usage.input_tokens";
  output ← read_int m "gen_ai.usage.output_tokens"; cost ← read_int m "fairy.cost_microusd";
  failure ← read_str m "error.type"; version ← read_str m "fairy.prompt.version";
  digest ← read_str m "fairy.prompt.digest"; call ← read_str m "gen_ai.tool.call.id";
  tool ← read_str m "gen_ai.tool.name"; risk ← read_str m "fairy.tool.risk";
  policy ← read_str m "fairy.tool.policy"; tool_status ← read_str m "fairy.tool.status";
  bytes ← read_int m "fairy.tool.result_bytes"; action ← read_str m "fairy.gate.action";
  reason ← read_str m "fairy.gate.reason"; hard ← read_bool m "fairy.gate.hard";
  shadow ← read_bool m "fairy.gate.shadow"; content ← read_str m "fairy.content";
  signature ← read_str m "fairy.signature"; redacted ← read_bool m "fairy.redacted";
  detail ← read_raw m "fairy.detail";
  Some (mkEvent row.(row_seq) (row.(row_time_ms) * 1000000) row.(row_type) status source queue
          pending task provider model snapshot attempt step repair fallback duration input output
          cost failure version digest call tool risk policy tool_status bytes action reason hard
          shadow content signature redacted detail,
        row.(row_trace_id), row.(row_conversation_ref)).

(** the body of the loop: the first trace id, conversation and time, the last status *)
Definition chain_row (row : trace_row) (chain : DecisionChain) : result DecisionChain :=
  match scanDecisionChainEvent row with
  | None => Err "decode Fairy decision-chain event"
  | Some (event, traceID, conversationRef) =>
      let chain := if bool_decide (chain.(Chain_TraceID) = "")
                   then chain <| Chain_TraceID := traceID |> else chain in
      let chain := if bool_decide (chain.(Chain_ConversationRef) = "")
                   then chain <| Chain_ConversationRef := conversationRef |> else chain in
      let chain := if IsZero chain.(Chain_StartedAt)
                   then chain <| Chain_StartedAt := event.(Event_OccurredAt) |> else chain in
      let chain := chain <| Chain_UpdatedAt := event.(Event_OccurredAt) |> in
      let chain :=
        if one_of [TraceTurnCompleted; TraceTurnCancelled; TraceTurnTimedOut;
                   TraceAdmissionRejected; TraceIngressDuplicate] event.(Event_Type)
        then chain <| Chain_Status := event.(Event_Status) |> else chain in
      Ok (chain <| Chain_Events ::= fun l => l ++ [event] |>)
  end.

Fixpoint chain_rows (rows : list trace_row) (chain : DecisionChain) : result DecisionChain :=
  match rows with
  | [] => Ok chain
  | row :: rows => match chain_row row chain with
                   | Ok chain => chain_rows rows chain
                   | Err err => Err err
                   end
  end.

Definition loadDecisionChain (fault : faults) (turnID : string) (db : TraceDB)
  : result DecisionChain :=
  match fault QueryEvents with
  | Some err => Err ("load Fairy decision chain: " +:+ err)
  | None => chain_rows (filter (fun r => r.(row_turn_id) = turnID) db.(fairy_trace_events))
              (mkChain turnID "" "" zero_time zero_time "running" [])
  end.

(** SELECT turn_id ... GROUP BY turn_id ORDER BY MAX(seq) DESC: the turns by their last event *)
Definition turns_latest_first (db : TraceDB) : list string :=
  foldl (fun turns r => if bool_decide (r.(row_turn_id) = "") then turns
                        else r.(row_turn_id) :: filter (fun t => t <> r.(row_turn_id)) turns)
    [] db.(fairy_trace_events).

Fixpoint load_chains (fault : faults) (turnIDs : list string) (db : TraceDB)
  : result (list DecisionChain) :=
  match turnIDs with
  | [] => Ok []
  | turnID :: rest =>
      match loadDecisionChain fault turnID db with
      | Err err => Err err
      | Ok chain => match load_chains fault rest db with
                    | Err err => Err err
                    | Ok chains => Ok (chain :: chains)
                    end
      end
  end.

Definition ListDecisionChains (fault : faults) (limit : Z) (db : TraceDB)
  : result (list DecisionChain) :=
  let limit := if limit <=? 0 then defaultDecisionChainLimit else limit in
  let limit := if maxDecisionChainLimit <? limit then maxDecisionChainLimit else limit in
  match fault QueryEvents with
  | Some err => Err ("list Fairy decision-chain turns: " +:+ err)
  | None => load_chains fault (take (Z.to_nat limit) (turns_latest_first db)) db
  end.
End chains.
