(* ===== verification/FairyTraceFacts.v ===== *)
(** * What the trace store guarantees

    [trace_op now db db'] is one operation on the database at time [now], with any
    failures of the driver.  The invariant: a rating has an output, sequence numbers
    grow, and every row can be read back. *)
From S2P Require Import Prelude GoLib Types MemoryState Float64 FairyTypes FairyTrace FairyStats Demo.
From stdpp Require Import gmap strings list.
From Stdlib Require Import ZArith SpecFloat.

Local Open Scope Z_scope.
Local Open Scope go_scope.

(** ** Payloads are read back *)

Lemma lookup_omitempty l k v :
  NoDup l.*1 -> (k, v) ∈ l ->
  (list_to_map (omitempty l) : gmap string json) !! k = if zero_json v then None else Some v.
Proof.
  intros Hn Hin. unfold omitempty.
  assert (Hn' : NoDup (filter (fun kv : string * json => zero_json kv.2 = false) l).*1).
  { eapply sublist_NoDup; [exact Hn|]. apply fmap_sublist, sublist_filter. }
  destruct (zero_json v) eqn:Ez.
  - apply not_elem_of_list_to_map_1. intros ([k' v'] & -> & [Hz Hin']%list_elem_of_filter)%list_elem_of_fmap.
    simpl in Hz, Hin. apply (elem_of_list_to_map_1 (M := gmap string)) in Hin, Hin'; [|done..].
    congruence.
  - apply elem_of_list_to_map_1; [done|]. by apply list_elem_of_filter.
Qed.

Ltac in_fields := apply list_elem_of_here || (apply list_elem_of_further; in_fields).

Section payload.
Context `{Runtime}.
Context (event : TraceEvent) (m : gmap string json) (Hm : trace_payload event = Some m).

Lemma payload_keys : NoDup (payload_fields event).*1 /\ "fairy.detail" ∉ (payload_fields event).*1.
Proof.
  change (payload_fields event).*1 with (payload_fields (trace_event 0 "" "" "" "" "" "")).*1.
  split; apply (bool_decide_unpack _); vm_compute; exact I.
Qed.

Lemma payload_lookup k v :
  (k, v) ∈ payload_fields event -> m !! k = if zero_json v then None else Some v.
Proof using Hm.
  destruct payload_keys as [Hn Hd]. intros Hin.
  assert (Hk : k <> "fairy.detail") by (intros ->; apply Hd, list_elem_of_fmap; by exists ("fairy.detail", v)).
  unfold trace_payload in Hm. case_bool_decide.
  - injection Hm as <-. by apply lookup_omitempty.
  - apply fmap_Some in Hm as (d & _ & ->). simpl. rewrite lookup_insert_ne by congruence.
    by apply lookup_omitempty.
Qed.

Lemma read_str_payload k s : (k, JStr s) ∈ payload_fields event -> read_str m k = Some s.
Proof using Hm.
  intros Hin. unfold read_str. rewrite (payload_lookup _ _ Hin). simpl.
  case_bool_decide; [by subst|done].
Qed.
Lemma read_int_payload k z : (k, jint z) ∈ payload_fields event -> read_int m k = Some z.
Proof using Hm.
  intros Hin. unfold read_int. rewrite (payload_lookup _ _ Hin). simpl.
  destruct (Z.eqb_spec z 0); [by subst|]. unfold num_trunc, num_of_Z. simpl. rewrite Z.mul_1_r.
  unfold num_eqb, num_align. simpl. by rewrite Z.eqb_refl.
Qed.
Lemma read_bool_payload k b : (k, JBool b) ∈ payload_fields event -> read_bool m k = Some b.
Proof using Hm.
  intros Hin. unfold read_bool. rewrite (payload_lookup _ _ Hin). simpl. by destruct b.
Qed.

(** the payload that the statistics read *)
Definition stats_payload : traceRuntimeStatsPayload :=
  mkPayload event.(TraceEvent_Status) event.(TraceEvent_QueueDepth) event.(TraceEvent_Pending)
    event.(TraceEvent_TaskID) event.(TraceEvent_ProviderID) event.(TraceEvent_ModelID)
    event.(TraceEvent_Attempt) event.(TraceEvent_DurationMS) event.(TraceEvent_InputTokens)
    event.(TraceEvent_OutputTokens) event.(TraceEvent_CostMicroUSD) event.(TraceEvent_FailureCode)
    event.(TraceEvent_Fallback) event.(TraceEvent_Repair) event.(TraceEvent_Step)
    event.(TraceEvent_ToolName) event.(TraceEvent_ToolRisk) event.(TraceEvent_ToolPolicy)
    event.(TraceEvent_ToolStatus) event.(TraceEvent_ToolResultBytes)
    event.(TraceEvent_GateAction) event.(TraceEvent_GateReason).

Lemma decode_stats : decode_stats_payload m = Some stats_payload.
Proof using Hm.
  unfold decode_stats_payload.
  repeat first [erewrite read_str_payload by in_fields | erewrite read_int_payload by in_fields
               | erewrite read_bool_payload by in_fields].
  reflexivity.
Qed.
End payload.

(** ** The operations, and the invariant *)

(** the time an operation uses: the zero time stands for the clock *)
Definition at_or (wall at_ : time) : time := if IsZero at_ then wall else at_.

(** the statuses with which the scheduler marks two types of events *)
Definition well_marked (event : TraceEvent) : Prop :=
  (event.(TraceEvent_Type) = TraceAdmissionRejected ->
     event.(TraceEvent_Status) ∈ ["global_pending_limit"; "conversation_pending_limit"])
  /\ (event.(TraceEvent_Type) = TraceTurnTimedOut -> event.(TraceEvent_Status) = "deadline_exceeded").

Section operations.
Context `{Runtime}.

Inductive trace_op : time -> TraceDB -> TraceDB -> Prop :=
| op_initialize fault wall db r db' :
    initialize fault wall db = (r, db') -> trace_op wall db db'
| op_claim fault wall source eventID at_ db r db' :
    ClaimIngress fault wall source eventID at_ db = (r, db') -> trace_op (at_or wall at_) db db'
| op_append fault wall event db r db' :
    well_marked event -> Append fault wall event db = (r, db') -> trace_op wall db db'
| op_register fault wall messageID turnID at_ db r db' :
    RegisterFeedbackOutput fault wall messageID turnID at_ db = (r, db') ->
    trace_op (at_or wall at_) db db'
| op_feedback fault wall messageID actorID label removed at_ db r db' :
    ApplyFeedback fault wall messageID actorID label removed at_ db = (r, db') ->
    trace_op (at_or wall at_) db db'
| op_delete fault wall messageID db r db' :
    DeleteFeedbackOutput fault messageID db = (r, db') -> trace_op wall db db'
| op_stats fault wall since db r db' :
    FeedbackStats fault wall since db = (r, db') -> trace_op wall db db'.

Inductive trace_reachable : TraceDB -> Prop :=
| traces_empty key : trace_reachable (empty_trace_db key)
| traces_op now db db' : trace_reachable db -> trace_op now db db' -> trace_reachable db'.

(** a row whose event was accepted *)
Definition readable (row : trace_row) : Prop :=
  exists event, validTraceEvent event = true /\ well_marked event
    /\ row.(row_type) = event.(TraceEvent_Type) /\ trace_payload event = Some row.(row_payload_json).

Record trace_ok (db : TraceDB) : Prop := {
  tr_rows : Forall readable db.(fairy_trace_events);
  tr_outputs : forall ref actor r, db.(fairy_feedback_ratings) !! (ref, actor) = Some r ->
    is_Some (db.(fairy_feedback_outputs) !! ref);
  tr_labels : forall k r, db.(fairy_feedback_ratings) !! k = Some r ->
    validFeedbackLabel r.(rating_label) = true }.

Lemma cascade_ok db : Forall readable db.(fairy_trace_events) ->
  (forall k r, db.(fairy_feedback_ratings) !! k = Some r -> validFeedbackLabel r.(rating_label) = true) ->
  trace_ok (cascade_ratings db).
Proof.
  intros Hrows Hl. split; [done| |]; simpl.
  - intros ref actor r [_ Hr]%map_lookup_filter_Some. done.
  - intros k r [Hr _]%map_lookup_filter_Some. by eapply Hl.
Qed.

Lemma prune_tables_ok fault now db : trace_ok db -> trace_ok (prune_tables fault now db).2.
Proof.
  intros [H1 H2 H3]. unfold prune_tables.
  assert (Hf : forall t, Forall readable (filter (fun r : trace_row => t < r.(row_time_ms)) db.(fairy_trace_events)))
    by (intros t; apply Forall_forall; intros r [_ Hr]%list_elem_of_filter; by eapply Forall_forall in H1).
  apply exec_inv; [by split|]. apply exec_inv; [by split|].
  apply exec_inv; [split; [apply Hf|done|done]|]. destruct (cascade_ok
    ((delete_old_events (now - (delete_expired_claims now db).(retention)) (delete_expired_claims now db))
       <| fairy_feedback_outputs ::= filter (fun kv => UnixMilli now < kv.2.(output_expires_at)) |>))
    as [K1 K2 K3]; [apply Hf|done|]. by split.
Qed.

Lemma pruneIfDue_ok fault now db : trace_ok db -> trace_ok (pruneIfDue fault now db).2.
Proof. intros Hok. unfold pruneIfDue. case_goal; [done|]. by apply prune_tables_ok. Qed.

(** an operation that prunes first and goes on with the pruned database *)
Lemma after_prune {A} (I : TraceDB -> Prop) fault now db (next : TraceDB -> result A * TraceDB) :
  I (pruneIfDue fault now db).2 -> (forall db, I db -> I (next db).2) ->
  I (match pruneIfDue fault now db with (Err err, db) => (Err err, db) | (Ok _, db) => next db end).2.
Proof. intros Hp Hn. destruct (pruneIfDue fault now db) as [[u|err] db1]; [by apply Hn|done]. Qed.

Lemma write_rating_labels removed ref actor label at_ ratings k r :
  (write_rating removed ref actor label at_ ratings).2 !! k = Some r ->
  ratings !! k = Some r \/ removed = false /\ k = (ref, actor) /\ r.(rating_label) = label.
Proof.
  unfold write_rating. destruct removed; simpl.
  - destruct (ratings !! (ref, actor)); [case_bool_decide|]; simpl; [|by left..].
    intros [_ Hk]%lookup_delete_Some. by left.
  - intros [[<- <-]|[_ Hk]]%lookup_insert_Some; [by right|by left].
Qed.

Lemma trace_op_ok now db db' : trace_ok db -> trace_op now db db' -> trace_ok db'.
Proof.
  intros Hok Hop.
  destruct Hop as [fault wall db r db' Ho|fault wall source eventID at_ db r db' Ho
    |fault wall event db r db' Hm Ho|fault wall messageID turnID at_ db r db' Ho
    |fault wall messageID actorID label removed at_ db r db' Ho|fault wall messageID db r db' Ho
    |fault wall since db r db' Ho];
    (assert (E : db' = (r, db').2) by done); rewrite E, <-Ho; clear E Ho.
  - by apply prune_tables_ok.
  - unfold ClaimIngress. case_goal; [done|]. apply (after_prune trace_ok); [by apply pruneIfDue_ok|].
    clear db Hok. intros db Hok. apply exec_inv; [done|]. apply exec_inv; [done|].
    apply exec_inv; [done|]. destruct (insert_or_ignore _ _ _) as [c rows].
    apply exec_inv; [done|]. by destruct Hok; split.
  - unfold Append. destruct (validTraceEvent event) eqn:Ev; [simpl|done].
    destruct (trace_payload event) as [m|] eqn:Ep; [|done]. apply exec_inv; [done|].
    destruct Hok as [H1 H2 H3]. split; [|done..]. simpl. apply Forall_app. split; [done|].
    constructor; [|constructor]. by exists event.
  - unfold RegisterFeedbackOutput. case_goal; [done|]. apply (after_prune trace_ok); [by apply pruneIfDue_ok|].
    clear db Hok. intros db Hok. apply exec_inv; [done|]. simpl.
    destruct (_ !! feedbackMessageRef _ _) eqn:Er; [done|]. destruct Hok as [H1 H2 H3].
    split; [done| |done]. simpl. intros ref actor row Hr. apply lookup_insert_is_Some.
    destruct (decide (feedbackMessageRef messageID db = ref)); [by left|right]. split; [done|]. by eapply H2.
  - unfold ApplyFeedback. destruct (_ || negb (validFeedbackLabel label)) eqn:Ev; [done|].
    apply orb_false_iff in Ev as [_ Hlabel]. apply negb_false_iff in Hlabel.
    cbv zeta. apply (after_prune trace_ok); [by apply pruneIfDue_ok|]. clear db Hok. intros db Hok.
    set (ref := feedbackMessageRef messageID db). set (actor := feedbackActorRef ref actorID db).
    do 2 (apply exec_inv; [done|]). destruct (live_output _ _ _) eqn:El; [simpl|done].
    apply exec_inv; [done|].
    pose proof (write_rating_labels removed ref actor label (if IsZero at_ then wall else at_)
                  db.(fairy_feedback_ratings)) as Hw.
    destruct (write_rating _ _ _ _ _ _) as [n ratings]. apply exec_inv; [done|].
    destruct Hok as [H1 H2 H3]. split; [done| |]; simpl.
    + intros ref' actor' row [Hr|(_ & [= -> ->] & _)]%Hw; [by eapply H2|].
      unfold live_output in El. by destruct (db.(fairy_feedback_outputs) !! ref).
    + intros k row [Hr|(_ & _ & ->)]%Hw; [by eapply H3|done].
  - unfold DeleteFeedbackOutput. case_goal; [done|]. apply exec_inv; [done|].
    destruct Hok as [H1 H2 H3]. by apply cascade_ok.
  - unfold FeedbackStats. apply (after_prune trace_ok); [by apply pruneIfDue_ok|]. clear db Hok. intros db Hok.
    by apply exec_inv.
Qed.

Lemma reachable_trace_ok db : trace_reachable db -> trace_ok db.
Proof.
  induction 1 as [key|now db db' _ IH Hop]; [|by eapply trace_op_ok].
  split; simpl; [constructor|by intros ref actor r|by intros k r].
Qed.
End operations.

(** ** Statistics *)

Ltac split_bools H :=
  rewrite ?negb_true_iff, ?negb_false_iff, ?andb_true_iff, ?orb_false_iff in H; destruct_and? H.
Ltac rewrite_bools :=
  repeat match goal with
         | E : ?x = true |- context [?x] => rewrite E
         | E : ?x = false |- context [?x] => rewrite E
         end; simpl.

(** the guard of a function that returned true did not hold *)
Ltac past_guard H E :=
  match type of H with (if ?g then _ else _) = true => destruct g eqn:E; [discriminate H|] end.

Section statistics.
Context `{Runtime}.
Implicit Types (event : TraceEvent) (p : traceRuntimeStatsPayload).

(** the checks of the event's own type *)
Lemma valid_details event :
  validTraceEvent event = true ->
  trace_numbers_ok event = true
  /\ (let type l := one_of l event.(TraceEvent_Type) in
      if type [TraceModelReasoning] then validModelReasoningTrace event
      else if type [TracePlannerDecision; TraceReplyerResult] then validAgentDecisionTrace event
      else if type [TraceGateDecision] then validGateTrace event
      else if type [TraceToolCall] then validToolTrace event
      else if negb (type [TraceModelAttempt]) then validPlainTrace event
      else validModelTrace event) = true.
Proof.
  unfold validTraceEvent. rewrite !andb_true_iff. intros [_ Hd].
  unfold validTraceEventDetails in Hd.
  by destruct (trace_numbers_ok event), (trace_sizes_ok event).
Qed.

Lemma model_payload_valid event :
  validTraceEvent event = true -> event.(TraceEvent_Type) = TraceModelAttempt ->
  validTraceModelHealthPayload (stats_payload event) = true.
Proof.
  intros (Hn & Hd)%valid_details Ht. rewrite Ht in Hd. change (validModelTrace event = true) in Hd.
  unfold trace_numbers_ok in Hn. split_bools Hn. unfold validModelTrace in Hd.
  unfold validTraceModelHealthPayload. cbn [stats_payload payload_TaskID payload_ProviderID
    payload_ModelID payload_Attempt payload_Step payload_DurationMS payload_InputTokens
    payload_OutputTokens payload_CostMicroUSD payload_Repair payload_Status payload_FailureCode].
  past_guard Hd E1. past_guard Hd E2. past_guard Hd E3. split_bools E1. by rewrite_bools.
Qed.

Lemma tool_payload_valid event :
  validTraceEvent event = true -> event.(TraceEvent_Type) = TraceToolCall ->
  validTraceToolRuntimePayload (stats_payload event) = true.
Proof.
  intros (Hn & Hd)%valid_details Ht. rewrite Ht in Hd. change (validToolTrace event = true) in Hd.
  unfold trace_numbers_ok in Hn. split_bools Hn. unfold validToolTrace in Hd.
  unfold validTraceToolRuntimePayload. cbn [stats_payload payload_ToolName payload_ToolRisk
    payload_ToolPolicy payload_ToolStatus payload_Step payload_DurationMS payload_ToolResultBytes
    payload_Status payload_FailureCode].
  past_guard Hd E1. split_bools E1. by rewrite_bools.
Qed.

Lemma gate_payload_valid event :
  validTraceEvent event = true -> event.(TraceEvent_Type) = TraceGateDecision ->
  validGateAction event.(TraceEvent_GateAction) = true
  /\ validGateReason event.(TraceEvent_GateReason) = true.
Proof.
  intros (_ & Hd)%valid_details Ht. rewrite Ht in Hd. change (validGateTrace event = true) in Hd.
  unfold validGateTrace in Hd. destruct (validGateDecision _) eqn:E; [|done].
  unfold validGateDecision in E. cbn [GateDecision_Action GateDecision_Reason] in E.
  by destruct (validGateAction _), (validGateReason _).
Qed.

Lemma admission_payload_valid event :
  validTraceEvent event = true -> well_marked event ->
  event.(TraceEvent_Type) = TraceAdmissionRejected ->
  validTraceAdmissionFailurePayload (stats_payload event) = true.
Proof.
  intros (Hn & _)%valid_details [Hm _] Ht. unfold trace_numbers_ok in Hn. split_bools Hn.
  unfold validTraceAdmissionFailurePayload. simpl. rewrite !andb_true_iff, !Z.leb_le.
  split; [split|]; [apply bool_decide_eq_true, Hm, Ht| |]; apply Z.ltb_ge; done.
Qed.

(** the entry of a model counts its attempts in two ways *)
Definition group_ok (g : accumulator) : Prop :=
  g.(acc_stats).(health_Attempts) = g.(acc_stats).(health_Completed) + g.(acc_stats).(health_Failed)
  /\ g.(acc_stats).(health_Attempts) = Z.of_nat (length g.(durations))
  /\ g.(acc_stats).(health_Failed) = map_total (fun _ n => n) g.(acc_stats).(health_FailureCodes).

Record stats_ok (st : TraceRuntimeStats * gmap (string * string * string) accumulator) : Prop := {
  so_models : st.1.(stats_ModelAttempts) = st.1.(stats_ModelCompleted) + st.1.(stats_ModelFailed);
  so_tools : st.1.(stats_ToolCalls) = st.1.(stats_ToolCompleted) + st.1.(stats_ToolFailed);
  so_actions : st.1.(stats_GateDecisions) = map_total (fun _ n => n) st.1.(stats_GateActions);
  so_reasons : st.1.(stats_GateDecisions) = map_total (fun _ n => n) st.1.(stats_GateReasons);
  so_recent : (length st.1.(stats_RecentFailures) <= maxRecentTraceFailures)%nat;
  so_groups : map_Forall (fun _ g => group_ok g) st.2;
  so_health : st.1.(stats_ModelAttempts) =
    map_total (fun _ g => g.(acc_stats).(health_Attempts)) st.2 }.

Lemma increment_total k (m : gmap string Z) :
  map_total (fun _ n => n) (increment k m) = map_total (fun _ n => n) m + 1.
Proof. unfold increment. rewrite map_total_set. destruct (m !! k); simpl; lia. Qed.

Lemma recent_failures_bound stats timeMS type p :
  (length stats.(stats_RecentFailures) <= maxRecentTraceFailures)%nat ->
  (length (appendTraceRecentFailure stats timeMS type p).(stats_RecentFailures)
   <= maxRecentTraceFailures)%nat.
Proof.
  intros Hl. unfold appendTraceRecentFailure. case_bool_decide as E; [done|].
  destruct (recent_failure _ _ _); [|done]. simpl. rewrite length_app. simpl. lia.
Qed.

(** recording a failure changes nothing else *)
Lemma append_failure_ok stats groups timeMS type p :
  stats_ok (stats, groups) -> stats_ok (appendTraceRecentFailure stats timeMS type p, groups).
Proof.
  intros [H1 H2 H3 H4 H5 H6 H7]. pose proof (recent_failures_bound stats timeMS type p H5) as Hb.
  unfold appendTraceRecentFailure in *. case_bool_decide; [by split|].
  destruct (recent_failure _ _ _); by split.
Qed.

Lemma record_health_ok groups p :
  map_Forall (fun _ g => group_ok g) groups ->
  map_Forall (fun _ g => group_ok g) (recordTraceModelHealth groups p)
  /\ map_total (fun _ g => g.(acc_stats).(health_Attempts)) (recordTraceModelHealth groups p)
     = map_total (fun _ g => g.(acc_stats).(health_Attempts)) groups + 1.
Proof.
  intros Hg. unfold recordTraceModelHealth. cbv zeta.
  set (key := (payload_TaskID p, payload_ProviderID p, payload_ModelID p)).
  set (g0 := default _ (groups !! key)).
  assert (Hg0 : group_ok g0 /\ from_option (fun g => g.(acc_stats).(health_Attempts)) 0 (groups !! key)
    = g0.(acc_stats).(health_Attempts)).
  { subst g0. destruct (groups !! key) as [g|] eqn:E; simpl; [split; [by eapply Hg|done]|done]. }
  clearbody g0. destruct Hg0 as [(A & B & C) Hd].
  split.
  - apply map_Forall_insert_2; [|done]. unfold group_ok. cbn [durations acc_stats].
    rewrite length_app. cbn [length].
    destruct (payload_Fallback p), (payload_Repair p), (bool_decide (payload_Status p = "completed"));
      cbn; rewrite ?increment_total; lia.
  - rewrite map_total_set, Hd.
    destruct (payload_Fallback p), (payload_Repair p), (bool_decide (payload_Status p = "completed"));
      cbn; lia.
Qed.

Lemma stats_row_ok row st :
  readable row -> stats_ok st -> exists st', stats_row row st = Ok st' /\ stats_ok st'.
Proof.
  intros (event & Hv & Hm & Ht & Hp) Hok. destruct st as [stats groups].
  unfold stats_row. cbv zeta. rewrite (decode_stats _ _ Hp), Ht.
  case_bool_decide as E1; [|case_bool_decide as E2; [|case_bool_decide as E3; [|case_bool_decide as E4;
    [|case_bool_decide as E5]]]].
  - rewrite (model_payload_valid _ Hv E1). cbn [negb]. eexists. split; [done|].
    destruct Hok as [H1 H2 H3 H4 H5 H6 H7]. simpl in *.
    destruct (record_health_ok groups (stats_payload event) H6) as [G1 G2].
    destruct (bool_decide (TraceEvent_Status event = "failed")); [apply append_failure_ok|];
      destruct (bool_decide (TraceEvent_Status event = "completed")); split; simpl; done || lia.
  - rewrite (tool_payload_valid _ Hv E2). cbn [negb]. eexists. split; [done|]. simpl.
    destruct Hok as [H1 H2 H3 H4 H5 H6 H7]. simpl in *.
    destruct (bool_decide (TraceEvent_Status event = "completed")); [|apply append_failure_ok];
      split; simpl; done || lia.
  - destruct (gate_payload_valid _ Hv E3) as [G1 G2]. simpl. rewrite G1, G2. simpl.
    eexists. split; [done|]. destruct Hok as [H1 H2 H3 H4 H5 H6 H7]. simpl in *.
    split; simpl; rewrite ?increment_total; done || lia.
  - rewrite (admission_payload_valid _ Hv Hm E4). cbn [negb]. eexists. split; [done|].
    by apply append_failure_ok.
  - destruct Hm as [_ Hm]. unfold validTraceTurnFailurePayload. simpl.
    rewrite (bool_decide_true _ (Hm E5)). cbn [negb]. eexists. split; [done|].
    by apply append_failure_ok.
  - eauto.
Qed.

Lemma stats_rows_ok rows st :
  Forall readable rows -> stats_ok st -> exists st', stats_rows rows st = Ok st' /\ stats_ok st'.
Proof.
  intros Hr. revert st. induction Hr as [|row rows Hrow _ IH]; intros st Hok; simpl; [by eexists|].
  destruct (stats_row_ok row st Hrow Hok) as (st1 & -> & Hok1). by apply IH.
Qed.

Lemma percentile_in values q : values <> [] -> percentileTraceMillis values q ∈ values.
Proof.
  intros Hv. unfold percentileTraceMillis. rewrite bool_decide_false by done. cbv zeta.
  set (i := f_to_int _). set (j := if i <? 0 then 0 else i).
  set (k := if _ <=? j then _ else j).
  assert (Hk : (Z.to_nat k < length values)%nat).
  { assert (length values <> 0%nat) by (by destruct values). subst k j.
    destruct (Z.ltb_spec i 0); case_Z; lia. }
  destruct (lookup_lt_is_Some_2 _ _ Hk) as [x Hx]. rewrite Hx. by eapply list_elem_of_lookup_2.
Qed.

(** the durations of a model and the numbers shown for it *)
Lemma finalize_spec groups h :
  h ∈ finalizeTraceModelHealth groups <-> exists key g, groups !! key = Some g
    /\ h = g.(acc_stats)
         <| health_P50Millis := percentileTraceMillis (sort_slice Z.ltb g.(durations)) f_half |>
         <| health_P95Millis := percentileTraceMillis (sort_slice Z.ltb g.(durations)) f_095 |>.
Proof.
  unfold finalizeTraceModelHealth. rewrite elem_of_sort_slice, list_elem_of_fmap. split.
  - intros ([key g] & -> & Hg%elem_of_map_to_list). eauto.
  - intros (key & g & Hg & ->). exists (key, g). split; [done|]. by apply elem_of_map_to_list.
Qed.

Lemma finalize_total groups :
  sum_of health_Attempts (finalizeTraceModelHealth groups)
  = map_total (fun _ g => g.(acc_stats).(health_Attempts)) groups.
Proof.
  unfold finalizeTraceModelHealth. rewrite (sum_of_perm _ _ _ (sort_slice_perm _ _)), map_total_to_list.
  by rewrite sum_of_fmap.
Qed.

(** the statistics of the trace store can always be read: whatever was appended,
    claimed, rated and pruned, whichever statements failed, no row makes the reading
    fail; and the counters add up (attempts are completed or failed, per model and in
    total, tool calls likewise, gate decisions by action and by reason), a shown
    percentile is a measured duration, and at most twenty failures are listed. *)
Theorem trace_statistics_consistent (db : TraceDB) (wall since : time) :
  trace_reachable db ->
  exists stats, RuntimeStats no_faults wall since db = Ok stats
    /\ stats.(stats_ModelAttempts) = stats.(stats_ModelCompleted) + stats.(stats_ModelFailed)
    /\ stats.(stats_ToolCalls) = stats.(stats_ToolCompleted) + stats.(stats_ToolFailed)
    /\ stats.(stats_GateDecisions) = map_total (fun _ n => n) stats.(stats_GateActions)
    /\ stats.(stats_GateDecisions) = map_total (fun _ n => n) stats.(stats_GateReasons)
    /\ (length stats.(stats_RecentFailures) <= 20)%nat
    /\ sum_of health_Attempts stats.(stats_ModelHealth) = stats.(stats_ModelAttempts)
    /\ forall h, h ∈ stats.(stats_ModelHealth) ->
         h.(health_Attempts) = h.(health_Completed) + h.(health_Failed)
         /\ exists ds, Z.of_nat (length ds) = h.(health_Attempts)
              /\ (ds <> [] -> h.(health_P50Millis) ∈ ds /\ h.(health_P95Millis) ∈ ds).
Proof.
  intros Hr%reachable_trace_ok. unfold RuntimeStats. cbn [no_faults].
  set (rows := stats_query _ db).
  assert (Hrows : Forall readable rows).
  { apply Forall_forall. intros row Hrow. unfold rows, stats_query in Hrow.
    rewrite elem_of_sort_slice in Hrow. apply list_elem_of_filter in Hrow as [_ Hin].
    pose proof (tr_rows _ Hr) as Hall. by eapply Forall_forall in Hall. }
  destruct (stats_rows_ok rows (no_stats, ∅) Hrows) as ([stats groups] & -> & Hok).
  { split; [done..|simpl; lia|apply map_Forall_empty|done]. }
  destruct Hok as [H1 H2 H3 H4 H5 H6 H7]. cbn [fst snd] in *. eexists. split; [reflexivity|].
  cbn -[finalizeTraceModelHealth sum_of map_total]. do 5 (split; [done|]). split; [by rewrite finalize_total|].
  intros h (key & g & Hg & ->)%finalize_spec. destruct (H6 _ _ Hg) as (A & B & _).
  cbn -[percentileTraceMillis].
  split; [done|]. exists (durations g). split; [done|]. intros Hd.
  assert (Hs : sort_slice Z.ltb (durations g) <> []).
  { intros E. apply Hd. apply length_zero_iff_nil. by rewrite <-(length_sort_slice Z.ltb), E. }
  split; eapply elem_of_sort_slice; by apply percentile_in.
Qed.
End statistics.

(** ** Events come back as they were appended *)

Section roundtrip.
Context `{Runtime}.

(** the event that a reader of the chain should see; times are kept in milliseconds *)
Definition as_chain_event (seq : Z) (event : TraceEvent) (detail : string) : DecisionChainEvent :=
  mkEvent seq (UnixMilli event.(TraceEvent_Time) * 1000000) event.(TraceEvent_Type)
    event.(TraceEvent_Status) event.(TraceEvent_Source) event.(TraceEvent_QueueDepth)
    event.(TraceEvent_Pending) event.(TraceEvent_TaskID) event.(TraceEvent_ProviderID)
    event.(TraceEvent_ModelID) event.(TraceEvent_SnapshotID) event.(TraceEvent_Attempt)
    event.(TraceEvent_Step) event.(TraceEvent_Repair) event.(TraceEvent_Fallback)
    event.(TraceEvent_DurationMS) event.(TraceEvent_InputTokens) event.(TraceEvent_OutputTokens)
    event.(TraceEvent_CostMicroUSD) event.(TraceEvent_FailureCode) event.(TraceEvent_PromptVersion)
    event.(TraceEvent_PromptDigest) event.(TraceEvent_ToolCallID) event.(TraceEvent_ToolName)
    event.(TraceEvent_ToolRisk) event.(TraceEvent_ToolPolicy) event.(TraceEvent_ToolStatus)
    event.(TraceEvent_ToolResultBytes) event.(TraceEvent_GateAction) event.(TraceEvent_GateReason)
    event.(TraceEvent_GateHard) event.(TraceEvent_GateShadow) event.(TraceEvent_Content)
    event.(TraceEvent_Signature) event.(TraceEvent_Redacted) detail.

(** the text of the detail that encoding/json writes back *)
Definition rewritten_detail (event : TraceEvent) : option string :=
  if bool_decide (event.(TraceEvent_Detail) = "") then Some ""
  else json_unmarshal event.(TraceEvent_Detail) ≫= json_marshal.

Lemma read_detail event m :
  trace_payload event = Some m -> read_raw m "fairy.detail" = rewritten_detail event.
Proof.
  intros Hm. unfold trace_payload in Hm. unfold read_raw, rewritten_detail.
  destruct (payload_keys event) as [_ Hd]. case_bool_decide.
  - injection Hm as <-. rewrite (not_elem_of_list_to_map_1 (M := gmap string)); [done|].
    intros ([k v] & Hk & [_ Hin]%list_elem_of_filter)%list_elem_of_fmap. simpl in Hk. subst k.
    apply Hd, list_elem_of_fmap. by exists ("fairy.detail", v).
  - apply fmap_Some in Hm as (d & -> & ->). simpl. by rewrite lookup_insert_eq.
Qed.

Lemma scan_appended event m detail seq ref :
  trace_payload event = Some m -> rewritten_detail event = Some detail ->
  scanDecisionChainEvent (mkTraceRow seq (UnixMilli event.(TraceEvent_Time))
    event.(TraceEvent_Type) event.(TraceEvent_TraceID) event.(TraceEvent_TurnID) ref m)
  = Some (as_chain_event seq event detail, event.(TraceEvent_TraceID), ref).
Proof.
  intros Hm Hd. unfold scanDecisionChainEvent. cbn [row_payload_json row_seq row_time_ms row_type
    row_trace_id row_conversation_ref].
  repeat first [erewrite (read_str_payload event m Hm) by in_fields
               | erewrite (read_int_payload event m Hm) by in_fields
               | erewrite (read_bool_payload event m Hm) by in_fields].
  cbn [mbind option_bind]. rewrite (read_detail _ _ Hm), Hd. reflexivity.
Qed.

Lemma chain_rows_app rows1 rows2 chain :
  chain_rows (rows1 ++ rows2) chain
  = match chain_rows rows1 chain with Ok c => chain_rows rows2 c | Err e => Err e end.
Proof.
  revert chain. induction rows1 as [|row rows1 IH]; intros chain; simpl; [done|].
  by destruct (chain_row row chain).
Qed.

(** an event that Append accepts is afterwards the last event of the decision chain
    of its turn, with every field as it was given (its time in milliseconds, its detail
    as encoding/json writes it back); the chains of other turns are what they were. *)
Theorem appended_event_is_read_back (wall : time) (event : TraceEvent) (db db' : TraceDB)
    (fault : faults) (detail : string) (chain : DecisionChain) :
  Append fault wall event db = (Ok tt, db') ->
  IsZero event.(TraceEvent_Time) = false -> rewritten_detail event = Some detail ->
  loadDecisionChain no_faults event.(TraceEvent_TurnID) db = Ok chain ->
  (exists chain', loadDecisionChain no_faults event.(TraceEvent_TurnID) db' = Ok chain'
     /\ chain'.(Chain_Events) = chain.(Chain_Events) ++ [as_chain_event db.(next_seq) event detail]
     /\ chain'.(Chain_UpdatedAt) = UnixMilli event.(TraceEvent_Time) * 1000000)
  /\ forall turnID, turnID <> event.(TraceEvent_TurnID) ->
       loadDecisionChain no_faults turnID db' = loadDecisionChain no_faults turnID db.
Proof.
  unfold Append. intros Ha Hz Hd Hc. destruct (validTraceEvent event); [simpl in Ha|done].
  rewrite Hz in Ha. destruct (trace_payload event) as [m|] eqn:Em; [|done].
  unfold exec in Ha. destruct (fault InsertEvent); [done|]. injection Ha as <-.
  unfold loadDecisionChain in *. cbn [no_faults] in *. cbn. split.
  - rewrite filter_app, chain_rows_app, Hc. cbn [row_turn_id].
    rewrite filter_cons_True by done. rewrite filter_nil. cbn [chain_rows]. unfold chain_row.
    rewrite (scan_appended event m detail _ _ Em Hd). cbv zeta.
    eexists. split; [reflexivity|].
    split; repeat case_goal; reflexivity.
  - intros turnID Hne. rewrite filter_app. rewrite (filter_cons_False _ _ []) by (simpl; congruence).
    by rewrite filter_nil, app_nil_r.
Qed.
End roundtrip.

(** ** Claims are exclusive *)

Section claims.
Context `{Runtime}.

(** the claim of an event is recorded, until [limit] (in milliseconds) *)
Definition claimed (source eventID : string) (limit : Z) (db : TraceDB) : Prop :=
  exists row, db.(fairy_ingress_events) !! (source, eventID) = Some row
    /\ row.(ingress_expires_at) = limit.

(** operations at times before [limit] *)
Definition ops_before (limit : Z) : relation TraceDB :=
  rtc (fun db db' => exists now, UnixMilli now < limit /\ trace_op now db db').

Lemma prune_keeps_claim fault now source eventID limit db :
  UnixMilli now < limit -> claimed source eventID limit db ->
  claimed source eventID limit (prune_tables fault now db).2.
Proof.
  intros Hn (row & Hr & He).
  assert (Hk : claimed source eventID limit (delete_expired_claims now db)).
  { exists row. split; [|done]. simpl. apply map_lookup_filter_Some. simpl. split; [done|lia]. }
  unfold prune_tables. apply exec_inv; [by exists row|]. apply exec_inv; [done|]. apply exec_inv; done.
Qed.

Lemma pruneIfDue_keeps_claim fault now source eventID limit db :
  UnixMilli now < limit -> claimed source eventID limit db ->
  claimed source eventID limit (pruneIfDue fault now db).2.
Proof. intros. unfold pruneIfDue. case_goal; [done|]. by apply prune_keeps_claim. Qed.

(** a claim on a claimed event is refused, and leaves it claimed *)
Lemma claim_refused fault wall source eventID source' eventID' at_ limit db :
  UnixMilli (at_or wall at_) < limit -> claimed source eventID limit db ->
  claimed source eventID limit (ClaimIngress fault wall source' eventID' at_ db).2
  /\ ((source', eventID') = (source, eventID) ->
      (ClaimIngress fault wall source' eventID' at_ db).1 <> Ok true
      /\ (fault = no_faults -> validTraceLabel source = true -> eventID <> "" -> slen eventID <= 1024 ->
          (ClaimIngress fault wall source' eventID' at_ db).1 = Ok false)).
Proof.
  intros Hn Hc. unfold ClaimIngress.
  destruct (_ || (1024 <? slen eventID')) eqn:Ev.
  { split; [done|]. intros [= -> ->]. split; [done|]. intros -> Hs He Hl.
    rewrite Hs, bool_decide_false in Ev by done. simpl in Ev. apply Z.ltb_lt in Ev. lia. }
  fold (at_or wall at_). cbv zeta. pose proof (pruneIfDue_keeps_claim fault _ _ _ _ _ Hn Hc) as Hp.
  assert (Hgo : fault = no_faults -> (pruneIfDue fault (at_or wall at_) db).1 = Ok tt).
  { intros ->. unfold pruneIfDue. case_goal; done. }
  destruct (pruneIfDue fault (at_or wall at_) db) as [[u|err] db1];
    [|split; [done|]; intros _; split; [done|]; by intros E%Hgo]. simpl in Hp. clear Hgo.
  destruct Hp as (row & Hr & He).
  set (kept := remove_expired _ _ _). set (new := mkIngressRow _ _ _).
  assert (Hkept : kept !! (source, eventID) = Some row).
  { subst kept. unfold remove_expired. destruct (_ !! (source', eventID')) as [row'|] eqn:E; [|done].
    case_Z; [|done]. rewrite lookup_delete_ne; [done|]. intros Heq. rewrite Heq in E.
    assert (row' = row) as -> by congruence. lia. }
  assert (Hdb1 : claimed source eventID limit db1) by by exists row.
  split.
  - do 3 (apply exec_inv; [done|]). unfold insert_or_ignore.
    destruct (kept !! (source', eventID')) eqn:E; (apply exec_inv; [done|]); exists row; [done|].
    split; [|done]. simpl. rewrite lookup_insert_ne; [done|]. congruence.
  - intros [= -> ->]. unfold insert_or_ignore. rewrite Hkept. unfold exec. split.
    + by repeat case_goal.
    + by intros ->.
Qed.

Lemma op_keeps_claim now source eventID limit db db' :
  UnixMilli now < limit -> trace_op now db db' -> claimed source eventID limit db ->
  claimed source eventID limit db'.
Proof.
  intros Hn Hop Hc.
  destruct Hop as [fault wall db r db' Ho|fault wall source' eventID' at_ db r db' Ho
    |fault wall event db r db' Hm Ho|fault wall messageID turnID at_ db r db' Ho
    |fault wall messageID actorID label removed at_ db r db' Ho|fault wall messageID db r db' Ho
    |fault wall since db r db' Ho];
    (assert (E : db' = (r, db').2) by done); rewrite E, <-Ho; clear E Ho.
  - by apply prune_keeps_claim.
  - by apply claim_refused.
  - unfold Append. case_goal; [done|]. cbv zeta. case_goal; [|done]. by apply exec_inv.
  - unfold RegisterFeedbackOutput. case_goal; [done|]. fold (at_or wall at_). cbv zeta.
    apply (after_prune (claimed source eventID limit)); [by apply pruneIfDue_keeps_claim|].
    clear db Hc. intros db Hc. apply exec_inv; [done|]. by case_goal.
  - unfold ApplyFeedback. destruct (_ || negb (validFeedbackLabel label)); [done|].
    fold (at_or wall at_). cbv zeta.
    apply (after_prune (claimed source eventID limit)); [by apply pruneIfDue_keeps_claim|].
    clear db Hc. intros db Hc. do 2 (apply exec_inv; [done|]). destruct (live_output _ _ _); [simpl|done].
    apply exec_inv; [done|]. destruct (write_rating _ _ _ _ _ _). by apply exec_inv.
  - unfold DeleteFeedbackOutput. case_goal; [done|]. by apply exec_inv.
  - unfold FeedbackStats. cbv zeta.
    apply (after_prune (claimed source eventID limit)); [by apply pruneIfDue_keeps_claim|].
    clear db Hc. intros db Hc. by apply exec_inv.
Qed.

(** an event is claimed at most once in a retention period: after a successful claim,
    whatever happens to the database before the claim expires (other claims, events,
    ratings, clean-ups, failures of the driver, restarts), claiming the same event never
    succeeds again, and without a failure it is answered "already claimed". *)
Theorem ingress_claim_is_exclusive (fault : faults) (wall at_ : time) (source eventID : string)
    (db db1 db2 : TraceDB) :
  ClaimIngress fault wall source eventID at_ db = (Ok true, db1) ->
  let limit := UnixMilli (at_or wall at_ + db1.(retention)) in
  UnixMilli (at_or wall at_) < limit -> ops_before limit db1 db2 ->
  forall fault' wall' at', UnixMilli (at_or wall' at') < limit ->
    (ClaimIngress fault' wall' source eventID at' db2).1 <> Ok true
    /\ (ClaimIngress no_faults wall' source eventID at' db2).1 = Ok false.
Proof.
  intros Hclaim limit Hlimit Hops fault' wall' at' Hat.
  assert (Hvalid : validTraceLabel source = true /\ eventID <> "" /\ slen eventID <= 1024
    /\ claimed source eventID limit db1).
  { unfold ClaimIngress in Hclaim. destruct (_ || (1024 <? slen eventID)) eqn:Ev; [done|].
    apply orb_false_iff in Ev as [[Hs%negb_false_iff He%bool_decide_eq_false]%orb_false_iff Hl%Z.ltb_ge].
    do 3 (split; [done|]). fold (at_or wall at_) in Hclaim. cbv zeta in Hclaim.
    destruct (pruneIfDue _ _ _) as [[u|] db0]; [|done]. unfold exec in Hclaim.
    do 3 (destruct (fault _); [done|]). unfold insert_or_ignore in Hclaim.
    destruct (remove_expired _ _ _ !! _); (destruct (fault CommitClaim); [done|]); [done|].
    injection Hclaim as <-. eexists. split; [apply lookup_insert_eq|done]. }
  destruct Hvalid as (Hs & He & Hl & Hc1).
  assert (Hc2 : claimed source eventID limit db2).
  { clear Hclaim. clearbody limit. revert Hc1. induction Hops as [|a b c (now & Hn & Hop) _ IH]; [done|].
    intros Hc. apply IH; [done..|]. by apply (op_keeps_claim now _ _ _ a). }
  split.
  - by apply (claim_refused fault' wall' source eventID source eventID at' limit db2).
  - by apply (claim_refused no_faults wall' source eventID source eventID at' limit db2).
Qed.
End claims.

(** ** Feedback *)

Section votes.
Context `{Runtime}.

Lemma labelled_partition (m : gmap (string * string) rating_row) :
  (forall k r, m !! k = Some r -> validFeedbackLabel r.(rating_label) = true) ->
  labelled FeedbackPositive m + labelled FeedbackNegative m = Z.of_nat (size m).
Proof.
  unfold labelled. induction m as [|k r m Hk IH] using map_ind; intros Hl; [done|].
  rewrite !map_total_insert, map_size_insert_None by done.
  assert (Hr : validFeedbackLabel r.(rating_label) = true) by (apply (Hl k); apply lookup_insert_eq).
  assert (Hm : forall k' r', m !! k' = Some r' -> validFeedbackLabel r'.(rating_label) = true).
  { intros k' r' Hk'. apply (Hl k'). rewrite lookup_insert_ne; [done|]. intros ->. congruence. }
  specialize (IH Hm). apply bool_decide_eq_true in Hr. rewrite list_elem_of_In in Hr. simpl in Hr.
  destruct Hr as [<-|[<-|[]]]; rewrite ?(bool_decide_true _ eq_refl), ?(bool_decide_false (_ = _)) by done; lia.
Qed.

Lemma outputs_le_votes (m : gmap (string * string) rating_row) :
  (size (set_map fst (dom m) : gset string) <= size m)%nat
  /\ (size (set_map fst (dom m) : gset string) = 0%nat <-> m = ∅).
Proof.
  split.
  - induction m as [|k r m Hk IH] using map_ind; [by rewrite dom_empty_L|].
    rewrite dom_insert_L, set_map_union_L, set_map_singleton_L, map_size_insert_None by done.
    rewrite size_union_alt, size_singleton. etrans; [|apply (le_n_S _ _ IH)]. apply le_n_S.
    apply subseteq_size. set_solver.
  - split.
    + intros Hs%size_empty_inv. destruct (decide (m = ∅)) as [|Hm]; [done|].
      apply map_choose in Hm as (k & r & Hk). exfalso.
      assert (Hin : k.1 ∈ (set_map fst (dom m) : gset string)).
      { apply elem_of_map. exists k. split; [done|]. by apply elem_of_dom. }
      rewrite Hs in Hin. by apply elem_of_empty in Hin.
    + intros ->. by rewrite dom_empty_L.
Qed.

(** the feedback statistics count votes: in every state of the database that its
    operations can reach, the positive and negative ratings are together exactly the
    ratings of the window whose reply is still registered (one per user and reply, since
    a new rating replaces the old one), there are at most as many rated replies, none
    when there is no rating, and the rate is then 0. *)
Theorem feedback_counts_votes (wall since : time) (db db' : TraceDB) (stats : FeedbackRuntimeStats) :
  trace_reachable db -> IsZero since = false ->
  FeedbackStats no_faults wall since db = (Ok stats, db') ->
  let votes := counted_ratings since wall db' in
  stats.(Positive) + stats.(Negative) = Z.of_nat (size votes)
  /\ 0 <= stats.(RatedOutputs) <= Z.of_nat (size votes)
  /\ (stats.(RatedOutputs) = 0 <-> votes = ∅) /\ (votes = ∅ -> stats.(PositiveRate) = f_zero)
  /\ forall ref actor r, votes !! (ref, actor) = Some r ->
       db'.(fairy_feedback_ratings) !! (ref, actor) = Some r
       /\ exists out, db'.(fairy_feedback_outputs) !! ref = Some out
            /\ UnixMilli wall < out.(output_expires_at).
Proof.
  intros Hok%reachable_trace_ok Hz. unfold FeedbackStats. rewrite Hz. cbv zeta.
  pose proof (pruneIfDue_ok no_faults wall db Hok) as Hok'.
  destruct (pruneIfDue no_faults wall db) as [[u|err] db1]; [|done]. unfold exec. cbn [no_faults].
  intros [= <- <-]. cbn [Positive Negative RatedOutputs PositiveRate]. simpl in Hok'.
  set (votes := counted_ratings since wall db1).
  assert (Hp : labelled FeedbackPositive votes + labelled FeedbackNegative votes = Z.of_nat (size votes)).
  { apply labelled_partition. intros k r [Hr _]%map_lookup_filter_Some. by eapply tr_labels. }
  destruct (outputs_le_votes votes) as [Hle Hzero]. split; [done|]. split; [lia|]. split; [|split].
  - rewrite <-Hzero. lia.
  - intros Hv. rewrite Hp, Hv. done.
  - intros ref actor r [Hr [_ Hlive]]%map_lookup_filter_Some. split; [done|]. simpl in Hlive.
    unfold live_output in Hlive. destruct (fairy_feedback_outputs db1 !! ref) as [out|]; [|done].
    exists out. split; [done|]. by apply Z.ltb_lt.
Qed.
End votes.

(** ** A concrete database *)

Definition demo_attempt : TraceEvent :=
  (trace_event demo_epoch TraceModelAttempt "trace_1" "turn_1" "c1" "zzz-message" "completed")
    <| TraceEvent_TaskID := ReplyerTaskID |> <| TraceEvent_ProviderID := "p" |>
    <| TraceEvent_ModelID := "m" |> <| TraceEvent_SnapshotID := "s" |>
    <| TraceEvent_Attempt := 1 |> <| TraceEvent_DurationMS := 250 |>.
(** an event was claimed and answered, and the reply rated *)
Definition demo_claimed : TraceDB :=
  (ClaimIngress no_faults demo_epoch "zzz-message" "m1" demo_epoch (empty_trace_db "key")).2.
Definition demo_traced : TraceDB :=
  (Append (H := demo_runtime) no_faults demo_epoch demo_attempt demo_claimed).2.
Definition demo_registered : TraceDB :=
  (RegisterFeedbackOutput (H := demo_runtime) no_faults demo_epoch "r1" "turn_1" demo_epoch demo_traced).2.
Definition demo_rated : TraceDB :=
  (ApplyFeedback (H := demo_runtime) no_faults demo_epoch "r1" "alice" FeedbackPositive false
     demo_epoch demo_registered).2.

(** each step, as an operation *)
Lemma demo_claim_op : trace_op (H := demo_runtime) demo_epoch (empty_trace_db "key") demo_claimed.
Proof. change demo_epoch with (at_or demo_epoch demo_epoch) at 1. eapply op_claim, surjective_pairing. Qed.
Lemma demo_append_op : trace_op (H := demo_runtime) demo_epoch demo_claimed demo_traced.
Proof.
  eapply (op_append no_faults demo_epoch demo_attempt); [|apply surjective_pairing].
  split; intros Ht; vm_compute in Ht; discriminate Ht.
Qed.
Lemma demo_register_op : trace_op (H := demo_runtime) demo_epoch demo_traced demo_registered.
Proof. change demo_epoch with (at_or demo_epoch demo_epoch) at 1. eapply op_register, surjective_pairing. Qed.
Lemma demo_feedback_op : trace_op (H := demo_runtime) demo_epoch demo_registered demo_rated.
Proof. change demo_epoch with (at_or demo_epoch demo_epoch) at 1. eapply op_feedback, surjective_pairing. Qed.

Lemma demo_rated_reachable : trace_reachable (H := demo_runtime) demo_rated.
Proof.
  eapply traces_op, demo_feedback_op. eapply traces_op, demo_register_op.
  eapply traces_op, demo_append_op. eapply traces_op, demo_claim_op. apply traces_empty.
Qed.

Lemma trace_statistics_consistent_witness :
  exists stats, RuntimeStats no_faults demo_epoch zero_time demo_rated = Ok stats
    /\ stats.(stats_ModelAttempts) = stats.(stats_ModelCompleted) + stats.(stats_ModelFailed).
Proof.
  destruct (trace_statistics_consistent (H := demo_runtime) demo_rated demo_epoch zero_time
    demo_rated_reachable) as (stats & Hs & Hm & _). exists stats. exact (conj Hs Hm).
Defined.

Lemma appended_event_is_read_back_witness :
  exists chain', loadDecisionChain (H := demo_runtime) no_faults "turn_1" demo_traced = Ok chain'
    /\ chain'.(Chain_UpdatedAt) = demo_epoch.
Proof.
  destruct (appended_event_is_read_back (H := demo_runtime) demo_epoch demo_attempt demo_claimed
    demo_traced no_faults "" (mkChain "turn_1" "" "" zero_time zero_time "running" []))
    as [(chain' & Hc & _ & Hu) _]; [apply pair_by_fst| | | |];
    try (vm_compute; reflexivity).
  exists chain'. split; [exact Hc|]. rewrite Hu. vm_compute. reflexivity.
Defined.

Lemma ingress_claim_is_exclusive_witness :
  (ClaimIngress no_faults demo_epoch "zzz-message" "m1" (demo_epoch + hour) demo_rated).1 = Ok false.
Proof.
  assert (E : ClaimIngress no_faults demo_epoch "zzz-message" "m1" demo_epoch (empty_trace_db "key")
    = (Ok true, demo_claimed)) by (apply pair_by_fst; vm_compute; reflexivity).
  assert (L : UnixMilli (at_or demo_epoch demo_epoch)
    < UnixMilli (at_or demo_epoch demo_epoch + demo_claimed.(retention))) by (vm_compute; reflexivity).
  assert (L' : UnixMilli (at_or demo_epoch (demo_epoch + hour))
    < UnixMilli (at_or demo_epoch demo_epoch + demo_claimed.(retention))) by (vm_compute; reflexivity).
  assert (Hops : ops_before (H := demo_runtime)
    (UnixMilli (at_or demo_epoch demo_epoch + demo_claimed.(retention))) demo_claimed demo_rated).
  { eapply rtc_l; [|eapply rtc_l; [|eapply rtc_l; [|apply rtc_refl]]];
      (exists demo_epoch; split; [exact L|]).
    - apply demo_append_op.
    - apply demo_register_op.
    - apply demo_feedback_op. }
  exact (proj2 (ingress_claim_is_exclusive (H := demo_runtime) no_faults demo_epoch demo_epoch
    "zzz-message" "m1" (empty_trace_db "key") demo_claimed demo_rated E L Hops
    no_faults demo_epoch (demo_epoch + hour) L')).
Defined.

Definition demo_votes : FeedbackRuntimeStats := mkFeedbackRuntimeStats 24 1 1 0 f_one.
Definition demo_read : result FeedbackRuntimeStats * TraceDB :=
  FeedbackStats no_faults demo_epoch (demo_epoch - hour) demo_rated.

Lemma feedback_counts_votes_witness :
  demo_votes.(Positive) + demo_votes.(Negative) = 1.
Proof.
  assert (E1 : demo_read.1 = Ok demo_votes) by (vm_compute; reflexivity).
  assert (E : FeedbackStats no_faults demo_epoch (demo_epoch - hour) demo_rated = (Ok demo_votes, demo_read.2)).
  { by apply pair_by_fst. }
  assert (Hz : IsZero (demo_epoch - hour) = false) by (vm_compute; reflexivity).
  assert (Hs : size (counted_ratings (demo_epoch - hour) demo_epoch demo_read.2) = 1%nat)
    by (vm_compute; reflexivity).
  destruct (feedback_counts_votes (H := demo_runtime) demo_epoch (demo_epoch - hour) demo_rated demo_read.2
    demo_votes demo_rated_reachable Hz E) as [Hv _].
  rewrite Hv, Hs. reflexivity.
Defined.
