(* ===== verification/JsonText.v ===== *)
(** * JSON texts (encoding/json)

    A text is read into a tree that keeps what a decoder with UseNumber sees: the literal
    of a number, the members of an object in their order.  [parse_text] is a Decoder that
    decodes one value and then finds the end of its input.  Strings are written as
    json.Marshal writes them. *)
From S2P Require Import Prelude GoLib.
From stdpp Require Import gmap strings list.
From Stdlib Require Import ZArith.

Local Open Scope Z_scope.

Inductive jtext : Type :=
| TNull
| TBool (b : bool)
| TNumber (literal : string)
| TString (s : string)
| TArray (l : list jtext)
| TObject (members : list (string * jtext)).

Section jtext_ind.
Variable P : jtext -> Prop.
Hypotheses (Hnull : P TNull) (Hbool : forall b, P (TBool b)) (Hnumber : forall n, P (TNumber n))
  (Hstring : forall t, P (TString t)) (Harray : forall l, Forall P l -> P (TArray l))
  (Hobject : forall ms, Forall (fun kv => P kv.2) ms -> P (TObject ms)).
Fixpoint jtext_nested_ind (v : jtext) : P v :=
  match v with
  | TNull => Hnull
  | TBool b => Hbool b
  | TNumber n => Hnumber n
  | TString t => Hstring t
  | TArray l =>
      Harray l ((fix go l : Forall P l :=
        match l with [] => Forall_nil_2 _ | v :: l => Forall_cons_2 _ _ _ (jtext_nested_ind v) (go l) end) l)
  | TObject ms =>
      Hobject ms ((fix go ms : Forall (fun kv => P kv.2) ms :=
        match ms with [] => Forall_nil_2 _ | kv :: ms => Forall_cons_2 _ _ _ (jtext_nested_ind kv.2) (go ms) end) ms)
  end.
End jtext_ind.

(** ** Reading *)

Definition is_space (b : Z) : bool := existsb (Z.eqb b) [9; 10; 13; 32].
Fixpoint skip_ws (l : list Z) : list Z :=
  match l with b :: rest => if is_space b then skip_ws rest else l | [] => [] end.

Fixpoint span_digits (l : list Z) : list Z * list Z :=
  match l with
  | b :: rest => if is_digit b then let '(ds, rest) := span_digits rest in (b :: ds, rest) else ([], l)
  | [] => ([], [])
  end.
Definition digits1 (l : list Z) : option (list Z * list Z) :=
  match span_digits l with ([], _) => None | r => Some r end.

(** the parts of a number, each as the bytes read and the rest *)
Definition read_sign (l : list Z) : list Z * list Z :=
  match l with 45 :: rest => ([45], rest) | _ => ([], l) end.
Definition read_int (l : list Z) : option (list Z * list Z) :=
  match l with 48 :: rest => Some ([48], rest) | _ => digits1 l end.
Definition read_fraction (l : list Z) : option (list Z * list Z) :=
  match l with
  | 46 :: rest => '(ds, rest) ← digits1 rest; Some (46 :: ds, rest)
  | _ => Some ([], l)
  end.
Definition read_exponent (l : list Z) : option (list Z * list Z) :=
  match l with
  | e :: rest =>
      if (e =? 101) || (e =? 69) then
        let '(sign, rest) :=
          match rest with s :: rest' => if (s =? 43) || (s =? 45) then ([s], rest') else ([], rest) | [] => ([], []) end in
        '(ds, rest) ← digits1 rest; Some (e :: sign ++ ds, rest)
      else Some ([], l)
  | [] => Some ([], [])
  end.
Definition read_number (l : list Z) : option (list Z * list Z) :=
  let '(sign, l) := read_sign l in
  '(int, l) ← read_int l;
  '(fraction, l) ← read_fraction l;
  '(exponent, l) ← read_exponent l;
  Some (sign ++ int ++ fraction ++ exponent, l).

Definition hex_value (b : Z) : option Z :=
  if is_digit b then Some (b - 48)
  else if GoLib.between 97 102 b then Some (b - 87)
  else if GoLib.between 65 70 b then Some (b - 55)
  else None.
Definition read_hex4 (l : list Z) : option (Z * list Z) :=
  match l with
  | a :: b :: c :: d :: rest =>
      a ← hex_value a; b ← hex_value b; c ← hex_value c; d ← hex_value d;
      Some (4096 * a + 256 * b + 16 * c + d, rest)
  | _ => None
  end.

(** the rune of an escape with four digits, which may go on with a second one *)
Definition read_escaped_rune (l : list Z) : option (Z * list Z) :=
  '(r, rest) ← read_hex4 l;
  if GoLib.between 0xD800 0xDFFF r then
    match rest with
    | 92 :: 117 :: rest' =>
        match read_hex4 rest' with
        | Some (r2, rest2) =>
            if GoLib.between 0xD800 0xDBFF r && GoLib.between 0xDC00 0xDFFF r2
            then Some ((r - 0xD800) * 1024 + (r2 - 0xDC00) + 0x10000, rest2)
            else Some (0xFFFD, rest)
        | None => Some (0xFFFD, rest)
        end
    | _ => Some (0xFFFD, rest)
    end
  else Some (r, rest).

(** an escape of one letter *)
Definition simple_escape (b : Z) : option Z :=
  match b with
  | 34 => Some 34 | 92 => Some 92 | 47 => Some 47 | 98 => Some 8 | 102 => Some 12
  | 110 => Some 10 | 114 => Some 13 | 116 => Some 9 | _ => None
  end.

(** a string after its opening quote: its bytes, invalid ones as U+FFFD, and the rest *)
Fixpoint read_string (fuel : nat) (l : list Z) : option (list Z * list Z) :=
  match fuel with
  | O => None
  | S fuel =>
      match l with
      | [] => None
      | 34 :: rest => Some ([], rest)
      | 92 :: 117 :: rest =>
          '(r, rest) ← read_escaped_rune rest;
          '(s, rest) ← read_string fuel rest;
          Some (encode_rune r ++ s, rest)
      | 92 :: b :: rest =>
          c ← simple_escape b;
          '(s, rest) ← read_string fuel rest;
          Some (c :: s, rest)
      | b :: _ =>
          if b <? 32 then None
          else let '(r, n) := decode_rune l in
               '(s, rest) ← read_string fuel (drop n l);
               Some (encode_rune r ++ s, rest)
      end
  end.

Definition maxNestingDepth : Z := 10000.

(** [read_value], [read_members] and [read_elements] start after white space, after the
    opening brace or a comma, and after the opening bracket or a comma *)
Fixpoint read_value (fuel : nat) (depth : Z) (l : list Z) : option (jtext * list Z) :=
  match fuel with
  | O => None
  | S fuel =>
      match l with
      | 123 :: rest =>
          if maxNestingDepth <? depth + 1 then None
          else match skip_ws rest with
               | 125 :: rest => Some (TObject [], rest)
               | rest => '(ms, rest) ← read_members fuel (depth + 1) rest; Some (TObject ms, rest)
               end
      | 91 :: rest =>
          if maxNestingDepth <? depth + 1 then None
          else match skip_ws rest with
               | 93 :: rest => Some (TArray [], rest)
               | rest => '(vs, rest) ← read_elements fuel (depth + 1) rest; Some (TArray vs, rest)
               end
      | 34 :: rest => '(s, rest) ← read_string (length rest) rest; Some (TString (of_bytes s), rest)
      | _ =>
          match bytes_prefix (bytes "true") l, bytes_prefix (bytes "false") l, bytes_prefix (bytes "null") l with
          | Some rest, _, _ => Some (TBool true, rest)
          | _, Some rest, _ => Some (TBool false, rest)
          | _, _, Some rest => Some (TNull, rest)
          | _, _, _ => '(literal, rest) ← read_number l; Some (TNumber (of_bytes literal), rest)
          end
      end
  end
with read_members (fuel : nat) (depth : Z) (l : list Z) : option (list (string * jtext) * list Z) :=
  match fuel with
  | O => None
  | S fuel =>
      match skip_ws l with
      | 34 :: rest =>
          '(name, rest) ← read_string (length rest) rest;
          match skip_ws rest with
          | 58 :: rest =>
              '(v, rest) ← read_value fuel depth (skip_ws rest);
              match skip_ws rest with
              | 44 :: rest => '(ms, rest) ← read_members fuel depth rest; Some ((of_bytes name, v) :: ms, rest)
              | 125 :: rest => Some ([(of_bytes name, v)], rest)
              | _ => None
              end
          | _ => None
          end
      | _ => None
      end
  end
with read_elements (fuel : nat) (depth : Z) (l : list Z) : option (list jtext * list Z) :=
  match fuel with
  | O => None
  | S fuel =>
      '(v, rest) ← read_value fuel depth (skip_ws l);
      match skip_ws rest with
      | 44 :: rest => '(vs, rest) ← read_elements fuel depth rest; Some (v :: vs, rest)
      | 93 :: rest => Some ([v], rest)
      | _ => None
      end
  end.

(** every step but the first consumes a byte, and reading an element takes two *)
Definition parse_text (s : string) : option jtext :=
  let l := bytes s in
  match read_value (2 * length l + 2) 0 (skip_ws l) with
  | Some (v, rest) => match skip_ws rest with [] => Some v | _ => None end
  | None => None
  end.

(** ** Objects *)

(** the last member of a name is the one that counts *)
Fixpoint member (name : string) (members : list (string * jtext)) : option jtext :=
  match members with
  | [] => None
  | (key, v) :: rest =>
      match member name rest with
      | Some v => Some v
      | None => if bool_decide (key = name) then Some v else None
      end
  end.

(** ** Numbers *)

Definition digits_value (l : list Z) : Z := foldl (fun n d => 10 * n + (d - 48)) 0 l.
(** strconv.ParseInt(literal, 10, 64) on the literal of a JSON number *)
Definition ParseInt64 (literal : string) : option Z :=
  let '(sign, ds) := read_sign (bytes literal) in
  if bool_decide (ds = []) || negb (forallb is_digit ds) then None
  else
    let n := match sign with [] => digits_value ds | _ => - digits_value ds end in
    if (- 2 ^ 63 <=? n) && (n <=? maxInt64) then Some n else None.
(** strconv.ParseFloat(literal, 64) *)
Definition ParseFloat64 `{Runtime} (literal : string) : option SpecFloat.spec_float :=
  match parse_float literal with (x, true) => Some x | _ => None end.

(** ** Writing *)

Definition hex_byte (z : Z) : Z := if z <? 10 then 48 + z else 87 + z.
Definition escape_u (r : Z) : list Z :=
  [92; 117; hex_byte (r / 4096); hex_byte (r / 256 mod 16); hex_byte (r / 16 mod 16); hex_byte (r mod 16)].

(** a rune of a string; json.Marshal escapes the characters of HTML *)
Definition write_rune (r : Z) : list Z :=
  match r with
  | 34 => [92; 34] | 92 => [92; 92] | 8 => [92; 98] | 12 => [92; 102]
  | 10 => [92; 110] | 13 => [92; 114] | 9 => [92; 116]
  | _ =>
      if (r <? 32) || existsb (Z.eqb r) [60; 62; 38; 0x2028; 0x2029] then escape_u r else encode_rune r
  end.
(** as in [GoLib.decode_runes]; an invalid byte is written as the escape of U+FFFD *)
Fixpoint write_runes (fuel : nat) (l : list Z) : list Z :=
  match fuel, l with
  | S fuel, _ :: _ =>
      let '(r, n) := decode_rune l in
      (if (r =? 0xFFFD) && Nat.eqb n 1 then escape_u r else write_rune r) ++ write_runes fuel (drop n l)
  | _, _ => []
  end.
Definition write_string (s : string) : list Z :=
  let l := bytes s in 34 :: write_runes (length l) l ++ [34].

(** json.Compact with escaping, as json.Marshal applies it to a RawMessage: [quoted] is
    whether we are in a string, [escaped] whether the byte before was a backslash *)
Fixpoint compact (quoted escaped : bool) (l : list Z) : list Z :=
  match l with
  | [] => []
  | 0xE2 :: 0x80 :: 0xA8 :: rest => escape_u 0x2028 ++ compact quoted false rest
  | 0xE2 :: 0x80 :: 0xA9 :: rest => escape_u 0x2029 ++ compact quoted false rest
  | b :: rest =>
      if existsb (Z.eqb b) [60; 62; 38] then escape_u b ++ compact quoted false rest
      else if negb quoted && is_space b then compact quoted false rest
      else b :: compact (if escaped then quoted else xorb quoted (b =? 34)) (quoted && negb escaped && (b =? 92)) rest
  end.

(** ** Examples *)

Example parse_object :
  parse_text (" { " +:+ of_bytes (write_string "uid") +:+ " : [1, -2.5e3 , true,null] } ")
  = Some (TObject [("uid", TArray [TNumber "1"; TNumber "-2.5e3"; TBool true; TNull])]).
Proof. vm_compute. reflexivity. Qed.
Example parse_trailing : parse_text "{} {}" = None /\ parse_text "[1,]" = None /\ parse_text "01" = None.
Proof. vm_compute. done. Qed.
Example parse_pair : parse_text (of_bytes ([34] ++ escape_u 0xD83D ++ escape_u 0xDE00 ++ [34])) = Some (TString "😀").
Proof. vm_compute. reflexivity. Qed.
