(* ===== verification/FairySchema.v ===== *)
(** * Schemas of tool arguments and results (fairy/tool.go)

    The subset of JSON Schema that a tool may use: decoding a schema from its text with
    DisallowUnknownFields, compiling it (the checks, and its patterns), and validating the
    text of a value.  regexp.Compile is a parameter, since the patterns come from tools. *)
From S2P Require Import Prelude GoLib DynamicContent JsonText.
From stdpp Require Import gmap strings list.
From Stdlib Require Import ZArith SpecFloat.

Local Open Scope Z_scope.
Local Open Scope go_scope.

(** regexp.Compile, and MatchString of its result *)
Class Regexps := { regexp_compile : string -> option (string -> bool) }.

(** Go's nil map and empty map of [Properties] behave alike *)
Inductive toolSchema := mkSchema {
  Schema_Type : string;
  Schema_Properties : list (string * option toolSchema);
  Schema_Required : list string;
  Schema_AdditionalProperties : option bool;
  Schema_Items : option toolSchema;
  Schema_MinLength : option Z;
  Schema_MaxLength : option Z;
  Schema_Pattern : string;
  Schema_Minimum : option spec_float;
  Schema_Maximum : option spec_float;
  Schema_pattern : option (string -> bool) }.
#[export] Instance eta_toolSchema : Eta toolSchema := fun r => mkSchema
  r.(Schema_Type) r.(Schema_Properties) r.(Schema_Required) r.(Schema_AdditionalProperties)
  r.(Schema_Items) r.(Schema_MinLength) r.(Schema_MaxLength) r.(Schema_Pattern) r.(Schema_Minimum)
  r.(Schema_Maximum) r.(Schema_pattern).
Definition empty_schema : toolSchema := mkSchema "" [] [] None None None None "" None None None.

Implicit Type s : toolSchema.

(** a map as the list of its entries: [m[name]], and [m[name] = v] *)
Fixpoint entry_of {A} (name : string) (m : list (string * A)) : option A :=
  match m with
  | [] => None
  | (key, v) :: rest => if bool_decide (key = name) then Some v else entry_of name rest
  end.
Definition assign {A} (name : string) (v : A) (m : list (string * A)) : list (string * A) :=
  (name, v) :: List.filter (fun kv => negb (bool_decide (kv.1 = name))) m.

(** a loop that stops at the first error *)
Definition traverse {A B} (f : A -> result B) : list A -> result (list B) :=
  fix go l :=
    match l with
    | [] => Ok []
    | x :: l =>
        match f x with
        | Err e => Err e
        | Ok y => match go l with Err e => Err e | Ok l => Ok (y :: l) end
        end
    end.

(** ** Decoding *)

(** the rune a field name is compared by: the least of its orbit under simple folding *)
Definition fold_rune (r : Z) : Z :=
  if is_lower r then r - 32 else if r =? 0x17F then 83 else if r =? 0x212A then 75 else r.
Definition same_field (key name : string) : bool :=
  bool_decide (key = name)
  || bool_decide ((fold_rune <$> runes key) = (fold_rune <$> runes name)).

Section schemas.
Context `{Runtime} `{Regexps}.

Definition decode_string (v : jtext) (old : string) : option string :=
  match v with TNull => Some old | TString t => Some t | _ => None end.
Definition decode_strings (v : jtext) : option (list string) :=
  match v with
  | TNull => Some []
  | TArray l => mapM (fun v => decode_string v "") l
  | _ => None
  end.
(** fields that are pointers *)
Definition decode_bool (v : jtext) : option (option bool) :=
  match v with TNull => Some None | TBool b => Some (Some b) | _ => None end.
Definition decode_int (v : jtext) : option (option Z) :=
  match v with TNull => Some None | TNumber literal => Some <$> ParseInt64 literal | _ => None end.
Definition decode_float (v : jtext) : option (option spec_float) :=
  match v with TNull => Some None | TNumber literal => Some <$> ParseFloat64 literal | _ => None end.

(** Decode into [s]: members in their order, a null leaves a struct as it is, and a field
    that is given twice is decoded into what the first gave; [None] is an error *)
Fixpoint decode_schema (v : jtext) s {struct v} : option toolSchema :=
  match v with
  | TNull => Some s
  | TObject members =>
      (fix go (members : list (string * jtext)) s {struct members} : option toolSchema :=
         match members with
         | [] => Some s
         | (key, v) :: rest =>
             s ← (if same_field key "type" then
                    x ← decode_string v s.(Schema_Type); Some (s <| Schema_Type := x |>)
                  else if same_field key "properties" then
                    match v with
                    | TNull => Some (s <| Schema_Properties := [] |>)
                    | TObject ps =>
                        (fix add (ps : list (string * jtext)) s {struct ps} : option toolSchema :=
                           match ps with
                           | [] => Some s
                           | (name, v) :: ps =>
                               p ← match v with TNull => Some None | _ => Some <$> decode_schema v empty_schema end;
                               add ps (s <| Schema_Properties ::= assign name p |>)
                           end) ps s
                    | _ => None
                    end
                  else if same_field key "required" then
                    x ← decode_strings v; Some (s <| Schema_Required := x |>)
                  else if same_field key "additionalProperties" then
                    x ← decode_bool v; Some (s <| Schema_AdditionalProperties := x |>)
                  else if same_field key "items" then
                    x ← match v with
                        | TNull => Some None
                        | _ => Some <$> decode_schema v (default empty_schema s.(Schema_Items))
                        end;
                    Some (s <| Schema_Items := x |>)
                  else if same_field key "minLength" then
                    x ← decode_int v; Some (s <| Schema_MinLength := x |>)
                  else if same_field key "maxLength" then
                    x ← decode_int v; Some (s <| Schema_MaxLength := x |>)
                  else if same_field key "pattern" then
                    x ← decode_string v s.(Schema_Pattern); Some (s <| Schema_Pattern := x |>)
                  else if same_field key "minimum" then
                    x ← decode_float v; Some (s <| Schema_Minimum := x |>)
                  else if same_field key "maximum" then
                    x ← decode_float v; Some (s <| Schema_Maximum := x |>)
                  else None);
             go rest s
         end) members s
  | _ => None
  end.

(** ** Compiling *)

Definition schema_name_character (c : Z) : bool :=
  is_lower c || is_upper c || is_digit c || is_char "_" c || is_char "-" c.
Definition validSchemaPropertyName (value : string) : bool :=
  if bool_decide (value = "") || (64 <? slen value) then false
  else forallb schema_name_character (runes value).

Definition non_nil (p : option (option toolSchema)) : bool := match p with Some (Some _) => true | _ => false end.

Fixpoint check_required (path : string) s (seen required : list string) : result unit :=
  match required with
  | [] => Ok tt
  | name :: rest =>
      if bool_decide (name ∈ seen) || negb (non_nil (entry_of name s.(Schema_Properties)))
      then Err (path +:+ " has invalid required property " +:+ quoted name)
      else check_required path s (name :: seen) rest
  end.

(** a limit that is given: [p] holds of it *)
Definition given {A} (x : option A) (p : A -> bool) : bool := match x with Some x => p x | None => false end.
Definition given2 {A} (x y : option A) (p : A -> A -> bool) : bool :=
  match x, y with Some x, Some y => p x y | _, _ => false end.

Definition compile_limits (path : string) s : result toolSchema :=
  if given2 s.(Schema_Minimum) s.(Schema_Maximum) (fun lo hi => SFltb hi lo)
  then Err (path +:+ " has invalid numeric limits") else Ok s.

Definition compile_string (path : string) s : result toolSchema :=
  if given s.(Schema_MinLength) (fun n => n <? 0) || given s.(Schema_MaxLength) (fun n => n <? 0)
     || given2 s.(Schema_MinLength) s.(Schema_MaxLength) (fun lo hi => hi <? lo)
  then Err (path +:+ " has invalid string length limits")
  else if bool_decide (s.(Schema_Pattern) = "") then compile_limits path s
  else match regexp_compile s.(Schema_Pattern) with
       | None => Err (path +:+ " has invalid pattern")
       | Some matches => compile_limits path (s <| Schema_pattern := Some matches |>)
       end.

Definition other_types : list string := ["integer"; "number"; "boolean"; "null"].
Notation is_type s t := (bool_decide (s.(Schema_Type) = t)).

(** *toolSchema.compile: the patterns are stored in the schema *)
Fixpoint compile (path : string) s {struct s} : result toolSchema :=
  if is_type s "object" then
    match check_required path s [] s.(Schema_Required) with
    | Err e => Err e
    | Ok _ =>
        match traverse (fun '(name, property) =>
                 match property with
                 | None => Err (path +:+ " has invalid property " +:+ quoted name)
                 | Some p =>
                     if negb (validSchemaPropertyName name)
                     then Err (path +:+ " has invalid property " +:+ quoted name)
                     else match compile (path +:+ "." +:+ name) p with Err e => Err e | Ok p => Ok (name, Some p) end
                 end) s.(Schema_Properties) with
        | Err e => Err e
        | Ok ps => compile_limits path (s <| Schema_Properties := ps |>)
        end
    end
  else if is_type s "array" then
    match s.(Schema_Items) with
    | None => Err (path +:+ " array schema requires items")
    | Some items =>
        match compile (path +:+ "[]") items with
        | Err e => Err e
        | Ok items => compile_limits path (s <| Schema_Items := Some items |>)
        end
    end
  else if is_type s "string" then compile_string path s
  else if bool_decide (s.(Schema_Type) ∈ other_types) then compile_limits path s
  else Err (path +:+ " has unsupported type " +:+ quoted s.(Schema_Type)).

Definition compileToolSchema (raw : string) : result toolSchema :=
  match parse_text raw with
  | None => Err "invalid JSON"
  | Some v =>
      match decode_schema v empty_schema with
      | None => Err "invalid schema"
      | Some s =>
          if negb (bool_decide (s.(Schema_Type) = "object")) then Err "root schema type must be object"
          else compile "$" s
      end
  end.

(** ** Validating *)

(** the value of an absent [s.Properties[name]] is not looked at; a nil schema there
    would be, but does not pass [compile] *)
Definition validate_string s (text path : string) : result unit :=
  let length := Z.of_nat (length (runes text)) in
  if given s.(Schema_MinLength) (fun n => length <? n) || given s.(Schema_MaxLength) (fun n => n <? length)
     || given s.(Schema_pattern) (fun matches => negb (matches text))
  then Err (path +:+ " does not satisfy its string constraints") else Ok tt.

Definition validate_number s (literal path : string) : result unit :=
  if bool_decide (s.(Schema_Type) = "integer") && negb (bool_decide (is_Some (ParseInt64 literal)))
  then Err (path +:+ " must be an integer")
  else match ParseFloat64 literal with
       | None => Err (path +:+ " does not satisfy its numeric constraints")
       | Some x =>
           if given s.(Schema_Minimum) (fun lo => SFltb x lo) || given s.(Schema_Maximum) (fun hi => SFltb hi x)
           then Err (path +:+ " does not satisfy its numeric constraints") else Ok tt
       end.

Fixpoint missing (members : list (string * jtext)) (required : list string) : option string :=
  match required with
  | [] => None
  | name :: rest => if bool_decide (member name members = None) then Some name else missing members rest
  end.

(** [Panicked] is a nil dereference: no items, or a nil property *)
Inductive verdict := Valid | Invalid (err : string) | Panicked.
Definition verdict_of (r : result unit) : verdict := match r with Ok _ => Valid | Err e => Invalid e end.

(** the loops over a map, which has one child per name, and over a slice *)
Definition each_member (f : string -> jtext -> verdict) : list (string * jtext) -> verdict :=
  fix each ms :=
    match ms with
    | [] => Valid
    | (name, child) :: rest =>
        if bool_decide (is_Some (member name rest)) then each rest
        else match f name child with Valid => each rest | v => v end
    end.
Definition each_element (f : Z -> jtext -> verdict) : Z -> list jtext -> verdict :=
  fix each index l :=
    match l with
    | [] => Valid
    | child :: rest => match f index child with Valid => each (index + 1) rest | v => v end
    end.

Fixpoint validateValue (value : jtext) s (path : string) {struct value} : verdict :=
  if is_type s "object" then
    match value with
    | TObject members =>
        match missing members s.(Schema_Required) with
        | Some name => Invalid (path +:+ "." +:+ name +:+ " is required")
        | None =>
            each_member (fun name child =>
              match entry_of name s.(Schema_Properties) with
              | None =>
                  if default true s.(Schema_AdditionalProperties) then Valid
                  else Invalid (path +:+ "." +:+ name +:+ " is not allowed")
              | Some None => Panicked
              | Some (Some property) => validateValue child property (path +:+ "." +:+ name)
              end) members
        end
    | _ => Invalid (path +:+ " must be an object")
    end
  else if is_type s "array" then
    match value with
    | TArray l =>
        each_element (fun index child =>
          match s.(Schema_Items) with
          | None => Panicked
          | Some items => validateValue child items (path +:+ "[" +:+ sprint_d index +:+ "]")
          end) 0 l
    | _ => Invalid (path +:+ " must be an array")
    end
  else if is_type s "string" then
    match value with
    | TString text => verdict_of (validate_string s text path)
    | _ => Invalid (path +:+ " must be a string")
    end
  else if bool_decide (s.(Schema_Type) ∈ ["integer"; "number"]) then
    match value with
    | TNumber literal => verdict_of (validate_number s literal path)
    | _ => Invalid (path +:+ " must be a number")
    end
  else if is_type s "boolean" then
    match value with TBool _ => Valid | _ => Invalid (path +:+ " must be a boolean") end
  else if is_type s "null" then
    match value with TNull => Valid | _ => Invalid (path +:+ " must be null") end
  else Valid.

Definition Validate s (raw : string) : verdict :=
  match parse_text raw with
  | None => Invalid "invalid JSON"
  | Some value => validateValue value s "$"
  end.
End schemas.
