(* ===== verification/FairySensitive.v ===== *)
(** * Credentials in messages (fairy/sensitive.go)

    The patterns of regexp, parsed from their text, and matched by derivatives.  Only the
    syntax that the patterns of the package use is read: literals, classes, groups,
    alternatives, repetitions, [^], [$], [\b], [\s] and the flag i. *)
From S2P Require Import Prelude GoLib.
From stdpp Require Import strings list.
From Stdlib Require Import ZArith.

Local Open Scope Z_scope.
Local Open Scope go_scope.

(** ** Regular expressions *)

Inductive re :=
| Nothing | Epsilon | Chr (p : Z -> bool) | Seq (a b : re) | Alt (a b : re) | Star (a : re)
| WordBoundary | BeginText | EndText.

(** between the runes [prev] and [next], is there a boundary of an ASCII word? *)
Definition is_word (r : option Z) : bool :=
  from_option (fun r => is_lower r || is_upper r || is_digit r || is_char "_" r) false r.
Definition boundary (prev next : option Z) : bool := xorb (is_word prev) (is_word next).

Fixpoint nullable (r : re) (prev next : option Z) : bool :=
  match r with
  | Nothing | Chr _ => false
  | Epsilon | Star _ => true
  | Seq a b => nullable a prev next && nullable b prev next
  | Alt a b => nullable a prev next || nullable b prev next
  | WordBoundary => boundary prev next
  | BeginText => bool_decide (prev = None)
  | EndText => bool_decide (next = None)
  end.

(** the constructors, without what never matches *)
Definition seq_ (a b : re) : re := match a with Nothing => Nothing | Epsilon => b | _ => Seq a b end.
Definition alt_ (a b : re) : re := match a, b with Nothing, _ => b | _, Nothing => a | _, _ => Alt a b end.

(** what is left to match of [r] after the rune [c], which follows [prev] *)
Fixpoint derive (r : re) (prev : option Z) (c : Z) : re :=
  match r with
  | Nothing | Epsilon | WordBoundary | BeginText | EndText => Nothing
  | Chr p => if p c then Epsilon else Nothing
  | Seq a b => alt_ (seq_ (derive a prev c) b) (if nullable a prev (Some c) then derive b prev c else Nothing)
  | Alt a b => alt_ (derive a prev c) (derive b prev c)
  | Star a => seq_ (derive a prev c) (Star a)
  end.

Fixpoint match_prefix (r : re) (prev : option Z) (l : list Z) : bool :=
  nullable r prev (head l)
  || match l with [] => false | c :: l => match_prefix (derive r prev c) (Some c) l end.
Fixpoint search (r : re) (prev : option Z) (l : list Z) : bool :=
  match_prefix r prev l || match l with [] => false | c :: l => search r (Some c) l end.

(** *regexp.Regexp.MatchString: invalid bytes are read as U+FFFD *)
Definition MatchString (r : re) (text : string) : bool := search r None (runes text).

(** ** Syntax *)

Fixpoint times (n : nat) (r rest : re) : re :=
  match n with O => rest | S n => Seq r (times n r rest) end.
(** up to [n] times *)
Fixpoint at_most (n : nat) (r : re) : re :=
  match n with O => Epsilon | S n => Alt (Seq r (at_most n r)) Epsilon end.

(** the runes equal to [c] up to simple folding, among ASCII letters, U+017F and U+212A;
    the other orbits have no ASCII member *)
Definition fold_orbit (c : Z) : list Z :=
  let other := if is_lower c then [c - 32] else if is_upper c then [c + 32] else [] in
  let extra := if existsb (Z.eqb c) [115; 83; 0x17F] then [115; 83; 0x17F]
               else if existsb (Z.eqb c) [107; 75; 0x212A] then [107; 75; 0x212A] else [] in
  c :: other ++ extra.

Definition spaces : list (Z * Z) := [(9, 10); (12, 13); (32, 32)].
Definition in_ranges (ranges : list (Z * Z)) (c : Z) : bool := existsb (fun '(lo, hi) => GoLib.between lo hi c) ranges.
Definition class (fold negated : bool) (ranges : list (Z * Z)) (c : Z) : bool :=
  xorb negated (existsb (in_ranges ranges) (if fold then fold_orbit c else [c])).

(** the ranges of a class up to its bracket *)
Fixpoint parse_class (fuel : nat) (l : list Z) (ranges : list (Z * Z)) : option (list (Z * Z) * list Z) :=
  match fuel with
  | O => None
  | S fuel =>
      match l with
      | 93 :: rest => Some (ranges, rest)
      | 92 :: 115 :: rest => parse_class fuel rest (spaces ++ ranges)
      | c :: 45 :: 93 :: rest => Some ((45, 45) :: (c, c) :: ranges, rest)
      | c :: 45 :: d :: rest => parse_class fuel rest ((c, d) :: ranges)
      | c :: rest => parse_class fuel rest ((c, c) :: ranges)
      | [] => None
      end
  end.

Fixpoint parse_number (l : list Z) (n : nat) : nat * list Z :=
  match l with
  | d :: rest => if is_digit d then parse_number rest (10 * n + Z.to_nat (d - 48))%nat else (n, l)
  | [] => (n, l)
  end.

Definition parse_repetition (r : re) (l : list Z) : option (re * list Z) :=
  match l with
  | 63 :: rest => Some (Alt r Epsilon, rest)
  | 42 :: rest => Some (Star r, rest)
  | 43 :: rest => Some (Seq r (Star r), rest)
  | 123 :: rest =>
      match parse_number rest 0 with
      | (n, 44 :: 125 :: rest) => Some (times n r (Star r), rest)
      | (n, 125 :: rest) => Some (times n r Epsilon, rest)
      | (n, 44 :: rest) =>
          match parse_number rest 0 with
          | (m, 125 :: rest) => if (n <=? m)%nat then Some (times n r (at_most (m - n) r), rest) else None
          | _ => None
          end
      | _ => None
      end
  | _ => Some (r, l)
  end.

Fixpoint parse_alt (fuel : nat) (fold : bool) (l : list Z) : option (re * list Z) :=
  match fuel with
  | O => None
  | S fuel =>
      match parse_seq fuel fold l with
      | Some (r, 124 :: rest) =>
          match parse_alt fuel fold rest with Some (r', rest) => Some (Alt r r', rest) | None => None end
      | other => other
      end
  end
with parse_seq (fuel : nat) (fold : bool) (l : list Z) : option (re * list Z) :=
  match fuel with
  | O => None
  | S fuel =>
      match l with
      | [] | 124 :: _ | 41 :: _ => Some (Epsilon, l)
      | _ =>
          match parse_atom fuel fold l with
          | Some (r, rest) =>
              match parse_repetition r rest with
              | Some (r, rest) =>
                  match parse_seq fuel fold rest with Some (r', rest) => Some (Seq r r', rest) | None => None end
              | None => None
              end
          | None => None
          end
      end
  end
with parse_atom (fuel : nat) (fold : bool) (l : list Z) : option (re * list Z) :=
  match fuel with
  | O => None
  | S fuel =>
      match l with
      | 94 :: rest => Some (BeginText, rest)
      | 36 :: rest => Some (EndText, rest)
      | 40 :: 63 :: 58 :: rest | 40 :: rest =>
          match parse_alt fuel fold rest with Some (r, 41 :: rest) => Some (r, rest) | _ => None end
      | 91 :: 94 :: rest =>
          match parse_class (length rest) rest [] with
          | Some (ranges, rest) => Some (Chr (class fold true ranges), rest)
          | None => None
          end
      | 91 :: rest =>
          match parse_class (length rest) rest [] with
          | Some (ranges, rest) => Some (Chr (class fold false ranges), rest)
          | None => None
          end
      | 92 :: 98 :: rest => Some (WordBoundary, rest)
      | 92 :: 115 :: rest => Some (Chr (class fold false spaces), rest)
      | 46 :: rest => Some (Chr (fun c => negb (c =? 10)), rest)
      | 63 :: _ | 42 :: _ | 43 :: _ | 92 :: _ => None
      | c :: rest => Some (Chr (class fold false [(c, c)]), rest)
      | [] => None
      end
  end.

Definition parse (fold : bool) (l : list Z) : option re :=
  match parse_alt (4 * S (length l)) fold l with Some (r, []) => Some r | _ => None end.

(** regexp.MustCompile *)
Definition Compile (pattern : string) : option re :=
  if HasPrefix pattern "(?i)" then parse true (runes (slice_from 4 pattern)) else parse false (runes pattern).

(** ** The filter *)

Definition quote : string := String (Ascii.ascii_of_nat 34) "".

Definition sensitiveCredentialPatterns : list string :=
  ["(?i)-----BEGIN (?:RSA |EC |DSA |OPENSSH |PGP )?PRIVATE KEY-----";
   "(?i)\bauthorization\s*[:=]\s*bearer\s+[a-z0-9._~+/=-]{8,}";
   "(?i)\b(?:password|passwd|pwd|api[_-]?key|access[_-]?token|session[_-]?token|secret[_-]?key)\b\s*[:=]\s*["
     +:+ quote +:+ "']?[^\s" +:+ quote +:+ "';]{6,}";
   "(?i)\b(?:cookie|set-cookie)\s*[:=]\s*[" +:+ quote +:+ "']?[^;\s=]+=[^;\s]{12,}";
   "(?i)\b(?:ltuid(?:_v2)?|ltoken(?:_v2)?|cookie_token(?:_v2)?|account_id(?:_v2)?|stoken(?:_v2)?|login_ticket)\b\s*=\s*[^;\s]{6,}";
   "(?:密码|口令|API[ _-]?密钥|访问令牌|会话令牌|密钥|令牌)\s*[:：=]\s*[" +:+ quote +:+ "']?[^\s" +:+ quote +:+ "'；;]{6,}";
   "(?i)\b(?:sk-(?:proj-|svcacct-)?[a-z0-9_-]{16,}|github_pat_[a-z0-9_]{20,}|gh[pousr]_[a-z0-9]{20,}|xox[baprs]-[a-z0-9-]{10,}|AKIA[0-9A-Z]{16})\b"].

Definition compiled_patterns : list re := omap Compile sensitiveCredentialPatterns.

Definition containsSensitiveCredential (text : string) : bool :=
  existsb (fun pattern => MatchString pattern text) compiled_patterns.

(** every pattern is read *)
Example patterns_compile : length compiled_patterns = length sensitiveCredentialPatterns.
Proof. vm_compute. reflexivity. Qed.
