(* ===== verification/FairySensitiveProps.v ===== *)
(** * The filter for credentials decides its patterns (fairy/sensitive.go)

    What it means for a text to contain a match of an expression, and that the matcher
    finds one exactly when there is one. *)
From S2P Require Import Prelude GoLib FairyTypes RuneFacts FairySensitive.
From stdpp Require Import strings list.
From Stdlib Require Import ZArith Lia.

Local Open Scope Z_scope.
Local Open Scope go_scope.

(** ** Matches

    [matches r p l q m]: between the rune [p] and the runes [l], [r] matches the part of
    [l] before [m], whose last rune (or [p]) is [q]. *)
Inductive matches : re -> option Z -> list Z -> option Z -> list Z -> Prop :=
| m_epsilon p l : matches Epsilon p l p l
| m_chr f p c l : f c = true -> matches (Chr f) p (c :: l) (Some c) l
| m_seq a b p l q m r n : matches a p l q m -> matches b q m r n -> matches (Seq a b) p l r n
| m_left a b p l q m : matches a p l q m -> matches (Alt a b) p l q m
| m_right a b p l q m : matches b p l q m -> matches (Alt a b) p l q m
| m_none a p l : matches (Star a) p l p l
| m_more a p l q m r n : matches a p l q m -> matches (Star a) q m r n -> matches (Star a) p l r n
| m_boundary p l : boundary p (head l) = true -> matches WordBoundary p l p l
| m_begin l : matches BeginText None l None l
| m_end p : matches EndText p [] p [].

(** a match, if not empty, takes the next rune *)
Lemma matches_suffix r p l q m : matches r p l q m -> (m = l /\ q = p) \/ (length m < length l)%nat.
Proof.
  induction 1 as [| | | | | | | | |]; try (by left); [right; cbn; lia|..]; try done.
  all: destruct IHmatches1 as [[-> ->]|], IHmatches2 as [[-> ->]|]; auto; right; lia.
Qed.

Lemma nullable_sound r p l : nullable r p (head l) = true -> matches r p l p l.
Proof.
  induction r as [| | |a IHa b IHb|a IHa b IHb|a _| | |]; cbn; try done; try (by constructor).
  - intros [Ha Hb]%andb_true_iff. eapply m_seq; eauto.
  - intros [Ha|Hb]%orb_true_iff; [apply m_left|apply m_right]; auto.
  - intros ->%bool_decide_eq_true. constructor.
  - rewrite bool_decide_eq_true, head_None. intros ->. constructor.
Qed.
Lemma nullable_complete r p l q m : matches r p l q m -> m = l -> nullable r p (head l) = true.
Proof.
  induction 1 as [| |a b p l q m r n H1 IH1 H2 IH2| | | |a p l q m r n H1 IH1 H2 IH2| | |]; cbn; intros E; try done.
  - exfalso. apply (f_equal length) in E. cbn in E. lia.
  - subst n. destruct (matches_suffix _ _ _ _ _ H1) as [[-> ->]|Hl1]; [by rewrite IH1, IH2|].
    destruct (matches_suffix _ _ _ _ _ H2) as [[E _]|Hl2]; [subst; lia|lia].
  - by rewrite IHmatches.
  - rewrite IHmatches by done. by rewrite orb_true_r.
Qed.

(** the simplified constructors *)
Lemma matches_seq_ a b p l r n : matches (seq_ a b) p l r n <-> matches (Seq a b) p l r n.
Proof.
  destruct a; cbn; try done.
  - split; [by inversion 1|]. inversion 1; subst. match goal with E : matches Nothing _ _ _ _ |- _ => inversion E end.
  - split; [intros Hm; eapply m_seq; [apply m_epsilon|done]|].
    inversion 1; subst. match goal with E : matches Epsilon _ _ _ _ |- _ => by inversion E; subst end.
Qed.
Lemma matches_alt_ a b p l r n : matches (alt_ a b) p l r n <-> matches (Alt a b) p l r n.
Proof.
  assert (Hn : forall p l r n, ~ matches Nothing p l r n) by (by inversion 1).
  destruct a, b; cbn; (split; [first [done|by intros ?; first [by apply m_left|by apply m_right]]|]);
    try done; inversion 1; subst; try done; exfalso; by eapply Hn.
Qed.

(** ** Derivatives *)

Lemma derive_sound r p c l q m : matches (derive r p c) (Some c) l q m -> matches r p (c :: l) q m.
Proof.
  revert p l q m. induction r as [| |f|a IHa b IHb|a IHa b IHb|a IHa| | |]; intros p l q m; cbn.
  - by inversion 1.
  - by inversion 1.
  - destruct (f c) eqn:E; inversion 1; subst. by constructor.
  - rewrite matches_alt_. inversion 1 as [| | |a' b' ? ? ? ? Hm|a' b' ? ? ? ? Hm| | | | |]; subst.
    + apply matches_seq_ in Hm. inversion Hm; subst. eapply m_seq; eauto.
    + destruct (nullable a p (Some c)) eqn:E; [|by inversion Hm].
      eapply m_seq; [by apply (nullable_sound a p (c :: l))|]. by apply IHb.
  - rewrite matches_alt_. inversion 1; subst; [apply m_left|apply m_right]; auto.
  - rewrite matches_seq_. inversion 1; subst. eapply m_more; eauto.
  - by inversion 1.
  - by inversion 1.
  - by inversion 1.
Qed.
Lemma derive_complete r p l q m :
  matches r p l q m -> forall c l', l = c :: l' -> (length m < length l)%nat -> matches (derive r p c) (Some c) l' q m.
Proof.
  induction 1 as [|f p c0 l Hf|a b p l q m r n H1 IH1 H2 IH2|a b p l q m H1 IH1|a b p l q m H1 IH1| |a p l q m r n H1 IH1 H2 IH2| | |];
    intros c l' E Hl; cbn; try (subst; lia).
  - injection E as -> ->. rewrite Hf. constructor.
  - rewrite matches_alt_. destruct (matches_suffix _ _ _ _ _ H1) as [[-> ->]|Hl1].
    + apply m_right. rewrite E in *. change (Some c) with (head (c :: l')) at 1.
      rewrite (nullable_complete a p (c :: l') p (c :: l')) by done. by apply IH2.
    + apply m_left, matches_seq_. eapply m_seq; [by apply IH1|done].
  - rewrite matches_alt_. by apply m_left, IH1.
  - rewrite matches_alt_. by apply m_right, IH1.
  - destruct (matches_suffix _ _ _ _ _ H1) as [[-> ->]|Hl1]; [by apply (IH2 c l')|].
    apply matches_seq_. eapply m_seq; [by apply IH1|done].
Qed.

Lemma match_prefix_iff r p l : match_prefix r p l = true <-> exists q m, matches r p l q m.
Proof.
  revert r p. induction l as [|c l IH]; intros r p; cbn; rewrite orb_true_iff.
  - split.
    + intros [Hn|]; [|done]. exists p, []. by apply (nullable_sound r p []).
    + intros (q & m & Hm). left. apply (nullable_complete r p [] q m Hm).
      destruct (matches_suffix _ _ _ _ _ Hm) as [[]|]; [done|cbn in *; lia].
  - rewrite IH. split.
    + intros [Hn|(q & m & Hm)]; [exists p, (c :: l); by apply (nullable_sound r p (c :: l))|].
      exists q, m. by apply derive_sound.
    + intros (q & m & Hm). destruct (matches_suffix _ _ _ _ _ Hm) as [[-> ->]|Hl].
      * left. by apply (nullable_complete r p (c :: l) p (c :: l)).
      * right. exists q, m. by eapply derive_complete.
Qed.

Lemma search_iff r p l :
  search r p l = true <-> exists pre suf q m, l = pre ++ suf /\ matches r (last (option_list p ++ pre)) suf q m.
Proof.
  revert p. induction l as [|c l IH]; intros p; cbn [search]; rewrite orb_true_iff, match_prefix_iff.
  - split.
    + intros [(q & m & Hm)|]; [|done]. exists [], [], q, m. rewrite app_nil_r. by destruct p.
    + intros (pre & suf & q & m & E & Hm). symmetry in E. apply app_eq_nil in E as [-> ->].
      rewrite app_nil_r in Hm. left. exists q, m. by destruct p.
  - rewrite IH. split.
    + intros [(q & m & Hm)|(pre & suf & q & m & -> & Hm)].
      * exists [], (c :: l), q, m. rewrite app_nil_r. by destruct p.
      * exists (c :: pre), suf, q, m. split; [done|]. by destruct p, pre.
    + intros (pre & suf & q & m & E & Hm). destruct pre as [|c' pre].
      * cbn in E. subst suf. rewrite app_nil_r in Hm. left. exists q, m. by destruct p.
      * injection E as <- ->. right. exists pre, suf, q, m. split; [done|]. by destruct p, pre.
Qed.

(** ** What a credential looks like

    The reference for the filter: seven shapes of text, without regular expressions.  A
    piece of a shape stands for runes; under [fold] letters of either case do, in Go's
    simple folding. *)
Inductive range := Between (lo hi : Z) | Space.
Definition In1 (c : Z) : range := Between c c.
Record runes_class := mkClass { excluded : bool; ranges : list range }.
Definition among (l : list range) : runes_class := mkClass false l.
Definition except (l : list range) : runes_class := mkClass true l.

Inductive piece :=
| Word (s : string)                       (** this word *)
| Rune (k : runes_class)                  (** a rune of the class *)
| Runes (least : nat) (k : runes_class)   (** at least so many of them *)
| Exactly (n : nat) (k : runes_class)
| MaybeRune (k : runes_class)
| MaybeWord (l : list string)             (** one of these words, or nothing *)
| Edge.                                   (** nothing, at the edge of an ASCII word *)
(** pieces one after the other, or one of several such sequences *)
Inductive part := All (ps : list piece) | OneOf (l : list (list piece)).

Definition in_range (c : Z) (r : range) : Prop :=
  match r with Between lo hi => lo <= c <= hi | Space => c ∈ [9; 10; 12; 13; 32] end.
Definition in_class (fold : bool) (k : runes_class) (c : Z) : Prop :=
  let found := exists c' r, c' ∈ (if fold then fold_orbit c else [c]) /\ r ∈ k.(ranges) /\ in_range c' r in
  if k.(excluded) then ~ found else found.
Definition is_text (fold : bool) (s : string) (w : list Z) : Prop :=
  Forall2 (fun c r => in_class fold (among [In1 c]) r) (runes s) w.

(** [w] is what the piece says, after the rune [prev] and before [post] *)
Definition piece_means (fold : bool) (p : piece) (prev : option Z) (w post : list Z) : Prop :=
  match p with
  | Word s => is_text fold s w
  | Rune k => exists c, w = [c] /\ in_class fold k c
  | Runes n k => Forall (in_class fold k) w /\ (n <= length w)%nat
  | Exactly n k => Forall (in_class fold k) w /\ length w = n
  | MaybeRune k => w = [] \/ exists c, w = [c] /\ in_class fold k c
  | MaybeWord l => w = [] \/ exists s, s ∈ l /\ is_text fold s w
  | Edge => w = [] /\ boundary prev (head post) = true
  end.
(** one after the other *)
Fixpoint sequence_means {A} (means : A -> option Z -> list Z -> list Z -> Prop) (l : list A)
    (prev : option Z) (w post : list Z) : Prop :=
  match l with
  | [] => w = []
  | a :: l => exists u v, w = u ++ v /\ means a prev u (v ++ post)
                /\ sequence_means means l (last (option_list prev ++ u)) v post
  end.
Definition part_means (fold : bool) (p : part) (prev : option Z) (w post : list Z) : Prop :=
  match p with
  | All ps => sequence_means (piece_means fold) ps prev w post
  | OneOf l => exists ps, ps ∈ l /\ sequence_means (piece_means fold) ps prev w post
  end.

(** a shape: do letters of either case do, and its parts *)
Record shape := mkShape { any_case : bool; parts : list part }.
Definition shape_means (sh : shape) : option Z -> list Z -> list Z -> Prop :=
  sequence_means (part_means sh.(any_case)) sh.(parts).

Definition letters : list range := [Between 97 122].
Definition digits : list range := [Between 48 57].
Definition chars (s : string) : list range := In1 <$> runes s.
Definition blanks : piece := Runes 0 (among [Space]).
Definition quotes : string := quote +:+ "'".

(** the header of a private key *)
Definition private_key_header : shape := mkShape true
  [All [Word "-----BEGIN "; MaybeWord ["RSA "; "EC "; "DSA "; "OPENSSH "; "PGP "];
        Word "PRIVATE KEY-----"]].
(** an Authorization header with a bearer token *)
Definition bearer_header : shape := mkShape true
  [All [Edge; Word "authorization"; blanks; Rune (among (chars ":=")); blanks;
        Word "bearer"; Runes 1 (among [Space]);
        Runes 8 (among (letters ++ digits ++ chars "._~+/=-"))]].
(** a password or key that is assigned *)
Definition two_words (a b : string) : list piece := [Word a; MaybeRune (among (chars "_-")); Word b].
Definition secret_assignment : shape := mkShape true
  [All [Edge];
   OneOf [[Word "password"]; [Word "passwd"]; [Word "pwd"]; two_words "api" "key";
          two_words "access" "token"; two_words "session" "token"; two_words "secret" "key"];
   All [Edge; blanks; Rune (among (chars ":=")); blanks; MaybeRune (among (chars quotes));
        Runes 6 (except (Space :: chars (quote +:+ "';")))]].
(** a cookie that is set *)
Definition cookie_header : shape := mkShape true
  [All [Edge]; OneOf [[Word "cookie"]; [Word "set-cookie"]];
   All [blanks; Rune (among (chars ":=")); blanks; MaybeRune (among (chars quotes));
        Runes 1 (except [In1 59; Space; In1 61]); Word "="; Runes 12 (except [In1 59; Space])]].
(** a cookie of the game's accounts *)
Definition account_cookie : shape := mkShape true
  [All [Edge];
   OneOf [[Word "ltuid"; MaybeWord ["_v2"]]; [Word "ltoken"; MaybeWord ["_v2"]];
          [Word "cookie_token"; MaybeWord ["_v2"]]; [Word "account_id"; MaybeWord ["_v2"]];
          [Word "stoken"; MaybeWord ["_v2"]]; [Word "login_ticket"]];
   All [Edge; blanks; Word "="; blanks; Runes 6 (except [In1 59; Space])]].
(** an assignment with a Chinese name *)
Definition chinese_assignment : shape := mkShape false
  [OneOf [[Word "密码"]; [Word "口令"]; [Word "API"; MaybeRune (among (chars " _-")); Word "密钥"];
          [Word "访问令牌"]; [Word "会话令牌"]; [Word "密钥"]; [Word "令牌"]];
   All [blanks; Rune (among (chars ":：=")); blanks; MaybeRune (among (chars quotes));
        Runes 6 (except (Space :: chars (quote +:+ "'；;")))]].
(** keys in the formats of well-known services *)
Definition service_key : shape := mkShape true
  [All [Edge];
   OneOf [[Word "sk-"; MaybeWord ["proj-"; "svcacct-"]; Runes 16 (among (letters ++ digits ++ chars "_-"))];
          [Word "github_pat_"; Runes 20 (among (letters ++ digits ++ chars "_"))];
          [Word "gh"; Rune (among (chars "pousr")); Word "_"; Runes 20 (among (letters ++ digits))];
          [Word "xox"; Rune (among (chars "baprs")); Word "-"; Runes 10 (among (letters ++ digits ++ chars "-"))];
          [Word "AKIA"; Exactly 16 (among (digits ++ [Between 65 90]))]];
   All [Edge]].

Definition credential_shapes : list shape :=
  [private_key_header; bearer_header; secret_assignment; cookie_header; account_cookie;
   chinese_assignment; service_key].

(** ** Shapes as expressions *)

Definition pairs_of (l : list range) : list (Z * Z) :=
  foldl (fun acc r => match r with Between lo hi => (lo, hi) :: acc | Space => spaces ++ acc end) [] l.
Definition chr_of (fold : bool) (k : runes_class) : re := Chr (class fold k.(excluded) (pairs_of k.(ranges))).
Definition word_re (fold : bool) (s : string) (rest : re) : re :=
  foldr (fun c r => Seq (chr_of fold (among [In1 c])) r) rest (runes s).
(** alternatives *)
Fixpoint alts_re (l : list re) : re :=
  match l with [] => Nothing | [r] => r | r :: l => Alt r (alts_re l) end.
Definition piece_re (fold : bool) (p : piece) (rest : re) : re :=
  match p with
  | Word s => word_re fold s rest
  | Rune k => Seq (chr_of fold k) rest
  | Runes n k => Seq (times n (chr_of fold k) (Star (chr_of fold k))) rest
  | Exactly n k => Seq (times n (chr_of fold k) Epsilon) rest
  | MaybeRune k => Seq (Alt (chr_of fold k) Epsilon) rest
  | MaybeWord l => Seq (Alt (alts_re ((fun s => word_re fold s Epsilon) <$> l)) Epsilon) rest
  | Edge => Seq WordBoundary rest
  end.
Definition part_re (fold : bool) (p : part) (rest : re) : re :=
  match p with
  | All ps => foldr (piece_re fold) rest ps
  | OneOf l => Seq (alts_re (foldr (piece_re fold) Epsilon <$> l)) rest
  end.
Definition shape_re (sh : shape) : re := foldr (part_re sh.(any_case)) Epsilon sh.(parts).

(** the patterns of the source are the shapes *)
Lemma patterns_are_shapes : compiled_patterns = shape_re <$> credential_shapes.
Proof. cbv -[class times spaces]. reflexivity. Qed.

Lemma in_pairs_of c l acc :
  in_ranges (foldl (fun acc r => match r with Between lo hi => (lo, hi) :: acc | Space => spaces ++ acc end) acc l) c
    = true <-> in_ranges acc c = true \/ exists r, r ∈ l /\ in_range c r.
Proof.
  revert acc. induction l as [|r l IH]; intros acc; cbn [foldl].
  - split; [by left|]. intros [|(r & Hr & _)]; [done|by apply not_elem_of_nil in Hr].
  - rewrite IH. setoid_rewrite elem_of_cons.
    assert (Hr : in_ranges (match r with Between lo hi => (lo, hi) :: acc | Space => spaces ++ acc end) c = true
                 <-> in_range c r \/ in_ranges acc c = true).
    { destruct r as [lo hi|]; cbn -[GoLib.between]; rewrite ?orb_true_iff; unfold GoLib.between.
      - rewrite andb_true_iff, !Z.leb_le. done.
      - rewrite !andb_true_iff, !Z.leb_le, !elem_of_cons, elem_of_nil. intuition lia. }
    rewrite Hr. split; [intros [[|]|(r' & ? & ?)]|intros [|(r' & [->|] & ?)]]; eauto.
Qed.

Lemma class_iff fold k c : class fold k.(excluded) (pairs_of k.(ranges)) c = true <-> in_class fold k c.
Proof.
  unfold class, in_class. set (l := if fold then fold_orbit c else [c]).
  assert (He : existsb (in_ranges (pairs_of k.(ranges))) l = true
    <-> exists c' r, c' ∈ l /\ r ∈ k.(ranges) /\ in_range c' r).
  { rewrite existsb_exists. unfold pairs_of. split.
    - intros (c' & Hc & [Hn|(r & Hr & Hin)]%in_pairs_of); [done|]. apply list_elem_of_In in Hc. eauto.
    - intros (c' & r & Hc & Hr & Hin). exists c'. split; [by apply list_elem_of_In|].
      apply in_pairs_of. eauto. }
  revert He. cbv zeta. destruct (excluded k), (existsb _ l); cbn [xorb]; intuition congruence.
Qed.

(** ** What the expressions match

    [r] says what [means] says, and then goes on as [rest]. *)
Definition before (q : option Z) (w : list Z) : option Z := last (option_list q ++ w).
Definition says (r rest : re) (means : option Z -> list Z -> list Z -> Prop) : Prop :=
  forall p l q m, matches r p l q m
    <-> exists w l', l = w ++ l' /\ means p w l' /\ matches rest (before p w) l' q m.

Lemma before_nil p : before p [] = p.
Proof. by destruct p. Qed.
Lemma before_app p u v : before (before p u) v = before p (u ++ v).
Proof.
  unfold before. destruct (last (option_list p ++ u)) as [c|] eqn:E.
  - apply last_Some in E as [l' E]. rewrite app_assoc, E, <-app_assoc. cbn. by rewrite last_app_cons.
  - apply last_None in E. rewrite app_assoc, E. done.
Qed.

Ltac invert_matches :=
  match goal with
  | H : matches (Seq _ _) _ _ _ _ |- _ => inversion H; subst; clear H
  | H : matches (Alt _ _) _ _ _ _ |- _ => inversion H; subst; clear H
  | H : matches Epsilon _ _ _ _ |- _ => inversion H; subst; clear H
  | H : matches (Chr _) _ _ _ _ |- _ => inversion H; subst; clear H
  | H : matches WordBoundary _ _ _ _ |- _ => inversion H; subst; clear H
  | H : matches Nothing _ _ _ _ |- _ => inversion H
  end.

(** the expression [x] alone says [means] *)
Definition says_alone (x : re) (means : option Z -> list Z -> list Z -> Prop) : Prop :=
  forall p l q m, matches x p l q m <-> exists w, l = w ++ m /\ q = before p w /\ means p w m.

Lemma says_seq x rest means : says_alone x means -> says (Seq x rest) rest means.
Proof.
  intros Hx p l q m. split.
  - intros Hm. invert_matches.
    match goal with H : matches x _ _ _ _ |- _ => apply Hx in H as (w & -> & -> & Hw) end. eauto.
  - intros (w & l' & -> & Hw & Hm). eapply m_seq; [|exact Hm]. apply Hx. eauto.
Qed.
Lemma says_epsilon x means : says x Epsilon means -> says_alone x means.
Proof.
  intros Hx p l q m. rewrite (Hx p l q m). split.
  - intros (w & l' & -> & Hw & Hm). invert_matches. eauto.
  - intros (w & -> & -> & Hw). exists w, m. split; [done|]. split; [done|constructor].
Qed.

Lemma says_chr fold k : says_alone (chr_of fold k) (fun _ w _ => exists c, w = [c] /\ in_class fold k c).
Proof.
  intros p l q m. split.
  - intros Hm. unfold chr_of in Hm. invert_matches. eexists [_]. split; [done|]. split; [by destruct p|].
    eexists. split; [done|]. by apply class_iff.
  - intros (w & -> & -> & c & -> & Hc). cbn. replace (before p [c]) with (Some c) by by destruct p.
    constructor. by apply class_iff.
Qed.

Lemma says_maybe x means :
  says_alone x means -> says_alone (Alt x Epsilon) (fun p w m => w = [] \/ means p w m).
Proof.
  intros Hx p l q m. split.
  - intros Hm. invert_matches.
    + match goal with H : matches x _ _ _ _ |- _ => apply Hx in H as (w & -> & -> & Hw) end. eauto.
    + invert_matches. exists []. rewrite before_nil. auto.
  - intros (w & -> & -> & [->|Hw]); [apply m_right; rewrite before_nil; constructor|].
    apply m_left, Hx. eauto.
Qed.

Lemma says_alts {A} (f : A -> re) means (l : list A) :
  (forall a, says_alone (f a) (means a)) ->
  says_alone (alts_re (f <$> l)) (fun p w m => exists a, a ∈ l /\ means a p w m).
Proof.
  intros Hf. induction l as [|a l IH]; intros p x q m.
  - split; [intros Hm; by inversion Hm|]. by intros (w & _ & _ & a & []%not_elem_of_nil & _).
  - destruct l as [|b l].
    + cbn [fmap list_fmap alts_re]. rewrite (Hf a p x q m). split; intros (w & -> & -> & Hw); exists w.
      * do 2 (split; [done|]). exists a. split; [left|done].
      * destruct Hw as (a' & ->%list_elem_of_singleton & Hw). done.
    + change (alts_re (f <$> a :: b :: l)) with (Alt (f a) (alts_re (f <$> b :: l))). split.
      * intros Hm. invert_matches.
        -- match goal with H : matches (f a) _ _ _ _ |- _ => apply Hf in H as (w & -> & -> & Hw) end.
           exists w. do 2 (split; [done|]). exists a. split; [left|done].
        -- match goal with H : matches _ _ _ _ _ |- _ => apply IH in H as (w & -> & -> & a' & Ha & Hw) end.
           exists w. do 2 (split; [done|]). exists a'. split; [by right|done].
      * intros (w & -> & -> & a' & [->|Ha]%elem_of_cons & Hw); [apply m_left, Hf; eauto|].
        apply m_right, IH. exists w. eauto 10.
Qed.
Lemma says_word fold s rest : says (word_re fold s rest) rest (fun _ w _ => is_text fold s w).
Proof.
  unfold word_re, is_text. induction (runes s) as [|c l IH]; intros p x q m; cbn [foldr].
  - split.
    + intros Hm. exists [], x. rewrite before_nil. split; [done|]. by split; [constructor|].
    + intros (w & l' & -> & Hw & Hm). inversion Hw; subst. by rewrite before_nil in Hm.
  - rewrite (says_seq _ _ _ (says_chr fold (among [In1 c])) p x q m). split.
    + intros (u & l' & -> & (r & -> & Hr) & (v & l'' & -> & Hv & Hm)%IH).
      exists ([r] ++ v), l''. rewrite before_app in Hm. split; [by rewrite app_assoc|].
      split; [by constructor|done].
    + intros (w & l' & -> & Hw & Hm). inversion Hw as [|? r ? v Hr Hv]; subst.
      exists [r], (v ++ l'). split; [done|]. split; [eauto|]. apply IH.
      exists v, l'. rewrite before_app. done.
Qed.

(** repetitions of a class *)
Lemma says_star fold k : says_alone (Star (chr_of fold k)) (fun _ w _ => Forall (in_class fold k) w).
Proof.
  intros p l q m. split.
  - intros Hm. remember (Star (chr_of fold k)) as r eqn:Er. induction Hm; try done; injection Er as ->.
    + exists []. by rewrite before_nil.
    + clear IHHm1. destruct (IHHm2 eq_refl) as (w & -> & -> & Hw).
      apply says_chr in Hm1 as (u & -> & -> & c & -> & Hc). exists ([c] ++ w).
      rewrite before_app. split; [by rewrite app_assoc|]. split; [done|by constructor].
  - intros (w & -> & -> & Hw). revert p. induction Hw as [|c w Hc Hw IH]; intros p.
    + rewrite before_nil. constructor.
    + eapply m_more; [apply says_chr; exists [c]; split; [done|]; split; [done|eauto]|].
      specialize (IH (before p [c])). by rewrite before_app in IH.
Qed.
Lemma says_times fold k n x N :
  says_alone x (fun _ w _ => Forall (in_class fold k) w /\ N w) ->
  says_alone (times n (chr_of fold k) x)
    (fun _ w _ => Forall (in_class fold k) w /\ (n <= length w)%nat /\ N (drop n w)).
Proof.
  intros Hx. induction n as [|n IH]; intros p l q m; cbn [times].
  - rewrite (Hx p l q m). setoid_rewrite drop_0. split; intros (w & -> & -> & Hw); exists w; intuition lia.
  - split.
    + intros Hm. invert_matches.
      match goal with H : matches (chr_of _ _) _ _ _ _ |- _ => apply says_chr in H as (u & -> & -> & c & -> & Hc) end.
      match goal with H : matches _ _ _ _ _ |- _ => apply IH in H as (w & -> & -> & Hw & Hl & HN) end.
      exists ([c] ++ w). rewrite before_app. split; [by rewrite app_assoc|]. split; [done|].
      split; [by constructor|]. cbn. split; [lia|done].
    + intros (w & -> & -> & Hw & Hl & HN). destruct w as [|c w]; cbn in Hl, HN; [lia|].
      apply Forall_cons in Hw as [Hc Hw]. eapply m_seq.
      * apply says_chr. exists [c]. split; [done|]. split; [done|eauto].
      * apply IH. exists w. rewrite before_app. split; [done|]. split; [done|]. split; [done|]. split; [lia|done].
Qed.

Lemma says_ext x m1 m2 : (forall p w m, m1 p w m <-> m2 p w m) -> says_alone x m1 -> says_alone x m2.
Proof. intros He Hx p l q m. rewrite (Hx p l q m). by setoid_rewrite He. Qed.

Lemma says_piece fold p rest : says (piece_re fold p rest) rest (piece_means fold p).
Proof.
  destruct p as [s|k|n k|n k|k|l|]; cbn [piece_re piece_means].
  - apply says_word.
  - apply says_seq, says_chr.
  - apply says_seq. eapply says_ext; [|apply (says_times fold k n _ (fun _ => True))].
    + cbn. intros. tauto.
    + eapply says_ext; [|apply says_star]. cbn. intros. tauto.
  - apply says_seq. eapply says_ext; [|apply (says_times fold k n _ (fun w => w = []))].
    + cbn. intros _ w _. split; intros [Hw Hl]; (split; [done|]).
      * destruct Hl as [Hl Hd]. apply (f_equal length) in Hd. rewrite length_drop in Hd. cbn in Hd. lia.
      * split; [lia|]. apply drop_ge. lia.
    + intros q l r m. split.
      * intros Hm. invert_matches. exists []. rewrite before_nil. auto.
      * intros (w & -> & -> & _ & ->). rewrite before_nil. constructor.
  - apply says_seq, says_maybe, says_chr.
  - apply says_seq, says_maybe, (says_alts _ (fun s _ w _ => is_text fold s w)).
    intros s. apply says_epsilon, says_word.
  - apply says_seq. intros q l r m. split.
    + intros Hm. invert_matches. exists []. rewrite before_nil. by cbn.
    + intros (w & -> & -> & -> & Hb). rewrite before_nil. by constructor.
Qed.

Lemma says_sequence {A} (f : A -> re -> re) means (l : list A) rest :
  (forall a rest, says (f a rest) rest (means a)) ->
  says (foldr f rest l) rest (sequence_means means l).
Proof.
  intros Hf. induction l as [|a l IH]; intros p x q m; cbn [foldr sequence_means].
  - split.
    + intros Hm. exists [], x. rewrite before_nil. auto.
    + intros (w & l' & -> & -> & Hm). by rewrite before_nil in Hm.
  - rewrite (Hf a _ p x q m). split.
    + intros (u & l' & -> & Hu & (v & l'' & -> & Hv & Hm)%IH). exists (u ++ v), l''.
      rewrite before_app in Hm. rewrite app_assoc. split; [done|]. split; [|done]. exists u, v. done.
    + intros (w & l' & -> & (u & v & -> & Hu & Hv) & Hm). exists u, (v ++ l'). rewrite app_assoc.
      split; [done|]. split; [done|]. apply IH. exists v, l'. by rewrite before_app.
Qed.
Lemma says_part fold p rest : says (part_re fold p rest) rest (part_means fold p).
Proof.
  destruct p as [ps|l]; cbn [part_re part_means].
  - apply says_sequence. intros. apply says_piece.
  - apply says_seq, (says_alts _ (sequence_means (piece_means fold))).
    intros ps. apply says_epsilon, says_sequence. intros. apply says_piece.
Qed.
Lemma says_shape sh : says_alone (shape_re sh) (shape_means sh).
Proof. apply says_epsilon, says_sequence. intros. apply says_part. Qed.

(** a compiled pattern is found where it matches *)
Lemma contains_iff (text : string) :
  containsSensitiveCredential text = true
  <-> exists r pre suf q m, r ∈ compiled_patterns /\ runes text = pre ++ suf /\ matches r (last pre) suf q m.
Proof.
  unfold containsSensitiveCredential. rewrite existsb_exists. unfold MatchString. split.
  - intros (r & Hr & (pre & suf & q & m & E & Hm)%search_iff). exists r, pre, suf, q, m.
    split; [by apply list_elem_of_In|done].
  - intros (r & pre & suf & q & m & Hr & E & Hm). exists r. split; [by apply list_elem_of_In|].
    apply search_iff. by exists pre, suf, q, m.
Qed.

(** C29: the filter flags a text exactly when some part of it has, between the runes that
    surround it, one of the seven shapes of a credential ([credential_shapes]): the header
    of a private key, an Authorization header with a bearer token of 8 characters or more, a
    password, API key, access token, session token or secret key that is assigned 6
    characters or more, a cookie that is set to 12 or more, one of the account cookies, an
    assignment with a Chinese name, and a key in one of the formats sk-, github_pat_,
    gh?_, xox?- and AKIA.  The shapes are written without regular expressions; the
    patterns of the source, parsed and matched by the model's engine, decide them. *)
Theorem filter_decides_patterns (text : string) :
  containsSensitiveCredential text = true
  <-> exists sh pre w post, sh ∈ credential_shapes /\ runes text = pre ++ w ++ post
        /\ shape_means sh (last pre) w post.
Proof.
  rewrite contains_iff, patterns_are_shapes. split.
  - intros (r & pre & suf & q & m & (sh & -> & Hsh)%list_elem_of_fmap & E & Hm).
    apply says_shape in Hm as (w & -> & -> & Hw). by exists sh, pre, w, m.
  - intros (sh & pre & w & post & Hsh & E & Hw).
    exists (shape_re sh), pre, (w ++ post), (before (last pre) w), post.
    split; [by apply list_elem_of_fmap_2|]. split; [done|]. apply says_shape. by exists w.
Qed.

(** ** Keys *)

Lemma matches_star f K p Q : Forall (fun c => f c = true) K -> matches (Star (Chr f)) p (K ++ Q) (last (option_list p ++ K)) Q.
Proof.
  intros HK. revert p. induction HK as [|c K Hc HK IH]; intros p.
  - rewrite app_nil_r. destruct p; constructor.
  - eapply m_more; [by constructor|]. specialize (IH (Some c)). by destruct p, K.
Qed.
Lemma matches_times f n K p Q :
  Forall (fun c => f c = true) K -> (n <= length K)%nat ->
  matches (times n (Chr f) (Star (Chr f))) p (K ++ Q) (last (option_list p ++ K)) Q.
Proof.
  intros HK. revert n p. induction HK as [|c K Hc HK IH]; intros n p Hn.
  - assert (n = O) as -> by (cbn in Hn; lia). by apply (matches_star f []).
  - destruct n as [|n]; [by apply matches_star; constructor|]. cbn [times app].
    eapply m_seq; [by constructor|]. specialize (IH n (Some c) ltac:(cbn in Hn; lia)). by destruct p, K.
Qed.

(** the runes of a key, and what the pattern allows in it *)
Definition key_rune (c : Z) : bool := is_lower c || is_upper c || is_digit c || is_char "_" c || is_char "-" c.
Definition key_ranges : list (Z * Z) := [(45, 45); (95, 95); (48, 57); (97, 122)].
Lemma key_rune_ascii c : key_rune c = true -> 0 <= c < 128.
Proof.
  change (key_rune c) with ((97 <=? c) && (c <=? 122) || (65 <=? c) && (c <=? 90) || (48 <=? c) && (c <=? 57)
    || (95 <=? c) && (c <=? 95) || (45 <=? c) && (c <=? 45)). lia.
Qed.
Lemma key_rune_class c : key_rune c = true -> class true false key_ranges c = true.
Proof.
  intros Hk. assert (Hall : forallb (fun c => implb (key_rune c) (class true false key_ranges c)) (seqZ 0 128) = true)
    by (vm_compute; reflexivity).
  rewrite forallb_forall in Hall. specialize (Hall c). rewrite Hk in Hall. apply Hall, list_elem_of_In, elem_of_seqZ.
  pose proof (key_rune_ascii c Hk). lia.
Qed.

(** the shape of the last pattern *)
Lemma key_pattern : exists prefixes others, Seq WordBoundary (Seq
    (Alt (Seq (Chr (class true false [(115, 115)])) (Seq (Chr (class true false [(107, 107)]))
           (Seq (Chr (class true false [(45, 45)])) (Seq (Alt prefixes Epsilon)
              (Seq (times 16 (Chr (class true false key_ranges)) (Star (Chr (class true false key_ranges)))) Epsilon)))))
         others)
    (Seq WordBoundary Epsilon)) ∈ compiled_patterns.
Proof.
  do 2 eexists. apply (list_elem_of_lookup_2 _ 6). lazy -[class times spaces]. reflexivity.
Qed.

(** an API key in the format of "sk-" keys is caught wherever it is: a text in which "sk-"
    follows no letter, digit or underscore, and is followed by 16 or more letters, digits,
    hyphens and underscores, ending in no hyphen, at a word boundary, is flagged; so it is
    neither remembered as a fact nor sent to a model. *)
Theorem api_key_is_caught (text : string) (pre key post : list Z) :
  runes text = pre ++ [115; 107; 45] ++ key ++ post ->
  is_word (last pre) = false -> Forall (fun c => key_rune c = true) key -> (16 <= length key)%nat ->
  is_word (last key) = true -> is_word (head post) = false ->
  containsSensitiveCredential text = true.
Proof.
  intros E Hpre Hk Hl Hlast Hpost. unfold containsSensitiveCredential. apply existsb_exists.
  destruct key_pattern as (prefixes & others & Hin). eexists. split; [apply list_elem_of_In, Hin|].
  apply search_iff. exists pre, ([115; 107; 45] ++ key ++ post), (last key), post. split; [exact E|].
  change (last (option_list None ++ pre)) with (last pre). eapply m_seq; [apply m_boundary; unfold boundary; rewrite Hpre; reflexivity|].
  eapply m_seq; [|eapply m_seq; [apply m_boundary; unfold boundary; by rewrite Hlast, Hpost|constructor]].
  apply m_left. do 3 (eapply m_seq; [by apply m_chr; vm_compute|]).
  eapply m_seq; [apply m_right; constructor|]. eapply m_seq; [|constructor].
  replace (last key) with (last (option_list (Some 45) ++ key)); [|by destruct key as [|c key]; [cbn in Hl; lia|]].
  apply matches_times; [|done]. eapply Forall_impl; [exact Hk|]. intros c. apply key_rune_class.
Qed.

Lemma api_key_is_caught_witness :
  containsSensitiveCredential "my key is sk-0123456789abcdef, keep it" = true.
Proof.
  apply (api_key_is_caught _ (runes "my key is ") (runes "0123456789abcdef") (runes ", keep it"));
    [vm_compute; reflexivity|reflexivity| |by apply Nat.leb_le; vm_compute|reflexivity|reflexivity].
  apply (bool_decide_unpack _). vm_compute. reflexivity.
Defined.
