(* ===== verification/FairySchemaProps.v ===== *)
(** * Validation decides schemas (fairy/tool.go)

    When a value satisfies a schema, declaratively, and that the validator of a compiled
    schema finds out, without dereferencing nil. *)
From S2P Require Import Prelude GoLib Demo JsonText FairySensitive FairySchema.
From stdpp Require Import gmap strings list.
From Stdlib Require Import ZArith SpecFloat.

Local Open Scope Z_scope.
Local Open Scope go_scope.

Section schema_ind.
Variable P : toolSchema -> Prop.
Hypothesis Hschema : forall s,
  Forall (fun kv => from_option P True kv.2) s.(Schema_Properties) -> from_option P True s.(Schema_Items) -> P s.
Fixpoint schema_nested_ind (s : toolSchema) : P s :=
  let on (o : option toolSchema) : from_option P True o :=
    match o with Some p => schema_nested_ind p | None => I end in
  Hschema s
    ((fix go (props : list (string * option toolSchema)) : Forall (fun kv => from_option P True kv.2) props :=
        match props with
        | [] => Forall_nil_2 _
        | kv :: props => Forall_cons_2 _ kv props (on kv.2) (go props)
        end) s.(Schema_Properties))
    (on s.(Schema_Items)).
End schema_ind.

(** ** Loops *)

Lemma traverse_Forall2 {A B} (f : A -> result B) l l' :
  traverse f l = Ok l' -> Forall2 (fun x y => f x = Ok y) l l'.
Proof.
  revert l'. induction l as [|x l IH]; intros l'; cbn; [by intros [= <-]; constructor|].
  destruct (f x) as [y|] eqn:E; [|done]. fold (traverse f) in *. destruct (traverse f l) as [m|]; [|done].
  intros [= <-]. constructor; [done|]. by apply IH.
Qed.

Lemma each_element_Valid f i l :
  each_element f i l = Valid <-> forall k v, l !! k = Some v -> f (i + Z.of_nat k) v = Valid.
Proof.
  revert i. induction l as [|v l IH]; intros i; cbn; [by split|]. fold (each_element f) in *.
  assert (Hv : (forall k w, (v :: l) !! k = Some w -> f (i + Z.of_nat k) w = Valid) -> f i v = Valid).
  { intros Hl. specialize (Hl O v eq_refl). by rewrite Z.add_0_r in Hl. }
  destruct (f i v) eqn:E; [|split; [done|by intros Hl%Hv]..].
  rewrite IH. clear Hv. split; intros Hl.
  - intros [|k] w; cbn; [intros [= <-]; by rewrite Z.add_0_r|].
    intros Hk. replace (i + Z.of_nat (S k)) with (i + 1 + Z.of_nat k) by lia. by apply Hl.
  - intros k w Hk. replace (i + 1 + Z.of_nat k) with (i + Z.of_nat (S k)) by lia. by apply Hl.
Qed.
Lemma each_element_ok f i l : (forall j v, v ∈ l -> f j v <> Panicked) -> each_element f i l <> Panicked.
Proof.
  revert i. induction l as [|v l IH]; intros i Hf; cbn; [done|]. fold (each_element f) in *.
  pose proof (Hf i v ltac:(left)) as Hv. destruct (f i v); [|done|done].
  apply IH. intros j w Hw. apply Hf. by right.
Qed.

Lemma each_member_Valid f ms :
  each_member f ms = Valid <-> forall name v, member name ms = Some v -> f name v = Valid.
Proof.
  induction ms as [|[key v] ms IH]; cbn; [by split|]. fold (each_member f) in *.
  case_bool_decide as Hd.
  - rewrite IH. split; intros Hl name w Hm; apply Hl.
    + destruct (member name ms) eqn:E; [done|]. case_bool_decide; [subst; destruct Hd; congruence|done].
    + by rewrite Hm.
  - assert (Hv : (forall name w, match member name ms with Some v0 => Some v0 | None => if bool_decide (key = name) then Some v else None end
             = Some w -> f name w = Valid) -> f key v = Valid).
    { intros Hl. apply Hl. apply eq_None_not_Some in Hd. by rewrite Hd, bool_decide_eq_true_2. }
    destruct (f key v) eqn:E; [|split; [done|by intros Hl%Hv]..].
    rewrite IH. split; intros Hl name w Hm.
    + destruct (member name ms) eqn:E2; [apply Hl; by rewrite E2|].
      case_bool_decide; [subst; by injection Hm as <-|done].
    + apply Hl. by rewrite Hm.
Qed.
Lemma member_elem name ms v : member name ms = Some v -> (name, v) ∈ ms.
Proof.
  induction ms as [|[key w] ms IH]; cbn; [done|]. destruct (member name ms) as [u|] eqn:E.
  - intros [= ->]. right. by apply IH.
  - case_bool_decide; [|done]. intros [= ->]. subst. left.
Qed.
Lemma each_member_ok f ms : (forall name v, (name, v) ∈ ms -> f name v <> Panicked) -> each_member f ms <> Panicked.
Proof.
  induction ms as [|[key v] ms IH]; intros Hf; cbn; [done|]. fold (each_member f) in *.
  assert (IH' : each_member f ms <> Panicked) by (apply IH; intros name w Hw; apply Hf; by right).
  case_bool_decide; [done|]. pose proof (Hf key v ltac:(left)) as Hv. by destruct (f key v).
Qed.

Lemma missing_None ms required :
  missing ms required = None <-> forall name, name ∈ required -> is_Some (member name ms).
Proof.
  induction required as [|name required IH]; cbn; [split; [intros _ x Hx; inversion Hx|done]|].
  case_bool_decide as Hm.
  - split; [done|]. intros Hl. destruct (Hl name ltac:(left)). congruence.
  - rewrite IH. split; [|intros Hl x Hx; apply Hl; by right].
    intros Hl x [->|Hx]%elem_of_cons; [by apply not_eq_None_Some|by apply Hl].
Qed.

Section props.
Context `{Runtime} `{Regexps}.

(** ** Satisfaction *)

Definition within (lo hi : option spec_float) (x : spec_float) : Prop :=
  (forall y, lo = Some y -> SFltb x y = false) /\ (forall y, hi = Some y -> SFltb y x = false).

(** [v] is a value that the schema [s] describes *)
Inductive satisfies : toolSchema -> jtext -> Prop :=
| sat_object s ms :
    s.(Schema_Type) = "object" ->
    (forall name, name ∈ s.(Schema_Required) -> is_Some (member name ms)) ->
    (forall name v p, member name ms = Some v -> entry_of name s.(Schema_Properties) = Some (Some p) -> satisfies p v) ->
    (forall name v, member name ms = Some v -> entry_of name s.(Schema_Properties) = None ->
       s.(Schema_AdditionalProperties) <> Some false) ->
    satisfies s (TObject ms)
| sat_array s items l :
    s.(Schema_Type) = "array" -> s.(Schema_Items) = Some items -> (forall v, v ∈ l -> satisfies items v) ->
    satisfies s (TArray l)
| sat_string s text :
    s.(Schema_Type) = "string" ->
    (forall n, s.(Schema_MinLength) = Some n -> n <= Z.of_nat (length (runes text))) ->
    (forall n, s.(Schema_MaxLength) = Some n -> Z.of_nat (length (runes text)) <= n) ->
    (forall matches, s.(Schema_pattern) = Some matches -> matches text = true) ->
    satisfies s (TString text)
| sat_integer s literal n x :
    s.(Schema_Type) = "integer" -> ParseInt64 literal = Some n -> ParseFloat64 literal = Some x ->
    within s.(Schema_Minimum) s.(Schema_Maximum) x -> satisfies s (TNumber literal)
| sat_number s literal x :
    s.(Schema_Type) = "number" -> ParseFloat64 literal = Some x ->
    within s.(Schema_Minimum) s.(Schema_Maximum) x -> satisfies s (TNumber literal)
| sat_boolean s b : s.(Schema_Type) = "boolean" -> satisfies s (TBool b)
| sat_null s : s.(Schema_Type) = "null" -> satisfies s TNull.

(** ** Compiled schemas *)

Inductive well_formed : toolSchema -> Prop :=
| wf_object s :
    s.(Schema_Type) = "object" -> (forall name, entry_of name s.(Schema_Properties) <> Some None) ->
    (forall name p, entry_of name s.(Schema_Properties) = Some (Some p) -> well_formed p) -> well_formed s
| wf_array s items : s.(Schema_Type) = "array" -> s.(Schema_Items) = Some items -> well_formed items -> well_formed s
| wf_other s : s.(Schema_Type) ∈ "string" :: other_types -> well_formed s.

Lemma compile_limits_ok path s s' : compile_limits path s = Ok s' -> s' = s.
Proof. unfold compile_limits. by destruct (given2 _ _ _); [|intros [= ->]]. Qed.

Lemma compile_well_formed s path s' : compile path s = Ok s' -> well_formed s'.
Proof.
  revert path s'. induction s as [s IHp IHi] using schema_nested_ind. intros path s'.
  destruct s as [type props required additional items minl maxl pattern lo hi compiled]. cbn [compile Schema_Type Schema_Properties Schema_Items] in *.
  case_bool_decide as E1; [|case_bool_decide as E2; [|case_bool_decide as E3; [|case_bool_decide as E4; [|done]]]].
  - destruct (check_required _ _ _ _); [|done]. destruct (traverse _ props) as [ps|] eqn:Ep; [|done].
    intros ->%compile_limits_ok. apply traverse_Forall2 in Ep.
    assert (Hps : Forall (fun kv => exists p, kv.2 = Some p /\ well_formed p) ps).
    { clear -Ep IHp. induction Ep as [|[n o] [n' o'] l l' Hh Ht IH]; [constructor|].
      inversion IHp as [|? ? IHo IHl]; subst. constructor; [|by apply IH].
      destruct o as [p|]; [|done]. destruct (negb _); [done|]. destruct (compile _ p) eqn:Ec; [|done].
      injection Hh as <- <-. eexists. split; [done|]. cbn in IHo. by eapply IHo. }
    apply wf_object; [done| |]; cbn; clear -Hps; induction Hps as [|[k o] l (p & Ek & Hp) Hl IH]; intros name;
      cbn in *; try done; subst; case_bool_decide; try done; [congruence|apply IH].
  - destruct items as [items|]; [|done]. destruct (compile _ items) as [items'|] eqn:Ei; [|done].
    intros ->%compile_limits_ok. eapply wf_array; [done..|]. cbn in IHi. by eapply IHi.
  - intros E. apply wf_other. unfold compile_string in E. destruct (_ || _); [done|].
    case_bool_decide; [|destruct (regexp_compile _); [|done]]; apply compile_limits_ok in E; subst; left.
  - intros ->%compile_limits_ok. apply wf_other. right. done.
Qed.

(** ** Validation *)

Lemma validate_string_iff s text path :
  s.(Schema_Type) = "string" -> validate_string s text path = Ok tt <-> satisfies s (TString text).
Proof.
  intros Ht. unfold validate_string. set (n := Z.of_nat _). split.
  - destruct (_ || _) eqn:E; [done|]. intros _. apply orb_false_iff in E as [[E1 E2]%orb_false_iff E3].
    apply sat_string; [done|intros y Ey; rewrite Ey in *; cbn in *..].
    + apply Z.ltb_ge in E1. by subst n.
    + apply Z.ltb_ge in E2. by subst n.
    + by apply negb_false_iff in E3.
  - inversion 1 as [| |? ? _ Hmin Hmax Hpat| | | |]; subst. destruct (_ || _) eqn:E; [|done]. exfalso.
    apply orb_true_iff in E as [[E|E]%orb_true_iff|E].
    + destruct s.(Schema_MinLength) as [y|]; [|done]. specialize (Hmin y eq_refl). cbn in E. apply Z.ltb_lt in E. lia.
    + destruct s.(Schema_MaxLength) as [y|]; [|done]. specialize (Hmax y eq_refl). cbn in E. apply Z.ltb_lt in E. lia.
    + destruct s.(Schema_pattern) as [y|]; [|done]. cbn in E. by rewrite (Hpat y eq_refl) in E.
Qed.

Lemma limits_iff lo hi x :
  given lo (fun lo => SFltb x lo) || given hi (fun hi => SFltb hi x) = false <-> within lo hi x.
Proof.
  rewrite orb_false_iff. unfold within. split.
  - intros [E1 E2]. split; intros y ->; done.
  - intros [E1 E2]. destruct lo, hi; cbn; auto.
Qed.

Lemma validate_number_iff s literal path :
  s.(Schema_Type) ∈ ["integer"; "number"] -> validate_number s literal path = Ok tt <-> satisfies s (TNumber literal).
Proof.
  intros Ht. unfold validate_number. split.
  - destruct (_ && _) eqn:E1; [done|]. destruct (ParseFloat64 literal) as [x|] eqn:Ex; [|done].
    destruct (_ || _) eqn:E2; [done|]. intros _. apply limits_iff in E2.
    apply elem_of_cons in Ht as [Ht|Ht%list_elem_of_singleton]; [|by eapply sat_number].
    rewrite Ht in E1. destruct (ParseInt64 literal) eqn:Ei; [by eapply sat_integer|done].
  - intros Hs. assert (Hx : exists x, ParseFloat64 literal = Some x /\ within s.(Schema_Minimum) s.(Schema_Maximum) x)
      by (inversion Hs; subst; eauto).
    destruct Hx as (x & -> & Hw%limits_iff). rewrite Hw. destruct (_ && _) eqn:E; [|done].
    apply andb_true_iff in E as [Ei%bool_decide_eq_true E%negb_true_iff%bool_decide_eq_false].
    inversion Hs; subst; [|congruence]. destruct E. by eexists.
Qed.


Lemma verdict_ok r : verdict_of r <> Panicked /\ (verdict_of r = Valid <-> r = Ok tt).
Proof. destruct r as [[]|]; cbn; split; done. Qed.


(** decide the tests on a closed type *)
Ltac decide_types :=
  repeat match goal with
  | |- context [bool_decide ?P] =>
      let v := eval vm_compute in (bool_decide P) in
      lazymatch v with true => idtac | false => idtac end; change (bool_decide P) with v
  end; cbn beta iota.
Ltac unlike := split; [done|split; [done|inversion 1; congruence]].

Lemma validate_decides v s path :
  well_formed s -> validateValue v s path <> Panicked /\ (validateValue v s path = Valid <-> satisfies s v).
Proof.
  revert s path. induction v as [|b|literal|text|l IH|ms IH] using jtext_nested_ind; intros s path Hw;
    cbn [validateValue]; (inversion Hw as [? Ht Hn Hp|? items Ht Hi Hwi|? Ht]; subst;
    [|..|repeat (apply elem_of_cons in Ht as [Ht|Ht]); [..|by apply elem_of_nil in Ht]]; rewrite Ht; decide_types;
    try unlike).
  - split; [done|]. split; [|done]. by intros _; constructor.
  - split; [done|]. split; [|done]. by intros _; constructor.
  - destruct (verdict_ok (validate_number s literal path)) as [? ->]. rewrite validate_number_iff; [done|].
    rewrite Ht. apply (bool_decide_unpack _). done.
  - destruct (verdict_ok (validate_number s literal path)) as [? ->]. rewrite validate_number_iff; [done|].
    rewrite Ht. apply (bool_decide_unpack _). done.
  - destruct (verdict_ok (validate_string s text path)) as [? ->]. by rewrite validate_string_iff.
  - rewrite Hi. rewrite Forall_forall in IH. split.
    + apply each_element_ok. intros j v Hv. by apply IH.
    + rewrite each_element_Valid. split.
      * intros Hl. eapply sat_array; [done..|]. intros v Hv. pose proof Hv as [k Hk]%list_elem_of_lookup.
        eapply IH; [done..|]. by apply Hl.
      * inversion 1 as [|? items' ? _ Hi' Hall| | | | |]; subst. rewrite Hi in Hi'. injection Hi' as <-.
        intros k v Hk. assert (v ∈ l) by (by eapply list_elem_of_lookup_2). apply IH; auto.
  - rewrite Forall_forall in IH. destruct (missing ms _) as [name|] eqn:Em.
    + split; [done|]. split; [done|]. inversion 1 as [? ? _ Hr| | | | | |]; subst.
      rewrite (proj2 (missing_None _ _)) in Em; done.
    + rewrite missing_None in Em. split.
      * apply each_member_ok. intros name v Hv. destruct (entry_of _ _) as [[p|]|] eqn:Ee.
        -- apply (IH (name, v)); [done|]. by eapply Hp.
        -- by destruct (Hn name).
        -- by destruct (default _ _).
      * rewrite each_member_Valid. split.
        -- intros Hl. apply sat_object; [done..| |].
           ++ intros name v p Hv He. specialize (Hl name v Hv). rewrite He in Hl.
              apply (IH (name, v)) in Hl; [done|by apply member_elem|by eapply Hp].
           ++ intros name v Hv He E. specialize (Hl name v Hv). by rewrite He, E in Hl.
        -- inversion 1 as [? ? _ Hr Hsat Hadd| | | | | |]; subst. intros name v Hv.
           destruct (entry_of _ _) as [[p|]|] eqn:Ee.
           ++ apply (IH (name, v)); [by apply member_elem|by eapply Hp|by eapply Hsat].
           ++ by destruct (Hn name).
           ++ specialize (Hadd name v Hv Ee). by destruct s.(Schema_AdditionalProperties) as [[]|].
Qed.

Lemma validate_text raw text s :
  compileToolSchema raw = Ok s -> Validate s text = Valid -> exists v, parse_text text = Some v /\ satisfies s v.
Proof.
  unfold compileToolSchema, Validate. destruct (parse_text raw); [|done]. destruct (decode_schema _ _); [|done].
  destruct (negb _); [done|]. intros Hw%compile_well_formed. destruct (parse_text text) as [v|]; [|done].
  intros Hv%validate_decides; eauto.
Qed.

(** C32: validation decides schemas: for a schema that compiles, the validator never dereferences
    nil, and it accepts a text exactly when the text is one JSON value that satisfies the schema,
    whatever the order of its members and with the last of the members that share a name. *)
Theorem validation_decides_schemas (raw text : string) s :
  compileToolSchema raw = Ok s ->
  Validate s text <> Panicked
  /\ (Validate s text = Valid <-> exists v, parse_text text = Some v /\ satisfies s v).
Proof.
  unfold compileToolSchema, Validate. destruct (parse_text raw); [|done]. destruct (decode_schema _ _); [|done].
  destruct (negb _); [done|]. intros Hw%compile_well_formed. destruct (parse_text text) as [v|].
  - destruct (validate_decides v s "$" Hw) as [Hn Hv]. split; [done|]. rewrite Hv. split; [eauto|].
    by intros (? & [= <-] & ?).
  - split; [done|]. split; [done|]. by intros (? & ? & ?).
Qed.
End props.

(** ** The schema of the player lookup (fairy/plugin.go) *)

#[export] Instance go_regexps : Regexps := {| regexp_compile pattern := MatchString <$> Compile pattern |}.

(** apostrophes for quotation marks *)
Definition json_quotes (text : string) : string := of_bytes ((fun b => if b =? 39 then 34 else b) <$> bytes text).

Definition uid_schema_text : string := json_quotes
  "{'type':'object',
    'properties':{'uid':{'type':'string','minLength':8,'maxLength':10,'pattern':'^[0-9]{8,10}$'}},
    'required':['uid'],
    'additionalProperties':false}".
Definition uid_schema : toolSchema :=
  match compileToolSchema (H := demo_runtime) uid_schema_text with Ok s => s | Err _ => empty_schema end.
Lemma uid_schema_compiles : compileToolSchema (H := demo_runtime) uid_schema_text = Ok uid_schema.
Proof.
  assert (Hok : is_ok (compileToolSchema (H := demo_runtime) uid_schema_text) = true) by (vm_compute; reflexivity).
  unfold uid_schema. by destruct (compileToolSchema _).
Qed.

Definition uid_verdict (text : string) : verdict := Validate (H := demo_runtime) uid_schema (json_quotes text).
Example uid_verdicts :
  uid_verdict " { 'uid' : '10000001' } " = Valid
  /\ uid_verdict "{'uid':'1000000x'}" = Invalid "$.uid does not satisfy its string constraints"
  /\ uid_verdict "{'uid':10000001}" = Invalid "$.uid must be a string"
  /\ uid_verdict "{'uid':'10000001','x':1}" = Invalid "$.x is not allowed"
  /\ uid_verdict "{'uid':7,'uid':'10000001'}" = Valid
  /\ uid_verdict "{}" = Invalid "$.uid is required"
  /\ uid_verdict "{'uid':'10000001'}{}" = Invalid "invalid JSON".
Proof. vm_compute. done. Qed.

Lemma validation_decides_schemas_witness :
  exists v, parse_text (json_quotes "{'uid':'10000001'}") = Some v /\ satisfies (H := demo_runtime) uid_schema v.
Proof.
  apply (validation_decides_schemas (H := demo_runtime) uid_schema_text _ uid_schema uid_schema_compiles).
  vm_compute. reflexivity.
Defined.
