(* ===== verification/FairyTools.v ===== *)
(** * Tools of the assistant (fairy/tool.go)

    The registry of tools, the policy, and the execution of one call: checks in their
    order, the tool itself, the checks of what it returns, the trace event.  A tool is an
    interface; what it does is a function on a world [W] of its own.  The dynamic tools
    are those of the plugin host, whose state [Host] is read at every lookup. *)
From S2P Require Import Prelude GoLib Types FairyTypes FairyTrace JsonText FairySchema FairySensitive MemoryState.
From stdpp Require Import gmap strings list.
From Stdlib Require Import ZArith.

Local Open Scope Z_scope.
Local Open Scope go_scope.

Definition defaultToolMaxCalls : Z := 6.
Definition defaultToolTimeout : Z := 2 * minute.
Definition defaultToolInputBytes : Z := 32 * 1024.
Definition defaultToolOutputBytes : Z := 64 * 1024.
Definition defaultToolProjectionRune : Z := 4000.

Definition RiskLow := "low".
Definition RiskMedium := "medium".
Definition RiskHigh := "high".
Definition ToolSerial := "serial".
Definition ToolParallel := "parallel".
Definition ToolExclusive := "exclusive".
Definition ToolReadOnly := "read_only".
Definition ToolIdempotent := "idempotent".
Definition ToolNonIdempotent := "non_idempotent".
Definition ToolReplyViaModel := "model".
Definition ToolReplyDirect := "direct".

Record ToolSpec := mkToolSpec {
  Spec_Name : string; Spec_Description : string; Spec_InputSchema : string; Spec_OutputSchema : string;
  Spec_Risk : string; Spec_Concurrency : string; Spec_Idempotency : string; Spec_ReplyMode : string;
  Spec_Timeout : Z; Spec_MaxInputBytes : Z; Spec_MaxOutputBytes : Z }.
#[export] Instance eta_ToolSpec : Eta ToolSpec := fun r => mkToolSpec
  r.(Spec_Name) r.(Spec_Description) r.(Spec_InputSchema) r.(Spec_OutputSchema) r.(Spec_Risk)
  r.(Spec_Concurrency) r.(Spec_Idempotency) r.(Spec_ReplyMode) r.(Spec_Timeout) r.(Spec_MaxInputBytes)
  r.(Spec_MaxOutputBytes).

Record ToolProjection := mkProjection { ModelText : string; UserText : string }.
Record ToolScope := mkToolScope {
  Scope_ConversationID : string; Scope_MessageType : string; Scope_SenderID : string;
  Scope_VisibleTools : gmap string bool }.
Record ToolCall := mkToolCall { Call_Name : string; Call_Arguments : string; Call_Step : Z }.

(** what a tool returns instead of an output, as errors.Is tells it apart *)
Inductive exec_error := ExecDeadline | ExecCanceled | ExecError (err : string).
(** the Err of a context that is done *)
Inductive ctx_error := DeadlineExceeded | Canceled.

Definition ToolFailureNotFound := "tool_not_found".
Definition ToolFailureInvalidArguments := "invalid_arguments".
Definition ToolFailureNotVisible := "not_visible".
Definition ToolFailureUnauthorized := "unauthorized".
Definition ToolFailurePolicyDenied := "policy_denied".
Definition ToolFailureLimitExceeded := "call_limit_exceeded".
Definition ToolFailureTimeout := "timeout".
Definition ToolFailureCancelled := "cancelled".
Definition ToolFailureExecution := "execution_failed".
Definition ToolFailureInvalidOutput := "invalid_output".
Definition ToolFailureOutputTooLarge := "output_too_large".

Record ToolFailure := mkFailure { Failure_Code : string; Failure_err : option string }.
Definition failed_with (code : string) : ToolFailure := mkFailure code None.

Record ToolResult := mkToolResult {
  Result_CallID : string; Result_ToolName : string; Result_ReplyMode : string; Result_Output : string;
  Result_Projection : ToolProjection; Result_ResultBytes : Z; Result_Duration : Z;
  Result_Failure : option ToolFailure }.
#[export] Instance eta_ToolResult : Eta ToolResult := fun r => mkToolResult
  r.(Result_CallID) r.(Result_ToolName) r.(Result_ReplyMode) r.(Result_Output) r.(Result_Projection)
  r.(Result_ResultBytes) r.(Result_Duration) r.(Result_Failure).
Definition OK (r : ToolResult) : bool := bool_decide (r.(Result_Failure) = None :> option ToolFailure).

Definition visible (s : ToolScope) (name : string) : bool := default false (s.(Scope_VisibleTools) !! name).

(** ** Policy *)

Record ToolPolicy := mkToolPolicy {
  Allowlist : gmap string bool; AllowedRisks : option (gmap string bool); AllowSideEffects : bool;
  MaxCalls : Z; MaxTimeout : Z; MaxInputBytes : Z; MaxOutputBytes : Z; MaxProjectionRunes : Z }.

Definition DefaultToolPolicy (toolNames : list string) : ToolPolicy :=
  mkToolPolicy (list_to_map ((fun name => (name, true)) <$> toolNames)) (Some {[RiskLow := true]}) false
    defaultToolMaxCalls defaultToolTimeout defaultToolInputBytes defaultToolOutputBytes defaultToolProjectionRune.

Definition or_default (x d : Z) : Z := if x <=? 0 then d else x.
Definition normalizeToolPolicy (policy : ToolPolicy) : ToolPolicy :=
  mkToolPolicy policy.(Allowlist) (Some (default {[RiskLow := true]} policy.(AllowedRisks)))
    policy.(AllowSideEffects) (or_default policy.(MaxCalls) defaultToolMaxCalls)
    (or_default policy.(MaxTimeout) defaultToolTimeout) (or_default policy.(MaxInputBytes) defaultToolInputBytes)
    (or_default policy.(MaxOutputBytes) defaultToolOutputBytes)
    (or_default policy.(MaxProjectionRunes) defaultToolProjectionRune).

Definition minPositive (left right : Z) : Z :=
  if left <=? 0 then right else if (right <=? 0) || (left <? right) then left else right.

(** ** Specifications *)

Definition validateToolSpec (spec : ToolSpec) : result unit :=
  let name := spec.(Spec_Name) in
  if negb (validTraceLabel name) then Err ("invalid Fairy tool name " +:+ name)
  else if bool_decide (TrimSpace spec.(Spec_Description) = "")
          || (500 <? Z.of_nat (length (runes spec.(Spec_Description))))
  then Err ("Fairy tool " +:+ name +:+ " description must contain 1-500 characters")
  else if negb (one_of [RiskLow; RiskMedium; RiskHigh] spec.(Spec_Risk))
  then Err ("Fairy tool " +:+ name +:+ " has invalid risk")
  else if negb (one_of [ToolSerial; ToolParallel; ToolExclusive] spec.(Spec_Concurrency))
  then Err ("Fairy tool " +:+ name +:+ " has invalid concurrency")
  else if negb (one_of [ToolReadOnly; ToolIdempotent; ToolNonIdempotent] spec.(Spec_Idempotency))
  then Err ("Fairy tool " +:+ name +:+ " has invalid idempotency")
  else if negb (one_of [ToolReplyViaModel; ToolReplyDirect] spec.(Spec_ReplyMode))
  then Err ("Fairy tool " +:+ name +:+ " has invalid reply mode")
  else if (spec.(Spec_Timeout) <=? 0) || (2 * minute <? spec.(Spec_Timeout))
          || (spec.(Spec_MaxInputBytes) <=? 0) || (1024 * 1024 <? spec.(Spec_MaxInputBytes))
          || (spec.(Spec_MaxOutputBytes) <=? 0) || (1024 * 1024 <? spec.(Spec_MaxOutputBytes))
  then Err ("Fairy tool " +:+ name +:+ " has invalid runtime limits")
  else Ok tt.

(** ** Tools and their registry *)

Section tools.
Context `{Runtime} `{Regexps} {Host W : Type}.

(** a tool whose [Tool_ExecuteScoped] is given is a ScopedTool; its Spec does not change *)
Record Tool := mkTool {
  Tool_Spec : ToolSpec;
  Tool_Execute : string -> W -> (string + exec_error) * W;
  Tool_ExecuteScoped : option (ToolScope -> string -> W -> (string + exec_error) * W);
  Tool_Project : string -> result ToolProjection }.

Record registeredTool := mkRegistered {
  reg_tool : Tool; reg_spec : ToolSpec; reg_inputSchema : toolSchema; reg_outputSchema : toolSchema;
  reg_dynamic : bool }.

Definition prepareRegisteredTool (tool : option Tool) (dynamic : bool) : result registeredTool :=
  match tool with
  | None => Err "register nil Fairy tool"
  | Some tool =>
      let spec := tool.(Tool_Spec) in
      let spec := if bool_decide (spec.(Spec_ReplyMode) = "") then (spec) <| Spec_ReplyMode := ToolReplyViaModel |> else spec in
      match validateToolSpec spec with
      | Err e => Err e
      | Ok _ =>
          match compileToolSchema spec.(Spec_InputSchema) with
          | Err e => Err ("compile input schema for Fairy tool " +:+ spec.(Spec_Name) +:+ ": " +:+ e)
          | Ok inputSchema =>
              match compileToolSchema spec.(Spec_OutputSchema) with
              | Err e => Err ("compile output schema for Fairy tool " +:+ spec.(Spec_Name) +:+ ": " +:+ e)
              | Ok outputSchema => Ok (mkRegistered tool spec inputSchema outputSchema dynamic)
              end
          end
      end
  end.

Record ToolRegistry := mkToolRegistry {
  tools : gmap string registeredTool; dynamicProvider : option (Host -> list (option Tool)) }.
#[export] Instance eta_ToolRegistry : Eta ToolRegistry := fun r => mkToolRegistry r.(tools) r.(dynamicProvider).
Implicit Types (r : ToolRegistry) (host : Host).

Definition NewToolRegistry : ToolRegistry := mkToolRegistry ∅ None.

Definition Register (tool : option Tool) r : result unit * ToolRegistry :=
  match prepareRegisteredTool tool false with
  | Err e => (Err e, r)
  | Ok registered =>
      let name := registered.(reg_spec).(Spec_Name) in
      match r.(tools) !! name with
      | Some _ => (Err ("Fairy tool " +:+ name +:+ " is already registered"), r)
      | None => (Ok tt, r <| tools ::= insert name registered |>)
      end
  end.

Fixpoint provided_names (seen : list string) (provided : list (option Tool)) : result (list string) :=
  match provided with
  | [] => Ok seen
  | tool :: rest =>
      match prepareRegisteredTool tool true with
      | Err e => Err e
      | Ok registered =>
          let name := registered.(reg_spec).(Spec_Name) in
          if bool_decide (name ∈ seen) then Err ("Fairy tool " +:+ name +:+ " is provided more than once")
          else provided_names (name :: seen) rest
      end
  end.
Definition SetDynamicProvider (provider : option (Host -> list (option Tool))) host r : result unit * ToolRegistry :=
  match provider with
  | None => (Err "dynamic Fairy tool provider is required", r)
  | Some p =>
      match provided_names [] (p host) with
      | Err e => (Err e, r)
      | Ok seen =>
          match find_first (fun name => bool_decide (is_Some (r.(tools) !! name))) seen with
          | Some name => (Err ("Fairy tool " +:+ name +:+ " conflicts with a static tool"), r)
          | None => (Ok tt, r <| dynamicProvider := Some p |>)
          end
      end
  end.

(** the first of the provided tools that is valid and has the name *)
Fixpoint find_provided (name : string) (provided : list (option Tool)) : option registeredTool :=
  match provided with
  | [] => None
  | candidate :: rest =>
      match prepareRegisteredTool candidate true with
      | Ok registered =>
          if bool_decide (registered.(reg_spec).(Spec_Name) = name) then Some registered else find_provided name rest
      | Err _ => find_provided name rest
      end
  end.
Definition registered host r (name : string) : option registeredTool :=
  match r.(tools) !! name, r.(dynamicProvider) with
  | Some tool, _ => Some tool
  | None, None => None
  | None, Some provider => find_provided name (provider host)
  end.

Definition Resolve host r (name : string) : option ToolSpec := reg_spec <$> registered host r name.

Fixpoint add_provided (seen : list string) (provided : list (option Tool)) : list string :=
  match provided with
  | [] => seen
  | tool :: rest =>
      match prepareRegisteredTool tool true with
      | Err _ => add_provided seen rest
      | Ok registered =>
          let name := registered.(reg_spec).(Spec_Name) in
          if bool_decide (name ∈ seen) then add_provided seen rest else add_provided (seen ++ [name]) rest
      end
  end.
Definition Names host r : list string :=
  let names := (map_to_list r.(tools)).*1 in
  let names := match r.(dynamicProvider) with None => names | Some provider => add_provided names (provider host) end in
  sort_slice string_less names.
Definition List_ host r : list ToolSpec := omap (Resolve host r) (Names host r).

Definition toolPolicyAllows (registered : registeredTool) (policy : ToolPolicy) : bool :=
  (registered.(reg_dynamic) || default false (policy.(Allowlist) !! registered.(reg_spec).(Spec_Name)))
  && default false (default ∅ policy.(AllowedRisks) !! registered.(reg_spec).(Spec_Risk))
  && (bool_decide (registered.(reg_spec).(Spec_Idempotency) = ToolReadOnly) || policy.(AllowSideEffects)).
Definition PolicyAllows host r (name : string) (policy : ToolPolicy) : bool :=
  match registered host r name with Some tool => toolPolicyAllows tool policy | None => false end.

(** ** Sessions *)

Record TurnTraceScope := mkTurnTraceScope {
  Turn_TraceID : string; Turn_TurnID : string; Turn_ConversationID : string; Turn_Source : string }.

(** the trace store is a database, or nil; the authorizer answers with an error, if it is not nil *)
Record ToolRuntime := mkToolRuntime {
  rt_registry : option ToolRegistry; rt_policy : ToolPolicy;
  rt_authorizer : option (ToolScope -> ToolSpec -> string -> option string); rt_trace : option TraceDB }.
#[export] Instance eta_ToolRuntime : Eta ToolRuntime := fun rt => mkToolRuntime
  rt.(rt_registry) rt.(rt_policy) rt.(rt_authorizer) rt.(rt_trace).
Definition NewToolRuntime registry policy authorizer trace : ToolRuntime :=
  mkToolRuntime registry (normalizeToolPolicy policy) authorizer trace.

Record ToolSession := mkSession { session_scope : ToolScope; session_calls : Z }.
#[export] Instance eta_ToolSession : Eta ToolSession := fun s => mkSession s.(session_scope) s.(session_calls).
Definition NewSession (scope : ToolScope) : ToolSession := mkSession scope 0.

(** what happens around a call: draws for identifiers, readings of the clock; given the
    timeout of the call, how the wait for the exclusive slot and the context of the tool end
    (None: with the slot; not done); the turn the call belongs to, the trace store's faults *)
Record call_env := mkCallEnv {
  env_draw : option string; env_started : time; env_finished : time;
  env_slot : Z -> option ctx_error; env_context : Z -> option ctx_error;
  env_turn : option TurnTraceScope; env_trace_draw : option string; env_turn_draw : option string;
  env_faults : faults; env_wall : time }.

(** *** Tracing *)

Definition json_field (name value : list Z) : list Z := name ++ [58] ++ value.
Fixpoint join_fields (fields : list (list Z)) : list Z :=
  match fields with [] => [] | [f] => f | f :: rest => f ++ 44 :: join_fields rest end.
(** the struct of toolTraceDetail as json.Marshal writes it, nil if the arguments are not JSON *)
Definition toolTraceDetail (call : ToolCall) (result : ToolResult) : string :=
  let arguments := call.(Call_Arguments) in
  let redacted := containsSensitiveCredential arguments in
  let text name s := if bool_decide (s = "") then [] else [json_field (write_string name) (write_string s)] in
  let fields :=
    (if redacted then [json_field (write_string "arguments_redacted") (bytes "true")]
     else if bool_decide (arguments = "") then []
     else [json_field (write_string "arguments") (compact false false (bytes arguments))])
    ++ text "model_result" result.(Result_Projection).(ModelText)
    ++ text "user_result" result.(Result_Projection).(UserText) in
  if negb redacted && negb (bool_decide (arguments = "")) && bool_decide (parse_text arguments = None) then ""
  else of_bytes ([123] ++ join_fields fields ++ [125]).

Definition toolStatus (failure : option ToolFailure) : string :=
  match failure with
  | None => "completed"
  | Some f =>
      if one_of [ToolFailureTimeout] f.(Failure_Code) then "timed_out"
      else if one_of [ToolFailureCancelled] f.(Failure_Code) then "cancelled"
      else if one_of [ToolFailureNotVisible; ToolFailureUnauthorized; ToolFailurePolicyDenied; ToolFailureLimitExceeded]
                f.(Failure_Code) then "rejected"
      else "failed"
  end.

Definition trace_scope (env : call_env) (scope : ToolScope) : option TurnTraceScope :=
  match env.(env_turn) with
  | Some turn => Some turn
  | None =>
      match newRuntimeID env.(env_trace_draw) "trace", newRuntimeID env.(env_turn_draw) "turn" with
      | Ok traceID, Ok turnID => Some (mkTurnTraceScope traceID turnID scope.(Scope_ConversationID) "tool-runtime")
      | _, _ => None
      end
  end.

Definition tool_event host (env : call_env) (rt : ToolRuntime) (turn : TurnTraceScope) (call : ToolCall)
    (result : ToolResult) (policyResult : string) : TraceEvent :=
  let base := trace_event env.(env_wall) TraceToolCall turn.(Turn_TraceID) turn.(Turn_TurnID)
    turn.(Turn_ConversationID) turn.(Turn_Source) (if OK result then "completed" else "failed") in
  (base) <| TraceEvent_Step := call.(Call_Step) |>
    <| TraceEvent_ToolCallID := result.(Result_CallID) |> <| TraceEvent_ToolName := call.(Call_Name) |>
    <| TraceEvent_ToolRisk :=
         from_option Spec_Risk "unknown" (registry ← rt.(rt_registry); Resolve host registry call.(Call_Name)) |>
    <| TraceEvent_ToolPolicy := policyResult |> <| TraceEvent_ToolStatus := toolStatus result.(Result_Failure) |>
    <| TraceEvent_DurationMS := Z.quot result.(Result_Duration) 1000000 |>
    <| TraceEvent_ToolResultBytes := result.(Result_ResultBytes) |>
    <| TraceEvent_FailureCode := from_option Failure_Code "" result.(Result_Failure) |>
    <| TraceEvent_Detail := toolTraceDetail call result |>.

(** an event that the store refuses is lost, with a line in the log *)
Definition appendTrace host (env : call_env) (scope : ToolScope) (call : ToolCall) (result : ToolResult)
    (policyResult : string) (rt : ToolRuntime) : ToolRuntime :=
  match rt.(rt_trace), trace_scope env scope with
  | Some db, Some turn =>
      if bool_decide (result.(Result_CallID) = "") then rt
      else rt <| rt_trace := Some (Append env.(env_faults) env.(env_wall)
                   (tool_event host env rt turn call result policyResult) db).2 |>
  | _, _ => rt
  end.

(** *** One call *)

Definition redact (text replacement : string) : string :=
  if containsSensitiveCredential text then replacement else text.
(** the texts shown to the model and to the user, from what the tool projects *)
Definition show_projection (policy : ToolPolicy) (p : ToolProjection) : ToolProjection :=
  let cut text := TrimSpace (limitRunes text policy.(MaxProjectionRunes)) in
  mkProjection (cut (redact p.(ModelText) "[sensitive tool content redacted]"))
    (cut (redact p.(UserText) "工具结果包含疑似敏感凭据，已隐藏。")).

(** what follows the execution: the checks of the output and its projection *)
Definition check_output (policy : ToolPolicy) (tool : registeredTool) (output : string) (result : ToolResult)
    : ToolResult * option ToolFailure :=
  let result := result <| Result_ResultBytes := slen output |> in
  let invalid err := (result, Some (mkFailure ToolFailureInvalidOutput err)) in
  if bool_decide (output = "") then invalid None
  else if minPositive tool.(reg_spec).(Spec_MaxOutputBytes) policy.(MaxOutputBytes) <? slen output
  then (result, Some (failed_with ToolFailureOutputTooLarge))
  else match Validate tool.(reg_outputSchema) output with
       | Valid =>
           match tool.(reg_tool).(Tool_Project) output with
           | Err e => invalid (Some e)
           | Ok p =>
               let p := show_projection policy p in
               if bool_decide (tool.(reg_spec).(Spec_ReplyMode) = ToolReplyDirect) && bool_decide (p.(UserText) = "")
               then invalid (Some "direct reply tool requires a user projection")
               else if bool_decide (p.(ModelText) = "") && bool_decide (p.(UserText) = "") then invalid None
               else (result <| Result_Output := output |> <| Result_Projection := p |>, None)
           end
       | Invalid e => invalid (Some e)
       | Panicked => invalid None
       end.

Definition failure_of_context (e : ctx_error) : ToolFailure :=
  failed_with (match e with DeadlineExceeded => ToolFailureTimeout | Canceled => ToolFailureCancelled end).
Definition failure_of_error (e : exec_error) : ToolFailure :=
  match e with
  | ExecDeadline => failed_with ToolFailureTimeout
  | ExecCanceled => failed_with ToolFailureCancelled
  | ExecError err => mkFailure ToolFailureExecution (Some err)
  end.

(** the checks before a tool runs, in their order: the failure, if any.  The schemas are
    compiled, so their validators do not panic ([FairySchemaProps]) *)
Definition refusal (rt : ToolRuntime) (s : ToolSession) (tool : registeredTool) (call : ToolCall) : option ToolFailure :=
  let policy := rt.(rt_policy) in
  let arguments := call.(Call_Arguments) in
  if bool_decide (arguments = "")
     || (minPositive tool.(reg_spec).(Spec_MaxInputBytes) policy.(MaxInputBytes) <? slen arguments)
  then Some (failed_with ToolFailureInvalidArguments)
  else match Validate tool.(reg_inputSchema) arguments with
       | Invalid e => Some (mkFailure ToolFailureInvalidArguments (Some e))
       | Panicked => Some (failed_with ToolFailureInvalidArguments)
       | Valid =>
           if negb (visible s.(session_scope) call.(Call_Name)) then Some (failed_with ToolFailureNotVisible)
           else match (a ← rt.(rt_authorizer); a s.(session_scope) tool.(reg_spec) arguments) with
                | Some _ => Some (failed_with ToolFailureUnauthorized)
                | None =>
                    if negb (toolPolicyAllows tool policy) then Some (failed_with ToolFailurePolicyDenied)
                    else if policy.(MaxCalls) <=? s.(session_calls) then Some (failed_with ToolFailureLimitExceeded)
                    else None
                end
       end.

(** the tool runs, unless the exclusive slot cannot be had, in the world [w] *)
Definition run_tool (env : call_env) (rt : ToolRuntime) (s : ToolSession) (tool : registeredTool) (call : ToolCall)
    (result : ToolResult) (w : W) : ToolResult * option ToolFailure * W :=
  let policy := rt.(rt_policy) in
  let timeout := minPositive tool.(reg_spec).(Spec_Timeout) policy.(MaxTimeout) in
  let slot := if bool_decide (tool.(reg_spec).(Spec_Concurrency) = ToolExclusive) then env.(env_slot) timeout else None in
  match slot with
  | Some e => (result, Some (failure_of_context e), w)
  | None =>
      let '(outcome, w) :=
        match tool.(reg_tool).(Tool_ExecuteScoped) with
        | Some execute => execute s.(session_scope) call.(Call_Arguments) w
        | None => tool.(reg_tool).(Tool_Execute) call.(Call_Arguments) w
        end in
      match env.(env_context) timeout, outcome with
      | Some e, _ => (result, Some (failure_of_context e), w)
      | None, inr e => (result, Some (failure_of_error e), w)
      | None, inl output => (check_output policy tool output result, w)
      end
  end.

Definition denied (failure : option ToolFailure) : bool :=
  match failure with
  | Some f => one_of [ToolFailureNotVisible; ToolFailureUnauthorized; ToolFailurePolicyDenied; ToolFailureLimitExceeded]
                f.(Failure_Code)
  | None => false
  end.

(** the closure [finish] *)
Definition finish_call host (env : call_env) (s : ToolSession) (call : ToolCall) (result : ToolResult)
    (policyResult : string) (failure : option ToolFailure) (rt : ToolRuntime) : ToolResult * ToolRuntime :=
  let result := result <| Result_Duration := env.(env_finished) - env.(env_started) |> <| Result_Failure := failure |> in
  let policyResult := if denied failure then "denied" else policyResult in
  (result, appendTrace host env s.(session_scope) call result policyResult rt).

Definition no_projection : ToolProjection := mkProjection "" "".

(** *ToolSession.Execute; the result, and the session, the runtime and the world after it *)
Definition Execute host (env : call_env) (call : ToolCall) (s : ToolSession) (rt : ToolRuntime) (w : W)
    : ToolResult * ToolSession * ToolRuntime * W :=
  match newRuntimeID env.(env_draw) "tool" with
  | Err e =>
      (mkToolResult "" call.(Call_Name) "" "" no_projection 0 (env.(env_finished) - env.(env_started))
         (Some (mkFailure ToolFailureExecution (Some e))), s, rt, w)
  | Ok callID =>
      let result := mkToolResult callID call.(Call_Name) "" "" no_projection 0 0 None in
      match (registry ← rt.(rt_registry); registered host registry call.(Call_Name)) with
      | None =>
          let '(result, rt) := finish_call host env s call result "not_evaluated" (Some (failed_with ToolFailureNotFound)) rt in
          (result, s, rt, w)
      | Some tool =>
          let result := result <| Result_ReplyMode := tool.(reg_spec).(Spec_ReplyMode) |> in
          match refusal rt s tool call with
          | Some failure =>
              let '(result, rt) := finish_call host env s call result "not_evaluated" (Some failure) rt in
              (result, s, rt, w)
          | None =>
              let s := s <| session_calls ::= Z.succ |> in
              let '(result, failure, w) := run_tool env rt s tool call result w in
              let '(result, rt) := finish_call host env s call result "allowed" failure rt in
              (result, s, rt, w)
          end
      end
  end.
End tools.


Arguments Tool : clear implicits.
Arguments registeredTool : clear implicits.
Arguments ToolRegistry : clear implicits.
Arguments ToolRuntime : clear implicits.
