(* ===== verification/FairyToolsProps.v ===== *)
(** * What tools may do, and what is shown of it (fairy/tool.go)

    Lookups and listings agree; a tool runs only after every check, a limited number of
    times per session; a result that succeeds passed the checks of its output; a call
    leaves a row in the trace store. *)
From S2P Require Import Prelude GoLib Types FairyTypes RuneFacts FairyTrace JsonText FairySchema FairySensitive FairySchemaProps FairyTools MemoryState Demo.
From stdpp Require Import gmap strings list sorting.
From Stdlib Require Import ZArith Lia.

Local Open Scope Z_scope.
Local Open Scope go_scope.

Lemma model_replacement_clean : containsSensitiveCredential "[sensitive tool content redacted]" = false.
Proof. vm_compute. reflexivity. Qed.
Lemma user_replacement_clean : containsSensitiveCredential "工具结果包含疑似敏感凭据，已隐藏。" = false.
Proof. vm_compute. reflexivity. Qed.
#[local] Opaque containsSensitiveCredential.

Section props.
Context `{Runtime} `{Regexps} {Host W : Type}.
Implicit Types (r : ToolRegistry Host W) (host : Host) (provided : list (option (Tool W))) (tool : registeredTool W) (rt : ToolRuntime Host W) (s : ToolSession).

(** ** Names *)

Lemma find_provided_Some name provided tool :
  find_provided name provided = Some tool ->
  tool.(reg_spec).(Spec_Name) = name /\ exists candidate, candidate ∈ provided /\ prepareRegisteredTool candidate true = Ok tool.
Proof.
  induction provided as [|c provided IH]; cbn; [done|]. destruct (prepareRegisteredTool c true) as [t|] eqn:E.
  - case_bool_decide as En.
    + intros [= <-]. split; [done|]. exists c. split; [left|done].
    + intros (? & c' & ? & ?)%IH. split; [done|]. exists c'. split; [by right|done].
  - intros (? & c' & ? & ?)%IH. split; [done|]. exists c'. split; [by right|done].
Qed.

Lemma elem_of_add_provided name seen provided :
  name ∈ add_provided seen provided <-> name ∈ seen \/ is_Some (find_provided name provided).
Proof.
  revert seen. induction provided as [|c provided IH]; intros seen; cbn.
  { split; [by left|]. intros [?|[? ?]]; done. }
  destruct (prepareRegisteredTool c true) as [t|]; [|apply IH].
  case_bool_decide as Es; case_bool_decide as En; rewrite IH.
  - subst. split; intros; left; done.
  - done.
  - rewrite elem_of_app, list_elem_of_singleton, <- En. split; [intros [[?|?]|?]; eauto|].
    intros [?|?]; left; [by left|by right].
  - rewrite elem_of_app, list_elem_of_singleton. split; [intros [[?|?]|?]; eauto; congruence|].
    intros [?|?]; [left; by left|by right].
Qed.
Lemma NoDup_add_provided seen provided : NoDup seen -> NoDup (add_provided seen provided).
Proof.
  revert seen. induction provided as [|c provided IH]; intros seen Hs; cbn; [done|].
  destruct (prepareRegisteredTool c true) as [t|]; [|by apply IH]. case_bool_decide as Es; apply IH; [done|].
  apply NoDup_app. split; [done|]. split; [|apply NoDup_singleton].
  intros x Hx ->%list_elem_of_singleton. done.
Qed.

Lemma elem_of_keys (name : string) (m : gmap string (registeredTool W)) : name ∈ (map_to_list m).*1 <-> is_Some (m !! name).
Proof.
  rewrite list_elem_of_fmap. split.
  - intros ([k v] & -> & Hm%elem_of_map_to_list). by exists v.
  - intros [v Hv]. exists (name, v). split; [done|]. by apply elem_of_map_to_list.
Qed.

(** the listing and the lookup of tools agree: whatever is registered, and whatever the plugin
    host provides at the moment, the names are listed once each, and a name is listed exactly when a
    call of that name finds a tool. *)
Theorem listed_names_are_found r host :
  NoDup (Names host r) /\ forall name, name ∈ Names host r <-> is_Some (registered host r name).
Proof.
  unfold Names, registered. rewrite sort_slice_perm. split.
  - destruct (dynamicProvider r); [apply NoDup_add_provided|]; apply NoDup_fst_map_to_list.
  - intros name. rewrite elem_of_sort_slice. destruct (dynamicProvider r) as [provider|].
    + rewrite elem_of_add_provided, elem_of_keys. destruct (tools r !! name); [|by split; [intros [[? ?]|]|right]].
      split; [eauto|]. left. eauto.
    + rewrite elem_of_keys. by destruct (tools r !! name).
Qed.

(** ** Registered tools *)

Lemma prepared c dynamic tool :
  prepareRegisteredTool c dynamic = Ok tool ->
  c = Some tool.(reg_tool) /\ tool.(reg_dynamic) = dynamic /\ validateToolSpec tool.(reg_spec) = Ok tt
  /\ compileToolSchema tool.(reg_spec).(Spec_InputSchema) = Ok tool.(reg_inputSchema)
  /\ compileToolSchema tool.(reg_spec).(Spec_OutputSchema) = Ok tool.(reg_outputSchema).
Proof.
  unfold prepareRegisteredTool. destruct c as [c|]; [|done]. cbv zeta.
  match goal with |- context [validateToolSpec ?x] => set (spec := x) end. clearbody spec.
  destruct (validateToolSpec spec) as [[]|] eqn:Ev; [|done].
  destruct (compileToolSchema spec.(Spec_InputSchema)) as [i|] eqn:Ei; [|done].
  destruct (compileToolSchema spec.(Spec_OutputSchema)) as [o|] eqn:Eo; [|done]. by intros [= <-].
Qed.

(** the registries that the operations make *)
Inductive built : ToolRegistry Host W -> Prop :=
| built_new : built NewToolRegistry
| built_register c r : built r -> built (Register c r).2
| built_provider p host r : built r -> built (SetDynamicProvider p host r).2.

Lemma built_tools r : built r -> map_Forall (fun name tool =>
  tool.(reg_spec).(Spec_Name) = name /\ exists c dynamic, prepareRegisteredTool c dynamic = Ok tool) r.(tools).
Proof.
  induction 1 as [|c r Hr IH|p host r Hr IH].
  - apply map_Forall_empty.
  - unfold Register. destruct (prepareRegisteredTool c false) as [t|] eqn:E; [|done].
    destruct (tools r !! _); [done|]. cbn. apply map_Forall_insert_2; [|done]. split; [done|]. eauto.
  - unfold SetDynamicProvider. destruct p as [p|]; [|done]. destruct (provided_names _ _); [|done].
    by destruct (find_first _ _).
Qed.

Lemma registered_prepared r host name tool :
  built r -> registered host r name = Some tool ->
  tool.(reg_spec).(Spec_Name) = name /\ exists c dynamic, prepareRegisteredTool c dynamic = Ok tool.
Proof.
  intros Hb%built_tools. unfold registered. destruct (tools r !! name) as [t|] eqn:E.
  - intros [= ->]. exact (Hb _ _ E).
  - destruct (dynamicProvider r); [|done]. intros (? & c & _ & ?)%find_provided_Some. eauto.
Qed.

(** ** One call *)

Lemma refusal_None rt s tool (call : ToolCall) :
  refusal rt s tool call = None ->
  call.(Call_Arguments) <> ""
  /\ slen call.(Call_Arguments) <= minPositive tool.(reg_spec).(Spec_MaxInputBytes) rt.(rt_policy).(MaxInputBytes)
  /\ Validate tool.(reg_inputSchema) call.(Call_Arguments) = Valid
  /\ visible s.(session_scope) call.(Call_Name) = true
  /\ (forall a, rt.(rt_authorizer) = Some a -> a s.(session_scope) tool.(reg_spec) call.(Call_Arguments) = None)
  /\ toolPolicyAllows tool rt.(rt_policy) = true /\ s.(session_calls) < rt.(rt_policy).(MaxCalls).
Proof.
  unfold refusal. destruct (_ || _) eqn:E; [done|]. apply orb_false_iff in E as [Ea%bool_decide_eq_false El%Z.ltb_ge].
  destruct (Validate _ _) eqn:Ev; [|done..]. destruct (negb (visible _ _)) eqn:Es; [done|]. apply negb_false_iff in Es.
  destruct (mbind _ _) eqn:Em; [done|]. destruct (negb (toolPolicyAllows _ _)) eqn:Ep; [done|]. apply negb_false_iff in Ep.
  destruct (_ <=? _) eqn:Ec; [done|]. apply Z.leb_gt in Ec. intros _. repeat split; try done.
  intros a Ea'. rewrite Ea' in Em. exact Em.
Qed.

Lemma finish_failure host env s call result p failure rt :
  (finish_call host env s call result p failure rt).1.(Result_Failure) = failure
  /\ (finish_call host env s call result p failure rt).2.(rt_registry) = rt.(rt_registry)
  /\ (finish_call host env s call result p failure rt).2.(rt_policy) = rt.(rt_policy)
  /\ (finish_call host env s call result p failure rt).2.(rt_authorizer) = rt.(rt_authorizer).
Proof.
  unfold finish_call, appendTrace. cbn. destruct (rt_trace rt); [|done]. destruct (trace_scope _ _); [|done].
  by case_bool_decide.
Qed.

(** the two ways in which a call ends: it is refused, or a tool runs *)
Inductive outcome host env call s rt w res s' w' : Prop :=
| refused : w' = w -> s' = s -> is_Some res.(Result_Failure) -> outcome host env call s rt w res s' w'
| ran r tool result failure result0 :
    rt.(rt_registry) = Some r -> registered host r call.(Call_Name) = Some tool -> refusal rt s tool call = None ->
    s' = (s) <| session_calls ::= Z.succ |> ->
    result0.(Result_ReplyMode) = tool.(reg_spec).(Spec_ReplyMode) ->
    run_tool env rt s' tool call result0 w = (result, failure, w') ->
    res = (result) <| Result_Duration := env.(env_finished) - env.(env_started) |> <| Result_Failure := failure |> ->
    outcome host env call s rt w res s' w'.

Lemma Execute_outcome host env call s rt w res s' rt' w' :
  Execute host env call s rt w = (res, s', rt', w') ->
  rt'.(rt_registry) = rt.(rt_registry) /\ rt'.(rt_policy) = rt.(rt_policy) /\ rt'.(rt_authorizer) = rt.(rt_authorizer)
  /\ outcome host env call s rt w res s' w'.
Proof.
  unfold Execute. destruct (newRuntimeID _ _) as [callID|e]; [|intros [= <- <- <- <-]; by repeat split; apply refused].
  set (result := mkToolResult _ _ _ _ _ _ _ _).
  destruct (mbind _ _) as [tool|] eqn:Et.
  - apply bind_Some in Et as (r & Er & Et). cbv zeta. set (result1 := (result) <| Result_ReplyMode := _ |>).
    destruct (refusal rt s tool call) as [f|] eqn:Ef.
    + pose proof (finish_failure host env s call result1 "not_evaluated" (Some f) rt) as (F1 & F2 & F3 & F4).
      destruct (finish_call _ _ _ _ _ _ _ _) as [res1 rt1]. intros [= <- <- <- <-]. cbn in *.
      repeat split; [done..|]. apply refused; [done..|by rewrite F1].
    + set (s1 := (s) <| session_calls ::= Z.succ |>). destruct (run_tool _ _ _ _ _ _ _) as [[res1 failure] w1] eqn:Erun.
      pose proof (finish_failure host env s1 call res1 "allowed" failure rt) as (F1 & F2 & F3 & F4).
      destruct (finish_call _ _ _ _ _ _ _ _) as [res2 rt2] eqn:Efin. intros [= <- <- <- <-]. cbn in *.
      repeat split; [done..|]. eapply (ran _ _ _ _ _ _ _ _ _ r tool res1 failure result1);
        [exact Er|exact Et|exact Ef|reflexivity|reflexivity|exact Erun|]. unfold finish_call in Efin. by injection Efin as <- _.
  - pose proof (finish_failure host env s call result "not_evaluated" (Some (failed_with ToolFailureNotFound)) rt) as (F1 & F2 & F3 & F4).
    destruct (finish_call _ _ _ _ _ _ _ _) as [res1 rt1]. intros [= <- <- <- <-]. cbn in *.
    repeat split; [done..|]. apply refused; [done..|by rewrite F1].
Qed.

(** a specification that passes has limits between 1 and 1 MiB *)
Lemma limits_positive spec : validateToolSpec spec = Ok tt ->
  (1 <= spec.(Spec_MaxInputBytes) <= 1024 * 1024) /\ (1 <= spec.(Spec_MaxOutputBytes) <= 1024 * 1024).
Proof.
  unfold validateToolSpec. repeat (destruct (negb _); [done|]). 
  destruct (bool_decide _ || _); [done|]. repeat (destruct (negb _); [done|]).
  destruct (_ || _) eqn:E; [done|]. intros _. rewrite !orb_false_iff, !Z.leb_gt, !Z.ltb_ge in E. lia.
Qed.

Lemma run_tool_cost (cost : W -> Z) k env rt s tool call result w :
  0 <= k -> (forall text w, cost (tool.(reg_tool).(Tool_Execute) text w).2 <= cost w + k) ->
  (forall execute text w, tool.(reg_tool).(Tool_ExecuteScoped) = Some execute -> cost (execute s.(session_scope) text w).2 <= cost w + k) ->
  cost (run_tool env rt s tool call result w).2 <= cost w + k.
Proof.
  intros Hk H1 H2. unfold run_tool. cbv zeta. destruct (if bool_decide _ then _ else _); [cbn; lia|].
  assert (Hw : cost (match tool.(reg_tool).(Tool_ExecuteScoped) with
        | Some execute => execute s.(session_scope) call.(Call_Arguments) w
        | None => tool.(reg_tool).(Tool_Execute) call.(Call_Arguments) w
        end).2 <= cost w + k) by (destruct (Tool_ExecuteScoped _) eqn:E; [by apply H2|apply H1]).
  destruct (match Tool_ExecuteScoped _ with Some _ => _ | None => _ end) as [o w1]. cbn in Hw.
  destruct (env_context _ _); [done|]. by destruct o.
Qed.

(** C31: a tool runs only when it may: a call either changes nothing but the trace and fails, or the
    called name is that of a registered tool whose input schema the arguments satisfy, within the limit
    of 1 MiB; the tool is visible in the scope of the session, the authorizer does not object, the policy
    allows its risk and its side effects, and the session has calls left, of which it takes one. *)
Theorem tools_run_only_when_allowed r host env call s rt w res s' rt' w' :
  rt.(rt_registry) = Some r -> built r ->
  Execute host env call s rt w = (res, s', rt', w') ->
  (w' = w /\ s' = s /\ OK res = false)
  \/ exists tool v, registered host r call.(Call_Name) = Some tool /\ tool.(reg_spec).(Spec_Name) = call.(Call_Name)
     /\ parse_text call.(Call_Arguments) = Some v /\ satisfies tool.(reg_inputSchema) v
     /\ slen call.(Call_Arguments) <= 1024 * 1024
     /\ visible s.(session_scope) call.(Call_Name) = true
     /\ (forall a, rt.(rt_authorizer) = Some a -> a s.(session_scope) tool.(reg_spec) call.(Call_Arguments) = None)
     /\ toolPolicyAllows tool rt.(rt_policy) = true
     /\ s.(session_calls) < rt.(rt_policy).(MaxCalls) /\ s'.(session_calls) = s.(session_calls) + 1.
Proof.
  intros Er Hb (_ & _ & _ & [-> -> [f Hf]|r' tool res0 failure res1 Er' Et Href -> _ Hrun ->])%Execute_outcome.
  - left. repeat split. unfold OK. by rewrite Hf.
  - right. rewrite Er in Er'. injection Er' as <-. destruct (registered_prepared _ _ _ _ Hb Et) as (Hn & c & d & Hp).
    destruct (prepared _ _ _ Hp) as (_ & _ & Hspec & Hi & _).
    destruct (refusal_None _ _ _ _ Href) as (Hne & Hl & Hv & Hvis & Ha & Hpol & Hc).
    apply (validate_text _ _ _ Hi) in Hv as (v & Hv & Hs). exists tool, v. repeat split; try done.
    pose proof (limits_positive _ Hspec) as [Hlim _]. unfold minPositive in Hl.
    destruct (_ <=? 0) eqn:E1; [apply Z.leb_le in E1; lia|]. destruct (_ || _) eqn:E2; [lia|].
    apply orb_false_iff in E2 as [_ E2%Z.ltb_ge]. lia.
Qed.

(** *** Several calls *)

(** the calls of a session one after the other, each with the state of the plugin host *)
Fixpoint run_calls (l : list (Host * call_env * ToolCall)) s rt w : list ToolResult * ToolSession * ToolRuntime Host W * W :=
  match l with
  | [] => ([], s, rt, w)
  | (host, env, call) :: l =>
      let '(res, s, rt, w) := Execute host env call s rt w in
      let '(results, s, rt, w) := run_calls l s rt w in
      (res :: results, s, rt, w)
  end.

(** what a session costs is bounded: if no tool raises a measure of the world by more than [k],
    all the calls of one session together raise it by at most [k] per allowed call, however many calls
    the model makes, and even if tools are reloaded in between; a session of a runtime with the default
    policy runs at most six tools. *)
Theorem sessions_have_a_budget (cost : W -> Z) (k : Z) l scope rt w results s rt' w' registry policy authorizer trace :
  rt = NewToolRuntime registry policy authorizer trace -> 0 <= k ->
  (forall r host name tool text w, registry = Some r -> registered host r name = Some tool ->
     cost (tool.(reg_tool).(Tool_Execute) text w).2 <= cost w + k
     /\ forall execute, tool.(reg_tool).(Tool_ExecuteScoped) = Some execute -> cost (execute scope text w).2 <= cost w + k) ->
  run_calls l (NewSession scope) rt w = (results, s, rt', w') ->
  s.(session_calls) <= or_default policy.(MaxCalls) defaultToolMaxCalls
  /\ cost w' <= cost w + k * or_default policy.(MaxCalls) defaultToolMaxCalls.
Proof.
  intros Hrt Hk Htool. set (max := or_default _ _).
  assert (Hmax : 0 <= max) by (unfold max, or_default, defaultToolMaxCalls; destruct (Z.leb_spec policy.(MaxCalls) 0); lia).
  assert (Hgen : forall s0 rt0 w0, rt0.(rt_registry) = registry -> rt0.(rt_policy).(MaxCalls) = max ->
    s0.(session_scope) = scope -> s0.(session_calls) <= max ->
    run_calls l s0 rt0 w0 = (results, s, rt', w') ->
    s.(session_calls) <= max /\ cost w' <= cost w0 + k * (max - s0.(session_calls))).
  { clear Hrt rt w. revert results. induction l as [|[[host env] call] l IH]; intros results s0 rt0 w0 Hr Hm Hsc Hc; cbn.
    - intros [= <- <- <- <-]. split; [done|]. nia.
    - destruct (Execute _ _ _ _ _ _) as [[[res s1] rt1] w1] eqn:E1. destruct (run_calls l s1 rt1 w1) as [[[rs s2] rt2] w2] eqn:E2.
      intros [= <- <- <- <-]. apply Execute_outcome in E1 as (Hr1 & Hp1 & _ & Ho).
      destruct Ho as [-> -> _|r tool res0 failure res1 Er Et Href -> _ Hrun ->].
      + eapply IH in E2; [done|congruence|by rewrite Hp1|done|done].
      + destruct (refusal_None _ _ _ _ Href) as (_ & _ & _ & _ & _ & _ & Hlt). rewrite Hm in Hlt.
        eapply IH in E2; [|congruence|by rewrite Hp1|done|cbn; lia]. destruct E2 as [E2 E3]. split; [done|]. cbn in E3.
        assert (Hw : cost w1 <= cost w0 + k); [|nia].
        rewrite Hr in Er. pose proof (run_tool_cost cost k env rt0 ((s0) <| session_calls ::= Z.succ |>) tool call res1 w0 Hk) as Hcost. rewrite Hrun in Hcost.
        apply Hcost; [|cbn; rewrite Hsc]; intros; by eapply Htool. }
  subst rt. intros Hrun. apply Hgen in Hrun; cbn in *; [|done..|lia]. destruct Hrun as [? ?]. split; [done|]. by rewrite Z.sub_0_r in *.
Qed.

(** ** Results *)

Lemma redacted_is_clean text replacement :
  containsSensitiveCredential replacement = false -> containsSensitiveCredential (redact text replacement) = false.
Proof. intros Hr. unfold redact. by destruct (containsSensitiveCredential text) eqn:E. Qed.

(** what is shown of a text: a part of one without credentials, cut to the limit *)
Definition shown (max : Z) (text : string) : Prop :=
  exists whole, containsSensitiveCredential whole = false /\ text = TrimSpace (limitRunes whole max)
    /\ Z.of_nat (length (runes (limitRunes whole max))) <= max + 3.

Lemma show_projection_shown policy p :
  0 <= policy.(MaxProjectionRunes) ->
  shown policy.(MaxProjectionRunes) (show_projection policy p).(ModelText)
  /\ shown policy.(MaxProjectionRunes) (show_projection policy p).(UserText).
Proof.
  intros Hm. split; eexists; (split; [|split; [reflexivity|by apply limit_length]]); apply redacted_is_clean.
  - exact model_replacement_clean.
  - exact user_replacement_clean.
Qed.

#[local] Opaque show_projection TrimSpace limitRunes.
(** a call that fails: every field of its result but the failure is as before *)
Ltac rejected := split_and!; [reflexivity|reflexivity|reflexivity|by right|intros ? [= <-]; split; reflexivity|discriminate].
Lemma run_tool_fields env rt s tool call result w res failure w' :
  run_tool env rt s tool call result w = (res, failure, w') ->
  res.(Result_CallID) = result.(Result_CallID) /\ res.(Result_ToolName) = result.(Result_ToolName)
  /\ res.(Result_ReplyMode) = result.(Result_ReplyMode)
  /\ (res.(Result_ResultBytes) = result.(Result_ResultBytes) \/ 0 <= res.(Result_ResultBytes))
  /\ (forall f, failure = Some f -> validToolFailureCode f.(Failure_Code) = true /\ denied (Some f) = false)
  /\ (failure = None -> exists output p, Validate tool.(reg_outputSchema) output = Valid /\ output <> ""
        /\ slen output <= minPositive tool.(reg_spec).(Spec_MaxOutputBytes) rt.(rt_policy).(MaxOutputBytes)
        /\ tool.(reg_tool).(Tool_Project) output = Ok p
        /\ res.(Result_Output) = output /\ res.(Result_Projection) = show_projection rt.(rt_policy) p
        /\ res.(Result_ResultBytes) = slen output
        /\ (tool.(reg_spec).(Spec_ReplyMode) = ToolReplyDirect -> res.(Result_Projection).(UserText) <> "")
        /\ (res.(Result_Projection).(ModelText) <> "" \/ res.(Result_Projection).(UserText) <> "")).
Proof.
  unfold run_tool. cbv zeta. destruct (if bool_decide _ then _ else _) as [e|].
  { intros [= <- <- <-]. repeat split; [by left| | |done]; intros; simplify_eq; by destruct e. }
  destruct (match Tool_ExecuteScoped _ with Some _ => _ | None => _ end) as [o w1].
  destruct (env_context _ _) as [e|].
  { intros [= <- <- <-]. repeat split; [by left| | |done]; intros; simplify_eq; by destruct e. }
  destruct o as [output|e].
  2: { intros [= <- <- <-]. repeat split; [by left| | |done]; intros; simplify_eq; by destruct e. }
  unfold check_output. cbv zeta. set (res1 := (result) <| Result_ResultBytes := slen output |>).
  assert (Hb : 0 <= slen output) by (unfold slen; lia).
  assert (Hbad : forall err, (res1, Some (mkFailure ToolFailureInvalidOutput err), w1) = (res, failure, w') ->
    res = res1 /\ failure = Some (mkFailure ToolFailureInvalidOutput err)) by (intros err; by intros [= <- <- <-]).
  case_bool_decide as Eo; [intros [-> ->]%Hbad; rejected|].
  destruct (_ <? slen output) eqn:El; [intros [= <- <- <-]; rejected|]. apply Z.ltb_ge in El.
  destruct (Validate _ output) eqn:Ev; [|intros [-> ->]%Hbad; rejected..].
  destruct (Tool_Project _ output) as [p|e] eqn:Ep; [|intros [-> ->]%Hbad; rejected].
  destruct (bool_decide (Spec_ReplyMode _ = _) && _) eqn:Ed; [intros [-> ->]%Hbad; rejected|].
  destruct (bool_decide (ModelText _ = _) && _) eqn:Et; [intros [-> ->]%Hbad; rejected|].
  intros [= <- <- <-]. split_and!; [reflexivity|reflexivity|reflexivity|by right|discriminate|]. intros _. exists output, p.
  split_and!; [assumption..|reflexivity|reflexivity|reflexivity| |]; cbn [Result_Projection].
  - intros Hd. change (UserText (show_projection (rt_policy rt) p) <> ""). rewrite Hd in Ed. change (bool_decide (UserText (show_projection (rt_policy rt) p) = "") = false) in Ed. apply bool_decide_eq_false in Ed. exact Ed.
  - change (ModelText (show_projection (rt_policy rt) p) <> "" \/ UserText (show_projection (rt_policy rt) p) <> "").
    apply andb_false_iff in Et as [Et%bool_decide_eq_false|Et%bool_decide_eq_false]; [left|right]; assumption.
Qed.

(** a result that succeeds has passed every check: its output is one JSON value that satisfies the
    output schema of the tool, of at most 1 MiB; it carries what the tool projects of that output, shown
    so that each text is a part of one without credentials, cut to the limit of the policy (and an
    ellipsis); a direct reply has a text for the user, and any result has a text for somebody. *)
Theorem successful_results_are_checked r host env call s policy authorizer trace w res s' rt' w' :
  built r ->
  Execute host env call s (NewToolRuntime (Some r) policy authorizer trace) w = (res, s', rt', w') -> OK res = true ->
  let max := or_default policy.(MaxProjectionRunes) defaultToolProjectionRune in
  exists tool v p, registered host r call.(Call_Name) = Some tool
    /\ parse_text res.(Result_Output) = Some v /\ satisfies tool.(reg_outputSchema) v
    /\ slen res.(Result_Output) <= 1024 * 1024 /\ res.(Result_ResultBytes) = slen res.(Result_Output)
    /\ tool.(reg_tool).(Tool_Project) res.(Result_Output) = Ok p
    /\ res.(Result_Projection) = show_projection (normalizeToolPolicy policy) p
    /\ shown max res.(Result_Projection).(ModelText) /\ shown max res.(Result_Projection).(UserText)
    /\ (res.(Result_ReplyMode) = ToolReplyDirect -> res.(Result_Projection).(UserText) <> "")
    /\ (res.(Result_Projection).(ModelText) <> "" \/ res.(Result_Projection).(UserText) <> "").
Proof.
  intros Hb (_ & _ & _ & Ho)%Execute_outcome Hok%bool_decide_eq_true max.
  destruct Ho as [_ _ [f Hf]|r' tool res0 failure res1 [= <-] Et _ _ Em Hrun ->]; [congruence|]. cbn in Hok. subst failure.
  destruct (registered_prepared _ _ _ _ Hb Et) as (_ & c & d & Hp). destruct (prepared _ _ _ Hp) as (_ & _ & Hspec & _ & Hout).
  destruct (run_tool_fields _ _ _ _ _ _ _ _ _ _ Hrun) as (_ & _ & Em' & _ & _ & Hs).
  destruct (Hs eq_refl) as (output & p & Hv & _ & Hl & Hproj & Eout & Epr & Ebytes & Hdirect & Hsome).
  apply (validate_text _ _ _ Hout) in Hv as (v & Hv & Hsat). exists tool, v, p. cbn.
  assert (Hmax : 0 <= max) by (unfold max, or_default, defaultToolProjectionRune; destruct (Z.leb_spec policy.(MaxProjectionRunes) 0); lia).
  destruct (show_projection_shown (normalizeToolPolicy policy) p Hmax) as [Hm Hu]. cbn in Epr. rewrite Eout, Epr.
  rewrite Epr in Hdirect, Hsome. split_and!; [assumption..| |assumption|assumption|reflexivity|exact Hm|exact Hu| |assumption].
  - pose proof (limits_positive _ Hspec) as [_ Hlim]. cbn in Hl. revert Hl. unfold minPositive.
    destruct (Z.leb_spec (Spec_MaxOutputBytes tool.(reg_spec)) 0); [lia|].
    destruct (_ || _) eqn:E2; [lia|]. apply orb_false_iff in E2 as [_ E2%Z.ltb_ge]. lia.
  - intros Hd. apply Hdirect. congruence.
Qed.

(** ** Traces *)

Lemma registered_risk r host name tool :
  built r -> registered host r name = Some tool -> validToolTraceRisk tool.(reg_spec).(Spec_Risk) = true.
Proof.
  intros Hb Ht. destruct (registered_prepared _ _ _ _ Hb Ht) as (_ & c & d & (_ & _ & Hs & _)%prepared).
  revert Hs. unfold validateToolSpec. destruct (negb (validTraceLabel _)); [done|]. destruct (bool_decide _ || _); [done|].
  destruct (negb (one_of [RiskLow; _; _] _)) eqn:E; [done|]. intros _. apply negb_false_iff in E. revert E.
  unfold one_of, validToolTraceRisk, one_of. rewrite !bool_decide_eq_true. set_solver.
Qed.

Lemma toolStatus_valid failure : validToolTraceStatus (toolStatus failure) = true.
Proof. unfold toolStatus. destruct failure as [f|]; [|done]. by repeat destruct (one_of _ _). Qed.
Lemma toolStatus_completed f : toolStatus (Some f) <> "completed".
Proof. unfold toolStatus. by repeat destruct (one_of _ _). Qed.

(** the statuses, the policy and the failure code of the event of a call fit together *)
Lemma tool_event_valid host env rt turn call result policyResult :
  validTraceLabel turn.(Turn_Source) = true -> validRuntimeID turn.(Turn_TraceID) = true ->
  (turn.(Turn_TurnID) = "" \/ validRuntimeID turn.(Turn_TurnID) = true) ->
  validTraceLabel call.(Call_Name) = true -> 0 <= call.(Call_Step) <= maxPlannerSteps ->
  validRuntimeID result.(Result_CallID) = true -> 0 <= result.(Result_Duration) -> 0 <= result.(Result_ResultBytes) ->
  validToolTracePolicy policyResult = true -> (result.(Result_Failure) = None -> policyResult = "allowed") ->
  (forall f, result.(Result_Failure) = Some f -> validToolFailureCode f.(Failure_Code) = true) ->
  (forall r, rt.(rt_registry) = Some r -> built r) ->
  slen (toolTraceDetail call result) <= maxTraceDetailBytes ->
  (toolTraceDetail call result <> "" -> is_Some (json_unmarshal (toolTraceDetail call result))) ->
  validTraceEvent (tool_event host env rt turn call result policyResult) = true.
Proof.
  intros Hsource Htid Hturn Hname Hstep Hid Hdur Hbytes Hpol Hok Hcode Hb Hsize Hjson.
  set (event := tool_event host env rt turn call result policyResult).
  assert (Hrisk : validToolTraceRisk event.(TraceEvent_ToolRisk) = true).
  { cbn. destruct (rt_registry rt) as [r|] eqn:Er; [|done]. cbn. unfold Resolve.
    destruct (registered host r call.(Call_Name)) as [t|] eqn:Et; [|done]. cbn. eapply registered_risk; eauto. }
  assert (Hnum : trace_numbers_ok event = true).
  { unfold trace_numbers_ok. cbn. apply negb_true_iff. rewrite !orb_false_iff, !Z.ltb_ge.
    assert (0 <= result.(Result_Duration) `quot` 1000000) by (apply Z.quot_pos; lia). lia. }
  assert (Hsizes : trace_sizes_ok event = true).
  { unfold trace_sizes_ok. apply negb_true_iff. rewrite !orb_false_iff. split_and!; [done|done|by apply Z.ltb_ge|].
    cbn. case_bool_decide as E1; [done|]. cbn. apply bool_decide_eq_false. by intros E%eq_None_not_Some; apply E, Hjson. }
  assert (Htool : validToolTrace event = true).
  { unfold validToolTrace. rewrite Hrisk. change (TraceEvent_ToolCallID event) with result.(Result_CallID).
    change (TraceEvent_ToolName event) with call.(Call_Name). rewrite Hid, Hname.
    change (TraceEvent_ToolPolicy event) with policyResult. rewrite Hpol.
    change (TraceEvent_ToolStatus event) with (toolStatus result.(Result_Failure)). rewrite toolStatus_valid.
    cbn -[toolStatus bool_decide]. unfold OK. destruct (Result_Failure result) as [f|] eqn:Ef.
    - cbn -[toolStatus]. rewrite (Hcode f eq_refl), andb_true_r. apply negb_true_iff, bool_decide_eq_false, toolStatus_completed.
    - rewrite (Hok eq_refl). done. }
  unfold validTraceEvent, validTraceEventDetails. rewrite Hnum, Hsizes.
  change (TraceEvent_Source event) with turn.(Turn_Source). change (TraceEvent_TraceID event) with turn.(Turn_TraceID).
  change (TraceEvent_TurnID event) with turn.(Turn_TurnID). rewrite Hsource, Htid.
  assert (Hs : validTraceStatus event.(TraceEvent_Status) = true) by (cbn; by destruct (OK result)).
  rewrite Hs. change (TraceEvent_Type event) with TraceToolCall.
  assert (Ht : bool_decide (turn.(Turn_TurnID) = "") || validRuntimeID turn.(Turn_TurnID) = true).
  { destruct Hturn as [->| ->]; [done|]. by rewrite orb_true_r. }
  rewrite Ht. cbn -[validToolTrace]. exact Htool.
Qed.

Lemma refusal_code rt s tool call f : refusal rt s tool call = Some f -> validToolFailureCode f.(Failure_Code) = true.
Proof.
  unfold refusal. destruct (_ || _); [by intros; simplify_eq|].
  destruct (Validate _ _); [|by intros; simplify_eq..]. destruct (negb _); [by intros; simplify_eq|].
  destruct (mbind _ _); [by intros; simplify_eq|]. destruct (negb _); [by intros; simplify_eq|].
  by destruct (_ <=? _); intros; simplify_eq.
Qed.

(** the row of a call *)
Lemma Execute_trace host env call s rt w res s' rt' w' callID :
  newRuntimeID env.(env_draw) "tool" = Ok callID ->
  Execute host env call s rt w = (res, s', rt', w') ->
  exists policyResult, rt' = appendTrace host env s.(session_scope) call res policyResult rt
    /\ res.(Result_CallID) = callID /\ res.(Result_Duration) = env.(env_finished) - env.(env_started)
    /\ 0 <= res.(Result_ResultBytes)
    /\ (forall f, res.(Result_Failure) = Some f -> validToolFailureCode f.(Failure_Code) = true)
    /\ (res.(Result_Failure) = None -> policyResult = "allowed")
    /\ (policyResult = "allowed" /\ denied res.(Result_Failure) = false /\ s'.(session_calls) = s.(session_calls) + 1
        \/ policyResult = (if denied res.(Result_Failure) then "denied" else "not_evaluated") /\ s' = s).
Proof.
  intros Hid. unfold Execute. rewrite Hid. set (result := mkToolResult _ _ _ _ _ _ _ _).
  destruct (mbind _ _) as [tool|] eqn:Et.
  - cbv zeta. set (result1 := (result) <| Result_ReplyMode := _ |>). destruct (refusal rt s tool call) as [f|] eqn:Ef.
    + intros [= <- <- <- <-]. eexists. split; [reflexivity|]. cbn. split_and!; [done|done|lia| |done|right; by split].
      intros f' [= <-]. by eapply refusal_code.
    + destruct (run_tool _ _ _ _ _ _ _) as [[res1 failure] w1] eqn:Erun.
      destruct (run_tool_fields _ _ _ _ _ _ _ _ _ _ Erun) as (E1 & _ & _ & Eb & Ecode & _).
      intros [= <- <- <- <-]. exists "allowed". cbn.
      assert (Hd : denied failure = false) by (destruct failure as [f|]; [by apply Ecode|done]). rewrite Hd.
      split_and!; [reflexivity|done|done| |by intros f' E; apply Ecode|done|left; cbn; split_and!; [done|done|lia]].
      destruct Eb as [-> |]; [cbn; lia|done].
  - intros [= <- <- <- <-]. eexists. split; [reflexivity|]. cbn. split_and!; [done|done|lia| |done|right; by split].
    by intros f' [= <-].
Qed.

#[local] Opaque toolTraceDetail.

(** every call of a tool is traced: with a trace store whose driver works, a call of a turn with
    valid identifiers, under a name that is a valid label, appends exactly one row to the store, however
    the call ends.  The event of the row carries the identifier and the outcome of the call; its policy
    is "allowed" exactly when the call was taken from the budget of the session, and "denied" when the
    tool was not visible, not authorized, refused by the policy, or over the budget.
    (The detail must fit the store, and encoding/json must read what it wrote.) *)
Theorem calls_are_traced r host env call s rt w res s' rt' w' db turn draw :
  rt.(rt_registry) = Some r -> built r -> rt.(rt_trace) = Some db ->
  env.(env_draw) = Some draw -> slen draw = 16 -> env.(env_started) <= env.(env_finished) ->
  trace_scope env s.(session_scope) = Some turn ->
  validTraceLabel turn.(Turn_Source) = true -> validRuntimeID turn.(Turn_TraceID) = true ->
  (turn.(Turn_TurnID) = "" \/ validRuntimeID turn.(Turn_TurnID) = true) ->
  validTraceLabel call.(Call_Name) = true -> 0 <= call.(Call_Step) <= maxPlannerSteps ->
  env.(env_faults) InsertEvent = None ->
  Execute host env call s rt w = (res, s', rt', w') ->
  slen (toolTraceDetail call res) <= maxTraceDetailBytes ->
  (toolTraceDetail call res <> "" -> is_Some (json_unmarshal (toolTraceDetail call res))) ->
  exists event row db', rt'.(rt_trace) = Some db' /\ db'.(fairy_trace_events) = db.(fairy_trace_events) ++ [row]
    /\ row.(row_type) = TraceToolCall /\ trace_payload event = Some row.(row_payload_json)
    /\ event.(TraceEvent_ToolCallID) = res.(Result_CallID) /\ event.(TraceEvent_ToolName) = call.(Call_Name)
    /\ event.(TraceEvent_FailureCode) = from_option Failure_Code "" res.(Result_Failure)
    /\ (event.(TraceEvent_ToolPolicy) = "allowed" <-> s'.(session_calls) = s.(session_calls) + 1)
    /\ (event.(TraceEvent_ToolPolicy) = "denied" <-> denied res.(Result_Failure) = true).
Proof.
  intros Er Hb Edb Edraw Hdraw Htime Hturn Hs Ht Htn Hname Hstep Hfault Hrun Hsize Hjson.
  destruct (newRuntimeID env.(env_draw) "tool") as [callID|] eqn:Eid; [|by rewrite Edraw in Eid].
  destruct (Execute_trace _ _ _ _ _ _ _ _ _ _ _ Eid Hrun) as (p & -> & Ecid & Edur & Hbytes & Hcode & Hok & Hp).
  rewrite Edraw in Eid. assert (Hid : validRuntimeID res.(Result_CallID) = true).
  { rewrite Ecid. eapply runtime_id_valid; [exact Eid|rewrite Hdraw; done|done|]. by apply (bool_decide_unpack _). }
  assert (Hpol : validToolTracePolicy p = true).
  { destruct Hp as [(-> & _ & _)|[-> _]]; [done|]. by destruct (denied _). }
  set (event := tool_event host env rt turn call res p).
  assert (Hv : validTraceEvent event = true).
  { apply tool_event_valid; try done; [lia|]. intros r' Er'. rewrite Er in Er'. by injection Er' as <-. }
  assert (Hpay : exists payload, trace_payload event = Some payload).
  { unfold trace_payload. cbv zeta. change (TraceEvent_Detail event) with (toolTraceDetail call res).
    case_bool_decide as E; [eexists; reflexivity|]. destruct (Hjson E) as [j ->]. eexists. reflexivity. }
  destruct Hpay as [payload Hpay]. unfold appendTrace. rewrite Edb, Hturn.
  assert (Hne : bool_decide (res.(Result_CallID) = "") = false)
    by (apply bool_decide_eq_false; intros E; rewrite E in Hid; discriminate Hid).
  rewrite Hne. fold event.
  unfold Append. rewrite Hv, Hpay. cbn [negb]. unfold FairyTrace.exec. rewrite Hfault. cbn [snd fst rt_trace].
  do 3 eexists. split; [reflexivity|]. split; [reflexivity|]. split_and!; [done|exact Hpay|done|done|done| |].
  - change (TraceEvent_ToolPolicy event) with p. clear -Hp. destruct Hp as [(-> & _ & Ec)|[-> ->]]; [done|].
    destruct (denied _); (split; [done|lia]).
  - change (TraceEvent_ToolPolicy event) with p. clear -Hp. destruct Hp as [(-> & -> & Ec)|[-> ->]]; [done|by destruct (denied _)].
Qed.
End props.

(** ** A tool that counts its executions *)

Lemma only_tool `{Runtime} `{Regexps} {Host W} (c : Tool W) (host : Host) name tool :
  registered host (Register (Some c) NewToolRegistry).2 name = Some tool -> tool.(reg_tool) = c.
Proof.
  unfold Register, registered. destruct (prepareRegisteredTool (Some c) false) as [t|] eqn:Ep; [|done].
  apply prepared in Ep as ([= Ep] & _). cbn. rewrite lookup_empty. cbn.
  destruct (decide (t.(reg_spec).(Spec_Name) = name)) as [->|Hn].
  - rewrite lookup_insert_eq. by intros [= <-].
  - by rewrite lookup_insert_ne, lookup_empty.
Qed.

Definition demo_spec : ToolSpec := mkToolSpec "lookup" "Looks a player up." uid_schema_text uid_schema_text
  RiskLow ToolSerial ToolReadOnly "" minute 1024 1024.
Definition demo_tool : Tool nat := mkTool demo_spec (fun text n => (inl text, S n)) None
  (fun text => Ok (mkProjection ("found " +:+ text) "found")).
Notation demo_registry := (Register (H := demo_runtime) (Host := unit) (Some demo_tool) NewToolRegistry).2.
Lemma demo_built : built (H := demo_runtime) demo_registry.
Proof. apply built_register, built_new. Qed.

Definition demo_scope : ToolScope := mkToolScope "c1" "private" "u1" {["lookup" := true]}.
Definition demo_call : ToolCall := mkToolCall "lookup" (json_quotes "{'uid':'10000001'}") 1.
Definition demo_turn : TurnTraceScope := mkTurnTraceScope "trace_1" "turn_1" "c1" "im".
Definition demo_env : call_env := mkCallEnv (Some "0123456789abcdef") 0 second (fun _ => None) (fun _ => None)
  (Some demo_turn) None None no_faults demo_epoch.
Definition demo_tools : ToolRuntime unit nat :=
  NewToolRuntime (Some demo_registry) (DefaultToolPolicy ["lookup"]) None (Some (empty_trace_db "key")).
Notation demo_execute := (Execute (H := demo_runtime) tt demo_env demo_call (NewSession demo_scope) demo_tools O).

Example demo_executes :
  let '(res, s, _, w) := demo_execute in
  OK res = true /\ res.(Result_Projection).(UserText) = "found" /\ s.(session_calls) = 1 /\ w = 1%nat.
Proof. vm_compute. done. Qed.

Lemma tools_run_only_when_allowed_witness :
  let '(res, s', _, w') := demo_execute in
  (w' = O /\ s' = NewSession demo_scope /\ OK res = false)
  \/ exists tool v, registered (H := demo_runtime) tt demo_registry "lookup" = Some tool
     /\ satisfies (H := demo_runtime) tool.(reg_inputSchema) v /\ s'.(session_calls) = 1.
Proof.
  destruct demo_execute as [[[res s'] rt'] w'] eqn:E.
  destruct (tools_run_only_when_allowed (H := demo_runtime) demo_registry tt demo_env demo_call _ demo_tools O res s' rt' w'
    eq_refl demo_built E) as [Hl|(tool & v & Ht & _ & _ & Hv & _ & _ & _ & _ & _ & Hc)]; 
    [left; exact Hl|right; exists tool, v; split; [exact Ht|split; [exact Hv|exact Hc]]].
Defined.

Lemma sessions_have_a_budget_witness :
  let '(_, s, _, w) := run_calls (H := demo_runtime) (replicate 9 (tt, demo_env, demo_call)) (NewSession demo_scope) demo_tools O in
  s.(session_calls) <= 6 /\ Z.of_nat w <= 0 + 1 * 6.
Proof.
  destruct (run_calls _ _ _ _) as [[[results s] rt'] w'] eqn:E.
  apply (sessions_have_a_budget (H := demo_runtime) (fun w : nat => Z.of_nat w) 1 (replicate 9 (tt, demo_env, demo_call)) demo_scope demo_tools O results s rt' w'
    (Some demo_registry) (DefaultToolPolicy ["lookup"]) None (Some (empty_trace_db "key")) eq_refl); [by apply Z.leb_le| |exact E].
  intros r host name tool text w Er Ht. apply (inj Some) in Er. subst r.
  apply (only_tool (H := demo_runtime) demo_tool host name) in Ht as Et.
  rewrite Et. split; [cbn; lia|]. intros execute [=].
Defined.

Lemma successful_results_are_checked_witness :
  let '(res, _, _, _) := demo_execute in
  slen res.(Result_Output) <= 1024 * 1024 /\ shown 4000 res.(Result_Projection).(ModelText).
Proof.
  destruct demo_execute as [[[res s'] rt'] w'] eqn:E.
  destruct (successful_results_are_checked (H := demo_runtime) demo_registry tt demo_env demo_call (NewSession demo_scope)
    (DefaultToolPolicy ["lookup"]) None (Some (empty_trace_db "key")) O res s' rt' w' demo_built E)
    as (tool & v & p & _ & _ & _ & Hl & _ & _ & _ & Hm & _); [|split; [exact Hl|exact Hm]].
  assert (Hok : OK demo_execute.1.1.1 = true) by (vm_compute; reflexivity). by rewrite E in Hok.
Defined.

(** a runtime that reads JSON *)
Fixpoint json_of_text (v : jtext) : json :=
  match v with
  | TNull => JNull
  | TBool b => JBool b
  | TNumber literal => jint (default 0 (ParseInt64 literal))
  | TString t => JStr t
  | TArray l => JArr (json_of_text <$> l)
  | TObject ms => JObj (foldl (fun m kv => <[kv.1 := kv.2]> m) ∅ ((fun kv => (kv.1, json_of_text kv.2)) <$> ms))
  end.
Definition reading_runtime : Runtime := {|
  clock := @clock demo_runtime; rand_token := @rand_token demo_runtime; sha256 := @sha256 demo_runtime;
  json_marshal := @json_marshal demo_runtime; json_marshal_nan := @json_marshal_nan demo_runtime;
  json_unmarshal text := json_of_text <$> parse_text text;
  bcrypt_hash := @bcrypt_hash demo_runtime; bcrypt_matches := @bcrypt_matches demo_runtime;
  base64_decode := @base64_decode demo_runtime; detect_content_type := @detect_content_type demo_runtime;
  parse_request_uri := @parse_request_uri demo_runtime; private_ip := @private_ip demo_runtime;
  parse_rfc3339 := @parse_rfc3339 demo_runtime; to_lower := @to_lower demo_runtime;
  parse_float := @parse_float demo_runtime; reparse_int := @reparse_int demo_runtime;
  sprintf1 := @sprintf1 demo_runtime; sprintf2 := @sprintf2 demo_runtime |}.

Notation traced_registry := (Register (H := reading_runtime) (Host := unit) (Some demo_tool) NewToolRegistry).2.
Definition traced_tools : ToolRuntime unit nat :=
  NewToolRuntime (Some traced_registry) (DefaultToolPolicy ["lookup"]) None (Some (empty_trace_db "key")).
(** a call of a tool that does not exist *)
Definition lost_call : ToolCall := mkToolCall "weather" "{}" 1.
Notation traced_execute := (Execute (H := reading_runtime) tt demo_env lost_call (NewSession demo_scope) traced_tools O).

Lemma traced_detail :
  (slen (toolTraceDetail lost_call traced_execute.1.1.1) <=? maxTraceDetailBytes)
  && bool_decide (is_Some (@json_unmarshal reading_runtime (toolTraceDetail lost_call traced_execute.1.1.1))) = true.
Proof. vm_compute. reflexivity. Qed.

Lemma calls_are_traced_witness :
  let '(res, s', rt', _) := traced_execute in
  exists event row db', rt'.(rt_trace) = Some db' /\ db'.(fairy_trace_events) = [row]
    /\ trace_payload (H := reading_runtime) event = Some row.(row_payload_json)
    /\ (event.(TraceEvent_ToolPolicy) = "allowed" <-> s'.(session_calls) = 1).
Proof.
  destruct traced_execute as [[[res s'] rt'] w'] eqn:E.
  pose proof traced_detail as Hd. rewrite E in Hd. cbn [fst] in Hd. apply andb_true_iff in Hd as [Hd1 Hd2].
  destruct (calls_are_traced (H := reading_runtime) traced_registry tt demo_env lost_call (NewSession demo_scope) traced_tools O res s' rt' w'
    (empty_trace_db "key") demo_turn "0123456789abcdef") as (event & row & db' & H1 & H2 & _ & H4 & _ & _ & _ & H7 & _);
    [reflexivity|apply built_register, built_new|reflexivity|reflexivity|reflexivity|by apply Z.leb_le|reflexivity|reflexivity
    |reflexivity|right; reflexivity|reflexivity|by split|reflexivity|exact E|by apply Z.leb_le
    |intros _; by apply bool_decide_eq_true in Hd2|].
  exists event, row, db'. split; [exact H1|]. split; [exact H2|]. split; [exact H4|exact H7].
Defined.
