(* ===== verification/FairyPlugins.v ===== *)
(** * Plugins of the assistant (fairy/plugin_runtime.go)

    The host of the plugins: manifests, the order of dependencies, the scope through which
    a plugin registers what it contributes, the capabilities and hooks that plugins share,
    and the life cycle of a plugin.  A module is an interface: its Register is a program
    over the operations of its scope, and what its other methods do depends on the world
    [Env] at the moment of the operation.  Only the in-process runner is modelled, the
    only one that the assistant installs. *)
From S2P Require Import Prelude GoLib Types FairyTypes DynamicContent FairySchema FairyTools MemoryState.
From stdpp Require Import gmap strings list.
From Stdlib Require Import ZArith.

Local Open Scope Z_scope.
Local Open Scope go_scope.

(** ** Manifests *)

Definition PluginComponentCommand := "command".
Definition PluginComponentTool := "tool".
Definition PluginComponentMemory := "memory".
Definition PluginComponentPrompt := "prompt".
Definition PluginComponentHook := "hook".
Definition PluginComponentService := "service".
Definition plugin_components : list string :=
  [PluginComponentCommand; PluginComponentTool; PluginComponentMemory; PluginComponentPrompt; PluginComponentHook;
   PluginComponentService].
Definition PluginIsolationInProcess := "in_process".
Definition PluginIsolationProcess := "isolated_process".

Record PluginDependency := mkDependency { Dependency_ID : string; Dependency_MinVersion : string }.
#[export] Instance PluginDependency_eq_dec : EqDecision PluginDependency.
Proof. solve_decision. Defined.

Record PluginManifest := mkManifest {
  Manifest_ID : string; Manifest_Name : string; Manifest_Version : string; Manifest_Description : string;
  Manifest_APIVersion : Z; Manifest_Components : list string; Manifest_Requires : list string;
  Manifest_Provides : list string; Manifest_Dependencies : list PluginDependency; Manifest_Isolation : string;
  Manifest_Reloadable : bool; Manifest_DefaultEnabled : bool }.
#[export] Instance eta_PluginManifest : Eta PluginManifest := fun r => mkManifest
  r.(Manifest_ID) r.(Manifest_Name) r.(Manifest_Version) r.(Manifest_Description) r.(Manifest_APIVersion)
  r.(Manifest_Components) r.(Manifest_Requires) r.(Manifest_Provides) r.(Manifest_Dependencies)
  r.(Manifest_Isolation) r.(Manifest_Reloadable) r.(Manifest_DefaultEnabled).
#[export] Instance PluginManifest_eq_dec : EqDecision PluginManifest.
Proof. solve_decision. Defined.
(** PluginManifest{ID: id} *)
Definition manifest_of_id (id : string) : PluginManifest := mkManifest id "" "" "" 0 [] [] [] [] "" false false.

Definition normalizePluginManifest (m : PluginManifest) : PluginManifest :=
  if bool_decide (m.(Manifest_Isolation) = "") then m <| Manifest_Isolation := PluginIsolationInProcess |> else m.

(** surrounding space is ignored; a dot is not allowed first *)
Definition plugin_character (c : Z) : bool := is_lower c || is_digit c || is_char "-" c || is_char "_" c.
Definition validPluginID (value : string) : bool :=
  let value := TrimSpace value in
  if bool_decide (value = "") || (64 <? slen value) then false
  else match runes value with
       | [] => true
       | first :: rest => plugin_character first && forallb (fun c => plugin_character c || is_char "." c) rest
       end.

Fixpoint check_components (id : string) (seen components : list string) : result unit :=
  match components with
  | [] => Ok tt
  | c :: rest =>
      if negb (one_of plugin_components c) then Err ("plugin " +:+ id +:+ " declares unknown component " +:+ quoted c)
      else if bool_decide (c ∈ seen) then Err ("plugin " +:+ id +:+ " declares component " +:+ quoted c +:+ " more than once")
      else check_components id (c :: seen) rest
  end.
Fixpoint check_dependencies (id : string) (seen : list string) (dependencies : list PluginDependency) : result unit :=
  match dependencies with
  | [] => Ok tt
  | d :: rest =>
      let name := d.(Dependency_ID) in
      if negb (validPluginID name) || bool_decide (name = id)
      then Err ("plugin " +:+ id +:+ " declares invalid dependency " +:+ quoted name)
      else if bool_decide (name ∈ seen)
      then Err ("plugin " +:+ id +:+ " declares dependency " +:+ quoted name +:+ " more than once")
      else check_dependencies id (name :: seen) rest
  end.

(** PluginManifest.Validate *)
Definition ValidateManifest (m : PluginManifest) : result unit :=
  let id := m.(Manifest_ID) in
  let isolation := (normalizePluginManifest m).(Manifest_Isolation) in
  if negb (validPluginID id) || bool_decide (TrimSpace m.(Manifest_Name) = "")
     || bool_decide (TrimSpace m.(Manifest_Version) = "")
  then Err "plugin manifest requires valid id, name, and version"
  else if negb (m.(Manifest_APIVersion) =? 1)
  then Err ("plugin " +:+ id +:+ " uses unsupported API version " +:+ sprint_d m.(Manifest_APIVersion))
  else if negb (one_of [PluginIsolationInProcess; PluginIsolationProcess] isolation)
  then Err ("plugin " +:+ id +:+ " uses unsupported isolation " +:+ quoted isolation)
  else match check_components id [] m.(Manifest_Components) with
       | Err e => Err e
       | Ok _ =>
           match find_first (fun c => negb (validPluginID c)) (m.(Manifest_Requires) ++ m.(Manifest_Provides)) with
           | Some c => Err ("plugin " +:+ id +:+ " declares invalid capability " +:+ quoted c)
           | None => check_dependencies id [] m.(Manifest_Dependencies)
           end
       end.

(** *** Versions *)

(** strings.Split(value, ".") on runes *)
Fixpoint split_dots (word l : list Z) : list (list Z) :=
  match l with
  | [] => [reverse word]
  | c :: rest => if is_char "." c then reverse word :: split_dots [] rest else split_dots (c :: word) rest
  end.
(** an int, which wraps around *)
Definition version_number (digits : list Z) : Z := foldl (fun n c => wrap64 (wrap64 (n * 10) + (c - 48))) 0 digits.
(** the first three parts; none for another character than a digit in one of them *)
Definition parse_version (value : string) : option (list Z) :=
  let parts := take 3 (split_dots [] (runes (TrimPrefix (TrimSpace value) "v"))) in
  if forallb (forallb is_digit) parts
  then Some ((version_number <$> parts) ++ replicate (3 - length parts) 0) else None.
Fixpoint version_compare (actual minimum : list Z) : bool :=
  match actual, minimum with
  | x :: xs, y :: ys => if x =? y then version_compare xs ys else y <? x
  | _, _ => true
  end.
Definition versionAtLeast (actual minimum : string) : bool :=
  match parse_version actual, parse_version minimum with
  | Some xs, Some ys => version_compare xs ys
  | _, _ => bool_decide (actual = minimum)
  end.

(** ** Scopes *)

Section plugins.
Context `{Runtime} `{Regexps}.
(** commands, values of capabilities and of memory providers, prompt providers, the data
    of events, the world of tools, the world at the moment of an operation *)
Context {Cmd Value Prompt Ev W Env : Type}.

Inductive hook_result := HookOk | HookError (err : string) | HookPanic (value : string).
(** a handler may change the data of the event it is given *)
Definition PluginHook : Type := Ev -> Ev * hook_result.

Record pluginCapabilityEntry := mkEntry { entry_owner : string; entry_value : Value }.
(** the registry of capabilities and the bus of hooks: what the plugins of a host share *)
Record shared := mkShared {
  values : gmap string pluginCapabilityEntry; handlers : gmap string (gmap Z PluginHook); nextID : Z }.
#[export] Instance eta_shared : Eta shared := fun r => mkShared r.(values) r.(handlers) r.(nextID).
Implicit Type g : shared.

Definition newPluginCapabilityRegistry (core : gmap string Value) : shared := mkShared (mkEntry "core" <$> core) ∅ 0.

Definition get (name : string) g : option Value := entry_value <$> g.(values) !! name.
Definition provide (owner name : string) (value : Value) g : result unit * shared :=
  match g.(values) !! name with
  | Some existing =>
      if bool_decide (existing.(entry_owner) = owner) then (Ok tt, g <| values ::= insert name (mkEntry owner value) |>)
      else (Err ("capability " +:+ name +:+ " is already provided by " +:+ existing.(entry_owner)), g)
  | None => (Ok tt, g <| values ::= insert name (mkEntry owner value) |>)
  end.
Definition remove (owner name : string) g : shared :=
  match g.(values) !! name with
  | Some existing => if bool_decide (existing.(entry_owner) = owner) then g <| values ::= delete name |> else g
  | None => g
  end.

(** *pluginHookBus.on, and the function that it returns *)
Definition on (name : string) (handler : PluginHook) g : Z * shared :=
  let id := g.(nextID) + 1 in
  (id, g <| nextID := id |> <| handlers ::= partial_alter (fun m => Some (<[id := handler]> (default ∅ m))) name |>).
Definition dispose_hook (name : string) (id : Z) g : shared := g <| handlers ::= alter (delete id) name |>.

Definition callPluginHook (handler : PluginHook) (event : Ev) : Ev * option string :=
  match handler event with
  | (event, HookOk) => (event, None)
  | (event, HookError err) => (event, Some err)
  | (event, HookPanic value) => (event, Some ("plugin hook panicked: " +:+ value))
  end.
Fixpoint emit_all (hooks : list PluginHook) (event : Ev) : Ev * option string :=
  match hooks with
  | [] => (event, None)
  | hook :: rest =>
      match callPluginHook hook event with
      | (event, Some err) => (event, Some err)
      | (event, None) => emit_all rest event
      end
  end.
(** *pluginHookBus.emit *)
Definition emit (name : string) (event : Ev) g : Ev * option string :=
  emit_all (map_to_list (default ∅ (g.(handlers) !! name))).*2 event.

(** what Close undoes *)
Inductive effect := RemoveCapability (name : string) | DisposeHook (name : string) (id : Z) | Dispose (run : Env -> option string).

(** *** Contributions *)

Record PluginContext := mkContext {
  scope_manifest : PluginManifest; scope_commands : list (string * Cmd); scope_tools : list (string * Tool W);
  scope_memory : list (string * Value); scope_prompts : list (string * Prompt); scope_effects : list effect;
  scope_closed : bool }.
#[export] Instance eta_PluginContext : Eta PluginContext := fun r => mkContext
  r.(scope_manifest) r.(scope_commands) r.(scope_tools) r.(scope_memory) r.(scope_prompts) r.(scope_effects)
  r.(scope_closed).
Implicit Type p : PluginContext.

Definition new_scope (manifest : PluginManifest) : PluginContext := mkContext manifest [] [] [] [] [] false.
Definition hasComponent (component : string) p : bool := bool_decide (component ∈ p.(scope_manifest).(Manifest_Components)).

Definition Capability (name : string) p g : option Value :=
  if bool_decide (name ∈ p.(scope_manifest).(Manifest_Requires)) then get name g else None.

Definition Effect (dispose : option effect) p : result unit * PluginContext :=
  match dispose with
  | None => (Err "plugin disposer is required", p)
  | Some d => if p.(scope_closed) then (Err "plugin scope is closed", p) else (Ok tt, p <| scope_effects ::= fun l => l ++ [d] |>)
  end.

Definition ProvideCapability (name : string) (value : option Value) p g : result unit * PluginContext * shared :=
  let id := p.(scope_manifest).(Manifest_ID) in
  match (if bool_decide (name ∈ p.(scope_manifest).(Manifest_Provides)) then value else None) with
  | None => (Err ("plugin " +:+ id +:+ " cannot provide undeclared capability " +:+ quoted name), p, g)
  | Some value =>
      match provide id name value g with
      | (Err err, g) => (Err err, p, g)
      | (Ok _, g) => let '(r, p) := Effect (Some (RemoveCapability name)) p in (r, p, g)
      end
  end.

(** RegisterCommand, RegisterTool, RegisterMemory and RegisterPrompt: the four have the
    same text but for the component, the list, and the word in their errors *)
Definition register_in {A} (component what : string) (list_of : PluginContext -> list (string * A))
    (set : list (string * A) -> PluginContext -> PluginContext) (id : string) (item : option A) p
    : result unit * PluginContext :=
  let plugin := p.(scope_manifest).(Manifest_ID) in
  match (if hasComponent component p && validPluginID id then item else None) with
  | None => (Err ("plugin " +:+ plugin +:+ " cannot register " +:+ what +:+ " " +:+ quoted id), p)
  | Some item =>
      if bool_decide (id ∈ (list_of p).*1)
      then (Err ("plugin " +:+ plugin +:+ " already registered " +:+ what +:+ " " +:+ quoted id), p)
      else (Ok tt, set (list_of p ++ [(id, item)]) p)
  end.
Definition RegisterCommand := register_in PluginComponentCommand "command" scope_commands (fun l p => p <| scope_commands := l |>).
Definition RegisterTool := register_in PluginComponentTool "tool" scope_tools (fun l p => p <| scope_tools := l |>).
Definition RegisterMemory := register_in PluginComponentMemory "memory provider" scope_memory (fun l p => p <| scope_memory := l |>).
Definition RegisterPrompt := register_in PluginComponentPrompt "prompt provider" scope_prompts (fun l p => p <| scope_prompts := l |>).

(** the error of Effect is dropped *)
Definition On (name : string) (handler : option PluginHook) p g : result unit * PluginContext * shared :=
  match (if hasComponent PluginComponentHook p then handler else None) with
  | None => (Err ("plugin " +:+ p.(scope_manifest).(Manifest_ID) +:+ " cannot register hook " +:+ quoted name), p, g)
  | Some handler =>
      let '(id, g) := on name handler g in
      (Ok tt, (Effect (Some (DisposeHook name id)) p).2, g)
  end.

Definition join_errors (a b : option string) : option string :=
  match a, b with
  | Some a, Some b => Some (a +:+ of_bytes [10] +:+ b)
  | Some a, None => Some a
  | None, b => b
  end.
Definition undo (owner : string) (e : Env) (d : effect) g : option string * shared :=
  match d with
  | RemoveCapability name => (None, remove owner name g)
  | DisposeHook name id => (None, dispose_hook name id g)
  | Dispose run => (run e, g)
  end.
Fixpoint undo_all (owner : string) (e : Env) (l : list effect) g : option string * shared :=
  match l with
  | [] => (None, g)
  | d :: rest =>
      let '(err, g) := undo owner e d g in
      let '(errs, g) := undo_all owner e rest g in
      (join_errors err errs, g)
  end.
(** *PluginContext.Close *)
Definition CloseScope (e : Env) p g : option string * PluginContext * shared :=
  if p.(scope_closed) then (None, p, g)
  else let '(err, g) := undo_all p.(scope_manifest).(Manifest_ID) e (reverse p.(scope_effects)) g in
       (err, p <| scope_closed := true |>, g).

(** ** Modules *)

(** what Register does with its scope, and the error that it returns *)
Inductive registration :=
| Return (err : option string)
| CallCapability (name : string) (k : option Value -> registration)
| CallProvide (name : string) (value : option Value) (k : result unit -> registration)
| CallCommand (id : string) (command : option Cmd) (k : result unit -> registration)
| CallTool (id : string) (tool : option (Tool W)) (k : result unit -> registration)
| CallMemory (id : string) (provider : option Value) (k : result unit -> registration)
| CallPrompt (id : string) (provider : option Prompt) (k : result unit -> registration)
| CallOn (name : string) (handler : option PluginHook) (k : result unit -> registration)
| CallEffect (dispose : option (Env -> option string)) (k : result unit -> registration).

Fixpoint run_registration (r : registration) p g : option string * PluginContext * shared :=
  match r with
  | Return err => (err, p, g)
  | CallCapability name k => run_registration (k (Capability name p g)) p g
  | CallProvide name value k => let '(r, p, g) := ProvideCapability name value p g in run_registration (k r) p g
  | CallCommand id command k => let '(r, p) := RegisterCommand id command p in run_registration (k r) p g
  | CallTool id tool k => let '(r, p) := RegisterTool id tool p in run_registration (k r) p g
  | CallMemory id provider k => let '(r, p) := RegisterMemory id provider p in run_registration (k r) p g
  | CallPrompt id provider k => let '(r, p) := RegisterPrompt id provider p in run_registration (k r) p g
  | CallOn name handler k => let '(r, p, g) := On name handler p g in run_registration (k r) p g
  | CallEffect dispose k => let '(r, p) := Effect (Dispose <$> dispose) p in run_registration (k r) p g
  end.

Record PluginLifecycle := mkLifecycle { lifecycle_Start : Env -> option string; lifecycle_Stop : Env -> option string }.
Record PluginModule := mkModule {
  module_Manifest : PluginManifest; module_Register : registration; module_lifecycle : option PluginLifecycle }.
(** a factory may return nil *)
Definition PluginFactory : Type := Env -> option PluginModule.

(** InProcessPluginRunner.Start: an error, or the scope of the running module *)
Definition StartModule (e : Env) (module : PluginModule) p g : result PluginContext * shared :=
  match run_registration module.(module_Register) p g with
  | (Some err, p, g) => let '(_, _, g) := CloseScope e p g in (Err err, g)
  | (None, p, g) =>
      match l ← module.(module_lifecycle); lifecycle_Start l e with
      | Some err => let '(_, _, g) := CloseScope e p g in (Err err, g)
      | None => (Ok p, g)
      end
  end.
(** *inProcessPluginHandle.Stop *)
Definition StopModule (e : Env) (lifecycle : option PluginLifecycle) p g : option string * shared :=
  let stopErr := l ← lifecycle; lifecycle_Stop l e in
  let '(closeErr, _, g) := CloseScope e p g in
  (join_errors stopErr closeErr, g).
End plugins.
