(* ===== verification/FairyPluginHost.v ===== *)
(** * The host of the plugins (fairy/plugin_runtime.go, fairy/plugin_registry.go)

    Loading in the order of the dependencies, unloading, reloading, and what the rest of
    the assistant sees: commands, tools, prompts, capabilities, statuses.  The host's
    lifecycle mutex makes each operation one step.  A factory that returns nil makes the
    host call a method of nil, which panics. *)
From S2P Require Import Prelude GoLib Types FairyTypes DynamicContent FairySchema FairyTools FairyPlugins MemoryState.
From stdpp Require Import gmap strings list.
From Stdlib Require Import ZArith.

Local Open Scope Z_scope.
Local Open Scope go_scope.

Definition StateRunning := "running".
Definition StateStopping := "stopping".
Definition StateFailed := "failed".
Definition StateUnloaded := "unloaded".
Definition StateDisabled := "disabled".

(** an operation returns, or panics *)
Inductive attempt (A : Type) := Returned (a : A) | HostPanics.
Arguments Returned {A} a.
Arguments HostPanics {A}.

Section host.
Context `{Runtime} `{Regexps} {Cmd Value Prompt Ev W Env : Type}.
Notation PluginContext := (@PluginContext Cmd Value Prompt W Env).
Notation PluginFactory := (@PluginFactory Cmd Value Prompt Ev W Env).
Notation PluginModule := (@PluginModule Cmd Value Prompt Ev W Env).
Notation PluginLifecycle := (@PluginLifecycle Env).
Notation shared := (@shared Value Ev).

Record PluginRuntimeStatus := mkStatus {
  status_manifest : PluginManifest; status_Enabled : bool; status_State : string; status_Error : string }.
(** [rt_handle] is the lifecycle part of the handle; its scope is [rt_context] *)
Record pluginRuntime := mkRuntime {
  rt_manifest : PluginManifest; rt_context : option PluginContext; rt_handle : option (option PluginLifecycle);
  rt_status : PluginRuntimeStatus }.
#[export] Instance eta_pluginRuntime : Eta pluginRuntime := fun r => mkRuntime
  r.(rt_manifest) r.(rt_context) r.(rt_handle) r.(rt_status).
Implicit Type rt : pluginRuntime.
Definition rt_state rt : string := rt.(rt_status).(status_State).

Record PluginHost := mkHost {
  host_shared : shared; factories : gmap string PluginFactory; runtimes : gmap string pluginRuntime; host_order : list string }.
#[export] Instance eta_PluginHost : Eta PluginHost := fun h => mkHost
  h.(host_shared) h.(factories) h.(runtimes) h.(host_order).
Implicit Types (h : PluginHost) (e : Env).

(** [factory().Manifest()], normalised; [None] is a call on nil *)
Definition manifest_from e (factory : PluginFactory) : option PluginManifest :=
  (fun module => normalizePluginManifest module.(module_Manifest)) <$> factory e.

Definition is_running rt : bool := bool_decide (rt_state rt = StateRunning).
Definition Running (id : string) h : bool := from_option is_running false (h.(runtimes) !! id).

(** ** The order of the dependencies *)

(** [state[id]]: absent, [false] while it is visited (1), [true] afterwards (2) *)
Inductive visit_result :=
| Visited (state : gmap string bool) (order : list string) | VisitErr (err : string) | VisitPanics | OutOfFuel.

Definition visit_each (visit : string -> gmap string bool -> list string -> visit_result)
  : list string -> gmap string bool -> list string -> visit_result :=
  fix go ids state order :=
    match ids with
    | [] => Visited state order
    | id :: ids => match visit id state order with Visited state order => go ids state order | r => r end
    end.

Definition dependency_ids (m : PluginManifest) : list string := Dependency_ID <$> m.(Manifest_Dependencies).

Fixpoint visit (fuel : nat) e (factories : gmap string PluginFactory) (id : string) (state : gmap string bool)
    (order : list string) : visit_result :=
  match fuel with
  | O => OutOfFuel
  | S fuel =>
      match state !! id with
      | Some false => VisitErr ("Fairy plugin dependency cycle includes " +:+ quoted id)
      | Some true => Visited state order
      | None =>
          match factories !! id with
          | None => VisitErr ("Fairy plugin dependency " +:+ quoted id +:+ " is not registered")
          | Some factory =>
              match manifest_from e factory with
              | None => VisitPanics
              | Some m =>
                  match visit_each (visit fuel e factories) (dependency_ids m) (<[id := false]> state) order with
                  | Visited state order => Visited (<[id := true]> state) (order ++ [id])
                  | r => r
                  end
              end
          end
      end
  end.

(** a visit marks one more plugin, so the plugins and one step more are enough *)
Definition dependencyOrder e h : visit_result :=
  let ids := sort_slice string_less (map_to_list h.(factories)).*1 in
  visit_each (visit (S (size h.(factories))) e h.(factories)) ids ∅ [].

(** ** Loading *)

Definition recordFailure e (id err : string) h : attempt (option string * PluginHost) :=
  let record m := Returned (Some ("load Fairy plugin " +:+ id +:+ ": " +:+ err),
    h <| runtimes ::= insert id (mkRuntime m None None (mkStatus m true StateFailed "startup_failed")) |>) in
  match h.(factories) !! id with
  | None => record (manifest_of_id id)
  | Some factory => match manifest_from e factory with Some m => record m | None => HostPanics end
  end.

(** the plugin, other than [id], that runs and has registered [registrationID] *)
Definition registered_by (ids_of : PluginContext -> list string) (id registrationID : string) h : option string :=
  fst <$> find_first (fun '(otherID, rt) =>
    negb (bool_decide (otherID = id)) && is_running rt
    && from_option (fun p => bool_decide (registrationID ∈ ids_of p)) false rt.(rt_context)) (map_to_list h.(runtimes)).

Fixpoint check_each {A} (check : A -> result unit) (l : list A) : result unit :=
  match l with [] => Ok tt | x :: l => match check x with Ok _ => check_each check l | err => err end end.

Definition check_conflict (kind : string) (ids_of : PluginContext -> list string) (id registrationID : string) h : result unit :=
  match registered_by ids_of id registrationID h with
  | Some otherID => Err ("plugin " +:+ id +:+ " " +:+ kind +:+ " " +:+ quoted registrationID +:+ " conflicts with plugin " +:+ otherID)
  | None => Ok tt
  end.
Definition command_ids (p : PluginContext) : list string := p.(scope_commands).*1.
Definition tool_ids (p : PluginContext) : list string := p.(scope_tools).*1.
Definition memory_ids (p : PluginContext) : list string := p.(scope_memory).*1.
Definition prompt_ids (p : PluginContext) : list string := p.(scope_prompts).*1.

Definition check_tool (id : string) h (item : string * Tool W) : result unit :=
  match prepareRegisteredTool (Some item.2) true with
  | Err err => Err ("plugin " +:+ id +:+ " tool " +:+ quoted item.1 +:+ " is invalid: " +:+ err)
  | Ok prepared =>
      if negb (bool_decide (prepared.(reg_spec).(Spec_Name) = item.1))
      then Err ("plugin " +:+ id +:+ " tool registration " +:+ quoted item.1 +:+ " does not match spec name "
                +:+ quoted prepared.(reg_spec).(Spec_Name))
      else check_conflict "tool" tool_ids id item.1 h
  end.

Definition validateRegistrationSnapshot (id : string) (candidate : PluginContext) h : result unit :=
  match check_each (fun item => check_conflict "command" command_ids id item.1 h) candidate.(scope_commands) with
  | Err err => Err err
  | Ok _ =>
      match check_each (check_tool id h) candidate.(scope_tools) with
      | Err err => Err err
      | Ok _ =>
          match check_each (fun item => check_conflict "memory" memory_ids id item.1 h) candidate.(scope_memory) with
          | Err err => Err err
          | Ok _ => check_each (fun item => check_conflict "prompt" prompt_ids id item.1 h) candidate.(scope_prompts)
          end
      end
  end.

Definition check_dependency h (d : PluginDependency) : result unit :=
  match h.(runtimes) !! d.(Dependency_ID) with
  | None => Err ("dependency " +:+ d.(Dependency_ID) +:+ " is not running")
  | Some rt =>
      if negb (is_running rt) then Err ("dependency " +:+ d.(Dependency_ID) +:+ " is not running")
      else if negb (bool_decide (d.(Dependency_MinVersion) = ""))
              && negb (versionAtLeast rt.(rt_manifest).(Manifest_Version) d.(Dependency_MinVersion))
      then Err ("dependency " +:+ d.(Dependency_ID) +:+ " version " +:+ rt.(rt_manifest).(Manifest_Version)
                +:+ " does not satisfy " +:+ d.(Dependency_MinVersion))
      else Ok tt
  end.

(** the checks of loadLocked before the module starts: its manifest, or an error *)
Definition check_module (id : string) (module : PluginModule) h : result PluginManifest :=
  let m := normalizePluginManifest module.(module_Manifest) in
  match ValidateManifest m with
  | Err err => Err err
  | Ok _ =>
      if negb (bool_decide (m.(Manifest_ID) = id)) then Err ("plugin factory changed id to " +:+ m.(Manifest_ID))
      else match check_each (check_dependency h) m.(Manifest_Dependencies) with
           | Err err => Err err
           | Ok _ =>
               if bool_decide (m.(Manifest_Isolation) = PluginIsolationInProcess) then Ok m
               else Err ("no runner registered for isolation " +:+ m.(Manifest_Isolation))
           end
  end.

Definition loadLocked e (id : string) h : attempt (option string * PluginHost) :=
  match h.(factories) !! id with
  | None => Returned (Some ("Fairy plugin " +:+ id +:+ " is not registered"), h)
  | Some factory =>
      match factory e with
      | None => recordFailure e id "plugin factory returned nil module" h
      | Some module =>
          match check_module id module h with
          | Err err => recordFailure e id err h
          | Ok m =>
              match StartModule e module (new_scope m) h.(host_shared) with
              | (Err err, g) => recordFailure e id err (h <| host_shared := g |>)
              | (Ok p, g) =>
                  let h := h <| host_shared := g |> in
                  match validateRegistrationSnapshot id p h with
                  | Err err =>
                      let '(_, g) := StopModule e module.(module_lifecycle) p g in
                      recordFailure e id err (h <| host_shared := g |>)
                  | Ok _ =>
                      Returned (None, h <| runtimes ::= insert id
                        (mkRuntime m (Some p) (Some module.(module_lifecycle)) (mkStatus m true StateRunning "")) |>)
                  end
              end
          end
      end
  end.

(** ** Unloading *)

Definition set_state (id state error : string) h : PluginHost :=
  h <| runtimes ::= alter (fun rt =>
    mkRuntime rt.(rt_manifest) None None (mkStatus rt.(rt_status).(status_manifest) rt.(rt_status).(status_Enabled) state error)) id |>.

(** a running plugin, other than [id], that depends on [id] *)
Definition required_by (id : string) h : option string :=
  fst <$> find_first (fun '(otherID, other) =>
    negb (bool_decide (otherID = id)) && is_running other && bool_decide (id ∈ dependency_ids other.(rt_manifest)))
    (map_to_list h.(runtimes)).

(** while the module stops its state is "stopping", which nothing but the statuses shows *)
Definition unloadLocked e (id : string) h : option string * PluginHost :=
  match h.(runtimes) !! id with
  | Some (mkRuntime _ (Some p) (Some lifecycle) status) =>
      if negb (bool_decide (status.(status_State) = StateRunning))
      then (Some ("Fairy plugin " +:+ id +:+ " is not running"), h)
      else match required_by id h with
           | Some otherID => (Some ("Fairy plugin " +:+ id +:+ " is required by " +:+ otherID), h)
           | None =>
               match StopModule e lifecycle p h.(host_shared) with
               | (Some err, g) => (Some err, set_state id StateFailed "shutdown_failed" (h <| host_shared := g |>))
               | (None, g) => (None, set_state id StateUnloaded "" (h <| host_shared := g |>))
               end
           end
  | _ => (Some ("Fairy plugin " +:+ id +:+ " is not running"), h)
  end.

Definition Reload e (id : string) h : attempt (option string * PluginHost) :=
  match h.(runtimes) !! id with
  | None => Returned (Some ("Fairy plugin " +:+ id +:+ " is not registered"), h)
  | Some rt =>
      if negb rt.(rt_manifest).(Manifest_Reloadable)
      then Returned (Some ("Fairy plugin " +:+ id +:+ " does not support reload"), h)
      else match unloadLocked e id h with
           | (Some err, h) => Returned (Some err, h)
           | (None, h) => loadLocked e id h
           end
  end.

Fixpoint close_all e (ids : list string) h : option string * PluginHost :=
  match ids with
  | [] => (None, h)
  | id :: ids =>
      if Running id h then
        let '(err, h) := unloadLocked e id h in
        let '(errs, h) := close_all e ids h in
        (join_errors err errs, h)
      else close_all e ids h
  end.
(** *PluginHost.Close *)
Definition CloseHost e h : option string * PluginHost := close_all e (reverse h.(host_order)) h.

(** ** Starting *)

Fixpoint start_each e (enabled : gmap string bool) (ids : list string) h : attempt (option string * PluginHost) :=
  match ids with
  | [] => Returned (None, h)
  | id :: ids =>
      match f ← h.(factories) !! id; manifest_from e f with
      | None => HostPanics
      | Some m =>
          if negb (default m.(Manifest_DefaultEnabled) (enabled !! id))
          then start_each e enabled ids
                 (h <| runtimes ::= insert id (mkRuntime m None None (mkStatus m false StateDisabled "")) |>)
          else match loadLocked e id h with
               | HostPanics => HostPanics
               | Returned (err, h) =>
                   match start_each e enabled ids h with
                   | HostPanics => HostPanics
                   | Returned (errs, h) => Returned (join_errors err errs, h)
                   end
               end
      end
  end.
Definition startAll e (enabled : gmap string bool) h : attempt (option string * PluginHost) :=
  match dependencyOrder e h with
  | VisitErr err => Returned (Some err, h)
  | VisitPanics | OutOfFuel => HostPanics
  | Visited _ order => start_each e enabled order (h <| host_order := order |>)
  end.

Fixpoint add_factories e (l : list (option PluginFactory)) (m : gmap string PluginFactory)
    : result (gmap string PluginFactory) :=
  match l with
  | [] => Ok m
  | None :: _ => Err "nil Fairy plugin factory"
  | Some factory :: l =>
      match manifest_from e factory with
      | None => Err "Fairy plugin factory returned nil module"
      | Some manifest =>
          match ValidateManifest manifest with
          | Err err => Err err
          | Ok _ =>
              let id := manifest.(Manifest_ID) in
              match m !! id with
              | Some _ => Err ("duplicate Fairy plugin " +:+ quoted id)
              | None => add_factories e l (<[id := factory]> m)
              end
          end
      end
  end.
(** no host when a factory is refused; else the host, with the error of startAll *)
Definition NewPluginHost e (enabled : gmap string bool) (core : gmap string Value) (l : list (option PluginFactory))
    : attempt (option string * option PluginHost) :=
  match add_factories e l ∅ with
  | Err err => Returned (Some err, None)
  | Ok m =>
      match startAll e enabled (mkHost (newPluginCapabilityRegistry core) m ∅ []) with
      | HostPanics => HostPanics
      | Returned (err, h) => Returned (err, Some h)
      end
  end.

(** ** What the assistant sees *)

Definition running_scopes h : list PluginContext :=
  omap (fun id => rt ← h.(runtimes) !! id; if is_running rt then rt.(rt_context) else None) h.(host_order).
Definition Commands h : list Cmd := running_scopes h ≫= fun p => p.(scope_commands).*2.
Definition Tools h : list (Tool W) := running_scopes h ≫= fun p => p.(scope_tools).*2.
Definition PromptSections {S} (sections : Prompt -> list S) h : list S :=
  (running_scopes h ≫= fun p => p.(scope_prompts).*2) ≫= sections.
Definition HostCapability (name : string) h : option Value := get name h.(host_shared).
Definition Emit (name : string) (event : Ev) h : Ev * option string := emit name event h.(host_shared).
Definition Statuses h : list PluginRuntimeStatus := omap (fun id => rt_status <$> h.(runtimes) !! id) h.(host_order).

(** the provider that the engine gives to the registry of tools *)
Definition tool_provider h : list (option (Tool W)) := Some <$> Tools h.
End host.
