(* ===== verification/FairyPluginFacts.v ===== *)
(** * What a plugin adds to its host, what is left when it stops, and the order of loading
    (fairy/plugin_runtime.go) *)
From S2P Require Import Prelude GoLib FairyTypes FairySchema FairyTools FairyPlugins FairyPluginHost MemoryState.
From stdpp Require Import gmap strings list relations.
From Stdlib Require Import ZArith Lia.

Local Open Scope Z_scope.
Local Open Scope go_scope.

Section scopes.
Context `{Runtime} `{Regexps} {Cmd Value Prompt Ev W Env : Type}.
Notation PluginContext := (@PluginContext Cmd Value Prompt W Env).
Notation shared := (@shared Value Ev).
Notation effect := (@effect Env).
Implicit Types (p : PluginContext) (g : shared) (id name : string).

(** a handler of the bus *)
Definition hooked g name (i : Z) : Prop := exists m hk, g.(handlers) !! name = Some m /\ m !! i = Some hk.
Definition holds g name owner : Prop := exists v, g.(values) !! name = Some (mkEntry owner v).

(** what the scope of the plugin with the manifest [m] may do to the shared registries while it is open *)
Record grown (m : PluginManifest) g0 p g : Prop := {
  g_manifest : p.(scope_manifest) = m;
  g_open : p.(scope_closed) = false;
  g_values : forall name en, g.(values) !! name = Some en ->
    g0.(values) !! name = Some en \/ (en.(entry_owner) = m.(Manifest_ID) /\ RemoveCapability name ∈ p.(scope_effects));
  g_kept : forall name en, g0.(values) !! name = Some en -> en.(entry_owner) <> m.(Manifest_ID) -> g.(values) !! name = Some en;
  g_hooks : forall name i, hooked g name i -> hooked g0 name i \/ (g0.(nextID) < i /\ DisposeHook name i ∈ p.(scope_effects));
  g_next : g0.(nextID) <= g.(nextID);
  g_dispose : forall name i, DisposeHook name i ∈ p.(scope_effects) -> g0.(nextID) < i <= g.(nextID);
  g_bound : (forall name i, hooked g0 name i -> i <= g0.(nextID)) -> forall name i, hooked g name i -> i <= g.(nextID) }.

Lemma grown_new m g : grown m g (new_scope m) g.
Proof.
  constructor; try done; [by left|by left|cbn; by intros ? ? ?%elem_of_nil].
Qed.

(** an operation that only changes the lists of contributions, or adds a disposer of the module *)
Definition same_registrations p p' : Prop :=
  p'.(scope_manifest) = p.(scope_manifest) /\ p'.(scope_closed) = p.(scope_closed)
  /\ (forall name, RemoveCapability name ∈ p'.(scope_effects) <-> RemoveCapability name ∈ p.(scope_effects))
  /\ (forall name i, DisposeHook name i ∈ p'.(scope_effects) <-> DisposeHook name i ∈ p.(scope_effects)).
Lemma grown_same m g0 p p' g : same_registrations p p' -> grown m g0 p g -> grown m g0 p' g.
Proof.
  intros (Em & Ec & Er & Ed) [G1 G2 G3 G4 G5 G6 G7 G8]. constructor; try done; [congruence|congruence| | |].
  - intros name en Hn. destruct (G3 name en Hn) as [|[? ?]]; [by left|right]. by rewrite Er.
  - intros name i Hh. destruct (G5 name i Hh) as [|[? ?]]; [by left|right]. by rewrite Ed.
  - intros name i. rewrite Ed. apply G7.
Qed.

Lemma register_in_same {A} component what (list_of : PluginContext -> list (string * A)) (set : list (string * A) -> PluginContext -> PluginContext) id (item : option A) p :
  (forall l p, same_registrations p (set l p)) ->
  same_registrations p (register_in component what list_of set id item p).2.
Proof.
  intros Hset. unfold register_in. destruct (if (_ : bool) then item else None); [|done]. case_bool_decide; [done|]. apply Hset.
Qed.

Lemma Effect_open d p : p.(scope_closed) = false ->
  Effect (Some d) p = (Ok tt, (p) <| scope_effects ::= fun l => l ++ [d] |>).
Proof. intros Hc. unfold Effect. by rewrite Hc. Qed.

Lemma provide_Ok id name value g g' : provide id name value g = (Ok tt, g') ->
  g' = (g) <| values ::= insert name (mkEntry id value) |>
  /\ (forall en, g.(values) !! name = Some en -> en.(entry_owner) = id).
Proof.
  unfold provide. destruct (values g !! name) as [en|] eqn:E; [|by intros [= <-]].
  case_bool_decide as Ho; [|done]. intros [= <-]. split; [done|]. by intros en' [= <-].
Qed.

Lemma grown_provide m g0 p g name value r p' g' :
  grown m g0 p g -> ProvideCapability name value p g = (r, p', g') -> grown m g0 p' g'.
Proof.
  intros G. unfold ProvideCapability. cbv zeta. rewrite (g_manifest _ _ _ _ G).
  destruct (if bool_decide _ then value else None) as [v|]; [|by intros [= <- <- <-]].
  destruct (provide m.(Manifest_ID) name v g) as [[[]|err] g1] eqn:Ep.
  2: { intros [= <- <- <-]. unfold provide in Ep. destruct (values g !! name); [|done]. case_bool_decide; [done|]. by injection Ep as _ <-. }
  apply provide_Ok in Ep as [-> Ho]. rewrite (Effect_open _ _ (g_open _ _ _ _ G)). intros [= <- <- <-].
  destruct G as [G1 G2 G3 G4 G5 G6 G7 G8]. constructor; cbn; try done.
  - intros nm en. rewrite lookup_insert_Some. intros [[<- <-]|[Hn Hl]].
    + right. split; [done|]. set_solver.
    + destruct (G3 nm en Hl) as [|[? ?]]; [by left|right]. set_solver.
  - intros nm en Hl Hno. destruct (decide (nm = name)) as [->|Hn]; [|rewrite lookup_insert_ne by done; by apply G4].
    exfalso. apply Hno, (Ho en). by apply G4.
  - intros nm i Hh. destruct (G5 nm i Hh) as [|[? ?]]; [by left|right]. set_solver.
  - intros nm i [Hd|Hd%list_elem_of_singleton]%elem_of_app; [by eapply G7|done].
Qed.

Lemma hooked_on name hook g name' i' :
  hooked (on name hook g).2 name' i' <-> hooked g name' i' \/ (name' = name /\ i' = g.(nextID) + 1).
Proof.
  unfold hooked, on. cbn. destruct (decide (name' = name)) as [->|Hn].
  - rewrite lookup_partial_alter_eq. split.
    + intros (m & hk & [= <-] & Hm). apply lookup_insert_Some in Hm as [[<- _]|[_ Hm]]; [by right|].
      left. destruct (handlers g !! name) as [m|]; [by exists m, hk|]. cbn in Hm. by rewrite lookup_empty in Hm.
    + intros [(m & hk & E & Hm)|[_ ->]].
      * rewrite E. cbn. destruct (decide (i' = nextID g + 1)) as [->|Hi].
        -- do 2 eexists. split; [reflexivity|]. apply lookup_insert_eq.
        -- exists (<[nextID g + 1 := hook]> m), hk. split; [done|]. by rewrite lookup_insert_ne.
      * do 2 eexists. split; [reflexivity|]. apply lookup_insert_eq.
  - rewrite lookup_partial_alter_ne by done. split; [by left|]. by intros [?|[? _]].
Qed.

Lemma grown_on m g0 p g name hook r p' g' :
  grown m g0 p g -> On name hook p g = (r, p', g') -> grown m g0 p' g'.
Proof.
  intros G. unfold On. destruct (if hasComponent _ p then hook else None) as [hk|]; [|by intros [= <- <- <-]].
  pose proof (hooked_on name hk g) as Hon. destruct (on name hk g) as [i g1] eqn:Eon. injection Eon as <- <-.
  rewrite (Effect_open _ _ (g_open _ _ _ _ G)). intros [= <- <- <-]. cbn [snd] in Hon.
  destruct G as [G1 G2 G3 G4 G5 G6 G7 G8]. constructor; try done; cbn [scope_effects].
  - intros nm en Hl. destruct (G3 nm en Hl) as [|[? ?]]; [by left|right]. cbn. set_solver.
  - intros nm i [Hh|[-> ->]]%Hon.
    + destruct (G5 nm i Hh) as [|[? ?]]; [by left|right]. cbn. set_solver.
    + right. cbn. split; [lia|set_solver].
  - cbn. lia.
  - cbn. intros nm i [Hd%G7|Hd%list_elem_of_singleton]%elem_of_app; [lia|]. injection Hd as -> ->. lia.
  - intros Hb nm i [Hh|[-> ->]]%Hon; cbn; [|lia]. specialize (G8 Hb nm i Hh). lia.
Qed.

(** the lists of contributions name each item once *)
Definition distinct p : Prop :=
  NoDup p.(scope_commands).*1 /\ NoDup p.(scope_tools).*1 /\ NoDup p.(scope_memory).*1 /\ NoDup p.(scope_prompts).*1.
Lemma register_in_distinct {A} component what (list_of : PluginContext -> list (string * A)) (set : list (string * A) -> PluginContext -> PluginContext) id (item : option A) p :
  (forall l, NoDup l.*1 -> distinct p -> distinct (set l p)) -> (distinct p -> NoDup (list_of p).*1) ->
  distinct p -> distinct (register_in component what list_of set id item p).2.
Proof.
  intros Hset Hlist Hd. unfold register_in. destruct (if (_ : bool) then item else None); [|done]. case_bool_decide as Hin; [done|].
  apply Hset; [|done]. rewrite fmap_app. apply NoDup_app. split; [by apply Hlist|]. split; [|apply NoDup_singleton].
  by intros x Hx ->%list_elem_of_singleton.
Qed.

Lemma contributed {A} component what list_of set i (item : option A) m g0 p g r1 p1 :
  (forall l p, same_registrations p (set l p)) -> (forall l p, NoDup l.*1 -> distinct p -> distinct (set l p)) ->
  (forall p, distinct p -> NoDup (list_of p).*1) ->
  register_in component what list_of set i item p = (r1, p1) ->
  grown m g0 p g -> distinct p -> grown m g0 p1 g /\ distinct p1.
Proof.
  intros Hsame Hset Hlist E G D. replace p1 with (register_in component what list_of set i item p).2 by (by rewrite E).
  split; [eapply grown_same; [|done]; by apply register_in_same|]. apply register_in_distinct; auto.
Qed.

(** the five operations that contribute to a list *)
Ltac contribution E G D := eapply contributed; [| | |exact E|exact G|exact D];
  [by intros|intros ? ? ? (? & ? & ? & ?); by split_and!|by intros ? (? & ? & ? & ?)].
Lemma run_registration_grown m g0 (r : @registration Cmd Value Prompt Ev W Env) p g err p' g' :
  grown m g0 p g -> distinct p -> run_registration r p g = (err, p', g') -> grown m g0 p' g' /\ distinct p'.
Proof.
  revert p g. induction r as [e|nm k IH|nm v k IH|i c k IH|i c k IH|i c k IH|i c k IH|nm hk k IH|d k IH]; intros p g G D; cbn [run_registration].
  - by intros [= <- <- <-].
  - intros Hr. by eapply IH.
  - destruct (ProvideCapability nm v p g) as [[r1 p1] g1] eqn:E. intros Hr.
    assert (D1 : distinct p1).
    { revert E. unfold ProvideCapability, Effect. destruct (if bool_decide _ then v else None); [|by intros [= _ <- _]].
      destruct (provide _ _ _ _) as [[]]; [|by intros [= _ <- _]]. destruct (scope_closed p); by intros [= _ <- _]. }
    eapply IH; [by eapply grown_provide|done|done].
  - destruct (RegisterCommand i c p) as [r1 p1] eqn:E. intros Hr.
    assert (grown m g0 p1 g /\ distinct p1) as [G1 D1] by contribution E G D. by eapply IH.
  - destruct (RegisterTool i c p) as [r1 p1] eqn:E. intros Hr.
    assert (grown m g0 p1 g /\ distinct p1) as [G1 D1] by contribution E G D. by eapply IH.
  - destruct (RegisterMemory i c p) as [r1 p1] eqn:E. intros Hr.
    assert (grown m g0 p1 g /\ distinct p1) as [G1 D1] by contribution E G D. by eapply IH.
  - destruct (RegisterPrompt i c p) as [r1 p1] eqn:E. intros Hr.
    assert (grown m g0 p1 g /\ distinct p1) as [G1 D1] by contribution E G D. by eapply IH.
  - destruct (On nm hk p g) as [[r1 p1] g1] eqn:E. intros Hr.
    assert (D1 : distinct p1).
    { revert E. unfold On, Effect. destruct (if hasComponent _ _ then hk else None); [|by intros [= _ <- _]].
      destruct (on _ _ _). destruct (scope_closed p); by intros [= _ <- _]. }
    eapply IH; [by eapply grown_on|done|done].
  - destruct (Effect (Dispose <$> d) p) as [r1 p1] eqn:E. intros Hr.
    destruct d as [d|]; cbn in E; [|injection E as <- <-; by eapply IH].
    rewrite (g_open _ _ _ _ G) in E. injection E as <- <-. eapply IH; [| |exact Hr]; [|exact D]. eapply grown_same; [|done].
    split_and!; [done|done|..]; intros; cbn; rewrite elem_of_app, list_elem_of_singleton; (split; [by intros [?|?]|intros ?; by left]).
Qed.

(** ** Undoing *)

Lemma remove_lookup owner name g name' en :
  (FairyPlugins.remove owner name g).(values) !! name' = Some en
  <-> g.(values) !! name' = Some en /\ ~ (name' = name /\ en.(entry_owner) = owner).
Proof.
  unfold FairyPlugins.remove. destruct (values g !! name) as [x|] eqn:E.
  - case_bool_decide as Ho; cbn.
    + rewrite lookup_delete_Some. split.
      * intros [Hn Hl]. split; [done|]. by intros [-> _].
      * intros [Hl Hn]. split; [|done]. intros <-. apply Hn. split; [done|]. congruence.
    + split; [|by intros [? _]]. intros Hl. split; [done|]. intros [-> He]. congruence.
  - split; [|by intros [? _]]. intros Hl. split; [done|]. intros [-> _]. congruence.
Qed.
Lemma remove_bus owner name g : (FairyPlugins.remove owner name g).(handlers) = g.(handlers) /\ (FairyPlugins.remove owner name g).(nextID) = g.(nextID).
Proof. unfold FairyPlugins.remove. destruct (values g !! name); [|done]. by case_bool_decide. Qed.

Lemma hooked_dispose name i g name' i' :
  hooked (dispose_hook name i g) name' i' <-> hooked g name' i' /\ ~ (name' = name /\ i' = i).
Proof.
  unfold hooked, dispose_hook. cbn. destruct (decide (name' = name)) as [->|Hn].
  - rewrite lookup_alter_eq. split.
    + intros (m & hk & E & Hm). destruct (handlers g !! name) as [m0|] eqn:E0; [|done]. injection E as <-.
      apply lookup_delete_Some in Hm as [Hi Hm]. split; [by exists m0, hk|]. by intros [_ ->].
    + intros [(m & hk & -> & Hm) Hi]. exists (delete i m), hk. split; [done|]. rewrite lookup_delete_ne; [done|].
      intros <-. by apply Hi.
  - rewrite lookup_alter_ne by done. split; [intros Hh; split; [done|by intros [? _]]|by intros [? _]].
Qed.

Lemma undo_all_effect owner e (l : list effect) g err g' :
  undo_all owner e l g = (err, g') ->
  (forall name en, g'.(values) !! name = Some en
     <-> g.(values) !! name = Some en /\ ~ (en.(entry_owner) = owner /\ RemoveCapability name ∈ l))
  /\ (forall name i, hooked g' name i <-> hooked g name i /\ DisposeHook name i ∉ l)
  /\ g'.(nextID) = g.(nextID).
Proof.
  revert g err g'. induction l as [|d l IH]; intros g err g'; cbn.
  { intros [= _ <-]. split_and!; [|intros; split; [intros Hh; split; [done|by intros ?%elem_of_nil]|by intros [? _]]|done].
    intros name en. split; [intros Hl; split; [done|by intros [_ ?%elem_of_nil]]|by intros [? _]]. }
  destruct (undo owner e d g) as [err1 g1] eqn:E1. destruct (undo_all owner e l g1) as [errs g2] eqn:E2.
  intros [= _ <-]. apply IH in E2 as (Hv & Hh & Hn).
  destruct d as [nm|nm i0|run]; cbn in E1; injection E1 as <- <-.
  - destruct (remove_bus owner nm g) as [Hb1 Hb2]. split_and!; [| |congruence].
    + intros name en. rewrite Hv, remove_lookup, elem_of_cons. split.
      * intros [[Hl Hx] Hy]. split; [done|]. intros [Ho [[= ->]|Hin]]; [by apply Hx|by apply Hy].
      * intros [Hl Hx]. split; [split; [done|]|].
        -- intros [-> Ho]. apply Hx. split; [done|]. by left.
        -- intros [Ho Hin]. apply Hx. split; [done|]. by right.
    + intros name i. rewrite Hh. unfold hooked. rewrite Hb1, not_elem_of_cons. split; [intros [? ?]; by split|by intros (? & ? & ?)].
  - split_and!; [| |done].
    + intros name en. rewrite Hv, elem_of_cons. cbn. split; (intros [Hl Hx]; split; [done|]; intros [Ho Hin]; apply Hx).
      * destruct Hin as [|Hin]; [done|by split].
      * split; [done|by right].
    + intros name i. rewrite Hh, hooked_dispose, not_elem_of_cons. split.
      * intros [[Hg Hx] Hy]. split_and!; [done| |done]. intros [= -> ->]. by apply Hx.
      * intros (Hg & Hx & Hy). split; [split; [done|]|done]. by intros [-> ->].
  - split_and!; [| |done].
    + intros name en. rewrite Hv, elem_of_cons. split; (intros [Hl Hx]; split; [done|]; intros [Ho Hin]; apply Hx).
      * destruct Hin as [|Hin]; [done|by split].
      * split; [done|by right].
    + intros name i. rewrite Hh, not_elem_of_cons. split; [intros [? ?]; by split_and!|by intros (? & _ & ?)].
Qed.
End scopes.

(** ** The order in which plugins are loaded

    The depth-first search of the host, against the graph of the dependencies: it ends, it
    returns a topological order of all plugins, and it fails only for a reason. *)

Section order.
Context `{Runtime} `{Regexps} {Cmd Value Prompt Ev W Env : Type}.
Notation PluginFactory := (@PluginFactory Cmd Value Prompt Ev W Env).
Notation PluginHost := (@PluginHost Cmd Value Prompt Ev W Env).
Variables (e : Env) (fs : gmap string PluginFactory).
Implicit Types (state : gmap string bool) (order : list string).

(** the plugin [id] names [d] among its dependencies *)
Definition depends (id d : string) : Prop :=
  exists f m, fs !! id = Some f /\ manifest_from e f = Some m /\ d ∈ dependency_ids m.
(** every plugin comes after those it depends on *)
Definition topological order : Prop :=
  forall i id d, order !! i = Some id -> depends id d -> exists j, (j < i)%nat /\ order !! j = Some d.

(** what the search has found when [order] is done and the grey plugins are under way *)
Record searched state order : Prop := {
  s_nodup : NoDup order;
  s_black : forall id, state !! id = Some true <-> id ∈ order;
  s_known : dom state ⊆ dom fs;
  s_topological : topological order }.

Definition refused_for_a_reason : Prop :=
  (exists id d, depends id d /\ fs !! d = None) \/ exists id, tc depends id id.
Definition nil_module : Prop := exists id f, fs !! id = Some f /\ f e = None.

(** [todo] are black at the end, and nothing else changed but more black plugins *)
Definition found (todo : list string) state order (r : visit_result) : Prop :=
  match r with
  | Visited state' order' =>
      searched state' order' /\ order ⊆ order' /\ todo ⊆ order' /\ dom state ⊆ dom state'
      /\ (forall x, state' !! x = Some false <-> state !! x = Some false)
  | VisitErr _ => refused_for_a_reason
  | VisitPanics => nil_module
  | OutOfFuel => False
  end.

Lemma visit_each_found (visit : string -> gmap string bool -> list string -> visit_result) (n : nat) todo state order :
  (forall id state order, id ∈ todo -> searched state order -> (n <= size (dom state))%nat ->
     (forall x, state !! x = Some false -> tc depends x id) -> found [id] state order (visit id state order)) ->
  searched state order -> (n <= size (dom state))%nat ->
  (forall id x, id ∈ todo -> state !! x = Some false -> tc depends x id) ->
  found todo state order (visit_each visit todo state order).
Proof.
  revert state order. induction todo as [|id todo IH]; intros state order Hvisit Hs Hn Hgrey; cbn.
  { split_and!; [done|done|set_solver|done|done]. }
  fold (visit_each visit). pose proof (Hvisit id state order ltac:(left) Hs Hn (fun x => Hgrey id x ltac:(left))) as Hv.
  destruct (visit id state order) as [state1 order1| | |]; cbn in Hv; [|done..].
  destruct Hv as (Hs1 & Hin1 & Htodo1 & Hdom1 & Hgrey1).
  assert (Hn1 : (n <= size (dom state1))%nat) by (etrans; [exact Hn|by apply subseteq_size]).
  specialize (IH state1 order1). destruct (visit_each visit todo state1 order1) as [state2 order2| | |]; cbn in *.
  - destruct IH as (Hs2 & Hin2 & Htodo2 & Hdom2 & Hgrey2); try done.
    { intros. apply Hvisit; [by right|done..]. }
    { intros id' x Hid' Hx%Hgrey1. apply Hgrey; [by right|done]. }
    split_and!; [done|set_solver|set_solver|set_solver|]. intros x. by rewrite Hgrey2.
  - apply IH; [|done..|]. { intros. apply Hvisit; [by right|done..]. }
    intros id' x Hid' Hx%Hgrey1. apply Hgrey; [by right|done].
  - apply IH; [|done..|]. { intros. apply Hvisit; [by right|done..]. }
    intros id' x Hid' Hx%Hgrey1. apply Hgrey; [by right|done].
  - apply IH; [|done..|]. { intros. apply Hvisit; [by right|done..]. }
    intros id' x Hid' Hx%Hgrey1. apply Hgrey; [by right|done].
Qed.

Lemma topological_snoc order id :
  topological order -> (forall d, depends id d -> d ∈ order) -> topological (order ++ [id]).
Proof.
  intros Ht Hd i x d. rewrite lookup_app_Some, list_lookup_singleton_Some. intros [Hi|(Hi & ? & <-)] Hdep.
  - destruct (Ht i x d Hi Hdep) as (j & Hj & Ej). exists j. split; [done|]. by apply lookup_app_l_Some.
  - apply Hd in Hdep as [j Hj]%list_elem_of_lookup. exists j. pose proof (lookup_lt_Some _ _ _ Hj).
    split; [lia|]. by apply lookup_app_l_Some.
Qed.

Lemma visit_found (fuel : nat) id state order :
  searched state order -> (size fs < fuel + size (dom state))%nat ->
  (exists p, depends p id) \/ is_Some (fs !! id) ->
  (forall x, state !! x = Some false -> tc depends x id) ->
  found [id] state order (visit fuel e fs id state order).
Proof.
  revert id state order. induction fuel as [|fuel IH]; intros id state order Hs Hfuel Hid Hgrey; cbn [visit].
  { pose proof (subseteq_size _ _ (s_known _ _ Hs)) as Hle. rewrite (size_dom fs) in Hle. cbn in Hfuel. lia. }
  destruct (state !! id) as [[]|] eqn:Est.
  - split_and!; [done|done| |done|done]. apply (s_black _ _ Hs) in Est. set_solver.
  - right. exists id. by apply Hgrey.
  - destruct (fs !! id) as [f|] eqn:Ef.
    2: { left. destruct Hid as [[p Hp]|[? ?]]; [|done]. by exists p, id. }
    destruct (manifest_from e f) as [m|] eqn:Em.
    2: { exists id, f. split; [done|]. unfold manifest_from in Em. by apply fmap_None in Em. }
    assert (Hs1 : searched (<[id:=false]> state) order).
    { destruct Hs as [S1 S2 S3 S4]. constructor; [done| |rewrite dom_insert; apply union_subseteq; split;
        [apply singleton_subseteq_l, elem_of_dom; by eexists|done]|done].
      intros x. destruct (decide (x = id)) as [->|Hx]; [|by rewrite lookup_insert_ne].
      rewrite lookup_insert_eq. split; [done|]. intros Hin%S2. congruence. }
    assert (Hsz : size (dom (<[id:=false]> state)) = S (size (dom state))).
    { rewrite !size_dom, map_size_insert_None; done. }
    assert (Hdep : forall d, d ∈ dependency_ids m -> depends id d) by (intros d Hd; by exists f, m).
    assert (Hall : found (dependency_ids m) (<[id:=false]> state) order
              (visit_each (visit fuel e fs) (dependency_ids m) (<[id:=false]> state) order)).
    { apply (visit_each_found _ (S (size (dom state)))); [|done|lia|].
      - intros d st ord Hd Hsd Hn Hg. apply IH; [done|lia|left; exists id; by apply Hdep|done].
      - intros d x Hd. destruct (decide (x = id)) as [->|Hx]; [intros _; by apply tc_once, Hdep|].
        rewrite lookup_insert_ne by done. intros Hx'%Hgrey. eapply tc_r; [done|by apply Hdep]. }
    destruct (visit_each _ _ _ _) as [state2 order2| | |]; [|exact Hall..].
    destruct Hall as (Hs2 & Hin2 & Htodo2 & Hdom2 & Hgrey2).
      assert (Hnot : id ∉ order2).
      { intros Hin%(s_black _ _ Hs2). assert (state2 !! id = Some false) by (apply Hgrey2, lookup_insert_eq). congruence. }
      destruct Hs2 as [S1 S2 S3 S4]. split_and!.
      * constructor.
        -- apply NoDup_app. split; [done|]. split; [|apply NoDup_singleton].
           intros x Hx ->%list_elem_of_singleton. done.
        -- intros x. rewrite elem_of_app, list_elem_of_singleton. destruct (decide (x = id)) as [->|Hx].
           ++ rewrite lookup_insert_eq. split; [by right|done].
           ++ rewrite lookup_insert_ne, S2 by done. split; [by left|by intros [?|?]].
        -- rewrite dom_insert. apply union_subseteq. split; [|done]. apply singleton_subseteq_l, elem_of_dom. by eexists.
        -- apply topological_snoc; [done|]. intros d (f' & m' & Ef' & Em' & Hd). apply Htodo2. congruence.
      * set_solver.
      * set_solver.
      * rewrite dom_insert in *. set_solver.
      * intros x. destruct (decide (x = id)) as [->|Hx].
        -- rewrite lookup_insert_eq, Est. done.
        -- rewrite lookup_insert_ne, Hgrey2 by done. by rewrite lookup_insert_ne by done.
Qed.
End order.

(** what the search of the host returns *)
Lemma dependencyOrder_spec `{Runtime} `{Regexps} {Cmd Value Prompt Ev W Env : Type}
    (e : Env) (h : @PluginHost Cmd Value Prompt Ev W Env) :
  let fs := h.(factories) in
  match dependencyOrder e h with
  | Visited _ order =>
      NoDup order /\ (forall id, id ∈ order <-> is_Some (fs !! id)) /\ topological e fs order
      /\ (forall id d, depends e fs id d -> is_Some (fs !! d)) /\ ~ exists id, tc (depends e fs) id id
  | VisitErr _ => (exists id d, depends e fs id d /\ fs !! d = None) \/ exists id, tc (depends e fs) id id
  | VisitPanics => exists id f, fs !! id = Some f /\ f e = None
  | OutOfFuel => False
  end.
Proof.
  intros fs. unfold dependencyOrder. fold fs. set (ids := sort_slice _ _).
  assert (Hids : forall id, id ∈ ids <-> is_Some (fs !! id)).
  { intros id. unfold ids. rewrite elem_of_sort_slice, list_elem_of_fmap. split.
    - intros ([k f] & -> & Hm%elem_of_map_to_list). by exists f.
    - intros [f Hf]. exists (id, f). split; [done|]. by apply elem_of_map_to_list. }
  assert (Hf : found e fs ids ∅ [] (visit_each (visit (S (size fs)) e fs) ids ∅ [])).
  { apply (visit_each_found _ _ _ 0); [|constructor|lia|].
    - intros id state order Hid Hs _ Hg. apply visit_found; [done|lia|right; by apply Hids|done].
    - constructor.
    - intros id. rewrite lookup_empty. split; [done|by intros ?%elem_of_nil].
    - set_solver.
    - by intros i id d.
    - intros id x _. by rewrite lookup_empty. }
  destruct (visit_each _ _ _ _) as [state order|err| |]; [|exact Hf..].
  destruct Hf as ([S1 S2 S3 S4] & _ & Htodo & _ & _).
  assert (Hin : forall id, id ∈ order <-> is_Some (fs !! id)).
  { intros id. split; [|by intros ?%Hids%Htodo]. intros Hid%S2. apply elem_of_dom, S3, elem_of_dom. by eexists. }
  split_and!; [done|done|done| |].
  - intros id d Hd. apply Hin. destruct Hd as (f & m & Ef & Em & Hd).
    assert (Hid : id ∈ order) by (apply Hin; by eexists). apply list_elem_of_lookup in Hid as [i Hi].
    destruct (S4 i id d Hi) as (j & _ & Hj); [by exists f, m|]. by eapply list_elem_of_lookup_2.
  - intros [id Hc]. assert (Hlt : forall x y, tc (depends e fs) x y -> forall i, order !! i = Some x ->
        exists j, (j < i)%nat /\ order !! j = Some y).
    { induction 1 as [x y Hd|x y z Hd _ IH]; intros i Hi; [by eapply S4|].
      destruct (S4 i x y Hi Hd) as (j & Hj & Ej). destruct (IH j Ej) as (k & Hk & Ek). exists k. split; [lia|done]. }
    assert (Hid : id ∈ order).
    { apply Hin. assert (Hy : exists y, depends e fs id y) by (inversion Hc; eauto).
      destruct Hy as (y & f & m & Ef & _). by eexists. }
    apply list_elem_of_lookup in Hid as [i Hi]. destruct (Hlt _ _ Hc i Hi) as (j & Hj & Ej).
    assert (j = i) by (by eapply NoDup_lookup). lia.
Qed.

(** C33: the order of loading is right, and it is found whenever there is one: the search of the host
    ends, and when it returns an order it has every plugin once, each after all the plugins it depends on
    (so the dependencies have no cycle and none is missing); it fails only because a plugin depends on one
    that is not registered, or on itself through others; it panics only when a factory returns nil. *)
Theorem dependency_order_is_topological `{Runtime} `{Regexps} {Cmd Value Prompt Ev W Env : Type}
    (e : Env) (h : @PluginHost Cmd Value Prompt Ev W Env) :
  let fs := h.(factories) in
  match dependencyOrder e h with
  | Visited _ order =>
      NoDup order /\ (forall id, id ∈ order <-> is_Some (fs !! id)) /\ topological e fs order
      /\ (forall id d, depends e fs id d -> is_Some (fs !! d)) /\ ~ exists id, tc (depends e fs) id id
  | VisitErr _ => (exists id d, depends e fs id d /\ fs !! d = None) \/ exists id, tc (depends e fs) id id
  | VisitPanics => exists id f, fs !! id = Some f /\ f e = None
  | OutOfFuel => False
  end.
Proof. apply dependencyOrder_spec. Qed.
