(* ===== verification/FairyPluginProps.v ===== *)
(** * Plugins that run, and what they leave (fairy/plugin_runtime.go)

    The invariant of the host over loading, unloading, reloading and closing: what the
    plugins that run depend on runs; what is shared belongs to the core or to a plugin that
    runs; contributions do not collide.  What closing leaves.  The tools that the rest of
    the assistant sees.  Where the code does not keep this. *)
From S2P Require Import Prelude GoLib FairyTypes FairySchema FairyTools FairyToolsProps FairyPlugins FairyPluginFacts FairyPluginHost FairySchemaProps Demo MemoryState.
From stdpp Require Import gmap strings list.
From Stdlib Require Import ZArith Lia.

Local Open Scope Z_scope.
Local Open Scope go_scope.

Section host.
Context `{Runtime} `{Regexps} {Cmd Value Prompt Ev W Env : Type}.
Notation PluginContext := (@PluginContext Cmd Value Prompt W Env).
Notation PluginHost := (@PluginHost Cmd Value Prompt Ev W Env).
Notation pluginRuntime := (@pluginRuntime Cmd Value Prompt W Env).
Notation shared := (@shared Value Ev).
Implicit Types (h : PluginHost) (p : PluginContext) (g : shared) (rt : pluginRuntime) (id name : string) (e : Env)
  (lv : gmap string PluginContext).

(** ** Starting and stopping one module *)

Lemma CloseScope_effect e p g err p' g' :
  p.(scope_closed) = false -> CloseScope e p g = (err, p', g') ->
  (forall name en, g'.(values) !! name = Some en
     <-> g.(values) !! name = Some en /\ ~ (en.(entry_owner) = p.(scope_manifest).(Manifest_ID) /\ RemoveCapability name ∈ p.(scope_effects)))
  /\ (forall name i, hooked g' name i <-> hooked g name i /\ DisposeHook name i ∉ p.(scope_effects))
  /\ g'.(nextID) = g.(nextID).
Proof.
  intros Hc. unfold CloseScope. rewrite Hc. destruct (undo_all _ _ _ _) as [err1 g1] eqn:E. intros [= _ _ <-].
  apply undo_all_effect in E as (Hv & Hh & Hn). split_and!; [| |done].
  - intros name en. rewrite Hv. by rewrite elem_of_reverse.
  - intros name i. rewrite Hh. by rewrite elem_of_reverse.
Qed.

(** a module that does not start leaves nothing, and takes nothing from the others *)
Definition shrunk (m : PluginManifest) g g' : Prop :=
  (forall name en, g'.(values) !! name = Some en -> g.(values) !! name = Some en)
  /\ (forall name en, g.(values) !! name = Some en -> en.(entry_owner) <> m.(Manifest_ID) -> g'.(values) !! name = Some en)
  /\ (forall name i, hooked g' name i -> hooked g name i) /\ g.(nextID) <= g'.(nextID).

Lemma grown_closed m g0 p g e err p' g' :
  grown m g0 p g -> CloseScope e p g = (err, p', g') -> shrunk m g0 g'.
Proof.
  intros G (Hv & Hh & Hn)%CloseScope_effect; [|by apply G]. rewrite (g_manifest _ _ _ _ G) in Hv.
  split_and!.
  - intros name en [Hl Hx]%Hv. destruct (g_values _ _ _ _ G name en Hl) as [|[? ?]]; [done|]. by destruct Hx.
  - intros name en Hl Ho. apply Hv. split; [by apply (g_kept _ _ _ _ G)|]. by intros [? _].
  - intros name i [Hg Hx]%Hh. by destruct (g_hooks _ _ _ _ G name i Hg) as [|[? ?]].
  - rewrite Hn. apply G.
Qed.

Lemma distinct_new m : distinct (new_scope m : PluginContext).
Proof. repeat split; constructor. Qed.

Lemma StartModule_cases e (module : @PluginModule Cmd Value Prompt Ev W Env) m g r g' :
  StartModule e module (new_scope m) g = (r, g') ->
  match r with Ok p => grown m g p g' /\ distinct p | Err _ => shrunk m g g' end.
Proof.
  unfold StartModule. destruct (run_registration _ _ _) as [[err p] g1] eqn:E.
  destruct (run_registration_grown _ _ _ _ _ _ _ _ (grown_new m g) (distinct_new m) E) as [G D]. destruct err as [err|].
  - destruct (CloseScope e p g1) as [[err' p'] g2] eqn:Ec. intros [= <- <-]. by eapply grown_closed.
  - destruct (mbind _ _); [|intros [= <- <-]; by split].
    destruct (CloseScope e p g1) as [[err' p'] g2] eqn:Ec. intros [= <- <-]. by eapply grown_closed.
Qed.

(** ** The invariant *)

(** the scopes of the plugins that run *)
Definition live h : gmap string PluginContext := omap (fun rt => if is_running rt then rt.(rt_context) else None) h.(runtimes).

(** every capability and every handler belongs to the core or to a live plugin, which will undo it *)
Record attributed g lv : Prop := {
  a_values : forall name en, g.(values) !! name = Some en ->
    en.(entry_owner) = "core" \/ exists p, lv !! en.(entry_owner) = Some p /\ RemoveCapability name ∈ p.(scope_effects);
  a_hooks : forall name i, hooked g name i -> exists id p, lv !! id = Some p /\ DisposeHook name i ∈ p.(scope_effects);
  a_bound : forall name i, hooked g name i -> i <= g.(nextID) }.

Definition apart p1 p2 : Prop :=
  command_ids p1 ## command_ids p2 /\ tool_ids p1 ## tool_ids p2 /\ memory_ids p1 ## memory_ids p2 /\ prompt_ids p1 ## prompt_ids p2.
Definition tools_ready p : Prop :=
  Forall (fun item => exists reg, prepareRegisteredTool (Some item.2) true = Ok reg /\ reg.(reg_spec).(Spec_Name) = item.1) p.(scope_tools).

Record running_ok h id rt : Prop := {
  r_scope : exists p lifecycle, rt.(rt_context) = Some p /\ rt.(rt_handle) = Some lifecycle
    /\ p.(scope_manifest) = rt.(rt_manifest) /\ p.(scope_closed) = false /\ distinct p /\ tools_ready p;
  r_id : rt.(rt_manifest).(Manifest_ID) = id;
  r_factory : exists f e, h.(factories) !! id = Some f /\ manifest_from e f = Some rt.(rt_manifest);
  r_dependencies : forall d, d ∈ dependency_ids rt.(rt_manifest) -> Running d h = true }.
Record host_ok h : Prop := {
  h_shared : attributed h.(host_shared) (live h);
  h_running : forall id rt, h.(runtimes) !! id = Some rt -> is_running rt = true -> running_ok h id rt;
  h_apart : forall id1 id2 p1 p2, live h !! id1 = Some p1 -> live h !! id2 = Some p2 -> id1 <> id2 -> apart p1 p2;
  h_order : NoDup h.(host_order) /\ forall id, is_Some (h.(runtimes) !! id) -> id ∈ h.(host_order) }.

Lemma live_lookup h id p :
  live h !! id = Some p <-> exists rt, h.(runtimes) !! id = Some rt /\ is_running rt = true /\ rt.(rt_context) = Some p.
Proof.
  unfold live. rewrite lookup_omap, bind_Some. split.
  - intros (rt & Hr & Hp). destruct (is_running rt) eqn:E; [|done]. eauto.
  - intros (rt & Hr & E & Hp). exists rt. by rewrite E.
Qed.
Lemma Running_live h id : host_ok h -> Running id h = true <-> is_Some (live h !! id).
Proof.
  intros Hh. unfold Running. split.
  - destruct (runtimes h !! id) as [rt|] eqn:E; [|done]. cbn. intros Er.
    destruct (r_scope _ _ _ (h_running _ Hh _ _ E Er)) as (p & _ & Ep & _). exists p. apply live_lookup. eauto.
  - intros [p (rt & -> & Er & _)%live_lookup]. done.
Qed.

(** *** Steps of the shared part *)

Lemma attributed_shrunk m g g' lv : attributed g lv -> shrunk m g g' -> attributed g' lv.
Proof.
  intros [A1 A2 A3] (S1 & _ & S3 & S4). constructor.
  - intros name en Hl%S1. by apply A1.
  - intros name i Hl%S3. by apply A2.
  - intros name i Hl%S3. specialize (A3 name i Hl). lia.
Qed.
Lemma attributed_grown m g p g' lv :
  attributed g lv -> grown m g p g' -> lv !! m.(Manifest_ID) = None -> attributed g' (<[m.(Manifest_ID) := p]> lv).
Proof.
  intros [A1 A2 A3] G Hnew. constructor.
  - intros name en Hl. destruct (g_values _ _ _ _ G name en Hl) as [Hl'|[Ho Hin]].
    + destruct (A1 name en Hl') as [|(q & Hq & Hin)]; [by left|right]. exists q. split; [|done].
      rewrite lookup_insert_ne; [done|]. congruence.
    + right. exists p. rewrite Ho. by rewrite lookup_insert_eq.
  - intros name i Hk. destruct (g_hooks _ _ _ _ G name i Hk) as [Hk'|[_ Hin]].
    + destruct (A2 name i Hk') as (id & q & Hq & Hin). exists id, q. split; [|done].
      rewrite lookup_insert_ne; [done|]. congruence.
    + exists m.(Manifest_ID), p. by rewrite lookup_insert_eq.
  - by apply (g_bound _ _ _ _ G).
Qed.
Lemma attributed_closed g lv id p e err p' g' :
  attributed g lv -> lv !! id = Some p -> p.(scope_manifest).(Manifest_ID) = id -> p.(scope_closed) = false ->
  CloseScope e p g = (err, p', g') -> attributed g' (delete id lv).
Proof.
  intros [A1 A2 A3] Hp Hid Hc (Hv & Hh & Hn)%CloseScope_effect; [|done]. constructor.
  - intros name en [Hl Hx]%Hv. destruct (A1 name en Hl) as [|(q & Hq & Hin)]; [by left|right]. exists q. split; [|done].
    rewrite lookup_delete_ne; [done|]. intros Ho. apply Hx. split; [congruence|]. by assert (q = p) as <- by congruence.
  - intros name i [Hk Hx]%Hh. destruct (A2 name i Hk) as (o & q & Hq & Hin). exists o, q. split; [|done].
    rewrite lookup_delete_ne; [done|]. intros Ho. by assert (q = p) as -> by congruence.
  - intros name i [Hk _]%Hh. rewrite Hn. by apply (A3 name i).
Qed.

(** *** Steps of the host *)

Lemma live_insert_idle h id rt g :
  is_running rt = false -> live h !! id = None -> live (mkHost g h.(factories) (<[id := rt]> h.(runtimes)) h.(host_order)) = live h.
Proof.
  intros Hi Hl. unfold live in *. cbn. apply map_eq. intros x. rewrite lookup_omap. destruct (decide (x = id)) as [->|Hx].
  - rewrite lookup_insert_eq. cbn. by rewrite Hi, Hl.
  - by rewrite lookup_insert_ne, lookup_omap.
Qed.
Lemma Running_insert h id rt g x :
  Running x (mkHost g h.(factories) (<[id := rt]> h.(runtimes)) h.(host_order))
  = if bool_decide (x = id) then is_running rt else Running x h.
Proof.
  unfold Running. cbn. case_bool_decide as Hx; [subst; by rewrite lookup_insert_eq|by rewrite lookup_insert_ne].
Qed.

(** a plugin that does not run changes to another state in which it does not *)
Lemma idle_ok h id rt g :
  host_ok h -> Running id h = false -> is_running rt = false -> id ∈ h.(host_order) -> attributed g (live h) ->
  let h' := mkHost g h.(factories) (<[id := rt]> h.(runtimes)) h.(host_order) in
  host_ok h' /\ live h' = live h /\ forall x, Running x h' = Running x h.
Proof.
  intros Hh Hr Hi Ho Hg h'.
  assert (Hl : live h !! id = None) by (apply eq_None_not_Some; intros Hs%Running_live; [congruence|done]).
  assert (El : live h' = live h) by (by apply live_insert_idle).
  assert (ER : forall x, Running x h' = Running x h).
  { intros x. unfold h'. rewrite Running_insert. case_bool_decide; [subst; congruence|done]. }
  split; [|done]. constructor.
  - by rewrite El.
  - intros x rtx. cbn. rewrite lookup_insert_Some. intros [[<- <-]|[Hx Hl']] Hrun; [congruence|].
    destruct (h_running _ Hh x rtx Hl' Hrun) as [R1 R2 R3 R4]. constructor; [done..|]. intros d Hd. rewrite ER. by apply R4.
  - rewrite El. apply Hh.
  - split; [apply Hh|]. cbn. intros x [rtx Hx]. apply lookup_insert_Some in Hx as [[<- _]|[_ Hx]]; [done|].
    apply (h_order _ Hh). by eexists.
Qed.

Lemma recordFailure_ok e id err h x h' g :
  host_ok h -> Running id h = false -> id ∈ h.(host_order) -> attributed g (live h) ->
  recordFailure e id err (mkHost g h.(factories) h.(runtimes) h.(host_order)) = Returned (x, h') ->
  host_ok h' /\ live h' = live h /\ (forall x, Running x h' = Running x h)
  /\ h'.(factories) = h.(factories) /\ h'.(host_order) = h.(host_order) /\ is_Some (h'.(runtimes) !! id)
  /\ is_Some x /\ (forall y, y <> id -> h'.(runtimes) !! y = h.(runtimes) !! y) /\ h'.(host_shared) = g.
Proof.
  intros Hh Hr Ho Hg. unfold recordFailure. cbn [factories runtimes host_order].
  set (rt m := mkRuntime (W := W) (Cmd := Cmd) (Value := Value) (Prompt := Prompt) (Env := Env) m None None (mkStatus m true StateFailed "startup_failed")).
  assert (Hm : forall m, Returned (Some ("load Fairy plugin " +:+ id +:+ ": " +:+ err),
      mkHost g h.(factories) (<[id := rt m]> h.(runtimes)) h.(host_order)) = Returned (x, h') ->
    host_ok h' /\ live h' = live h /\ (forall x, Running x h' = Running x h)
    /\ h'.(factories) = h.(factories) /\ h'.(host_order) = h.(host_order) /\ is_Some (h'.(runtimes) !! id)
    /\ is_Some x /\ (forall y, y <> id -> h'.(runtimes) !! y = h.(runtimes) !! y) /\ h'.(host_shared) = g).
  { intros m [= <- <-]. destruct (idle_ok h id (rt m) g Hh Hr eq_refl Ho Hg) as (? & ? & ?). split_and!; try done.
    - cbn. rewrite lookup_insert_eq. by eexists.
    - intros y Hy. cbn. by rewrite lookup_insert_ne. }
  destruct (factories h !! id) as [f|]; [|apply Hm]. destruct (manifest_from e f) as [m|]; [apply Hm|done].
Qed.

Lemma check_each_ok {A} (check : A -> result unit) l : check_each check l = Ok tt -> Forall (fun x => check x = Ok tt) l.
Proof.
  induction l as [|x l IH]; cbn; [constructor|]. destruct (check x) as [[]|] eqn:E; [|done]. intros Hl. constructor; auto.
Qed.

(** what loadLocked has checked when a plugin runs *)
Lemma check_module_ok id module h m :
  check_module id module h = Ok m ->
  m = normalizePluginManifest module.(module_Manifest) /\ m.(Manifest_ID) = id
  /\ forall d, d ∈ dependency_ids m -> Running d h = true /\ d <> id.
Proof.
  unfold check_module. cbv zeta. set (m0 := normalizePluginManifest _).
  destruct (ValidateManifest m0) as [[]|] eqn:Evd; [|done]. destruct (bool_decide (Manifest_ID m0 = id)) eqn:Eid; [|done]. cbn [negb].
  apply bool_decide_eq_true in Eid. destruct (check_each _ _) as [[]|] eqn:Ed; [|done]. case_bool_decide; [|done].
  intros Em. assert (m = m0) as -> by congruence. split_and!; [done|done|]. intros d Hd. split.
  - apply check_each_ok in Ed. rewrite Forall_forall in Ed. apply list_elem_of_fmap in Hd as (dep & -> & Hd).
    specialize (Ed dep Hd). unfold check_dependency in Ed. unfold Running.
    destruct (runtimes h !! Dependency_ID dep) as [rt|]; [|done]. cbn. by destruct (is_running rt).
  - intros ->. revert Evd. unfold ValidateManifest. cbv zeta. destruct (_ || _); [done|]. destruct (negb _); [done|].
    destruct (negb _); [done|]. destruct (check_components _ _ _) as [[]|]; [|done]. destruct (find_first _ _); [done|].
    unfold dependency_ids in Hd. rewrite Eid. clear -Hd. revert Hd. generalize (@nil string) as seen.
    induction (Manifest_Dependencies m0) as [|dep l IH]; intros seen; cbn [check_dependencies fmap list_fmap]; [by intros ?%elem_of_nil|].
    intros [E|Hd]%elem_of_cons.
    + rewrite <-E, bool_decide_eq_true_2 by done. by rewrite orb_true_r.
    + destruct (_ || _); [done|]. case_bool_decide; [done|]. by apply IH.
Qed.

Lemma no_conflict kind ids_of id registrationID h :
  check_conflict kind ids_of id registrationID h = Ok tt ->
  forall other p, other <> id -> live h !! other = Some p -> registrationID ∉ ids_of p.
Proof.
  unfold check_conflict. destruct (registered_by _ _ _ _) eqn:E; [done|]. intros _ other p Ho (rt & Hr & Hi & Hp)%live_lookup Hin.
  unfold registered_by in E. apply fmap_None in E. rewrite find_first_None in E.
  specialize (E (other, rt) (proj2 (elem_of_map_to_list _ _ _) Hr)). cbn in E.
  rewrite Hi, Hp, bool_decide_eq_false_2 in E by done. cbn in E. by apply bool_decide_eq_false in E.
Qed.

Lemma snapshot_apart id p h :
  validateRegistrationSnapshot id p h = Ok tt -> distinct p ->
  tools_ready p /\ forall other q, other <> id -> live h !! other = Some q -> apart p q.
Proof.
  unfold validateRegistrationSnapshot. destruct (check_each _ p.(scope_commands)) as [[]|] eqn:E1; [|done].
  destruct (check_each _ p.(scope_tools)) as [[]|] eqn:E2; [|done].
  destruct (check_each _ p.(scope_memory)) as [[]|] eqn:E3; [|done]. intros E4 _.
  apply check_each_ok in E1, E2, E3, E4. split.
  - eapply Forall_impl; [exact E2|]. intros [nm tool]. unfold check_tool. cbn [fst snd].
    destruct (prepareRegisteredTool (Some tool) true) as [reg|]; [|done]. case_bool_decide; [|done]. eauto.
  - intros other q Ho Hq. repeat split; intros x (item & -> & Hin)%list_elem_of_fmap Hx.
    + rewrite Forall_forall in E1. by eapply (no_conflict _ _ _ _ _ (E1 item Hin)).
    + rewrite Forall_forall in E2. specialize (E2 item Hin). unfold check_tool in E2.
      destruct (prepareRegisteredTool (Some item.2) true); [|done]. case_bool_decide; [|done]. cbn [negb] in E2. by eapply (no_conflict _ _ _ _ _ E2).
    + rewrite Forall_forall in E3. by eapply (no_conflict _ _ _ _ _ (E3 item Hin)).
    + rewrite Forall_forall in E4. by eapply (no_conflict _ _ _ _ _ (E4 item Hin)).
Qed.

Lemma live_insert h id rt p g :
  is_running rt = true -> rt.(rt_context) = Some p ->
  live (mkHost g h.(factories) (<[id := rt]> h.(runtimes)) h.(host_order)) = <[id := p]> (live h).
Proof.
  intros Hi Hp. unfold live. cbn. apply map_eq. intros x. rewrite lookup_omap. destruct (decide (x = id)) as [->|Hx].
  - rewrite !lookup_insert_eq. change ((if is_running rt then rt.(rt_context) else None) = Some p). by rewrite Hi.
  - by rewrite !lookup_insert_ne, lookup_omap.
Qed.
Lemma apart_sym p1 p2 : apart p1 p2 -> apart p2 p1.
Proof. intros (A1 & A2 & A3 & A4). split_and!; intros x Hx Hy; [by eapply A1|by eapply A2|by eapply A3|by eapply A4]. Qed.

Lemma started_ok e id f h m p g lifecycle :
  host_ok h -> Running id h = false -> id ∈ h.(host_order) -> h.(factories) !! id = Some f -> manifest_from e f = Some m ->
  m.(Manifest_ID) = id -> (forall d, d ∈ dependency_ids m -> Running d h = true /\ d <> id) ->
  grown m h.(host_shared) p g -> distinct p -> tools_ready p ->
  (forall other q, other <> id -> live h !! other = Some q -> apart p q) ->
  let rt := mkRuntime m (Some p) (Some lifecycle) (mkStatus m true StateRunning "") in
  host_ok (mkHost g h.(factories) (<[id := rt]> h.(runtimes)) h.(host_order)).
Proof.
  intros Hh Hr Ho Hf Hm Hid Hdep G D T Hap rt. set (h' := mkHost _ _ _ _).
  assert (Hl : live h !! id = None) by (apply eq_None_not_Some; intros Hs%Running_live; [congruence|done]).
  assert (El : live h' = <[id := p]> (live h)) by (by apply live_insert).
  assert (Hmono : forall x, Running x h = true -> Running x h' = true).
  { intros x Hx. unfold h'. rewrite Running_insert. by case_bool_decide. }
  constructor.
  - rewrite El. cbn. rewrite <-Hid at 1. eapply attributed_grown; [apply Hh|done|by rewrite Hid].
  - intros x rtx. cbn. rewrite lookup_insert_Some. intros [[<- <-]|[Hx Hl']] Hrun.
    + constructor; [|done|by exists f, e|].
      * exists p, lifecycle. split_and!; try done; [by apply G|by apply G].
      * intros d Hd. apply Hmono. by apply Hdep.
    + destruct (h_running _ Hh x rtx Hl' Hrun) as [R1 R2 R3 R4]. constructor; [done..|]. intros d Hd. by apply Hmono, R4.
  - rewrite El. intros i1 i2 p1 p2. rewrite !lookup_insert_Some. intros [[<- <-]|[Hi1 Hp1]] [[<- <-]|[Hi2 Hp2]] Hne; [done| | |].
    + by eapply Hap.
    + apply apart_sym. by eapply Hap.
    + by eapply (h_apart _ Hh).
  - split; [apply Hh|]. cbn. intros x [rtx Hx]. apply lookup_insert_Some in Hx as [[<- _]|[_ Hx]]; [done|].
    apply (h_order _ Hh). by eexists.
Qed.

(** what an operation on the plugin [id] leaves as it is *)
Record frame id h h' : Prop := {
  f_factories : h'.(factories) = h.(factories);
  f_order : h'.(host_order) = h.(host_order);
  f_runtimes : forall y, y <> id -> h'.(runtimes) !! y = h.(runtimes) !! y;
  f_values : forall name en, h.(host_shared).(values) !! name = Some en -> en.(entry_owner) <> id ->
    h'.(host_shared).(values) !! name = Some en }.
Lemma frame_refl id h : frame id h h.
Proof. by constructor. Qed.
Lemma frame_trans id h1 h2 h3 : frame id h1 h2 -> frame id h2 h3 -> frame id h1 h3.
Proof.
  intros [A1 A2 A3 A4] [B1 B2 B3 B4]. constructor; [congruence|congruence| |auto].
  intros y Hy. by rewrite B3, A3.
Qed.

Lemma manifest_from_Some e (f : @PluginFactory Cmd Value Prompt Ev W Env) module :
  f e = Some module -> manifest_from e f = Some (normalizePluginManifest module.(module_Manifest)).
Proof. intros E. unfold manifest_from. by rewrite E. Qed.

Lemma loadLocked_ok e id h x h' :
  host_ok h -> Running id h = false -> id ∈ h.(host_order) -> loadLocked e id h = Returned (x, h') ->
  host_ok h' /\ frame id h h'.
Proof.
  intros Hh Hr Ho. unfold loadLocked. destruct (factories h !! id) as [f|] eqn:Ef; [|by intros [= <- <-]; split; [|apply frame_refl]].
  assert (Hrec : forall err g, attributed g (live h) ->
    (forall name en, h.(host_shared).(values) !! name = Some en -> en.(entry_owner) <> id -> g.(values) !! name = Some en) ->
    recordFailure e id err ((h) <| host_shared := g |>) = Returned (x, h') -> host_ok h' /\ frame id h h').
  { intros err g Hg Hv E. destruct (recordFailure_ok e id err h x h' g Hh Hr Ho Hg E) as (Hh' & _ & _ & Hf & Hord & _ & _ & Hrt & Hs).
    split; [done|]. constructor; [done|done|done|by rewrite Hs]. }
  assert (Hsame : forall err, recordFailure e id err h = Returned (x, h') -> host_ok h' /\ frame id h h').
  { intros err. destruct h as [g fs rts ord]. apply (Hrec err g); [apply Hh|done]. }
  destruct (f e) as [module|] eqn:Em; [|apply Hsame]. destruct (check_module id module h) as [m|err] eqn:Ec; [|apply Hsame].
  apply check_module_ok in Ec as (Enorm & Eid & Hdep). apply manifest_from_Some in Em. rewrite <-Enorm in Em.
  destruct (StartModule e module (new_scope m) (host_shared h)) as [r g] eqn:Es. apply StartModule_cases in Es.
  assert (Hshrunk : forall g, shrunk m h.(host_shared) g -> attributed g (live h) /\
    (forall name en, h.(host_shared).(values) !! name = Some en -> en.(entry_owner) <> id -> g.(values) !! name = Some en)).
  { intros g1 Hg1. split; [by eapply attributed_shrunk; [apply Hh|]|]. rewrite <-Eid. apply Hg1. }
  destruct r as [p|err]; [|apply Hshrunk in Es as []; by apply Hrec].
  destruct Es as [G D]. destruct (validateRegistrationSnapshot _ _ _) as [[]|err] eqn:Ev2.
  - intros [= <- <-]. apply snapshot_apart in Ev2 as [T Hap]; [|done]. split.
    + exact (started_ok e id f h m p g _ Hh Hr Ho Ef Em Eid Hdep G D T Hap).
    + constructor; [done|done|intros y Hy; cbn; by rewrite lookup_insert_ne|]. rewrite <-Eid. apply G.
  - destruct (StopModule e module.(module_lifecycle) p g) as [err1 g1] eqn:Est. unfold StopModule in Est.
    destruct (CloseScope e p g) as [[err2 p2] g2] eqn:Ecl. injection Est as _ <-.
    eapply grown_closed in Ecl; [|done]. apply Hshrunk in Ecl as []. by apply Hrec.
Qed.

Lemma required_by_None id h other rt :
  required_by id h = None -> h.(runtimes) !! other = Some rt -> is_running rt = true -> other <> id ->
  id ∉ dependency_ids rt.(rt_manifest).
Proof.
  unfold required_by. intros E%fmap_None Hrt Hrun Hne. rewrite find_first_None in E.
  specialize (E (other, rt) (proj2 (elem_of_map_to_list _ _ _) Hrt)). cbn in E.
  rewrite Hrun, bool_decide_eq_false_2 in E by done. cbn in E. by apply bool_decide_eq_false in E.
Qed.

Lemma stopped_ok id h p state error g :
  host_ok h -> live h !! id = Some p -> required_by id h = None -> state <> StateRunning ->
  attributed g (delete id (live h)) ->
  let h' := set_state id state error ((h) <| host_shared := g |>) in
  host_ok h' /\ Running id h' = false /\ live h' = delete id (live h) /\ forall y, y <> id -> Running y h' = Running y h.
Proof.
  intros Hh Hp Hreq Hst Hg h'. pose proof Hp as (rt & Hrt & Hrun & Hctx)%live_lookup.
  set (rt' := mkRuntime (W := W) (Cmd := Cmd) (Value := Value) (Prompt := Prompt) (Env := Env) rt.(rt_manifest) None None
    (mkStatus rt.(rt_status).(status_manifest) rt.(rt_status).(status_Enabled) state error)).
  assert (Erts : h'.(runtimes) = <[id := rt']> h.(runtimes)).
  { unfold h', set_state. cbn. apply map_eq. intros y. destruct (decide (y = id)) as [->|Hy].
    - rewrite lookup_alter_eq, lookup_insert_eq, Hrt. done.
    - by rewrite lookup_alter_ne, lookup_insert_ne. }
  assert (Hidle : is_running rt' = false) by (apply bool_decide_eq_false; done).
  assert (El : live h' = delete id (live h)).
  { unfold live. rewrite Erts. apply map_eq. intros y. rewrite lookup_omap. destruct (decide (y = id)) as [->|Hy].
    - rewrite lookup_insert_eq, lookup_delete_eq. change ((if is_running rt' then rt'.(rt_context) else None) = None). by rewrite Hidle.
    - by rewrite lookup_insert_ne, lookup_delete_ne, lookup_omap. }
  assert (ER : forall y, y <> id -> Running y h' = Running y h).
  { intros y Hy. unfold Running. by rewrite Erts, lookup_insert_ne. }
  split_and!; [|unfold Running; rewrite Erts, lookup_insert_eq; exact Hidle|done|done].
  constructor.
  - by rewrite El.
  - intros y rty. rewrite Erts, lookup_insert_Some. intros [[<- <-]|[Hy Hl']] Hr; [congruence|].
    destruct (h_running _ Hh y rty Hl' Hr) as [R1 R2 R3 R4]. constructor; [done..|]. intros d Hd. rewrite ER; [by apply R4|].
    intros ->. by eapply required_by_None.
  - rewrite El. intros i1 i2 p1 p2 [_ H1]%lookup_delete_Some [_ H2]%lookup_delete_Some. by eapply (h_apart _ Hh).
  - split; [apply Hh|]. intros y. rewrite Erts. intros [rty Hy].
    apply lookup_insert_Some in Hy as [[<- _]|[_ Hy]]; (apply (h_order _ Hh); by eexists).
Qed.

(** unloading refuses and changes nothing, or the plugin stops whatever its module answers *)
Lemma unloadLocked_cases e id h err h' :
  host_ok h -> unloadLocked e id h = (err, h') ->
  (h' = h /\ is_Some err /\ (Running id h = false \/ is_Some (required_by id h)))
  \/ (Running id h = true /\ required_by id h = None /\ host_ok h' /\ frame id h h' /\ Running id h' = false
      /\ live h' = delete id (live h) /\ (forall y, y <> id -> Running y h' = Running y h)).
Proof.
  intros Hh. unfold unloadLocked. destruct (runtimes h !! id) as [[m ctx handle status]|] eqn:Er.
  2: { intros [= <- <-]. left. split_and!; [done|by eexists|left]. unfold Running. by rewrite Er. }
  assert (Hno : bool_decide (status_State status = StateRunning) = false -> Running id h = false).
  { intros Hf. unfold Running. by rewrite Er. }
  destruct (bool_decide (status_State status = StateRunning)) eqn:Erun.
  - pose proof (h_running _ Hh _ _ Er Erun) as [(p & lc & Ep & El & Em & Ec & _ & _) Rid _ _]. cbn in Ep, El, Em, Rid. subst ctx handle.
    cbn [negb]. destruct (required_by id h) as [other|] eqn:Ereq.
    { intros [= <- <-]. left. split_and!; [done|by eexists|right; by eexists]. }
    assert (Hlive : live h !! id = Some p) by (apply live_lookup; by eexists).
    destruct (StopModule e lc p (host_shared h)) as [serr g] eqn:Es. unfold StopModule in Es.
    destruct (CloseScope e p (host_shared h)) as [[cerr p2] g2] eqn:Ecl. injection Es as <- <-.
    assert (Hg : attributed g2 (delete id (live h))).
    { eapply attributed_closed; [apply Hh|done| |done|done]. by rewrite Em. }
    assert (Hfr : forall state error, frame id h (set_state id state error ((h) <| host_shared := g2 |>))).
    { intros state error. constructor; [done|done|intros y Hy; cbn; by rewrite lookup_alter_ne|].
      intros name en Hn Ho. cbn. apply CloseScope_effect in Ecl as (Hv & _); [|done]. apply Hv. split; [done|]. rewrite Em, Rid. by intros [? _]. }
    intros E. right. assert (Hst : exists state error, state <> StateRunning /\ h' = set_state id state error ((h) <| host_shared := g2 |>)).
    { destruct (join_errors _ _); injection E as _ <-; do 2 eexists; (split; [|reflexivity]); done. }
    destruct Hst as (state & error & Hne & ->).
    destruct (stopped_ok id h p state error g2 Hh Hlive Ereq Hne Hg) as (A & B & C & D).
    split_and!; [|done|done|apply Hfr|done|done|done]. unfold Running. by rewrite Er.
  - intros E. left. assert (E' : h' = h /\ is_Some err).
    { destruct ctx as [p|]; [|by injection E as <- <-; eauto]. destruct handle as [lc|]; by injection E as <- <-; eauto. }
    destruct E' as [-> ?]. split_and!; [done|done|left]. by apply Hno.
Qed.

(** *** Operations and reachable hosts *)

Inductive host_op := OpUnload e id | OpReload e id | OpClose e.
Definition run_op (op : host_op) h : attempt (option string * PluginHost) :=
  match op with
  | OpUnload e id => Returned (unloadLocked e id h)
  | OpReload e id => Reload e id h
  | OpClose e => Returned (CloseHost e h)
  end.
Inductive reachable (core : gmap string Value) : PluginHost -> Prop :=
| reach_new e enabled l x h : NewPluginHost e enabled core l = Returned (x, Some h) -> reachable core h
| reach_op op h x h' : reachable core h -> run_op op h = Returned (x, h') -> reachable core h'.

(** what is kept of the capabilities whose owner is none of the plugins of the host *)
Definition keeps_core h h' : Prop :=
  h'.(factories) = h.(factories) /\ h'.(host_order) = h.(host_order)
  /\ forall name en, h.(host_shared).(values) !! name = Some en -> h.(factories) !! en.(entry_owner) = None ->
       h'.(host_shared).(values) !! name = Some en.
Lemma keeps_refl h : keeps_core h h.
Proof. by split_and!. Qed.
Lemma keeps_trans h1 h2 h3 : keeps_core h1 h2 -> keeps_core h2 h3 -> keeps_core h1 h3.
Proof. intros (A & B & C) (A' & B' & C'). split_and!; [congruence|congruence|]. intros name en Hn Ho. apply C'; [by apply C|congruence]. Qed.
Lemma frame_keeps id h h' : is_Some (h.(factories) !! id) -> frame id h h' -> keeps_core h h'.
Proof. intros [f Hf] [A B _ C]. split_and!; [done|done|]. intros name en Hn Ho. apply C; [done|]. intros E. rewrite E in Ho. congruence. Qed.

Lemma Running_factory h id : host_ok h -> Running id h = true -> is_Some (h.(factories) !! id).
Proof.
  intros Hh. unfold Running. destruct (runtimes h !! id) as [rt|] eqn:E; [|done]. intros Hr.
  destruct (r_factory _ _ _ (h_running _ Hh _ _ E Hr)) as (f & e & Hf & _). by exists f.
Qed.

Lemma unloadLocked_keeps e id h err h' : host_ok h -> unloadLocked e id h = (err, h') -> host_ok h' /\ keeps_core h h'.
Proof.
  intros Hh [(-> & _)|(Hr & _ & Hh' & Hf & _)]%unloadLocked_cases; [by split; [|apply keeps_refl]| |done].
  split; [done|]. apply (frame_keeps id); [by apply Running_factory|done].
Qed.
Lemma close_all_keeps e ids h err h' : host_ok h -> close_all e ids h = (err, h') -> host_ok h' /\ keeps_core h h'.
Proof.
  revert h err h'. induction ids as [|id ids IH]; intros h err h' Hh; cbn [close_all].
  { intros [= _ <-]. split; [done|apply keeps_refl]. }
  destruct (Running id h); [|by apply IH]. destruct (unloadLocked e id h) as [err1 h1] eqn:E1.
  apply unloadLocked_keeps in E1 as [Hh1 Hk1]; [|done]. destruct (close_all e ids h1) as [errs h2] eqn:E2.
  intros [= _ <-]. apply IH in E2 as [Hh2 Hk2]; [|done]. split; [done|]. by eapply keeps_trans.
Qed.

Lemma Reload_keeps e id h x h' : host_ok h -> Reload e id h = Returned (x, h') -> host_ok h' /\ keeps_core h h'.
Proof.
  intros Hh. unfold Reload. destruct (runtimes h !! id) as [rt|] eqn:Er; [|intros [= _ <-]; split; [done|apply keeps_refl]].
  destruct (negb _); [intros [= _ <-]; split; [done|apply keeps_refl]|].
  destruct (unloadLocked e id h) as [[err|] h1] eqn:E1.
  { intros [= _ <-]. by eapply unloadLocked_keeps. }
  pose proof (unloadLocked_keeps _ _ _ _ _ Hh E1) as [Hh1 Hk1].
  destruct (unloadLocked_cases _ _ _ _ _ Hh E1) as [(_ & [? ?] & _)|(Hr & _ & _ & Hf & Hnot & _)]; [done|].
  intros E2. assert (Ho : id ∈ h1.(host_order)).
  { rewrite (f_order _ _ _ Hf). apply (h_order _ Hh). by eexists. }
  apply loadLocked_ok in E2 as [Hh2 Hf2]; [|done..]. split; [done|]. eapply keeps_trans; [exact Hk1|].
  apply (frame_keeps id); [|done]. rewrite (f_factories _ _ _ Hf). by apply Running_factory.
Qed.

Lemma start_each_ok e enabled ids h x h' :
  host_ok h -> NoDup ids -> (forall id, id ∈ ids -> h.(runtimes) !! id = None /\ id ∈ h.(host_order)) ->
  start_each e enabled ids h = Returned (x, h') -> host_ok h' /\ keeps_core h h'.
Proof.
  revert h x h'. induction ids as [|id ids IH]; intros h x h' Hh Hnd Hids; cbn [start_each].
  { intros [= _ <-]. split; [done|apply keeps_refl]. }
  apply NoDup_cons in Hnd as [Hnin Hnd]. destruct (Hids id ltac:(left)) as [Hnone Hin].
  assert (Hr : Running id h = false) by (unfold Running; by rewrite Hnone).
  destruct (mbind _ _) as [m|] eqn:Em; [|done]. apply bind_Some in Em as (f & Ef & Em).
  assert (Hnext : forall h1, host_ok h1 -> frame id h h1 -> forall x1 h2, start_each e enabled ids h1 = Returned (x1, h2) ->
    host_ok h2 /\ keeps_core h h2).
  { intros h1 Hh1 Hf1 x1 h2 E. apply IH in E as [Hh2 Hk2]; [|done|done|].
    - split; [done|]. eapply keeps_trans; [apply (frame_keeps id); [by eexists|done]|done].
    - intros y Hy. assert (y <> id) by (intros ->; done). rewrite (f_runtimes _ _ _ Hf1), (f_order _ _ _ Hf1) by done.
      apply Hids. by right. }
  destruct (negb _).
  - intros E. eapply Hnext; [| |exact E].
    + apply (idle_ok h id (mkRuntime m None None (mkStatus m false StateDisabled "")) h.(host_shared) Hh Hr eq_refl Hin).
      apply Hh.
    + constructor; [done|done|intros y Hy; cbn; by rewrite lookup_insert_ne|done].
  - destruct (loadLocked e id h) as [[err h1]|] eqn:El; [|done]. apply loadLocked_ok in El as [Hh1 Hf1]; [|done..].
    destruct (start_each e enabled ids h1) as [[errs h2]|] eqn:E2; [|done]. intros [= _ <-]. by eapply Hnext.
Qed.

Lemma empty_ok core (m : gmap string (@PluginFactory Cmd Value Prompt Ev W Env)) order :
  NoDup order -> host_ok (mkHost (newPluginCapabilityRegistry core) m ∅ order).
Proof.
  intros Ho. constructor.
  - constructor.
    + intros name en. cbn. rewrite lookup_fmap, fmap_Some. intros (v & _ & ->). by left.
    + intros name i (m0 & hk & E & _). cbn in E. by rewrite lookup_empty in E.
    + intros name i (m0 & hk & E & _). cbn in E. by rewrite lookup_empty in E.
  - intros id rt. cbn. by rewrite lookup_empty.
  - intros id1 id2 p1 p2 (rt & Hrt & _)%live_lookup. cbn [runtimes] in Hrt. by rewrite lookup_empty in Hrt.
  - split; [done|]. cbn. intros id [rt Hrt]. by rewrite lookup_empty in Hrt.
Qed.

Lemma NewPluginHost_ok e enabled core l x h :
  NewPluginHost e enabled core l = Returned (x, Some h) ->
  host_ok h /\ (forall name v, core !! name = Some v -> h.(factories) !! "core" = None ->
    h.(host_shared).(values) !! name = Some (mkEntry "core" v))
  /\ topological e h.(factories) h.(host_order).
Proof.
  unfold NewPluginHost. destruct (add_factories _ _ _) as [m|]; [|done].
  destruct (startAll _ _ _) as [[err h1]|] eqn:E; [|done]. intros [= <- <-]. unfold startAll in E.
  set (h0 := mkHost _ m ∅ []) in E. pose proof (dependencyOrder_spec e h0) as Hd. cbv zeta in Hd.
  assert (Hcore : forall ord h, keeps_core (mkHost (newPluginCapabilityRegistry core) m ∅ ord) h -> forall name v, core !! name = Some v -> h.(factories) !! "core" = None ->
    h.(host_shared).(values) !! name = Some (mkEntry "core" v)).
  { intros ord h2 (A & _ & C) name v Hv Hf. apply C; [|by rewrite <-A]. cbn. by rewrite lookup_fmap, Hv. }
  destruct (dependencyOrder e h0) as [st order|err1| |]; [| |done..].
  - destruct Hd as (Hnd & Hin & Htopo & _). apply start_each_ok in E as [Hh Hk].
    + split_and!; [done|by apply (Hcore order)|]. destruct Hk as (A & B & _). rewrite A, B. done.
    + by apply (empty_ok core m order).
    + done.
    + intros id Hid. split; [apply lookup_empty|exact Hid].
  - injection E as <- <-. split_and!; [by apply (empty_ok core m []); constructor|apply (Hcore []), keeps_refl|].
    intros i id d Hi. cbn in Hi. by rewrite lookup_nil in Hi.
Qed.

Lemma run_op_keeps op h x h' : host_ok h -> run_op op h = Returned (x, h') -> host_ok h' /\ keeps_core h h'.
Proof.
  intros Hh. destruct op as [e id|e id|e]; cbn.
  - intros [= E]. by eapply unloadLocked_keeps.
  - by apply Reload_keeps.
  - intros [= E]. by eapply close_all_keeps.
Qed.
Lemma host_reachable_ok core h : reachable core h ->
  host_ok h /\ (forall name v, core !! name = Some v -> h.(factories) !! "core" = None ->
    h.(host_shared).(values) !! name = Some (mkEntry "core" v))
  /\ exists e, topological e h.(factories) h.(host_order).
Proof.
  induction 1 as [e enabled l x h E|op h x h' Hr (Hh & Hc & e & Ht) E].
  - apply NewPluginHost_ok in E as (? & ? & ?). eauto.
  - apply run_op_keeps in E as [Hh' (A & B & C)]; [|done]. split_and!; [done| |exists e; by rewrite A, B].
    rewrite A. intros name v Hv Hf. apply C; [by apply Hc|done].
Qed.

(** ** Properties *)

(** C34: a host stays consistent through every loading, unloading, reloading and closing, whatever the
    modules do with their scopes while they register, and whatever they return, provided that a module
    uses its scope only while it registers (nothing stops one that keeps it:
    [closed_scopes_still_register]): the dependencies of a plugin that runs run;
    each capability belongs to the core or to a plugin that runs, and each hook handler to a plugin that
    runs; no two plugins that run have registered the same command, tool, memory or prompt provider. *)
Theorem plugins_stay_consistent core h :
  reachable core h ->
  (forall id rt d, h.(runtimes) !! id = Some rt -> is_running rt = true -> d ∈ dependency_ids rt.(rt_manifest) ->
     Running d h = true)
  /\ (forall name en, h.(host_shared).(values) !! name = Some en -> en.(entry_owner) = "core" \/ Running en.(entry_owner) h = true)
  /\ (forall name i, hooked h.(host_shared) name i -> exists id p, live h !! id = Some p /\ DisposeHook name i ∈ p.(scope_effects))
  /\ (forall id1 id2 p1 p2, live h !! id1 = Some p1 -> live h !! id2 = Some p2 -> id1 <> id2 -> apart p1 p2).
Proof.
  intros (Hh & _)%host_reachable_ok. split_and!.
  - intros id rt d Hrt Hr. by apply (r_dependencies _ _ _ (h_running _ Hh id rt Hrt Hr)).
  - intros name en Hl. destruct (a_values _ _ (h_shared _ Hh) name en Hl) as [|(p & Hp & _)]; [by left|right].
    apply Running_live; [done|]. by eexists.
  - apply (h_shared _ Hh).
  - apply (h_apart _ Hh).
Qed.

(** *** Closing *)

Lemma close_all_stops e ids h err h' e0 k :
  host_ok h -> (forall id f e1 e2, h.(factories) !! id = Some f -> manifest_from e1 f = manifest_from e2 f) ->
  topological e0 h.(factories) h.(host_order) -> ids = reverse (take k h.(host_order)) ->
  (forall id, Running id h = true -> id ∈ ids) ->
  close_all e ids h = (err, h') -> host_ok h' /\ forall id, Running id h' = false.
Proof.
  intros Hh Hconst Htopo. revert k h err h' Hh Hconst Htopo. induction ids as [|id ids IH]; intros k h err h' Hh Hconst Htopo Hids Hin; cbn [close_all].
  { intros [= _ <-]. split; [done|]. intros id. apply not_true_is_false. by intros ?%Hin%elem_of_nil. }
  assert (Hk : exists k', take k h.(host_order) = take k' h.(host_order) ++ [id] /\ h.(host_order) !! k' = Some id /\ ids = reverse (take k' h.(host_order))).
  { assert (Et : take k h.(host_order) = reverse ids ++ [id]) by (by rewrite <-(reverse_involutive (take k _)), <-Hids, reverse_cons).
    exists (length ids). assert (El : h.(host_order) = reverse ids ++ [id] ++ drop k h.(host_order)).
    { rewrite <-(take_drop k h.(host_order)) at 1. by rewrite Et, <-app_assoc. }
    assert (Et' : take (length ids) h.(host_order) = reverse ids).
    { rewrite El. apply take_app_length'. by rewrite length_reverse. }
    rewrite Et, Et', reverse_involutive. split_and!; [done| |done]. rewrite El, lookup_app_r by (by rewrite length_reverse).
    by rewrite length_reverse, Nat.sub_diag. }
  destruct Hk as (k' & _ & Hk' & Eids).
  destruct (Running id h) eqn:Er.
  - destruct (unloadLocked e id h) as [err1 h1] eqn:E1. destruct (close_all e ids h1) as [errs h2] eqn:E2. intros [= _ <-].
    destruct (unloadLocked_cases _ _ _ _ _ Hh E1) as [(_ & _ & [?|[other Hreq]])|(_ & _ & Hh1 & Hf & Hnot & _ & Hothers)]; [congruence| |].
    + exfalso. unfold required_by in Hreq. apply fmap_Some in Hreq as ([o rt] & Hfind & ->).
      apply find_first_Some in Hfind as [Hm Ht]. apply elem_of_map_to_list in Hm.
      rewrite !andb_true_iff, negb_true_iff, bool_decide_eq_false, bool_decide_eq_true in Ht. destruct Ht as [[Hne Hrun] Hdep].
      assert (Hro : Running o h = true) by (unfold Running; by rewrite Hm).
      apply Hin in Hro as Hino. apply elem_of_cons in Hino as [?|Hino]; [done|].
      rewrite Eids, elem_of_reverse in Hino. apply list_elem_of_lookup in Hino as [i Hi].
      apply lookup_take_Some in Hi as [Hi Hlt].
      destruct (r_factory _ _ _ (h_running _ Hh _ _ Hm Hrun)) as (f & e1 & Hfo & Hmo).
      destruct (Htopo i o id Hi) as (j & Hj & Ej); [exists f, (rt.(rt_manifest)); split_and!; [done| |done]; by rewrite (Hconst _ _ e0 e1 Hfo)|].
      assert (j = k') by (by eapply NoDup_lookup; [apply (h_order _ Hh)|..]). lia.
    + eapply (IH k' h1); try done.
      * rewrite (f_factories _ _ _ Hf). done.
      * by rewrite (f_factories _ _ _ Hf), (f_order _ _ _ Hf).
      * by rewrite (f_order _ _ _ Hf).
      * intros y Hy. assert (y <> id) by (intros ->; congruence). rewrite Hothers in Hy by done.
        apply Hin in Hy. by apply elem_of_cons in Hy as [?|?].
  - intros E. eapply (IH k' h); try done. intros y Hy. assert (y <> id) by (intros ->; congruence).
    apply Hin in Hy. by apply elem_of_cons in Hy as [?|?].
Qed.

Lemma running_scopes_none h : (forall id, Running id h = false) -> running_scopes h = [].
Proof.
  intros Hr. unfold running_scopes. induction (host_order h) as [|id ids IH]; [done|]. cbn [omap list_omap]. specialize (Hr id).
  unfold Running in Hr. destruct (runtimes h !! id) as [rt|]; cbn; [|done]. cbn in Hr. by rewrite Hr.
Qed.

(** closing a host stops everything: with modules that keep their dependencies from one instance
    to the next, no plugin runs after Close, even if some modules fail to stop and whatever was unloaded
    or reloaded before; no command, tool or prompt of a plugin is offered any more, no hook handler is
    left, and the only capabilities left are those of the core. *)
Theorem close_stops_everything core h e err h' :
  reachable core h ->
  (forall id f e1 e2, h.(factories) !! id = Some f -> manifest_from e1 f = manifest_from e2 f) ->
  CloseHost e h = (err, h') ->
  (forall id, Running id h' = false) /\ Commands h' = [] /\ Tools h' = [] /\ PromptSections (fun x => [x]) h' = []
  /\ (forall name i, ~ hooked h'.(host_shared) name i)
  /\ (forall name en, h'.(host_shared).(values) !! name = Some en -> en.(entry_owner) = "core").
Proof.
  intros (Hh & _ & e0 & Ht)%host_reachable_ok Hconst E.
  destruct (close_all_stops e (reverse h.(host_order)) h err h' e0 (length h.(host_order))) as [Hh' Hr]; try done.
  { by rewrite take_ge. }
  { intros id Hr. rewrite elem_of_reverse. apply (h_order _ Hh). unfold Running in Hr. destruct (runtimes h !! id); [by eexists|done]. }
  assert (Hnone : forall id, live h' !! id = None).
  { intros id. apply eq_None_not_Some. intros Hs%Running_live; [|done]. by rewrite Hr in Hs. }
  unfold Commands, Tools, PromptSections. rewrite running_scopes_none by done. split_and!; [done..| |].
  - intros name i Hk. destruct (a_hooks _ _ (h_shared _ Hh') name i Hk) as (id & p & Hp & _). by rewrite Hnone in Hp.
  - intros name en Hl. destruct (a_values _ _ (h_shared _ Hh') name en Hl) as [|(p & Hp & _)]; [done|]. by rewrite Hnone in Hp.
Qed.

(** *** Tools *)

Definition tool_items h : list (string * Tool W) := running_scopes h ≫= scope_tools.
Lemma elem_of_tool_items h nm tool :
  host_ok h -> (nm, tool) ∈ tool_items h <-> exists id p, live h !! id = Some p /\ (nm, tool) ∈ p.(scope_tools).
Proof.
  intros Hh. unfold tool_items, running_scopes. rewrite list_elem_of_bind. split.
  - intros (p & Hin & (id & Hid & Hp)%list_elem_of_omap). exists id, p. split; [|done]. apply live_lookup.
    destruct (runtimes h !! id) as [rt|]; [|done]. cbn in Hp. destruct (is_running rt) eqn:Er; [|done]. eauto.
  - intros (id & p & Hp & Hin). exists p. split; [done|]. apply list_elem_of_omap. exists id.
    apply live_lookup in Hp as (rt & Hrt & Hr & Hp). split; [apply (h_order _ Hh); by eexists|]. rewrite Hrt. cbn. by rewrite Hr.
Qed.

Lemma tool_items_NoDup h : host_ok h -> NoDup (tool_items h).*1.
Proof.
  intros Hh. unfold tool_items, running_scopes. pose proof (h_order _ Hh) as [Hnd _]. induction Hnd as [|id ids Hnin Hnd IH]; [constructor|].
  cbn [omap list_omap]. destruct (runtimes h !! id) as [rt|] eqn:Ert; [|exact IH]. cbn [mbind option_bind].
  destruct (is_running rt) eqn:Er; [|exact IH].
  destruct (r_scope _ _ _ (h_running _ Hh _ _ Ert Er)) as (p & lc & Ep & _ & _ & _ & (_ & D & _) & _). rewrite Ep.
  cbn [mbind list_bind]. rewrite fmap_app. apply NoDup_app. split; [done|]. split; [|exact IH].
  intros nm Hin ((nm' & tool) & -> & (q & Hq & (id' & Hid' & Hp')%list_elem_of_omap)%list_elem_of_bind)%list_elem_of_fmap.
  destruct (runtimes h !! id') as [rt'|] eqn:Ert'; [|done]. cbn in Hp'. destruct (is_running rt') eqn:Er'; [|done].
  assert (Hne : id <> id') by (intros ->; done).
  destruct (h_apart _ Hh id id' p q) as (_ & Hdis & _); [apply live_lookup; eauto..|done|].
  eapply Hdis; [exact Hin|]. apply list_elem_of_fmap. by exists (nm', tool).
Qed.

Lemma Tools_items h : Tools h = (tool_items h).*2.
Proof. unfold Tools, tool_items. induction (running_scopes h) as [|p l IH]; [done|]. cbn. by rewrite IH, fmap_app. Qed.

Lemma tool_items_ready h : host_ok h ->
  Forall (fun item => exists reg, prepareRegisteredTool (Some item.2) true = Ok reg /\ reg.(reg_spec).(Spec_Name) = item.1) (tool_items h).
Proof.
  intros Hh. apply Forall_forall. intros [nm tool] (id & p & Hp & Hin)%elem_of_tool_items; [|done].
  apply live_lookup in Hp as (rt & Hrt & Hr & Hctx).
  destruct (r_scope _ _ _ (h_running _ Hh _ _ Hrt Hr)) as (p' & lc & Ep & _ & _ & _ & _ & T). rewrite Hctx in Ep. injection Ep as <-.
  unfold tools_ready in T. rewrite Forall_forall in T. by apply T.
Qed.

Lemma provided_items (l : list (string * Tool W)) seen :
  Forall (fun item => exists reg, prepareRegisteredTool (Some item.2) true = Ok reg /\ reg.(reg_spec).(Spec_Name) = item.1) l ->
  NoDup l.*1 -> (forall x, x ∈ l.*1 -> x ∉ seen) -> provided_names seen (Some <$> l.*2) = Ok (reverse l.*1 ++ seen).
Proof.
  revert seen. induction l as [|[nm tool] l IH]; intros seen Hall Hnd Hseen; [done|]. cbn [fmap list_fmap provided_names fst snd].
  inversion Hall as [|? ? (reg & Ereg & Enm) Hall']; subst. cbn [fst snd] in Ereg, Enm. rewrite Ereg, Enm.
  cbn [fmap list_fmap fst] in Hnd, Hseen. apply NoDup_cons in Hnd as [Hnin Hnd].
  rewrite bool_decide_eq_false_2 by (apply Hseen; left). rewrite IH; [|done|done|].
  - rewrite reverse_cons, <-app_assoc. done.
  - intros x Hx [->|Hs]%elem_of_cons; [done|]. apply (Hseen x); [by right|done].
Qed.
Lemma find_items (l : list (string * Tool W)) nm :
  Forall (fun item => exists reg, prepareRegisteredTool (Some item.2) true = Ok reg /\ reg.(reg_spec).(Spec_Name) = item.1) l ->
  is_Some (find_provided nm (Some <$> l.*2)) <-> nm ∈ l.*1.
Proof.
  induction 1 as [|[k tool] l (reg & Ereg & Enm) _ IH]; cbn [fmap list_fmap find_provided fst snd].
  - split; [by intros [? ?]|by intros ?%elem_of_nil].
  - cbn [fst snd] in Ereg, Enm. rewrite Ereg, Enm, elem_of_cons. case_bool_decide; [subst; split; [by left|by eexists]|].
    rewrite IH. split; [by right|by intros [?|?]].
Qed.

(** the tools of the plugins are served as they are loaded and unloaded: at any moment the engine
    can install the host as the provider of tools (no plugin tool is malformed, or provided twice); through
    the registry, a call finds a tool exactly when a plugin that runs has registered it; so once a plugin
    is unloaded, even if its module fails to stop, a call of any of its tools finds nothing. *)
Theorem plugin_tools_are_served core h e id err h' :
  reachable core h ->
  let r := (SetDynamicProvider (Some tool_provider) h NewToolRegistry).2 in
  (SetDynamicProvider (Some tool_provider) h NewToolRegistry).1 = Ok tt
  /\ (forall nm, is_Some (registered h r nm) <-> exists id p tool, live h !! id = Some p /\ (nm, tool) ∈ p.(scope_tools))
  /\ (unloadLocked e id h = (err, h') -> Running id h' = false ->
      forall p nm tool, live h !! id = Some p -> (nm, tool) ∈ p.(scope_tools) -> registered h' r nm = None).
Proof.
  intros (Hh & _)%host_reachable_ok r.
  assert (Hset : SetDynamicProvider (Some tool_provider) h NewToolRegistry
            = (Ok tt, mkToolRegistry ∅ (Some tool_provider) : ToolRegistry PluginHost W)).
  { unfold SetDynamicProvider, tool_provider. rewrite Tools_items, provided_items;
      [|by apply tool_items_ready|by apply tool_items_NoDup|by intros x _ ?%elem_of_nil].
    destruct (find_first _ _) as [x|] eqn:E; [|done]. apply find_first_Some in E as [_ E%bool_decide_eq_true].
    cbn [tools NewToolRegistry] in E. rewrite lookup_empty in E. by destruct E. }
  assert (Hreg : forall h1 nm, host_ok h1 ->
    is_Some (registered h1 r nm) <-> exists id p tool, live h1 !! id = Some p /\ (nm, tool) ∈ p.(scope_tools)).
  { intros h1 nm Hh1. unfold r. rewrite Hset. unfold registered. cbn. rewrite lookup_empty. unfold tool_provider.
    rewrite Tools_items, find_items by (by apply tool_items_ready). rewrite list_elem_of_fmap. split.
    - intros ([nm' tool] & -> & (i & p & ? & ?)%elem_of_tool_items); [|done]. by exists i, p, tool.
    - intros (i & p & tool & ? & ?). exists (nm, tool). split; [done|]. apply elem_of_tool_items; [done|]. by exists i, p. }
  split_and!; [by rewrite Hset|by intros nm; apply Hreg|].
  intros Hu Hnot p nm tool Hp Hin. destruct (unloadLocked_cases _ _ _ _ _ Hh Hu) as [(-> & _ & _)|(_ & _ & Hh' & _ & _ & Hl & _)].
  { rewrite (proj2 (Running_live _ _ Hh)) in Hnot; [done|by eexists]. }
  apply eq_None_not_Some. intros (i & q & tool' & Hq & Hin')%Hreg; [|done]. rewrite Hl in Hq. apply lookup_delete_Some in Hq as [Hne Hq].
  destruct (h_apart _ Hh id i p q Hp Hq Hne) as (_ & Hdis & _).
  eapply (Hdis nm); [apply list_elem_of_fmap; by exists (nm, tool)|apply list_elem_of_fmap; by exists (nm, tool')].
Qed.

(** the capabilities of the core cannot be taken over or lost: as long as no plugin has the
    identifier "core", every capability the host was created with is there, with its value, after any
    loading, unloading, reloading and closing. *)
Theorem core_capabilities_stay core h name v :
  reachable core h -> h.(factories) !! "core" = None -> core !! name = Some v -> HostCapability name h = Some v.
Proof.
  intros (_ & Hc & _)%host_reachable_ok Hf Hv. unfold HostCapability, get. by rewrite (Hc name v Hv Hf).
Qed.

(** a plugin that keeps its scope can register after it was stopped: providing a capability through
    a closed scope is reported as an error and yet registers it, and registering a handler through one is
    reported as a success; nothing will remove either. *)
Theorem closed_scopes_still_register p g name v (hook : @PluginHook Ev) :
  p.(scope_closed) = true -> name ∈ p.(scope_manifest).(Manifest_Provides) -> get name g = None ->
  hasComponent PluginComponentHook p = true ->
  (exists g', ProvideCapability name (Some v) p g = (Err "plugin scope is closed", p, g') /\ get name g' = Some v)
  /\ (exists g' i, On name (Some hook) p g = (Ok tt, p, g') /\ hooked g' name i)
  /\ forall e, CloseScope e p g = (None, p, g).
Proof.
  intros Hc Hn Hg Hk. split_and!.
  - unfold ProvideCapability, provide. rewrite bool_decide_eq_true_2 by done. unfold get in Hg. apply fmap_None in Hg.
    rewrite Hg. unfold Effect. rewrite Hc. eexists. split; [reflexivity|]. unfold get. cbn. by rewrite lookup_insert_eq.
  - unfold On. rewrite Hk. pose proof (hooked_on name hook g) as Hon. destruct (on name hook g) as [i g1]. cbn in Hon.
    unfold Effect. rewrite Hc. exists g1, (g.(nextID) + 1). split; [done|]. apply Hon. by right.
  - intros e. unfold CloseScope. by rewrite Hc.
Qed.

(** a factory that returns nil brings the process down: loadLocked means to record the failure of
    the plugin, but recording it asks nil for its manifest. *)
Theorem nil_module_panics e id h (f : @PluginFactory Cmd Value Prompt Ev W Env) :
  h.(factories) !! id = Some f -> f e = None -> loadLocked e id h = HostPanics.
Proof.
  intros Hf He. unfold loadLocked, recordFailure, manifest_from. cbv zeta. unfold FairyPlugins.PluginFactory in *. rewrite Hf. cbn [fmap option_fmap option_map]. by rewrite He.
Qed.
End host.

(** ** At work *)

(** two plugins: one provides a capability, a tool and a handler, and cannot stop properly; the other depends on it *)
Section demo.
Notation Module := (@PluginModule unit nat string nat nat unit).
Notation Factory := (@PluginFactory unit nat string nat nat unit).
Notation Program := (@registration unit nat string nat nat unit).
Definition demo_manifest (id : string) (components requires provides : list string) (dependencies : list PluginDependency) :=
  mkManifest id id "1.2.0" "" 1 components requires provides dependencies "" true true.
Definition facts_module : Module := mkModule
  (demo_manifest "facts" [PluginComponentTool; PluginComponentHook] [] ["fact_store"] [])
  (CallProvide "fact_store" (Some 5%nat) (fun _ => CallTool "lookup" (Some demo_tool) (fun _ =>
     CallOn "turn" (Some (fun n => (S n, HookOk))) (fun _ => Return None))) : Program)
  (Some (mkLifecycle (fun _ => None) (fun _ => Some "the store does not close"))).
Definition news_module : Module := mkModule
  (demo_manifest "news" [PluginComponentCommand] ["fact_store"] [] [mkDependency "facts" "1.1"])
  (CallCapability "fact_store" (fun store =>
     match store with
     | Some _ => CallCommand "news" (Some tt) (fun _ => Return None)
     | None => Return (Some "there is no store of facts")
     end) : Program) None.
Definition demo_core : gmap string nat := {["clock" := 7%nat]}.
Definition demo_factories : list (option Factory) := [Some (fun _ => Some news_module); Some (fun _ => Some facts_module)].
End demo.
Notation demo_new := (NewPluginHost (H := demo_runtime) (Ev := nat) tt ∅ demo_core demo_factories).
Notation with_host P := (match demo_new with Returned (_, Some h) => P h | _ => False end).

Example demo_host_runs : with_host (fun h =>
  h.(host_order) = ["facts"; "news"] /\ HostCapability "fact_store" h = Some 5%nat /\ Emit "turn" 3%nat h = (4%nat, None)
  /\ (let '(err, h) := unloadLocked tt "facts" h in err = Some "Fairy plugin facts is required by news")
  /\ let '(err, h) := CloseHost tt h in err = Some "the store does not close" /\ HostCapability "fact_store" h = None
     /\ Emit "turn" 3%nat h = (3%nat, None)).
Proof. vm_compute. done. Qed.

Notation demo_reachable := (reachable (H := demo_runtime) (Cmd := unit) (Prompt := string) (Ev := nat) (W := nat) (Env := unit) demo_core).

Lemma demo_runs : with_host (fun h => forallb (fun id => Running id h) ["facts"; "news"]
  && bool_decide (h.(factories) !! "core" = None) 
  && from_option (fun rt => is_running rt && bool_decide ("facts" ∈ dependency_ids rt.(rt_manifest))) false (h.(runtimes) !! "news") = true).
Proof. vm_compute. reflexivity. Qed.

Lemma plugins_stay_consistent_witness : with_host (fun h =>
  demo_reachable h /\ Running "facts" h = true /\ forall name i, hooked h.(host_shared) name i -> exists id, is_Some (live h !! id)).
Proof.
  pose proof demo_runs as Hruns. destruct demo_new as [[x [h|]]|] eqn:E; [|destruct Hruns..].
  assert (Hh : demo_reachable h) by (eapply reach_new; exact E).
  destruct (plugins_stay_consistent _ _ Hh) as (Hd & _ & Hk & _). split; [exact Hh|]. split.
  - apply andb_true_iff in Hruns as [_ Hrt]. destruct (runtimes h !! "news") as [rt|] eqn:Ert; [|discriminate Hrt].
    cbn [from_option] in Hrt. apply andb_true_iff in Hrt as [Hr Hdep]. exact (Hd "news" rt "facts" Ert Hr (bool_decide_eq_true_1 _ Hdep)).
  - intros name i Hi. destruct (Hk name i Hi) as (id & p & Hp & _). exists id. exists p. exact Hp.
Defined.

Lemma demo_constant e1 e2 : with_host (fun h =>
  forall id f, h.(factories) !! id = Some f -> manifest_from e1 f = manifest_from e2 f).
Proof. destruct e1, e2. destruct demo_new as [[x [h|]]|] eqn:E; [done| |]; pose proof demo_runs as Hruns; rewrite E in Hruns; exact Hruns. Qed.

Lemma close_stops_everything_witness : with_host (fun h =>
  Running "facts" h = true /\ Running "facts" (CloseHost tt h).2 = false /\ Tools (CloseHost tt h).2 = []).
Proof.
  pose proof demo_runs as Hruns. pose proof (demo_constant tt tt) as Hconst. destruct demo_new as [[x [h|]]|] eqn:E; [|destruct Hruns..].
  assert (Hh : demo_reachable h) by (eapply reach_new; exact E).
  destruct (CloseHost tt h) as [err h'] eqn:Ec.
  destruct (close_stops_everything _ _ tt err h' Hh) as (Hr & _ & Ht & _);
    [intros id f [] []; exact (Hconst id f)|exact Ec|].
  split; [|split; [exact (Hr "facts")|exact Ht]].
  apply andb_true_iff in Hruns as [Hruns _]. apply andb_true_iff in Hruns as [Hruns _]. apply andb_true_iff in Hruns as [Hruns _]. exact Hruns.
Defined.

Notation demo_provided h := (SetDynamicProvider (H := demo_runtime) (Some tool_provider) h NewToolRegistry).
Lemma plugin_tools_are_served_witness : with_host (fun h =>
  (demo_provided h).1 = Ok tt
  /\ forall nm, is_Some (registered (H := demo_runtime) h (demo_provided h).2 nm) <-> exists id p tool, live h !! id = Some p /\ (nm, tool) ∈ p.(scope_tools)).
Proof.
  pose proof demo_runs as Hruns. destruct demo_new as [[x [h|]]|] eqn:E; [|destruct Hruns..].
  assert (Hh : demo_reachable h) by (eapply reach_new; exact E).
  destruct (unloadLocked tt "facts" h) as [err h'] eqn:Eu.
  destruct (plugin_tools_are_served _ h tt "facts" err h' Hh) as (A & B & _). exact (conj A B).
Defined.

Lemma core_capabilities_stay_witness : with_host (fun h => HostCapability "clock" h = Some 7%nat).
Proof.
  pose proof demo_runs as Hruns. destruct demo_new as [[x [h|]]|] eqn:E; [|destruct Hruns..].
  assert (Hh : demo_reachable h) by (eapply reach_new; exact E).
  apply andb_true_iff in Hruns as [Hruns _]. apply andb_true_iff in Hruns as [_ Hcore]. apply bool_decide_eq_true_1 in Hcore.
  exact (core_capabilities_stay _ h "clock" 7%nat Hh Hcore eq_refl).
Defined.

Notation closed_facts := ((new_scope facts_module.(module_Manifest) : @PluginContext unit nat string nat unit) <| scope_closed := true |>).
Notation no_values := (newPluginCapabilityRegistry (Ev := nat) (∅ : gmap string nat)).
Lemma closed_scopes_still_register_witness :
  (exists g', ProvideCapability "fact_store" (Some 5%nat) closed_facts no_values = (Err "plugin scope is closed", closed_facts, g')
     /\ get "fact_store" g' = Some 5%nat)
  /\ forall e, CloseScope e closed_facts no_values = (None, closed_facts, no_values).
Proof.
  destruct (closed_scopes_still_register closed_facts no_values "fact_store" 5%nat (fun n => (n, HookOk))) as (A & _ & B);
    [vm_compute; reflexivity|apply list_elem_of_singleton; reflexivity|vm_compute; reflexivity..|exact (conj A B)].
Defined.

(** a host whose only factory returned nil the second time *)
Notation absent := ((fun _ => None) : @PluginFactory unit nat string nat nat unit).
Notation absent_host := (mkHost no_values {["facts" := absent]} ∅ ["facts"]).
Lemma nil_module_panics_witness : loadLocked (H := demo_runtime) tt "facts" absent_host = HostPanics.
Proof. exact (nil_module_panics tt "facts" absent_host absent eq_refl eq_refl). Defined.

(** ** A plugin named "core" *)

(** it may provide, and so replace, a capability of the core, which is lost when it is unloaded *)
Definition core_module : @PluginModule unit nat string nat nat unit := mkModule
  (demo_manifest "core" [PluginComponentService] [] ["clock"] [])
  (CallProvide "clock" (Some 0%nat) (fun _ => Return None)) None.
Notation core_new := (NewPluginHost (H := demo_runtime) (Ev := nat) tt ∅ demo_core [Some (fun _ => Some core_module)]).

(** the identifier "core" is a valid one for a plugin, and the registry of capabilities marks what
    belongs to the core with the same word: a plugin with this identifier may replace a capability of the
    core, and when it is unloaded the capability is gone. *)
Theorem plugin_named_core_takes_over :
  demo_core !! "clock" = Some 7%nat
  /\ match core_new with
     | Returned (err, Some h) =>
         err = None /\ HostCapability "clock" h = Some 0%nat
         /\ (unloadLocked tt "core" h).1 = None /\ HostCapability "clock" (unloadLocked tt "core" h).2 = None
     | _ => False
     end.
Proof. vm_compute. done. Qed.
