(* ===== verification/FairyModel.v ===== *)
(** * Requests to language models (fairy/model.go)

    What is sent to a model and what is accepted of its answer: requests, tool calls,
    failures and their classes, delays, usage and cost.  The attempts of a provider are in
    [FairyModelAttempt], the choice of the model in [FairyModelRouter]. *)
From S2P Require Import Prelude GoLib Types FairyTypes FairyTrace JsonText FairySchema.
From stdpp Require Import gmap strings list.
From Stdlib Require Import ZArith.

Local Open Scope Z_scope.
Local Open Scope go_scope.

Definition maxModelResponseBytes : Z := 2 * 1024 * 1024.
Definition maxModelMessages : Z := 128.
Definition maxModelMessageBytes : Z := 256 * 1024.
Definition maxModelTools : Z := 32.
Definition maxModelToolCalls : Z := 6.
Definition maxModelToolArguments : Z := 32 * 1024.
Definition modelToolFunctionType := "function".
Definition modelResponseJSONType := "json_object".
Definition maxMediaImageBytes : Z := 8 * 1024 * 1024.
Definition maxMediaImageTotal : Z := 20 * 1024 * 1024.
Definition maxMediaAudioBytes : Z := 10 * 1024 * 1024.

Record ModelBinaryInput := mkBinary { Binary_MIMEType : string; Binary_Name : string; Binary_Data : string }.
Record ModelToolDefinition := mkDefinition {
  Definition_Name : string; Definition_Description : string; Definition_Parameters : string }.
Record ModelRequest := mkModelRequest {
  Request_TaskID : string; Request_Messages : list ChatMessage; Request_Images : list ModelBinaryInput;
  Request_Tools : list ModelToolDefinition; Request_RequireJSON : bool; Request_Repair : bool;
  Request_Step : Z; Request_PromptVersion : string; Request_PromptDigest : string }.
#[export] Instance eta_ModelRequest : Eta ModelRequest := fun r => mkModelRequest
  r.(Request_TaskID) r.(Request_Messages) r.(Request_Images) r.(Request_Tools) r.(Request_RequireJSON)
  r.(Request_Repair) r.(Request_Step) r.(Request_PromptVersion) r.(Request_PromptDigest).

Record ModelReasoningBlock := mkReasoning {
  Reasoning_Text : string; Reasoning_Signature : string; Reasoning_Redacted : bool }.
Record ModelResponse := mkModelResponse {
  Response_Text : string; Response_ToolCalls : list ModelToolCall; Response_Reasoning : list ModelReasoningBlock }.
Record ModelUsage := mkUsage { InputTokens : Z; OutputTokens : Z }.
Record modelCompletion := mkCompletion { completion_Response : ModelResponse; completion_Usage : ModelUsage }.

(** ** Failures *)

Definition ModelFailureCancelled := "cancelled".
Definition ModelFailureDeadline := "deadline_exceeded".
Definition ModelFailureNetwork := "network_error".
Definition ModelFailureRateLimited := "rate_limited".
Definition ModelFailureServer := "provider_server_error".
Definition ModelFailureAuthentication := "authentication_error".
Definition ModelFailureInvalidRequest := "invalid_request".
Definition ModelFailureContentRejected := "content_rejected".
Definition ModelFailureInvalidResponse := "invalid_response".

(** without the cause, which no text shows *)
Record ModelFailure := mkModelFailure {
  ModelFailure_Code : string; ModelFailure_ProviderID : string; ModelFailure_ModelID : string;
  ModelFailure_TaskID : string; ModelFailure_HTTPStatus : Z; ModelFailure_Attempt : Z;
  ModelFailure_Retryable : bool; ModelFailure_FallbackAllowed : bool }.
#[export] Instance eta_ModelFailure : Eta ModelFailure := fun r => mkModelFailure
  r.(ModelFailure_Code) r.(ModelFailure_ProviderID) r.(ModelFailure_ModelID) r.(ModelFailure_TaskID)
  r.(ModelFailure_HTTPStatus) r.(ModelFailure_Attempt) r.(ModelFailure_Retryable) r.(ModelFailure_FallbackAllowed).
#[export] Instance ModelFailure_eq_dec : EqDecision ModelFailure.
Proof. solve_decision. Defined.

(** the literals &ModelFailure{Code: code, Retryable: .., FallbackAllowed: ..} *)
Definition model_failure (code : string) (retryable fallback : bool) : ModelFailure :=
  mkModelFailure code "" "" "" 0 0 retryable fallback.
Definition invalid_request : ModelFailure := model_failure ModelFailureInvalidRequest false false.
Definition invalid_response : ModelFailure := model_failure ModelFailureInvalidResponse false true.

Definition StatusUnauthorized : Z := 401.
Definition StatusForbidden : Z := 403.
Definition StatusRequestTimeout : Z := 408.
Definition StatusTooManyRequests : Z := 429.

Definition classifyModelHTTPFailure `{Runtime} (status : Z) (body : string) : ModelFailure :=
  let bodyText := to_lower body in
  let classified code passing := (model_failure code passing passing) <| ModelFailure_HTTPStatus := status |> in
  if Contains bodyText "content_policy" || Contains bodyText "content_filter" || Contains bodyText "content moderation"
  then classified ModelFailureContentRejected false
  else if (status =? StatusUnauthorized) || (status =? StatusForbidden) then classified ModelFailureAuthentication false
  else if status =? StatusTooManyRequests then classified ModelFailureRateLimited true
  else if status =? StatusRequestTimeout then classified ModelFailureDeadline true
  else if 500 <=? status then classified ModelFailureServer true
  else classified ModelFailureInvalidRequest false.

(** ** Requests *)

Definition allowedImageMIME : string -> bool := one_of ["image/jpeg"; "image/png"; "image/gif"; "image/webp"].
Definition allowedAudioMIME : string -> bool :=
  one_of ["audio/webm"; "audio/ogg"; "audio/mpeg"; "audio/mp4"; "audio/wav"; "audio/x-wav"].

Definition validModelToolCallID (value : string) : bool :=
  if bool_decide (value = "") || (128 <? slen value) then false
  else forallb (fun c => (0x21 <=? c) && (c <=? 0x7E)) (runes value).

(** json.Valid *)
Definition json_valid (text : string) : bool := bool_decide (is_Some (parse_text text)).
Definition blank (text : string) : bool := bool_decide (TrimSpace text = "").

Section requests.
Context `{Runtime}.

(** json.Unmarshal into a map, which is not nil *)
Definition json_object (text : string) : bool := match json_unmarshal text with Some (JObj _) => true | _ => false end.

Fixpoint check_calls (seen : list string) (calls : list ModelToolCall) : result unit :=
  match calls with
  | [] => Ok tt
  | call :: rest =>
      let arguments := call.(ModelToolCall_Arguments) in
      if negb (validModelToolCallID call.(ModelToolCall_ID))
         || negb (bool_decide (call.(ModelToolCall_Type) = modelToolFunctionType))
         || negb (validTraceLabel call.(ModelToolCall_Name)) || bool_decide (arguments = "")
         || (maxModelToolArguments <? slen arguments) || negb (json_valid arguments)
      then Err "Fairy model returned an invalid tool call"
      else if negb (json_object arguments) then Err "Fairy model tool arguments must be a JSON object"
      else if bool_decide (call.(ModelToolCall_ID) ∈ seen) then Err "Fairy model repeated a tool call ID"
      else check_calls (call.(ModelToolCall_ID) :: seen) rest
  end.
Definition validateModelToolCalls (calls : list ModelToolCall) : result unit :=
  if maxModelToolCalls <? Z.of_nat (length calls) then Err "Fairy model returned too many tool calls"
  else check_calls [] calls.

Definition validateModelResponse (text : string) (calls : list ModelToolCall) (requireJSON : bool) : result unit :=
  if blank text && bool_decide (calls = []) then Err "Fairy model returned no content"
  else if requireJSON && bool_decide (calls = []) && negb (json_valid text)
  then Err "Fairy model returned invalid structured JSON"
  else validateModelToolCalls calls.

Definition check_message (message : ChatMessage) : result unit :=
  let role := message.(ChatMessage_Role) in
  let no_calls := bool_decide (message.(ChatMessage_ToolCalls) = []) in
  let no_id := bool_decide (message.(ChatMessage_ToolCallID) = "") in
  if one_of ["system"; "user"] role then
    if blank message.(ChatMessage_Content) || negb no_id || negb no_calls
    then Err ("invalid Fairy " +:+ role +:+ " model message") else Ok tt
  else if bool_decide (role = "assistant") then
    if (blank message.(ChatMessage_Content) && no_calls) || negb no_id then Err "invalid Fairy assistant model message"
    else validateModelToolCalls message.(ChatMessage_ToolCalls)
  else if bool_decide (role = "tool") then
    if blank message.(ChatMessage_Content) || negb (validModelToolCallID message.(ChatMessage_ToolCallID)) || negb no_calls
    then Err "invalid Fairy tool model message" else Ok tt
  else Err "invalid Fairy model message role".
Fixpoint check_messages (messages : list ChatMessage) : result unit :=
  match messages with
  | [] => Ok tt
  | message :: rest => match check_message message with Ok _ => check_messages rest | err => err end
  end.

Definition call_bytes (call : ModelToolCall) : Z :=
  slen call.(ModelToolCall_ID) + slen call.(ModelToolCall_Type) + slen call.(ModelToolCall_Name)
  + slen call.(ModelToolCall_Arguments).
Definition sum_of {A} (size : A -> Z) (l : list A) : Z := foldl (fun n x => n + size x) 0 l.
Definition message_bytes (message : ChatMessage) : Z :=
  slen message.(ChatMessage_Content) + slen message.(ChatMessage_ToolCallID)
  + sum_of call_bytes message.(ChatMessage_ToolCalls).
Definition definition_bytes (tool : ModelToolDefinition) : Z :=
  slen tool.(Definition_Name) + slen tool.(Definition_Description) + slen tool.(Definition_Parameters).

Fixpoint check_definitions (seen : list string) (tools : list ModelToolDefinition) : result unit :=
  match tools with
  | [] => Ok tt
  | tool :: rest =>
      let name := tool.(Definition_Name) in
      if negb (validTraceLabel name) || blank tool.(Definition_Description) || (2000 <? slen tool.(Definition_Description))
         || bool_decide (tool.(Definition_Parameters) = "") || (maxModelToolArguments <? slen tool.(Definition_Parameters))
         || negb (json_valid tool.(Definition_Parameters))
      then Err "invalid Fairy model tool definition"
      else if bool_decide (name ∈ seen) then Err "duplicate Fairy model tool definition"
      else check_definitions (name :: seen) rest
  end.

Definition check_images (request : ModelRequest) : result unit :=
  let images := request.(Request_Images) in
  if bool_decide (images = []) then Ok tt
  else if negb (bool_decide (request.(Request_TaskID) = VisionTaskID)) || (maxMediaImages <? Z.of_nat (length images))
          || negb (bool_decide (request.(Request_Tools) = [])) || request.(Request_RequireJSON)
  then Err "invalid Fairy vision request"
  else if negb (existsb (fun m => bool_decide (m.(ChatMessage_Role) = "user")) request.(Request_Messages))
  then Err "Fairy vision request requires a user message"
  else if existsb (fun i => negb (allowedImageMIME i.(Binary_MIMEType)) || bool_decide (i.(Binary_Data) = "")
                            || (maxMediaImageBytes <? slen i.(Binary_Data))) images
  then Err "invalid Fairy vision image"
  else if maxMediaImageTotal <? sum_of (fun i => slen i.(Binary_Data)) images then Err "Fairy vision images are too large"
  else Ok tt.

Definition validateModelRequest (request : ModelRequest) : result unit :=
  let task := request.(Request_TaskID) in
  let step := request.(Request_Step) in
  let version := request.(Request_PromptVersion) in
  let digest := request.(Request_PromptDigest) in
  let total := sum_of message_bytes request.(Request_Messages) in
  if negb (validTraceLabel task) || (step <? 0) || (64 <? step) then Err "invalid Fairy model request metadata"
  else if request.(Request_Repair)
          && (negb (bool_decide (task = PlannerTaskID) && request.(Request_RequireJSON)
                    || bool_decide (task = ReplyerTaskID) && negb request.(Request_RequireJSON))
              || (step <? 1) || (maxPlannerSteps <? step))
  then Err "invalid Fairy model repair metadata"
  else if bool_decide (request.(Request_Messages) = []) || (maxModelMessages <? Z.of_nat (length request.(Request_Messages)))
          || (maxModelTools <? Z.of_nat (length request.(Request_Tools)))
  then Err "Fairy model request exceeds message or tool limits"
  else match check_images request with
  | Err e => Err e
  | Ok _ =>
      if negb (Bool.eqb (bool_decide (version = "")) (bool_decide (digest = "")))
         || negb (bool_decide (version = "")) && (negb (validTraceLabel version) || negb (validPromptDigest digest))
      then Err "invalid Fairy prompt trace metadata"
      else match check_messages request.(Request_Messages) with
           | Err e => Err e
           | Ok _ =>
               if maxModelMessageBytes <? total then Err "Fairy model message content is too large"
               else match check_definitions [] request.(Request_Tools) with
                    | Err e => Err e
                    | Ok _ =>
                        if maxModelMessageBytes <? total + sum_of definition_bytes request.(Request_Tools)
                        then Err "Fairy model request is too large" else Ok tt
                    end
           end
  end.

Definition validateTranscriptionInput (audio : ModelBinaryInput) : result unit :=
  if negb (allowedAudioMIME audio.(Binary_MIMEType)) || bool_decide (audio.(Binary_Data) = "")
     || (maxMediaAudioBytes <? slen audio.(Binary_Data)) || (255 <? slen audio.(Binary_Name))
     || existsb (fun b => existsb (Z.eqb b) [13; 10; 0; 47; 92]) (bytes audio.(Binary_Name))
  then Err "invalid Fairy transcription audio" else Ok tt.
End requests.

(** ** Delays and costs *)

Fixpoint double_delay (n : nat) (delay : Z) : Z :=
  match n with
  | O => delay
  | S n => if delay <? 5 * second then double_delay n (wrap64 (delay * 2)) else delay
  end.
Definition retryDelay (base retryIndex : Z) : Z := Z.min (double_delay (Z.to_nat retryIndex) base) (5 * second).

Definition validUsageTokens (value : Z) : Z := if (value <? 0) || (1000000000 <? value) then 0 else value.
Definition tokenCostMicroUSD (tokens pricePerMillion : Z) : Z :=
  if (tokens <=? 0) || (pricePerMillion <=? 0) then 0
  else wrap64 (wrap64 (Z.quot tokens 1000000 * pricePerMillion)
               + Z.quot (wrap64 (Z.rem tokens 1000000 * pricePerMillion)) 1000000).
