(* ===== verification/FairyModelAttempt.v ===== *)
(** * One attempt of a model provider (fairy/model.go, fairy/model_anthropic.go)

    The documents that are posted to the two kinds of providers, the answers that are
    accepted, and how everything else is classified.  A document is a JSON value: of what
    json.Marshal writes, the values count.  Contexts, the HTTP client and the clock are the
    class [ModelWorld]. *)
From S2P Require Import Prelude GoLib Types FairyTypes FairyTrace JsonText FairySchema FairyTools FairyModel.
From stdpp Require Import gmap strings list.
From Stdlib Require Import ZArith.

Local Open Scope Z_scope.
Local Open Scope go_scope.

Definition OpenAICompatibleProtocol := "openai-compatible".
Definition AnthropicCompatibleProtocol := "anthropic-compatible".
Definition anthropicVersion := "2023-06-01".

Record ProviderSnapshot := mkProvider {
  Provider_ID : string; Provider_Protocol : string; Provider_BaseURL : string; Provider_APIKey : string;
  Provider_Timeout : Z; Provider_MaxRetries : Z; Provider_RetryBackoff : Z }.
Record ModelSnapshot := mkModelSnapshot {
  Model_ID : string; Model_ProviderID : string; Model_RemoteName : string; Model_ContextWindow : Z;
  Model_InputPrice : Z; Model_OutputPrice : Z }.
Record TaskSnapshot := mkTask {
  Task_ID : string; Task_Strategy : string; Task_CandidateModels : list string; Task_MaxOutputTokens : Z;
  Task_Timeout : Z; Task_DailyLimit : Z }.
(** the zero values, which Go finds in a map for an absent key *)
Definition zero_provider : ProviderSnapshot := mkProvider "" "" "" "" 0 0 0.
Definition zero_model : ModelSnapshot := mkModelSnapshot "" "" "" 0 0 0.

Definition modelCostMicroUSD (model : ModelSnapshot) (usage : ModelUsage) : Z :=
  wrap64 (tokenCostMicroUSD usage.(InputTokens) model.(Model_InputPrice)
          + tokenCostMicroUSD usage.(OutputTokens) model.(Model_OutputPrice)).

(** ** The world *)

#[export] Instance ctx_error_eq_dec : EqDecision ctx_error.
Proof. solve_decision. Defined.

Inductive http_body :=
| JSONBody (document : jtext)
(** a multipart form: the file and the fields *)
| FormBody (file : ModelBinaryInput) (fields : list (string * string)).
Record http_request := mkHTTPRequest {
  http_URL : string; http_headers : list (string * string); http_body_of : http_body; http_timeout : Z }.
(** the request is malformed; Do fails, by a timeout or not, by a deadline or not; the
    body cannot be read; or an answer *)
Inductive http_outcome :=
| NoRequest | DoFailed (timed_out deadline : bool) | ReadFailed | Answered (status : Z) (body : string).

Class ModelWorld (Ctx W : Type) := {
  ctx_err : Ctx -> W -> option ctx_error;
  ctx_turn : Ctx -> option TurnTraceScope;
  with_timeout : Ctx -> Z -> W -> Ctx;
  with_timeout_turn : forall c d w, ctx_turn (with_timeout c d w) = ctx_turn c;
  http_do : Ctx -> http_request -> W -> http_outcome * W;
  (** waitForModelRetry's select: the context's error, or the timer *)
  wait_for : Ctx -> Z -> W -> option ctx_error * W;
  int63n : Z -> W -> Z * W;
  int63n_range : forall n w, 0 < n -> 0 <= (int63n n w).1 < n;
  now : W -> time * W;
  draw_id : W -> option string * W;
  trace_faults : W -> faults * W
}.

(** base64.StdEncoding *)
Definition base64_character (z : Z) : Z :=
  if z <? 26 then 65 + z else if z <? 52 then 71 + z else if z <? 62 then z - 4 else if z =? 62 then 43 else 47.
Fixpoint base64_bytes (l : list Z) : list Z :=
  match l with
  | a :: b :: c :: rest =>
      (base64_character <$> [a / 4; a mod 4 * 16 + b / 16; b mod 16 * 4 + c / 64; c mod 64]) ++ base64_bytes rest
  | [a; b] => (base64_character <$> [a / 4; a mod 4 * 16 + b / 16; b mod 16 * 4]) ++ [61]
  | [a] => (base64_character <$> [a / 4; a mod 4 * 16]) ++ [61; 61]
  | [] => []
  end.
Definition base64_std (s : string) : string := of_bytes (base64_bytes (bytes s)).

(** ** Documents *)

Definition tint (z : Z) : jtext := TNumber (sprint_d z).
(** a field with omitempty *)
Definition text_field (name value : string) : list (string * jtext) :=
  if bool_decide (value = "") then [] else [(name, TString value)].
Definition list_field (name : string) (l : list jtext) : list (string * jtext) :=
  if bool_decide (length l = 0%nat) then [] else [(name, TArray l)].

Definition call_document (call : ModelToolCall) : jtext :=
  TObject [("id", TString call.(ModelToolCall_ID)); ("type", TString call.(ModelToolCall_Type));
           ("function", TObject [("name", TString call.(ModelToolCall_Name));
                                 ("arguments", TString call.(ModelToolCall_Arguments))])].
(** a ChatMessage, with its tags *)
Definition message_document (m : ChatMessage) : jtext :=
  TObject ([("role", TString m.(ChatMessage_Role))] ++ text_field "content" m.(ChatMessage_Content)
    ++ text_field "tool_call_id" m.(ChatMessage_ToolCallID)
    ++ list_field "tool_calls" (call_document <$> m.(ChatMessage_ToolCalls))).
Definition image_document (image : ModelBinaryInput) : jtext :=
  TObject [("type", TString "image_url");
           ("image_url", TObject [("url", TString ("data:" +:+ image.(Binary_MIMEType) +:+ ";base64," +:+ base64_std image.(Binary_Data)))])].

(** the last message of the user, if there is one *)
Fixpoint lastUser (index : nat) (messages : list ChatMessage) : option nat :=
  match messages with
  | [] => None
  | m :: rest =>
      match lastUser (S index) rest with
      | Some i => Some i
      | None => if bool_decide (m.(ChatMessage_Role) = "user") then Some index else None
      end
  end.

Definition modelMessagePayload (request : ModelRequest) : list jtext :=
  let images := request.(Request_Images) in
  if bool_decide (length images = 0%nat) then message_document <$> request.(Request_Messages)
  else imap (fun index m =>
         if bool_decide (Some index = lastUser 0 request.(Request_Messages))
         then TObject [("role", TString m.(ChatMessage_Role));
                ("content", TArray (TObject [("type", TString "text"); ("text", TString m.(ChatMessage_Content))]
                                    :: (image_document <$> images)))]
         else message_document m) request.(Request_Messages).

(** a RawMessage in a document: json.Marshal refuses what is not JSON; a nil one is null *)
Definition raw (text : string) : option jtext := if bool_decide (text = "") then Some TNull else parse_text text.

Definition tool_document (tool : ModelToolDefinition) : option jtext :=
  parameters ← raw tool.(Definition_Parameters);
  Some (TObject [("type", TString modelToolFunctionType);
    ("function", TObject [("name", TString tool.(Definition_Name)); ("description", TString tool.(Definition_Description));
                          ("parameters", parameters)])]).

(** the map of completeOpenAICompatibleAttempt; [None] is the error of json.Marshal *)
Definition openai_document (model : ModelSnapshot) (task : TaskSnapshot) (request : ModelRequest) : option jtext :=
  tools ← mapM tool_document request.(Request_Tools);
  Some (TObject (
    [("model", TString model.(Model_RemoteName)); ("messages", TArray (modelMessagePayload request));
     ("max_tokens", tint task.(Task_MaxOutputTokens)); ("temperature", TNumber "0.7")]
    ++ (if bool_decide (request.(Request_Tools) = []) then []
        else [("tools", TArray tools); ("tool_choice", TString "auto")])
    ++ (if request.(Request_RequireJSON)
        then [("response_format", TObject [("type", TString modelResponseJSONType)])] else []))).

(** *** Anthropic *)

Record anthropicContentBlock := mkBlock {
  Block_Type : string; Block_Text : string; Block_ID : string; Block_Name : string; Block_Input : string;
  Block_ToolUseID : string; Block_Content : string; Block_Thinking : string; Block_Signature : string;
  Block_Data : string; Block_Source : option (string * string) }.
#[export] Instance eta_anthropicContentBlock : Eta anthropicContentBlock := fun r => mkBlock
  r.(Block_Type) r.(Block_Text) r.(Block_ID) r.(Block_Name) r.(Block_Input) r.(Block_ToolUseID) r.(Block_Content)
  r.(Block_Thinking) r.(Block_Signature) r.(Block_Data) r.(Block_Source).
Definition block (type : string) : anthropicContentBlock := mkBlock type "" "" "" "" "" "" "" "" "" None.
Record anthropicMessage := mkAnthropicMessage { Anthropic_Role : string; Anthropic_Content : list anthropicContentBlock }.

Section anthropic.
Context `{Runtime}.

(** the arguments are decoded into a map and encoded again *)
Definition tool_input (arguments : string) : option string :=
  match json_unmarshal arguments with Some (JObj m) => json_marshal (JObj m) | _ => None end.
Definition call_block (call : ModelToolCall) : option anthropicContentBlock :=
  input ← tool_input call.(ModelToolCall_Arguments);
  Some ((block "tool_use") <| Block_ID := call.(ModelToolCall_ID) |> <| Block_Name := call.(ModelToolCall_Name) |>
          <| Block_Input := input |>).
Definition image_block (image : ModelBinaryInput) : anthropicContentBlock :=
  (block "image") <| Block_Source := Some (image.(Binary_MIMEType), base64_std image.(Binary_Data)) |>.
Definition text_block (text : string) : anthropicContentBlock := (block "text") <| Block_Text := text |>.

(** the role and the blocks of a message that is not the system's *)
Definition message_blocks (images : list ModelBinaryInput) (last : bool) (m : ChatMessage)
    : option (string * list anthropicContentBlock) :=
  let role := m.(ChatMessage_Role) in
  let content := m.(ChatMessage_Content) in
  if bool_decide (role = "user") then Some (role, text_block content :: (if last then image_block <$> images else []))
  else if bool_decide (role = "assistant") then
    calls ← mapM call_block m.(ChatMessage_ToolCalls);
    Some (role, (if blank content then [] else [text_block content]) ++ calls)
  else if bool_decide (role = "tool") then
    Some ("user", [(block "tool_result") <| Block_ToolUseID := m.(ChatMessage_ToolCallID) |> <| Block_Content := content |>])
  else None.

Definition appendAnthropicMessage (messages : list anthropicMessage) (role : string) (blocks : list anthropicContentBlock)
    : list anthropicMessage :=
  match reverse messages with
  | m :: before =>
      if bool_decide (m.(Anthropic_Role) = role)
      then reverse before ++ [mkAnthropicMessage role (m.(Anthropic_Content) ++ blocks)]
      else messages ++ [mkAnthropicMessage role blocks]
  | [] => [mkAnthropicMessage role blocks]
  end.

Fixpoint anthropic_fold (images : list ModelBinaryInput) (last : option nat) (index : nat) (l : list ChatMessage)
    (system : list string) (messages : list anthropicMessage) : option (list string * list anthropicMessage) :=
  match l with
  | [] => Some (system, messages)
  | m :: rest =>
      if bool_decide (m.(ChatMessage_Role) = "system")
      then anthropic_fold images last (S index) rest (system ++ [m.(ChatMessage_Content)]) messages
      else '(role, blocks) ← message_blocks images (bool_decide (Some index = last)) m;
           anthropic_fold images last (S index) rest system (appendAnthropicMessage messages role blocks)
  end.
Definition anthropicMessages (request : ModelRequest) : option (string * list anthropicMessage) :=
  let l := request.(Request_Messages) in
  match anthropic_fold request.(Request_Images) (lastUser 0 l) 0 l [] [] with
  | Some (_, []) | None => None
  | Some (system, messages) => Some (String.concat (of_bytes [10; 10]) system, messages)
  end.

Definition block_document (b : anthropicContentBlock) : option jtext :=
  input ← (if bool_decide (b.(Block_Input) = "") then Some [] else (fun v => [("input", v)]) <$> parse_text b.(Block_Input));
  Some (TObject ([("type", TString b.(Block_Type))] ++ text_field "text" b.(Block_Text) ++ text_field "id" b.(Block_ID)
    ++ text_field "name" b.(Block_Name) ++ input ++ text_field "tool_use_id" b.(Block_ToolUseID)
    ++ text_field "content" b.(Block_Content) ++ text_field "thinking" b.(Block_Thinking)
    ++ text_field "signature" b.(Block_Signature) ++ text_field "data" b.(Block_Data)
    ++ match b.(Block_Source) with
       | Some (media, data) =>
           [("source", TObject [("type", TString "base64"); ("media_type", TString media); ("data", TString data)])]
       | None => []
       end)).
Definition anthropic_message_document (m : anthropicMessage) : option jtext :=
  content ← mapM block_document m.(Anthropic_Content);
  Some (TObject [("role", TString m.(Anthropic_Role)); ("content", TArray content)]).
Definition anthropic_tool_document (tool : ModelToolDefinition) : option jtext :=
  schema ← raw tool.(Definition_Parameters);
  Some (TObject [("name", TString tool.(Definition_Name)); ("description", TString tool.(Definition_Description));
                 ("input_schema", schema)]).
(** anthropicPayload, and its encoding *)
Definition anthropic_document (model : ModelSnapshot) (task : TaskSnapshot) (request : ModelRequest) : option jtext :=
  '(system, messages) ← anthropicMessages request;
  messages ← mapM anthropic_message_document messages;
  tools ← mapM anthropic_tool_document request.(Request_Tools);
  Some (TObject (
    [("model", TString model.(Model_RemoteName))] ++ text_field "system" system ++ [("messages", TArray messages)]
    ++ (if bool_decide (request.(Request_Tools) = []) then []
        else [("tools", TArray tools); ("tool_choice", TObject [("type", TString "auto")])])
    ++ [("max_tokens", tint task.(Task_MaxOutputTokens)); ("temperature", TNumber "0.7")])).
End anthropic.

(** ** Answers *)

(** Unmarshal into a struct: fields are found by their names, others are ignored, a null
    leaves the struct as it is; [None] is an error *)
Definition decode_members {S} (set : string -> jtext -> S -> option S) : list (string * jtext) -> S -> option S :=
  fix go members s := match members with [] => Some s | (key, v) :: rest => s ← set key v s; go rest s end.
Definition decode_struct {S} (set : string -> jtext -> S -> option S) (v : jtext) (s : S) : option S :=
  match v with TNull => Some s | TObject members => decode_members set members s | _ => None end.
Definition decode_list {A} (elem : jtext -> option A) (v : jtext) : option (list A) :=
  match v with TNull => Some [] | TArray l => mapM elem l | _ => None end.
Definition decode_number (v : jtext) (old : Z) : option Z :=
  match v with TNull => Some old | TNumber literal => ParseInt64 literal | _ => None end.

Definition set_function (key : string) (v : jtext) (call : ModelToolCall) : option ModelToolCall :=
  if same_field key "name"
  then x ← decode_string v call.(ModelToolCall_Name);
       Some (mkModelToolCall call.(ModelToolCall_ID) call.(ModelToolCall_Type) x call.(ModelToolCall_Arguments))
  else if same_field key "arguments"
  then x ← decode_string v call.(ModelToolCall_Arguments);
       Some (mkModelToolCall call.(ModelToolCall_ID) call.(ModelToolCall_Type) call.(ModelToolCall_Name) x)
  else Some call.
Definition set_call (key : string) (v : jtext) (call : ModelToolCall) : option ModelToolCall :=
  if same_field key "id"
  then x ← decode_string v call.(ModelToolCall_ID);
       Some (mkModelToolCall x call.(ModelToolCall_Type) call.(ModelToolCall_Name) call.(ModelToolCall_Arguments))
  else if same_field key "type"
  then x ← decode_string v call.(ModelToolCall_Type);
       Some (mkModelToolCall call.(ModelToolCall_ID) x call.(ModelToolCall_Name) call.(ModelToolCall_Arguments))
  else if same_field key "function" then decode_struct set_function v call
  else Some call.
Definition decode_call (v : jtext) : option ModelToolCall := decode_struct set_call v (mkModelToolCall "" "" "" "").

(** the anonymous structs of completeOpenAICompatibleAttempt *)
Record openai_choice := mkChoice {
  choice_Content : string; choice_ToolCalls : list ModelToolCall; choice_ReasoningContent : string;
  choice_Reasoning : string; choice_FinishReason : string }.
Record openai_answer := mkAnswer { answer_Choices : list openai_choice; answer_Usage : ModelUsage }.

Definition set_choice_message (key : string) (v : jtext) (c : openai_choice) : option openai_choice :=
  let '(mkChoice content calls rc r f) := c in
  if same_field key "content" then x ← decode_string v content; Some (mkChoice x calls rc r f)
  else if same_field key "tool_calls" then x ← decode_list decode_call v; Some (mkChoice content x rc r f)
  else if same_field key "reasoning_content" then x ← decode_string v rc; Some (mkChoice content calls x r f)
  else if same_field key "reasoning" then x ← decode_string v r; Some (mkChoice content calls rc x f)
  else Some c.
Definition set_choice (key : string) (v : jtext) (c : openai_choice) : option openai_choice :=
  if same_field key "message" then decode_struct set_choice_message v c
  else if same_field key "finish_reason"
  then x ← decode_string v c.(choice_FinishReason);
       Some (mkChoice c.(choice_Content) c.(choice_ToolCalls) c.(choice_ReasoningContent) c.(choice_Reasoning) x)
  else Some c.
Definition set_usage (input output : string) (key : string) (v : jtext) (u : ModelUsage) : option ModelUsage :=
  if same_field key input then x ← decode_number v u.(InputTokens); Some (mkUsage x u.(OutputTokens))
  else if same_field key output then x ← decode_number v u.(OutputTokens); Some (mkUsage u.(InputTokens) x)
  else Some u.
Definition set_answer (key : string) (v : jtext) (a : openai_answer) : option openai_answer :=
  if same_field key "choices"
  then x ← decode_list (fun v => decode_struct set_choice v (mkChoice "" [] "" "" "")) v; Some (mkAnswer x a.(answer_Usage))
  else if same_field key "usage"
  then x ← decode_struct (set_usage "prompt_tokens" "completion_tokens") v a.(answer_Usage);
       Some (mkAnswer a.(answer_Choices) x)
  else Some a.
Definition decode_openai (body : string) : option openai_answer :=
  v ← parse_text body; decode_struct set_answer v (mkAnswer [] (mkUsage 0 0)).

Definition reasoningBlocks (content : string) : list ModelReasoningBlock :=
  if bool_decide (content = "") then [] else [mkReasoning content "" false].
Definition usage_of (u : ModelUsage) : ModelUsage :=
  mkUsage (validUsageTokens u.(InputTokens)) (validUsageTokens u.(OutputTokens)).

(** the texts of a RawMessage: what was read, written again without the space between tokens *)
Fixpoint write_value (v : jtext) : list Z :=
  match v with
  | TNull => bytes "null"
  | TBool b => bytes (if b then "true" else "false")
  | TNumber literal => bytes literal
  | TString s => write_string s
  | TArray l => [91] ++ join_fields (write_value <$> l) ++ [93]
  | TObject members => [123] ++ join_fields ((fun '(k, v) => json_field (write_string k) (write_value v)) <$> members) ++ [125]
  end.

(** the source of a block of an answer is decoded, and not looked at *)
Definition set_source (key : string) (v : jtext) (s : string * string) : option (string * string) :=
  if same_field key "media_type" then x ← decode_string v s.1; Some (x, s.2)
  else if same_field key "data" then x ← decode_string v s.2; Some (s.1, x)
  else if same_field key "type" then _ ← decode_string v ""; Some s
  else Some s.
Definition set_block (key : string) (v : jtext) (b : anthropicContentBlock) : option anthropicContentBlock :=
  if same_field key "type" then x ← decode_string v b.(Block_Type); Some (b <| Block_Type := x |>)
  else if same_field key "text" then x ← decode_string v b.(Block_Text); Some (b <| Block_Text := x |>)
  else if same_field key "id" then x ← decode_string v b.(Block_ID); Some (b <| Block_ID := x |>)
  else if same_field key "name" then x ← decode_string v b.(Block_Name); Some (b <| Block_Name := x |>)
  else if same_field key "input" then Some (b <| Block_Input := of_bytes (write_value v) |>)
  else if same_field key "tool_use_id" then x ← decode_string v b.(Block_ToolUseID); Some (b <| Block_ToolUseID := x |>)
  else if same_field key "content" then x ← decode_string v b.(Block_Content); Some (b <| Block_Content := x |>)
  else if same_field key "thinking" then x ← decode_string v b.(Block_Thinking); Some (b <| Block_Thinking := x |>)
  else if same_field key "signature" then x ← decode_string v b.(Block_Signature); Some (b <| Block_Signature := x |>)
  else if same_field key "data" then x ← decode_string v b.(Block_Data); Some (b <| Block_Data := x |>)
  else if same_field key "source"
  then match v with
       | TNull => Some (b <| Block_Source := None |>)
       | _ => x ← decode_struct set_source v (default ("", "") b.(Block_Source)); Some (b <| Block_Source := Some x |>)
       end
  else Some b.
Record anthropic_answer := mkAnthropicAnswer {
  anthropic_Content : list anthropicContentBlock; anthropic_StopReason : string; anthropic_Usage : ModelUsage }.
Definition set_anthropic_answer (key : string) (v : jtext) (a : anthropic_answer) : option anthropic_answer :=
  let '(mkAnthropicAnswer content reason usage) := a in
  if same_field key "content"
  then x ← decode_list (fun v => decode_struct set_block v (block "")) v; Some (mkAnthropicAnswer x reason usage)
  else if same_field key "stop_reason" then x ← decode_string v reason; Some (mkAnthropicAnswer content x usage)
  else if same_field key "usage"
  then x ← decode_struct (set_usage "input_tokens" "output_tokens") v usage; Some (mkAnthropicAnswer content reason x)
  else Some a.
Definition decode_anthropic (body : string) : option anthropic_answer :=
  v ← parse_text body; decode_struct set_anthropic_answer v (mkAnthropicAnswer [] "" (mkUsage 0 0)).

Section attempts.
Context `{Runtime} {Ctx W : Type} `{ModelWorld Ctx W}.
Implicit Types (c : Ctx) (w : W).

(** what a block adds to the texts, the calls and the reasoning of a response *)
Definition block_response (b : anthropicContentBlock)
    : option (list string * list ModelToolCall * list ModelReasoningBlock) :=
  let type := b.(Block_Type) in
  if bool_decide (type = "text") then Some (if blank b.(Block_Text) then [] else [TrimSpace b.(Block_Text)], [], [])
  else if bool_decide (type = "tool_use") then
    if bool_decide (b.(Block_Input) = "") then None
    else Some ([], [mkModelToolCall b.(Block_ID) modelToolFunctionType b.(Block_Name) b.(Block_Input)], [])
  else if bool_decide (type = "thinking") then
    Some ([], [], if bool_decide (b.(Block_Thinking) = "") then [] else [mkReasoning b.(Block_Thinking) b.(Block_Signature) false])
  else if bool_decide (type = "redacted_thinking") then
    let signature := if bool_decide (b.(Block_Signature) = "") && negb (bool_decide (b.(Block_Data) = ""))
                     then "sha256:" +:+ sha256_hex b.(Block_Data) else b.(Block_Signature) in
    Some ([], [], [mkReasoning "" signature true])
  else None.
Definition modelResponseFromAnthropic (blocks : list anthropicContentBlock) : option ModelResponse :=
  parts ← mapM block_response blocks;
  Some (mkModelResponse (String.concat (of_bytes [10]) (parts ≫= fun p => p.1.1)) (parts ≫= fun p => p.1.2)
          (parts ≫= fun p => p.2)).

(** ** Posting *)

(** [caused] is whether the cause is a deadline *)
Definition cancellationFailure c (caused : bool) (task provider model : string) w : ModelFailure :=
  let deadline := bool_decide (ctx_err c w = Some DeadlineExceeded) || caused in
  mkModelFailure (if deadline then ModelFailureDeadline else ModelFailureCancelled) provider model task 0 0 false false.

(** strings.TrimRight(value, "/") *)
Fixpoint drop_slashes (l : list Z) : list Z := match l with 47 :: rest => drop_slashes rest | _ => l end.
Definition trim_slashes (value : string) : string := of_bytes (reverse (drop_slashes (reverse (bytes value)))).

(** from NewRequestWithContext to the status, which the three kinds of attempts share: the body, or a failure *)
Definition post c (task : TaskSnapshot) (provider : ProviderSnapshot) (model : ModelSnapshot) (path : string)
    (headers : list (string * string)) (body : http_body) w : (string + ModelFailure) * W :=
  let request := mkHTTPRequest (trim_slashes provider.(Provider_BaseURL) +:+ path) headers body provider.(Provider_Timeout) in
  let '(outcome, w) := http_do c request w in
  (match outcome with
   | NoRequest => inr invalid_request
   | DoFailed timed_out deadline =>
       match ctx_err c w with
       | Some _ => inr (cancellationFailure c deadline task.(Task_ID) provider.(Provider_ID) model.(Model_ID) w)
       | None => inr (model_failure (if timed_out then ModelFailureDeadline else ModelFailureNetwork) true true)
       end
   | ReadFailed => inr (model_failure ModelFailureNetwork true true)
   | Answered status body =>
       if maxModelResponseBytes <? slen body then inr invalid_response
       else if (status <? 200) || (300 <=? status) then inr (classifyModelHTTPFailure status body)
       else inl body
   end, w).

Definition common_headers : list (string * string) :=
  [("Content-Type", "application/json"); ("User-Agent", "ZZZ-IM-Fairy/2.0")].

(** the answer of a provider of the first kind, once it is there *)
Definition openai_completion (requireJSON : bool) (body : string) : modelCompletion + ModelFailure :=
  match decode_openai body with
  | None | Some (mkAnswer [] _) => inr invalid_response
  | Some (mkAnswer (choice :: _) usage) =>
      if bool_decide (choice.(choice_FinishReason) = "content_filter")
      then inr (model_failure ModelFailureContentRejected false false)
      else if bool_decide (choice.(choice_FinishReason) = "length") then inr invalid_response
      else
        let content := TrimSpace choice.(choice_Content) in
        match validateModelResponse content choice.(choice_ToolCalls) requireJSON with
        | Err _ => inr invalid_response
        | Ok _ =>
            let reasoning := if bool_decide (choice.(choice_ReasoningContent) = "") then choice.(choice_Reasoning)
                             else choice.(choice_ReasoningContent) in
            inl (mkCompletion (mkModelResponse (limitRunes content 4000) choice.(choice_ToolCalls) (reasoningBlocks reasoning))
                   (usage_of usage))
        end
  end.

Definition completeOpenAICompatibleAttempt c (provider : ProviderSnapshot) (model : ModelSnapshot) (task : TaskSnapshot)
    (request : ModelRequest) w : (modelCompletion + ModelFailure) * W :=
  match ctx_err c w with
  | Some e => (inr (cancellationFailure c (bool_decide (e = DeadlineExceeded)) task.(Task_ID) provider.(Provider_ID) model.(Model_ID) w), w)
  | None =>
      match openai_document model task request with
      | None => (inr invalid_request, w)
      | Some document =>
          let headers := common_headers
            ++ (if bool_decide (provider.(Provider_APIKey) = "") then [] else [("Authorization", "Bearer " +:+ provider.(Provider_APIKey))]) in
          let '(r, w) := post c task provider model "/chat/completions" headers (JSONBody document) w in
          (match r with inr f => inr f | inl body => openai_completion request.(Request_RequireJSON) body end, w)
      end
  end.

Definition anthropic_completion (requireJSON : bool) (body : string) : modelCompletion + ModelFailure :=
  match decode_anthropic body with
  | None => inr invalid_response
  | Some answer =>
      let reason := answer.(anthropic_StopReason) in
      if bool_decide (reason = "refusal") then inr (model_failure ModelFailureContentRejected false false)
      else if negb (one_of [""; "end_turn"; "stop_sequence"; "tool_use"] reason) then inr invalid_response
      else if existsb (fun b => bool_decide (b.(Block_Type) = "refusal")) answer.(anthropic_Content)
      then inr (model_failure ModelFailureContentRejected false false)
      else match modelResponseFromAnthropic answer.(anthropic_Content) with
           | None => inr invalid_response
           | Some r =>
               match validateModelResponse r.(Response_Text) r.(Response_ToolCalls) requireJSON with
               | Err _ => inr invalid_response
               | Ok _ =>
                   inl (mkCompletion (mkModelResponse (limitRunes r.(Response_Text) 4000) r.(Response_ToolCalls) r.(Response_Reasoning))
                          (usage_of answer.(anthropic_Usage)))
               end
           end
  end.

Definition completeAnthropicCompatibleAttempt c (provider : ProviderSnapshot) (model : ModelSnapshot) (task : TaskSnapshot)
    (request : ModelRequest) w : (modelCompletion + ModelFailure) * W :=
  match ctx_err c w with
  | Some e => (inr (cancellationFailure c (bool_decide (e = DeadlineExceeded)) task.(Task_ID) provider.(Provider_ID) model.(Model_ID) w), w)
  | None =>
      match anthropic_document model task request with
      | None => (inr invalid_request, w)
      | Some document =>
          let headers := common_headers ++ [("anthropic-version", anthropicVersion)]
            ++ (if bool_decide (provider.(Provider_APIKey) = "") then [] else [("x-api-key", provider.(Provider_APIKey))]) in
          let '(r, w) := post c task provider model "/v1/messages" headers (JSONBody document) w in
          (match r with inr f => inr f | inl body => anthropic_completion request.(Request_RequireJSON) body end, w)
      end
  end.

Definition completeAttempt c (provider : ProviderSnapshot) (model : ModelSnapshot) (task : TaskSnapshot)
    (request : ModelRequest) w : (modelCompletion + ModelFailure) * W :=
  if bool_decide (provider.(Provider_Protocol) = OpenAICompatibleProtocol)
  then completeOpenAICompatibleAttempt c provider model task request w
  else if bool_decide (provider.(Provider_Protocol) = AnthropicCompatibleProtocol)
  then completeAnthropicCompatibleAttempt c provider model task request w
  else (inr invalid_request, w).

(** ** Transcription *)

Definition mediaFileName (record : bool) (mimeType : string) : string :=
  let extension := default "" ((list_to_map
    [("image/jpeg", ".jpg"); ("image/png", ".png"); ("image/gif", ".gif"); ("image/webp", ".webp");
     ("audio/webm", ".webm"); ("audio/ogg", ".ogg"); ("audio/mpeg", ".mp3"); ("audio/mp4", ".m4a");
     ("audio/wav", ".wav"); ("audio/x-wav", ".wav")] : gmap string string) !! mimeType) in
  (if record then "audio" else "image") +:+ extension.
Definition safeMediaUploadName (name mimeType : string) : string :=
  let name := TrimSpace name in
  if bool_decide (name = "") || (255 <? slen name) || existsb (fun b => existsb (Z.eqb b) [13; 10; 0; 47; 92]) (bytes name)
  then mediaFileName (negb (HasPrefix mimeType "image/")) mimeType else name.

Definition set_transcript (key : string) (v : jtext) (a : string * ModelUsage) : option (string * ModelUsage) :=
  if same_field key "text" then x ← decode_string v a.1; Some (x, a.2)
  else if same_field key "usage" then x ← decode_struct (set_usage "input_tokens" "output_tokens") v a.2; Some (a.1, x)
  else Some a.
Definition transcript (body : string) : string * ModelUsage + ModelFailure :=
  match (v ← parse_text body; decode_struct set_transcript v ("", mkUsage 0 0)) with
  | None => inr invalid_response
  | Some (text, usage) =>
      let text := TrimSpace text in
      if bool_decide (text = "") || (8000 <? Z.of_nat (length (runes text))) then inr invalid_response
      else inl (text, usage_of usage)
  end.
(** writing the form to a buffer does not fail *)
Definition transcribeAttempt c (provider : ProviderSnapshot) (model : ModelSnapshot) (task : TaskSnapshot)
    (audio : ModelBinaryInput) w : (string * ModelUsage + ModelFailure) * W :=
  match ctx_err c w with
  | Some e => (inr (cancellationFailure c (bool_decide (e = DeadlineExceeded)) task.(Task_ID) provider.(Provider_ID) model.(Model_ID) w), w)
  | None =>
      let file := mkBinary audio.(Binary_MIMEType) (safeMediaUploadName audio.(Binary_Name) audio.(Binary_MIMEType)) audio.(Binary_Data) in
      let form := FormBody file [("model", model.(Model_RemoteName)); ("response_format", "json")] in
      let headers := [("Content-Type", "multipart/form-data"); ("User-Agent", "ZZZ-IM-Fairy/2.0")]
        ++ (if bool_decide (provider.(Provider_APIKey) = "") then [] else [("Authorization", "Bearer " +:+ provider.(Provider_APIKey))]) in
      let '(r, w) := post c task provider model "/audio/transcriptions" headers form w in
      (match r with inr f => inr f | inl body => transcript body end, w)
  end.
End attempts.
