(* ===== verification/FairyModelRouter.v ===== *)
(** * The choice of a language model (fairy/model.go)

    A task lists candidate models; each is tried, with delays, as often as its provider
    allows, and the next one only when the last failure permits it.  Every attempt leaves
    an event in the trace store, which is passed along with the world. *)
From S2P Require Import Prelude GoLib Types FairyTypes FairyTrace FairyTools FairyModel FairyModelAttempt.
From stdpp Require Import gmap strings list.
From Stdlib Require Import ZArith.

Local Open Scope Z_scope.
Local Open Scope go_scope.

Record RuntimeModelSnapshot := mkSnapshot {
  Snapshot_ID : string; providers : gmap string ProviderSnapshot; models : gmap string ModelSnapshot;
  tasks : gmap string TaskSnapshot }.

Inductive model_error := ModelError (f : ModelFailure) | IDError (err : string).

(** how the attempts with one model, or with all, end: with an answer; because the wait was
    interrupted; or with the last failure, if there was an attempt *)
Inductive routed (A : Type) := Answer (a : A) | Interrupted (f : ModelFailure) | Tried (last : option ModelFailure).
Arguments Answer {A} a.
Arguments Interrupted {A} f.
Arguments Tried {A} last.

Section router.
Context `{Runtime} {Ctx W : Type} `{ModelWorld Ctx W}.
Implicit Types (c : Ctx) (w : W) (s : RuntimeModelSnapshot) (db : option TraceDB).

Definition HasTask s (taskID : string) : bool := bool_decide (is_Some (s.(tasks) !! taskID)).

(** ** Traces *)

Definition zero_scope : TurnTraceScope := mkTurnTraceScope "" "" "" "".
Definition modelTraceScope c db w : result TurnTraceScope * W :=
  let scope := default zero_scope (ctx_turn c) in
  if negb (bool_decide (scope.(Turn_TraceID) = "")) || (match db with None => true | Some _ => false end) then (Ok scope, w)
  else
    let '(traceDraw, w) := draw_id w in
    match newRuntimeID traceDraw "trace" with
    | Err e => (Err e, w)
    | Ok traceID =>
        let '(turnDraw, w) := draw_id w in
        match newRuntimeID turnDraw "turn" with
        | Err e => (Err e, w)
        | Ok turnID => (Ok (mkTurnTraceScope traceID turnID scope.(Turn_ConversationID) "model-router"), w)
        end
    end.

(** an event that the store refuses is lost, with a line in the log *)
Definition append_event (event : time -> TraceEvent) db w : option TraceDB * W :=
  match db with
  | None => (None, w)
  | Some d =>
      let '(at_, w) := now w in
      let '(fault, w) := trace_faults w in
      (Some (Append fault at_ (event at_) d).2, w)
  end.

(** an attempt: with which model, the how-manieth, and whether the model is a fallback *)
Record attempt_of := mkAttempt {
  attempt_task : TaskSnapshot; attempt_provider : ProviderSnapshot; attempt_model : ModelSnapshot;
  attempt_number : Z; attempt_fallback : bool }.

Definition model_event s (scope : TurnTraceScope) (request : ModelRequest) (a : attempt_of) (duration : Z)
    (usage : ModelUsage) (failure : option ModelFailure) (at_ : time) : TraceEvent :=
  (trace_event at_ TraceModelAttempt scope.(Turn_TraceID) scope.(Turn_TurnID) scope.(Turn_ConversationID)
     scope.(Turn_Source) (match failure with None => "completed" | Some _ => "failed" end))
    <| TraceEvent_TaskID := a.(attempt_task).(Task_ID) |> <| TraceEvent_ProviderID := a.(attempt_provider).(Provider_ID) |>
    <| TraceEvent_ModelID := a.(attempt_model).(Model_ID) |> <| TraceEvent_SnapshotID := s.(Snapshot_ID) |>
    <| TraceEvent_Step := request.(Request_Step) |> <| TraceEvent_Repair := request.(Request_Repair) |>
    <| TraceEvent_PromptVersion := request.(Request_PromptVersion) |> <| TraceEvent_PromptDigest := request.(Request_PromptDigest) |>
    <| TraceEvent_Attempt := a.(attempt_number) |> <| TraceEvent_DurationMS := Z.quot duration 1000000 |>
    <| TraceEvent_InputTokens := usage.(InputTokens) |> <| TraceEvent_OutputTokens := usage.(OutputTokens) |>
    <| TraceEvent_CostMicroUSD := modelCostMicroUSD a.(attempt_model) usage |>
    <| TraceEvent_FailureCode := from_option ModelFailure_Code "" failure |>
    <| TraceEvent_Fallback := a.(attempt_fallback) |>.
Definition appendModelTrace s scope request a duration usage failure db w : option TraceDB * W :=
  append_event (model_event s scope request a duration usage failure) db w.

Definition reasoning_event s (scope : TurnTraceScope) (request : ModelRequest) (a : attempt_of) (block : ModelReasoningBlock)
    (at_ : time) : TraceEvent :=
  (trace_event at_ TraceModelReasoning scope.(Turn_TraceID) scope.(Turn_TurnID) scope.(Turn_ConversationID)
     scope.(Turn_Source) "completed")
    <| TraceEvent_TaskID := a.(attempt_task).(Task_ID) |> <| TraceEvent_ProviderID := a.(attempt_provider).(Provider_ID) |>
    <| TraceEvent_ModelID := a.(attempt_model).(Model_ID) |> <| TraceEvent_SnapshotID := s.(Snapshot_ID) |>
    <| TraceEvent_Step := request.(Request_Step) |> <| TraceEvent_Repair := request.(Request_Repair) |>
    <| TraceEvent_Attempt := a.(attempt_number) |> <| TraceEvent_Fallback := a.(attempt_fallback) |>
    <| TraceEvent_Content := block.(Reasoning_Text) |> <| TraceEvent_Signature := block.(Reasoning_Signature) |>
    <| TraceEvent_Redacted := block.(Reasoning_Redacted) |>.
Fixpoint appendReasoningTrace s scope request a (blocks : list ModelReasoningBlock) db w : option TraceDB * W :=
  match blocks with
  | [] => (db, w)
  | block :: rest =>
      let '(db, w) := append_event (reasoning_event s scope request a block) db w in
      appendReasoningTrace s scope request a rest db w
  end.

(** ** Attempts *)

(** the field [jitter] that NewModelRouter sets *)
Definition jitter (delay : Z) w : Z * W := if delay <=? 0 then (0, w) else int63n (Z.quot delay 4 + 1) w.

Section route.
(** what is asked of a model, and what it counts; what is traced of an answer *)
Context {A : Type} (run : Ctx -> ProviderSnapshot -> ModelSnapshot -> TaskSnapshot -> W -> (A + ModelFailure) * W)
  (usage_in : A -> ModelUsage) (trace_answer : attempt_of -> A -> option TraceDB -> W -> option TraceDB * W)
  (s : RuntimeModelSnapshot) (scope : TurnTraceScope) (request : ModelRequest).

(** the loop over the attempts with one model, from [attempt]; [n] are left *)
Fixpoint try_model c (a : attempt_of) (n : nat) (last : option ModelFailure) db w : routed A * option TraceDB * W :=
  match n with
  | O => (Tried last, db, w)
  | S n =>
      let '(task, provider, model) := (a.(attempt_task), a.(attempt_provider), a.(attempt_model)) in
      let '(startedAt, w) := now w in
      let '(outcome, w) := run c provider model task w in
      let '(finishedAt, w) := now w in
      let duration := Sub finishedAt startedAt in
      match outcome with
      | inl answer =>
          let '(db, w) := appendModelTrace s scope request a duration (usage_in answer) None db w in
          let '(db, w) := trace_answer a answer db w in
          (Answer answer, db, w)
      | inr failure =>
          let failure := (failure) <| ModelFailure_ProviderID := provider.(Provider_ID) |>
            <| ModelFailure_ModelID := model.(Model_ID) |> <| ModelFailure_TaskID := task.(Task_ID) |>
            <| ModelFailure_Attempt := a.(attempt_number) |> in
          let '(db, w) := appendModelTrace s scope request a duration (mkUsage 0 0) (Some failure) db w in
          if negb failure.(ModelFailure_Retryable) || (provider.(Provider_MaxRetries) <? a.(attempt_number))
          then (Tried (Some failure), db, w)
          else
            let '(extra, w) := jitter provider.(Provider_RetryBackoff) w in
            let delay := retryDelay provider.(Provider_RetryBackoff) (a.(attempt_number) - 1) + extra in
            match wait_for c delay w with
            | (Some e, w) =>
                (Interrupted (cancellationFailure c (bool_decide (e = DeadlineExceeded)) task.(Task_ID)
                   provider.(Provider_ID) model.(Model_ID) w), db, w)
            | (None, w) =>
                try_model c (mkAttempt task provider model (a.(attempt_number) + 1) a.(attempt_fallback)) n (Some failure) db w
            end
      end
  end.

(** the loop over the candidate models; [fallback] is whether the first has been tried *)
Fixpoint route c (task : TaskSnapshot) (candidates : list string) (fallback : bool) (last : option ModelFailure) db w
    : routed A * option TraceDB * W :=
  match candidates with
  | [] => (Tried last, db, w)
  | modelID :: rest =>
      let model := default zero_model (s.(models) !! modelID) in
      let provider := default zero_provider (s.(providers) !! model.(Model_ProviderID)) in
      let n := Z.to_nat (wrap64 (provider.(Provider_MaxRetries) + 1)) in
      match try_model c (mkAttempt task provider model 1 fallback) n last db w with
      | (Tried (Some f), db, w) =>
          if f.(ModelFailure_FallbackAllowed) then route c task rest true (Some f) db w else (Tried (Some f), db, w)
      | other => other
      end
  end.

(** what CompleteRequest and Transcribe do with the task that the snapshot has *)
Definition run_task c (taskID : string) db w : (A + model_error) * option TraceDB * W :=
  match s.(tasks) !! taskID with
  | None => (inr (ModelError (invalid_request <| ModelFailure_TaskID := taskID |>)), db, w)
  | Some task =>
      match route c task task.(Task_CandidateModels) false None db w with
      | (Answer a, db, w) => (inl a, db, w)
      | (Interrupted f, db, w) => (inr (ModelError f), db, w)
      | (Tried last, db, w) =>
          (inr (ModelError (default (invalid_request <| ModelFailure_TaskID := task.(Task_ID) |>) last)), db, w)
      end
  end.
End route.

(** the context of a task *)
Definition task_context s c (taskID : string) w : Ctx :=
  match s.(tasks) !! taskID with Some task => with_timeout c task.(Task_Timeout) w | None => c end.

(** *ModelRouter.CompleteRequest *)
Definition CompleteRequest s c (request : ModelRequest) db w : (ModelResponse + model_error) * option TraceDB * W :=
  let taskID := request.(Request_TaskID) in
  let invalid := invalid_request <| ModelFailure_TaskID := taskID |> in
  match validateModelRequest request with
  | Err _ => (inr (ModelError invalid), db, w)
  | Ok _ =>
      if negb (HasTask s taskID) then (inr (ModelError invalid), db, w)
      else
        let c := task_context s c taskID w in
        match modelTraceScope c db w with
        | (Err e, w) => (inr (IDError e), db, w)
        | (Ok scope, w) =>
            let '(r, db, w) :=
              run_task (fun c provider model task w => completeAttempt c provider model task request w) completion_Usage
                (fun a answer db w => appendReasoningTrace s scope request a answer.(completion_Response).(Response_Reasoning) db w)
                s scope request c taskID db w in
            (match r with inl answer => inl answer.(completion_Response) | inr e => inr e end, db, w)
        end
  end.

(** *ModelRouter.CompleteTask *)
Definition CompleteTask s c (taskID : string) (messages : list ChatMessage) db w : (string + model_error) * option TraceDB * W :=
  match CompleteRequest s c (mkModelRequest taskID messages [] [] false false 0 "" "") db w with
  | (inr e, db, w) => (inr e, db, w)
  | (inl response, db, w) =>
      (if negb (bool_decide (response.(Response_ToolCalls) = [])) || blank response.(Response_Text)
       then inr (ModelError ((model_failure ModelFailureInvalidResponse false false) <| ModelFailure_TaskID := taskID |>))
       else inl response.(Response_Text), db, w)
  end.

(** *ModelRouter.Transcribe *)
Definition Transcribe s c (audio : ModelBinaryInput) db w : (string + model_error) * option TraceDB * W :=
  let taskID := TranscriberTaskID in
  let invalid := invalid_request <| ModelFailure_TaskID := taskID |> in
  match validateTranscriptionInput audio with
  | Err _ => (inr (ModelError invalid), db, w)
  | Ok _ =>
      if negb (HasTask s taskID) then (inr (ModelError invalid), db, w)
      else
        let c := task_context s c taskID w in
        match modelTraceScope c db w with
        | (Err e, w) => (inr (IDError e), db, w)
        | (Ok scope, w) =>
            let '(r, db, w) :=
              run_task (fun c provider model task w => transcribeAttempt c provider model task audio w) snd
                (fun _ _ db w => (db, w)) s scope (mkModelRequest taskID [] [] [] false false 0 "" "") c taskID db w in
            (match r with inl answer => inl answer.1 | inr e => inr e end, db, w)
        end
  end.
End router.
