(* ===== verification/FairyModelProps.v ===== *)
(** * What the model router keeps (fairy/model.go)

    Costs and delays in closed form; which answers are accepted; how many exchanges a
    request makes at most; that the store takes the event of every attempt. *)
From S2P Require Import Prelude GoLib Types FairyTypes RuneFacts FairyTrace JsonText FairySchema FairyTools FairyModel FairyModelAttempt FairyModelRouter Demo.
From stdpp Require Import gmap strings list.
From Stdlib Require Import ZArith Lia.

Local Open Scope Z_scope.
Local Open Scope go_scope.

(** ** Costs and delays *)

Lemma wrap64_small z : - 2 ^ 63 <= z < 2 ^ 63 -> wrap64 z = z.
Proof. intros Hz. unfold wrap64. rewrite Z.mod_small; lia. Qed.

Definition tokens_ok (tokens : Z) : Prop := 0 <= tokens <= 1000000000.
Definition price_ok (price : Z) : Prop := 0 <= price <= 1000000000000.

Lemma validUsageTokens_ok value : tokens_ok (validUsageTokens value).
Proof. unfold tokens_ok, validUsageTokens. destruct (_ || _) eqn:E; lia. Qed.

Lemma tokenCost_exact tokens price : tokens_ok tokens -> price_ok price ->
  tokenCostMicroUSD tokens price = tokens * price / 1000000.
Proof.
  unfold tokens_ok, price_ok, tokenCostMicroUSD. intros Ht Hp. destruct (_ || _) eqn:E.
  { assert (tokens * price = 0) as -> by nia. done. }
  rewrite Z.quot_div_nonneg, Z.rem_mod_nonneg by lia.
  pose proof (Z.div_mod tokens 1000000 ltac:(lia)) as Hdm. pose proof (Z.mod_pos_bound tokens 1000000 ltac:(lia)) as Hm.
  assert (0 <= tokens / 1000000 <= 1000) by (split; [apply Z.div_pos; lia|apply Z.div_le_upper_bound; lia]).
  assert (0 <= tokens mod 1000000 * price <= 10 ^ 18) by nia. assert (0 <= tokens / 1000000 * price <= 10 ^ 15) by nia.
  rewrite (wrap64_small (tokens mod 1000000 * price)), (wrap64_small (tokens / 1000000 * price)) by lia.
  rewrite Z.quot_div_nonneg by lia.
  assert (0 <= tokens mod 1000000 * price / 1000000 <= 10 ^ 12) by (split; [apply Z.div_pos; lia|apply Z.div_le_upper_bound; lia]).
  rewrite wrap64_small by lia.
  replace (tokens * price) with (tokens mod 1000000 * price + tokens / 1000000 * price * 1000000) by (rewrite Hdm at 3; ring).
  rewrite Z.div_add by lia. lia.
Qed.

Lemma tokens_price_bound t p : tokens_ok t -> price_ok p -> 0 <= t * p / 1000000 <= 10 ^ 15.
Proof. unfold tokens_ok, price_ok. intros ? ?. split; [apply Z.div_pos; nia|apply Z.div_le_upper_bound; nia]. Qed.

(** the cost of an attempt is the exact one, rounded down for each kind of tokens: with the prices
    that a configuration may have and the usage that is kept, no product or sum overflows. *)
Theorem costs_are_exact model input output :
  price_ok model.(Model_InputPrice) -> price_ok model.(Model_OutputPrice) ->
  let usage := usage_of (mkUsage input output) in
  modelCostMicroUSD model usage
  = usage.(InputTokens) * model.(Model_InputPrice) / 1000000 + usage.(OutputTokens) * model.(Model_OutputPrice) / 1000000
  /\ 0 <= modelCostMicroUSD model usage <= 2 * 10 ^ 15.
Proof.
  intros Hi Ho usage. unfold modelCostMicroUSD.
  rewrite !tokenCost_exact by (apply validUsageTokens_ok || done).
  pose proof (tokens_price_bound _ _ (validUsageTokens_ok input) Hi). pose proof (tokens_price_bound _ _ (validUsageTokens_ok output) Ho). cbn [InputTokens OutputTokens usage usage_of] in *.
  rewrite wrap64_small by lia. lia.
Qed.

Lemma double_delay_spec n base : 0 <= base <= maxInt64 ->
  Z.min (double_delay n base) (5 * second) = Z.min (base * 2 ^ Z.of_nat n) (5 * second).
Proof.
  revert base. induction n as [|n IH]; intros base Hb; [by rewrite Z.mul_1_r|]. cbn [double_delay].
  destruct (base <? 5 * second) eqn:E.
  - unfold second in *. rewrite wrap64_small by lia. rewrite IH by (unfold maxInt64; lia).
    rewrite Nat2Z.inj_succ, Z.pow_succ_r by lia. f_equal. lia.
  - apply Z.ltb_ge in E. pose proof (Z.pow_pos_nonneg 2 (Z.of_nat (S n)) ltac:(lia) ltac:(lia)). rewrite !Z.min_r; nia.
Qed.

(** the delay before an attempt is repeated doubles from the configured one and stops at five
    seconds, whatever the configured one is; the loop that computes it never overflows. *)
Theorem retry_delays_double base i : 0 <= base <= maxInt64 -> 0 <= i ->
  retryDelay base i = Z.min (base * 2 ^ i) (5 * second).
Proof. intros Hb Hi. unfold retryDelay. rewrite double_delay_spec by done. by rewrite Z2Nat.id. Qed.

(** ** Attempts *)

Definition failure_valid (f : ModelFailure) : Prop := validModelFailureCode f.(ModelFailure_Code) = true.

Section attempt_facts.
Context `{HR : Runtime} {Ctx W : Type} `{HW : ModelWorld Ctx W}.
Implicit Types (c : Ctx) (w : W).

Lemma classify_valid status body : failure_valid (classifyModelHTTPFailure status body).
Proof.
  unfold classifyModelHTTPFailure. cbv zeta. destruct (_ || _); [reflexivity|]. destruct (_ || _); [reflexivity|].
  destruct (_ =? _); [reflexivity|]. destruct (_ =? _); [reflexivity|]. destruct (_ <=? _); reflexivity.
Qed.
Lemma cancellation_valid c caused task provider model w : failure_valid (cancellationFailure c caused task provider model w).
Proof. unfold cancellationFailure. by destruct (_ || _). Qed.

Lemma post_valid c task provider model path headers body w f w' :
  post c task provider model path headers body w = (inr f, w') -> failure_valid f.
Proof.
  unfold post. destruct (http_do _ _ _) as [[|timed_out deadline| |status text] w1].
  - by intros [= <- <-].
  - destruct (ctx_err c w1); intros [= <- <-]; [apply cancellation_valid|by destruct timed_out].
  - by intros [= <- <-].
  - destruct (_ <? _); [by intros [= <- <-]|]. destruct (_ || _); intros [= <- <-]; apply classify_valid.
Qed.

(** what an accepted answer has passed, for a request that requires JSON or not *)
Definition answer_valid (requireJSON : bool) (a : modelCompletion) : Prop :=
  (exists content, validateModelResponse content a.(completion_Response).(Response_ToolCalls) requireJSON = Ok tt
     /\ a.(completion_Response).(Response_Text) = limitRunes content 4000)
  /\ tokens_ok a.(completion_Usage).(InputTokens) /\ tokens_ok a.(completion_Usage).(OutputTokens).
Definition outcome_valid (requireJSON : bool) (o : modelCompletion + ModelFailure) : Prop :=
  match o with inl a => answer_valid requireJSON a | inr f => failure_valid f end.

Lemma openai_completion_valid requireJSON body : outcome_valid requireJSON (openai_completion requireJSON body).
Proof.
  unfold openai_completion. destruct (decode_openai body) as [[[|choice rest] usage]|]; [done| |done].
  case_bool_decide; [done|]. case_bool_decide; [done|]. destruct (validateModelResponse _ _ _) as [[]|e] eqn:E; [|done].
  split; [by eexists|split; apply validUsageTokens_ok].
Qed.
Lemma anthropic_completion_valid requireJSON body : outcome_valid requireJSON (anthropic_completion requireJSON body).
Proof.
  unfold anthropic_completion. destruct (decode_anthropic body) as [answer|]; [|done]. cbv zeta.
  case_bool_decide; [done|]. destruct (negb _); [done|]. destruct (existsb _ _); [done|].
  destruct (modelResponseFromAnthropic _) as [r|]; [|done]. destruct (validateModelResponse _ _ _) as [[]|e] eqn:E; [|done].
  split; [by eexists|split; apply validUsageTokens_ok].
Qed.

Lemma completeAttempt_valid c provider model task request w o w' :
  completeAttempt c provider model task request w = (o, w') -> outcome_valid request.(Request_RequireJSON) o.
Proof.
  unfold completeAttempt, completeOpenAICompatibleAttempt, completeAnthropicCompatibleAttempt.
  case_bool_decide; [|case_bool_decide; [|by intros [= <- <-]]].
  all: destruct (ctx_err c w); [intros [= <- <-]; apply cancellation_valid|].
  1: destruct (openai_document model task request); [|by intros [= <- <-]].
  2: destruct (anthropic_document model task request); [|by intros [= <- <-]].
  all: cbv zeta; destruct (post _ _ _ _ _ _ _ _) as [[body|f] w1] eqn:E; intros [= <- <-];
    [apply openai_completion_valid || apply anthropic_completion_valid|by apply post_valid in E].
Qed.

Lemma transcribeAttempt_valid c provider model task audio w o w' :
  transcribeAttempt c provider model task audio w = (o, w') ->
  match o with inl a => a.1 <> "" /\ Z.of_nat (length (runes a.1)) <= 8000 | inr f => failure_valid f end.
Proof.
  unfold transcribeAttempt. destruct (ctx_err c w); [intros [= <- <-]; apply cancellation_valid|]. cbv zeta.
  destruct (post _ _ _ _ _ _ _ _) as [[body|f] w1] eqn:E; intros [= <- <-]; [|by apply post_valid in E].
  unfold transcript. destruct (v ← parse_text body; _) as [[text usage]|]; [|done]. cbv zeta.
  destruct (_ || _) eqn:Eb; [done|]. apply orb_false_iff in Eb as [Eb%bool_decide_eq_false El%Z.ltb_ge]. done.
Qed.
End attempt_facts.

(** ** Routing *)

(** the exchanges with providers that a world counts *)
Class PostCounter {Ctx W : Type} `{ModelWorld Ctx W} (posts : W -> Z) := {
  posts_http : forall c r w, posts (http_do c r w).2 <= posts w + 1;
  posts_wait : forall c d w, posts (wait_for c d w).2 <= posts w;
  posts_int63n : forall n w, posts (int63n n w).2 <= posts w;
  posts_now : forall w, posts (now w).2 <= posts w;
  posts_draw : forall w, posts (draw_id w).2 <= posts w;
  posts_faults : forall w, posts (trace_faults w).2 <= posts w
}.

(** what a configuration guarantees of a snapshot *)
Record snapshot_ok (s : RuntimeModelSnapshot) : Prop := {
  ok_id : validRuntimeID s.(Snapshot_ID) = true;
  ok_tasks : forall t task, s.(tasks) !! t = Some task ->
    task.(Task_ID) = t /\ validTraceLabel t = true /\ (length task.(Task_CandidateModels) <= 8)%nat
    /\ forall m, m ∈ task.(Task_CandidateModels) -> is_Some (s.(models) !! m);
  ok_models : forall m model, s.(models) !! m = Some model ->
    model.(Model_ID) = m /\ validTraceLabel m = true /\ is_Some (s.(providers) !! model.(Model_ProviderID))
    /\ price_ok model.(Model_InputPrice) /\ price_ok model.(Model_OutputPrice);
  ok_providers : forall p provider, s.(providers) !! p = Some provider ->
    provider.(Provider_ID) = p /\ validTraceLabel p = true /\ 0 <= provider.(Provider_MaxRetries) <= 5
}.

Definition model_in s (modelID : string) : ModelSnapshot := default zero_model (s.(models) !! modelID).
Definition provider_in s (modelID : string) : ProviderSnapshot :=
  default zero_provider (s.(providers) !! (model_in s modelID).(Model_ProviderID)).
(** how often a model is tried at most *)
Definition attempts_with s (modelID : string) : Z :=
  Z.of_nat (Z.to_nat (wrap64 ((provider_in s modelID).(Provider_MaxRetries) + 1))).

Lemma attempts_with_ok s m : snapshot_ok s -> 0 <= attempts_with s m <= 6.
Proof.
  intros Hs. unfold attempts_with, provider_in.
  destruct (providers s !! Model_ProviderID (model_in s m)) as [p|] eqn:E; cbn [from_option id].
  - destruct (ok_providers _ Hs _ _ E) as (_ & _ & Hr). rewrite wrap64_small; lia.
  - vm_compute. split; intros; discriminate.
Qed.

Section router_facts.
Context `{HR : Runtime} {Ctx W : Type} `{HW : ModelWorld Ctx W} (posts : W -> Z) `{!PostCounter posts}.
Implicit Types (c : Ctx) (w : W) (s : RuntimeModelSnapshot) (db : option TraceDB).

Lemma append_event_posts e db w : posts (append_event e db w).2 <= posts w.
Proof.
  unfold append_event. destruct db as [d|]; [|done]. pose proof (posts_now w) as H1. destruct (now w) as [t w1].
  pose proof (posts_faults w1) as H2. destruct (trace_faults w1) as [f w2]. cbn in *. lia.
Qed.
Lemma reasoning_posts s scope request a blocks db w : posts (appendReasoningTrace s scope request a blocks db w).2 <= posts w.
Proof.
  revert db w. induction blocks as [|b blocks IH]; intros db w; [done|]. cbn [appendReasoningTrace].
  pose proof (append_event_posts (reasoning_event s scope request a b) db w) as H1.
  destruct (append_event _ db w) as [db1 w1]. cbn in H1. specialize (IH db1 w1). lia.
Qed.
Lemma jitter_posts d w : posts (jitter d w).2 <= posts w.
Proof. unfold jitter. destruct (d <=? 0); [done|apply posts_int63n]. Qed.
Lemma post_posts c task provider model path headers body w : posts (post c task provider model path headers body w).2 <= posts w + 1.
Proof.
  unfold post. cbv zeta. match goal with |- context [http_do c ?r w] => pose proof (posts_http c r w) as Hp; destruct (http_do c r w) as [o w1] end.
  exact Hp.
Qed.
Lemma completeAttempt_posts c provider model task request w : posts (completeAttempt c provider model task request w).2 <= posts w + 1.
Proof.
  assert (Hsend : forall path headers document (k : string -> modelCompletion + ModelFailure),
    posts (let '(r, w) := post c task provider model path headers (JSONBody document) w in
           (match r with inr f => inr f | inl body => k body end, w)).2 <= posts w + 1).
  { intros path headers document k. pose proof (post_posts c task provider model path headers (JSONBody document) w) as Hp.
    destruct (post _ _ _ _ _ _ _ _) as [r w1]. exact Hp. }
  unfold completeAttempt, completeOpenAICompatibleAttempt, completeAnthropicCompatibleAttempt.
  case_bool_decide; [|case_bool_decide; [|cbn; lia]].
  all: destruct (ctx_err c w); [cbn; lia|].
  1: destruct (openai_document model task request); [|cbn; lia].
  2: destruct (anthropic_document model task request); [|cbn; lia].
  all: apply Hsend.
Qed.
Lemma transcribeAttempt_posts c provider model task audio w : posts (transcribeAttempt c provider model task audio w).2 <= posts w + 1.
Proof.
  unfold transcribeAttempt. destruct (ctx_err c w); [cbn; lia|]. cbv zeta.
  match goal with |- context [post c task provider model ?a ?b ?d w] => pose proof (post_posts c task provider model a b d w) as Hp end.
  destruct (post _ _ _ _ _ _ _ _) as [r w1]. exact Hp.
Qed.

Section route_facts.
Context {A : Type} (run : Ctx -> ProviderSnapshot -> ModelSnapshot -> TaskSnapshot -> W -> (A + ModelFailure) * W)
  (usage_in : A -> ModelUsage) (trace_answer : attempt_of -> A -> option TraceDB -> W -> option TraceDB * W)
  (s : RuntimeModelSnapshot) (scope : TurnTraceScope) (request : ModelRequest).
Notation try_model := (try_model run usage_in trace_answer s scope request).
Notation route := (route run usage_in trace_answer s scope request).
Notation run_task := (run_task run usage_in trace_answer s scope request).

Section counting.
Hypothesis run_posts : forall c p m t w, posts (run c p m t w).2 <= posts w + 1.
Hypothesis trace_posts : forall a x db w, posts (trace_answer a x db w).2 <= posts w.

Lemma try_model_posts c a n last db w : posts (try_model c a n last db w).2 <= posts w + Z.of_nat n.
Proof.
  revert a last db w. induction n as [|n IH]; intros a last db w; [cbn; lia|]. cbn [FairyModelRouter.try_model].
  pose proof (posts_now w) as H1. destruct (now w) as [t1 w1]. cbn in H1.
  pose proof (run_posts c a.(attempt_provider) a.(attempt_model) a.(attempt_task) w1) as H2. destruct (run _ _ _ _ _) as [o w2]. cbn in H2.
  pose proof (posts_now w2) as H3. destruct (now w2) as [t2 w3]. cbn in H3. cbv zeta.
  destruct o as [x|f]; unfold appendModelTrace;
    match goal with |- context [append_event ?e db w3] => pose proof (append_event_posts e db w3) as H4; destruct (append_event e db w3) as [db4 w4] end;
    cbn in H4.
  - pose proof (trace_posts a x db4 w4) as H5. destruct (trace_answer _ _ _ _) as [db5 w5]. cbn in *. lia.
  - destruct (_ || _); [cbn; lia|]. pose proof (jitter_posts a.(attempt_provider).(Provider_RetryBackoff) w4) as H5.
    destruct (jitter _ w4) as [d w5]. cbn in H5.
    match goal with |- context [wait_for c ?z w5] => pose proof (posts_wait c z w5) as H6; destruct (wait_for c z w5) as [[e|] w6] end; cbn in H6.
    + cbn. lia.
    + etrans; [apply IH|]. lia.
Qed.

Lemma route_posts c task candidates fallback last db w :
  posts (route c task candidates fallback last db w).2 <= posts w + sum_of (attempts_with s) candidates.
Proof.
  assert (Hsum : forall l z, foldl (fun n x => n + attempts_with s x) z l = z + sum_of (attempts_with s) l).
  { unfold sum_of. induction l as [|x l IH]; intros z; cbn [foldl]; [lia|]. rewrite IH, (IH (0 + _)). lia. }
  assert (Hnn : forall l, 0 <= sum_of (attempts_with s) l).
  { induction l as [|x l IH]; [done|]. unfold sum_of. cbn [foldl]. rewrite Hsum. unfold attempts_with at 1. lia. }
  revert fallback last db w. induction candidates as [|m rest IH]; intros fallback last db w; cbn [FairyModelRouter.route]; [cbn; lia|].
  cbv zeta. fold (model_in s m). fold (provider_in s m).
  unfold sum_of. cbn [foldl]. rewrite Hsum. 
  match goal with |- context [try_model c ?a ?n last db w] => pose proof (try_model_posts c a n last db w) as Ht; destruct (try_model c a n last db w) as [[r db1] w1] end.
  cbn [snd] in Ht. fold (attempts_with s m) in Ht. pose proof (Hnn rest).
  destruct r as [x|f|[f|]]; cbn [snd]; [lia|lia| |lia].
  destruct (ModelFailure_FallbackAllowed f); [|cbn [snd]; lia]. etrans; [apply IH|]. lia.
Qed.

Lemma run_task_posts c taskID db w : snapshot_ok s -> posts (run_task c taskID db w).2 <= posts w + 48.
Proof.
  intros Hs. unfold FairyModelRouter.run_task. destruct (tasks s !! taskID) as [task|] eqn:E; [|cbn; lia].
  pose proof (route_posts c task task.(Task_CandidateModels) false None db w) as Hr.
  destruct (ok_tasks _ Hs _ _ E) as (_ & _ & Hl & _).
  assert (Hle : sum_of (attempts_with s) task.(Task_CandidateModels) <= 6 * Z.of_nat (length task.(Task_CandidateModels))).
  { clear -Hs. unfold sum_of. assert (H : forall l z, foldl (fun n x => n + attempts_with s x) z l <= z + 6 * Z.of_nat (length l)).
    { induction l as [|x l IH]; intros z; cbn [foldl length]; [lia|]. etrans; [apply IH|]. pose proof (attempts_with_ok s x Hs). lia. }
    apply (H _ 0). }
  destruct (route _ _ _ _ _ _ _) as [[[x|f|last] db1] w1]; cbn [snd] in *; lia.
Qed.
End counting.

Section validity.
Context (P : A -> Prop).
Hypothesis run_valid : forall c p m t w o w', run c p m t w = (o, w') -> match o with inl a => P a | inr f => failure_valid f end.

Definition routed_valid (r : routed A) (last : option ModelFailure) : Prop :=
  match r with
  | Answer a => P a
  | Interrupted f => failure_valid f
  | Tried l => from_option failure_valid True l
  end.
Lemma try_model_valid c a n last db w : from_option failure_valid True last -> routed_valid (try_model c a n last db w).1.1 last.
Proof.
  revert a last db w. induction n as [|n IH]; intros a last db w Hl; [exact Hl|]. cbn [FairyModelRouter.try_model].
  destruct (now w) as [t1 w1]. destruct (run _ _ _ _ _) as [o w2] eqn:Er. apply run_valid in Er. destruct (now w2) as [t2 w3]. cbv zeta.
  destruct o as [x|f]; destruct (appendModelTrace _ _ _ _ _ _ _ _ _) as [db4 w4].
  - by destruct (trace_answer _ _ _ _) as [db5 w5].
  - destruct (_ || _); [exact Er|]. destruct (jitter _ w4) as [d w5]. destruct (wait_for _ _ w5) as [[e|] w6].
    + apply cancellation_valid.
    + pose proof (IH (mkAttempt a.(attempt_task) a.(attempt_provider) a.(attempt_model) (a.(attempt_number) + 1) a.(attempt_fallback))) as IH'.
      match goal with |- context [try_model c ?a n ?l ?d ?w] => specialize (IH' l d w Er); destruct (try_model c a n l d w) as [[r1 db7] w7] end.
      by destruct r1.
Qed.
Lemma route_valid c task candidates fallback last db w :
  from_option failure_valid True last -> routed_valid (route c task candidates fallback last db w).1.1 last.
Proof.
  revert fallback last db w. induction candidates as [|m rest IH]; intros fallback last db w Hl; [exact Hl|]. cbn [FairyModelRouter.route]. cbv zeta.
  match goal with |- context [try_model c ?a ?n last db w] => pose proof (try_model_valid c a n last db w Hl) as Ht; destruct (try_model c a n last db w) as [[r db1] w1] end.
  destruct r as [x|f|[f|]]; [exact Ht|exact Ht| |exact Ht]. destruct (ModelFailure_FallbackAllowed f); [|exact Ht].
  specialize (IH true (Some f) db1 w1 Ht). by destruct (route c task rest true (Some f) db1 w1) as [[[] db2] w2].
Qed.
Lemma run_task_valid c taskID db w o db' w' : run_task c taskID db w = (o, db', w') ->
  match o with inl a => P a | inr (ModelError f) => failure_valid f | inr (IDError _) => False end.
Proof.
  unfold FairyModelRouter.run_task. destruct (tasks s !! taskID) as [task|]; [|by intros [= <- _ _]].
  pose proof (route_valid c task task.(Task_CandidateModels) false None db w I) as Hr.
  destruct (route _ _ _ _ _ _ _) as [[[x|f|[f|]] db1] w1]; intros [= <- _ _]; done.
Qed.
End validity.
End route_facts.
End router_facts.

(** ** Requests *)

(** what the checks of an answer say of its tool calls *)
Record call_ok `{Runtime} (call : ModelToolCall) : Prop := {
  call_id : validModelToolCallID call.(ModelToolCall_ID) = true;
  call_type : call.(ModelToolCall_Type) = modelToolFunctionType;
  call_name : validTraceLabel call.(ModelToolCall_Name) = true;
  call_arguments : 0 < slen call.(ModelToolCall_Arguments) <= maxModelToolArguments;
  call_object : json_object call.(ModelToolCall_Arguments) = true
}.
Definition calls_ok `{Runtime} (calls : list ModelToolCall) : Prop :=
  Z.of_nat (length calls) <= maxModelToolCalls /\ Forall call_ok calls /\ NoDup (ModelToolCall_ID <$> calls).

Section checks.
Context `{HR : Runtime}.
Lemma slen_pos s : s <> "" -> 0 < slen s.
Proof. unfold slen. destruct s; [done|cbn; lia]. Qed.

Lemma check_calls_ok seen calls : check_calls seen calls = Ok tt ->
  Forall call_ok calls /\ NoDup (ModelToolCall_ID <$> calls) /\ forall id, id ∈ ModelToolCall_ID <$> calls -> id ∉ seen.
Proof.
  revert seen. induction calls as [|call rest IH]; intros seen; cbn [check_calls].
  { intros _. split_and!; [constructor|constructor|]. by intros id ?%elem_of_nil. }
  destruct (_ || _) eqn:E; [done|].
  apply orb_false_iff in E as [E _]. apply orb_false_iff in E as [E Elen]. apply orb_false_iff in E as [E Enil].
  apply orb_false_iff in E as [E Ename]. apply orb_false_iff in E as [Eid Etype].
  destruct (json_object _) eqn:Eo; [|done]. cbn [negb]. destruct (bool_decide (ModelToolCall_ID call ∈ seen)) eqn:Hseen; [done|]. apply bool_decide_eq_false in Hseen. intros (A & B & D)%IH. split_and!.
  - constructor; [|done]. split.
    + by apply negb_false_iff.
    + by apply negb_false_iff, bool_decide_eq_true_1 in Etype.
    + by apply negb_false_iff.
    + apply bool_decide_eq_false_1 in Enil. split; [by apply slen_pos|by apply Z.ltb_ge].
    + done.
  - cbn [fmap list_fmap]. constructor; [|done]. intros Hin. apply (D _ Hin). by left.
  - intros id [->|Hin]%elem_of_cons; [done|]. intros Hs. apply (D _ Hin). by right.
Qed.
Lemma validateModelToolCalls_ok calls : validateModelToolCalls calls = Ok tt -> calls_ok calls.
Proof.
  unfold validateModelToolCalls, calls_ok. destruct (_ <? _) eqn:E; [done|]. apply Z.ltb_ge in E. intros (A & B & _)%check_calls_ok. done.
Qed.
End checks.

Section requests.
Context `{HR : Runtime} {Ctx W : Type} `{HW : ModelWorld Ctx W}.
Implicit Types (c : Ctx) (w : W) (s : RuntimeModelSnapshot) (db : option TraceDB).

Lemma modelTraceScope_posts (posts : W -> Z) `{!PostCounter posts} c db w : posts (modelTraceScope c db w).2 <= posts w.
Proof.
  unfold modelTraceScope. cbv zeta. destruct (_ || _); [done|]. pose proof (posts_draw w) as H1. destruct (draw_id w) as [d1 w1].
  destruct (newRuntimeID d1 _); [|exact H1]. pose proof (posts_draw w1) as H2. destruct (draw_id w1) as [d2 w2]. cbn in *.
  destruct (newRuntimeID d2 _); cbn; lia.
Qed.

(** the runs of a task in CompleteRequest and in Transcribe *)
Notation complete_task s scope request := (run_task (fun c provider model task w => completeAttempt c provider model task request w) completion_Usage
  (fun a answer db w => appendReasoningTrace s scope request a answer.(completion_Response).(Response_Reasoning) db w) s scope request).
Notation transcribe_task s scope audio := (run_task (fun c provider model task w => transcribeAttempt c provider model task audio w) snd
  (fun _ _ db w => (db, w)) s scope (mkModelRequest TranscriberTaskID [] [] [] false false 0 "" "")).
Lemma complete_posts (posts : W -> Z) `{HP : !PostCounter posts} s scope request c id db w : snapshot_ok s ->
  posts (complete_task s scope request c id db w).2 <= posts w + 48.
Proof.
  intros Hs. apply (run_task_posts posts); [intros; apply (completeAttempt_posts posts)|intros; apply (reasoning_posts posts)|done].
Qed.
Lemma transcribe_posts (posts : W -> Z) `{HP : !PostCounter posts} s scope audio c id db w : snapshot_ok s ->
  posts (transcribe_task s scope audio c id db w).2 <= posts w + 48.
Proof. intros Hs. apply (run_task_posts posts); [intros; apply (transcribeAttempt_posts posts)|intros; cbn; lia|done]. Qed.
Lemma complete_valid s scope request c id db w o db' w' : complete_task s scope request c id db w = (o, db', w') ->
  match o with inl a => answer_valid request.(Request_RequireJSON) a | inr (ModelError f) => failure_valid f | inr (IDError _) => False end.
Proof. apply run_task_valid. intros ? ? ? ? ? ? ? Hc. by apply completeAttempt_valid in Hc. Qed.

Lemma CompleteRequest_posts (posts : W -> Z) `{HP : !PostCounter posts} s c request db w : snapshot_ok s ->
  posts (CompleteRequest s c request db w).2 <= posts w + 48.
Proof.
  intros Hs. unfold CompleteRequest. cbv zeta. destruct (validateModelRequest request); [|cbn; lia]. destruct (negb _); [cbn; lia|].
  match goal with |- context [modelTraceScope ?c db w] => pose proof (modelTraceScope_posts posts c db w) as H1;
    destruct (modelTraceScope c db w) as [[scope|e] w1] end; cbn [snd] in H1; [|cbn; lia].
  match goal with |- context [complete_task s scope request ?c ?id db w1] =>
    pose proof (complete_posts posts s scope request c id db w1 Hs) as H2 end.
  destruct (run_task _ _ _ _ _ _ _ _ _ _) as [[o db2] w2]. cbn [snd] in *. lia.
Qed.

(** C35: a request costs a bounded number of exchanges: with a snapshot that a configuration allows
    (at most eight candidates, at most five retries each), CompleteRequest and Transcribe post at most 48
    requests to providers, whatever they answer; and none at all for an invalid request. *)
Theorem exchanges_are_bounded (posts : W -> Z) `{!PostCounter posts} s c request audio db w :
  snapshot_ok s ->
  posts (CompleteRequest s c request db w).2 <= posts w + 48
  /\ posts (Transcribe s c audio db w).2 <= posts w + 48
  /\ (validateModelRequest request <> Ok tt -> posts (CompleteRequest s c request db w).2 = posts w).
Proof.
  intros Hs. split_and!.
  - by apply (CompleteRequest_posts posts).
  - unfold Transcribe. cbv zeta. destruct (validateTranscriptionInput audio); [|cbn; lia]. destruct (negb _); [cbn; lia|].
    match goal with |- context [modelTraceScope ?c db w] => pose proof (modelTraceScope_posts posts c db w) as H1;
      destruct (modelTraceScope c db w) as [[scope|e] w1] end; cbn [snd] in H1; [|cbn; lia].
    match goal with |- context [transcribe_task s scope audio ?c ?id db w1] =>
      pose proof (transcribe_posts posts s scope audio c id db w1 Hs) as H2 end.
    destruct (run_task _ _ _ _ _ _ _ _ _ _) as [[o db2] w2]. cbn [snd] in *. lia.
  - intros Hv. unfold CompleteRequest. cbv zeta. by destruct (validateModelRequest request) as [[]|e].
Qed.

(** what a response has, for a request that requires JSON or not: the text is that of the
    provider, cut *)
Definition response_ok (requireJSON : bool) (r : ModelResponse) : Prop :=
  exists content, r.(Response_Text) = limitRunes content 4000 /\ calls_ok r.(Response_ToolCalls)
    /\ (r.(Response_ToolCalls) = [] -> blank content = false /\ (requireJSON = true -> json_valid content = true)).

Lemma answer_response requireJSON a : answer_valid requireJSON a -> response_ok requireJSON a.(completion_Response).
Proof.
  intros [(content & Hv & Ht) _]. exists content. unfold validateModelResponse in Hv.
  destruct (blank content && _) eqn:E1; [done|]. destruct (requireJSON && _ && _) eqn:E2; [done|].
  split_and!; [done|by apply validateModelToolCalls_ok|]. intros Hnil. rewrite Hnil, bool_decide_eq_true_2 in E1, E2 by done.
  rewrite andb_true_r in E1. split; [done|]. intros ->. by apply negb_false_iff.
Qed.

(** C36: what CompleteRequest returns has been checked: a response has
    at most six tool calls with distinct valid identifiers, each with a valid name and an object of at
    most 32 KiB as arguments; one without calls has a text, which was JSON, if the request requires it,
    before it was cut to 4000 runes; and a failure has one of the known codes. *)
Theorem responses_are_checked s c request db w o db' w' :
  CompleteRequest s c request db w = (o, db', w') ->
  match o with
  | inl r => validateModelRequest request = Ok tt /\ HasTask s request.(Request_TaskID) = true
             /\ response_ok request.(Request_RequireJSON) r
  | inr (ModelError f) => validModelFailureCode f.(ModelFailure_Code) = true
  | inr (IDError _) => exists w0, (draw_id w0).1 = None
  end.
Proof.
  unfold CompleteRequest. cbv zeta. destruct (validateModelRequest request) as [[]|e] eqn:Ev; [|by intros [= <- _ _]].
  destruct (HasTask s _) eqn:Et; [|by intros [= <- _ _]]. cbn [negb].
  destruct (modelTraceScope _ db w) as [[scope|e] w1] eqn:Es.
  - destruct (run_task _ _ _ _ _ _ _ _ _ _) as [[o1 db2] w2] eqn:Er. apply complete_valid in Er. intros [= <- _ _].
    destruct o1 as [a|[f|e]]; [|exact Er|done].
    split_and!; [done|done|by apply answer_response].
  - intros [= <- _ _]. unfold modelTraceScope in Es. cbv zeta in Es. destruct (_ || _); [done|].
    destruct (draw_id w) as [[d1|] w2] eqn:E1; [|exists w; by rewrite E1]. cbn [newRuntimeID] in Es.
    destruct (draw_id w2) as [[d2|] w3] eqn:E2; [done|]. exists w2. by rewrite E2.
Qed.
End requests.

(** ** Traces of attempts *)

Record scope_ok (scope : TurnTraceScope) : Prop := {
  scope_source : validTraceLabel scope.(Turn_Source) = true;
  scope_trace : validRuntimeID scope.(Turn_TraceID) = true;
  scope_turn : scope.(Turn_TurnID) = "" \/ validRuntimeID scope.(Turn_TurnID) = true
}.

Section traces.
Context `{HR : Runtime} {Ctx W : Type} `{HW : ModelWorld Ctx W}.
Implicit Types (c : Ctx) (w : W) (s : RuntimeModelSnapshot).

(** the next check of a validator has passed *)
Ltac next_check E :=
  match goal with
  | |- (if ?b then _ else _) = Ok tt -> _ => destruct b eqn:E; [intros; discriminate|]
  | |- match ?x with Ok _ => _ | Err _ => _ end = Ok tt -> _ => destruct x; [|intros; discriminate]
  end.

(** what a valid request fixes of the fields of an event *)
Lemma request_trace_fields request : validateModelRequest request = Ok tt ->
  0 <= request.(Request_Step)
  /\ (request.(Request_Repair) = true -> one_of [PlannerTaskID; ReplyerTaskID] request.(Request_TaskID) = true /\ 1 <= request.(Request_Step))
  /\ bool_decide (request.(Request_PromptVersion) = "") = bool_decide (request.(Request_PromptDigest) = "")
  /\ (request.(Request_PromptVersion) <> "" -> validTraceLabel request.(Request_PromptVersion) = true
                                              /\ validPromptDigest request.(Request_PromptDigest) = true).
Proof.
  unfold validateModelRequest. cbv zeta. next_check E1. next_check E2. next_check E0. next_check E0. next_check E3. intros _.
  apply orb_false_iff in E1 as [[_ Hs%Z.ltb_ge]%orb_false_iff _]. split; [done|]. split.
  - intros Hr. rewrite Hr in E2. cbn [andb] in E2. apply orb_false_iff in E2 as [[Ht Hs1%Z.ltb_ge]%orb_false_iff _]. split; [|lia].
    apply negb_false_iff, orb_true_iff in Ht. unfold one_of. apply bool_decide_eq_true.
    destruct Ht as [[->%bool_decide_eq_true _]%andb_true_iff|[->%bool_decide_eq_true _]%andb_true_iff]; [by left|right; by left].
  - apply orb_false_iff in E3 as [Hb Hv]. apply negb_false_iff, eqb_prop in Hb. split; [done|]. intros Hne.
    rewrite (bool_decide_eq_false_2 _ Hne) in Hv. cbn [negb andb] in Hv. apply orb_false_iff in Hv as [Hv1 Hv2].
    split; by apply negb_false_iff.
Qed.

Lemma cost_nonneg model usage : price_ok model.(Model_InputPrice) -> price_ok model.(Model_OutputPrice) ->
  tokens_ok usage.(InputTokens) -> tokens_ok usage.(OutputTokens) -> 0 <= modelCostMicroUSD model usage.
Proof.
  intros Hpi Hpo Hi Ho. unfold modelCostMicroUSD. rewrite !tokenCost_exact by done.
  pose proof (tokens_price_bound _ _ Hi Hpi). pose proof (tokens_price_bound _ _ Ho Hpo). rewrite wrap64_small; lia.
Qed.

Lemma model_event_valid s scope request a duration usage failure at_ :
  scope_ok scope -> validateModelRequest request = Ok tt -> request.(Request_Step) <= maxPlannerSteps ->
  request.(Request_TaskID) = a.(attempt_task).(Task_ID) ->
  validTraceLabel a.(attempt_task).(Task_ID) = true -> validTraceLabel a.(attempt_provider).(Provider_ID) = true ->
  validTraceLabel a.(attempt_model).(Model_ID) = true -> validRuntimeID s.(Snapshot_ID) = true ->
  1 <= a.(attempt_number) -> 0 <= duration -> tokens_ok usage.(InputTokens) -> tokens_ok usage.(OutputTokens) ->
  0 <= modelCostMicroUSD a.(attempt_model) usage -> from_option failure_valid True failure ->
  validTraceEvent (model_event s scope request a duration usage failure at_) = true.
Proof.
  intros [Hsource Htrace Hturn] Hv Hstep Htid Htl Hpl Hml Hsid Hn Hd Hi Ho Hc Hf.
  destruct (request_trace_fields _ Hv) as (Hs0 & Hrep & Hpr & Hprv).
  set (event := model_event s scope request a duration usage failure at_).
  assert (Hnum : trace_numbers_ok event = true).
  { unfold trace_numbers_ok. cbn -[modelCostMicroUSD maxPlannerSteps]. apply negb_true_iff. rewrite !orb_false_iff, !Z.ltb_ge.
    assert (0 <= duration `quot` 1000000) by (apply Z.quot_pos; lia). unfold tokens_ok in *. lia. }
  assert (Hmodel : validModelTrace event = true).
  { unfold validModelTrace, hasTraceDecisionPayload. change (TraceEvent_TaskID event) with (Task_ID (attempt_task a)).
    change (TraceEvent_ProviderID event) with (Provider_ID (attempt_provider a)). change (TraceEvent_ModelID event) with (Model_ID (attempt_model a)).
    change (TraceEvent_SnapshotID event) with (Snapshot_ID s). rewrite Htl, Hpl, Hml, Hsid. change (TraceEvent_Attempt event) with (attempt_number a).
    rewrite (proj2 (Z.ltb_ge _ _) Hn). change (TraceEvent_Repair event) with (Request_Repair request).
    change (TraceEvent_Step event) with (Request_Step request). change (TraceEvent_PromptVersion event) with (Request_PromptVersion request).
    change (TraceEvent_PromptDigest event) with (Request_PromptDigest request).
    change (TraceEvent_FailureCode event) with (from_option ModelFailure_Code "" failure).
    change (TraceEvent_Status event) with (match failure with None => "completed" | Some _ => "failed" end).
    cbn [negb orb]. change (no_tool event) with true. change (no_gate event) with true. cbn [negb orb].
    match goal with |- (if ?b then _ else _) = true => change b with false end. cbv iota. rewrite Hpr, eqb_reflx. cbn [negb orb].
    assert (Er : Request_Repair request && (negb (one_of [PlannerTaskID; ReplyerTaskID] (Task_ID (attempt_task a))) || (Request_Step request <? 1)) = false).
    { destruct (Request_Repair request); [|done]. destruct (Hrep eq_refl) as [Ht Hs1]. rewrite <-Htid, Ht. by apply Z.ltb_ge. }
    rewrite Er. destruct (bool_decide (Request_PromptDigest request = "")) eqn:Ed; cbn [negb andb orb].
    - destruct failure as [f|]; [|reflexivity]. rewrite bool_decide_eq_false_2, bool_decide_eq_true_2 by done. exact Hf.
    - destruct Hprv as [-> ->]; [by apply bool_decide_eq_false_1 in Hpr|]. cbn [negb orb].
      destruct failure as [f|]; [|reflexivity]. rewrite bool_decide_eq_false_2, bool_decide_eq_true_2 by done. exact Hf. }
  unfold validTraceEvent, validTraceEventDetails. rewrite Hnum. change (trace_sizes_ok event) with true.
  change (TraceEvent_Source event) with scope.(Turn_Source). change (TraceEvent_TraceID event) with scope.(Turn_TraceID).
  change (TraceEvent_TurnID event) with scope.(Turn_TurnID). rewrite Hsource, Htrace.
  assert (Hst : validTraceStatus event.(TraceEvent_Status) = true) by (cbn; by destruct failure).
  rewrite Hst. change (TraceEvent_Type event) with TraceModelAttempt.
  assert (Ht : bool_decide (scope.(Turn_TurnID) = "") || validRuntimeID scope.(Turn_TurnID) = true).
  { destruct Hturn as [->| ->]; [done|]. by rewrite orb_true_r. }
  rewrite Ht. cbn -[validModelTrace]. exact Hmodel.
Qed.

(** C37: the store takes the event of every attempt: for a valid request of a step that the planner can
    reach, a candidate of the task, and a turn with valid identifiers, the event that is appended after an
    attempt passes the validation of the trace store, whether the provider answered or failed, and however. *)
Theorem attempt_events_are_valid s scope request c t task m model w o w' number fallback duration at_ :
  snapshot_ok s -> scope_ok scope -> validateModelRequest request = Ok tt -> request.(Request_Step) <= maxPlannerSteps ->
  request.(Request_TaskID) = t -> s.(tasks) !! t = Some task -> s.(models) !! m = Some model ->
  1 <= number -> 0 <= duration ->
  let provider := provider_in s m in
  completeAttempt c provider model task request w = (o, w') ->
  let a := mkAttempt task provider model number fallback in
  validTraceEvent (match o with
                   | inl answer => model_event s scope request a duration answer.(completion_Usage) None at_
                   | inr failure => model_event s scope request a duration (mkUsage 0 0) (Some failure) at_
                   end) = true.
Proof.
  intros Hs Hscope Hv Hstep Ht Htask Hm Hn Hd provider Ho a.
  destruct (ok_tasks _ Hs _ _ Htask) as (Htid & Htl & _). destruct (ok_models _ Hs _ _ Hm) as (Hmid & Hml & [p Hp] & Hpi & Hpo).
  destruct (ok_providers _ Hs _ _ Hp) as (Hpid & Hpl & _).
  assert (Eprov : provider = p) by (unfold provider, provider_in, model_in; rewrite Hm; cbn [from_option id]; by rewrite Hp).
  apply completeAttempt_valid in Ho.
  destruct o as [answer|f]; apply model_event_valid; unfold a; cbn [attempt_task attempt_provider attempt_model attempt_number];
    rewrite ?Eprov, ?Htid, ?Hmid, ?Hpid; try done; try (apply (ok_id _ Hs)); try (by apply cost_nonneg; try done; apply Ho); try apply Ho.
Qed.
End traces.

(** ** At work *)

(** a world that counts the exchanges and answers as it is told, after which it fails *)
Record scripted := mkScripted { posted : Z; script : list http_outcome }.
#[refine] Instance scripted_world : ModelWorld (option TurnTraceScope) scripted := {
  ctx_err _ _ := None; ctx_turn c := c; with_timeout c _ _ := c;
  http_do _ _ w := (default ReadFailed (head w.(script)), mkScripted (w.(posted) + 1) (tail w.(script)));
  wait_for _ _ w := (None, w); int63n n w := (0, w); now w := (demo_epoch, w);
  draw_id w := (Some "0123456789abcdef", w); trace_faults w := (no_faults, w) }.
Proof. all: done || (intros; cbn; lia). Defined.
#[export] Instance posted_counter : PostCounter (Ctx := option TurnTraceScope) posted.
Proof. split; intros; cbn; lia. Qed.

Definition demo_provider : ProviderSnapshot :=
  mkProvider "main" OpenAICompatibleProtocol "https://models.example/v1/" "" minute 2 second.
Definition demo_model : ModelSnapshot := mkModelSnapshot "small" "main" "small-1" 128000 1000000 2000000.
Definition demo_model_task : TaskSnapshot := mkTask PlannerTaskID "sequential" ["small"] 600 minute 100.
Definition demo_snapshot : RuntimeModelSnapshot :=
  mkSnapshot "snapshot_1" {["main" := demo_provider]} {["small" := demo_model]} {[PlannerTaskID := demo_model_task]}.
Lemma demo_snapshot_ok : snapshot_ok demo_snapshot.
Proof.
  split; cbn [demo_snapshot Snapshot_ID tasks models providers].
  - reflexivity.
  - intros t task [<- <-]%lookup_singleton_Some. split_and!; [reflexivity|reflexivity|cbn; lia|].
    intros m ->%list_elem_of_singleton. rewrite lookup_singleton_eq. by eexists.
  - intros m model [<- <-]%lookup_singleton_Some. split_and!; [reflexivity|reflexivity| |by vm_compute|by vm_compute].
    cbn. rewrite lookup_singleton_eq. by eexists.
  - intros p provider [<- <-]%lookup_singleton_Some. split_and!; [reflexivity|reflexivity|cbn; lia|cbn; lia].
Qed.
Definition demo_request : ModelRequest :=
  mkModelRequest PlannerTaskID [chat "system" "Return one decision."; chat "user" "hello"] [] [] true false 1 "" "".
Definition json_text (v : jtext) : string := of_bytes (write_value v).
Definition answer_text (content : string) : string :=
  json_text (TObject [("choices", TArray [TObject [("message", TObject [("content", TString content)]); ("finish_reason", TString "stop")]]);
                      ("usage", TObject [("prompt_tokens", TNumber "12"); ("completion_tokens", TNumber "5")])]).
Notation demo_complete l := (CompleteRequest (H := demo_runtime) demo_snapshot None demo_request (Some (empty_trace_db "key")) (mkScripted 0 l)).

(** a server error, then an answer *)
Example demo_retries :
  let '(o, db, w) := demo_complete [Answered 503 "busy"; Answered 200 (answer_text (json_text (TObject [("action", TString "stop")])))] in
  match o with inl r => r.(Response_Text) = json_text (TObject [("action", TString "stop")]) | inr _ => False end
  /\ w.(posted) = 2 /\ (length (default (empty_trace_db "") db).(fairy_trace_events) = 2)%nat.
Proof. vm_compute. done. Qed.
(** an authentication error is not tried again *)
Example demo_gives_up :
  let '(o, db, w) := demo_complete [Answered 401 ""; Answered 200 (answer_text "{}")] in
  match o with inr (ModelError f) => f.(ModelFailure_Code) = ModelFailureAuthentication /\ f.(ModelFailure_Attempt) = 1 | _ => False end
  /\ w.(posted) = 1.
Proof. vm_compute. done. Qed.

Lemma costs_are_exact_witness :
  modelCostMicroUSD demo_model (usage_of (mkUsage 1500000 (-3))) = 1500000.
Proof.
  destruct (costs_are_exact demo_model 1500000 (-3)) as [E _]; [by vm_compute|by vm_compute|].
  rewrite E. vm_compute. reflexivity.
Defined.
Lemma retry_delays_double_witness : retryDelay (300 * 1000000) 2 = 1200 * 1000000 /\ retryDelay (10 * second) 0 = 5 * second.
Proof.
  split; [rewrite (retry_delays_double (300 * 1000000) 2) by (repeat split; by apply Z.leb_le)
         |rewrite (retry_delays_double (10 * second) 0) by (repeat split; by apply Z.leb_le)]; vm_compute; reflexivity.
Defined.
Lemma exchanges_are_bounded_witness : posted (demo_complete (replicate 60 (Answered 503 ""))).2 <= 48.
Proof.
  destruct (exchanges_are_bounded (HR := demo_runtime) posted demo_snapshot None demo_request (mkBinary "" "" "")
    (Some (empty_trace_db "key")) (mkScripted 0 (replicate 60 (Answered 503 ""))) demo_snapshot_ok) as [E _]. exact E.
Defined.
Notation demo_answer := (demo_complete [Answered 200 (answer_text (json_text (TObject [("action", TString "stop")])))]).
Lemma responses_are_checked_witness :
  match demo_answer.1.1 with inl r => response_ok (HR := demo_runtime) true r | inr _ => False end.
Proof.
  assert (Hok : match demo_answer.1.1 with inl _ => true | inr _ => false end = true) by (vm_compute; reflexivity).
  destruct demo_answer as [[o db'] w'] eqn:E. pose proof (responses_are_checked (HR := demo_runtime) _ _ _ _ _ _ _ _ E) as H.
  destruct o as [r|e]; [|discriminate Hok]. exact (proj2 (proj2 H)).
Defined.
Notation demo_attempt := (completeAttempt (H := demo_runtime) (None : option TurnTraceScope) demo_provider demo_model demo_model_task demo_request
  (mkScripted 0 [Answered 429 "slow down"])).
Lemma attempt_events_are_valid_witness :
  exists f, demo_attempt.1 = inr f
    /\ validTraceEvent (H := demo_runtime) (model_event demo_snapshot (mkTurnTraceScope "trace_1" "turn_1" "c1" "im") demo_request
         (mkAttempt demo_model_task demo_provider demo_model 1 false) second (mkUsage 0 0) (Some f) demo_epoch) = true.
Proof.
  destruct demo_attempt as [o w'] eqn:E. destruct o as [a|f].
  { assert (Hbad : match demo_attempt.1 with inl _ => true | inr _ => false end = false) by (vm_compute; reflexivity). rewrite E in Hbad. discriminate Hbad. }
  exists f. split; [reflexivity|].
  refine (attempt_events_are_valid (HR := demo_runtime) demo_snapshot (mkTurnTraceScope "trace_1" "turn_1" "c1" "im") demo_request
    None PlannerTaskID demo_model_task "small" demo_model (mkScripted 0 [Answered 429 "slow down"]) (inr f) w' 1 false second demo_epoch
    demo_snapshot_ok _ _ _ eq_refl _ _ _ _ E).
  - split; [reflexivity|reflexivity|right; reflexivity].
  - vm_compute. reflexivity.
  - apply Z.leb_le. reflexivity.
  - vm_compute. reflexivity.
  - vm_compute. reflexivity.
  - apply Z.leb_le. reflexivity.
  - apply Z.leb_le. reflexivity.
Defined.

(** ** Decisions that are cut *)

Definition long_decision : string :=
  json_text (TObject [("action", TString "respond"); ("reply_intent", TString (of_bytes (replicate (Z.to_nat 4000) 97)))]).
(** a request may require JSON, and the provider's text is then checked to be JSON; but what is
    returned is the text cut to 4000 runes and an ellipsis, which is not JSON any more: a valid decision
    longer than that is accepted from the provider and then unreadable. *)
Theorem long_decisions_are_cut :
  json_valid long_decision = true
  /\ match openai_completion (H := demo_runtime) true (answer_text long_decision) with
     | inl a => json_valid a.(completion_Response).(Response_Text) = false
     | inr _ => False
     end.
Proof. split; vm_compute; reflexivity. Qed.
