(* ===== verification/FairyAgentProps.v ===== *)
(** * What the agent says and costs (fairy/agent.go)

    Which texts are replies; what a run may ask of the model and of the tools; the form of
    the requests it makes.  A scripted world with the model router, one tool and a plugin
    is at the end. *)
From S2P Require Import Prelude GoLib Types FairyTypes RuneFacts FairyTrace JsonText FairySchema FairySensitive FairySchemaProps FairyTools FairyToolsProps FairyPlugins FairyPluginHost FairyModel FairyModelAttempt FairyModelRouter FairyModelProps FairyAgent MemoryState Demo.
From stdpp Require Import gmap strings list.
From Stdlib Require Import ZArith Lia.

Local Open Scope Z_scope.
Local Open Scope go_scope.

#[local] Opaque containsSensitiveCredential links.

(** ** The output policy *)

Section policy.
Context `{Runtime} `{Links}.

(** a link that may be shown: https, without credentials, to a host that is not this machine or its network *)
Definition link_ok (link : string) : Prop :=
  existsb (HasPrefix (to_lower link)) ["javascript:"; "data:"; "file:"; "vbscript:"] = false
  /\ exists parsed, parse_url (TrimRight link ".,;!?，。；！？") = Some parsed
  /\ parsed.(parsed_Scheme) = "https" /\ parsed.(parsed_User) = false /\ parsed.(parsed_Hostname) <> ""
  /\ local_name (to_lower parsed.(parsed_Hostname)) = false /\ local_address (to_lower parsed.(parsed_Hostname)) = false.

Lemma dangerous_link_ok link : dangerous_link link = false -> link_ok link.
Proof.
  unfold dangerous_link, link_ok. cbv zeta. intros [Hp Hu]%orb_false_iff. split; [exact Hp|].
  destruct (parse_url _) as [parsed|]; [|done]. exists parsed.
  apply orb_false_iff in Hu as [Hu Ha]. apply orb_false_iff in Hu as [Hu Hn]. apply orb_false_iff in Hu as [Hu Hh].
  apply orb_false_iff in Hu as [Hu Hs]. apply negb_false_iff, bool_decide_eq_true_1 in Hs. apply bool_decide_eq_false_1 in Hh. done.
Qed.
Lemma existsb_false {A} (f : A -> bool) l : existsb f l = false -> forall x, x ∈ l -> f x = false.
Proof.
  induction l as [|y l IH]; cbn; [by intros _ x ?%elem_of_nil|].
  intros [Hy Hl]%orb_false_iff x [->|Hx]%elem_of_cons; [done|by apply IH].
Qed.
Definition reorders (text : string) : bool := existsb (fun c => existsb (Z.eqb c) reordering) (runes text).
Lemma containsDangerous_ok value : containsDangerousOutputLink value = false ->
  Forall link_ok (links value) /\ reorders value = false.
Proof.
  unfold containsDangerousOutputLink. intros [Hl Hr]%orb_false_iff. split; [|exact Hr].
  apply Forall_forall. intros link Hin. by apply dangerous_link_ok, (existsb_false _ _ Hl).
Qed.
Lemma reorders_limit text max : 0 <= max -> reorders text = false -> reorders (limitRunes text max) = false.
Proof.
  intros Hm Ht. unfold reorders in *. rewrite runes_limit by done. destruct (_ <=? max); [exact Ht|].
  rewrite existsb_app. apply orb_false_iff. split; [|by vm_compute].
  rewrite <- (take_drop (Z.to_nat max) (runes text)), existsb_app in Ht. by apply orb_false_iff in Ht as [? _].
Qed.

(** what an accepted reply is: a text that says something, without credentials and with only good
    links, cut to a number of runes, without marks that change the direction of text *)
Definition reply_ok (max : Z) (reply : string) : Prop :=
  exists whole, reply = limitRunes whole max /\ whole <> "" /\ containsSensitiveCredential whole = false
    /\ Forall link_ok (links whole) /\ reorders reply = false /\ Z.of_nat (length (runes reply)) <= max + 3.

Lemma policy_ok candidate maxRunes reply : ApplyOutputPolicy candidate maxRunes = Ok reply ->
  reply_ok (if maxRunes <=? 0 then maxFinalReplyRunes else maxRunes) reply
  /\ reply = limitRunes (TrimSpace candidate) (if maxRunes <=? 0 then maxFinalReplyRunes else maxRunes).
Proof.
  unfold ApplyOutputPolicy. cbv zeta. case_bool_decide as Ee; [done|]. destruct (_ || _) eqn:Ed; [done|].
  apply orb_false_iff in Ed as [Ec [Hl Hr]%containsDangerous_ok]. intros [= <-]. split; [|done].
  set (max := if maxRunes <=? 0 then maxFinalReplyRunes else maxRunes).
  assert (Hm : 0 <= max) by (unfold max; destruct (Z.leb_spec maxRunes 0); [by vm_compute|lia]).
  eexists. split_and!; [reflexivity|exact Ee|exact Ec|exact Hl|by apply reorders_limit|by apply limit_length].
Qed.

(** what the output policy accepts is the trimmed candidate, cut to the limit of runes, and the
    candidate says something, contains no credentials, and every link in it can be parsed, is https,
    carries no user, and names a host that is not this machine or its network; the reply has no marks
    that change the direction of text; everything else is refused. *)
Theorem accepted_replies_are_safe candidate maxRunes :
  match ApplyOutputPolicy candidate maxRunes with
  | Ok reply =>
      let max := if maxRunes <=? 0 then maxFinalReplyRunes else maxRunes in
      reply = limitRunes (TrimSpace candidate) max /\ reply_ok max reply
  | Err code =>
      (code = AgentFailureInvalidReply /\ TrimSpace candidate = "")
      \/ (code = AgentFailureOutputRejected
          /\ (containsSensitiveCredential (TrimSpace candidate) = true
              \/ containsDangerousOutputLink (TrimSpace candidate) = true))
  end.
Proof.
  destruct (ApplyOutputPolicy candidate maxRunes) as [reply|code] eqn:E.
  - by apply policy_ok in E as [Hok Hr].
  - revert E. unfold ApplyOutputPolicy. cbv zeta. case_bool_decide as Ee; [intros [= <-]; by left|].
    destruct (_ || _) eqn:Ed; [|done]. intros [= <-]. right. split; [done|]. by apply orb_true_iff.
Qed.
End policy.

(** ** A run *)

(** a measure of the world that the clock, identifiers and traces do not raise *)
Class AgentCounter `{ModelWorld Ctx W} `{!AgentWorld} (cost : W -> Z) : Prop := {
  count_now : forall w, cost (now w).2 = cost w;
  count_draw : forall w, cost (draw_id w).2 = cost w;
  count_faults : forall w, cost (trace_faults w).2 = cost w;
  count_env : forall c w, cost (tool_env c w).2 = cost w
}.

Section run.
Context `{HR : Runtime} `{HX : Regexps} `{HL : Links} {Ctx W : Type} `{HW : ModelWorld Ctx W} `{HA : !AgentWorld} {Host Cmd Value Env : Type}.
Notation AgentRuntime := (@AgentRuntime Ctx W Host Cmd Value Env).
Notation ToolRuntime := (ToolRuntime Host W).
Notation ToolRegistry := (ToolRegistry Host W).
Implicit Types (c : Ctx) (w : W) (rt : ToolRuntime) (p : progress).
Variables (host : Host) (a : AgentRuntime) (input : @AgentInput W) (registry : option ToolRegistry) (policy : ToolPolicy).
Hypothesis Hpolicy : 0 <= policy.(MaxProjectionRunes).

Definition rt_ok rt : Prop := rt.(rt_registry) = registry /\ rt.(rt_policy) = policy.

(** an answer that the tool gives *)
Definition answers (tool : registeredTool W) (output : string) : Prop :=
  exists scope arguments w, (match tool.(reg_tool).(Tool_ExecuteScoped) with
                             | Some execute => execute scope arguments w
                             | None => tool.(reg_tool).(Tool_Execute) arguments w
                             end).1 = inl output.
(** the text that a visible tool projects for the user, from an answer that its schema admits: hidden
    when it holds a credential, and cut *)
Definition tool_text (text : string) : Prop :=
  text <> "" /\ shown policy.(MaxProjectionRunes) text
  /\ exists name r tool output projected, registry = Some r /\ registered host r name = Some tool
     /\ default false (input.(Input_VisibleTools) !! name) = true
     /\ answers tool output /\ Validate tool.(reg_outputSchema) output = Valid
     /\ tool.(reg_tool).(Tool_Project) output = Ok projected
     /\ text = TrimSpace (limitRunes (if containsSensitiveCredential projected.(UserText)
                                      then "工具结果包含疑似敏感凭据，已隐藏。" else projected.(UserText))
                           policy.(MaxProjectionRunes)).
(** an answer of the model to a request of the replyer *)
Definition replied (response : ModelResponse) : Prop :=
  exists c request db w, request.(Request_TaskID) = ReplyerTaskID
    /\ (a.(agent_model).(complete_request) c request db w).1.1 = inl response.
Definition said (response : ModelResponse) (reply : string) : Prop :=
  replied response
  /\ response.(Response_ToolCalls) = [] /\ ApplyOutputPolicy response.(Response_Text) maxFinalReplyRunes = Ok reply
  /\ (TrimSpace input.(Input_ExpectedReply) = "" \/ reply = TrimSpace input.(Input_ExpectedReply)).
Definition outcome_ok (o : AgentOutcome + agent_error) : Prop :=
  match o with
  | inl (mkOutcome reply stopped) =>
      (stopped = true /\ reply = "")
      \/ stopped = false /\ ((exists response, said response reply)
                             \/ exists texts, texts <> [] /\ Forall tool_text texts /\ reply = String.concat (newline +:+ newline) texts)
  | inr _ => True
  end.

Definition scope : ToolScope :=
  mkToolScope input.(Input_ConversationID) input.(Input_MessageType) input.(Input_SenderID) input.(Input_VisibleTools).
Definition progress_ok p : Prop :=
  p.(run_session).(session_scope) = scope /\ p.(run_session).(session_calls) <= policy.(MaxCalls)
  /\ Forall tool_text p.(run_userToolResults) /\ (p.(run_hasDirectReply) = true -> p.(run_userToolResults) <> []).

Lemma fallback_ok c results failure w : Forall tool_text results -> outcome_ok (fallbackToToolResults c results failure w).
Proof.
  intros Hr. unfold fallbackToToolResults. destruct (_ || _) eqn:E; [done|]. apply orb_false_iff in E as [_ E%bool_decide_eq_false].
  right. split; [done|]. right. exists results. split_and!; [by intros ->|done|done].
Qed.
Lemma user_reply_ok results : results <> [] -> Forall tool_text results -> outcome_ok (inl (user_reply results)).
Proof. intros Hn Hr. right. split; [done|]. right. by exists results. Qed.

(** a call that succeeds shows an answer of the tool *)
Lemma run_tool_answers env rt s tool call result w res w' output :
  run_tool env rt s tool call result w = (res, None, w') -> res.(Result_Output) = output -> answers tool output.
Proof.
  unfold run_tool. cbv zeta. destruct (if bool_decide _ then _ else _) as [e|]; [done|].
  destruct (match Tool_ExecuteScoped _ with Some _ => _ | None => _ end) as [o w1] eqn:Eo.
  destruct (env_context _ _); [done|]. destruct o as [out|]; [|done]. intros [= Hc <-] <-.
  assert (res.(Result_Output) = out) as ->.
  { revert Hc. unfold check_output. cbv zeta. destruct (bool_decide (out = "")); [done|]. destruct (_ <? _); [done|].
    destruct (Validate _ _); try done. destruct (Tool_Project _ _) as [p|]; [|done].
    destruct (_ && _); [done|]. destruct (_ && _); [done|]. by intros [= <-]. }
  exists s.(session_scope), call.(Call_Arguments), w. by rewrite Eo.
Qed.

Lemma Execute_text env call s rt w res s' rt' w' :
  rt_ok rt -> s.(session_scope) = scope -> Execute host env call s rt w = (res, s', rt', w') -> OK res = true ->
  res.(Result_Projection).(UserText) <> "" -> tool_text res.(Result_Projection).(UserText).
Proof.
  intros [Hr Hp] Hs (_ & _ & _ & Ho)%Execute_outcome Hok%bool_decide_eq_true Hne. split; [exact Hne|].
  destruct Ho as [_ _ [f Hf]|r tool res0 failure res1 Er Et Href -> _ Hrun ->]; [congruence|]. cbn in Hok. subst failure.
  destruct (run_tool_fields _ _ _ _ _ _ _ _ _ _ Hrun) as (_ & _ & _ & _ & _ & Hf).
  destruct (Hf eq_refl) as (output & pr & Hv & _ & _ & Hpr & Hout & Epr & _). cbn in Epr.
  destruct (refusal_None _ _ _ _ Href) as (_ & _ & _ & Hvis & _).
  change (shown policy.(MaxProjectionRunes) res0.(Result_Projection).(UserText) /\ exists name r tool output projected,
    registry = Some r /\ registered host r name = Some tool
    /\ default false (input.(Input_VisibleTools) !! name) = true /\ answers tool output
    /\ Validate tool.(reg_outputSchema) output = Valid /\ tool.(reg_tool).(Tool_Project) output = Ok projected
    /\ res0.(Result_Projection).(UserText) = TrimSpace (limitRunes (if containsSensitiveCredential projected.(UserText)
         then "工具结果包含疑似敏感凭据，已隐藏。" else projected.(UserText)) policy.(MaxProjectionRunes))).
  rewrite Epr, Hp. split; [by apply show_projection_shown|].
  exists call.(Call_Name), r, tool, output, pr. split_and!; [congruence|done| |by eapply run_tool_answers|done|done|done].
  unfold visible in Hvis. by rewrite Hs in Hvis.
Qed.

(** *** What it costs *)

Variables (cost : W -> Z) (m t : Z).
Context `{HC : !AgentCounter cost}.
Hypotheses (Hm : 0 <= m) (Ht : 0 <= t)
  (Hmodel : forall c request db w, cost (a.(agent_model).(complete_request) c request db w).2 <= cost w + m)
  (Hreserve : forall reserve task w, input.(Input_ReserveModel) = Some reserve -> cost (reserve task w).2 <= cost w)
  (Htool : forall r name tool text w, registry = Some r -> registered host r name = Some tool ->
     cost (tool.(reg_tool).(Tool_Execute) text w).2 <= cost w + t
     /\ forall execute, tool.(reg_tool).(Tool_ExecuteScoped) = Some execute -> cost (execute scope text w).2 <= cost w + t).

Lemma append_cost c type status request content detail rt w rt' w' :
  rt_ok rt -> appendAgentDecisionTrace c type status request content detail rt w = (rt', w') -> rt_ok rt' /\ cost w' = cost w.
Proof.
  intros Hrt. unfold appendAgentDecisionTrace. destruct (rt_trace rt) as [db|]; [|by intros [= <- <-]].
  destruct (ctx_turn c) as [turn|]; [|by intros [= <- <-]]. destruct detail as [detail|]; [|by intros [= <- <-]].
  destruct (_ || _); [by intros [= <- <-]|]. unfold append_event. pose proof (count_now w) as H1. destruct (now w) as [at_ w1].
  pose proof (count_faults w1) as H2. destruct (trace_faults w1) as [fault w2]. intros [= <- <-]. cbn in *. split; [exact Hrt|lia].
Qed.

Lemma complete_cost c request rt w response rt' w' :
  rt_ok rt -> complete a c input.(Input_ReserveModel) request rt w = (response, rt', w') -> rt_ok rt' /\ cost w' <= cost w + m.
Proof.
  intros Hrt. unfold complete. cbv zeta. destruct (ctx_err c w); [intros [= <- <- <-]; split; [done|lia]|].
  destruct (validateModelRequest request); [|intros [= <- <- <-]; split; [done|lia]].
  assert (Hres : cost (match input.(Input_ReserveModel) with None => (None, w) | Some reserve => reserve (Request_TaskID request) w end).2 <= cost w)
    by (destruct (Input_ReserveModel input) eqn:E; [by apply Hreserve|cbn; lia]).
  destruct (match input.(Input_ReserveModel) with None => _ | Some _ => _ end) as [refused w1]. cbn in Hres.
  destruct refused; [intros [= <- <- <-]; split; [done|lia]|].
  pose proof (Hmodel c request rt.(rt_trace) w1) as Hc. destruct (complete_request _ _ _ _ _) as [[o db] w2]. cbn in Hc.
  intros [= <- <- <-]. split; [exact Hrt|lia].
Qed.

Lemma draw_calls_cost calls w : cost (draw_calls calls w).2 = cost w.
Proof.
  revert w. induction calls as [|call rest IH]; intros w; cbn [draw_calls]; [done|].
  pose proof (count_draw w) as H1. destruct (draw_id w) as [d w1]. destruct (newRuntimeID d _); [|done].
  pose proof (IH w1) as H2. destruct (draw_calls rest w1) as [[l|e] w2]; cbn in *; lia.
Qed.
Lemma decision_cost response w : cost (plannerDecisionFromResponse response w).2 = cost w.
Proof.
  unfold plannerDecisionFromResponse. cbv zeta. destruct (negb _); [done|]. destruct (decodePlannerDecision _) as [d|]; [|done].
  destruct (negb _); [done|]. pose proof (draw_calls_cost d.(Decision_ToolCalls) w) as H1. by destruct (draw_calls _ w) as [[l|e] w1].
Qed.

Lemma plan_cost n repair c request rt w o rt' w' :
  rt_ok rt -> plan_from n repair a c input.(Input_ReserveModel) request rt w = (o, rt', w') ->
  rt_ok rt' /\ cost w' <= cost w + Z.of_nat n * m.
Proof.
  revert repair rt w. induction n as [|n IH]; intros repair rt w Hrt; cbn [plan_from]; [intros [= <- <- <-]; split; [done|lia]|].
  cbv zeta. destruct (complete _ _ _ _ _ _) as [[response rt1] w1] eqn:Ec. apply complete_cost in Ec as [Hrt1 Hc]; [|done].
  assert (Hn : 0 <= Z.of_nat n * m) by nia. destruct response as [response|err].
  - pose proof (decision_cost response w1) as Hd. destruct (plannerDecisionFromResponse response w1) as [decision w2]. cbn in Hd.
    destruct decision as [[d calls]|e].
    + destruct (appendAgentDecisionTrace _ _ _ _ _ _ _ _) as [rt2 w3] eqn:Et. apply append_cost in Et as [Hrt2 Ht2]; [|done].
      intros [= <- <- <-]. split; [done|lia].
    + destruct (appendAgentDecisionTrace _ _ _ _ _ _ _ _) as [rt2 w3] eqn:Et. apply append_cost in Et as [Hrt2 Ht2]; [|done].
      destruct e; [|intros [= <- <- <-]; split; [done|lia]]. destruct (_ =? _); [intros [= <- <- <-]; split; [done|lia]|].
      intros Hp. apply IH in Hp as [Hrt3 Hp]; [|done]. split; [done|lia].
  - destruct (_ && _); [|intros [= <- <- <-]; split; [done|lia]]. intros Hp. apply IH in Hp as [Hrt3 Hp]; [|done]. split; [done|lia].
Qed.

Lemma complete_replied c request rt w response rt' w' :
  request.(Request_TaskID) = ReplyerTaskID ->
  complete a c input.(Input_ReserveModel) request rt w = (inl response, rt', w') -> replied response.
Proof.
  intros Hid. unfold complete. cbv zeta. destruct (ctx_err c w); [done|]. destruct (validateModelRequest request); [|done].
  destruct (match input.(Input_ReserveModel) with None => _ | Some _ => _ end) as [refused w1]. destruct refused; [done|].
  destruct (complete_request _ _ _ _ _) as [[o db] w2] eqn:Eo. intros Heq.
  exists c, request, rt.(rt_trace), w1. split; [done|]. rewrite Eo. cbn. destruct o; by simplify_eq.
Qed.
Lemma validate_said response reply : replied response -> validateAgentReply response input.(Input_ExpectedReply) = Ok reply -> said response reply.
Proof.
  intros Hrep. unfold validateAgentReply. cbv zeta. destruct (bool_decide (length _ = _)) eqn:E1; [|done].
  destruct (ApplyOutputPolicy _ _) as [r|e] eqn:Ep; [|done]. cbn [negb]. destruct (_ && _) eqn:E; [done|]. intros [= ->].
  apply bool_decide_eq_true, nil_length_inv in E1. split_and!; [done|done|done|].
  apply andb_false_iff in E as [E|E]; apply negb_false_iff, bool_decide_eq_true_1 in E; auto.
Qed.
Lemma reply_from_cost n repair maxRepairs c request rt w o rt' w' :
  rt_ok rt -> request.(Request_TaskID) = ReplyerTaskID -> reply_from n repair maxRepairs a c input request rt w = (o, rt', w') ->
  rt_ok rt' /\ outcome_ok o /\ cost w' <= cost w + Z.of_nat n * m.
Proof.
  revert repair rt w. induction n as [|n IH]; intros repair rt w Hrt Hid; cbn [reply_from]; [intros [= <- <- <-]; split_and!; [done|done|lia]|].
  cbv zeta. set (current := if 0 <? repair then _ else request).
  assert (Hid1 : current.(Request_TaskID) = ReplyerTaskID) by (unfold current; by destruct (0 <? repair)).
  destruct (complete _ _ _ _ _ _) as [[response rt1] w1] eqn:Ec. pose proof Ec as Ecr. apply complete_cost in Ec as [Hrt1 Hc]; [|done].
  assert (Hn : 0 <= Z.of_nat n * m) by nia. destruct response as [response|err].
  - destruct (validateAgentReply _ _) as [r|code] eqn:Ev.
    + destruct (appendAgentDecisionTrace _ _ _ _ _ _ _ _) as [rt2 w3] eqn:Et. apply append_cost in Et as [Hrt2 Ht2]; [|done].
      intros [= <- <- <-]. split_and!; [done| |lia]. right. split; [done|]. left. exists response. apply validate_said; [by eapply complete_replied|done].
    + destruct (appendAgentDecisionTrace _ _ _ _ _ _ _ _) as [rt2 w3] eqn:Et. apply append_cost in Et as [Hrt2 Ht2]; [|done].
      destruct (_ =? _); [intros [= <- <- <-]; split_and!; [done|done|lia]|].
      intros Hp. apply IH in Hp as (Hrt3 & Ho & Hp); [|done..]. split_and!; [done|done|lia].
  - destruct (_ && _); [|intros [= <- <- <-]; split_and!; [done|done|lia]]. intros Hp. apply IH in Hp as (Hrt3 & Ho & Hp); [|done..]. split_and!; [done|done|lia].
Qed.
Lemma context_section_cost i w : cost (context_section i w).2 = cost w.
Proof. unfold context_section. pose proof (count_now w) as H1. destruct (IsZero _); [|done]. by destruct (now w). Qed.
Lemma reply_cost c intent toolContext step rt w o rt' w' :
  rt_ok rt -> reply a c input intent toolContext step rt w = (o, rt', w') ->
  rt_ok rt' /\ outcome_ok o /\ cost w' <= cost w + 2 * m.
Proof.
  intros Hrt. unfold reply. cbv zeta. unfold ReplyerMessages.
  match goal with |- context [context_section ?i w] => pose proof (context_section_cost i w) as H1; destruct (context_section i w) as [section w1] end.
  cbn in H1. intros Hr. apply reply_from_cost in Hr as (Hrt1 & Ho & Hc); [|done|reflexivity]. split_and!; [done|done|].
  destruct (bool_decide (TrimSpace input.(Input_ExpectedReply) = "")); cbn in Hc; lia.
Qed.

(** what is left to the session, as a cost *)
Definition left_over p : Z := t * (policy.(MaxCalls) - p.(run_session).(session_calls)).
(** the state after calls of tools, or the end of the run *)
Definition calls_ok_after p w (o : progress + (AgentOutcome + agent_error)) w' : Prop :=
  match o with
  | inl p' => progress_ok p' /\ cost w' + left_over p' <= cost w + left_over p
  | inr outcome => outcome_ok outcome /\ cost w' <= cost w + left_over p
  end.

Lemma Execute_cost env call s rt w res s' rt' w' :
  rt_ok rt -> s.(session_scope) = scope -> s.(session_calls) <= policy.(MaxCalls) ->
  Execute host env call s rt w = (res, s', rt', w') ->
  rt_ok rt' /\ s'.(session_scope) = scope /\ s'.(session_calls) <= policy.(MaxCalls)
  /\ cost w' + t * (policy.(MaxCalls) - s'.(session_calls)) <= cost w + t * (policy.(MaxCalls) - s.(session_calls)).
Proof.
  intros [Hr Hp] Hs Hc (Hr1 & Hp1 & _ & Ho)%Execute_outcome. split; [split; congruence|].
  destruct Ho as [-> -> _|r tool res0 failure res1 Er Et Href -> _ Hrun _]; [split_and!; [done|done|lia]|].
  destruct (refusal_None _ _ _ _ Href) as (_ & _ & _ & _ & _ & _ & Hlt). rewrite Hp in Hlt. cbn. split_and!; [done|lia|].
  pose proof (run_tool_cost cost t env rt ((s) <| session_calls ::= Z.succ |>) tool call res1 w Ht) as Hcost.
  rewrite Hrun in Hcost. cbn in Hcost. rewrite Hs in Hcost.
  assert (cost w' <= cost w + t); [|nia]. apply Hcost; [intros text w0|intros execute text w0 He];
    destruct (Htool r _ tool text w0 (eq_trans (eq_sym Hr) Er) Et) as [H1 H2]; [exact H1|by apply H2].
Qed.

Lemma run_call_ok c conversation step call callID p rt w o rt' w' :
  rt_ok rt -> progress_ok p -> run_call host a c conversation step call callID p rt w = (o, rt', w') ->
  rt_ok rt' /\ calls_ok_after p w o w'.
Proof.
  intros Hrt (Hs & Hc & Hresults & Hdirect). assert (Hleft : 0 <= left_over p) by (unfold left_over; nia).
  unfold run_call. cbv zeta. destruct (emitPluginEvent a.(agent_plugins) c PluginHookBeforeToolExecution _ _) as [data err].
  destruct err; [intros [= <- <- <-]; split; [done|cbn; split; [done|lia]]|].
  pose proof (count_env c w) as He. destruct (tool_env c w) as [env w1]. cbn in He.
  destruct (Execute _ _ _ _ _ _) as [[[res s1] rt1] w2] eqn:Eexec.
  apply Execute_cost in Eexec as Hcost; [|done..]. destruct Hcost as (Hrt1 & Hs1 & Hc1 & Hcost).
  set (text := res.(Result_Projection).(UserText)). set (shown_ := OK res && negb (bool_decide (text = ""))).
  set (results := if shown_ then run_userToolResults p ++ [text] else run_userToolResults p).
  set (direct := run_hasDirectReply p || shown_ && _).
  assert (Hdirect1 : direct = true -> results <> []).
  { unfold direct, results. destruct shown_; [by destruct (run_userToolResults p)|]. by rewrite orb_false_r. }
  assert (Hresults1 : Forall tool_text results).
  { unfold results, shown_. destruct (OK res) eqn:Eok; [|exact Hresults]. cbn [andb]. destruct (bool_decide _) eqn:Ene; [exact Hresults|]. cbn [negb].
    apply Forall_app. split; [exact Hresults|]. constructor; [|constructor]. apply bool_decide_eq_false in Ene. exact (Execute_text _ _ _ _ _ _ _ _ _ Hrt Hs Eexec Eok Ene). }
  clearbody results direct. destruct (emitPluginEvent a.(agent_plugins) c PluginHookAfterToolExecution _ _) as [data2 err2].
  assert (Hw2 : cost w2 <= cost w + left_over p) by (unfold left_over; nia).
  destruct err2; [intros [= <- <- <-]; split; [done|split; [by apply fallback_ok|done]]|].
  destruct (interrupted _ _ _) as [e|]; [intros [= <- <- <-]; split; [done|by split]|].
  intros [= <- <- <-]. split; [done|]. split; [by split_and!|]. unfold left_over in *. cbn. lia.
Qed.
Lemma run_tool_calls_ok c conversation step calls p rt w o rt' w' :
  rt_ok rt -> progress_ok p -> run_tool_calls host a c conversation step calls p rt w = (o, rt', w') ->
  rt_ok rt' /\ calls_ok_after p w o w'.
Proof.
  revert p rt w. induction calls as [|[call callID] rest IH]; intros p rt w Hrt Hp; cbn [run_tool_calls].
  { intros [= <- <- <-]. split; [done|]. by split. }
  destruct (run_call _ _ _ _ _ _ _ _ _ _) as [[[p1|out] rt1] w1] eqn:Ecall; apply run_call_ok in Ecall as (Hrt1 & Ho); try done.
  - destruct Ho as [Hp1 Hc1]. intros Hrest. apply IH in Hrest as (Hrt2 & Ho); [|done..]. split; [done|].
    destruct o as [p2|out]; cbn in Ho |- *; (split; [apply Ho|]); destruct Ho; lia.
  - intros [= <- <- <-]. by split.
Qed.

Lemma run_steps_ok n c step definitions p rt w o rt' w' :
  rt_ok rt -> progress_ok p -> run_steps n step host a c input definitions p rt w = (o, rt', w') ->
  rt_ok rt' /\ outcome_ok o /\ cost w' <= cost w + left_over p + (2 * Z.of_nat n + 2) * m.
Proof.
  revert step p rt w. induction n as [|n IH]; intros step p rt w Hrt Hp; cbn [run_steps].
  all: assert (Hleft : 0 <= left_over p) by (destruct Hp as (_ & Hc & _ & _); unfold left_over; nia); pose proof Hp as (_ & _ & Hresults & _).
  { intros [= <- <- <-]. split_and!; [done|by apply fallback_ok|nia]. }
  cbv zeta. destruct (plan _ _ _ _ _ _) as [[planned rt1] w1] eqn:Eplan. apply plan_cost in Eplan as [Hrt1 Hplan]; [|done].
  change (Z.of_nat (Z.to_nat (maxPlannerRepairAttempts + 1))) with 2 in Hplan.
  assert (Hn : 0 <= Z.of_nat n * m) by nia.
  destruct planned as [[decision calls]|err]; [|intros [= <- <- <-]; split_and!; [done|by apply fallback_ok|nia]].
  destruct (bool_decide (_ = PlannerCallTools)).
  - match goal with |- context [run_tool_calls _ _ _ _ _ _ ?p' _ _] => set (p1 := p') end.
    assert (Hp1 : progress_ok p1) by (destruct Hp as (? & ? & ? & _); by split_and!).
    destruct (run_tool_calls _ _ _ _ _ _ _ _ _) as [[[p2|out] rt2] w2] eqn:Ecalls; apply run_tool_calls_ok in Ecalls as (Hrt2 & Ho); try done.
    + destruct Ho as [Hp2 Hc2]. change (left_over p1) with (left_over p) in Hc2.
      pose proof Hp2 as (_ & Hcalls2 & Hresults2 & Hdirect2). assert (Hleft2 : 0 <= left_over p2) by (unfold left_over; nia).
      destruct (run_hasDirectReply p2) eqn:Edirect.
      * intros [= <- <- <-]. split_and!; [done| |nia]. by apply user_reply_ok; [apply Hdirect2|].
      * intros Hrest. apply IH in Hrest as (Hrt3 & Ho & Hc3); [|done..]. split_and!; [done|done|nia].
    + intros [= <- <- <-]. split_and!; [done|exact (proj1 Ho)|]. destruct Ho as [_ Ho]. change (left_over p1) with (left_over p) in Ho. nia.
  - destruct (one_of _ _).
    + destruct (reply _ _ _ _ _ _ _ _) as [[outcome rt2] w2] eqn:Ereply. apply reply_cost in Ereply as (Hrt2 & Ho & Hc2); [|done].
      destruct outcome as [out|err]; intros [= <- <- <-]; split_and!; [done|done|nia|done|by apply fallback_ok|nia].
    + destruct (bool_decide (_ = PlannerStop)).
      * intros [= <- <- <-]. split_and!; [done| |nia]. destruct (bool_decide (length _ = _)) eqn:El; [by left|].
        apply user_reply_ok; [|done]. apply bool_decide_eq_false in El. by intros E; rewrite E in El.
      * intros [= <- <- <-]. split_and!; [done|by apply fallback_ok|nia].
Qed.

Lemma run_agent_ok c rt w o rt' w' :
  rt_ok rt -> 0 <= policy.(MaxCalls) -> run_agent host c input a rt w = (o, rt', w') ->
  rt_ok rt' /\ outcome_ok o /\ cost w' <= cost w + policy.(MaxCalls) * t + 10 * m.
Proof.
  intros Hrt Hmax. assert (0 <= policy.(MaxCalls) * t) by nia. unfold run_agent.
  destruct (ctx_err c w); [intros [= <- <- <-]; split_and!; [done|done|nia]|].
  destruct (visibleToolDefinitions _ _ _) as [definitions|e]; [|intros [= <- <- <-]; split_and!; [done|done|nia]].
  cbv zeta. unfold PlannerMessages. pose proof (context_section_cost input w) as H1. destruct (context_section input w) as [section w1]. cbn in H1.
  intros Hsteps. apply run_steps_ok in Hsteps as (Hrt1 & Ho & Hc); [|done|].
  - split_and!; [done|done|]. unfold left_over in Hc. cbn [run_session session_calls NewSession Z.of_nat] in Hc.
    change (Z.of_nat (Z.to_nat maxPlannerSteps)) with 4 in Hc. nia.
  - split_and!; [done|done|constructor|done].
Qed.
End run.

Section theorems.
Context `{HR : Runtime} `{HX : Regexps} `{HL : Links} {Ctx W : Type} `{HW : ModelWorld Ctx W} `{HA : !AgentWorld} {Host Cmd Value Env : Type}.
Notation AgentRuntime := (@AgentRuntime Ctx W Host Cmd Value Env).
Implicit Types (host : Host) (a : AgentRuntime) (input : @AgentInput W) (c : Ctx) (w : W).

#[local] Instance nothing_counts : AgentCounter (fun _ : W => 0).
Proof. by split. Qed.

Lemma normalized_limits policy :
  0 <= (normalizeToolPolicy policy).(MaxProjectionRunes) /\ 0 <= (normalizeToolPolicy policy).(MaxCalls).
Proof.
  cbn. unfold or_default, defaultToolProjectionRune, defaultToolMaxCalls.
  destruct (Z.leb_spec policy.(MaxProjectionRunes) 0), (Z.leb_spec policy.(MaxCalls) 0); lia.
Qed.
Lemma Run_tools host a input c rt w o r' w' :
  a.(agent_tools) = Some rt -> Run host c input (Some a) w = (o, r', w') ->
  exists rt', run_agent host c input a rt w = (o, rt', w').
Proof. unfold Run. intros ->. destruct (run_agent _ _ _ _ _ _) as [[o1 rt1] w1]. intros [= <- <- <-]. by exists rt1. Qed.

(** C38: what a run says has been checked: the run stops without a word; or the reply is an answer that
    the model gave to a request of the replyer, that calls no tool, passes the output policy and is the
    expected reply if one is expected; or it puts together texts that tools projected for the user (not
    for the model) from answers that their schemas admit, tools that are registered and visible in the
    conversation, each text hidden if it holds a credential and cut to the limit of the tools' policy. *)
Theorem agent_replies_are_checked host a input registry policy authorizer trace c w reply stopped r' w' :
  a.(agent_tools) = Some (NewToolRuntime registry policy authorizer trace) ->
  Run host c input (Some a) w = (inl (mkOutcome reply stopped), r', w') ->
  stopped = true /\ reply = ""
  \/ stopped = false /\
     ((exists response c request db w,
         request.(Request_TaskID) = ReplyerTaskID
         /\ (a.(agent_model).(complete_request) c request db w).1.1 = inl response
         /\ response.(Response_ToolCalls) = [] /\ reply_ok maxFinalReplyRunes reply
         /\ reply = limitRunes (TrimSpace response.(Response_Text)) maxFinalReplyRunes
         /\ (TrimSpace input.(Input_ExpectedReply) = "" \/ reply = TrimSpace input.(Input_ExpectedReply)))
      \/ exists texts, texts <> [] /\ reply = String.concat (newline +:+ newline) texts
         /\ Forall (tool_text host input registry (normalizeToolPolicy policy)) texts).
Proof.
  intros Ha Hrun. destruct (Run_tools _ _ _ _ _ _ _ _ _ Ha Hrun) as [rt' Hagent].
  destruct (normalized_limits policy) as [Hp Hc].
  apply (run_agent_ok host a input registry (normalizeToolPolicy policy) Hp (fun _ => 0) 0 0) in Hagent as (_ & Ho & _); try done.
  destruct Ho as [Ho|[Hs [(response & (c' & request & db & w0 & Hid & Hans) & Hcalls & Hpolicy & Hexp)|(texts & Hn & Ht & Hr)]]];
    [by left|right; split; [done|]..].
  - left. exists response, c', request, db, w0. apply policy_ok in Hpolicy as [Hok Hreply]. by split_and!.
  - right. by exists texts.
Qed.

(** C39: a run is bounded: it asks the model at most ten times (twice for each of four plans, and twice
    for the reply) and runs tools at most as often as their policy allows in a session (six times by
    default), however the model and the tools answer: if no request to the model raises a measure of the
    world by more than [m] and no tool by more than [t], a run raises it by at most 10 m + max t. *)
Theorem runs_are_bounded host a input registry policy authorizer trace c w (cost : W -> Z) `{!AgentCounter cost} (m t : Z) :
  a.(agent_tools) = Some (NewToolRuntime registry policy authorizer trace) -> 0 <= m -> 0 <= t ->
  (forall c request db w, cost (a.(agent_model).(complete_request) c request db w).2 <= cost w + m) ->
  (forall reserve task w, input.(Input_ReserveModel) = Some reserve -> cost (reserve task w).2 <= cost w) ->
  (forall r name tool text w, registry = Some r -> registered host r name = Some tool ->
     cost (tool.(reg_tool).(Tool_Execute) text w).2 <= cost w + t
     /\ forall execute, tool.(reg_tool).(Tool_ExecuteScoped) = Some execute -> cost (execute (scope input) text w).2 <= cost w + t) ->
  cost (Run host c input (Some a) w).2 <= cost w + 10 * m + or_default policy.(MaxCalls) defaultToolMaxCalls * t.
Proof.
  intros Ha Hm Ht Hmodel Hreserve Htool. destruct (Run host c input (Some a) w) as [[o r'] w'] eqn:Hrun.
  destruct (Run_tools _ _ _ _ _ _ _ _ _ Ha Hrun) as [rt' Hagent]. destruct (normalized_limits policy) as [Hp Hc].
  apply (run_agent_ok host a input registry (normalizeToolPolicy policy) Hp cost m t) in Hagent as (_ & _ & Hcost); try done.
  cbn [MaxCalls normalizeToolPolicy snd] in *. lia.
Qed.
End theorems.

(** ** The requests of a run *)

(** a conversation in which every call of a tool is answered, in order, before anything else is said *)
Inductive paired : list ChatMessage -> Prop :=
| paired_nil : paired []
| paired_plain m l : m.(ChatMessage_Role) <> "tool" -> m.(ChatMessage_ToolCalls) = [] -> paired l -> paired (m :: l)
| paired_calls m results l : m.(ChatMessage_Role) = "assistant" ->
    Forall2 (fun call r => r.(ChatMessage_Role) = "tool" /\ r.(ChatMessage_ToolCallID) = call.(ModelToolCall_ID))
      m.(ChatMessage_ToolCalls) results ->
    paired l -> paired (m :: results ++ l).
Definition plain (m : ChatMessage) : Prop := m.(ChatMessage_Role) <> "tool" /\ m.(ChatMessage_ToolCalls) = [].

Lemma paired_app l1 l2 : paired l1 -> paired l2 -> paired (l1 ++ l2).
Proof.
  intros H1 H2. induction H1 as [|m l Hr Hc _ IH|m results l Hr Hc _ IH]; [done|by apply paired_plain|].
  cbn. rewrite <- app_assoc. by apply paired_calls.
Qed.
Lemma paired_all_plain l : Forall plain l -> paired l.
Proof. induction 1 as [|m l [Hr Hc] _ IH]; [apply paired_nil|by apply paired_plain]. Qed.
Lemma paired_system text : paired [chat "system" text].
Proof. by apply paired_plain; [|reflexivity|apply paired_nil]. Qed.

Section requests.
Context `{HR : Runtime} `{HX : Regexps} `{HL : Links} {Ctx W : Type} `{HW : ModelWorld Ctx W} `{HA : !AgentWorld} {Host Cmd Value Env : Type}.
Notation AgentRuntime := (@AgentRuntime Ctx W Host Cmd Value Env).
Notation ToolRuntime := (ToolRuntime Host W).
Implicit Types (c : Ctx) (w : W) (rt : ToolRuntime) (p : progress).
Variables (host : Host) (a : AgentRuntime) (input : @AgentInput W) (other : @ToolAwareModel Ctx W) (registry : option (ToolRegistry Host W)).

(** the same agent with another model *)
Definition with_model (r : AgentRuntime) : AgentRuntime := mkAgentRuntime other r.(agent_tools) r.(agent_persona) r.(agent_plugins).

(** a visible tool, as it is described to the model *)
Definition definition_of (d : ModelToolDefinition) : Prop :=
  exists r name tool, registry = Some r /\ registered host r name = Some tool
    /\ d = mkDefinition tool.(reg_spec).(Spec_Name) tool.(reg_spec).(Spec_Description) tool.(reg_spec).(Spec_InputSchema)
    /\ default false (input.(Input_VisibleTools) !! d.(Definition_Name)) = true.
Definition shape_ok (request : ModelRequest) : Prop :=
  paired request.(Request_Messages) /\ request.(Request_Images) = [] /\ 1 <= request.(Request_Step) <= maxPlannerSteps
  /\ (request.(Request_TaskID) = PlannerTaskID /\ request.(Request_RequireJSON) = true
        /\ Z.of_nat (length request.(Request_Tools)) <= maxVisibleAgentTools /\ Forall definition_of request.(Request_Tools)
      \/ request.(Request_TaskID) = ReplyerTaskID /\ request.(Request_RequireJSON) = false /\ request.(Request_Tools) = []).
(** what every request of a run is *)
Definition request_ok (request : ModelRequest) : Prop := validateModelRequest request = Ok tt /\ shape_ok request.

Hypothesis Hagree : forall c request db w, request_ok request ->
  a.(agent_model).(complete_request) c request db w = other.(complete_request) c request db w.

Lemma complete_agrees c reserve request rt w : shape_ok request ->
  complete (with_model a) c reserve request rt w = complete a c reserve request rt w.
Proof.
  intros Hs. unfold complete. cbv zeta. destruct (ctx_err c w); [done|]. destruct (validateModelRequest request) as [[]|] eqn:Ev; [|done].
  destruct (match reserve with None => _ | Some _ => _ end) as [refused w1]. destruct refused; [done|].
  by rewrite Hagree by by split.
Qed.
Lemma repair_shape rt prompt version request : shape_ok request -> shape_ok (repairRequest rt prompt version request).
Proof. intros (Hp & Hrest). split; [|exact Hrest]. apply paired_app; [exact Hp|apply paired_system]. Qed.
Lemma current_shape (repair : bool) rt prompt version request : shape_ok request ->
  shape_ok (if repair then repairRequest rt prompt version request else request).
Proof. intros Hs. destruct repair; [by apply repair_shape|done]. Qed.

Lemma plan_agrees n repair c reserve request rt w : shape_ok request ->
  plan_from n repair (with_model a) c reserve request rt w = plan_from n repair a c reserve request rt w.
Proof.
  intros Hs. revert repair rt w. induction n as [|n IH]; intros repair rt w; cbn [plan_from]; [done|]. cbv zeta.
  rewrite complete_agrees by by apply current_shape. destruct (complete _ _ _ _ _ _) as [[[response|err] rt1] w1].
  - destruct (plannerDecisionFromResponse response w1) as [[[d calls]|e] w2]; [done|].
    destruct (appendAgentDecisionTrace _ _ _ _ _ _ _ _) as [rt2 w3]. destruct e; [|done]. destruct (_ =? _); [done|apply IH].
  - destruct (_ && _); [apply IH|done].
Qed.
Lemma reply_from_agrees n repair maxRepairs c request rt w : shape_ok request ->
  reply_from n repair maxRepairs (with_model a) c input request rt w = reply_from n repair maxRepairs a c input request rt w.
Proof.
  intros Hs. revert repair rt w. induction n as [|n IH]; intros repair rt w; cbn [reply_from]; [done|]. cbv zeta.
  rewrite complete_agrees by by apply current_shape. destruct (complete _ _ _ _ _ _) as [[[response|err] rt1] w1].
  - destruct (validateAgentReply _ _); [done|].
    destruct (appendAgentDecisionTrace _ _ _ _ _ _ _ _) as [rt2 w3]. destruct (_ =? _); [done|apply IH].
  - destruct (_ && _); [apply IH|done].
Qed.
Hypotheses (Hhistory : Forall plain input.(Input_History)) (Hreplies : Forall plain input.(Input_ReplyHistory)).
Lemma reply_agrees c intent toolContext step rt w : 1 <= step <= maxPlannerSteps ->
  reply (with_model a) c input intent toolContext step rt w = reply a c input intent toolContext step rt w.
Proof.
  intros Hstep. unfold reply. cbv zeta. unfold ReplyerMessages. change (agent_prompts (with_model a)) with (agent_prompts a).
  match goal with |- context [context_section ?i w] => destruct (context_section i w) as [section w1] end.
  apply reply_from_agrees. split_and!; [|done|exact (proj1 Hstep)|exact (proj2 Hstep)|by right].
  apply paired_plain; [done|done|]. cbn [Input_History]. apply paired_app.
  - destruct (_ && _); [apply paired_nil|apply paired_system].
  - apply paired_all_plain. by destruct (bool_decide _).
Qed.

(** *** The transcript *)

Lemma draw_calls_length calls w l w' : draw_calls calls w = (Ok l, w') -> length l = length calls.
Proof.
  revert w l w'. induction calls as [|call rest IH]; intros w l w'; cbn [draw_calls]; [by intros [= <- <-]|].
  destruct (draw_id w) as [d w1]. destruct (newRuntimeID d _); [|done]. destruct (draw_calls rest w1) as [[l1|e] w2] eqn:E; [|done].
  intros [= <- <-]. cbn. f_equal. by eapply IH.
Qed.
Lemma decision_transcript response w d calls w' : plannerDecisionFromResponse response w = (inl (d, calls), w') ->
  d.(Decision_Action) = PlannerCallTools -> length calls = length d.(Decision_ToolCalls).
Proof.
  unfold plannerDecisionFromResponse. cbv zeta. destruct (negb _).
  { intros [= <- <- <-] _. cbn. by rewrite length_fmap. }
  destruct (decodePlannerDecision _) as [d1|]; [|done]. destruct (negb (bool_decide (_ = _))) eqn:E.
  { intros [= <- <- <-] Ha. by apply negb_true_iff, bool_decide_eq_false_1 in E. }
  destruct (draw_calls _ w) as [[l|e] w1] eqn:Ed; [|done]. intros [= <- <- <-] _. by eapply draw_calls_length.
Qed.
Lemma plan_transcript n repair c reserve request rt w d calls rt' w' :
  plan_from n repair a c reserve request rt w = (inl (d, calls), rt', w') ->
  d.(Decision_Action) = PlannerCallTools -> length calls = length d.(Decision_ToolCalls).
Proof.
  revert repair rt w. induction n as [|n IH]; intros repair rt w; cbn [plan_from]; [done|]. cbv zeta.
  destruct (complete _ _ _ _ _ _) as [[[response|err] rt1] w1].
  - destruct (plannerDecisionFromResponse response w1) as [[[d1 calls1]|e] w2] eqn:Ed;
      destruct (appendAgentDecisionTrace _ _ _ _ _ _ _ _) as [rt2 w3].
    + intros [= <- <- <- <-]. by eapply decision_transcript.
    + destruct e; [|done]. destruct (_ =? _); [done|apply IH].
  - destruct (_ && _); [apply IH|done].
Qed.
Lemma calls_working c conversation step calls p rt w p' rt' w' :
  run_tool_calls host a c conversation step calls p rt w = (inl p', rt', w') ->
  exists results, p'.(run_working) = p.(run_working) ++ results
    /\ Forall2 (fun id r => r.(ChatMessage_Role) = "tool" /\ r.(ChatMessage_ToolCallID) = id) calls.*2 results.
Proof.
  revert p rt w. induction calls as [|[call callID] rest IH]; intros p rt w; cbn [run_tool_calls].
  { intros [= <- <- <-]. exists []. by rewrite app_nil_r. }
  destruct (run_call _ _ _ _ _ _ _ _ _ _) as [[[p1|out] rt1] w1] eqn:E; [|done]. intros Hrest.
  apply IH in Hrest as (results & Hw & Hids). revert E. unfold run_call. cbv zeta.
  destruct (emitPluginEvent _ _ _ _ _) as [data [?|]]; [done|]. destruct (tool_env c w) as [env w2].
  destruct (Execute _ _ _ _ _ _) as [[[res s1] rt2] w3]. destruct (emitPluginEvent _ _ _ _ _) as [data2 [?|]]; [done|].
  destruct (interrupted _ _ _); [done|]. intros [= <- <- <-]. cbn [run_working] in Hw. rewrite <- app_assoc in Hw.
  eexists. split; [exact Hw|]. cbn. constructor; [done|exact Hids].
Qed.

Lemma answered calls results : Forall2 (fun id r => r.(ChatMessage_Role) = "tool" /\ r.(ChatMessage_ToolCallID) = id)
    (ModelToolCall_ID <$> calls) results ->
  paired ((chat "assistant" "") <| ChatMessage_ToolCalls := calls |> :: results).
Proof.
  intros Hr. rewrite <- (app_nil_r results). apply paired_calls; [done| |apply paired_nil].
  by apply Forall2_fmap_l in Hr.
Qed.
Lemma calls_agree c conversation step calls p rt w :
  run_tool_calls host (with_model a) c conversation step calls p rt w = run_tool_calls host a c conversation step calls p rt w.
Proof.
  revert p rt w. induction calls as [|[call callID] rest IH]; intros p rt w; cbn [run_tool_calls]; [done|].
  change (run_call host (with_model a)) with (run_call host a).
  destruct (run_call _ _ _ _ _ _ _ _ _ _) as [[[p1|out] rt1] w1]; [apply IH|done].
Qed.
Lemma steps_agree n step c definitions p rt w :
  paired p.(run_working) -> Forall definition_of definitions -> Z.of_nat (length definitions) <= maxVisibleAgentTools ->
  1 <= step -> step + Z.of_nat n <= maxPlannerSteps + 1 ->
  run_steps n step host (with_model a) c input definitions p rt w = run_steps n step host a c input definitions p rt w.
Proof.
  intros Hp Hd Hl. revert step p rt w Hp. induction n as [|n IH]; intros step p rt w Hp H1 Hn; cbn [run_steps]; [done|]. cbv zeta.
  set (request := with_metadata _ _).
  assert (Hshape : shape_ok request) by (split_and!; [exact Hp|done|exact H1|cbn; lia|by left]).
  unfold plan. rewrite plan_agrees by exact Hshape. destruct (plan_from _ _ _ _ _ _ _ _) as [[[[d calls]|err] rt1] w1] eqn:Eplan; [|done].
  destruct (bool_decide (_ = PlannerCallTools)) eqn:Ea.
  - apply bool_decide_eq_true in Ea. rewrite calls_agree.
    destruct (run_tool_calls _ _ _ _ _ _ _ _ _) as [[[p2|out] rt2] w2] eqn:Ecalls; [|done].
    destruct (run_hasDirectReply p2); [done|]. apply IH; [|lia|lia].
    apply calls_working in Ecalls as (results & -> & Hids). cbn [run_working]. rewrite <- app_assoc. apply paired_app; [exact Hp|].
    apply answered. pose proof (plan_transcript _ _ _ _ _ _ _ _ _ _ _ Eplan Ea) as Hlen.
    rewrite snd_zip in Hids by (rewrite length_fmap; lia). exact Hids.
  - destruct (one_of _ _); [|done]. rewrite reply_agrees by (cbn in *; lia). done.
Qed.

Lemma visible_definitions rt definitions : rt.(rt_registry) = registry ->
  visibleToolDefinitions host input.(Input_VisibleTools) rt = inl definitions ->
  Forall definition_of (default [] definitions) /\ Z.of_nat (length (default [] definitions)) <= maxVisibleAgentTools.
Proof.
  unfold visibleToolDefinitions. intros Hr. rewrite Hr. destruct registry as [r|] eqn:Er; [|intros [= <-]; split; [constructor|done]].
  cbv zeta. destruct (_ <? _) eqn:El; [done|]. apply Z.ltb_ge in El. intros [= <-]. cbn [from_option id]. rewrite length_fmap. split; [|exact El].
  apply Forall_fmap, Forall_forall. intros spec [Hv Hin]%list_elem_of_filter. unfold List_ in Hin.
  apply list_elem_of_omap in Hin as (name & _ & Hspec). unfold Resolve in Hspec. apply fmap_Some in Hspec as (tool & Ht & ->).
  exists r, name, tool. split_and!; [done|exact Ht|done|exact Hv].
Qed.
End requests.

Section well_formed.
Context `{HR : Runtime} `{HX : Regexps} `{HL : Links} {Ctx W : Type} `{HW : ModelWorld Ctx W} `{HA : !AgentWorld} {Host Cmd Value Env : Type}.
Notation AgentRuntime := (@AgentRuntime Ctx W Host Cmd Value Env).

(** C40: the requests of a run are well formed: a run is the same with any other model that answers the
    following requests in the same way, so it makes no others.  They pass validateModelRequest; every call
    of a tool in them is answered before anything else is said; they have
    no images and a step from 1 to 4; planners ask for JSON and are given at most sixteen tools, visible
    ones of the registry; repliers are given none.  The histories of the run are without messages of
    tools and calls of tools, as those are that the engine keeps. *)
Theorem requests_are_well_formed (host : Host) (a : AgentRuntime) (input : @AgentInput W) (other : @ToolAwareModel Ctx W)
    (rt : ToolRuntime Host W) (c : Ctx) (w : W) :
  a.(agent_tools) = Some rt ->
  Forall plain input.(Input_History) -> Forall plain input.(Input_ReplyHistory) ->
  (forall c request db w, request_ok host input rt.(rt_registry) request ->
     a.(agent_model).(complete_request) c request db w = other.(complete_request) c request db w) ->
  let '(outcome, r, w1) := Run host c input (Some a) w in
  Run host c input (Some (with_model other a)) w = (outcome, with_model other <$> r, w1).
Proof.
  intros Ha Hh Hr Hagree. unfold Run. change (agent_tools (with_model other a)) with (agent_tools a). rewrite Ha.
  assert (run_agent host c input (with_model other a) rt w = run_agent host c input a rt w) as ->.
  2: { by destruct (run_agent host c input a rt w) as [[o rt1] w1]. }
  unfold run_agent. destruct (ctx_err c w); [done|].
  destruct (visibleToolDefinitions _ _ _) as [definitions|e] eqn:Ed; [|done].
  apply (visible_definitions host input rt.(rt_registry)) in Ed as [Hd Hl]; [|done]. cbv zeta. unfold PlannerMessages.
  change (agent_prompts (with_model other a)) with (agent_prompts a).
  destruct (context_section input w) as [section w1].
  apply (steps_agree host a input other rt.(rt_registry) Hagree Hh Hr); [|done|done|done|done].
  cbn [run_working]. apply paired_plain; [done|done|by apply paired_all_plain].
Qed.
End well_formed.

(** ** At work *)

Fixpoint up_to (stops l : list Z) : list Z :=
  match l with b :: rest => if existsb (Z.eqb b) stops then [] else b :: up_to stops rest | [] => [] end.
Definition demo_url (scheme rest : string) : ParsedURL :=
  let host := of_bytes (up_to [35; 47; 63] (bytes rest)) in mkParsedURL scheme false host host "" "".
(** URLs of two schemes, and no IP addresses *)
Definition demo_links : Links := {|
  parse_url s :=
    match bytes_prefix (bytes "https://") (bytes s), bytes_prefix (bytes "http://") (bytes s) with
    | Some rest, _ => Some (demo_url "https" (of_bytes rest))
    | _, Some rest => Some (demo_url "http" (of_bytes rest))
    | _, _ => None
    end;
  parse_ip _ := None |}.
#[refine] Instance scripted_agents : AgentWorld (H2 := scripted_world) := {
  tool_env c w := (mkCallEnv (Some "0123456789abcdef") 0 second (fun _ => None) (fun _ => None) c None None no_faults demo_epoch, w) }.
Proof. done. Defined.
#[export] Instance posted_agents : AgentCounter (H0 := scripted_agents) posted.
Proof. by split. Qed.

(** a digest of 32 bytes *)
Definition digesting_runtime : Runtime := {|
  clock := @clock reading_runtime; rand_token := @rand_token reading_runtime;
  sha256 text := of_bytes (replicate 32 (foldl Z.add 0 (bytes text) mod 256));
  json_marshal := @json_marshal reading_runtime; json_marshal_nan := @json_marshal_nan reading_runtime;
  json_unmarshal := @json_unmarshal reading_runtime;
  bcrypt_hash := @bcrypt_hash reading_runtime; bcrypt_matches := @bcrypt_matches reading_runtime;
  base64_decode := @base64_decode reading_runtime; detect_content_type := @detect_content_type reading_runtime;
  parse_request_uri := @parse_request_uri reading_runtime; private_ip := @private_ip reading_runtime;
  parse_rfc3339 := @parse_rfc3339 reading_runtime; to_lower := @to_lower reading_runtime;
  parse_float := @parse_float reading_runtime; reparse_int := @reparse_int reading_runtime;
  sprintf1 := @sprintf1 reading_runtime; sprintf2 := @sprintf2 reading_runtime |}.

(** two tasks of one model; a tool that replies directly, with a link to the local machine *)
Definition agent_snapshot : RuntimeModelSnapshot :=
  mkSnapshot "snapshot_1" {["main" := demo_provider]} {["small" := demo_model]}
    {[PlannerTaskID := demo_model_task; ReplyerTaskID := mkTask ReplyerTaskID "sequential" ["small"] 600 minute 100]}.
Lemma agent_snapshot_ok : snapshot_ok agent_snapshot.
Proof.
  split; cbn [agent_snapshot Snapshot_ID tasks models providers]; try apply demo_snapshot_ok.
  intros t task [[<- <-]|[_ [<- <-]%lookup_singleton_Some]]%lookup_insert_Some; split_and!;
    [reflexivity|reflexivity|cbn; lia| |reflexivity|reflexivity|cbn; lia|];
    intros m ->%list_elem_of_singleton; rewrite lookup_singleton_eq; by eexists.
Qed.
Definition page_spec : ToolSpec := mkToolSpec "page" "Shows a page." uid_schema_text uid_schema_text
  RiskLow ToolSerial ToolReadOnly ToolReplyDirect minute 1024 1024.
Definition page_tool : Tool scripted := mkTool page_spec (fun text w => (inl text, w)) None
  (fun text => Ok (mkProjection "shown" "see http://localhost/admin")).
Notation page_registry := (Register (H := digesting_runtime) (Host := unit) (Some page_tool) NewToolRegistry).2.
Notation page_tools := (NewToolRuntime (Some page_registry) (DefaultToolPolicy ["page"]) None (Some (empty_trace_db "key"))).
Definition demo_agent : @AgentRuntime (option TurnTraceScope) scripted unit unit unit unit :=
  mkAgentRuntime (router_model (H := digesting_runtime) agent_snapshot) (Some page_tools) "Be kind." None.
Definition demo_input : @AgentInput scripted :=
  mkInput "c1" "private" "u1" "hello" [chat "user" "hello"] [] "" {["page" := true]} demo_epoch "brief" [] None.
Notation demo_run l := (Run (H := digesting_runtime) (H1 := demo_links) (H3 := scripted_agents) tt (Some demo_turn) demo_input (Some demo_agent)
  (mkScripted 0 l)).
Definition ok_answer (text : string) : http_outcome := Answered 200 (answer_text text).
Definition calls_page : string := json_quotes "{'action': 'call_tools', 'tool_calls': [{'name': 'page', 'arguments': {'uid': '10000001'}}]}".

(** a plan and a reply, of which each is asked for twice *)
Example demo_replies :
  let '(o, _, w) := demo_run [ok_answer "hello"; Answered 401 ""] in
  (o = inr (ModelFailed ((model_failure ModelFailureAuthentication false false) <| ModelFailure_HTTPStatus := 401 |>
     <| ModelFailure_ProviderID := "main" |> <| ModelFailure_ModelID := "small" |> <| ModelFailure_TaskID := PlannerTaskID |>
     <| ModelFailure_Attempt := 1 |>))) /\ w.(posted) = 2.
Proof. vm_compute. done. Qed.
Example demo_answers :
  (demo_run [ok_answer (json_quotes "{'action': 'respond', 'reply_intent': 'greet'}"); ok_answer "Hello!"]).1.1 = inl (mkOutcome "Hello!" false).
Proof. vm_compute. reflexivity. Qed.

(** the texts of tools are shown without the output policy that every answer of the model passes *)
Theorem tool_texts_skip_the_policy :
  (demo_run [ok_answer calls_page]).1.1 = inl (mkOutcome "see http://localhost/admin" false)
  /\ ApplyOutputPolicy (H := digesting_runtime) (H0 := demo_links) "see http://localhost/admin" maxFinalReplyRunes = Err AgentFailureOutputRejected.
Proof. vm_compute. done. Qed.

Lemma accepted_replies_are_safe_witness :
  match ApplyOutputPolicy (H := reading_runtime) (H0 := demo_links) " see https://a.example/x. " 4000 with
  | Ok reply => reply_ok (H := reading_runtime) (H0 := demo_links) 4000 reply
  | Err _ => False
  end.
Proof.
  assert (Hok : match ApplyOutputPolicy (H := reading_runtime) (H0 := demo_links) " see https://a.example/x. " 4000 with
                | Ok _ => true | Err _ => false end = true) by (vm_compute; reflexivity).
  pose proof (accepted_replies_are_safe (H := reading_runtime) (H0 := demo_links) " see https://a.example/x. " 4000) as Hsafe.
  destruct (ApplyOutputPolicy _ _) as [reply|code]; [exact (proj2 Hsafe)|discriminate Hok].
Defined.

Notation answered_run := (demo_run [ok_answer (json_quotes "{'action': 'respond', 'reply_intent': 'greet'}"); ok_answer "Hello!"]).
Lemma agent_replies_are_checked_witness :
  match answered_run.1.1 with
  | inl (mkOutcome reply stopped) => reply = "Hello!" /\ stopped = false /\ exists text, reply = limitRunes (TrimSpace text) maxFinalReplyRunes
  | inr _ => False
  end.
Proof.
  assert (Hout : answered_run.1.1 = inl (mkOutcome "Hello!" false)) by (vm_compute; reflexivity).
  destruct answered_run as [[o r'] w'] eqn:E. cbn [fst] in *. subst o. split; [reflexivity|split; [reflexivity|]].
  destruct (agent_replies_are_checked (HR := digesting_runtime) (HL := demo_links) (HA := scripted_agents) tt demo_agent demo_input
    (Some page_registry) (DefaultToolPolicy ["page"]) None (Some (empty_trace_db "key")) (Some demo_turn) _ "Hello!" false r' w' eq_refl E)
    as [[Hs _]|[_ [(response & _ & _ & _ & _ & _ & _ & _ & _ & Hr & _)|(texts & _ & Hr & Htexts)]]];
    [discriminate Hs|by exists response.(Response_Text)|by exists "Hello!"].
Defined.

Lemma runs_are_bounded_witness : posted (demo_run (replicate 600 (Answered 503 ""))).2 <= 480.
Proof.
  refine (runs_are_bounded (HR := digesting_runtime) (HL := demo_links) (HA := scripted_agents) tt demo_agent demo_input (Some page_registry)
    (DefaultToolPolicy ["page"]) None (Some (empty_trace_db "key")) (Some demo_turn) (mkScripted 0 (replicate 600 (Answered 503 ""))) posted 48 0
    eq_refl _ _ _ _ _).
  - by apply Z.leb_le.
  - by apply Z.leb_le.
  - intros c request db w. exact (CompleteRequest_posts (HR := digesting_runtime) posted agent_snapshot c request db w agent_snapshot_ok).
  - discriminate.
  - intros r name tool text w [= <-] Ht. apply (only_tool (H := digesting_runtime) page_tool tt name) in Ht as ->. cbn. split; [lia|discriminate].
Defined.

(** a model that answers requests with images in another way *)
Definition other_model : @ToolAwareModel (option TurnTraceScope) scripted :=
  mkToolAwareModel (fun c request db w =>
    if bool_decide (length request.(Request_Images) = 0%nat) then CompleteRequest (H := digesting_runtime) agent_snapshot c request db w
    else (inr (IDError "no images"), db, w)) None.
Lemma requests_are_well_formed_witness :
  (Run (H := digesting_runtime) (H1 := demo_links) (H3 := scripted_agents) tt (Some demo_turn) demo_input (Some (with_model other_model demo_agent))
     (mkScripted 0 [ok_answer calls_page])).1.1 = inl (mkOutcome "see http://localhost/admin" false).
Proof.
  assert (Hout : (demo_run [ok_answer calls_page]).1.1 = inl (mkOutcome "see http://localhost/admin" false)) by (vm_compute; reflexivity).
  pose proof (requests_are_well_formed (HR := digesting_runtime) (HL := demo_links) (HA := scripted_agents) tt demo_agent demo_input other_model
    page_tools (Some demo_turn) (mkScripted 0 [ok_answer calls_page]) eq_refl) as H.
  destruct (demo_run [ok_answer calls_page]) as [[o r] w1]. cbn [fst] in Hout. subst o. rewrite H; [reflexivity|..].
  - by repeat constructor.
  - constructor.
  - intros c request db w (_ & _ & Him & _). cbn. by rewrite Him.
Defined.
