(* ===== verification/FairyFactsProps.v ===== *)
(** * What the memory of facts guarantees (fairy/fact_memory.go)

    Its table over every sequence of operations, whatever statements fail: capacity of
    each scope, and scopes that cannot see or change one another. *)
From S2P Require Import Prelude GoLib Types FairyTypes FairyTrace FairySensitive FairyFacts Demo.
From stdpp Require Import gmap strings list.
From Stdlib Require Import ZArith.

Local Open Scope Z_scope.
Local Open Scope go_scope.

(** ** SQLite's length() and runes *)

(** a decoding step of more than one byte passes over continuation bytes *)
Lemma decode_rune_shape b rest r n :
  decode_rune (b :: rest) = (r, n) ->
  n = 1%nat \/ 0xC0 <= b /\ exists k, n = S k /\ Forall (fun c => cont c = true) (take k rest)
                                  /\ (k <= length rest)%nat.
Proof.
  assert (Hcont : forall lo hi c : Z, GoLib.between lo hi c = true -> 0x80 <= lo -> hi <= 0xBF -> cont c = true).
  { intros lo hi c. unfold GoLib.between, cont. rewrite !andb_true_iff, !Z.leb_le. lia. }
  unfold decode_rune. destruct (b <? 0x80); [intros [= _ <-]; by left|].
  destruct (GoLib.between 0xC2 0xDF b) eqn:E2; [|destruct (GoLib.between 0xE0 0xEF b) eqn:E3;
    [|destruct (GoLib.between 0xF0 0xF4 b) eqn:E4; [|intros [= _ <-]; by left]]];
    match goal with E : GoLib.between _ _ b = true |- _ => unfold GoLib.between in E; rewrite andb_true_iff, !Z.leb_le in E end.
  - destruct rest as [|b1 rest]; [intros [= _ <-]; by left|].
    destruct (cont b1) eqn:C; intros [= _ <-]; [right|by left]. split; [lia|].
    exists 1%nat. simpl. rewrite take_0.
    split; [done|]. split; [by repeat constructor|lia].
  - destruct rest as [|b1 [|b2 rest]]; [intros [= _ <-]; by left..|].
    cbv zeta. destruct (_ && _) eqn:C; intros [= _ <-]; [right|by left].
    rewrite andb_true_iff in C. destruct C as [C1 C2]. split; [lia|]. exists 2%nat. simpl. rewrite take_0.
    split; [done|]. split; [|lia]. apply Forall_cons; split; [|by repeat constructor].
    eapply Hcont; [exact C1|..]; repeat case_match; lia.
  - destruct rest as [|b1 [|b2 [|b3 rest]]]; [intros [= _ <-]; by left..|].
    cbv zeta. destruct (_ && _) eqn:C; intros [= _ <-]; [right|by left].
    rewrite !andb_true_iff in C. destruct C as [[C1 C2] C3]. split; [lia|]. exists 3%nat. simpl. rewrite take_0.
    split; [done|]. split; [|lia]. apply Forall_cons; split; [|by repeat constructor].
    eapply Hcont; [exact C1|..]; repeat case_match; lia.
Qed.

Lemma sql_chars_skip l k :
  Forall (fun c => cont c = true) (take k l) -> sql_chars true l <= sql_chars true (drop k l).
Proof.
  revert l. induction k as [|k IH]; intros [|b l] Hf; simpl; try done.
  simpl in Hf. apply Forall_cons in Hf as [Hb Hf]. destruct (b =? 0) eqn:E0.
  - apply Z.eqb_eq in E0 as ->. done.
  - rewrite Hb. by apply IH.
Qed.

Lemma sql_chars_runes fuel inside l :
  (length l <= fuel)%nat -> sql_chars inside l <= Z.of_nat (length (decode_runes fuel l)).
Proof.
  revert inside l. induction fuel as [|fuel IH]; intros inside [|b rest] Hl; try (simpl in *; lia).
  cbn [decode_runes]. destruct (decode_rune (b :: rest)) as [r n] eqn:Ed. cbn [length].
  assert (Hrest : forall i, sql_chars i rest <= Z.of_nat (length (decode_runes fuel rest)))
    by (intros i; apply IH; simpl in Hl; lia).
  pose proof (Hrest inside). pose proof (Hrest (0xC0 <=? b)).
  destruct (decode_rune_shape _ _ _ _ Ed) as [->|(Hb & k & -> & Hc & Hk)].
  - cbn [drop sql_chars]. rewrite drop_0. repeat case_match; lia.
  - assert (Hs : sql_chars true rest <= sql_chars true (drop k rest)) by by apply sql_chars_skip.
    assert (Hd : sql_chars true (drop k rest) <= Z.of_nat (length (decode_runes fuel (drop k rest)))).
    { apply IH. rewrite length_drop. simpl in Hl. lia. }
    assert (Hge : (0xC0 <=? b) = true) by by apply Z.leb_le.
    assert (Hnc : cont b = false) by (unfold cont; apply andb_false_iff; right; apply Z.leb_gt; lia).
    cbn [sql_chars]. rewrite Hge, Hnc, andb_false_r. cbn [drop].
    destruct (b =? 0); lia.
Qed.

Lemma sql_length_runes s : 0 <= sql_length s <= Z.of_nat (length (runes s)).
Proof.
  split; [|by apply sql_chars_runes]. unfold sql_length. generalize false (bytes s).
  intros i l. revert i. induction l as [|b l IH]; intros i; simpl; [done|].
  repeat case_match; [done|apply IH|]. specialize (IH (0xC0 <=? b)). lia.
Qed.

Lemma runes_nil s : runes s = [] -> s = "".
Proof.
  destruct s as [|c s]; [done|]. unfold runes. cbn [bytes String.list_ascii_of_string fmap list_fmap length decode_runes].
  by destruct (decode_rune (_ :: _)).
Qed.

(** ** Operations *)

Section operations.
#[local] Opaque containsSensitiveCredential.
Notation Remember := FactStore.Remember.

(** an operation, the scope it is about ([None] for the start of a process and for
    the statistics), and the time at which it prunes *)
Inductive fact_op : option FactScope -> time -> FactDB -> FactDB -> Prop :=
| op_initialize fault wall db : fact_op None wall db (FactStore.initialize fault wall db).2
| op_remember fault wall draw scope content source now db :
    fact_op (Some scope) (if IsZero now then wall else now) db
      (Remember fault wall draw scope content source now db).2
| op_list fault wall scope now db :
    fact_op (Some scope) (if IsZero now then wall else now) db (FactStore.List fault wall scope now db).2
| op_forget fault wall scope id now db :
    fact_op (Some scope) (if IsZero now then wall else now) db (FactStore.Forget fault wall scope id now db).2
| op_forget_all fault wall scope now db :
    fact_op (Some scope) (if IsZero now then wall else now) db (FactStore.ForgetAll fault wall scope now db).2
| op_stats fault wall now db :
    fact_op None (if IsZero now then wall else now) db (FactStore.Stats fault wall now db).2.

Inductive fact_reachable : FactDB -> Prop :=
| facts_empty : fact_reachable empty_fact_db
| facts_op scope now db db' : fact_reachable db -> fact_op scope now db db' -> fact_reachable db'.

Notation scope_size scope db := (Z.of_nat (size (scope_rows scope db))).
Notation scope_total scope db := (map_total (fun _ row => sql_length row.(fact_content)) (scope_rows scope db)).

Record row_ok (row : fact_row) : Prop := {
  ro_scope : validateFactScope row.(fact_scope) = Ok tt;
  ro_content : row.(fact_content) <> "" /\ Z.of_nat (length (runes row.(fact_content))) <= maxFactMemoryRunes;
  ro_clean : containsSensitiveCredential row.(fact_content) = false }.
Record facts_ok (db : FactDB) : Prop := {
  fo_rows : forall id row, db.(fairy_fact_memories) !! id = Some row -> row_ok row;
  fo_size : forall scope, scope_size scope db <= maxFactMemoriesPerScope;
  fo_total : forall scope, scope_total scope db <= maxFactMemoryScopeRunes }.

(** what an operation may do to the rows: drop some, and add one where there is room *)
Lemma facts_ok_subseteq db db' :
  facts_ok db -> db'.(fairy_fact_memories) ⊆ db.(fairy_fact_memories) -> facts_ok db'.
Proof.
  intros [H1 H2 H3] Hs.
  assert (Hsub : forall scope, scope_rows scope db' ⊆ scope_rows scope db) by (intros; by apply map_filter_subseteq_mono).
  split.
  - intros id row Hid. eapply H1. by eapply lookup_weaken.
  - intros scope. specialize (H2 scope). pose proof (map_subseteq_size _ _ (Hsub scope)). lia.
  - intros scope. etrans; [|apply (H3 scope)]. apply map_total_mono; [|apply Hsub].
    intros. apply sql_length_runes.
Qed.

(** the rows that live on at [now] *)
Definition pruned (now : time) (db : FactDB) : FactDB :=
  db <| fairy_fact_memories ::= filter (fun kv => UnixMilli now < kv.2.(fact_expires_at)) |>.

(** what an operation about [scope] does, having pruned or failed to *)
Inductive fact_effect (scope : option FactScope) (base : FactDB) : FactDB -> Prop :=
| eff_none : fact_effect scope base base
| eff_drop P `{forall kv, Decision (P kv)} :
    (forall id row, base.(fairy_fact_memories) !! id = Some row -> Some row.(fact_scope) <> scope -> P (id, row)) ->
    fact_effect scope base (base <| fairy_fact_memories ::= filter P |>)
| eff_add id row :
    Some row.(fact_scope) = scope -> base.(fairy_fact_memories) !! id = None -> row_ok row ->
    scope_size row.(fact_scope) base < maxFactMemoriesPerScope ->
    scope_total row.(fact_scope) base + Z.of_nat (length (runes row.(fact_content))) <= maxFactMemoryScopeRunes ->
    fact_effect scope base (base <| fairy_fact_memories ::= <[id := row]> |>).

Lemma prune_cases fault wall now db :
  FactStore.prune fault wall now db = (Ok tt, pruned (if IsZero now then wall else now) db)
  \/ exists err, FactStore.prune fault wall now db = (Err err, db).
Proof. unfold FactStore.prune, exec. destruct (fault PruneFacts); [right; by eexists|by left]. Qed.

Lemma exec_none {A} scope fault st what (db base : FactDB) (next : result A * FactDB) :
  fact_effect scope base db -> fact_effect scope base next.2 ->
  fact_effect scope base (exec (fault : fact_stmt -> option string) st what db next).2.
Proof. apply exec_inv. Qed.

Lemma remember_effect fault wall draw scope content source now db :
  let now' := if IsZero now then wall else now in
  exists base, (base = db \/ base = pruned now' db)
    /\ fact_effect (Some scope) base (Remember fault wall draw scope content source now db).2.
Proof.
  cbv zeta. unfold FactStore.Remember. cbv zeta. set (text := TrimSpace content).
  destruct (negb (is_ok _) || _ || _ || _ || _ || _) eqn:Eg; [exists db; split; [by left|constructor]|].
  apply orb_false_iff in Eg as [Eg Hclean]. rewrite !orb_false_iff in Eg.
  destruct Eg as [[[[Hscope Hempty] Hrunes] _] _].
  set (now' := if IsZero now then wall else now).
  assert (Hn : (if IsZero now' then wall else now') = now').
  { unfold now'. destruct (IsZero now) eqn:E; [by destruct (IsZero wall)|by rewrite E]. }
  destruct (prune_cases fault wall now' db) as [E|[err E]]; rewrite E; [|exists db; split; [by left|constructor]].
  rewrite Hn. exists (pruned now' db). split; [by right|]. set (base := pruned now' db).
  apply exec_none; [constructor|]. apply exec_none; [constructor|].
  destruct (_ || (maxFactMemoryScopeRunes <? _)) eqn:Ecap; [constructor|].
  apply orb_false_iff in Ecap as [Hsize Htotal]. apply Z.leb_gt in Hsize. apply Z.ltb_ge in Htotal.
  destruct (newRuntimeID draw "fact") as [id|err]; [|constructor].
  apply exec_none; [constructor|]. destruct (bool_decide (is_Some _) || _) eqn:Eu; [constructor|].
  apply orb_false_iff in Eu as [Hid _]. apply bool_decide_eq_false, eq_None_not_Some in Hid.
  apply exec_none; [constructor|]. cbn [snd]. apply eff_add; cbn; [reflexivity|assumption| |assumption|assumption].
  apply negb_false_iff in Hscope. apply bool_decide_eq_false in Hempty. apply Z.ltb_ge in Hrunes. split; cbn.
  - destruct (validateFactScope scope) as [[]|]; [reflexivity|discriminate].
  - by split.
  - assumption.
Qed.

Ltac prune_or_fail :=
  match goal with
  | |- context [FactStore.prune ?fault ?wall ?now ?db] =>
      let E := fresh "E" in let err := fresh "err" in
      destruct (prune_cases fault wall now db) as [E|[err E]]; rewrite E;
        [eexists; split; [by right|]|eexists; split; [by left|constructor]]
  end.

Lemma op_effect scope now db db' :
  fact_op scope now db db' -> exists base, (base = db \/ base = pruned now db) /\ fact_effect scope base db'.
Proof.
  intros Hop. destruct Hop as [fault wall db|fault wall draw scope content source now db|fault wall scope now db
    |fault wall scope id now db|fault wall scope now db|fault wall now db].
  - unfold FactStore.initialize. destruct (prune_cases fault wall wall db) as [E|[err E]]; rewrite E;
      eexists; [split; [right; reflexivity|]|split; [by left|constructor]].
    destruct (IsZero wall); constructor.
  - apply remember_effect.
  - unfold FactStore.List. destruct (validateFactScope scope); [|exists db; split; [by left|constructor]].
    prune_or_fail.
    apply exec_none; constructor.
  - unfold FactStore.Forget. destruct (_ || _ || _); [exists db; split; [by left|constructor]|].
    prune_or_fail.
    apply exec_none; [constructor|]. case_bool_decide as Hs; [|constructor]. cbn [snd].
    set (base := pruned _ db) in *.
    replace (base <| fairy_fact_memories ::= delete id |>)
      with (base <| fairy_fact_memories ::= filter (fun kv : string * fact_row => kv.1 <> id) |>).
    + apply eff_drop. intros id' row Hrow Hne Heq. cbn in Heq. subst id'.
      apply Hne. by rewrite <-Hs, Hrow.
    + unfold field_update. cbn. f_equal. apply map_eq. intros i. apply option_eq. intros x.
      rewrite map_lookup_filter_Some, lookup_delete_Some. cbn. intuition.
  - unfold FactStore.ForgetAll. destruct (validateFactScope scope); [|exists db; split; [by left|constructor]].
    prune_or_fail.
    apply exec_none; [constructor|]. cbn [snd]. apply eff_drop. intros id row _ Hne Heq. apply Hne. by rewrite <-Heq.
  - unfold FactStore.Stats.
    prune_or_fail.
    apply exec_none; constructor.
Qed.

Lemma effect_ok scope base db' : facts_ok base -> fact_effect scope base db' -> facts_ok db'.
Proof.
  intros Hok Heff. destruct Heff as [|P Hdec HP|id row Hs Hid Hrow Hsize Htotal]; [done|..].
  - apply (facts_ok_subseteq base); [done|]. apply map_filter_subseteq.
  - destruct Hok as [H1 H2 H3].
    assert (Hrows : forall B, scope_rows B (base <| fairy_fact_memories ::= <[id := row]> |>)
      = if decide (row.(fact_scope) = B) then <[id := row]> (scope_rows B base) else scope_rows B base).
    { intros B. unfold scope_rows. cbn. destruct (decide _) as [HB|HB].
      - by rewrite map_filter_insert_True.
      - rewrite map_filter_insert_False by done. by rewrite delete_id. }
    assert (Hnone : forall B, scope_rows B base !! id = None).
    { intros B. apply map_lookup_filter_None. by left. }
    split.
    + cbn. intros id' row' [[<- <-]|[_ Hl]]%lookup_insert_Some; [done|by eapply H1].
    + intros B. rewrite Hrows. destruct (decide _) as [<-|]; [|apply H2].
      rewrite map_size_insert_None by apply Hnone. lia.
    + intros B. rewrite Hrows. destruct (decide _) as [<-|]; [|apply H3].
      rewrite map_total_insert by apply Hnone. pose proof (sql_length_runes row.(fact_content)). lia.
Qed.

Lemma pruned_ok now db : facts_ok db -> facts_ok (pruned now db).
Proof. intros Hok. apply (facts_ok_subseteq db); [done|]. apply map_filter_subseteq. Qed.

Lemma reachable_facts_ok db : fact_reachable db -> facts_ok db.
Proof.
  induction 1 as [|scope now db db' _ IH Hop].
  - split; intros *; unfold scope_rows; cbn; rewrite ?map_filter_empty; done.
  - apply op_effect in Hop as (base & [->| ->] & Heff); (eapply effect_ok; [|exact Heff]); [done|].
    by apply pruned_ok.
Qed.

(** the memory of facts stays within its capacity: in every state of the table that
    its operations reach, whatever statements fail, each scope holds at most 30 facts,
    of at most 6000 characters in all as SQLite counts them, each fact has between 1 and
    300 runes and passed the filter for credentials, and its scope is a valid one. *)
Theorem facts_within_capacity (db : FactDB) :
  fact_reachable db ->
  (forall scope, Z.of_nat (size (scope_rows scope db)) <= 30
     /\ map_total (fun _ row => sql_length row.(fact_content)) (scope_rows scope db) <= 6000)
  /\ (forall id row, db.(fairy_fact_memories) !! id = Some row ->
        1 <= Z.of_nat (length (runes row.(fact_content))) <= 300
        /\ containsSensitiveCredential row.(fact_content) = false
        /\ validateFactScope row.(fact_scope) = Ok tt).
Proof.
  intros Hok%reachable_facts_ok. split.
  - intros scope. split; [apply (fo_size _ Hok)|apply (fo_total _ Hok)].
  - intros id row Hrow. destruct (fo_rows _ Hok _ _ Hrow) as [Hs [Hne Hr] Hc]. split; [|by split].
    split; [|assumption]. destruct (runes row.(fact_content)) eqn:E; [exfalso; apply Hne|simpl; lia].
    by apply runes_nil.
Qed.

(** the facts of a scope that no operation about it touched *)
Lemma effect_isolated scope base db' B :
  Some B <> scope -> fact_effect scope base db' -> scope_rows B db' = scope_rows B base.
Proof.
  intros Hne [|P Hdec HP|id row Hs Hid Hrow _ _]; [done|..]; unfold scope_rows; cbn.
  - apply map_eq. intros id. apply option_eq. intros row. rewrite !map_lookup_filter_Some. cbn. split.
    + by intros [[Hl _] Hs].
    + intros [Hl Hs]. split; [|done]. split; [done|]. apply HP; [done|]. by rewrite Hs.
  - rewrite map_filter_insert_False; [by rewrite delete_id|]. cbn. congruence.
Qed.

(** scopes are isolated: whatever a user or a group does to its own facts, and however
    its requests fail, the facts of any other scope stay the same, those that expire
    apart; and a request to forget a fact of another scope finds nothing. *)
Theorem facts_are_isolated scope (now : time) (db db' : FactDB) (B : FactScope) :
  fact_op scope now db db' -> Some B <> scope ->
  (forall id row, scope_rows B db !! id = Some row -> UnixMilli now < row.(fact_expires_at) ->
     scope_rows B db' !! id = Some row)
  /\ scope_rows B db' ⊆ scope_rows B db
  /\ (forall fault wall id A at_, A <> B -> is_Some (scope_rows B db !! id) ->
        (FactStore.Forget fault wall A id at_ db).1 <> Ok true).
Proof.
  intros Hop Hne. apply op_effect in Hop as (base & Hbase & Heff).
  rewrite (effect_isolated _ _ _ _ Hne Heff).
  assert (Hp : scope_rows B (pruned now db) ⊆ scope_rows B db)
    by apply map_filter_subseteq_mono, map_filter_subseteq.
  split; [|split].
  - intros id row Hl Hexp. destruct Hbase as [->| ->]; [done|].
    apply map_lookup_filter_Some in Hl as [Hl Hs]. apply map_lookup_filter_Some. split; [|done].
    by apply map_lookup_filter_Some.
  - by destruct Hbase as [->| ->].
  - intros fault wall id A at_ HAB [row [Hl Hs]%map_lookup_filter_Some]. unfold FactStore.Forget.
    destruct (_ || _ || _); [done|].
    destruct (prune_cases fault wall at_ db) as [E|[err E]]; rewrite E; [|done].
    unfold exec. destruct (fault DeleteFact); [done|]. rewrite bool_decide_false; [done|].
    cbn. intros Hl'. apply fmap_Some in Hl' as (row' & Hl' & Hs').
    apply map_lookup_filter_Some in Hl' as [Hl' _]. cbn in Hs. congruence.
Qed.
End operations.

(** ** Recall *)

(** what is recalled: facts of the list, in its order, at most 12, of at most 2000 runes *)
Lemma recalled_fits memories :
  (length (recalled memories) <= 12)%nat
  /\ sum_of (fun m => Z.of_nat (length (runes m.(Fact_Content)))) (recalled memories) <= 2000
  /\ recalled memories `sublist_of` memories.
Proof.
  set (w := fun m => Z.of_nat (length (runes m.(Fact_Content)))).
  assert (Hg : forall n total, n <= maxRecalledFacts -> total <= maxRecalledFactRunes ->
    n + Z.of_nat (length (recalled_from memories n total)) <= maxRecalledFacts
    /\ total + sum_of w (recalled_from memories n total)
       <= maxRecalledFactRunes
    /\ recalled_from memories n total `sublist_of` memories).
  { unfold maxRecalledFacts, maxRecalledFactRunes.
    induction memories as [|m rest IH]; intros n total Hn Ht; simpl; [repeat split; [lia..|constructor]|].
    unfold maxRecalledFacts, maxRecalledFactRunes in *.
    destruct (Z.leb_spec 12 n); [simpl; repeat split; [lia..|apply sublist_nil_l]|].
    destruct (Z.ltb_spec 2000 (total + Z.of_nat (length (runes m.(Fact_Content))))).
    - destruct (IH n total Hn Ht) as (H1 & H2 & H3). repeat split; [lia..|by apply sublist_cons].
    - destruct (IH (n + 1) (total + Z.of_nat (length (runes m.(Fact_Content)))) ltac:(lia) ltac:(lia))
        as (H1 & H2 & H3). cbn [length]. match goal with |- context [sum_of w (m :: ?l)] => rewrite (sum_of_app w [m] l : sum_of w (m :: l) = _) end.
      assert (sum_of w [m] = Z.of_nat (length (runes m.(Fact_Content))) + 0) by reflexivity.
      repeat split; [lia..|by apply sublist_skip]. }
  destruct (Hg 0 0) as (H1 & H2 & H3); unfold maxRecalledFacts, maxRecalledFactRunes in *; try lia.
  unfold recalled. repeat split; [lia..|done].
Qed.

(** ** A concrete table *)

Definition demo_scope (user : string) : FactScope := mkFactScope FactScopePrivate ("dm_" +:+ user) user.
Definition no_fact_faults : fact_stmt -> option string := fun _ => None.
Definition demo_remember (draw user content source : string) (db : FactDB) : FactDB :=
  (FactStore.Remember no_fact_faults demo_epoch (Some draw) (demo_scope user) content source
     demo_epoch db).2.
(** one fact of alice, one of bob *)
Definition demo_alice_facts : FactDB := demo_remember "0123456789abcdef" "alice" " likes tea " "m1" empty_fact_db.
Definition demo_facts : FactDB := demo_remember "fedcba9876543210" "bob" "lives in Paris" "m2" demo_alice_facts.

Lemma demo_remember_op draw user content source db :
  fact_op (Some (demo_scope user)) demo_epoch db (demo_remember draw user content source db).
Proof. apply (op_remember no_fact_faults demo_epoch (Some draw) (demo_scope user) content source demo_epoch). Qed.
Lemma demo_facts_reachable : fact_reachable demo_facts.
Proof. eapply facts_op, demo_remember_op. eapply facts_op, demo_remember_op. apply facts_empty. Qed.

Lemma facts_within_capacity_witness :
  size demo_facts.(fairy_fact_memories) = 2%nat
  /\ Z.of_nat (size (scope_rows (demo_scope "alice") demo_facts)) <= 30.
Proof.
  split; [vm_compute; reflexivity|].
  exact (proj1 (proj1 (facts_within_capacity demo_facts demo_facts_reachable) (demo_scope "alice"))).
Defined.

Lemma facts_are_isolated_witness :
  exists id row, scope_rows (demo_scope "alice") demo_facts !! id = Some row
    /\ row.(fact_content) = "likes tea".
Proof.
  set (id := "fact_" +:+ EncodeToString "0123456789abcdef").
  set (row := mkFactRow (demo_scope "alice") "likes tea" "m1" (UnixMilli demo_epoch)
    (UnixMilli (demo_epoch + defaultFactMemoryTTL))).
  exists id, row. split; [|reflexivity].
  refine (proj1 (facts_are_isolated (Some (demo_scope "bob")) demo_epoch demo_alice_facts
    demo_facts (demo_scope "alice") _ _) id row _ _).
  - apply demo_remember_op.
  - intros E. vm_compute in E. discriminate E.
  - vm_compute. reflexivity.
  - vm_compute. reflexivity.
Defined.

(** SQLite stops counting at a NUL, so the capacity in characters does not bound runes *)
Example nul_hides_runes :
  let content := NUL +:+ "hidden" in sql_length content = 0 /\ length (runes content) = 7%nat.
Proof. split; vm_compute; reflexivity. Qed.

Example recall_fits :
  Fact_ID <$> recalled (repeat (mkFact "f" (of_runes (repeat 0x4E2D 300)) "m" 0 0) 7) = repeat "f" 6.
Proof. vm_compute. reflexivity. Qed.
