(* ===== verification/FairyState.v ===== *)
(** * Switches and quotas of the assistant (fairy/state.go)

    The state that management commands change and the counters of model calls, with the
    file they are saved to.  The file holds a JSON document; saving writes a temporary
    file and renames it, so a failed save leaves the old document in place. *)
From S2P Require Import Prelude GoLib Types Capabilities DynamicInteraction FairyTypes FairyTrace FairyFacts.
From stdpp Require Import gmap strings list.
From Stdlib Require Import ZArith.

Local Open Scope Z_scope.
Local Open Scope go_scope.

(** ** The document *)

Record groupState := mkGroupState { GroupState_Enabled : bool; GroupState_SoftTriggerMode : string }.
#[export] Instance eta_groupState : Eta groupState := fun r => mkGroupState r.(GroupState_Enabled) r.(GroupState_SoftTriggerMode).

(** a nil map reads as an empty one *)
Record persistedState := mkPersisted {
  Persisted_Version : Z; Persisted_Groups : gmap string groupState; Persisted_ContextDisabled : gmap string bool;
  Persisted_FactMemoryEnabled : gmap string bool; Persisted_QuotaDate : string; Persisted_QuotaCalls : Z;
  Persisted_TaskQuotaDates : gmap string string; Persisted_TaskQuotaCalls : gmap string Z }.
#[export] Instance eta_persistedState : Eta persistedState := fun r => mkPersisted
  r.(Persisted_Version) r.(Persisted_Groups) r.(Persisted_ContextDisabled) r.(Persisted_FactMemoryEnabled) r.(Persisted_QuotaDate) r.(Persisted_QuotaCalls)
  r.(Persisted_TaskQuotaDates) r.(Persisted_TaskQuotaCalls).

(** Types with their JSON, as encoding/json writes and reads them: reading starts from
    the value that the field holds, and gives back what was written. *)
Class JSONField (A : Type) := {
  json_enc : A -> json;
  json_dec : json -> A -> option A;
  json_zero : A;
  json_valid : A -> Prop;
  json_field_law : forall a, json_valid a -> json_dec (json_enc a) json_zero = Some a }.

#[export] Program Instance bool_field : JSONField bool :=
  {| json_enc := JBool; json_dec := decode_bool; json_zero := false; json_valid _ := True |}.
Solve All Obligations with done.
#[export] Program Instance string_field : JSONField string :=
  {| json_enc := JStr; json_dec := decode_string; json_zero := ""; json_valid _ := True |}.
Solve All Obligations with done.

(** an int; a number written with an exponent is not told apart *)
Definition int64_ok (z : Z) : bool := (- 2 ^ 63 <=? z) && (z <? 2 ^ 63).
Definition decode_whole (v : json) (old : Z) : option Z :=
  match v with
  | JNull => Some old
  | JNum n =>
      let t := num_trunc n in if num_eqb n (num_of_Z t) && int64_ok t then Some t else None
  | _ => None
  end.
Lemma decode_whole_jint z old : int64_ok z = true -> decode_whole (jint z) old = Some z.
Proof.
  intros Hz. unfold decode_whole, jint.
  assert (Ht : num_trunc (num_of_Z z) = z) by (unfold num_trunc; cbn; lia).
  assert (He : num_eqb (num_of_Z z) (num_of_Z z) = true) by (unfold num_eqb, num_align; apply Z.eqb_refl).
  cbv zeta. by rewrite Ht, He, Hz.
Qed.
#[export] Program Instance int_field : JSONField Z :=
  {| json_enc := jint; json_dec := decode_whole; json_zero := 0; json_valid z := int64_ok z = true |}.
Next Obligation. intros z Hz. by apply decode_whole_jint. Qed.

(** is the value left out by omitempty? *)
Definition empty_json (v : json) : bool :=
  match v with JObj m => bool_decide (m = ∅) | _ => zero_json v end.
Definition optional (key : string) (v : json) : list (string * json) :=
  if empty_json v then [] else [(key, v)].

Definition set_group_field (key : string) (v : json) (g : groupState) : option groupState :=
  if same_key key "enabled" then (fun b => g <| GroupState_Enabled := b |>) <$> decode_bool v g.(GroupState_Enabled)
  else if same_key key "soft_trigger_mode"
  then (fun m => g <| GroupState_SoftTriggerMode := m |>) <$> decode_string v g.(GroupState_SoftTriggerMode)
  else Some g.
Definition group_json (g : groupState) : json :=
  obj (("enabled", JBool g.(GroupState_Enabled)) :: optional "soft_trigger_mode" (JStr g.(GroupState_SoftTriggerMode))).
#[export] Program Instance group_field : JSONField groupState :=
  {| json_enc := group_json; json_dec := decode_struct set_group_field;
     json_zero := mkGroupState false ""; json_valid _ := True |}.
Next Obligation.
  intros [b m] _. unfold group_json, optional. cbn [GroupState_Enabled GroupState_SoftTriggerMode empty_json zero_json].
  case_bool_decide as Hm; [subst m|]; vm_compute; reflexivity.
Qed.

(** a map: every value is read into a new zero value *)
Definition set_entry {A} `{JSONField A} (key : string) (v : json) (m : gmap string A) : option (gmap string A) :=
  (fun a => <[key := a]> m) <$> json_dec v json_zero.
Definition decode_map {A} `{JSONField A} (v : json) (old : gmap string A) : option (gmap string A) :=
  match v with
  | JNull => Some ∅
  | JObj m => decode_members set_entry m old
  | _ => None
  end.

Lemma read_entries {A} `{JSONField A} (l : list (string * A)) (m : gmap string A) :
  NoDup l.*1 -> Forall (fun kv => json_valid kv.2 /\ m !! kv.1 = None) l ->
  foldl (fun acc kv => acc ≫= set_entry kv.1 kv.2) (Some m) (prod_map id json_enc <$> l)
  = Some (list_to_map l ∪ m).
Proof.
  revert m. induction l as [|[k a] l IH]; intros m Hn Hf; simpl; [by rewrite (left_id_L ∅ (∪))|].
  apply NoDup_cons in Hn as [Hk Hn]. apply Forall_cons in Hf as [[Ha Hm] Hf]. simpl in *.
  unfold set_entry at 2. cbn. rewrite (json_field_law a Ha). cbn. rewrite IH; [|done|].
  - f_equal. rewrite <-insert_union_l. rewrite <-insert_union_r; [done|]. by apply not_elem_of_list_to_map_1.
  - apply Forall_forall. intros [k' a'] Hin. rewrite Forall_forall in Hf. destruct (Hf _ Hin) as [Hv Hl].
    split; [done|]. simpl in *. rewrite lookup_insert_ne; [done|]. intros ->. apply Hk.
    apply list_elem_of_fmap. by exists (k', a').
Qed.

Lemma decode_map_law {A} `{JSONField A} (m : gmap string A) :
  map_Forall (fun _ a => json_valid a) m -> decode_map (JObj (json_enc <$> m)) ∅ = Some m.
Proof.
  intros Hv. unfold decode_map, decode_members, sorted_members.
  set (less := fun a b : string * json => String.ltb a.1 b.1).
  assert (Hp : sort_slice less (map_to_list (json_enc <$> m)) ≡ₚ prod_map id json_enc <$> map_to_list m)
    by (by rewrite sort_slice_perm, map_to_list_fmap).
  destruct (Permutation_map_inv _ _ Hp) as (l & -> & Hp'). clear Hp.
  assert (Hp : l ≡ₚ map_to_list m) by done. change (List.map ?f l) with (f <$> l).
  rewrite read_entries.
  - rewrite (right_id_L ∅ (∪)). f_equal. rewrite (list_to_map_proper l (map_to_list m)); [apply list_to_map_to_list| |done].
    rewrite Hp. apply NoDup_fst_map_to_list.
  - rewrite Hp. apply NoDup_fst_map_to_list.
  - apply Forall_forall. intros [k a] Hin. rewrite Hp in Hin. apply elem_of_map_to_list in Hin. split; [|done].
    by eapply Hv.
Qed.
#[export] Program Instance map_field {A} `{JSONField A} : JSONField (gmap string A) :=
  {| json_enc m := JObj (json_enc <$> m); json_dec := decode_map; json_zero := ∅;
     json_valid := map_Forall (fun _ a => json_valid a) |}.
Next Obligation. intros A ? m Hm. by apply decode_map_law. Qed.

(** the fields in the order of their keys *)
Definition state_fields (st : persistedState) : list (string * json) :=
  optional "context_disabled" (json_enc st.(Persisted_ContextDisabled))
  ++ optional "fact_memory_enabled" (json_enc st.(Persisted_FactMemoryEnabled))
  ++ [("groups", json_enc st.(Persisted_Groups))]
  ++ optional "quota_calls" (json_enc st.(Persisted_QuotaCalls))
  ++ optional "quota_date" (json_enc st.(Persisted_QuotaDate))
  ++ optional "task_quota_calls" (json_enc st.(Persisted_TaskQuotaCalls))
  ++ optional "task_quota_dates" (json_enc st.(Persisted_TaskQuotaDates))
  ++ [("version", json_enc st.(Persisted_Version))].
Definition state_json (st : persistedState) : json := obj (state_fields st).

Definition set_state_field (key : string) (v : json) (st : persistedState) : option persistedState :=
  if same_key key "version" then (fun x => st <| Persisted_Version := x |>) <$> json_dec v st.(Persisted_Version)
  else if same_key key "groups" then (fun x => st <| Persisted_Groups := x |>) <$> json_dec v st.(Persisted_Groups)
  else if same_key key "context_disabled"
  then (fun x => st <| Persisted_ContextDisabled := x |>) <$> json_dec v st.(Persisted_ContextDisabled)
  else if same_key key "fact_memory_enabled"
  then (fun x => st <| Persisted_FactMemoryEnabled := x |>) <$> json_dec v st.(Persisted_FactMemoryEnabled)
  else if same_key key "quota_date"
  then (fun x => st <| Persisted_QuotaDate := x |>) <$> json_dec v st.(Persisted_QuotaDate)
  else if same_key key "quota_calls"
  then (fun x => st <| Persisted_QuotaCalls := x |>) <$> json_dec v st.(Persisted_QuotaCalls)
  else if same_key key "task_quota_dates"
  then (fun x => st <| Persisted_TaskQuotaDates := x |>) <$> json_dec v st.(Persisted_TaskQuotaDates)
  else if same_key key "task_quota_calls"
  then (fun x => st <| Persisted_TaskQuotaCalls := x |>) <$> json_dec v st.(Persisted_TaskQuotaCalls)
  else Some st.
Definition decode_state (v : json) (st : persistedState) : option persistedState :=
  decode_struct set_state_field v st.

(** ** The store *)

(** what os.ReadFile finds, and json.Unmarshal in it *)
Inductive state_file := Missing | Unreadable (err : string) | NotJSON | Document (v : json).

Record StateStore := mkStateStore {
  groupDefault : bool; softDefault : string; state : persistedState; disk : state_file }.
#[export] Instance eta_StateStore : Eta StateStore :=
  fun r => mkStateStore r.(groupDefault) r.(softDefault) r.(state) r.(disk).

Definition new_state : persistedState := mkPersisted 1 ∅ ∅ ∅ "" 0 ∅ ∅.

Definition OpenStateStoreWithDefaults (file : state_file) (group_default : bool) (soft_default : string)
  : result StateStore :=
  if negb (validGroupSoftMode soft_default)
  then Err ("invalid Fairy group soft-trigger default " +:+ soft_default)
  else
    match file with
    | Missing => Ok (mkStateStore group_default soft_default new_state Missing)
    | Unreadable err => Err ("read Fairy state: " +:+ err)
    | NotJSON => Err "decode Fairy state"
    | Document v =>
        match decode_state v new_state with
        | None => Err "decode Fairy state"
        | Some st =>
            if negb (st.(Persisted_Version) =? 1)
            then Err ("unsupported Fairy state version " +:+ sprint_d st.(Persisted_Version))
            else if decide (map_Forall (fun _ g => g.(GroupState_SoftTriggerMode) = ""
                                     \/ validGroupSoftMode g.(GroupState_SoftTriggerMode) = true)
                              st.(Persisted_Groups))
            then Ok (mkStateStore group_default soft_default st file)
            else Err "invalid Fairy group soft-trigger mode"
        end
    end.
Definition OpenStateStore (file : state_file) (group_default : bool) : result StateStore :=
  OpenStateStoreWithDefaults file group_default GroupSoftShadow.

(** [save] is the outcome of the file operations: [None], or the error of one of them,
    after which the document is the old one *)
Definition saveLocked (save : option string) (s : StateStore) : result unit * StateStore :=
  match save with
  | Some err => (Err err, s)
  | None => (Ok tt, s <| disk := Document (state_json s.(state)) |>)
  end.

Implicit Type s : StateStore.

Definition put_state (f : persistedState -> persistedState) s : StateStore := s <| state ::= f |>.

(** ** Switches *)

Definition GroupEnabled (groupID : string) s : bool :=
  match s.(state).(Persisted_Groups) !! groupID with
  | None => s.(groupDefault)
  | Some g => g.(GroupState_Enabled)
  end.

(** the entry is put back when saving fails *)
Definition restore_entry {A} (key : string) (previous : option A) (m : gmap string A) : gmap string A :=
  match previous with Some a => <[key := a]> m | None => delete key m end.

Definition SetGroupEnabled (save : option string) (groupID : string) (enabled : bool) s
  : result unit * StateStore :=
  let previous := s.(state).(Persisted_Groups) !! groupID in
  let next := (default (mkGroupState false "") previous) <| GroupState_Enabled := enabled |> in
  let s := put_state (fun st => st <| Persisted_Groups ::= <[groupID := next]> |>) s in
  match saveLocked save s with
  | (Err err, s) => (Err err, put_state (fun st => st <| Persisted_Groups ::= restore_entry groupID previous |>) s)
  | (Ok _, s) => (Ok tt, s)
  end.

Definition GroupSoftMode (groupID : string) s : string :=
  match s.(state).(Persisted_Groups) !! groupID with
  | None => s.(softDefault)
  | Some g => if bool_decide (g.(GroupState_SoftTriggerMode) = "") then s.(softDefault)
              else g.(GroupState_SoftTriggerMode)
  end.

Definition SetGroupSoftMode (save : option string) (groupID mode : string) s : result unit * StateStore :=
  if negb (validGroupSoftMode mode) then (Err ("invalid Fairy group soft-trigger mode " +:+ mode), s)
  else
    let previous := s.(state).(Persisted_Groups) !! groupID in
    let next := (default (mkGroupState s.(groupDefault) "") previous) <| GroupState_SoftTriggerMode := mode |> in
    let s := put_state (fun st => st <| Persisted_Groups ::= <[groupID := next]> |>) s in
    match saveLocked save s with
    | (Err err, s) => (Err err, put_state (fun st => st <| Persisted_Groups ::= restore_entry groupID previous |>) s)
    | (Ok _, s) => (Ok tt, s)
    end.

Definition SetSoftDefault (mode : string) s : StateStore :=
  if negb (validGroupSoftMode mode) then s else s <| softDefault := mode |>.

Definition ContextEnabled (conversationID : string) s : bool :=
  negb (default false (s.(state).(Persisted_ContextDisabled) !! conversationID)).

Definition SetContextEnabled (save : option string) (conversationID : string) (enabled : bool) s
  : result unit * StateStore :=
  let previous := s.(state).(Persisted_ContextDisabled) !! conversationID in
  let change := if enabled then delete conversationID else <[conversationID := true]> in
  let s := put_state (fun st => st <| Persisted_ContextDisabled ::= change |>) s in
  match saveLocked save s with
  | (Err err, s) =>
      (Err err, put_state (fun st => st <| Persisted_ContextDisabled ::= restore_entry conversationID previous |>) s)
  | (Ok _, s) => (Ok tt, s)
  end.

Section facts.
Context `{Runtime}.
Definition FactMemoryEnabled (scope : FactScope) s : bool :=
  default false (s.(state).(Persisted_FactMemoryEnabled) !! factScopeStateKey scope).

Definition SetFactMemoryEnabled (save : option string) (scope : FactScope) (enabled : bool) s
  : result unit * StateStore :=
  match validateFactScope scope with
  | Err err => (Err err, s)
  | Ok _ =>
      let key := factScopeStateKey scope in
      let previous := s.(state).(Persisted_FactMemoryEnabled) !! key in
      let change := if enabled then <[key := true]> else delete key in
      let s := put_state (fun st => st <| Persisted_FactMemoryEnabled ::= change |>) s in
      match saveLocked save s with
      | (Err err, s) =>
          (Err err, put_state (fun st => st <| Persisted_FactMemoryEnabled ::= restore_entry key previous |>) s)
      | (Ok _, s) => (Ok tt, s)
      end
  end.
End facts.

Definition FactMemoryEnabledScopeCount s : Z :=
  Z.of_nat (size (filter (fun kv => kv.2 = true) s.(state).(Persisted_FactMemoryEnabled))).

(** ** Quotas *)

Definition ModelQuotaStatus (now : time) (limit : Z) s : Z * Z :=
  if limit <=? 0 then (0, 0)
  else
    let used := if bool_decide (s.(state).(Persisted_QuotaDate) = FormatDate now)
                then s.(state).(Persisted_QuotaCalls) else 0 in
    let used := if limit <? used then limit else used in
    (used, limit - used).

(** the calls used, whether one was reserved, and the error *)
Definition TakeModelCall (save : option string) (now : time) (limit : Z) s
  : (Z * bool * option string) * StateStore :=
  if limit <=? 0 then ((0, false, None), s)
  else
    let previousDate := s.(state).(Persisted_QuotaDate) in
    let previousCalls := s.(state).(Persisted_QuotaCalls) in
    let date := FormatDate now in
    let s := if bool_decide (previousDate = date) then s
             else put_state (fun st => st <| Persisted_QuotaDate := date |> <| Persisted_QuotaCalls := 0 |>) s in
    if limit <=? s.(state).(Persisted_QuotaCalls) then ((s.(state).(Persisted_QuotaCalls), false, None), s)
    else
      let s := put_state (fun st => st <| Persisted_QuotaCalls ::= Z.succ |>) s in
      match saveLocked save s with
      | (Err err, s) =>
          ((previousCalls, false, Some err),
           put_state (fun st => st <| Persisted_QuotaDate := previousDate |> <| Persisted_QuotaCalls := previousCalls |>) s)
      | (Ok _, s) => ((s.(state).(Persisted_QuotaCalls), true, None), s)
      end.

Definition task_used (date taskID : string) s : Z :=
  if bool_decide (default "" (s.(state).(Persisted_TaskQuotaDates) !! taskID) = date)
  then default 0 (s.(state).(Persisted_TaskQuotaCalls) !! taskID) else 0.
Definition global_used (date : string) s : Z :=
  if bool_decide (s.(state).(Persisted_QuotaDate) = date) then s.(state).(Persisted_QuotaCalls) else 0.

Definition TaskModelQuotaStatus (now : time) (taskID : string) (limit : Z) s : Z * Z :=
  if limit <=? 0 then (0, 0)
  else
    let used := task_used (FormatDate now) taskID s in
    let used := if limit <? used then limit else used in
    (used, limit - used).

Definition TakeTaskModelCall (save : option string) (now : time) (globalLimit : Z) (taskID : string)
    (taskLimit : Z) s : (Z * Z * bool * option string) * StateStore :=
  if (globalLimit <=? 0) || (taskLimit <=? 0) then ((0, 0, false, None), s)
  else if negb (validTraceLabel taskID) then ((0, 0, false, Some "invalid Fairy model task ID"), s)
  else
    let date := FormatDate now in
    let globalUsed := global_used date s in
    let taskUsed := task_used date taskID s in
    if (globalLimit <=? globalUsed) || (taskLimit <=? taskUsed) then ((globalUsed, taskUsed, false, None), s)
    else
      let previous := s.(state) in
      let s := put_state (fun st => st
        <| Persisted_QuotaDate := date |> <| Persisted_QuotaCalls := globalUsed + 1 |>
        <| Persisted_TaskQuotaDates ::= <[taskID := date]> |>
        <| Persisted_TaskQuotaCalls ::= <[taskID := taskUsed + 1]> |>) s in
      match saveLocked save s with
      | (Err err, s) =>
          ((globalUsed, taskUsed, false, Some err),
           put_state (fun st => st
             <| Persisted_QuotaDate := previous.(Persisted_QuotaDate) |>
             <| Persisted_QuotaCalls := previous.(Persisted_QuotaCalls) |>
             <| Persisted_TaskQuotaDates ::= restore_entry taskID (previous.(Persisted_TaskQuotaDates) !! taskID) |>
             <| Persisted_TaskQuotaCalls ::= restore_entry taskID (previous.(Persisted_TaskQuotaCalls) !! taskID) |>) s)
      | (Ok _, s) => ((globalUsed + 1, taskUsed + 1, true, None), s)
      end.
