(* ===== verification/FairyStateProps.v ===== *)
(** * What the state store guarantees (fairy/state.go)

    The file and the memory agree at every moment, a change that cannot be saved is
    undone, and the quotas hold across failures and restarts. *)
From S2P Require Import Prelude GoLib Types Capabilities DynamicInteraction FairyTypes FairyTrace FairyFacts.
From S2P Require Import FairyState Demo.
From stdpp Require Import gmap strings list.
From Stdlib Require Import ZArith.

Local Open Scope Z_scope.
Local Open Scope go_scope.

(** ** Round trip *)

(** the fields are met in the order of their keys, those left out apart *)
Lemma members_in_order (b1 b2 b3 b4 b5 b6 : bool) (v1 v2 v3 v4 v5 v6 v7 v8 : json) :
  let pick (b : bool) (key : string) (v : json) := if b then [] else [(key, v)] in
  let l := pick b1 "context_disabled" v1 ++ pick b2 "fact_memory_enabled" v2 ++ [("groups", v3)]
    ++ pick b3 "quota_calls" v4 ++ pick b4 "quota_date" v5 ++ pick b5 "task_quota_calls" v6
    ++ pick b6 "task_quota_dates" v7 ++ [("version", v8)] in
  sorted_members (list_to_map l) = l.
Proof. destruct b1, b2, b3, b4, b5, b6; vm_compute; reflexivity. Qed.

Lemma sorted_state_fields st : sorted_members (list_to_map (state_fields st)) = state_fields st.
Proof. apply members_in_order. Qed.

(** what a persisted state holds *)
Record persisted_ok (st : persistedState) : Prop := {
  po_version : st.(Persisted_Version) = 1;
  po_calls : int64_ok st.(Persisted_QuotaCalls) = true;
  po_task_calls : map_Forall (fun _ n => int64_ok n = true) st.(Persisted_TaskQuotaCalls);
  po_modes : map_Forall (fun _ g => g.(GroupState_SoftTriggerMode) = ""
    \/ validGroupSoftMode g.(GroupState_SoftTriggerMode) = true) st.(Persisted_Groups) }.

Definition read_fields (l : list (string * json)) (st : option persistedState) : option persistedState :=
  foldl (fun acc kv => acc ≫= set_state_field kv.1 kv.2) st l.
Lemma read_fields_app l1 l2 st : read_fields (l1 ++ l2) st = read_fields l2 (read_fields l1 st).
Proof. apply foldl_app. Qed.
Lemma read_field {A} `{JSONField A} key (upd : A -> persistedState -> persistedState) a st :
  json_valid a -> (forall v, set_state_field key v st = (fun x => upd x st) <$> json_dec v json_zero) ->
  read_fields [(key, json_enc a)] (Some st) = Some (upd a st).
Proof. intros Hv Hset. cbn. by rewrite Hset, json_field_law. Qed.
Lemma read_optional {A} `{JSONField A} key (upd : A -> persistedState -> persistedState) a st :
  json_valid a -> (forall v, set_state_field key v st = (fun x => upd x st) <$> json_dec v json_zero) ->
  (empty_json (json_enc a) = true -> upd a st = st) ->
  read_fields (optional key (json_enc a)) (Some st) = Some (upd a st).
Proof. unfold optional. intros Hv Hset He. destruct (empty_json _); [by rewrite He|by apply read_field]. Qed.

Lemma empty_map_json {A} `{JSONField A} (m : gmap string A) : empty_json (json_enc m) = true -> m = ∅.
Proof. cbn. rewrite bool_decide_eq_true. apply fmap_empty_inv. Qed.

(** a field of the document is read back *)
Lemma decode_state_json st : persisted_ok st -> decode_state (state_json st) new_state = Some st.
Proof.
  intros [Hv Hc Ht _]. destruct st as [v gs cd fm qd qc td tc]. cbn in *. subst v.
  unfold decode_state, state_json, obj, decode_struct, decode_members. rewrite sorted_state_fields.
  change (read_fields (state_fields (mkPersisted 1 gs cd fm qd qc td tc)) (Some new_state)
    = Some (mkPersisted 1 gs cd fm qd qc td tc)).
  unfold state_fields. rewrite !read_fields_app. unfold new_state. cbn [Persisted_Version Persisted_Groups
    Persisted_ContextDisabled Persisted_FactMemoryEnabled Persisted_QuotaDate Persisted_QuotaCalls
    Persisted_TaskQuotaDates Persisted_TaskQuotaCalls].
  rewrite (read_optional _ (fun x st => st <| Persisted_ContextDisabled := x |>)) by
    (done || by intros ->%empty_map_json).
  rewrite (read_optional _ (fun x st => st <| Persisted_FactMemoryEnabled := x |>)) by
    (done || by intros ->%empty_map_json).
  rewrite (read_field _ (fun x st => st <| Persisted_Groups := x |>)) by done.
  rewrite (read_optional _ (fun x st => st <| Persisted_QuotaCalls := x |>)) by
    (done || by cbn; intros ->%Z.eqb_eq).
  rewrite (read_optional _ (fun x st => st <| Persisted_QuotaDate := x |>)) by
    (done || by cbn; intros ->%bool_decide_eq_true).
  rewrite (read_optional _ (fun x st => st <| Persisted_TaskQuotaCalls := x |>)) by
    (done || by intros ->%empty_map_json).
  rewrite (read_optional _ (fun x st => st <| Persisted_TaskQuotaDates := x |>)) by
    (done || by intros ->%empty_map_json).
  done.
Qed.

(** ** Changes and their undoing *)

(** the pattern of every change: change, save, undo *)
Definition change_or_undo (save : option string) (f g : persistedState -> persistedState) (s : StateStore)
  : result unit * StateStore :=
  match saveLocked save (put_state f s) with
  | (Err err, s) => (Err err, put_state g s)
  | (Ok _, s) => (Ok tt, s)
  end.

(** a restart finds in the file exactly what the process has in memory *)
Definition reopen (s : StateStore) : result StateStore :=
  OpenStateStoreWithDefaults s.(disk) s.(groupDefault) s.(softDefault).
Record store_ok (s : StateStore) : Prop := {
  st_persisted : persisted_ok s.(state);
  st_default : validGroupSoftMode s.(softDefault) = true;
  st_reopen : reopen s = Ok s }.

Definition saved (f : persistedState -> persistedState) (s : StateStore) : StateStore :=
  (put_state f s) <| disk := Document (state_json (f s.(state))) |>.

Lemma undo_change f g s : g (f s.(state)) = s.(state) -> put_state g (put_state f s) = s.
Proof. intros Hg. destruct s. unfold put_state, field_update. cbn in *. by rewrite Hg. Qed.

(** equality of states, field by field *)
Lemma persisted_eq st st' :
  st.(Persisted_Version) = st'.(Persisted_Version) -> st.(Persisted_Groups) = st'.(Persisted_Groups) ->
  st.(Persisted_ContextDisabled) = st'.(Persisted_ContextDisabled) ->
  st.(Persisted_FactMemoryEnabled) = st'.(Persisted_FactMemoryEnabled) ->
  st.(Persisted_QuotaDate) = st'.(Persisted_QuotaDate) -> st.(Persisted_QuotaCalls) = st'.(Persisted_QuotaCalls) ->
  st.(Persisted_TaskQuotaDates) = st'.(Persisted_TaskQuotaDates) ->
  st.(Persisted_TaskQuotaCalls) = st'.(Persisted_TaskQuotaCalls) -> st = st'.
Proof. destruct st, st'; cbn. intros. by subst. Qed.

Lemma change_cases save f g s :
  g (f s.(state)) = s.(state) ->
  change_or_undo save f g s = match save with Some err => (Err err, s) | None => (Ok tt, saved f s) end.
Proof.
  intros Hg. unfold change_or_undo, saveLocked. destruct save; [|done]. by rewrite undo_change.
Qed.

Lemma open_document st gd sd :
  persisted_ok st -> validGroupSoftMode sd = true ->
  OpenStateStoreWithDefaults (Document (state_json st)) gd sd
  = Ok (mkStateStore gd sd st (Document (state_json st))).
Proof.
  intros Hok Hsd. unfold OpenStateStoreWithDefaults. rewrite Hsd, decode_state_json by done. cbn [negb].
  destruct Hok as [Hv _ _ Hm]. rewrite Hv. cbn [Z.eqb negb Pos.eqb]. by rewrite decide_True.
Qed.

Lemma saved_ok f s : persisted_ok (f s.(state)) -> store_ok s -> store_ok (saved f s).
Proof.
  intros Hf [_ Hd _]. split; [done|done|]. unfold reopen, saved. cbn. by rewrite open_document.
Qed.

Lemma switch_change_ok save f g s :
  g (f s.(state)) = s.(state) -> persisted_ok (f s.(state)) -> store_ok s ->
  store_ok (change_or_undo save f g s).2.
Proof. intros Hg Hf Hok. rewrite change_cases by done. destruct save; [done|]. by apply saved_ok. Qed.

Lemma restore_insert {A} key (a : A) (m : gmap string A) : restore_entry key (m !! key) (<[key := a]> m) = m.
Proof.
  unfold restore_entry. destruct (m !! key) eqn:E.
  - by rewrite insert_insert_eq, insert_id.
  - by rewrite delete_insert_id.
Qed.
Lemma restore_delete {A} key (m : gmap string A) : restore_entry key (m !! key) (delete key m) = m.
Proof.
  unfold restore_entry. destruct (m !! key) eqn:E.
  - by rewrite insert_delete_id.
  - by rewrite delete_delete_eq, delete_id.
Qed.

(** the counters of calls *)
Definition same_quota (st st' : persistedState) : Prop :=
  st'.(Persisted_QuotaDate) = st.(Persisted_QuotaDate) /\ st'.(Persisted_QuotaCalls) = st.(Persisted_QuotaCalls)
  /\ st'.(Persisted_TaskQuotaDates) = st.(Persisted_TaskQuotaDates)
  /\ st'.(Persisted_TaskQuotaCalls) = st.(Persisted_TaskQuotaCalls).

(** the switches follow the pattern *)
Definition switches (s : StateStore) (r : result unit * StateStore) (save : option string) : Prop :=
  exists f g, r = change_or_undo save f g s /\ g (f s.(state)) = s.(state)
    /\ (persisted_ok s.(state) -> persisted_ok (f s.(state))) /\ same_quota s.(state) (f s.(state)).
Lemma SetGroupEnabled_change save groupID enabled s :
  switches s (SetGroupEnabled save groupID enabled s) save.
Proof.
  unfold SetGroupEnabled. cbv zeta. do 2 eexists. split; [reflexivity|]. split; [|split; [|done]].
  - destruct s as [gd sd st dk]. destruct st. unfold field_update. cbn. by rewrite restore_insert.
  - intros [H1 H2 H3 H4]. split; [done..|]. cbn. apply map_Forall_insert_2; [|done].
    cbn. destruct (_ !! groupID) as [g|] eqn:E; [by apply (H4 groupID)|by left].
Qed.
Lemma SetGroupSoftMode_change save groupID mode s :
  validGroupSoftMode mode = true -> switches s (SetGroupSoftMode save groupID mode s) save.
Proof.
  intros Hm. unfold SetGroupSoftMode. rewrite Hm. cbv zeta. cbn [negb]. do 2 eexists. split; [reflexivity|]. split; [|split; [|done]].
  - destruct s as [gd sd st dk]. destruct st. unfold field_update. cbn. by rewrite restore_insert.
  - intros [H1 H2 H3 H4]. split; [done..|]. cbn. apply map_Forall_insert_2; [|done]. by right.
Qed.
Lemma SetContextEnabled_change save conversationID enabled s :
  switches s (SetContextEnabled save conversationID enabled s) save.
Proof.
  unfold SetContextEnabled. cbv zeta. do 2 eexists. split; [reflexivity|]. split; [|split; [|done]].
  - destruct s as [gd sd st dk]. destruct st. unfold field_update.
    destruct enabled; cbn; by rewrite ?restore_insert, ?restore_delete.
  - by intros [H1 H2 H3 H4].
Qed.
Lemma SetFactMemoryEnabled_change `{Runtime} save scope enabled s :
  validateFactScope scope = Ok tt -> switches s (SetFactMemoryEnabled save scope enabled s) save.
Proof.
  intros Hs. unfold SetFactMemoryEnabled. rewrite Hs. cbv zeta. do 2 eexists. split; [reflexivity|]. split; [|split; [|done]].
  - destruct s as [gd sd st dk]. destruct st. unfold field_update.
    destruct enabled; cbn; by rewrite ?restore_insert, ?restore_delete.
  - by intros [H1 H2 H3 H4].
Qed.

(** ** Reserving a call *)

Definition reserve_global (date : string) (st : persistedState) (n : Z) : persistedState :=
  st <| Persisted_QuotaDate := date |> <| Persisted_QuotaCalls := n |>.

(** the two outcomes of TakeModelCall *)
Lemma TakeModelCall_cases save now limit s :
  let date := FormatDate now in
  match TakeModelCall save now limit s with
  | ((_, true, _), s') =>
      0 < limit /\ global_used date s < limit
      /\ s' = saved (fun st => reserve_global date st (global_used date s + 1)) s
  | ((_, false, _), s') => s' = s
  end.
Proof.
  cbv zeta. unfold TakeModelCall. destruct (Z.leb_spec limit 0) as [|Hl]; [done|]. cbv zeta.
  unfold global_used. generalize (FormatDate now). intros date. destruct s as [gd sd [v gs cd fm qd qc td tc] dk]. cbn [state Persisted_QuotaDate Persisted_QuotaCalls].
  case_bool_decide as Hd.
  - subst qd. cbn [state Persisted_QuotaCalls]. destruct (Z.leb_spec limit qc) as [|Hq]; [done|].
    unfold saveLocked. destruct save; [done|]. done.
  - cbn. destruct (Z.leb_spec limit 0); [lia|]. unfold saveLocked. by destruct save.
Qed.

Definition reserve_task (date taskID : string) (n : Z) (st : persistedState) : persistedState :=
  st <| Persisted_TaskQuotaDates ::= <[taskID := date]> |> <| Persisted_TaskQuotaCalls ::= <[taskID := n]> |>.
Lemma TakeTaskModelCall_cases save now globalLimit taskID taskLimit s :
  let date := FormatDate now in
  match TakeTaskModelCall save now globalLimit taskID taskLimit s with
  | ((_, _, true, _), s') =>
      global_used date s < globalLimit /\ task_used date taskID s < taskLimit
      /\ s' = saved (fun st => reserve_task date taskID (task_used date taskID s + 1)
                                 (reserve_global date st (global_used date s + 1))) s
  | ((_, _, false, _), s') => s' = s
  end.
Proof.
  cbv zeta. unfold TakeTaskModelCall. destruct (_ || _); [done|]. destruct (negb _); [done|]. cbv zeta.
  generalize (FormatDate now). intros date. destruct (_ || _) eqn:E; [done|]. apply orb_false_iff in E as [Eg Et]. apply Z.leb_gt in Eg, Et.
  unfold saveLocked. destruct save as [err|]; [|done]. apply undo_change, persisted_eq; cbn; try done;
    apply restore_insert.
Qed.

(** C30: a change that cannot be saved is undone: when the file operations of a switch or of
    a reservation fail, the memory and the file are exactly what they were, whatever the
    switch; so the assistant never acts on a setting that a restart would lose. *)
Theorem failed_change_is_undone `{Runtime} (err : string) (s : StateStore) :
  (forall groupID enabled, SetGroupEnabled (Some err) groupID enabled s = (Err err, s))
  /\ (forall groupID mode, (SetGroupSoftMode (Some err) groupID mode s).2 = s)
  /\ (forall conversationID enabled, SetContextEnabled (Some err) conversationID enabled s = (Err err, s))
  /\ (forall scope enabled, (SetFactMemoryEnabled (Some err) scope enabled s).2 = s)
  /\ (forall now limit, (TakeModelCall (Some err) now limit s).2 = s
        /\ (TakeModelCall (Some err) now limit s).1.1.2 = false)
  /\ (forall now globalLimit taskID taskLimit,
        (TakeTaskModelCall (Some err) now globalLimit taskID taskLimit s).2 = s
        /\ (TakeTaskModelCall (Some err) now globalLimit taskID taskLimit s).1.1.2 = false).
Proof.
  split; [|split; [|split; [|split; [|split]]]].
  - intros groupID enabled. destruct (SetGroupEnabled_change (Some err) groupID enabled s) as (f & g & -> & Hg & _ & _).
    by rewrite change_cases.
  - intros groupID mode. destruct (validGroupSoftMode mode) eqn:Hm.
    + destruct (SetGroupSoftMode_change (Some err) groupID mode s Hm) as (f & g & -> & Hg & _ & _). by rewrite change_cases.
    + unfold SetGroupSoftMode. by rewrite Hm.
  - intros conversationID enabled.
    destruct (SetContextEnabled_change (Some err) conversationID enabled s) as (f & g & -> & Hg & _ & _).
    by rewrite change_cases.
  - intros scope enabled. destruct (validateFactScope scope) as [[]|e] eqn:Hs.
    + destruct (SetFactMemoryEnabled_change (Some err) scope enabled s Hs) as (f & g & -> & Hg & _ & _).
      by rewrite change_cases.
    + unfold SetFactMemoryEnabled. by rewrite Hs.
  - intros now limit. unfold TakeModelCall. destruct (Z.leb_spec limit 0) as [|Hl]; [done|]. cbv zeta.
    generalize (FormatDate now). intros date. destruct s as [gd sd [v gs cd fm qd qc td tc] dk].
    unfold put_state, saveLocked, field_update. cbn [state Persisted_QuotaDate Persisted_QuotaCalls].
    case_bool_decide; cbn; [subst qd; by destruct (limit <=? qc)|]. by destruct (Z.leb_spec limit 0); [lia|].
  - intros now globalLimit taskID taskLimit.
    pose proof (TakeTaskModelCall_cases (Some err) now globalLimit taskID taskLimit s) as Hc. cbv zeta in Hc.
    unfold TakeTaskModelCall in *. destruct (_ || _); [done|]. destruct (negb _); [done|]. cbv zeta in *.
    destruct (_ || _); [done|]. done.
Qed.

(** ** Executions *)

Section executions.
Context `{Runtime}.
(** a UTC day, a bound on the global limits in force, a task and a bound on its limits *)
Context (date : string) (L : Z) (T : string) (tL : Z).

(** a step and the task of the call it reserved, if any ([None] for a call of no task);
    the reservations are those of the day, and limits are Go integers *)
Inductive state_step : StateStore -> list (option string) -> StateStore -> Prop :=
| step_group_enabled save groupID enabled s : state_step s [] (SetGroupEnabled save groupID enabled s).2
| step_soft_mode save groupID mode s : state_step s [] (SetGroupSoftMode save groupID mode s).2
| step_soft_default mode s : state_step s [] (SetSoftDefault mode s)
| step_context save conversationID enabled s : state_step s [] (SetContextEnabled save conversationID enabled s).2
| step_facts save scope enabled s : state_step s [] (SetFactMemoryEnabled save scope enabled s).2
| step_take save now limit s used allowed err s' :
    FormatDate now = date -> limit <= L -> int64_ok limit = true ->
    TakeModelCall save now limit s = ((used, allowed, err), s') ->
    state_step s (if allowed then [None] else []) s'
| step_take_task save now globalLimit taskID taskLimit s used taskUsed allowed err s' :
    FormatDate now = date -> globalLimit <= L -> (taskID = T -> taskLimit <= tL) ->
    int64_ok globalLimit = true -> int64_ok taskLimit = true ->
    TakeTaskModelCall save now globalLimit taskID taskLimit s = ((used, taskUsed, allowed, err), s') ->
    state_step s (if allowed then [Some taskID] else []) s'
| step_restart gd sd s s' :
    OpenStateStoreWithDefaults s.(disk) gd sd = Ok s' -> state_step s [] s'.

Inductive state_run (s0 : StateStore) : list (option string) -> StateStore -> Prop :=
| run_none : state_run s0 [] s0
| run_step ls l s s' : state_run s0 ls s -> state_step s l s' -> state_run s0 (ls ++ l) s'.

Definition of_task (l : option string) : bool := bool_decide (l = Some T).

Lemma soft_default_valid file gd sd s : OpenStateStoreWithDefaults file gd sd = Ok s ->
  validGroupSoftMode sd = true /\ s.(softDefault) = sd /\ s.(groupDefault) = gd /\ s.(disk) = file.
Proof.
  unfold OpenStateStoreWithDefaults. destruct (validGroupSoftMode sd); [|done]. cbn [negb].
  destruct file as [|e| |v]; try done; [by intros [= <-]|].
  destruct (decode_state v new_state); [|done]. destruct (negb _); [done|].
  destruct (decide _); [|done]. by intros [= <-].
Qed.
Lemma reopened_state file gd sd gd' sd' s s' :
  OpenStateStoreWithDefaults file gd sd = Ok s -> OpenStateStoreWithDefaults file gd' sd' = Ok s' ->
  s'.(state) = s.(state).
Proof.
  unfold OpenStateStoreWithDefaults.
  destruct (validGroupSoftMode sd), (validGroupSoftMode sd'); try done. cbn [negb].
  destruct file as [|e| |v]; try done; [by intros [= <-] [= <-]|].
  destruct (decode_state v new_state); [|done]. destruct (negb _); [done|].
  destruct (decide _); [|done]. by intros [= <-] [= <-].
Qed.

Lemma reopen_with s gd sd : reopen s = Ok s -> validGroupSoftMode sd = true ->
  OpenStateStoreWithDefaults s.(disk) gd sd = Ok (mkStateStore gd sd s.(state) s.(disk)).
Proof.
  destruct s as [gd0 sd0 st file]. unfold reopen, OpenStateStoreWithDefaults. cbn. intros Ho ->. cbn [negb].
  revert Ho. destruct (validGroupSoftMode sd0); [|done]. cbn [negb].
  destruct file as [|e| |v]; try done; [by intros [= <-]|].
  destruct (decode_state v new_state); [|done]. destruct (negb _); [done|].
  destruct (decide _); [|done]. by intros [= <-].
Qed.

(** a change of the switches leaves the counters alone *)
Definition same_counters (s s' : StateStore) : Prop :=
  global_used date s' = global_used date s /\ task_used date T s' = task_used date T s.
Lemma change_counters save f g s :
  g (f s.(state)) = s.(state) -> same_quota s.(state) (f s.(state)) ->
  same_counters s (change_or_undo save f g s).2.
Proof.
  intros Hg (E1 & E2 & E3 & E4). rewrite change_cases by done. destruct save; [done|].
  unfold same_counters, global_used, task_used, saved. cbn. by rewrite E1, E2, E3, E4.
Qed.

Lemma int64_succ n limit : int64_ok n = true -> n < limit -> int64_ok limit = true -> int64_ok (n + 1) = true.
Proof. unfold int64_ok. rewrite !andb_true_iff, !Z.leb_le, !Z.ltb_lt. lia. Qed.
Lemma global_used_ok s : store_ok s -> int64_ok (global_used date s) = true.
Proof. intros [[_ Hc _ _] _ _]. unfold global_used. by case_bool_decide; [|reflexivity]. Qed.
Lemma task_used_ok s taskID : store_ok s -> int64_ok (task_used date taskID s) = true.
Proof.
  intros [[_ _ Hc _] _ _]. unfold task_used. case_bool_decide; [|reflexivity].
  destruct (Persisted_TaskQuotaCalls s.(state) !! taskID) as [n|] eqn:E; [exact (Hc taskID n E)|reflexivity].
Qed.

(** what a step does to the counters *)
Definition step_effect (s : StateStore) (ls : list (option string)) (s' : StateStore) : Prop :=
  store_ok s'
  /\ global_used date s' = global_used date s + Z.of_nat (length ls)
  /\ task_used date T s' = task_used date T s + count of_task ls
  /\ (ls <> [] -> global_used date s' <= L)
  /\ (0 < count of_task ls -> task_used date T s' <= tL).

Lemma quiet_effect s s' : store_ok s' -> same_counters s s' -> step_effect s [] s'.
Proof. intros Hok [Hg Ht]. split; [done|]. rewrite Hg, Ht. unfold count. cbn. split; [lia|split; [lia|split; [done|lia]]]. Qed.

Lemma switch_effect save s r : store_ok s -> switches s r save -> step_effect s [] r.2.
Proof.
  intros Hok (f & g & -> & Hg & Hf & Hq). apply quiet_effect; [|by apply change_counters].
  apply switch_change_ok; [done| |done]. by apply Hf, st_persisted.
Qed.

Lemma reserved_global f n s :
  (f s.(state)).(Persisted_QuotaDate) = date -> (f s.(state)).(Persisted_QuotaCalls) = n ->
  global_used date (saved f s) = n.
Proof. intros Hd Hn. unfold global_used, saved. cbn. by rewrite Hd, bool_decide_true. Qed.

Lemma reserved_task f n s :
  (f s.(state)).(Persisted_TaskQuotaDates) !! T = Some date -> (f s.(state)).(Persisted_TaskQuotaCalls) !! T = Some n ->
  task_used date T (saved f s) = n.
Proof. intros Hd Hn. unfold task_used, saved. cbn. by rewrite Hd, Hn, bool_decide_true. Qed.
Lemma other_task f s :
  (f s.(state)).(Persisted_TaskQuotaDates) !! T = s.(state).(Persisted_TaskQuotaDates) !! T ->
  (f s.(state)).(Persisted_TaskQuotaCalls) !! T = s.(state).(Persisted_TaskQuotaCalls) !! T ->
  task_used date T (saved f s) = task_used date T s.
Proof. intros Hd Hn. unfold task_used, saved. cbn. by rewrite Hd, Hn. Qed.

Lemma reserve_effect globalLimit taskLimit taskID s :
  store_ok s -> globalLimit <= L -> (taskID = T -> taskLimit <= tL) ->
  int64_ok globalLimit = true -> int64_ok taskLimit = true ->
  global_used date s < globalLimit -> task_used date taskID s < taskLimit ->
  step_effect s [Some taskID] (saved (fun st => reserve_task date taskID (task_used date taskID s + 1)
                                 (reserve_global date st (global_used date s + 1))) s).
Proof.
  intros Hok HL HtL Hl Htl Hg Ht. set (s' := saved _ s).
  assert (Eg : global_used date s' = global_used date s + 1)
    by (by apply reserved_global).
  assert (Et : task_used date T s' = task_used date T s + count of_task [Some taskID]).
  { unfold s', count, of_task. destruct (decide (taskID = T)) as [->|Hne].
    - rewrite (reserved_task _ (task_used date T s + 1)) by apply lookup_insert_eq. cbn.
      rewrite bool_decide_true by done. lia.
    - rewrite other_task by apply lookup_insert_ne, Hne. cbn. rewrite (bool_decide_false (Some taskID = Some T)) by congruence.
      cbn. lia. }
  split; [|rewrite Eg; split; [done|split; [done|split; [intros _; lia|]]]].
  - apply saved_ok; [|done]. destruct (Hok) as [[P1 P2 P3 P4] _ _]. split; [done| | |done]; cbn.
    + eapply int64_succ; [by apply global_used_ok|done|done].
    + apply map_Forall_insert_2; [|done]. eapply int64_succ; [by apply task_used_ok|done|done].
  - rewrite Et. unfold count, of_task. cbn. intros Hp. destruct (decide (taskID = T)) as [->|Hne].
    + specialize (HtL eq_refl). rewrite bool_decide_true by done. lia.
    + rewrite bool_decide_false in Hp by congruence. lia.
Qed.

Lemma state_step_ok s ls s' : store_ok s -> state_step s ls s' -> step_effect s ls s'.
Proof.
  intros Hok Hs. destruct Hs as [save groupID enabled s|save groupID mode s|mode s|save conversationID enabled s
    |save scope enabled s|save now limit s used allowed err s' Hd HL Hl E
    |save now globalLimit taskID taskLimit s used taskUsed allowed err s' Hd HL HtL Hl Htl E|gd sd s s' E].
  - eapply switch_effect; [done|]. apply SetGroupEnabled_change.
  - destruct (validGroupSoftMode mode) eqn:Hm.
    + eapply switch_effect; [done|]. by apply SetGroupSoftMode_change.
    + unfold SetGroupSoftMode. rewrite Hm. by apply quiet_effect.
  - unfold SetSoftDefault. destruct (validGroupSoftMode mode) eqn:Hm; cbn [negb]; [|by apply quiet_effect].
    apply quiet_effect; [|done]. destruct Hok as [H1 H2 H3]. split; [done|done|]. by apply (reopen_with s s.(groupDefault) mode).
  - eapply switch_effect; [done|]. apply SetContextEnabled_change.
  - destruct (validateFactScope scope) as [[]|e] eqn:Hv.
    + eapply switch_effect; [done|]. by apply SetFactMemoryEnabled_change.
    + unfold SetFactMemoryEnabled. rewrite Hv. by apply quiet_effect.
  - pose proof (TakeModelCall_cases save now limit s) as Hc. cbv zeta in Hc. rewrite E, Hd in Hc.
    destruct allowed; [|subst s'; by apply quiet_effect]. destruct Hc as (_ & Hlt & ->).
    assert (Hn : count of_task [None] = 0) by reflexivity.
    assert (Hg : global_used date (saved (fun st => reserve_global date st (global_used date s + 1)) s)
      = global_used date s + 1) by (by apply reserved_global).
    split; [|rewrite Hg; split; [done|split; [|split; [intros _; lia|by rewrite Hn]]]].
    + apply saved_ok; [|done]. destruct (Hok) as [[P1 P2 P3 P4] _ _]. split; [done| |done|done]. cbn.
      eapply int64_succ; [by apply global_used_ok|done|done].
    + rewrite other_task, Hn by done. lia.
  - pose proof (TakeTaskModelCall_cases save now globalLimit taskID taskLimit s) as Hc. cbv zeta in Hc.
    rewrite E, Hd in Hc. destruct allowed; [|subst s'; by apply quiet_effect]. destruct Hc as (Hg & Ht & ->).
    by apply (reserve_effect globalLimit taskLimit).
  - destruct (soft_default_valid _ _ _ _ E) as (Hsd & E1 & E2 & E3). destruct Hok as [H1 H2 H3].
    pose proof (reopened_state _ _ _ _ _ _ _ H3 E) as Hst.
    assert (Hc : same_counters s s') by (unfold same_counters, global_used, task_used; by rewrite Hst).
    apply quiet_effect; [|done]. split; [by rewrite Hst|by rewrite E1|].
    unfold reopen. by rewrite E1, E2, E3.
Qed.
End executions.

(** ** What a file can hold *)

Lemma foldl_opt_inv {A B} (P : A -> Prop) (f : B -> A -> option A) (l : list B) (a : option A) r :
  (forall b x y, P x -> f b x = Some y -> P y) -> (forall x, a = Some x -> P x) ->
  foldl (fun acc b => acc ≫= f b) a l = Some r -> P r.
Proof.
  intros Hf. revert a. induction l as [|b l IH]; intros a Ha; [by auto|]. cbn. apply IH.
  intros y. destruct a as [x|]; [|done]. cbn. apply Hf. by apply Ha.
Qed.
Lemma decode_whole_ok v old z : int64_ok old = true -> decode_whole v old = Some z -> int64_ok z = true.
Proof.
  intros Ho. destruct v; cbn; try done; [by intros [= <-]|]. case_match eqn:E; [|done].
  intros [= <-]. by apply andb_true_iff in E as [_ E].
Qed.
Lemma decode_calls_ok v (old m : gmap string Z) :
  map_Forall (fun _ n => int64_ok n = true) old -> decode_map v old = Some m ->
  map_Forall (fun _ n => int64_ok n = true) m.
Proof.
  intros Ho. destruct v as [| | | | |l|members]; try done; [by intros [= <-]|]. unfold decode_map, decode_members.
  apply (foldl_opt_inv _ (fun kv => set_entry kv.1 kv.2)); [|by intros x [= <-]].
  intros [k v] x y Hx. unfold set_entry. cbn. destruct (decode_whole v 0) as [z|] eqn:E; [|done].
  cbn. intros [= <-]. apply map_Forall_insert_2; [|done]. exact (decode_whole_ok v 0 z eq_refl E).
Qed.
Definition counters_ok (st : persistedState) : Prop :=
  int64_ok st.(Persisted_QuotaCalls) = true
  /\ map_Forall (fun _ n => int64_ok n = true) st.(Persisted_TaskQuotaCalls).
Lemma set_state_field_ok key v st st' :
  counters_ok st -> set_state_field key v st = Some st' -> counters_ok st'.
Proof.
  intros [Hc Ht]. unfold set_state_field.
  repeat (case_match; [destruct (json_dec v _) eqn:Hd; [|done]; cbn; intros [= <-]; split; cbn; try done;
    first [exact (decode_whole_ok _ _ _ Hc Hd)|exact (decode_calls_ok _ _ _ Ht Hd)]|]).
  by intros [= <-].
Qed.

Lemma opened_ok file gd sd s : OpenStateStoreWithDefaults file gd sd = Ok s -> store_ok s.
Proof.
  intros Ho. destruct (soft_default_valid _ _ _ _ Ho) as (Hsd & E1 & E2 & E3).
  split; [|by rewrite E1|unfold reopen; by rewrite E1, E2, E3].
  revert Ho. unfold OpenStateStoreWithDefaults. destruct (negb (validGroupSoftMode sd)); [done|].
  assert (Hi : counters_ok new_state) by done.
  destruct file as [|e| |v]; try done; [by intros [= <-]|].
  destruct (decode_state v new_state) as [st|] eqn:Hd; [|done].
  destruct (Z.eqb_spec st.(Persisted_Version) 1) as [Hv|]; [|done]. cbn [negb].
  case_decide as Hm; [|done]. intros [= <-].
  assert (Hc : counters_ok st); [|by destruct Hc].
  revert Hd. destruct v as [| | | | | |m]; try done; [by intros [= <-]|].
  apply (foldl_opt_inv _ (fun kv => set_state_field kv.1 kv.2)); [|by intros x [= <-]].
  intros kv x y. apply set_state_field_ok.
Qed.

(** ** What holds over a run *)

Section lives.
Context `{Runtime}.

(** whatever happens on the days of a store's life, in any order *)
Definition life_step (s s' : StateStore) : Prop := exists date L T tL ls, state_step date L T tL s ls s'.

(** C27: the switches and the counters survive a restart: however a store was opened, and
    whatever switches, reservations, failed saves and restarts followed, opening its file
    again (with any valid defaults) gives exactly the state that the process had in memory. *)
Theorem state_survives_restart (file : state_file) (gd : bool) (sd : string) (s0 s : StateStore)
    (gd' : bool) (sd' : string) :
  OpenStateStoreWithDefaults file gd sd = Ok s0 -> rtc life_step s0 s -> validGroupSoftMode sd' = true ->
  OpenStateStoreWithDefaults s.(disk) gd' sd' = Ok (mkStateStore gd' sd' s.(state) s.(disk)).
Proof.
  intros Ho Hl Hv. apply opened_ok in Ho as Hok. assert (Hok' : store_ok s); [|by apply reopen_with; [apply Hok'|]].
  clear Ho. induction Hl as [s|s s1 s' (date & L & T & tL & ls & Hs) _ IH]; [done|]. apply IH. by eapply state_step_ok.
Qed.

(** C26: the quotas hold: on a day (UTC), with limits at most [L] for all calls and [tL] for
    those of the task [T], a store never reserves more than [L] calls and [tL] calls of the
    task, less those that its file already counted, across failed saves and restarts; and
    its counters are exactly the reservations made. *)
Theorem quota_is_respected (file : state_file) (gd : bool) (sd : string) (date : string) (L : Z) (T : string)
    (tL : Z) (s0 : StateStore) (ls : list (option string)) (s : StateStore) :
  OpenStateStoreWithDefaults file gd sd = Ok s0 -> state_run date L T tL s0 ls s ->
  global_used date s = global_used date s0 + Z.of_nat (length ls)
  /\ task_used date T s = task_used date T s0 + count (of_task T) ls
  /\ Z.of_nat (length ls) <= Z.max 0 (L - global_used date s0)
  /\ count (of_task T) ls <= Z.max 0 (tL - task_used date T s0).
Proof.
  intros Ho Hr. assert (Hi : store_ok s /\ global_used date s = global_used date s0 + Z.of_nat (length ls)
    /\ task_used date T s = task_used date T s0 + count (of_task T) ls
    /\ Z.of_nat (length ls) <= Z.max 0 (L - global_used date s0)
    /\ count (of_task T) ls <= Z.max 0 (tL - task_used date T s0)); [|tauto].
  induction Hr as [|ls l s s' _ IH Hs].
  - split; [by eapply opened_ok|]. unfold count. cbn. lia.
  - destruct IH as (Hok & Eg & Et & Bg & Bt).
    destruct (state_step_ok _ _ _ _ _ _ _ Hok Hs) as (Hok' & Eg' & Et' & Bg' & Bt').
    rewrite length_app, Nat2Z.inj_add, count_app. split; [done|]. split; [lia|]. split; [lia|].
    pose proof (count_nonneg (of_task T) l). split.
    + destruct l as [|x l]; [cbn; lia|]. specialize (Bg' ltac:(done)). lia.
    + destruct (decide (0 < count (of_task T) l)); [specialize (Bt' ltac:(done)); lia|lia].
Qed.
End lives.

(** ** Witnesses *)

Definition day_start : time := 1753358400000000000.
Definition fresh : StateStore := mkStateStore false GroupSoftShadow new_state Missing.
Definition enabled_once : StateStore := (SetGroupEnabled None "g1" true fresh).2.

Lemma state_survives_restart_witness :
  rtc (life_step (H := Demo.demo_runtime)) fresh enabled_once
  /\ OpenStateStoreWithDefaults enabled_once.(disk) true GroupSoftOff
     = Ok (mkStateStore true GroupSoftOff enabled_once.(state) enabled_once.(disk)).
Proof.
  assert (Hl : rtc (life_step (H := Demo.demo_runtime)) fresh enabled_once).
  { apply rtc_once. exists "", 0, "", 0, []. exact (step_group_enabled (H := Demo.demo_runtime) _ _ _ _ None "g1" true fresh). }
  split; [exact Hl|].
  apply (state_survives_restart (H := Demo.demo_runtime) Missing false GroupSoftShadow fresh enabled_once); [reflexivity|exact Hl|reflexivity].
Defined.

(** two calls allowed on a day, one of them of a task, the third refused *)
Definition after_one : StateStore := (TakeModelCall None day_start 2 fresh).2.
Definition after_two : StateStore := (TakeTaskModelCall None day_start 2 "chat" 1 after_one).2.
Definition after_three : StateStore := (TakeModelCall None day_start 2 after_two).2.
Lemma quota_is_respected_witness :
  exists ls, state_run (H := Demo.demo_runtime) (FormatDate day_start) 2 "chat" 1 fresh ls after_three
    /\ ls = [None; Some "chat"]
    /\ global_used (FormatDate day_start) after_three = 2
    /\ Z.of_nat (length ls) <= Z.max 0 (2 - global_used (FormatDate day_start) fresh).
Proof.
  assert (Hr : state_run (H := Demo.demo_runtime) (FormatDate day_start) 2 "chat" 1 fresh
    ((([] ++ [None]) ++ [Some "chat"]) ++ []) after_three).
  { eapply run_step; [eapply run_step; [eapply run_step; [apply run_none|]|]|].
    - apply (step_take (H := Demo.demo_runtime) _ _ _ _ None day_start 2 fresh 1 true None); [reflexivity|lia|reflexivity|].
      apply pair_by_fst. vm_compute. reflexivity.
    - apply (step_take_task (H := Demo.demo_runtime) _ _ _ _ None day_start 2 "chat" 1 after_one 2 1 true None);
        [reflexivity|lia|lia|reflexivity|reflexivity|]. apply pair_by_fst. vm_compute. reflexivity.
    - apply (step_take (H := Demo.demo_runtime) _ _ _ _ None day_start 2 after_two 2 false None); [reflexivity|lia|reflexivity|].
      apply pair_by_fst. vm_compute. reflexivity. }
  exists [None; Some "chat"].
  pose proof (quota_is_respected (H := Demo.demo_runtime) Missing false GroupSoftShadow (FormatDate day_start) 2 "chat" 1 fresh
    [None; Some "chat"] after_three eq_refl Hr) as (E & _ & B & _).
  split; [exact Hr|]. split; [reflexivity|]. split; [exact E|exact B].
Defined.
