(* ===== verification/FairyGate.v ===== *)
(** * The message gate (fairy/gate.go)

    Which messages the assistant answers.  In a private conversation it answers all; in a
    group those that address it, by a command or a mention, and, while the sender who
    addressed it last has the focus of the group, the messages of that sender (a soft
    trigger).  The gate is asked twice per message: at the ingress, where nothing is
    kept ([commit = false]), and when the turn starts. *)
From S2P Require Import Prelude GoLib Types FairyTypes FairyState.
From stdpp Require Import gmap strings list.
From Stdlib Require Import ZArith.

Local Open Scope Z_scope.
Local Open Scope go_scope.

Record BehaviorConfig := mkBehaviorConfig {
  GroupSoftDefault : string; FocusTTL : Z; SoftCooldown : Z; ExpressionStyle : string }.

Record conversationFocus := mkFocus { senderID : string; expiresAt : time; lastSoftAt : time }.
#[export] Instance eta_conversationFocus : Eta conversationFocus :=
  fun r => mkFocus r.(senderID) r.(expiresAt) r.(lastSoftAt).

(** the store of the switches is given to each call *)
Record MessageGate := mkMessageGate { userID : string; focuses : gmap string conversationFocus }.
#[export] Instance eta_MessageGate : Eta MessageGate := fun r => mkMessageGate r.(userID) r.(focuses).

Definition NewMessageGate (userID : string) : MessageGate := mkMessageGate userID ∅.

Implicit Types (event : messageEvent) (behavior : BehaviorConfig) (now : time) (g : MessageGate).

(** the sender takes the focus of the conversation; expired focuses go *)
Definition focus event behavior now g : MessageGate :=
  if behavior.(FocusTTL) <=? 0 then g
  else
    let sender := event.(messageEvent_Sender).(Sender_UserID) in
    let previous := default (mkFocus "" zero_time zero_time) (g.(focuses) !! event.(messageEvent_ConversationID)) in
    let previous := if bool_decide (previous.(senderID) = sender) then previous
                    else previous <| lastSoftAt := zero_time |> in
    let next := previous <| senderID := sender |> <| expiresAt := now + behavior.(FocusTTL) |> in
    g <| focuses ::= fun m =>
      filter (fun kv => Before now kv.2.(expiresAt) = true) (<[event.(messageEvent_ConversationID) := next]> m) |>.

Section gate.
Context `{Runtime}.
Variable state : option StateStore.

Definition group_enabled event : bool :=
  match state with None => false | Some s => GroupEnabled event.(messageEvent_ConversationID) s end.
Definition soft_mode event behavior : string :=
  match state with
  | None => behavior.(GroupSoftDefault)
  | Some s => GroupSoftMode event.(messageEvent_ConversationID) s
  end.

(** the part under the lock: a message that does not address the assistant *)
Definition evaluate_soft event behavior now (commit : bool) (mode : string) g : GateDecision * MessageGate :=
  let conversation := event.(messageEvent_ConversationID) in
  match g.(focuses) !! conversation with
  | None => (mkGateDecision GateIgnore GateReasonGroupNoTrigger false false, g)
  | Some f =>
      if negb (Before now f.(expiresAt))
      then (mkGateDecision GateIgnore GateReasonGroupNoTrigger false false, g <| focuses ::= delete conversation |>)
      else if negb (bool_decide (f.(senderID) = event.(messageEvent_Sender).(Sender_UserID)))
      then (mkGateDecision GateWait GateReasonFocusConflict false false, g)
      else if bool_decide (mode = GroupSoftShadow)
      then (mkGateDecision GateWait GateReasonSoftShadow false true, g)
      else if (0 <? behavior.(SoftCooldown)) && negb (IsZero f.(lastSoftAt))
              && (Sub now f.(lastSoftAt) <? behavior.(SoftCooldown))
      then (mkGateDecision GateWait GateReasonSoftCooldown false false, g)
      else
        (mkGateDecision GateTrigger GateReasonSoftTrigger false false,
         if commit
         then g <| focuses ::= <[conversation :=
                f <| lastSoftAt := now |> <| expiresAt := now + behavior.(FocusTTL) |>]> |>
         else g)
  end.

Definition Evaluate event behavior now (commit : bool) g : GateDecision * MessageGate :=
  let sender := event.(messageEvent_Sender).(Sender_UserID) in
  if bool_decide (sender = "") || bool_decide (event.(messageEvent_ConversationID) = "")
     || bool_decide (event.(messageEvent_MessageID) = "")
  then (mkGateDecision GateReject GateReasonInvalidEvent false false, g)
  else if bool_decide (sender = g.(userID)) then (mkGateDecision GateIgnore GateReasonSelfMessage false false, g)
  else
    let '(text, mentioned) := messageText event.(messageEvent_Message) g.(userID) in
    let text := TrimSpace text in
    if bool_decide (text = "") && negb (present (summarizeMediaInputs event.(messageEvent_Message)))
    then (mkGateDecision GateIgnore GateReasonEmptyText false false, g)
    else if negb (isGroup event) then (mkGateDecision GateTrigger GateReasonPrivateMessage true false, g)
    else
      let isCommand := negb (bool_decide (text = "")) && commandTrigger text in
      let isManagement := isCommand && bool_decide (is_Some (fairyCommand (normalizeTrigger text))) in
      if negb isManagement && negb (group_enabled event)
      then (mkGateDecision GateIgnore GateReasonGroupDisabled false false, g)
      else if isCommand
      then (mkGateDecision GateTrigger GateReasonCommand true false,
            if commit then focus event behavior now g else g)
      else if mentioned
      then (mkGateDecision GateTrigger GateReasonExplicitMention true false,
            if commit then focus event behavior now g else g)
      else
        let mode := soft_mode event behavior in
        if bool_decide (mode = GroupSoftOff)
        then (mkGateDecision GateIgnore GateReasonSoftDisabled false false, g)
        else evaluate_soft event behavior now commit mode g.
End gate.
