(* ===== verification/FairyGateProps.v ===== *)
(** * What the message gate guarantees (fairy/gate.go)

    Decisions that can be traced, a preview that announces what the turn will find and
    keeps nothing, and soft triggers only for the sender who addressed the assistant. *)
From S2P Require Import Prelude GoLib Types FairyTypes FairyState FairyGate Demo.
From stdpp Require Import gmap strings list.
From Stdlib Require Import ZArith.

Local Open Scope Z_scope.
Local Open Scope go_scope.

Definition decision (action reason : string) (hard shadow : bool) : GateDecision :=
  mkGateDecision action reason hard shadow.

(** the condition that decides first *)
Ltac top_if E :=
  lazymatch goal with |- context [match (if ?b then _ else _) with pair _ _ => _ end] => destruct b eqn:E end.

(** the event addresses the assistant in a group *)
Definition addresses (d : GateDecision) : bool :=
  one_of [GateReasonCommand; GateReasonExplicitMention] d.(GateDecision_Reason).
Definition soft (d : GateDecision) : bool := bool_decide (d.(GateDecision_Reason) = GateReasonSoftTrigger).

Section gate.
Context `{Runtime}.
Implicit Types (st : option StateStore) (event : messageEvent) (behavior : BehaviorConfig) (now : time) (g : MessageGate).

Definition conversation event : string := event.(messageEvent_ConversationID).
Definition sender event : string := event.(messageEvent_Sender).(Sender_UserID).

(** the outcomes of the gate: the decisions it can make, with the focus they leave *)
Inductive outcome event behavior now (commit : bool) g : GateDecision -> MessageGate -> Prop :=
| outcome_quiet d : validGateDecision d = true -> addresses d = false -> soft d = false ->
    outcome event behavior now commit g d g
| outcome_expired : (exists f, g.(focuses) !! conversation event = Some f /\ Before now f.(expiresAt) = false) ->
    outcome event behavior now commit g (decision GateIgnore GateReasonGroupNoTrigger false false)
      (g <| focuses ::= delete (conversation event) |>)
| outcome_address d : validGateDecision d = true -> addresses d = true ->
    sender event <> "" -> isGroup event = true ->
    outcome event behavior now commit g d (if commit then focus event behavior now g else g)
| outcome_soft f : g.(focuses) !! conversation event = Some f -> Before now f.(expiresAt) = true ->
    f.(senderID) = sender event -> isGroup event = true ->
    (0 <? behavior.(SoftCooldown)) && negb (IsZero f.(lastSoftAt))
      && (Sub now f.(lastSoftAt) <? behavior.(SoftCooldown)) = false ->
    outcome event behavior now commit g (decision GateTrigger GateReasonSoftTrigger false false)
      (if commit
       then g <| focuses ::= <[conversation event :=
              f <| lastSoftAt := now |> <| expiresAt := now + behavior.(FocusTTL) |>]> |>
       else g).

Lemma Evaluate_outcome st event behavior now commit g :
  let '(d, g') := Evaluate st event behavior now commit g in outcome event behavior now commit g d g'.
Proof.
  unfold Evaluate. cbv zeta. top_if Es; [by apply outcome_quiet|]. top_if Hself; [by apply outcome_quiet|].
  destruct (messageText _ _) as [text mentioned]. top_if Ht; [by apply outcome_quiet|].
  destruct (isGroup event) eqn:Hg; cbn [negb]; [|by apply outcome_quiet].
  assert (Hs : sender event <> "") by (intros E; unfold sender in E; by rewrite E in Es).
  top_if Hd; [by apply outcome_quiet|]. top_if Hc; [by apply outcome_address|].
  destruct mentioned; [by apply outcome_address|]. top_if Hm; [by apply outcome_quiet|].
  unfold evaluate_soft. cbv zeta. destruct (focuses g !! _) as [f|] eqn:Hf; [|by apply outcome_quiet].
  destruct (Before now _) eqn:Hb; cbn [negb]; [|apply outcome_expired; by exists f].
  top_if Hu; [by apply outcome_quiet|]. top_if Hsh; [by apply outcome_quiet|].
  top_if Hcool; [by apply outcome_quiet|]. apply outcome_soft; [done|done| |done|done].
  by apply negb_false_iff, bool_decide_eq_true in Hu.
Qed.

(** every decision of the gate, on any event, is one that the trace accepts; and the
    preview at the ingress decides exactly as the turn will on the same gate, while it
    neither gives nor extends a focus: it can only drop one that has expired. *)
Theorem preview_decides_and_keeps_nothing st event behavior now g :
  let '(d, g') := Evaluate st event behavior now true g in
  let '(preview, g0) := Evaluate st event behavior now false g in
  preview = d /\ validGateDecision d = true
  /\ g0.(focuses) ⊆ g.(focuses)
  /\ (forall c f, g.(focuses) !! c = Some f -> Before now f.(expiresAt) = true -> g0.(focuses) !! c = Some f).
Proof.
  assert (Hs : (Evaluate st event behavior now false g).1 = (Evaluate st event behavior now true g).1).
  { unfold Evaluate. cbv zeta. repeat (case_match; try done). unfold evaluate_soft. cbv zeta. by repeat case_match. }
  pose proof (Evaluate_outcome st event behavior now true g) as Ho.
  pose proof (Evaluate_outcome st event behavior now false g) as Hp.
  destruct (Evaluate st event behavior now true g) as [d g'], (Evaluate st event behavior now false g) as [p g0].
  cbn in Hs. subst p. split; [done|]. split; [by destruct Ho|].
  destruct Hp as [| (f & Hf & Hb)| |]; try done. cbn. split; [apply delete_subseteq|].
  intros c f' Hf' Hb'. rewrite lookup_delete_ne; [done|]. intros <-. congruence.
Qed.

(** ** A history of the gate *)

Record gate_entry := mkEntry {
  E_event : messageEvent; E_behavior : BehaviorConfig; E_now : time; E_commit : bool; E_decision : GateDecision }.
Implicit Types (e : gate_entry) (c : string).

(** what the gate was asked since it was made, in order *)
Inductive gate_log (userID : string) : list gate_entry -> MessageGate -> Prop :=
| log_empty : gate_log userID [] (NewMessageGate userID)
| log_snoc l g st event behavior now commit d g' :
    gate_log userID l g -> Evaluate st event behavior now commit g = (d, g') ->
    gate_log userID (l ++ [mkEntry event behavior now commit d]) g'.

(** the entries that give or extend the focus of a conversation *)
Definition keeps_focus c e : bool :=
  e.(E_commit) && bool_decide (conversation e.(E_event) = c)
  && (soft e.(E_decision) || addresses e.(E_decision) && (0 <? e.(E_behavior).(FocusTTL))).

(** why a sender has the focus: the latest entry that gave or extended it is theirs, and
    they addressed the assistant in the group *)
Record earned (l : list gate_entry) c (f : conversationFocus) : Prop := {
  earned_last : exists l1 e l2, l = l1 ++ e :: l2 /\ keeps_focus c e = true
    /\ Forall (fun e' => keeps_focus c e' = false) l2
    /\ sender e.(E_event) = f.(senderID) /\ f.(expiresAt) = e.(E_now) + e.(E_behavior).(FocusTTL)
    /\ (soft e.(E_decision) = true -> f.(lastSoftAt) = e.(E_now));
  earned_address : exists e, e ∈ l /\ keeps_focus c e = true /\ addresses e.(E_decision) = true
    /\ sender e.(E_event) = f.(senderID) }.

Lemma earned_later l e c f : keeps_focus c e = false -> earned l c f -> earned (l ++ [e]) c f.
Proof.
  intros Hk [(l1 & e1 & l2 & -> & H1 & H2 & H3) (e0 & H4 & H5)]. split.
  - exists l1, e1, (l2 ++ [e]). rewrite <-app_assoc. split; [done|]. split; [done|]. split; [|done].
    apply Forall_app. split; [done|by constructor].
  - exists e0. rewrite elem_of_app. by split; [left|].
Qed.
Lemma earned_now l e c f :
  keeps_focus c e = true -> sender e.(E_event) = f.(senderID) ->
  f.(expiresAt) = e.(E_now) + e.(E_behavior).(FocusTTL) ->
  (soft e.(E_decision) = true -> f.(lastSoftAt) = e.(E_now)) ->
  (addresses e.(E_decision) = true \/ exists f0, f0.(senderID) = f.(senderID) /\ earned l c f0) ->
  earned (l ++ [e]) c f.
Proof.
  intros Hk Hs He Hl Ha. split; [by exists l, e, []|]. destruct Ha as [Ha|(f0 & E & [_ (e0 & H1 & H2 & H3 & H4)])].
  - exists e. rewrite elem_of_app, list_elem_of_singleton. by split; [right|].
  - exists e0. rewrite elem_of_app, <-E. by split; [left|].
Qed.

Lemma focus_lookup event behavior now g c f :
  (focus event behavior now g).(focuses) !! c = Some f ->
  (g.(focuses) !! c = Some f /\ (c <> conversation event \/ behavior.(FocusTTL) <= 0))
  \/ (c = conversation event /\ 0 < behavior.(FocusTTL) /\ f.(senderID) = sender event
      /\ f.(expiresAt) = now + behavior.(FocusTTL)).
Proof.
  unfold focus. destruct (Z.leb_spec behavior.(FocusTTL) 0) as [Ht|Ht]; [by left; auto|]. cbv zeta. cbn.
  intros Hf%map_lookup_filter_Some. destruct Hf as [Hf _].
  apply lookup_insert_Some in Hf as [[<- <-]|[Hne Hf]]; [right|left; auto]. by case_bool_decide.
Qed.

Lemma soft_not_address d : addresses d = true -> soft d = false.
Proof. unfold addresses, soft. rewrite bool_decide_eq_false. intros Ha E. rewrite E in Ha. by vm_compute in Ha. Qed.

Lemma focus_earned userID l g : gate_log userID l g -> map_Forall (fun c f => earned l c f) g.(focuses).
Proof.
  induction 1 as [|l g st event behavior now commit d g' _ IH E]; [apply map_Forall_empty|].
  pose proof (Evaluate_outcome st event behavior now commit g) as Ho. rewrite E in Ho.
  set (e := mkEntry event behavior now commit d). intros c f Hf.
  assert (Hold : g.(focuses) !! c = Some f -> keeps_focus c e = false -> earned (l ++ [e]) c f)
    by (intros Hg Hk; apply earned_later, IH; done).
  destruct Ho as [d Hv Ha Hs|(f0 & Hf0 & _)|d Hv Ha Hs Hg|f0 Hf0 Hb Hu Hg Hc].
  - apply Hold; [done|]. unfold keeps_focus. cbn. by rewrite Ha, Hs, andb_false_r.
  - cbn in Hf. apply lookup_delete_Some in Hf as [Hne Hf]. apply Hold; [done|].
    unfold keeps_focus. cbn. by rewrite andb_false_r.
  - destruct commit; [|by apply Hold]. apply focus_lookup in Hf as [[Hf Hor]|(-> & Ht & Hs' & He)].
    + apply Hold; [done|]. unfold keeps_focus. cbn. rewrite (soft_not_address d), Ha by done. cbn.
      destruct Hor as [Hne|Ht]; [by rewrite bool_decide_false|]. rewrite andb_false_iff. right. by apply Z.ltb_ge.
    + apply earned_now; [|done|done| |by left].
      * unfold keeps_focus. cbn. rewrite bool_decide_true, Ha by done. apply orb_true_iff. right. by apply Z.ltb_lt.
      * cbn. by rewrite soft_not_address.
  - destruct commit; [|by apply Hold]. cbn in Hf. apply lookup_insert_Some in Hf as [[<- <-]|[Hne Hf]].
    + apply earned_now; [|done|done|done|right; by exists f0; split; [|apply IH]].
      unfold keeps_focus. cbn. by rewrite bool_decide_true.
    + apply Hold; [done|]. unfold keeps_focus. cbn. by rewrite bool_decide_false.
Qed.

(** a soft trigger is earned: when the gate, whatever it was asked before, lets through
    a group message that does not address the assistant, then the sender of that message
    addressed the assistant in that group before; the latest entry that gave or extended
    the focus of the group is theirs and its period is not over; and if that entry was a soft
    trigger too, the cool-down has passed since. *)
Theorem soft_triggers_are_earned (userID : string) (l : list gate_entry) (g : MessageGate)
    (st : option StateStore) (event : messageEvent) (behavior : BehaviorConfig) (now : time) (commit : bool)
    (d : GateDecision) (g' : MessageGate) :
  gate_log userID l g -> Evaluate st event behavior now commit g = (d, g') -> soft d = true ->
  isGroup event = true
  /\ (exists e, e ∈ l /\ keeps_focus (conversation event) e = true /\ addresses e.(E_decision) = true
        /\ sender e.(E_event) = sender event)
  /\ (exists l1 e l2, l = l1 ++ e :: l2 /\ keeps_focus (conversation event) e = true
        /\ Forall (fun e' => keeps_focus (conversation event) e' = false) l2
        /\ sender e.(E_event) = sender event /\ now < e.(E_now) + e.(E_behavior).(FocusTTL)
        /\ (soft e.(E_decision) = true -> 0 < behavior.(SoftCooldown) -> e.(E_now) <> zero_time ->
            behavior.(SoftCooldown) <= Sub now e.(E_now))).
Proof.
  intros Hl E Hs. pose proof (Evaluate_outcome st event behavior now commit g) as Ho. rewrite E in Ho.
  destruct Ho as [d Hv Ha Hs'|(f0 & Hf0 & _)|d Hv Ha Hse Hg|f Hf Hb Hu Hg Hc]; [congruence|done| |].
  { apply soft_not_address in Ha. congruence. }
  destruct (focus_earned userID l g Hl _ _ Hf) as [(l1 & e & l2 & H1 & H2 & H3 & H4 & H5 & H6) (e0 & A1 & A2 & A3 & A4)].
  rewrite Hu in H4, A4. split; [done|]. split; [by exists e0|].
  exists l1, e, l2. do 4 (split; [done|]). unfold Before in Hb. apply Z.ltb_lt in Hb. split; [lia|].
  intros Hse Hp Hz. rewrite (H6 Hse) in Hc. unfold IsZero in Hc.
  rewrite (proj2 (Z.ltb_lt 0 _)), (proj2 (Z.eqb_neq _ _)) in Hc by done. by apply Z.ltb_ge.
Qed.
End gate.

(** ** Witness *)

Definition group_store : StateStore := mkStateStore true GroupSoftOn new_state Missing.
Definition gate_behavior : BehaviorConfig := mkBehaviorConfig GroupSoftOn (60 * second) (5 * second) "normal".
Definition in_group (segments : list MessageSegment) (id : string) : messageEvent :=
  mkMessageEvent "message" "group" id "group_1" (mkSender "alice" "Alice" "") segments 0 false false false.
Definition mention : messageEvent := in_group [AtSegment "fairy"; TextSegment "hello"] "m1".
Definition follow_up : messageEvent := in_group [TextSegment "and now?"] "m2".
Definition mention_decision : GateDecision := mkGateDecision GateTrigger GateReasonExplicitMention true false.
Definition soft_decision : GateDecision := mkGateDecision GateTrigger GateReasonSoftTrigger false false.
Definition mention_entry : gate_entry := mkEntry mention gate_behavior (10 * second) true mention_decision.
Definition focused_gate : MessageGate :=
  (Evaluate (H := Demo.demo_runtime) (Some group_store) mention gate_behavior (10 * second) true (NewMessageGate "fairy")).2.
Definition followed_gate : MessageGate :=
  (Evaluate (H := Demo.demo_runtime) (Some group_store) follow_up gate_behavior (20 * second) true focused_gate).2.

Lemma soft_triggers_are_earned_witness :
  gate_log (H := Demo.demo_runtime) "fairy" [mention_entry] focused_gate
  /\ Evaluate (H := Demo.demo_runtime) (Some group_store) follow_up gate_behavior (20 * second) true focused_gate
     = (soft_decision, followed_gate)
  /\ exists e, e ∈ [mention_entry] /\ keeps_focus "group_1" e = true
       /\ addresses e.(E_decision) = true /\ sender e.(E_event) = "alice".
Proof.
  assert (Hl : gate_log (H := Demo.demo_runtime) "fairy" ([] ++ [mention_entry]) focused_gate).
  { apply (log_snoc "fairy" [] (NewMessageGate "fairy") (Some group_store)); [apply log_empty|].
    apply pair_by_fst. vm_compute. reflexivity. }
  assert (He : Evaluate (H := Demo.demo_runtime) (Some group_store) follow_up gate_behavior (20 * second) true focused_gate
    = (soft_decision, followed_gate)) by (apply pair_by_fst; vm_compute; reflexivity).
  split; [exact Hl|]. split; [exact He|].
  exact (proj1 (proj2 (soft_triggers_are_earned (H := Demo.demo_runtime) "fairy" [mention_entry] focused_gate (Some group_store)
    follow_up gate_behavior (20 * second) true soft_decision followed_gate Hl He eq_refl))).
Defined.
