(* ===== verification/FairyContextProps.v ===== *)
(** * What the conversation memory guarantees (fairy/context.go)

    The store against a log that never forgets within a conversation: whatever is asked of
    both, the store holds the newest messages as they were said and one summary, marked as
    untrusted, that accounts for every older one. *)
From S2P Require Import Prelude GoLib Types FairyTypes RuneFacts FairyContext.
From stdpp Require Import gmap strings list.
From Stdlib Require Import ZArith Lia.

Local Open Scope Z_scope.
Local Open Scope go_scope.

(** ** What a summary stands for *)

Definition first_of {A} `{EqDecision A} (zero : A) (l : list A) : A := default zero (head (filter (fun x => x <> zero) l)).
Definition last_of {A} `{EqDecision A} (zero : A) (l : list A) : A := default zero (last (filter (fun x => x <> zero) l)).

Definition first_source (l : list ChatMessage) : string := first_of "" (ChatMessage_SourceID <$> l).
Definition last_source (l : list ChatMessage) : string := last_of "" (end_id <$> l).
Definition first_time (l : list ChatMessage) : Z := first_of 0 (ChatMessage_SourceTimeMS <$> l).

Record stands_for (m : ChatMessage) (l : list ChatMessage) : Prop := {
  sf_role : m.(ChatMessage_Role) = "user";
  sf_marked : HasPrefix m.(ChatMessage_Content) memorySummaryPrefix = true;
  sf_length : Z.of_nat (length (runes m.(ChatMessage_Content))) <= maxMemorySummaryRunes + 3;
  sf_calls : m.(ChatMessage_ToolCalls) = [];
  sf_source : m.(ChatMessage_SourceID) = first_source l;
  sf_end : m.(ChatMessage_SourceEndID) = last_source l;
  sf_count : m.(ChatMessage_SourceCount) = sum_of source_count l;
  sf_time : m.(ChatMessage_SourceTimeMS) = first_time l }.

Section first_last.
Context {A : Type} `{EqDecision A} (zero : A).
Implicit Type l : list A.

Lemma first_of_app l1 l2 :
  first_of zero (l1 ++ l2) = if decide (first_of zero l1 = zero) then first_of zero l2 else first_of zero l1.
Proof.
  unfold first_of. rewrite filter_app. destruct (filter _ l1) as [|x l] eqn:E; cbn; [by rewrite decide_True|].
  assert (Hx : x ∈ filter (fun x => x <> zero) l1) by (rewrite E; left).
  apply list_elem_of_filter in Hx as [Hx _]. by rewrite decide_False.
Qed.
Lemma last_of_app l1 l2 :
  last_of zero (l1 ++ l2) = if decide (last_of zero l2 = zero) then last_of zero l1 else last_of zero l2.
Proof.
  unfold last_of. rewrite filter_app, last_app. destruct (last (filter _ l2)) as [x|] eqn:E; cbn; [|by rewrite decide_True].
  apply last_Some_elem_of, list_elem_of_filter in E as [Hx _]. by rewrite decide_False.
Qed.
Lemma first_of_cons x l : first_of zero (x :: l) = if decide (x = zero) then first_of zero l else x.
Proof. unfold first_of. rewrite filter_cons. by destruct (decide (x = zero)), (decide (x <> zero)). Qed.
Lemma last_of_cons x l : last_of zero (x :: l) = if decide (last_of zero l = zero) then x else last_of zero l.
Proof.
  change (x :: l) with ([x] ++ l). rewrite last_of_app. destruct (decide _); [|done].
  unfold last_of. rewrite filter_cons. destruct (decide (x <> zero)) as [|Hx]; [done|]. cbn. by apply dec_stable in Hx.
Qed.
End first_last.

(** the loop of summarizeContextMessages *)
Lemma summarize_fields (l : list ChatMessage) st :
  let st' := foldl summarize_step st l in
  st'.(sourceID) = (if decide (st.(sourceID) = "") then first_source l else st.(sourceID))
  /\ st'.(sourceEndID) = (if decide (last_source l = "") then st.(sourceEndID) else last_source l)
  /\ st'.(sourceCount) = st.(sourceCount) + sum_of source_count l
  /\ st'.(sourceTimeMS) = (if decide (st.(sourceTimeMS) = 0) then first_time l else st.(sourceTimeMS)).
Proof.
  unfold first_source, last_source, first_time. revert st. induction l as [|m l IH]; intros st; cbn [foldl fmap list_fmap].
  - unfold first_of, last_of. cbn. repeat split; try (by case_decide); lia.
  - destruct (IH (summarize_step st m)) as (-> & -> & -> & ->). rewrite !first_of_cons, last_of_cons.
    destruct st as [ps i en n t]. unfold summarize_step. cbn [sourceID sourceEndID sourceCount sourceTimeMS].
    change (sum_of source_count (m :: l)) with (source_count m + sum_of source_count l).
    split; [|split; [|split]].
    + repeat (case_bool_decide || case_decide); cbn in *; congruence.
    + repeat (case_bool_decide || case_decide); cbn in *; congruence.
    + lia.
    + repeat (case_bool_decide || case_decide); cbn in *; try congruence; destruct (Z.eqb_spec t 0), (Z.eqb_spec (ChatMessage_SourceTimeMS m) 0); cbn in *; congruence.
Qed.

Lemma count_positive m : 1 <= source_count m.
Proof. unfold source_count. destruct (Z.ltb_spec (ChatMessage_SourceCount m) 1); lia. Qed.
Lemma counts_positive l : l <> [] -> 1 <= sum_of source_count l.
Proof.
  intros Hl. destruct l as [|m l]; [done|]. clear Hl.
  change (sum_of source_count (m :: l)) with (source_count m + sum_of source_count l).
  pose proof (count_positive m). induction l as [|m' l IH]; [change (sum_of source_count []) with 0; lia|].
  change (sum_of source_count (m' :: l)) with (source_count m' + sum_of source_count l). pose proof (count_positive m'). lia.
Qed.

Lemma prefix_ascii : ascii memorySummaryPrefix.
Proof. unfold ascii. apply (bool_decide_unpack _). by vm_compute. Qed.

Lemma summary_stands_for l : stands_for (summarizeContextMessages l) l.
Proof.
  unfold summarizeContextMessages. cbv zeta.
  destruct (summarize_fields l (mkSummary [] "" "" 0 0)) as (E1 & E2 & E3 & E4). revert E1 E2 E3 E4.
  generalize (foldl summarize_step (mkSummary [] "" "" 0 0) l). intros st E1 E2 E3 E4.
  split; cbn [ChatMessage_Role ChatMessage_Content ChatMessage_ToolCalls ChatMessage_SourceID ChatMessage_SourceEndID
    ChatMessage_SourceCount ChatMessage_SourceTimeMS].
  - done.
  - assert (Hp : exists x, (if bool_decide (parts st = []) then memorySummaryPrefix
      else memorySummaryPrefix +:+ newline +:+ String.concat newline (parts st)) = memorySummaryPrefix +:+ x).
    { destruct (bool_decide _); [by exists ""|by eexists]. }
    destruct Hp as [x ->]. apply limit_prefix; [apply prefix_ascii|by vm_compute].
  - by apply limit_length.
  - done.
  - by rewrite E1, decide_True.
  - rewrite E2. by destruct (decide (last_source l = "")) as [->|].
  - by rewrite E3.
  - by rewrite E4, decide_True.
Qed.

(** messages without an end have no source *)
Lemma no_source l : last_source l = "" -> first_source l = "".
Proof.
  unfold last_source, first_source. induction l as [|m l IH]; [done|]. cbn [fmap list_fmap].
  rewrite last_of_cons, first_of_cons. case_decide as Hl; [|done]. unfold end_id.
  case_bool_decide as He; [|done]. intros Hs. by rewrite decide_True, IH.
Qed.

(** a summary of a summary stands for all the messages *)
Lemma stands_for_more m l l' : l <> [] -> stands_for m l -> stands_for (summarizeContextMessages (m :: l')) (l ++ l').
Proof.
  intros Hl [_ _ _ _ H1 H2 H3 H4]. destruct (summary_stands_for (m :: l')) as [G0 G1 G2 G3 G4 G5 G6 G7].
  split; try done.
  - rewrite G4. unfold first_source in *. rewrite fmap_app, first_of_app. cbn. rewrite first_of_cons. by rewrite H1.
  - rewrite G5. unfold last_source in *. rewrite fmap_app, last_of_app. cbn. rewrite last_of_cons.
    destruct (decide _); [|done]. unfold end_id. case_bool_decide as He; [|done]. rewrite H1. rewrite H2 in He.
    rewrite (no_source l He). done.
  - rewrite G6, sum_of_app. change (sum_of source_count (m :: l')) with (source_count m + sum_of source_count l').
    unfold source_count at 1. rewrite H3. pose proof (counts_positive l Hl).
    destruct (Z.ltb_spec (sum_of source_count l) 1); lia.
  - rewrite G7. unfold first_time in *. rewrite fmap_app, first_of_app. cbn. rewrite first_of_cons. by rewrite H4.
Qed.

(** ** The log *)

(** [full] is the conversation, [held] what the store keeps of it, at most [max] messages *)
Definition compacted (max : Z) (full held : list ChatMessage) : Prop :=
  (held = full /\ Z.of_nat (length full) <= max)
  \/ exists pre suf summary, full = pre ++ suf /\ held = summary :: suf /\ pre <> []
       /\ Z.of_nat (length suf) = max - 1 /\ stands_for summary pre.

Lemma compacts max full held added : 2 <= max ->
  compacted max full held -> compacted max (full ++ added) (compactContextMessages (held ++ added) max).
Proof.
  intros Hm Hc. unfold compactContextMessages, cloneChatMessages. cbv zeta.
  replace (max - 1 <? 1) with false by lia. destruct (Z.leb_spec (Z.of_nat (length (held ++ added))) max) as [Hl|Hl].
  - destruct Hc as [[-> Hf]|(pre & suf & m & -> & -> & Hp & Hs & Hst)]; [by left|]. right.
    rewrite length_app in Hl. cbn in Hl. assert (added = []) as -> by (destruct added; [done|cbn in Hl; lia]).
    exists pre, suf, m. by rewrite !app_nil_r.
  - set (n := (length (held ++ added) - Z.to_nat (max - 1))%nat). right.
    destruct Hc as [[-> Hf]|(pre & suf & m & -> & -> & Hp & Hs & Hst)].
    + exists (take n (full ++ added)), (drop n (full ++ added)). eexists. rewrite take_drop.
      split; [done|]. split; [done|]. split; [|split; [rewrite length_drop; lia|apply summary_stands_for]].
      intros E. apply (f_equal length) in E. rewrite length_take in E. cbn in E. lia.
    + assert (Hn : n = S (n - 1)) by (unfold n; rewrite length_app in *; cbn in *; lia).
      assert (Hk : (n - 1 = length (suf ++ added) - Z.to_nat (max - 1))%nat) by (unfold n; cbn; lia).
      assert (Hk' : (Z.to_nat (max - 1) <= length (suf ++ added))%nat) by (rewrite length_app in *; lia). cbn [app]. 
      rewrite Hn. cbn [take drop]. set (k := (n - 1)%nat) in *. clearbody k.
      exists (pre ++ take k (suf ++ added)), (drop k (suf ++ added)). eexists.
      rewrite <-!app_assoc, take_drop. split; [done|]. split; [done|]. split; [by destruct pre|].
      split; [rewrite length_drop; lia|by apply stands_for_more].
Qed.

(** the store that never compacts *)
Definition log_append (key : string) (now : time) (added : list ChatMessage) (s : ContextStore) : ContextStore :=
  let entry := default (mkContextEntry [] zero_time) (s.(entries) !! key) in
  let held := if IsZero entry.(updatedAt) || outdated s.(ttl) now entry then [] else entry.(messages) in
  s <| entries ::= <[key := mkContextEntry (held ++ added) now]> |>.

Inductive context_op :=
| OpAppend (key : string) (now : time) (added : list ChatMessage)
| OpSnapshot (key : string) (now : time)
| OpClear (key : string)
| OpPrune (now : time).
Definition step_store (s : ContextStore) (op : context_op) : ContextStore :=
  match op with
  | OpAppend key now added => (Append key now added s).2
  | OpSnapshot key now => (Snapshot key now s).2
  | OpClear key => Clear key s
  | OpPrune now => Prune now s
  end.
Definition step_log (s : ContextStore) (op : context_op) : ContextStore :=
  match op with OpAppend key now added => log_append key now added s | _ => step_store s op end.

(** the same conversations, updated at the same moments *)
Definition entry_rel (max : Z) (full held : contextEntry) : Prop :=
  held.(updatedAt) = full.(updatedAt) /\ compacted max full.(messages) held.(messages).
Record store_rel (l s : ContextStore) : Prop := {
  rel_ttl : s.(ttl) = l.(ttl);
  rel_max : s.(maxMessages) = l.(maxMessages);
  rel_entries : map_Forall2 (fun _ => entry_rel s.(maxMessages)) l.(entries) s.(entries) }.

Lemma rel_outdated max t now full held :
  entry_rel max full held ->
  (IsZero held.(updatedAt) || outdated t now held) = (IsZero full.(updatedAt) || outdated t now full)
  /\ outdated t now held = outdated t now full.
Proof. intros [E _]. unfold outdated. by rewrite E. Qed.

Lemma append_rel key now added l s : 2 <= s.(maxMessages) ->
  store_rel l s -> store_rel (log_append key now added l) (Append key now added s).2.
Proof.
  intros Hm [Ht Hx He]. split; [done|done|]. cbn. apply map_Forall2_insert_2; [|done]. split; [done|]. cbn.
  assert (Hn : compacted s.(maxMessages) [] []) by (left; split; [done|cbn; lia]).
  apply compacts; [done|]. rewrite Ht. destruct (He key) as [full held Hr|]; [|exact Hn]. cbn [from_option id].
  destruct (rel_outdated _ l.(ttl) now _ _ Hr) as [-> _]. destruct (_ || _); [done|]. apply Hr.
Qed.

Lemma snapshot_rel key now l s : 2 <= s.(maxMessages) -> store_rel l s ->
  compacted s.(maxMessages) (Snapshot key now l).1 (Snapshot key now s).1
  /\ store_rel (Snapshot key now l).2 (Snapshot key now s).2.
Proof.
  intros Hm Hr. destruct (Hr) as [Ht Hx He]. unfold Snapshot. rewrite Ht.
  assert (Hn : compacted s.(maxMessages) [] []) by (left; split; [done|cbn; lia]).
  destruct (He key) as [full held Hf|]; [|done].
  destruct (rel_outdated _ l.(ttl) now _ _ Hf) as [-> _]. destruct (_ || _); [|by split; [apply Hf|]].
  split; [done|]. split; [done|done|]. cbn. by apply map_Forall2_delete.
Qed.

Lemma step_rel op l s : 2 <= s.(maxMessages) -> store_rel l s ->
  store_rel (step_log l op) (step_store s op) /\ (step_store s op).(maxMessages) = s.(maxMessages).
Proof.
  intros Hm Hr. destruct op as [key now added|key now|key|now]; cbn [step_log step_store].
  - split; [by apply append_rel|done].
  - split; [by apply snapshot_rel|]. unfold Snapshot. destruct (_ !! _); [|done]. by destruct (_ || _).
  - split; [|done]. destruct Hr as [Ht Hx He]. split; [done|done|]. cbn. by apply map_Forall2_delete.
  - split; [|done]. destruct Hr as [Ht Hx He]. split; [done|done|]. unfold Prune. cbn. intros key.
    rewrite !map_lookup_filter. rewrite Ht. destruct (He key) as [full held Hf|]; cbn; [|by constructor].
    destruct (rel_outdated _ l.(ttl) now _ _ Hf) as [_ Eo]. cbn in *.
    destruct (decide (outdated l.(ttl) now held = false)) as [Hd|Hd], (decide (outdated l.(ttl) now full = false)) as [Hd'|Hd'];
      try (rewrite Eo in Hd; done); rewrite ?option_guard_True, ?option_guard_False by done; by constructor.
Qed.

Lemma run_rel ops l s : 2 <= s.(maxMessages) -> store_rel l s ->
  store_rel (foldl step_log l ops) (foldl step_store s ops)
  /\ (foldl step_store s ops).(maxMessages) = s.(maxMessages).
Proof.
  revert l s. induction ops as [|op ops IH]; intros l s Hm Hr; [done|]. cbn [foldl].
  destruct (step_rel op l s Hm Hr) as [Hr' Ex]. destruct (IH (step_log l op) (step_store s op)) as [H1 H2]; [by rewrite Ex|done|].
  split; [done|by rewrite H2].
Qed.

(** C28: the conversation memory refines a log without compaction: after any appends, reads,
    clears and prunings, what the store gives for a conversation stands for all that was said
    in it since it was last cleared or left alone for longer than the time to live. It is
    the conversation itself while it fits in [max] messages; beyond, it is the newest
    [max - 1] messages unchanged after one summary, marked as untrusted and of at most 1203
    runes, which names the first and last sources and the number of the messages before. No
    message is lost from the count. *)
Theorem context_refines_the_log (lifetime max : Z) (ops : list context_op) (key : string) (now : time) :
  2 <= max ->
  let s := foldl step_store (NewContextStore lifetime max) ops in
  let l := foldl step_log (NewContextStore lifetime max) ops in
  let held := (Snapshot key now s).1 in
  let full := (Snapshot key now l).1 in
  compacted max full held
  /\ Z.of_nat (length held) <= max
  /\ sum_of source_count held = sum_of source_count full.
Proof.
  intros Hm s l held full.
  destruct (run_rel ops (NewContextStore lifetime max) (NewContextStore lifetime max)) as [Hr Ex]; [done| |].
  { split; [done|done|]. apply map_Forall2_empty. }
  destruct (snapshot_rel key now _ _ ltac:(by rewrite Ex) Hr) as [Hc _]. rewrite Ex in Hc.
  fold s l in Hc. fold held full in Hc. clearbody held full. split; [done|].
  destruct Hc as [[-> Hl]|(pre & suf & m & -> & -> & Hp & Hs & Hst)]; [done|].
  split; [cbn in Hs |- *; lia|]. rewrite sum_of_app. change (sum_of source_count (m :: suf)) with (source_count m + sum_of source_count suf).
  unfold source_count at 1. rewrite (sf_count _ _ Hst). pose proof (counts_positive pre Hp).
  destruct (Z.ltb_spec (sum_of source_count pre) 1); lia.
Qed.

(** ** Witness *)

Definition said (n : Z) : ChatMessage :=
  mkChatMessage "user" ("message " +:+ sprint_d n) "" [] ("m" +:+ sprint_d n) "" 0 (1000 * n).
Definition five_turns : list context_op := (fun n => OpAppend "c" (n * second) [said n]) <$> [1; 2; 3; 4; 5].

Lemma context_refines_the_log_witness :
  let held := (Snapshot "c" (6 * second) (foldl step_store (NewContextStore (60 * second) 3) five_turns)).1 in
  length held = 3%nat /\ drop 1 held = [said 4; said 5]
  /\ (ChatMessage_SourceID <$> held) = ["m1"; "m4"; "m5"] /\ (ChatMessage_SourceCount <$> held) = [3; 0; 0]
  /\ sum_of source_count held
     = sum_of source_count (Snapshot "c" (6 * second) (foldl step_log (NewContextStore (60 * second) 3) five_turns)).1.
Proof.
  split; [vm_compute; reflexivity|]. split; [vm_compute; reflexivity|]. split; [vm_compute; reflexivity|].
  split; [vm_compute; reflexivity|].
  exact (proj2 (proj2 (context_refines_the_log (60 * second) 3 five_turns "c" (6 * second) ltac:(lia)))).
Defined.
