(* ===== verification/FairyEngine.v ===== *)
(** * The engine: messages and management commands (fairy/engine.go, behavior_experience.go)

    The engine owns the gate, the memories and the switches, and composes the model, the
    agent, the tools and the plugins.  This file holds its data, its monad, the texts of its
    replies, and the commands that users manage it with; [FairyTurn] holds the turns.  The
    messenger, the files of the stores and the media that are fetched are the class
    [EngineWorld]; the stores of the two memories are those of their plugins. *)
From S2P Require Import Prelude GoLib Types DynamicContent FairyTypes FairyTrace FairySchema FairySensitive FairyTools FairyPlugins FairyPluginHost FairyModel FairyModelAttempt FairyModelRouter FairyAgent FairyFacts FairyState FairyGate FairyContext MemoryState.
From stdpp Require Import gmap strings list.
From Stdlib Require Import ZArith.

Local Open Scope Z_scope.
Local Open Scope go_scope.

(** ** Texts *)

(** time.Duration.String *)
Fixpoint drop_zeros (l : list Z) : list Z := match l with 48 :: l => drop_zeros l | l => l end.
(** the digits of [v] over [10 ^ width], after the point *)
Definition fraction (width : nat) (v : Z) : string :=
  let digits := reverse (drop_zeros (reverse (bytes (pad width v)))) in
  if bool_decide (digits = []) then "" else "." +:+ of_bytes digits.
Definition positive_duration (u : Z) : string :=
  if u <? second then
    if u <? 1000 then sprint_d u +:+ "ns"
    else if u <? 1000000 then sprint_d (u / 1000) +:+ fraction 3 (u mod 1000) +:+ "µs"
    else sprint_d (u / 1000000) +:+ fraction 6 (u mod 1000000) +:+ "ms"
  else
    let seconds := u / second in
    let tail := sprint_d (seconds mod 60) +:+ fraction 9 (u mod second) +:+ "s" in
    if seconds <? 60 then tail
    else
      let tail := sprint_d (seconds / 60 mod 60) +:+ "m" +:+ tail in
      if seconds <? 3600 then tail else sprint_d (seconds / 3600) +:+ "h" +:+ tail.
Definition duration_text (d : Z) : string :=
  if d =? 0 then "0s" else if d <? 0 then "-" +:+ positive_duration (- d) else positive_duration d.

Definition formatDuration (value : Z) : string :=
  if Z.rem value hour =? 0 then sprint_d (Z.quot value hour) +:+ " 小时"
  else if Z.rem value minute =? 0 then sprint_d (Z.quot value minute) +:+ " 分钟"
  else duration_text value.

Example durations : duration_text <$> [0; 1500; 1500000; 90 * second; hour + 500000000; - second]
  = ["0s"; "1.5µs"; "1.5ms"; "1m30s"; "1h0m0.5s"; "-1s"].
Proof. vm_compute. reflexivity. Qed.

(** strconv.Atoi: digits, after a sign or not, in the range of an int *)
Definition digits_value (l : list Z) : Z := foldl (fun n c => n * 10 + (c - 48)) 0 l.
Definition Atoi (text : string) : option Z :=
  let '(negative, digits) :=
    match bytes text with 43 :: l => (false, l) | 45 :: l => (true, l) | l => (false, l) end in
  let value := if negative then - digits_value digits else digits_value digits in
  if bool_decide (digits = []) || negb (forallb is_digit digits) || negb (int64_ok value) then None else Some value.

(** ** Behavior experiences *)

Section experiences.
Context `{Runtime}.

Definition BehaviorExperienceScopeAll := "all".
Definition behaviorExperienceScopeMatches (scope messageType : string) : bool :=
  bool_decide (scope = BehaviorExperienceScopeAll) || bool_decide (scope = to_lower (TrimSpace messageType)).

Record behaviorExperienceMatch := mkMatch {
  match_experience : BehaviorExperienceConfig; match_matches : Z; match_specificity : Z }.

(** the keywords of an experience that the text contains, in lower case *)
Definition matched_keywords (haystack : string) (keywords : list string) : list string :=
  filter (fun keyword => negb (bool_decide (keyword = "")) && Contains haystack keyword = true)
    ((fun keyword => to_lower (TrimSpace keyword)) <$> keywords).
Definition match_of (haystack messageType : string) (experience : BehaviorExperienceConfig) : option behaviorExperienceMatch :=
  if negb experience.(Experience_Enabled) || negb (behaviorExperienceScopeMatches experience.(Experience_Scope) messageType)
  then None
  else
    let keywords := matched_keywords haystack experience.(Experience_Keywords) in
    if bool_decide (keywords = []) then None
    else Some (mkMatch experience (Z.of_nat (length keywords))
                 (foldl (fun longest keyword => Z.max longest (Z.of_nat (length (runes keyword)))) 0 keywords)).
Definition match_less (a b : behaviorExperienceMatch) : bool :=
  if negb (a.(match_matches) =? b.(match_matches)) then b.(match_matches) <? a.(match_matches)
  else if negb (a.(match_specificity) =? b.(match_specificity)) then b.(match_specificity) <? a.(match_specificity)
  else string_less a.(match_experience).(Experience_ID) b.(match_experience).(Experience_ID).
Definition selectBehaviorExperiences (experiences : list BehaviorExperienceConfig) (messageType text : string)
  : list BehaviorExperienceConfig :=
  let haystack := to_lower (TrimSpace text) in
  if bool_decide (haystack = "") then []
  else match_experience <$> take (Z.to_nat maxSelectedBehaviorExperiences)
         (sort_slice match_less (omap (match_of haystack messageType) experiences)).
End experiences.

(** ** Plugins and models *)

Definition ZZZProfilePluginID := "zzz-profile".
Definition TerminalBridgePluginID := "terminal-bridge".
Definition ZZZAccountPluginID := "zzz-account".
Definition DynamicContentPluginID := "dynamic-content".
Definition ContextMemoryPluginID := "context-memory".
Definition FactMemoryPluginID := "fact-memory".
Definition SelfCognitionPluginID := "self-cognition".
(** the identifiers of builtinPluginDescriptors *)
Definition knownPlugin : string -> bool :=
  one_of [DynamicContentPluginID; TerminalBridgePluginID; ZZZProfilePluginID; ZZZAccountPluginID; ContextMemoryPluginID;
          FactMemoryPluginID; SelfCognitionPluginID].

Record PluginRequest := mkPluginRequest {
  PluginRequest_Text : string; PluginRequest_ConversationID : string; PluginRequest_MessageID : string;
  PluginRequest_MessageType : string; PluginRequest_SenderID : string; PluginRequest_SenderNickname : string }.
#[export] Instance eta_PluginRequest : Eta PluginRequest := fun r => mkPluginRequest
  r.(PluginRequest_Text) r.(PluginRequest_ConversationID) r.(PluginRequest_MessageID)
  r.(PluginRequest_MessageType) r.(PluginRequest_SenderID) r.(PluginRequest_SenderNickname).

(** a value of the registry of capabilities, as the engine's type assertions tell it: the
    store of the contexts, the wrapper of the store of the facts, another *)
Inductive capability := ContextCapability | FactCapability | OtherCapability.

Record fetchedMedia := mkFetched { Fetched_Kind : string; Fetched_MIMEType : string; Fetched_Name : string; Fetched_Data : string }.
Definition mediaFetchInvalid := "invalid_media".
Definition mediaFetchUnsafe := "unsafe_url".
Definition mediaFetchTooLarge := "too_large".
Definition mediaFetchUnsupported := "unsupported_type".
Definition mediaFetchNetwork := "network_error".

(** what a turn can fail with, besides the errors of plugins *)
Inductive turn_error :=
| AgentError (e : agent_error) | TaskUnavailable (taskID : string) | SensitiveContent | FetchFailed (code : string).

Definition AIRolloutOff := "off".
Definition AIRolloutAllowlist := "allowlist".
Definition AIRolloutAll := "all".

(** the part of the configuration that the engine reads; [configured] is ModelConfigured *)
Record Config := mkConfig {
  Config_UserID : string; Config_SystemPrompt : string; Config_ContextTTL : Z; Config_ContextMessages : Z;
  Config_RateLimit : Z; Config_ModelDailyLimit : Z; Config_ModelTasks : list (string * Z);
  Config_AIRolloutMode : string; Config_AIEnabled : bool; Config_AIAllowedUsers : list string;
  Config_BehaviorExperiences : list BehaviorExperienceConfig; Config_behavior : BehaviorConfig; configured : bool }.

Section rollout.
Context `{Runtime}.
Implicit Type cfg : Config.

Definition EffectiveAIRolloutMode cfg : string :=
  let mode := to_lower (TrimSpace cfg.(Config_AIRolloutMode)) in
  if negb (bool_decide (mode = "")) then mode else if cfg.(Config_AIEnabled) then AIRolloutAll else AIRolloutOff.
Definition AIUserAllowed cfg (userID : string) : bool :=
  let mode := EffectiveAIRolloutMode cfg in
  bool_decide (mode = AIRolloutAll)
  || bool_decide (mode = AIRolloutAllowlist) && bool_decide (userID ∈ cfg.(Config_AIAllowedUsers)).
Definition modelAvailabilityStatus cfg (userID : string) : string :=
  if negb cfg.(configured) then "AI 未配置"
  else
    let mode := EffectiveAIRolloutMode cfg in
    if bool_decide (mode = AIRolloutOff) then "AI 已配置但生产回复已关闭"
    else if bool_decide (mode = AIRolloutAllowlist)
    then if AIUserAllowed cfg userID then "AI 灰度已向此账号开放" else "AI 灰度未向此账号开放"
    else "AI 已开放".

Definition modelTaskDailyLimit cfg (taskID : string) : Z :=
  match find_first (fun task => bool_decide (task.1 = taskID) && (0 <? task.2)) cfg.(Config_ModelTasks) with
  | Some task => task.2
  | None => cfg.(Config_ModelDailyLimit)
  end.
End rollout.

(** ** Worlds and models *)

(** the switches and quotas, which the model's calls are reserved in, and what is outside *)
Definition world (W : Type) : Type := StateStore * W.

(** what the engine asks of the outside: the messenger (the members of a group with their
    roles, a message that is sent), whether saving the switches fails; for an operation of the
    facts the faults, the clock and a draw; a file that is fetched; whether the cause of an
    error, which texts do not show, is a context that is done *)
Class EngineWorld (Ctx W : Type) := {
  GetGroupMembers : Ctx -> string -> W -> result (list (string * string)) * W;
  SendText : Ctx -> string -> string -> string -> W -> W;
  save_fault : W -> option string * W;
  fact_env : Ctx -> W -> ((fact_stmt -> option string) * time * option string) * W;
  Fetch : Ctx -> mediaInput -> W -> (fetchedMedia + string) * W;
  context_caused : turn_error -> W -> bool
}.

Section worlds.
Context {Ctx W : Type} `{HM : ModelWorld Ctx W}.

Definition outside {A} (f : W -> A * W) (w : world W) : A * world W := let '(a, o) := f w.2 in (a, (w.1, o)).

#[export] Program Instance with_store : ModelWorld Ctx (world W) | 100 := {|
  ctx_err c w := ctx_err c w.2; ctx_turn := ctx_turn (ModelWorld := HM); with_timeout c d w := with_timeout c d w.2;
  http_do c r := outside (http_do c r); wait_for c d := outside (wait_for c d); int63n n := outside (int63n n);
  now := outside now; draw_id := outside draw_id; trace_faults := outside trace_faults |}.
Next Obligation. intros. apply with_timeout_turn. Qed.
Next Obligation.
  intros n w Hn. unfold outside. pose proof (int63n_range n w.2 Hn) as Hr. by destruct (int63n n w.2).
Qed.
Context `{HA : !AgentWorld (H2 := HM)}.
#[export] Program Instance agents_with_store : AgentWorld (H2 := with_store) :=
  {| tool_env c := outside (tool_env c) |}.
Next Obligation.
  intros c w. unfold outside. pose proof (tool_env_turn c w.2) as Ht. by destruct (tool_env c w.2).
Qed.
End worlds.

Section plugins.
Context {Ctx W : Type}.

(** the interface Plugin, with the methods of InteractivePlugin, ToolPlugin and
    ToolIntentMatcher when the plugin has them *)
Record Plugin := mkPlugin {
  plugin_Name : string; plugin_Match : PluginRequest -> bool;
  plugin_Handle : Ctx -> PluginRequest -> world W -> (string + exec_error) * world W;
  plugin_HandleInteractive : option (Ctx -> PluginRequest -> world W -> (bool + exec_error) * world W);
  plugin_BuildToolCall : option (PluginRequest -> option ToolCall);
  plugin_MatchToolIntent : option (PluginRequest -> bool) }.

(** the interface Model, with the methods of ToolAwareModel, TranscriptionModel and
    ModelTaskInspector when the model has them *)
Record Model := mkModel {
  model_Complete : Ctx -> list ChatMessage -> option TraceDB -> world W -> (string + model_error) * option TraceDB * world W;
  model_CompleteRequest :
    option (Ctx -> ModelRequest -> option TraceDB -> world W -> (ModelResponse + model_error) * option TraceDB * world W);
  model_Transcribe :
    option (Ctx -> ModelBinaryInput -> option TraceDB -> world W -> (string + model_error) * option TraceDB * world W);
  model_HasTask : option (string -> bool) }.

(** the type assertion model.(ToolAwareModel) *)
Definition tool_aware (m : Model) : option (@ToolAwareModel Ctx (world W)) :=
  (fun f => mkToolAwareModel f m.(model_HasTask)) <$> m.(model_CompleteRequest).
Definition modelHasTask (m : option Model) (taskID : string) : bool :=
  default false (m ← m; has ← m.(model_HasTask); Some (has taskID)).
End plugins.
Arguments Plugin : clear implicits.
Arguments Model : clear implicits.

(** *ModelRouter as a model *)
Definition router `{Runtime} `{ModelWorld Ctx W} (s : RuntimeModelSnapshot) : Model Ctx W :=
  mkModel (fun c messages => CompleteTask s c ReplyerTaskID messages) (Some (CompleteRequest s)) (Some (Transcribe s)) (Some (HasTask s)).

(** ** The monad of turns *)

Definition M (S A : Type) : Type := S -> A * S.
Definition ret {S A} (a : A) : M S A := fun s => (a, s).
Definition bind {S A B} (m : M S A) (k : A -> M S B) : M S B := fun s => let '(a, s) := m s in k a s.
Notation "'let*' x := m 'in' k" := (bind m (fun x => k))
  (at level 200, x name, m at level 100, k at level 200, right associativity) : go_scope.
Definition gets {S A} (f : S -> A) : M S A := fun s => (f s, s).
Definition modify {S} (f : S -> S) : M S unit := fun s => (tt, f s).
Definition when {S} (b : bool) (m : M S unit) : M S unit := if b then m else ret tt.

(** a message that the engine has sent: SendText(conversation, reference, text) *)
Record sent_text := mkSent { sent_conversation : string; sent_reference : string; sent_text_ : string }.
#[export] Instance sent_text_eq_dec : EqDecision sent_text.
Proof. solve_decision. Defined.

Section engine.
Context `{Runtime} `{Regexps} `{Links} {Ctx W Env : Type} `{HM : ModelWorld Ctx W} `{HA : !AgentWorld (H2 := HM)} `{HE : !EngineWorld Ctx W}.
Notation PluginHost :=
  (@PluginHost (Plugin Ctx W) capability (world W -> list promptSection) PluginEvent (world W) Env).
Notation ToolRuntime := (ToolRuntime (option PluginHost) (world W)).

(** what does not change in a turn *)
Record Engine := mkEngine {
  cfg : Config; behavior : BehaviorConfig; model : option (Model Ctx W); plugins : list (Plugin Ctx W);
  pluginHost : option PluginHost; mediaFetcher : bool; hasExternalTools : bool }.

(** what does; [st_tools] holds the trace store, and [st_sent] what has been sent, in order *)
Record turn_state := mkState {
  st_gate : MessageGate; st_contexts : ContextStore; st_facts : option FactDB; st_lastCall : gmap string time;
  st_tools : ToolRuntime; st_sent : list sent_text; st_world : world W }.
#[export] Instance eta_turn_state : Eta turn_state := fun r => mkState
  r.(st_gate) r.(st_contexts) r.(st_facts) r.(st_lastCall) r.(st_tools) r.(st_sent) r.(st_world).
Notation Turn := (M turn_state).
Implicit Types (e : Engine) (c : Ctx) (s : turn_state) (event : messageEvent).

Definition on_world {A} (f : world W -> A * world W) : Turn A :=
  fun s => let '(a, w) := f s.(st_world) in (a, s <| st_world := w |>).
(** an operation on the switches, whose document may fail to be saved *)
Definition on_store {A} (f : option string -> StateStore -> A * StateStore) : Turn A :=
  on_world (fun w => let '(fault, o) := save_fault w.2 in let '(a, store) := f fault w.1 in (a, (store, o))).
(** an operation on the facts, whose store is not nil *)
Definition on_facts {A} c
    (f : (fact_stmt -> option string) -> time -> option string -> FactDB -> result A * FactDB) : Turn (result A) :=
  fun s =>
    match s.(st_facts) with
    | None => (Err "nil store", s)
    | Some db =>
        let '((fault, wall, draw), w) := outside (fact_env (with_timeout c (5 * second) s.(st_world))) s.(st_world) in
        let '(r, db) := f fault wall draw db in
        (r, s <| st_facts := Some db |> <| st_world := w |>)
    end.
(** an operation on the memory of the conversations *)
Definition on_contexts {A} (f : ContextStore -> A * ContextStore) : Turn A :=
  fun s => let '(a, contexts) := f s.(st_contexts) in (a, s <| st_contexts := contexts |>).
Definition forget_conversation (conversationID : string) : Turn unit := on_contexts (fun store => (tt, Clear conversationID store)).
Definition switches {A} (f : StateStore -> A) : Turn A := gets (fun s => f s.(st_world).1).
Definition engine_now : Turn time := on_world now.
Definition done c : Turn bool := gets (fun s => bool_decide (is_Some (ctx_err c s.(st_world)))).

(** ** Replies *)

Definition reply c event (text : string) : Turn unit :=
  let* stopped := done c in
  if stopped then ret tt
  else
    let conversation := event.(messageEvent_ConversationID) in
    let reference := replyReferenceForEvent event in
    modify (fun s =>
      let '(store, o) := s.(st_world) in
      s <| st_sent ::= fun l => l ++ [mkSent conversation reference text] |>
        <| st_world := (store, SendText (with_timeout c (20 * second) o) conversation reference text o) |>).

Definition contextCancelled c (error : turn_error) : Turn bool :=
  let* stopped := done c in
  let* caused := gets (fun s => context_caused error s.(st_world).2) in
  ret (stopped || match error with AgentError (ContextDone _) => true | _ => caused end).
(** for the errors of plugins *)
Definition exec_cancelled c (error : exec_error) : Turn bool :=
  let* stopped := done c in
  ret (stopped || match error with ExecError _ => false | _ => true end).

(** ** What the plugins offer *)

Definition pluginRunning e (id : string) : bool := from_option (Running id) false e.(pluginHost).
Definition activeCommandPlugins e : list (Plugin Ctx W) := from_option Commands [] e.(pluginHost).
Definition contextMemory e : bool :=
  match h ← e.(pluginHost); HostCapability "memory.context" h with Some ContextCapability => true | _ => false end.
(** [None]: the plugin is not available; else whether it has a store *)
Definition factMemory e : Turn (option bool) :=
  match h ← e.(pluginHost); HostCapability "memory.fact" h with
  | Some FactCapability => let* stored := gets (fun s => bool_decide (is_Some s.(st_facts))) in ret (Some stored)
  | _ => ret None
  end.
Definition emit_event e c (name conversationID : string) (data : event_data) : event_data * option string :=
  emitPluginEvent e.(pluginHost) c name conversationID data.

(** ** Management commands *)

Definition helpText e : string :=
  let running := pluginRunning e in
  let lines :=
    ["Fairy 可用指令"; "/fairy help - 查看帮助"; "/fairy stop - 停止当前会话正在执行的 Fairy 任务";
     "/fairy status - 查看群开关、插件和 AI 状态"; "/fairy privacy - 查看隐私说明"; "/fairy quota - 查看今日 AI 调用额度";
     "/fairy on|off - 群主或管理员开启/关闭群回复"; "/fairy proactive off|shadow|on - 设置群聊软触发模式";
     "/fairy agent <请求> - 使用 Planner 处理需要工具或多步骤的请求"] in
  let parts :=
    [(ContextMemoryPluginID, ["/fairy clear - 清除当前会话的临时上下文"; "/fairy memory on|off - 开启或关闭当前会话的临时记忆"], "临时记忆");
     (FactMemoryPluginID, ["/fairy facts on|off - 开启或关闭来源化事实记忆（默认关闭）"; "/fairy facts list [页码] - 查看当前范围的事实及来源";
        "/fairy remember <事实> - 显式保存一条事实"; "/fairy forget <事实ID|all> - 删除一条或全部事实"], "事实记忆");
     (ZZZProfilePluginID, ["/zzz <UID> - 查询绝区零公开展示资料"], "ZZZ 资料查询");
     (TerminalBridgePluginID, ["/term hosts - 请求在线 ZZZ Term 列出主机"; "/term info <主机ID> - 请求读取主机公开信息";
        "/term run <主机ID> <命令> - 发起一次性本地审批执行"], "ZZZ Term 临时运维");
     (ZZZAccountPluginID, ["/zzz login - 私聊扫码绑定国服米游社账号"; "/zzz account - 私聊查看脱敏绑定信息"; "/zzz gacha sync - 同步并缓存抽卡记录";
        "/zzz gacha - 查询本地抽卡统计"; "/zzz abyss [previous] - 查询本期或上期式舆防卫战"; "/zzz logout - 私聊删除绑定凭据和抽卡缓存"],
      "ZZZ 米游社账号")] in
  let shown := parts ≫= fun '(id, lines, _) => if running id then lines else [] in
  let disabled := parts ≫= fun '(id, _, name) => if running id then [] else [name] in
  String.concat newline
    (lines ++ shown ++ [""; "私聊可直接提问；群聊默认只有 @Fairy 或指令会触发，群管理员可单独设置软触发模式。"]
     ++ (if bool_decide (disabled = []) then [] else ["服务器未启用：" +:+ String.concat "、" disabled +:+ "。"])).

(** the role of a user in a group, as the messenger tells it *)
Definition isGroupAdmin c (groupID userID : string) : Turn (result bool) :=
  let* members := on_world (outside (GetGroupMembers c groupID)) in
  ret (match members with
        | Err err => Err err
        | Ok members =>
            Ok (from_option (fun member => one_of ["owner"; "admin"] member.2) false
                  (find_first (fun member => bool_decide (member.1 = userID)) members))
        end).
(** [action] is for the owner and the admins of the group, who are told [refusal] otherwise *)
Definition for_admins c event (refusal : string) (action : Turn unit) : Turn unit :=
  let* admin := isGroupAdmin c event.(messageEvent_ConversationID) event.(messageEvent_Sender).(Sender_UserID) in
  match admin with
  | Err _ => reply c event "暂时无法确认群权限，请稍后再试。"
  | Ok admin => if admin then action else reply c event refusal
  end.
(** [for_admins] in a group *)
Definition for_admins_of_group c event (refusal : string) (action : Turn unit) : Turn unit :=
  if isGroup event then for_admins c event refusal action else action.

(** *** The memory of a conversation *)

Definition clear_command e c event : Turn unit :=
  if contextMemory e then
    let* _ := forget_conversation event.(messageEvent_ConversationID) in
    reply c event "当前会话的 Fairy 临时上下文已清除。"
  else reply c event "Fairy 的临时记忆插件已由服务器管理员停用。".

Definition memory_command e c event (argument : string) : Turn unit :=
  let conversation := event.(messageEvent_ConversationID) in
  if negb (contextMemory e) then reply c event "Fairy 的临时记忆插件已由服务器管理员停用，不能修改记忆设置。"
  else
    match parseSwitch argument with
    | None => reply c event "请使用 /fairy memory on 或 /fairy memory off。"
    | Some enabled =>
        for_admins_of_group c event "只有群主或管理员可以修改 Fairy 群记忆设置。"
          (let* saved := on_store (fun fault => SetContextEnabled fault conversation enabled) in
           match saved with
           | Err _ => reply c event "保存 Fairy 记忆设置失败，请稍后再试。"
           | Ok _ =>
               if enabled then reply c event "当前会话的临时记忆已开启；只会记住明确触发 Fairy 的对话，并按时自动过期。"
               else
                 let* _ := forget_conversation conversation in
                 reply c event "当前会话的临时记忆已关闭，已有上下文已立即清除；指令和插件仍可使用。"
           end)
    end.

(** *** Facts *)

Definition render_fact (memory : FactMemory) : string :=
  newline +:+ memory.(Fact_ID) +:+ " · " +:+ FormatDate memory.(Fact_CreatedAt) +:+ " · 来源 "
  +:+ memory.(Fact_SourceMessageID) +:+ newline +:+ memory.(Fact_Content).
(** [page] is at least 1 *)
Definition formatFactMemoryPage (memories : list FactMemory) (page : Z) (enabled : bool) : string :=
  let state := if enabled then "开启" else "关闭" in
  let count := Z.of_nat (length memories) in
  if count =? 0 then "当前范围的事实记忆已" +:+ state +:+ "，尚未保存事实。"
  else
    let pages := (count + factMemoryPageSize - 1) / factMemoryPageSize in
    if pages <? page
    then "事实记忆共 " +:+ sprint_d count +:+ " 条、" +:+ sprint_d pages +:+ " 页；没有第 " +:+ sprint_d page +:+ " 页。"
    else
      let shown := take (Z.to_nat factMemoryPageSize) (drop (Z.to_nat ((page - 1) * factMemoryPageSize)) memories) in
      "事实记忆已" +:+ state +:+ "，共 " +:+ sprint_d count +:+ " 条（第 " +:+ sprint_d page +:+ "/" +:+ sprint_d pages +:+ " 页）："
      +:+ String.concat "" (render_fact <$> shown)
      +:+ (if page <? pages then newline +:+ "使用 /fairy facts list " +:+ sprint_d (page + 1) +:+ " 查看下一页。" else "").

(** [action] uses the store of the facts, if it can be used *)
Definition with_facts e c event (action : Turn unit) : Turn unit :=
  let* facts := factMemory e in
  match facts with
  | None => reply c event "Fairy 的事实记忆插件已由服务器管理员停用。"
  | Some false => reply c event "Fairy 的事实记忆存储当前不可用。"
  | Some true => action
  end.
Definition factMutationAllowed c event (action : Turn unit) : Turn unit :=
  for_admins_of_group c event "只有群主或管理员可以修改群事实记忆；群成员仍可使用 /fairy facts list 查看。" action.

Definition list_facts c event (page : Z) : Turn unit :=
  let scope := factScopeForEvent event in
  let* at_ := engine_now in
  let* memories := on_facts c (fun fault wall _ => FactStore.List fault wall scope at_) in
  match memories with
  | Err _ => reply c event "读取事实记忆失败，请稍后再试。"
  | Ok memories =>
      let* enabled := switches (FactMemoryEnabled scope) in
      reply c event (formatFactMemoryPage memories page enabled)
  end.
Definition switch_facts c event (enabled : bool) : Turn unit :=
  factMutationAllowed c event
    (let* saved := on_store (fun fault => SetFactMemoryEnabled fault (factScopeForEvent event) enabled) in
     match saved with
     | Err _ => reply c event "保存事实记忆设置失败，请稍后再试。"
     | Ok _ =>
         reply c event
           (if enabled then "当前范围的事实记忆已开启。Fairy 只会保存 /fairy remember 明确提交的事实；使用 /fairy facts list 查看来源。"
            else "当前范围的事实记忆已关闭，已有事实停止召回但仍保留；使用 /fairy forget all 可永久删除。")
     end).
Definition handleFactsCommand e c event (argument : string) : Turn unit :=
  with_facts e c event
    match Fields (TrimSpace argument) with
    | [] => reply c event "请使用 /fairy facts on、off 或 list [页码]。事实记忆默认关闭。"
    | first :: rest =>
        let action := to_lower first in
        if one_of ["list"; "列表"; "查看"] action then
          match rest with
          | [] => list_facts c event 1
          | [text] =>
              match Atoi text with
              | Some page => if page <? 1 then reply c event "事实记忆页码必须是正整数。" else list_facts c event page
              | None => reply c event "事实记忆页码必须是正整数。"
              end
          | _ => reply c event "请使用 /fairy facts list [页码]。"
          end
        else
          match parseSwitch action, rest with
          | Some enabled, [] => switch_facts c event enabled
          | _, _ => reply c event "请使用 /fairy facts on、off 或 list [页码]。"
          end
    end.

Definition remember_error (err : string) : string :=
  if bool_decide (err = ErrFactMemoryCapacity)
  then "当前范围最多保存 " +:+ sprint_d maxFactMemoriesPerScope +:+ " 条、合计 " +:+ sprint_d maxFactMemoryScopeRunes
       +:+ " 字事实；请先删除不再需要的内容。"
  else if bool_decide (err = ErrFactMemoryInvalid) then "事实必须是 1-" +:+ sprint_d maxFactMemoryRunes +:+ " 个字符，且不能包含疑似凭据。"
  else "保存事实失败，请稍后再试。".
Definition handleRememberCommand e c event (argument : string) : Turn unit :=
  with_facts e c event
    (factMutationAllowed c event
      (let scope := factScopeForEvent event in
       let* enabled := switches (FactMemoryEnabled scope) in
       let content := TrimSpace argument in
       if negb enabled then reply c event "事实记忆尚未开启。请先使用 /fairy facts on 明确开启。"
       else if bool_decide (content = "") then reply c event "请使用 /fairy remember <事实>。"
       else if containsSensitiveCredential content
       then reply c event "检测到疑似密码、密钥、Token 或 Cookie，该内容不会保存为事实。"
       else
         let* at_ := engine_now in
         let* memory := on_facts c (fun fault wall draw =>
           FactStore.Remember fault wall draw scope content event.(messageEvent_MessageID) at_) in
         match memory with
         | Err err => reply c event (remember_error err)
         | Ok memory =>
             reply c event ("已保存事实 " +:+ memory.(Fact_ID) +:+ "，并记录来源消息 " +:+ memory.(Fact_SourceMessageID)
               +:+ "；使用 /fairy forget " +:+ memory.(Fact_ID) +:+ " 可永久删除。")
         end)).

(** strings.EqualFold(target, "all"): these letters have no other folds *)
Definition all_facts (target : string) : bool :=
  bool_decide (ToLowerASCII target = "all") || bool_decide (target = "全部").
Definition handleForgetCommand e c event (argument : string) : Turn unit :=
  with_facts e c event
    (factMutationAllowed c event
      (let scope := factScopeForEvent event in
       let target := TrimSpace argument in
       if bool_decide (target = "") || existsb (fun b => existsb (Z.eqb b) [32; 9; 13; 10]) (bytes target)
       then reply c event "请使用 /fairy forget <事实ID> 或 /fairy forget all。"
       else if all_facts target then
         let* at_ := engine_now in
         let* count := on_facts c (fun fault wall _ => FactStore.ForgetAll fault wall scope at_) in
         match count with
         | Err _ => reply c event "删除事实记忆失败，请稍后再试。"
         | Ok count => reply c event ("已永久删除当前范围的 " +:+ sprint_d count +:+ " 条事实；此操作不可恢复。")
         end
       else
         let* at_ := engine_now in
         let* deleted := on_facts c (fun fault wall _ => FactStore.Forget fault wall scope target at_) in
         match deleted with
         | Ok true => reply c event ("事实 " +:+ target +:+ " 已永久删除。")
         | Ok false => reply c event "当前范围中没有找到该事实 ID；其他私聊或群聊中的事实不可见。"
         | Err err =>
             reply c event
               (if bool_decide (err = ErrFactMemoryInvalid) then "当前范围中没有找到该事实 ID；其他私聊或群聊中的事实不可见。"
                else "删除事实失败，请稍后再试。")
         end)).

(** *** The switches of a group *)

Definition proactive_command c event (argument : string) : Turn unit :=
  if negb (isGroup event) then reply c event "群聊软触发模式只能在群聊中设置。"
  else
    let '(mode, valid) := parseGroupSoftMode argument in
    if negb valid then reply c event "请使用 /fairy proactive off、shadow 或 on。"
    else
      for_admins c event "只有群主或管理员可以修改 Fairy 群聊软触发模式。"
        (let* saved := on_store (fun fault => SetGroupSoftMode fault event.(messageEvent_ConversationID) mode) in
         match saved with
         | Err _ => reply c event "保存群聊软触发模式失败，请稍后再试。"
         | Ok _ =>
             reply c event
               (if bool_decide (mode = GroupSoftOff) then "群聊软触发已关闭；只有 @Fairy 或指令会触发。"
                else if bool_decide (mode = GroupSoftShadow) then "群聊软触发已进入 shadow 模式；只记录判断，不会主动回复。"
                else "群聊软触发已开启；Fairy 只会在当前用户的短时 Focus 内继续回应，并受冷却限制。")
         end).

Definition group_command c event (enabled : bool) : Turn unit :=
  if negb (isGroup event) then reply c event "群回复开关只能在群聊中设置。"
  else
    for_admins c event "只有群主或管理员可以修改 Fairy 群回复开关。"
      (let* saved := on_store (fun fault => SetGroupEnabled fault event.(messageEvent_ConversationID) enabled) in
       match saved with
       | Err _ => reply c event "保存群回复设置失败，请稍后再试。"
       | Ok _ =>
           let* mode := switches (GroupSoftMode event.(messageEvent_ConversationID)) in
           reply c event (if enabled then "Fairy 群回复已开启；当前软触发模式为 " +:+ mode +:+ "。" else "Fairy 群回复已关闭；管理指令仍然可用。")
       end).

(** *** Information *)

Definition privacy_text e : string :=
  let memory :=
    if pluginRunning e ContextMemoryPluginID
    then "临时上下文只保存在 Fairy 进程内存中，最多 " +:+ sprint_d e.(cfg).(Config_ContextMessages) +:+ " 条，"
         +:+ formatDuration e.(cfg).(Config_ContextTTL)
         +:+ " 后自动过期；溢出内容压缩为带来源范围的不可信摘要，状态文件、管理页和 Trace 都不保存消息正文。"
    else "临时记忆插件当前未启用，不会保留会话上下文。" in
  let facts :=
    if pluginRunning e FactMemoryPluginID
    then "来源化事实记忆默认关闭，只保存你用 /fairy remember 明确提交的内容，保留来源消息 ID，180 天后过期，并可逐条或全部删除。事实正文只在 Fairy 的独立 facts.db 中保存，不写入状态文件、管理页或 Trace。"
    else "事实记忆插件当前未启用，不会召回或写入事实。" in
  "私聊内容会直接进入 Fairy；群聊普通消息先经过本地 Gate，默认 shadow 模式只记录固定分类，不调用模型、不保存正文、不回复。只有明确 @Fairy、指令，或群管理员开启 on 后同一用户 Focus 内的软触发消息才会进入回复流程。"
  +:+ memory +:+ facts.

Definition quota_command e c event : Turn unit :=
  let* at_ := engine_now in
  let* quota := switches (ModelQuotaStatus at_ e.(cfg).(Config_ModelDailyLimit)) in
  reply c event (modelAvailabilityStatus e.(cfg) event.(messageEvent_Sender).(Sender_UserID) +:+ "；今日已用 " +:+ sprint_d quota.1
    +:+ " 次，剩余 " +:+ sprint_d quota.2 +:+ " 次（按 UTC 日期重置）。").

Definition group_status event (store : StateStore) : string :=
  if isGroup event then
    let conversation := event.(messageEvent_ConversationID) in
    (if GroupEnabled conversation store then "群回复已开启，软触发模式 " else "群回复已关闭，软触发模式 ")
    +:+ GroupSoftMode conversation store
  else "仅私聊".
Definition memory_status e event (store : StateStore) : string :=
  if negb (pluginRunning e ContextMemoryPluginID) then "临时记忆插件未启用"
  else if ContextEnabled event.(messageEvent_ConversationID) store then "临时记忆已开启" else "临时记忆已关闭".
Definition fact_status e c event : Turn string :=
  let scope := factScopeForEvent event in
  let* facts := factMemory e in
  let* enabled := switches (FactMemoryEnabled scope) in
  match facts with
  | None => ret "事实记忆插件未启用"
  | Some false => ret "事实记忆存储不可用"
  | Some true =>
      let status := if enabled then "事实记忆已开启" else "事实记忆已关闭" in
      let* at_ := engine_now in
      let* memories := on_facts c (fun fault wall _ => FactStore.List fault wall scope at_) in
      ret (match memories with
            | Err _ => status
            | Ok memories => status +:+ "（" +:+ sprint_d (Z.of_nat (length memories)) +:+ " 条）"
            end)
  end.
(** is there an agent?  NewAgentRuntimeWithPluginHost gives none for some models *)
Definition engine_agent e (rt : ToolRuntime) : option (@AgentRuntime Ctx (world W) (option PluginHost) (Plugin Ctx W) capability Env) :=
  NewAgentRuntimeWithPluginHost e.(cfg).(Config_SystemPrompt) (m ← e.(model); tool_aware m) (Some rt) e.(pluginHost).
Definition status_command e c event : Turn unit :=
  let* groupStatus := switches (group_status event) in
  let* memoryStatus := switches (memory_status e event) in
  let* factStatus := fact_status e c event in
  let* at_ := engine_now in
  let* quota := switches (ModelQuotaStatus at_ e.(cfg).(Config_ModelDailyLimit)) in
  let* agent := gets (fun s => bool_decide (is_Some (engine_agent e s.(st_tools)))) in
  let agentStatus := match e.(model) with None => "" | Some _ => if agent then "、Planner 已配置" else "、Planner 未配置" end in
  let selfStatus := if pluginRunning e SelfCognitionPluginID then "自我认知插件已启用" else "自我认知插件未启用" in
  reply c event (groupStatus +:+ "；" +:+ memoryStatus +:+ "；" +:+ factStatus +:+ "；" +:+ selfStatus +:+ "；"
    +:+ modelAvailabilityStatus e.(cfg) event.(messageEvent_Sender).(Sender_UserID) +:+ agentStatus
    +:+ "，今日额度已用 " +:+ sprint_d quota.1 +:+ " 次、剩余 " +:+ sprint_d quota.2 +:+ " 次" +:+ "。").

(** *** Dispatch *)

(** the action of a command; [None] is handled = false *)
Definition management e c event (text : string) : option (Turn unit) :=
  match fairyCommand text with
  | None => None
  | Some (command, argument) =>
      let named names := one_of names command in
      if named ["stop"; "cancel"; "停止"; "取消"] then Some (reply c event "停止请求已处理；当前会话中正在执行的 Fairy 任务（如有）已停止。")
      else if named ["help"; "帮助"] then Some (reply c event (helpText e))
      else if named ["agent"] then
        if bool_decide (TrimSpace argument = "")
        then Some (reply c event "请使用 /fairy agent <请求>。只有已配置 planner Task 时才会进入多步骤 Agent 模式。") else None
      else if named ["clear"; "清除"; "清空"] then Some (clear_command e c event)
      else if named ["privacy"; "隐私"] then Some (reply c event (privacy_text e))
      else if named ["quota"; "额度"] then Some (quota_command e c event)
      else if named ["memory"; "记忆"] then Some (memory_command e c event argument)
      else if named ["facts"; "事实"] then Some (handleFactsCommand e c event argument)
      else if named ["remember"; "记住"] then Some (handleRememberCommand e c event argument)
      else if named ["forget"; "忘记"] then Some (handleForgetCommand e c event argument)
      else if named ["status"; "状态"] then Some (status_command e c event)
      else if named ["proactive"; "主动"] then Some (proactive_command c event argument)
      else if named ["on"; "off"; "开启"; "关闭"] then Some (group_command c event (named ["on"; "开启"]))
      else if bool_decide (argument = "") && named [""; "fairy"] then Some (reply c event (helpText e))
      else None
  end.
Definition handleManagement e c event (text : string) : Turn bool :=
  match management e c event text with
  | Some action => let* _ := action in ret true
  | None => ret false
  end.
End engine.
