(* ===== verification/FairyTurnProps.v ===== *)
(** * The engine: what a turn says, keeps and asks

    Programs of the monad of turns are judged by what they do to the state: [keeps] for a
    relation between the states, [says] for the replies, [private] for the memory of one
    conversation.  Each judgement is closed under the constructions of [FairyEngine] and
    [FairyTurn]; the theorems follow the text of the handlers. *)
From S2P Require Import Prelude GoLib Types DynamicContent FairyTypes FairyTrace FairySchema FairySchemaProps FairySensitive FairyTools FairyPlugins FairyPluginHost FairyModel FairyModelAttempt FairyModelRouter FairyModelProps FairyAgent FairyAgentProps FairyFacts FairyFactsProps FairyState FairyGate FairyContext MemoryState Demo FairyEngine FairyTurn.
From stdpp Require Import gmap strings list.
From Stdlib Require Import ZArith Sorted.

Local Open Scope Z_scope.
Local Open Scope go_scope.

(** ** States before and after *)

Section keeps.
Context {S : Type} (R : S -> S -> Prop) `{!PreOrder R}.

Definition keeps {A} (m : M S A) : Prop := forall s, R s (m s).2.

Lemma keeps_ret {A} (a : A) : keeps (ret a).
Proof. intros s. cbn. reflexivity. Qed.
Lemma keeps_gets {A} (f : S -> A) : keeps (gets f).
Proof. intros s. cbn. reflexivity. Qed.
Lemma keeps_bind {A B} (m : M S A) (k : A -> M S B) : keeps m -> (forall a, keeps (k a)) -> keeps (bind m k).
Proof. intros Hm Hk s. unfold bind. specialize (Hm s). destruct (m s) as [a s']. etrans; [exact Hm|apply Hk]. Qed.
Lemma keeps_when (b : bool) (m : M S unit) : keeps m -> keeps (when b m).
Proof. intros Hm. destruct b; [done|apply keeps_ret]. Qed.
End keeps.
Create HintDb turns.
#[export] Hint Resolve keeps_ret keeps_gets : turns.

(** a program of binds and cases *)
Ltac keeping :=
  repeat first
    [ progress (intros; cbv zeta) | solve [eauto with turns typeclass_instances] | apply keeps_bind | apply keeps_when | case_match ].

Section says.
Context `{Runtime} `{Regexps} `{Links} {Ctx W Env : Type} `{HM : ModelWorld Ctx W} `{HA : !AgentWorld (H2 := HM)} `{HE : !EngineWorld Ctx W}.
Notation Engine := (@Engine Ctx W Env).
Notation turn_state := (@turn_state Ctx W Env).
Notation Turn := (M turn_state).
Implicit Types (e : Engine) (c : Ctx) (s : turn_state) (event : messageEvent) (request : PluginRequest).

(** ** Replies *)

Definition reply_to event (text : string) : sent_text :=
  mkSent event.(messageEvent_ConversationID) (replyReferenceForEvent event) text.

(** nothing is sent *)
Definition same_sent s s' : Prop := s'.(st_sent) = s.(st_sent).
#[local] Instance same_sent_preorder : PreOrder same_sent.
Proof. split; [done|]. intros s1 s2 s3 H12 H23. unfold same_sent in *. congruence. Qed.
Notation quiet := (keeps same_sent).

Definition says event {A} (m : Turn A) : Prop :=
  forall s, exists l, (m s).2.(st_sent) = s.(st_sent) ++ l /\ (l = [] \/ exists text, l = [reply_to event text]).
(** a program that says something only if it has handled the event *)
Definition handles event (m : Turn bool) : Prop :=
  says event m /\ forall s, (m s).1 = false -> same_sent s (m s).2.

Lemma quiet_says event {A} (m : Turn A) : quiet m -> says event m.
Proof. intros Hm s. exists []. rewrite app_nil_r. split; [apply Hm|by left]. Qed.
Lemma says_reply c event text : says event (reply c event text).
Proof.
  intros s. unfold reply, bind, done, gets, modify, ret. case_match; cbn.
  - exists []. rewrite app_nil_r. split; [done|by left].
  - destruct (st_world s). cbn. eexists. split; [done|right; by eexists].
Qed.
Lemma says_bind event {A B} (m : Turn A) (k : A -> Turn B) : quiet m -> (forall a, says event (k a)) -> says event (bind m k).
Proof.
  intros Hm Hk s. unfold bind. specialize (Hm s). destruct (m s) as [a s']. destruct (Hk a s') as (l & Hl & Hcases).
  exists l. split; [|done]. rewrite Hl. f_equal. exact Hm.
Qed.
Lemma says_then event {A B} (m : Turn A) (k : A -> Turn B) : says event m -> (forall a, quiet (k a)) -> says event (bind m k).
Proof.
  intros Hm Hk s. unfold bind. specialize (Hm s). destruct (m s) as [a s'], Hm as (l & Hl & Hcases).
  exists l. split; [|done]. rewrite <-Hl. apply Hk.
Qed.
Lemma handles_bind event {B} (m : Turn bool) (k : bool -> Turn B) :
  handles event m -> quiet (k true) -> says event (k false) -> says event (bind m k).
Proof.
  intros [Hm Hq] Ht Hf s. unfold bind. specialize (Hm s). specialize (Hq s). destruct (m s) as [[] s'].
  - destruct Hm as (l & Hl & Hcases). exists l. split; [|done]. rewrite <-Hl. apply Ht.
  - destruct (Hf s') as (l & Hl & Hcases). exists l. split; [|done]. rewrite Hl. f_equal. by apply Hq.
Qed.
Lemma handles_then event {A} (m : Turn A) : says event m -> handles event (bind m (fun _ => ret true)).
Proof.
  intros Hm. split; [apply says_then; [done|]; intros; apply keeps_ret; apply _|].
  intros s. unfold bind, ret. destruct (m s). discriminate.
Qed.

(** ** Steps that say nothing *)

(** a relation that holds when only the world, the tools and the gate change *)
Class Inner (R : turn_state -> turn_state -> Prop) := {
  inner_preorder :: PreOrder R;
  inner_world : forall s w, R s (s <| st_world := w |>);
  inner_tools : forall s rt w, R s (s <| st_tools := rt |> <| st_world := w |>);
  inner_gate : forall s g, R s (s <| st_gate := g |>) }.
(** the steps that change nothing else *)
Section inner.
Context (R : turn_state -> turn_state -> Prop) `{!Inner R}.

Lemma keeps_on_world {A} (f : world W -> A * world W) : keeps R (on_world f).
Proof. intros s. unfold on_world. destruct (f _). apply inner_world. Qed.
#[local] Hint Resolve keeps_on_world : turns.
Lemma keeps_on_tools {A} f : keeps R (on_tools (A := A) f).
Proof. intros s. unfold on_tools. destruct (f _ _) as [[? ?] ?]. apply inner_tools. Qed.
#[local] Hint Resolve keeps_on_tools : turns.
Lemma keeps_asked {A} f : keeps R (asked (A := A) f).
Proof. apply keeps_on_tools. Qed.
Lemma keeps_evaluate e event commit : keeps R (evaluate_gate e event commit).
Proof.
  apply keeps_bind; [apply _|apply keeps_on_world|]. intros at_ s. destruct (Evaluate _ _ _ _ _ _). apply inner_gate.
Qed.
Lemma keeps_switches {A} (f : StateStore -> A) : keeps R (switches f).
Proof. apply keeps_gets, _. Qed.
Lemma keeps_gate_trace c event decision : keeps R (appendGateTrace c event decision).
Proof.
  unfold appendGateTrace, append_in, draw_scope, appendGateTraceEvent.
  keeping.
Qed.
End inner.
#[local] Hint Resolve keeps_on_world keeps_on_tools keeps_asked keeps_switches keeps_gate_trace keeps_evaluate inner_preorder : turns.

(** ** One reply *)

#[local] Instance same_sent_inner : Inner same_sent.
Proof. by split; [apply _|..]. Qed.

Lemma quiet_on_store {A} (f : option string -> StateStore -> A * StateStore) : quiet (on_store f).
Proof. apply keeps_on_world, _. Qed.
Lemma quiet_on_facts {A} c f : quiet (on_facts (A := A) c f).
Proof.
  intros s. unfold on_facts. destruct (st_facts s); [|done]. destruct (outside _ _) as [[[? ?] ?] ?]. by destruct (f _ _ _ _).
Qed.
Lemma quiet_on_contexts {A} (f : ContextStore -> A * ContextStore) : quiet (on_contexts f).
Proof. intros s. unfold on_contexts. by destruct (f _). Qed.
#[local] Hint Resolve quiet_on_store quiet_on_facts quiet_on_contexts : turns.

Lemma quiet_admin c groupID userID : quiet (isGroupAdmin c groupID userID).
Proof. unfold isGroupAdmin. keeping. Qed.
Lemma quiet_facts e : quiet (factMemory e).
Proof. unfold factMemory. keeping. Qed.
#[local] Hint Resolve quiet_admin quiet_facts : turns.

(** a reply is sent, unless the context is done at some moment *)
Definition answers c event {A} (m : Turn A) : Prop :=
  forall s, exists l, (m s).2.(st_sent) = s.(st_sent) ++ l
    /\ ((exists text, l = [reply_to event text]) \/ l = [] /\ exists w : world W, is_Some (ctx_err c w)).
Lemma answers_reply c event text : answers c event (reply c event text).
Proof.
  intros s. unfold reply, bind, done, gets, modify, ret. case_bool_decide as Hd; cbn.
  - exists []. rewrite app_nil_r. split; [done|right; split; [done|by exists (st_world s)]].
  - destruct (st_world s). cbn. eexists. split; [done|left; by eexists].
Qed.
Lemma answers_bind c event {A B} (m : Turn A) (k : A -> Turn B) :
  quiet m -> (forall a, answers c event (k a)) -> answers c event (bind m k).
Proof.
  intros Hm Hk s. unfold bind. specialize (Hm s). destruct (m s) as [a s']. destruct (Hk a s') as (l & Hl & Hcases).
  exists l. split; [|done]. rewrite Hl. f_equal. exact Hm.
Qed.
Lemma answers_says c event {A} (m : Turn A) : answers c event m -> says event m.
Proof. intros Hm s. destruct (Hm s) as (l & Hl & [Hs|[-> _]]); eexists; eauto. Qed.
#[local] Hint Resolve answers_reply : turns.

Ltac answering :=
  repeat first
    [ progress (intros; cbv zeta) | solve [eauto with turns] | apply answers_bind; [solve [keeping]|] | case_match ].

Lemma answers_for_admins c event refusal (action : Turn unit) :
  answers c event action -> answers c event (for_admins c event refusal action).
Proof. intros Ha. unfold for_admins. answering. Qed.
#[local] Hint Resolve answers_for_admins : turns.
Lemma answers_for_admins_of_group c event refusal (action : Turn unit) :
  answers c event action -> answers c event (for_admins_of_group c event refusal action).
Proof. intros Ha. unfold for_admins_of_group. answering. Qed.
Lemma answers_with_facts e c event action :
  answers c event action -> answers c event (with_facts e c event action).
Proof. intros Ha. unfold with_facts. answering. Qed.
Lemma quiet_fact_status e c event : quiet (fact_status e c event).
Proof. unfold fact_status. keeping. Qed.
#[local] Hint Resolve quiet_fact_status : turns.

Lemma answers_switch_facts c event enabled : answers c event (switch_facts c event enabled).
Proof. unfold switch_facts, factMutationAllowed. apply answers_for_admins_of_group. answering. Qed.
Lemma answers_list_facts c event page : answers c event (list_facts c event page).
Proof. unfold list_facts. answering. Qed.
#[local] Hint Resolve answers_switch_facts answers_list_facts : turns.
Lemma answers_facts e c event argument : answers c event (handleFactsCommand e c event argument).
Proof. apply answers_with_facts. answering. Qed.
Lemma answers_remember e c event argument : answers c event (handleRememberCommand e c event argument).
Proof. apply answers_with_facts. apply answers_for_admins_of_group. answering. Qed.
Lemma answers_forget e c event argument : answers c event (handleForgetCommand e c event argument).
Proof. apply answers_with_facts. apply answers_for_admins_of_group. answering. Qed.
Lemma answers_memory e c event argument : answers c event (memory_command e c event argument).
Proof. unfold memory_command. answering; apply answers_for_admins_of_group; answering. Qed.
#[local] Hint Resolve answers_facts answers_remember answers_forget answers_memory : turns.

Lemma management_answers e c event text action : management e c event text = Some action -> answers c event action.
Proof.
  unfold management. destruct (fairyCommand text) as [[command argument]|]; [|discriminate]. cbv zeta.
  repeat case_match; intros [= <-]; auto with turns; unfold clear_command, quota_command, status_command, proactive_command, group_command;
    answering; apply answers_for_admins; answering.
Qed.

(** C19: A management command is answered: its action sends exactly one message, to the
    conversation of the command and, in a group, in reply to it, unless the context of the
    turn is done. *)
Theorem management_commands_are_answered e c event text action s :
  management e c event text = Some action -> (forall w : world W, ctx_err c w = None) ->
  exists answer, (handleManagement e c event text s).2.(st_sent) = s.(st_sent) ++ [reply_to event answer]
    /\ (handleManagement e c event text s).1 = true.
Proof.
  intros Ha Hc. unfold handleManagement. rewrite Ha. unfold bind, ret.
  destruct (management_answers _ _ _ _ _ Ha s) as (l & Hl & [[answer ->]|[_ [w [err Hw]]]]); [|by rewrite Hc in Hw].
  exists answer. destruct (action s) as [[] s']. done.
Qed.

Lemma handles_ret event b : handles event (ret b).
Proof. split; [apply quiet_says, keeps_ret, _|done]. Qed.
Lemma management_handles e c event text : handles event (handleManagement e c event text).
Proof.
  unfold handleManagement. destruct (management e c event text) as [action|] eqn:Ha.
  - apply handles_then, (answers_says c). by eapply management_answers.
  - apply handles_ret.
Qed.

(** *** Plugins and the model *)

#[local] Hint Resolve says_reply : turns.
Ltac saying :=
  repeat first
    [ progress (intros; cbv zeta) | solve [eauto with turns typeclass_instances] | apply says_bind; [solve [keeping]|]
    | solve [apply quiet_says; keeping] | case_match ].

Lemma says_when event (b : bool) (m : Turn unit) : says event m -> says event (when b m).
Proof. intros Hm. destruct b; [done|apply quiet_says, keeps_ret, _]. Qed.
#[local] Hint Resolve says_when : turns.
Lemma quiet_cancelled c err : quiet (exec_cancelled c err).
Proof. unfold exec_cancelled, done. keeping. Qed.
Lemma says_report c event err text : says event (report c event err text).
Proof. unfold report, contextCancelled, done. saying. Qed.
#[local] Hint Resolve quiet_cancelled says_report : turns.

Lemma plain_plugin_handles e c event request plugin : handles event (plain_plugin e c event request plugin).
Proof.
  unfold plain_plugin. repeat case_match; try (apply handles_then; unfold run_tool_plugin, handle_plugin, done; saying).
  apply handles_ret.
Qed.
Lemma handles_quiet event {A} (m : Turn A) (k : A -> Turn bool) :
  quiet m -> (forall a, handles event (k a)) -> handles event (bind m k).
Proof.
  intros Hm Hk. split; [apply says_bind; [done|apply Hk]|]. intros s. unfold bind. specialize (Hm s). destruct (m s) as [a s'].
  intros Hf. etrans; [exact Hm|by apply Hk].
Qed.
Lemma command_plugin_handles e c interactive event request plugin :
  handles event (command_plugin e c interactive event request plugin).
Proof.
  unfold command_plugin. case_match; [|apply plain_plugin_handles]. case_match; [apply handles_then; saying|].
  apply handles_quiet; [keeping|]. intros [[]|err]; [apply handles_ret|apply plain_plugin_handles|].
  apply handles_quiet; [keeping|]. intros cancelled. apply handles_then. saying.
Qed.
Lemma says_command_plugins e c interactive event request l :
  handles event (command_plugins e c interactive event request l).
Proof.
  induction l as [|plugin rest IH]; cbn [command_plugins]; [apply handles_ret|].
  case_match; [done|]. destruct (command_plugin_handles e c interactive event request plugin) as [Hs Hq]. split.
  - apply handles_bind; [by apply command_plugin_handles|apply keeps_ret, _|apply IH].
  - intros s. unfold bind. specialize (Hq s). destruct (command_plugin _ _ _ _ _ _ s) as [[] s']; [discriminate|].
    intros Hf. etrans; [by apply Hq|by apply IH].
Qed.

Lemma quiet_reserved {A} e taskID (call : Turn (A + turn_error)) : quiet call -> quiet (reserved e taskID call).
Proof. intros Hc. unfold reserved. keeping. Qed.
#[local] Hint Resolve quiet_reserved : turns.
Lemma quiet_chat e m c input : quiet (completeChat e m c input).
Proof.
  unfold completeChat, finish_chat. keeping; apply quiet_reserved; keeping.
Qed.
Lemma quiet_answer e m c event request media forced prompt history at_ :
  quiet (answer e m c event request media forced prompt history at_).
Proof. pose proof quiet_chat. unfold answer, run_engine_agent. keeping. Qed.
Lemma quiet_fetch c inputs total : quiet (fetch_all c inputs total).
Proof. revert total. induction inputs; intros total; cbn [fetch_all]; keeping; auto. Qed.
Lemma quiet_media e m c summary caption : quiet (prepareMediaPrompt e m c summary caption).
Proof.
  unfold prepareMediaPrompt, describe_images, transcribe_voice. pose proof quiet_fetch. keeping; apply quiet_reserved; keeping.
Qed.
#[local] Hint Resolve quiet_answer quiet_media : turns.
Lemma quiet_remembered e event at_ : quiet (remembered e event at_).
Proof. unfold remembered. keeping. Qed.
Lemma quiet_recall e c event at_ : quiet (recall e c event at_).
Proof. unfold recall. keeping. Qed.
#[local] Hint Resolve quiet_remembered quiet_recall : turns.

Lemma says_deliver e c event remember user response at_ : says event (deliver_reply e c event remember user response at_).
Proof. unfold deliver_reply. cbv zeta. apply says_bind; [keeping|]. intros _. apply says_then; [auto with turns|]. keeping. Qed.
#[local] Hint Resolve says_deliver : turns.
Lemma says_ask e m c event request media forced : says event (ask_model e m c event request media forced).
Proof. unfold ask_model, converse. saying. Qed.
#[local] Hint Resolve says_ask : turns.

Lemma quiet_allow e event : quiet (allow_request e event).
Proof. unfold allow_request. keeping. intros s. by destruct (allow _ _ _ _). Qed.
#[local] Hint Resolve quiet_allow : turns.
Lemma says_serve e c interactive event request : says event (serve e c interactive event request).
Proof.
  unfold serve. cbv zeta. saying; (apply handles_bind; [apply handles_ret || apply says_command_plugins|keeping|saying]).
Qed.

(** the event that the hooks leave *)
Definition hooked e c event : messageEvent :=
  match (emit_event e c PluginHookBeforeGate event.(messageEvent_ConversationID) (BeforeGate event)).1 with
  | BeforeGate event => event
  | _ => event
  end.

(** C8: Whatever the plugins, the model and the stores do, a turn of the engine sends at
    most one message of its own, and only to the conversation of the event, in reply to
    the event if it is a group's; this is the event as the hooks that run before the gate
    leave it. *)
Theorem a_turn_says_one_thing e c interactive event s :
  exists l, (HandleMessage e c interactive event s).2.(st_sent) = s.(st_sent) ++ l
    /\ (l = [] \/ exists text, l = [reply_to (hooked e c event) text]).
Proof.
  revert s. change (says (hooked e c event) (HandleMessage e c interactive event)). unfold HandleMessage, hooked, done.
  apply says_bind; [keeping|]. intros [|]; [apply quiet_says, keeps_ret, _|].
  destruct (emit_event _ _ _ _ _) as [data [err|]]; [apply quiet_says, keeps_ret, _|]. unfold gated. cbn [fst].
  saying; (apply handles_bind; [apply management_handles|keeping|apply says_serve]).
Qed.

(** ** What a turn touches *)

(** the memory of one conversation *)
Definition agree (key : string) (C C' : ContextStore) : Prop :=
  C.(ttl) = C'.(ttl) /\ C.(maxMessages) = C'.(maxMessages) /\ C.(entries) !! key = C'.(entries) !! key.
Definition same_others (key : string) (C C' : ContextStore) : Prop :=
  forall k, k <> key -> C'.(entries) !! k = C.(entries) !! k.
(** an operation that reads and writes that memory only *)
Definition local_to (key : string) {A} (f : ContextStore -> A * ContextStore) : Prop :=
  forall C C', agree key C C' -> (f C).1 = (f C').1 /\ agree key (f C).2 (f C').2 /\ same_others key C (f C).2.
(** *** Operations on the memory of a conversation *)

Lemma clear_local key : local_to key (fun store => (tt, Clear key store)).
Proof.
  intros C C' Hag; pose proof Hag as (Htl & Hmx & Hat). unfold Clear, agree, same_others; cbn. split_and!; auto; [by rewrite !lookup_delete_eq|].
  intros k Hk. by rewrite lookup_delete_ne.
Qed.
Lemma snapshot_local key at_ : local_to key (Snapshot key at_).
Proof.
  intros C C' Hag; pose proof Hag as (Htl & Hmx & Hat). unfold Snapshot. rewrite <-Hat, <-Htl. destruct (entries C !! _) as [entry|]; [|by split_and!].
  destruct (_ || _); cbn; [|by split_and!]. unfold agree, same_others; cbn. split_and!; auto; [by rewrite !lookup_delete_eq|].
  intros k Hk. by rewrite lookup_delete_ne.
Qed.
Lemma append_local key at_ l : local_to key (Append key at_ l).
Proof.
  intros C C' Hag; pose proof Hag as (Htl & Hmx & Hat). unfold Append. rewrite <-Hat, <-Htl, <-Hmx. cbn. unfold agree, same_others; cbn. split_and!; auto;
    [by rewrite !lookup_insert_eq|]. intros k Hk. by rewrite lookup_insert_ne.
Qed.
(** a reading of the state that does not look at the memories *)
Definition blind {A} (f : turn_state -> A) : Prop := forall s C, f (s <| st_contexts := C |>) = f s.

(** judgements that hold of turns: they are closed under binds, and hold of the steps, among
    them the operations [P] on memories, and those on the facts of a scope *)
Class Closed (P : forall A, (ContextStore -> A * ContextStore) -> Prop) (scope : FactScope) (J : forall A, Turn A -> Prop) := {
  closed_ret A (a : A) : J A (ret a);
  closed_bind A B (m : Turn A) (k : A -> Turn B) : J A m -> (forall a, J B (k a)) -> J B (bind m k);
  closed_gets A (f : turn_state -> A) : blind f -> J A (gets f);
  closed_world A (f : world W -> A * world W) : J A (on_world f);
  closed_tools A f : J A (on_tools f);
  closed_reply c event text : J unit (reply c event text);
  closed_evaluate e event commit : J GateDecision (evaluate_gate e event commit);
  closed_allow e event : J bool (allow_request e event);
  closed_contexts A f : P A f -> J A (on_contexts f);
  closed_facts A c f :
    (forall fault wall draw db, exists now, fact_op (Some scope) now db (f fault wall draw db).2) -> J (result A) (on_facts c f) }.
Create HintDb closed.

Section closed.
Context (event : messageEvent) (P : forall A, (ContextStore -> A * ContextStore) -> Prop) (J : forall A, Turn A -> Prop).
Notation conversation := event.(messageEvent_ConversationID).
Context `{!Closed P (factScopeForEvent event) J}.
#[local] Hint Extern 1 (J _ (ret _)) => apply closed_ret : closed.
#[local] Hint Extern 1 (J _ (on_world _)) => apply closed_world : closed.
#[local] Hint Extern 1 (J _ (on_tools _)) => apply closed_tools : closed.
#[local] Hint Extern 1 (J _ (reply _ _ _)) => apply closed_reply : closed.
#[local] Hint Extern 1 (J _ (evaluate_gate _ _ _)) => apply closed_evaluate : closed.
#[local] Hint Extern 1 (J _ (allow_request _ _)) => apply closed_allow : closed.
#[local] Hint Extern 2 (J _ (gets _)) => apply closed_gets; by intros : closed.

Ltac closing :=
  repeat first [ progress (intros; cbv zeta) | solve [eauto 3 with closed] | apply closed_bind | case_match ].

Lemma closed_when (b : bool) (m : Turn unit) : J _ m -> J _ (when b m).
Proof. intros Hm. destruct b; [done|apply closed_ret]. Qed.
Lemma closed_store A (f : option string -> StateStore -> A * StateStore) : J A (on_store f).
Proof. apply closed_world. Qed.
Lemma closed_switches A (f : StateStore -> A) : J A (switches f).
Proof. by apply closed_gets. Qed.
Lemma closed_now : J _ engine_now.
Proof. apply closed_world. Qed.
Lemma closed_admin c groupID userID : J _ (isGroupAdmin c groupID userID).
Proof. unfold isGroupAdmin. closing. Qed.
Lemma closed_factMemory e : J _ (factMemory e).
Proof. unfold factMemory. closing. Qed.
#[local] Hint Resolve closed_when closed_now closed_store closed_switches closed_admin closed_factMemory : closed.

(** *** Operations on memories and facts *)

Context (Hclear : P _ (fun store => (tt, Clear conversation store))).
Lemma closed_forget : J _ (forget_conversation conversation).
Proof. by apply closed_contexts. Qed.
Notation scope := (factScopeForEvent event).
Lemma closed_list c at_ : J _ (on_facts c (fun fault wall _ => FactStore.List fault wall scope at_)).
Proof. apply closed_facts. intros. eexists. constructor. Qed.
Lemma closed_remember_op c content source at_ :
  J _ (on_facts c (fun fault wall draw => FactStore.Remember fault wall draw scope content source at_)).
Proof. apply closed_facts. intros. eexists. constructor. Qed.
Lemma closed_forget_op c id at_ : J _ (on_facts c (fun fault wall _ => FactStore.Forget fault wall scope id at_)).
Proof. apply closed_facts. intros. eexists. constructor. Qed.
Lemma closed_clear_op c at_ : J _ (on_facts c (fun fault wall _ => FactStore.ForgetAll fault wall scope at_)).
Proof. apply closed_facts. intros. eexists. constructor. Qed.
#[local] Hint Resolve closed_forget closed_list closed_remember_op closed_forget_op closed_clear_op : closed.

(** *** Management *)

Lemma closed_for_admins c refusal (action : Turn unit) : J _ action -> J _ (for_admins c event refusal action).
Proof. intros Ha. unfold for_admins. closing. Qed.
#[local] Hint Resolve closed_for_admins : closed.
Lemma closed_for_admins_of_group c refusal (action : Turn unit) :
  J _ action -> J _ (for_admins_of_group c event refusal action).
Proof. intros Ha. unfold for_admins_of_group. closing. Qed.
Lemma closed_with_facts e c (action : Turn unit) : J _ action -> J _ (with_facts e c event action).
Proof. intros Ha. unfold with_facts. closing. Qed.
Lemma closed_list_facts c page : J _ (list_facts c event page).
Proof. unfold list_facts. closing. Qed.
Lemma closed_switch_facts c enabled : J _ (switch_facts c event enabled).
Proof. apply closed_for_admins_of_group. closing. Qed.
Lemma closed_fact_status e c : J _ (fact_status e c event).
Proof. unfold fact_status. closing. Qed.
#[local] Hint Resolve closed_list_facts closed_switch_facts closed_fact_status : closed.
Lemma closed_facts_command e c argument : J _ (handleFactsCommand e c event argument).
Proof. apply closed_with_facts. closing. Qed.
Lemma closed_remember_command e c argument : J _ (handleRememberCommand e c event argument).
Proof. apply closed_with_facts, closed_for_admins_of_group. closing. Qed.
Lemma closed_forget_command e c argument : J _ (handleForgetCommand e c event argument).
Proof. apply closed_with_facts, closed_for_admins_of_group. closing. Qed.
Lemma closed_memory_command e c argument : J _ (memory_command e c event argument).
Proof. unfold memory_command. closing; apply closed_for_admins_of_group; closing. Qed.
#[local] Hint Resolve closed_facts_command closed_remember_command closed_forget_command closed_memory_command : closed.
Lemma closed_management e c text action : management e c event text = Some action -> J _ action.
Proof.
  unfold management. destruct (fairyCommand text) as [[command argument]|]; [|discriminate]. cbv zeta.
  repeat case_match; intros [= <-]; auto with closed; unfold clear_command, quota_command, status_command, proactive_command, group_command;
    closing; apply closed_for_admins; closing.
Qed.
Lemma closed_handleManagement e c text : J _ (handleManagement e c event text).
Proof. unfold handleManagement. case_match eqn:Ha; [|closing]. apply closed_management in Ha. closing. Qed.
#[local] Hint Resolve closed_handleManagement : closed.

(** *** Plugins and the model *)

Lemma closed_asked A f : J _ (asked (A := A) f).
Proof. apply closed_tools. Qed.
Lemma closed_done c : J _ (done c).
Proof. by apply closed_gets. Qed.
Lemma closed_reserved A e taskID (call : Turn (A + turn_error)) : J _ call -> J _ (reserved e taskID call).
Proof. intros Hc. unfold reserved. closing. Qed.
#[local] Hint Resolve closed_asked closed_done : closed.
Lemma closed_trace c decision : J _ (appendGateTrace c event decision).
Proof. unfold appendGateTrace, append_in, draw_scope, appendGateTraceEvent. closing. Qed.
Lemma closed_exec_cancelled c err : J _ (exec_cancelled c err).
Proof. unfold exec_cancelled. closing. Qed.
Lemma closed_report c err text : J _ (report c event err text).
Proof. unfold report, contextCancelled. closing. Qed.
#[local] Hint Resolve closed_trace closed_exec_cancelled closed_report : closed.
Lemma closed_plain_plugin e c request plugin : J _ (plain_plugin e c event request plugin).
Proof. unfold plain_plugin, run_tool_plugin, handle_plugin. closing. Qed.
#[local] Hint Resolve closed_plain_plugin : closed.
Lemma closed_command_plugin e c interactive request plugin : J _ (command_plugin e c interactive event request plugin).
Proof. unfold command_plugin. closing. Qed.
#[local] Hint Resolve closed_command_plugin : closed.
Lemma closed_command_plugins e c interactive request l : J _ (command_plugins e c interactive event request l).
Proof. induction l; cbn [command_plugins]; closing. Qed.
Lemma closed_chat e m c input : J _ (completeChat e m c input).
Proof. unfold completeChat, finish_chat. closing; apply closed_reserved; closing. Qed.
Lemma closed_fetch c inputs total : J _ (fetch_all c inputs total).
Proof. revert total. induction inputs; intros total; cbn [fetch_all]; closing; auto. Qed.
#[local] Hint Resolve closed_command_plugins closed_chat closed_fetch : closed.
Lemma closed_media e m c summary caption : J _ (prepareMediaPrompt e m c summary caption).
Proof. unfold prepareMediaPrompt, describe_images, transcribe_voice. closing; apply closed_reserved; closing. Qed.
Lemma closed_answer e m c request media forced prompt history at_ : J _ (answer e m c event request media forced prompt history at_).
Proof. unfold answer, run_engine_agent. closing. Qed.
Lemma closed_serve_if e c interactive request :
  let media := summarizeMediaInputs event.(messageEvent_Message) in
  (forall m, may_ask e event (forced_request request).1 media = Ask m ->
     J _ (ask_model e m c event (forced_request request).1 media (forced_request request).2)) ->
  J _ (serve e c interactive event request).
Proof. intros media Hask. unfold serve. destruct (forced_request request). closing; by apply Hask. Qed.
Lemma closed_gated_if e c interactive :
  let media := summarizeMediaInputs event.(messageEvent_Message) in
  let '(request, forced) := forced_request (request_of e event) in
  (forall m, may_ask e event request media = Ask m -> J _ (ask_model e m c event request media forced)) ->
  J _ (gated e c interactive event).
Proof.
  cbv zeta. pose proof (closed_serve_if e c interactive (request_of e event)) as Hserve. destruct (forced_request _) as [request forced].
  intros Hask. specialize (Hserve Hask). unfold gated. closing.
Qed.
Context (Hsnapshot : forall at_, P _ (Snapshot conversation at_)) (Happend : forall at_ l, P _ (Append conversation at_ l)).
Lemma closed_snapshot at_ : J _ (on_contexts (Snapshot conversation at_)).
Proof. by apply closed_contexts. Qed.
Lemma closed_append at_ l : J _ (on_contexts (Append conversation at_ l)).
Proof. by apply closed_contexts. Qed.
#[local] Hint Resolve closed_snapshot closed_append : closed.
Lemma closed_remembered e at_ : J _ (remembered e event at_).
Proof. unfold remembered. closing. Qed.
Lemma closed_recall e c at_ : J _ (recall e c event at_).
Proof. unfold recall. closing. Qed.
Lemma closed_deliver e c remember user response at_ : J _ (deliver_reply e c event remember user response at_).
Proof. unfold deliver_reply. closing. apply closed_when. closing. Qed.
#[local] Hint Resolve closed_media closed_answer closed_remembered closed_recall closed_deliver : closed.
Lemma closed_ask e m c request media forced : J _ (ask_model e m c event request media forced).
Proof. unfold ask_model, converse. closing. Qed.
#[local] Hint Resolve closed_ask : closed.
Lemma closed_gated e c interactive : J _ (gated e c interactive event).
Proof.
  pose proof (closed_gated_if e c interactive) as Hgated. destruct (forced_request _). apply Hgated. intros. apply closed_ask.
Qed.
End closed.

(** *** The memory of the conversation *)

Definition private (key : string) A (m : Turn A) : Prop :=
  forall s C, agree key C s.(st_contexts) ->
    exists C', m (s <| st_contexts := C |>) = ((m s).1, (m s).2 <| st_contexts := C' |>)
      /\ agree key C' (m s).2.(st_contexts) /\ same_others key C C'.

Lemma agree_sym key C C' : agree key C C' -> agree key C' C.
Proof. by intros (? & ? & ?). Qed.
(** a step that neither reads nor writes memories *)
Lemma private_apart key A (m : Turn A) :
  (forall s C, m (s <| st_contexts := C |>) = ((m s).1, (m s).2 <| st_contexts := C |>)) ->
  (forall s, (m s).2.(st_contexts) = s.(st_contexts)) -> private key A m.
Proof. intros Hm Hs s C HC. exists C. rewrite Hm, Hs. done. Qed.
Lemma private_bind key A B (m : Turn A) (k : A -> Turn B) :
  private key A m -> (forall a, private key B (k a)) -> private key B (bind m k).
Proof.
  intros Hm Hk s C HC. destruct (Hm s C HC) as (C1 & E1 & Ha1 & Ho1). unfold bind. rewrite E1. destruct (m s) as [a s1]. cbn in *.
  destruct (Hk a s1 C1 Ha1) as (C2 & E2 & Ha2 & Ho2). exists C2. rewrite E2. destruct (k a s1) as [b s2]. split_and!; [done|done|].
  intros k' Hk'. by rewrite Ho2, Ho1.
Qed.

Lemma private_evaluate key e event commit : private key _ (evaluate_gate e event commit).
Proof.
  apply private_apart; intros s *; unfold evaluate_gate, bind, engine_now, on_world; cbn; destruct (outside now (st_world s)); cbn; by case_match.

Qed.
Lemma private_allow key e event : private key _ (allow_request e event).
Proof.
  apply private_apart; intros s *; unfold allow_request, bind, engine_now, on_world; cbn; destruct (outside now (st_world s)); cbn; by case_match.
Qed.
Lemma private_reply key c event text : private key _ (reply c event text).
Proof.
  apply private_apart; intros s *; unfold reply, bind, done, gets, modify, ret; cbn; case_bool_decide; cbn; try done;
    by destruct (st_world s).
Qed.
Lemma private_facts key A c f : private key _ (on_facts (A := A) c f).
Proof.
  apply private_apart; intros s *; unfold on_facts; cbn; (destruct (st_facts s); [|done]); destruct (outside _ _) as [[[? ?] ?] ?];
    by destruct (f _ _ _ _).
Qed.
Lemma private_contexts key A (f : ContextStore -> A * ContextStore) : local_to key f -> private key _ (on_contexts f).
Proof.
  intros Hf s C HC. destruct (Hf _ _ HC) as (Ha & Hag & Ho). unfold on_contexts. cbn. destruct (f C) as [a C1], (f _) as [a' C2]. cbn in *.
  subst a'. by exists C1.
Qed.
#[local] Instance private_closed key scope : Closed (@local_to key) scope (private key).
Proof.
  split; auto using private_bind, private_evaluate, private_allow, private_reply, private_facts, private_contexts.
  - intros A a. by apply private_apart.
  - intros A f Hf. apply private_apart; [|done]. intros s C. unfold gets. by rewrite Hf.
  - intros A f. apply private_apart; intros s *; unfold on_world; cbn; by destruct (f _).
  - intros A f. apply private_apart; intros s *; unfold on_tools; cbn; by destruct (f _ _) as [[? ?] ?].
Qed.

(** *** The facts of its users *)

Definition fact_step (scope : FactScope) (db db' : FactDB) : Prop := exists now, fact_op (Some scope) now db db'.
(** what happens to the facts is operations on a scope *)
Definition facts_of (scope : FactScope) s s' : Prop :=
  s'.(st_facts) = s.(st_facts)
  \/ exists db db', s.(st_facts) = Some db /\ s'.(st_facts) = Some db' /\ rtc (fact_step scope) db db'.
#[local] Instance facts_of_preorder scope : PreOrder (facts_of scope).
Proof.
  split; [by left|]. intros s1 s2 s3 [E1|(db & db1 & H1' & H2' & H3')] [E2|(db1' & db2 & H4 & H5 & H6)].
  - left. congruence.
  - right. exists db1', db2. by rewrite <-E1.
  - right. exists db, db1. by rewrite E2.
  - right. exists db, db2. simplify_eq. split_and!; [done|done|]. by etrans.
Qed.
#[local] Instance facts_of_inner scope : Inner (facts_of scope).
Proof. split; [apply _|by left..]. Qed.
#[local] Instance facts_closed P scope : Closed P scope (fun A => keeps (facts_of scope)).
Proof.
  split; intros; try (apply keeps_ret || apply keeps_gets || apply keeps_on_world || apply keeps_on_tools || apply keeps_evaluate); try apply _.
  - apply keeps_bind; [apply _|done|done].
  - intros s. left. unfold reply, bind, done, gets, modify, ret. case_bool_decide; cbn; [done|]. by destruct (st_world s).
  - apply keeps_bind; [apply _|apply keeps_on_world, _|]. intros at_ s. left. by destruct (allow _ _ _ _).
  - intros s. left. unfold on_contexts. by destruct (f _).
  - intros s. unfold on_facts. destruct (st_facts s) as [db|] eqn:Hdb; [|by left]. destruct (outside _ _) as [[[fault wall] draw] w].
    destruct (H2 fault wall draw db) as [at_ Hop]. destruct (f fault wall draw db) as [r db'] eqn:Ef. right. exists db, db'.
    split_and!; [done|done|]. apply rtc_once. by exists at_.
Qed.
Lemma step_keeps_others scope B db db' : B <> scope -> rtc (fact_step scope) db db' -> scope_rows B db' ⊆ scope_rows B db.
Proof.
  intros HB. induction 1 as [|db1 db2 db3 [at_ Hop] _ IH]; [done|]. etrans; [exact IH|].
  apply op_effect in Hop as (base & Hbase & Heff). rewrite (effect_isolated (Some scope) base db2 B); [|by intros [= ->]|done].
  destruct Hbase as [->| ->]; [done|]. apply map_filter_subseteq_mono, map_filter_subseteq.
Qed.

(** C5: A turn keeps to its conversation.  Whatever else is remembered, the turn does and
    says the same, changes the memory of its own conversation only, and that in the same way;
    of the facts of other users and groups it adds and changes none. *)
Theorem turns_keep_to_their_conversation e c interactive event s C :
  let conversation := (hooked e c event).(messageEvent_ConversationID) in
  let s' := (HandleMessage e c interactive event s).2 in
  (agree conversation C s.(st_contexts) ->
   exists C', (HandleMessage e c interactive event (s <| st_contexts := C |>)).2 = s' <| st_contexts := C' |>
     /\ agree conversation C' s'.(st_contexts) /\ same_others conversation C C')
  /\ (forall B, B <> factScopeForEvent (hooked e c event) ->
      forall id row, scope_rows B (default empty_fact_db s'.(st_facts)) !! id = Some row ->
        scope_rows B (default empty_fact_db s.(st_facts)) !! id = Some row).
Proof.
  assert (Hclosed : forall J, Closed (@local_to (hooked e c event).(messageEvent_ConversationID)) (factScopeForEvent (hooked e c event)) J ->
    J _ (HandleMessage e c interactive event)).
  { intros J HJ. pose proof clear_local. pose proof snapshot_local. pose proof append_local. unfold HandleMessage. apply closed_bind; [by apply closed_gets|]. intros [|]; [apply closed_ret|]. unfold hooked in *.
    destruct (emit_event _ _ _ _ _) as [data [err|]]; [apply closed_ret|]. cbn [fst] in *. eapply closed_gated; eauto. }
  cbv zeta. split.
  - intros HC. destruct (Hclosed _ (private_closed _ _) s C HC) as (C' & E & Hag & Ho). exists C'. by rewrite E.
  - intros B HB fact row. pose proof (Hclosed _ (facts_closed _ _) s) as [E|(db & db' & E1 & E2 & Hsteps)]; [by rewrite E|].
    rewrite E1, E2. cbn [from_option id]. intros Hrow. eapply lookup_weaken; [exact Hrow|]. by eapply step_keeps_others.
Qed.

(** ** Who may change the settings of a group *)

(** the switches and quotas stay, and no fact is added or changed *)
Definition settings_kept s s' : Prop :=
  s'.(st_world).1 = s.(st_world).1
  /\ (s'.(st_facts) = s.(st_facts) \/ exists db db', s.(st_facts) = Some db /\ s'.(st_facts) = Some db'
        /\ db'.(fairy_fact_memories) ⊆ db.(fairy_fact_memories)).
#[local] Instance settings_preorder : PreOrder settings_kept.
Proof.
  split; [by split; [|left]|]. intros s1 s2 s3 [Ew1 F1] [Ew2 F2]. split; [congruence|].
  destruct F1 as [E1|(db & db1 & E1 & E2 & Hs)], F2 as [E3|(db1' & db2 & E3 & E4 & Hs')].
  - left. congruence.
  - right. exists db1', db2. by rewrite <-E1.
  - right. exists db, db1. by rewrite E3.
  - right. exists db, db2. simplify_eq. split_and!; [done|done|]. by etrans.
Qed.
Notation kept := (keeps settings_kept).
Lemma kept_outside A (f : W -> A * W) : kept (on_world (outside f)).
Proof. intros s. unfold on_world, outside. destruct (f _). by split; [|left]. Qed.
Lemma kept_reply c event text : kept (reply c event text).
Proof.
  intros s. unfold reply, bind, done, gets, modify, ret. case_bool_decide; [reflexivity|]. cbn.
  destruct (st_world s) as [store o] eqn:E. split; [cbn; by rewrite E|by left].
Qed.
Lemma kept_contexts A f : kept (on_contexts (A := A) f).
Proof. intros s. unfold on_contexts. destruct (f _). by split; [|left]. Qed.
Lemma kept_list c scope at_ : kept (on_facts c (fun fault wall _ => FactStore.List fault wall scope at_)).
Proof.
  intros s. unfold on_facts. destruct (st_facts s) as [db|] eqn:E; [|reflexivity]. unfold outside. destruct (fact_env _ _) as [[[fault wall] draw] o].
  destruct (FactStore.List fault wall scope at_ db) as [r db'] eqn:Elist. split; [done|]. right. exists db, db'. split_and!; [done|done|].
  change db' with (r, db').2. rewrite <-Elist. unfold FactStore.List, exec. destruct (validateFactScope scope); [|reflexivity].
  destruct (prune_cases fault wall at_ db) as [Ep|[err Ep]]; rewrite Ep; [|reflexivity].
  destruct (fault ListFacts); apply map_filter_subseteq.
Qed.
Lemma kept_now : kept engine_now.
Proof. apply kept_outside. Qed.
Lemma kept_switches {A} (f : StateStore -> A) : kept (switches f).
Proof. apply keeps_gets, _. Qed.
Lemma kept_factMemory e : kept (factMemory e).
Proof. unfold factMemory. keeping. Qed.
#[local] Hint Resolve kept_reply kept_contexts kept_list kept_now kept_switches kept_factMemory : turns.

Section refused.
Context (c : Ctx) (event : messageEvent).
(** the messenger does not say that the sender is the owner or an admin of the group *)
Context (Hrefused : forall o members member,
  (GetGroupMembers c event.(messageEvent_ConversationID) o).1 = Ok members ->
  find_first (fun m => bool_decide (m.1 = event.(messageEvent_Sender).(Sender_UserID))) members = Some member ->
  one_of ["owner"; "admin"] member.2 = false).

Lemma kept_for_admins refusal (action : Turn unit) : kept (for_admins c event refusal action).
Proof.
  intros s. unfold for_admins, isGroupAdmin, bind, on_world, outside, ret.
  destruct (GetGroupMembers _ _ _) as [[members|err] o] eqn:E; cbn -[reply].
  - destruct (find_first _ members) as [member|] eqn:Ef; cbn -[reply].
    + rewrite (Hrefused (st_world s).2 members member); [|by rewrite E|done]. etrans; [|apply kept_reply]. by split; [|left].
    + etrans; [|apply kept_reply]. by split; [|left].
  - etrans; [|apply kept_reply]. by split; [|left].
Qed.
#[local] Hint Resolve kept_for_admins : turns.
Context (Hgroup : isGroup event = true).
Lemma kept_for_admins_of_group refusal (action : Turn unit) : kept (for_admins_of_group c event refusal action).
Proof. unfold for_admins_of_group. rewrite Hgroup. auto with turns. Qed.
Lemma kept_with_facts e (action : Turn unit) : kept action -> kept (with_facts e c event action).
Proof. intros Ha. unfold with_facts. keeping. Qed.
#[local] Hint Resolve kept_for_admins_of_group : turns.
Lemma kept_list_facts page : kept (list_facts c event page).
Proof. unfold list_facts. keeping. Qed.
Lemma kept_switch_facts enabled : kept (switch_facts c event enabled).
Proof. apply kept_for_admins_of_group. Qed.
#[local] Hint Resolve kept_list_facts kept_switch_facts : turns.
Lemma kept_status e : kept (status_command e c event).
Proof. unfold status_command, fact_status. keeping. Qed.
Lemma kept_management e text action : management e c event text = Some action -> kept action.
Proof.
  pose proof kept_status. pose proof kept_for_admins. pose proof kept_for_admins_of_group.
  unfold management. destruct (fairyCommand text) as [[command argument]|]; [|discriminate]. cbv zeta.
  repeat case_match; intros [= <-]; auto with turns; unfold clear_command, quota_command, memory_command, proactive_command, group_command,
    forget_conversation; try (apply kept_with_facts); keeping.
Qed.
End refused.

(** C7: The settings of a group are its admins'.  A management command of a sender who is
    neither the owner nor an admin, or whose role cannot be told, changes no switch of the
    assistant and adds or changes no fact, whatever the command is. *)
Theorem group_settings_need_an_admin e c event text s :
  isGroup event = true ->
  (forall o members member, (GetGroupMembers c event.(messageEvent_ConversationID) o).1 = Ok members ->
     find_first (fun m => bool_decide (m.1 = event.(messageEvent_Sender).(Sender_UserID))) members = Some member ->
     one_of ["owner"; "admin"] member.2 = false) ->
  let s' := (handleManagement e c event text s).2 in
  s'.(st_world).1 = s.(st_world).1
  /\ (default empty_fact_db s'.(st_facts)).(fairy_fact_memories) ⊆ (default empty_fact_db s.(st_facts)).(fairy_fact_memories).
Proof.
  intros Hg Hr. cbv zeta. assert (Hk : kept (handleManagement e c event text)).
  { unfold handleManagement. destruct (management e c event text) eqn:E; [|apply keeps_ret, _].
    apply keeps_bind; [apply _|by eapply kept_management|intros; apply keeps_ret, _]. }
  destruct (Hk s) as [Hw [E|(db & db' & E1 & E2 & Hsub)]]; split; [done| |done|]; [by rewrite E|by rewrite E1, E2].
Qed.

(** ** Models that are not asked *)

Definition with_model (m : Model Ctx W) e : Engine :=
  mkEngine e.(cfg) e.(behavior) (Some m) e.(plugins) e.(pluginHost) e.(mediaFetcher) e.(hasExternalTools).
(** the request is kept from the model *)
Definition withheld e event : bool :=
  bool_decide (EffectiveAIRolloutMode e.(cfg) = AIRolloutAllowlist) && negb (AIUserAllowed e.(cfg) event.(messageEvent_Sender).(Sender_UserID))
  || containsSensitiveCredential (forced_request (request_of e event)).1.(PluginRequest_Text).
Lemma withheld_is_not_asked e event media m : withheld e event = true -> may_ask e event (forced_request (request_of e event)).1 media <> Ask m.
Proof.
  unfold withheld, may_ask. destruct (bool_decide _ && negb _); cbn [orb]; intros Hw; [by destruct (isGroup event)|].
  rewrite Hw. by destruct (model e), (present media).
Qed.

(** the memories only get fewer *)
Definition fewer (s s' : turn_state) : Prop := s'.(st_contexts).(entries) ⊆ s.(st_contexts).(entries).
#[local] Instance fewer_preorder : PreOrder fewer.
Proof. split; [intros s; by unfold fewer|]. intros s1 s2 s3 H12 H23. unfold fewer in *. by etrans. Qed.
#[local] Instance fewer_inner : Inner fewer.
Proof. split; [apply _|by intros; unfold fewer..]. Qed.
Definition shrinks A (f : ContextStore -> A * ContextStore) : Prop := forall C, (f C).2.(entries) ⊆ C.(entries).
Lemma clear_shrinks key : shrinks _ (fun C => (tt, Clear key C)).
Proof. intros C. apply delete_subseteq. Qed.
#[local] Instance fewer_closed scope : Closed shrinks scope (fun A => keeps fewer).
Proof.
  split; intros; try (apply keeps_ret || apply keeps_gets || apply keeps_on_world || apply keeps_on_tools || apply keeps_evaluate); try apply _.
  - apply keeps_bind; [apply _|done|done].
  - intros s. unfold fewer, reply, bind, done, gets, modify, ret. case_bool_decide; cbn; [done|]. by destruct (st_world s).
  - apply keeps_bind; [apply _|apply keeps_on_world, _|]. intros at_ s. unfold fewer. by destruct (allow _ _ _ _).
  - intros s. unfold fewer, on_contexts. specialize (H2 s.(st_contexts)). by destruct (f _).
  - intros s. unfold fewer, on_facts. destruct (st_facts s); [|done]. destruct (outside _ _) as [[[fault wall] draw] w].
    by destruct (f fault wall draw _).
Qed.

Lemma bind_ext {S A B} (m m' : M S A) (k k' : A -> M S B) :
  (forall x, m x = m' x) -> (forall a x, k a x = k' a x) -> forall x, bind m k x = bind m' k' x.
Proof. intros Hm Hk x. unfold bind. rewrite Hm. destruct (m' x). apply Hk. Qed.

Section same_model.
Context (e : Engine) (m1 m2 : Model Ctx W).
(** what tells of a model without asking it *)
Context (Haware : is_Some m1.(model_CompleteRequest) <-> is_Some m2.(model_CompleteRequest)) (Htasks : m1.(model_HasTask) = m2.(model_HasTask)).

Lemma same_agent rt : is_Some (engine_agent (with_model m1 e) rt) <-> is_Some (engine_agent (with_model m2 e) rt).
Proof.
  unfold engine_agent, with_model, NewAgentRuntimeWithPluginHost, tool_aware; cbn. rewrite Htasks.
  destruct (model_CompleteRequest m1), (model_CompleteRequest m2); cbn; [|by destruct Haware as [[? [=]] ?]|by destruct Haware as [? [? [=]]]|done].
  by repeat case_match.
Qed.
Lemma same_management c event text s :
  handleManagement (with_model m1 e) c event text s = handleManagement (with_model m2 e) c event text s.
Proof.
  assert (Hstatus : forall s, status_command (with_model m1 e) c event s = status_command (with_model m2 e) c event s).
  { unfold status_command. repeat (apply bind_ext; [done|intros ?]). apply bind_ext; [|done].
    intros s'. unfold gets. f_equal. apply bool_decide_ext, same_agent. }
  unfold handleManagement, management. destruct (fairyCommand text) as [[command argument]|]; [|done]. cbv zeta.
  repeat (destruct (one_of _ command); [first [apply bind_ext; [first [done|apply Hstatus]|done]|destruct (bool_decide _); [apply bind_ext|]; done]|]).
  by destruct (_ && _).
Qed.
Lemma same_plugins c interactive event request l s :
  command_plugins (with_model m1 e) c interactive event request l s = command_plugins (with_model m2 e) c interactive event request l s.
Proof.
  revert s. induction l as [|plugin l IH]; intros s; [done|]. cbn [command_plugins]. destruct (plugin_Match plugin request); cbn [negb]; [|done].
  apply bind_ext; [done|]. by intros [|] s'.
Qed.
Lemma same_verdict event media : withheld e event = true ->
  may_ask (with_model m1 e) event (forced_request (request_of e event)).1 media
  = may_ask (with_model m2 e) event (forced_request (request_of e event)).1 media.
Proof.
  unfold withheld, may_ask. cbn [with_model cfg model]. intros Hw. destruct (bool_decide _ && negb _); [done|]. cbn [orb] in Hw. by rewrite Hw.
Qed.
Lemma same_gated c interactive event s : withheld e event = true ->
  gated (with_model m1 e) c interactive event s = gated (with_model m2 e) c interactive event s.
Proof.
  intros Hw. pose proof (same_verdict event (summarizeMediaInputs (messageEvent_Message event)) Hw) as Hverdict.
  pose proof (withheld_is_not_asked (with_model m2 e) event (summarizeMediaInputs (messageEvent_Message event))) as Hask.
  unfold gated. change (request_of (with_model ?m e) event) with (request_of e event) in *.
  apply bind_ext; [done|]. intros decision s1. apply bind_ext; [done|]. intros _ s2.
  destruct (negb _); [done|]. destruct (_ && _); [done|]. apply bind_ext; [intros; apply same_management|]. intros [|] s3; [done|].
  unfold serve. apply bind_ext; [done|]. intros enabled s4. destruct (_ && _); [done|].
  apply bind_ext; [done|]. intros [|] s5; [|done].
  cbn [negb]. destruct (forced_request _) as [request forced]. cbn [fst] in *. apply bind_ext; [destruct forced; [reflexivity|intros; apply same_plugins]|].
  intros [|] s6; [done|]. cbn [with_model plugins].
  change (pluginRunning (with_model ?m e)) with (pluginRunning e). destruct (existsb _ _); [done|]. rewrite Hverdict.
  destruct (may_ask (with_model m2 e) event request _) as [m|text|] eqn:Ev; [|reflexivity|reflexivity]. by destruct (Hask m Hw).
Qed.
Lemma same_handled c interactive event s : withheld e (hooked e c event) = true ->
  HandleMessage (with_model m1 e) c interactive event s = HandleMessage (with_model m2 e) c interactive event s.
Proof.
  intros Hw. unfold HandleMessage. apply bind_ext; [reflexivity|]. intros [|] s1; [reflexivity|].
  change (emit_event (with_model ?m e)) with (emit_event e). unfold hooked in Hw.
  destruct (emit_event _ _ _ _ _) as [data [err|]]; [reflexivity|]. by apply same_gated.
Qed.
End same_model.

(** a request that is no management command leaves the facts alone when no model is asked *)
Definition same_facts s s' : Prop := s'.(st_facts) = s.(st_facts).
#[local] Instance same_facts_preorder : PreOrder same_facts.
Proof. split; [done|]. intros s1 s2 s3 H12 H23. unfold same_facts in *. congruence. Qed.
#[local] Instance same_facts_inner : Inner same_facts.
Proof. by split; [apply _|..]. Qed.
Notation factless := (keeps same_facts).
Lemma factless_reply c event text : factless (reply c event text).
Proof.
  intros s. unfold reply, bind, done, gets, modify, ret. case_bool_decide; [done|]. cbn. by destruct (st_world s).
Qed.
Lemma factless_allow e event : factless (allow_request e event).
Proof. unfold allow_request. keeping. intros s. unfold same_facts. by destruct (allow _ _ _ _). Qed.
Lemma factless_cancelled c err : factless (exec_cancelled c err).
Proof. unfold exec_cancelled, done. keeping. Qed.
#[local] Hint Resolve factless_reply factless_allow factless_cancelled : turns.
Lemma factless_plain_plugin e c event request plugin : factless (plain_plugin e c event request plugin).
Proof. unfold plain_plugin, run_tool_plugin, handle_plugin, done. keeping. Qed.
#[local] Hint Resolve factless_plain_plugin : turns.
Lemma factless_plugins e c interactive event request l : factless (command_plugins e c interactive event request l).
Proof. induction l; cbn [command_plugins]; unfold command_plugin; keeping. Qed.
#[local] Hint Resolve factless_plugins : turns.
Lemma factless_gated e c interactive event :
  withheld e event = true -> management e c event (request_of e event).(PluginRequest_Text) = None ->
  factless (gated e c interactive event).
Proof.
  intros Hw Hm. pose proof (withheld_is_not_asked e event (summarizeMediaInputs (messageEvent_Message event))) as Hask.
  unfold gated, handleManagement. cbv zeta. rewrite Hm. unfold serve. destruct (forced_request _) as [request forced].
  keeping; by destruct (Hask m Hw).
Qed.

(** C6: A request that holds a credential, or whose user the assistant is not open to, reaches
    no model: whatever the model would have answered, the engine does and says the same.
    No conversation gains a memory.  Nor is a fact added, changed or removed, unless the
    message is a management command: these are carried out before the request is checked,
    and an explicit /fairy remember is one of them. *)
Theorem withheld_requests_reach_no_model e m1 m2 c interactive event s :
  is_Some m1.(model_CompleteRequest) <-> is_Some m2.(model_CompleteRequest) ->
  m1.(model_HasTask) = m2.(model_HasTask) ->
  let ev := hooked e c event in
  withheld e ev = true ->
  let s' := (HandleMessage (with_model m1 e) c interactive event s).2 in
  s' = (HandleMessage (with_model m2 e) c interactive event s).2
  /\ s'.(st_contexts).(entries) ⊆ s.(st_contexts).(entries)
  /\ (management (with_model m1 e) c ev (request_of e ev).(PluginRequest_Text) = None -> s'.(st_facts) = s.(st_facts)).
Proof.
  intros Haware Htasks ev Hw. cbv zeta. split; [rewrite (same_handled e m1 m2 Haware Htasks); [reflexivity|exact Hw]|].
  unfold ev, hooked in *. clear ev. unfold HandleMessage. change (emit_event (with_model m1 e)) with (emit_event e).
  destruct (emit_event _ _ _ _ _) as [data err]. cbn [fst] in Hw |- *.
  set (ev := match data with BeforeGate ev => ev | _ => event end) in *. split.
  - match goal with |- entries (st_contexts (?m s).2) ⊆ _ => change (fewer s (m s).2) end. revert s.
    match goal with |- forall s, fewer s (?m s).2 => change (keeps fewer m) end.
    apply keeps_bind; [apply _|apply keeps_gets, _|]. intros [|]; [apply keeps_ret, _|].
    destruct err; [apply keeps_ret, _|].
    pose proof (closed_gated_if ev shrinks (fun A => keeps fewer) (clear_shrinks _) (with_model m1 e) c interactive) as Hclosed.
    pose proof (withheld_is_not_asked (with_model m1 e) ev (summarizeMediaInputs (messageEvent_Message ev))) as Hask.
    destruct (forced_request _). apply Hclosed. intros m Hm. by destruct (Hask m Hw).
  - intros Hm. match goal with |- st_facts (?m s).2 = _ => change (same_facts s (m s).2) end. revert s.
    match goal with |- forall s, same_facts s (?m s).2 => change (factless m) end.
    apply keeps_bind; [apply _|apply keeps_gets, _|]. intros [|]; [apply keeps_ret, _|].
    destruct err; [apply keeps_ret, _|]. by apply factless_gated.
Qed.
End says.

(** ** The rate of requests *)

Section rate.
Context (cfg : Config).

(** the calls, of a key at a time, that the limit lets pass *)
Fixpoint accepted (calls : list (string * time)) (lastCall : gmap string time) : list (string * time) :=
  match calls with
  | [] => []
  | (key, at_) :: rest =>
      let '(allowed, lastCall) := allow cfg key at_ lastCall in
      (if (allowed : bool) then [(key, at_)] else []) ++ accepted rest lastCall
  end.
Definition spaced (a b : string * time) : Prop := a.1 = b.1 -> cfg.(Config_RateLimit) <= b.2 - a.2.

(** a call of the key at [t] was accepted: it is remembered, or long ago *)
Definition counted (lastCall : gmap string time) (now : time) (key : string) (t : time) : Prop :=
  (exists t' : time, lastCall !! key = Some t' /\ t <= t') \/ cfg.(Config_RateLimit) <= now - t.
Context (Hlimit : 0 < cfg.(Config_RateLimit) <= 2 * cfg.(Config_ContextTTL)) (Hrange : 2 * cfg.(Config_ContextTTL) < 2 ^ 63).

Lemma limited : (cfg.(Config_RateLimit) <=? 0) = false.
Proof. apply Z.leb_gt. lia. Qed.
Lemma allow_remembers key at_ m : (allow cfg key at_ m).1 = true -> counted (allow cfg key at_ m).2 at_ key at_.
Proof.
  unfold allow. rewrite limited. destruct (_ && _); [done|]. intros _. left. exists at_. split; [|done].
  apply map_lookup_filter_Some. split; [by rewrite lookup_insert_eq|]. rewrite wrap64_id by lia. unfold Sub. cbn. lia.
Qed.
Lemma counted_later m now at_ k t : counted m now k t -> now <= at_ -> counted m at_ k t.
Proof. intros [Hm|Hold] Hnow; [by left|right; lia]. Qed.
Lemma allow_spaced key at_ m t : counted m at_ key t -> zero_time < t -> (allow cfg key at_ m).1 = true -> cfg.(Config_RateLimit) <= at_ - t.
Proof.
  intros [(t' & Hm & Htt)|Hold] Ht; [|done]. unfold allow. rewrite limited, Hm. cbn [from_option id]. unfold IsZero, Sub.
  assert (Ez : (t' =? zero_time) = false) by (apply Z.eqb_neq; lia). rewrite Ez. cbn [negb andb].
  destruct (_ <? _) eqn:E; [done|]. apply Z.ltb_ge in E. lia.
Qed.
Lemma allow_counts key at_ m k t : counted m at_ k t -> zero_time < t -> counted (allow cfg key at_ m).2 at_ k t.
Proof.
  intros Hk Ht. pose proof (allow_spaced key at_ m t) as Hspaced. pose proof (allow_remembers key at_ m) as Hself. unfold allow in *. rewrite limited in *.
  destruct (_ && _); [done|]. cbn [fst snd] in *. destruct (decide (k = key)) as [->|Hne]; [right; by apply Hspaced|].
  destruct Hk as [(t' & Hm & Htt)|Hold]; [|by right]. rewrite wrap64_id by lia.
  destruct (decide (Sub at_ t' <= 2 * cfg.(Config_ContextTTL))) as [Hle|Hgt].
  - left. exists t'. split; [|done]. apply map_lookup_filter_Some. by rewrite lookup_insert_ne.
  - right. unfold Sub in Hgt. lia.
Qed.

Lemma accepted_spaced calls m now :
  StronglySorted (fun a b => a.2 <= b.2) calls -> Forall (fun call => zero_time < call.2 /\ now <= call.2) calls ->
  (forall k t, counted m now k t -> zero_time < t -> Forall (spaced (k, t)) (accepted calls m))
  /\ ForallOrdPairs spaced (accepted calls m).
Proof.
  revert m now. induction calls as [|[key at_] calls IH]; intros m now Hsorted Hafter; [split; constructor|].
  apply StronglySorted_inv in Hsorted as [Hsorted Hhead]. apply Forall_cons in Hafter as [[Hz Hnow] Hafter]. cbn [fst snd] in *.
  cbn [accepted]. pose proof (allow_remembers key at_ m) as Hself. pose proof (allow_counts key at_ m) as Hcounts.
  pose proof (allow_spaced key at_ m) as Hspaced. destruct (allow cfg key at_ m) as [allowed m']. cbn [fst snd] in *.
  destruct (IH m' at_) as [IHk IHp]; [done| |].
  { apply Forall_forall. intros call Hcall. rewrite Forall_forall in Hhead, Hafter. split; [by apply Hafter|by apply Hhead]. }
  split.
  - intros k t Hk Ht. apply counted_later with (at_ := at_) in Hk; [|done]. specialize (IHk k t (Hcounts _ _ Hk Ht) Ht).
    destruct allowed; cbn [app]; [|done]. constructor; [|done]. unfold spaced; cbn. intros <-. by apply Hspaced.
  - destruct allowed; cbn [app]; [|done]. constructor; [|done]. apply IHk; [by apply Hself|done].
Qed.
End rate.

(** C20: Requests keep their distance.  With a limit of at most twice the time that memories
    live, any two accepted requests of one user in one conversation are at least the limit
    apart, however the requests of others come between them. *)
Theorem accepted_requests_are_spaced cfg calls i j a b :
  0 < cfg.(Config_RateLimit) <= 2 * cfg.(Config_ContextTTL) -> 2 * cfg.(Config_ContextTTL) < 2 ^ 63 ->
  StronglySorted (fun a b => a.2 <= b.2) calls -> Forall (fun call => zero_time < call.2) calls ->
  accepted cfg calls ∅ !! i = Some a -> accepted cfg calls ∅ !! j = Some b -> (i < j)%nat -> a.1 = b.1 ->
  cfg.(Config_RateLimit) <= b.2 - a.2.
Proof.
  intros Hlimit Hrange Hsorted Hafter Hi Hj Hij. destruct (accepted_spaced cfg Hlimit Hrange calls ∅ zero_time) as [_ Hpairs]; [done| |].
  - eapply Forall_impl; [exact Hafter|]. cbn. lia.
  - clear Hsorted Hafter. revert i j Hi Hj Hij. induction Hpairs as [|x l Hx Hl IH]; intros [|i] [|j] Hi Hj Hij; cbn in *; try done; try lia.
    + injection Hi as <-. eapply Forall_forall in Hx; [by apply Hx|]. by eapply list_elem_of_lookup_2.
    + eapply IH; eauto. lia.
Qed.

(** with shorter memories the limit is forgotten: an accepted request of another user deletes
    the entries older than two lifetimes of a memory, and [Validate] does not compare the two *)
Definition short_memories (cfg : Config) : Config := mkConfig cfg.(Config_UserID) cfg.(Config_SystemPrompt) minute
  cfg.(Config_ContextMessages) (10 * minute) cfg.(Config_ModelDailyLimit) cfg.(Config_ModelTasks) cfg.(Config_AIRolloutMode)
  cfg.(Config_AIEnabled) cfg.(Config_AIAllowedUsers) cfg.(Config_BehaviorExperiences) cfg.(Config_behavior) cfg.(configured).
Lemma short_memories_forget_the_rate cfg :
  let calls := [("user", minute); ("other", 4 * minute); ("user", 5 * minute)] in
  accepted (short_memories cfg) calls ∅ = calls.
Proof. vm_compute. reflexivity. Qed.

(** ** At work *)

#[local] Existing Instance digesting_runtime.
#[local] Existing Instance demo_links.
#[local] Existing Instance scripted_agents.
Notation demo_ctx := (option TurnTraceScope).
(** a messenger of a group with one admin and one member *)
Definition demo_messenger : EngineWorld demo_ctx scripted := {|
  GetGroupMembers _ _ w := (Ok [("alice", "admin"); ("bob", "member")], w);
  SendText _ _ _ _ w := w; save_fault w := (None, w);
  fact_env _ w := ((fun _ => None, demo_epoch, Some "0123456789abcdef"), w);
  Fetch _ _ w := (inr mediaFetchNetwork, w); context_caused _ _ := false |}.
#[local] Existing Instance demo_messenger.

Notation DemoFactory := (@PluginFactory (Plugin demo_ctx scripted) capability (world scripted -> list promptSection) PluginEvent (world scripted) unit).
Definition memory_module (id capability_name : string) (value : capability) : DemoFactory := fun _ => Some (mkModule
  (mkManifest id id "1.0.0" "" 1 [PluginComponentMemory] [] [capability_name] [] "" true true)
  (CallProvide capability_name (Some value) (fun _ => Return None)) None).
Definition demo_behavior : BehaviorConfig := mkBehaviorConfig GroupSoftOff minute second "brief".
Definition demo_cfg : Config := mkConfig "fairy" "Be kind." (30 * minute) 12 (8 * second) 100 [] "all" true [] [] demo_behavior true.
Definition demo_switches : StateStore := mkStateStore true GroupSoftOff
  (new_state) Missing.
Definition demo_event (type conversation sender text : string) : messageEvent :=
  mkMessageEvent "message" type "m1" conversation (mkSender sender sender "") [AtSegment "fairy"; TextSegment text] 0 false false false.
Notation demo_new := (NewEngine tt demo_cfg ∅ true demo_switches (Some (router agent_snapshot)) None (Some empty_fact_db) [] []
  [Some (memory_module ContextMemoryPluginID "memory.context" ContextCapability);
   Some (memory_module FactMemoryPluginID "memory.fact" FactCapability)]
  (mkScripted 0 (ok_answer <$> ["Hello!"; "Hello again!"]))).
Definition demo_started : Engine * turn_state :=
  match demo_new with
  | Returned started => started
  | HostPanics => (mkEngine demo_cfg demo_behavior None [] None true false,
                   mkState (NewMessageGate "") (NewContextStore 0 0) None ∅ (NewToolRuntime None (DefaultToolPolicy []) None None) []
                     (demo_switches, mkScripted 0 []))
  end.
Notation demo_engine := demo_started.1.
Notation demo_state := demo_started.2.
Notation after m := (m demo_state).2.

(** a turn is answered and remembered; the next one, too soon, is not *)
Example demo_turns :
  let event := demo_event "private" "c1" "bob" "hello" in
  let turn := HandleMessage demo_engine None true event in
  let s := after (let* _ := turn in turn) in
  sent_text_ <$> s.(st_sent) = ["Hello!"; "请求太快了，请稍后再试。"]
  /\ from_option (fun entry => length entry.(FairyContext.messages)) 0%nat (s.(st_contexts).(entries) !! "c1") = 2%nat.
Proof. vm_compute. done. Qed.

Notation group_event := (demo_event "group" "group_1" "bob" "/fairy off").
Lemma management_commands_are_answered_witness : exists answer,
  (after (handleManagement demo_engine None group_event "/fairy off")).(st_sent) = demo_state.(st_sent) ++ [reply_to group_event answer].
Proof.
  assert (Hsome : match management demo_engine None group_event "/fairy off" with Some _ => true | None => false end = true)
    by (vm_compute; reflexivity).
  destruct (management demo_engine None group_event "/fairy off") as [action|] eqn:Ha; [|discriminate Hsome].
  destruct (management_commands_are_answered demo_engine None group_event "/fairy off" action demo_state Ha (fun _ => eq_refl)) as (answer & Hs & _).
  exists answer. exact Hs.
Defined.

Lemma turns_keep_to_their_conversation_witness :
  let s' := after (HandleMessage demo_engine None true (demo_event "private" "c1" "bob" "hello")) in
  exists C', (HandleMessage demo_engine None true (demo_event "private" "c1" "bob" "hello")
               (demo_state <| st_contexts ::= fun C => (Append "c2" 5 [chat "user" "hi"] C).2 |>)).2 = s' <| st_contexts := C' |>
    /\ from_option (fun entry => length entry.(FairyContext.messages)) 0%nat (C'.(entries) !! "c2") = 1%nat.
Proof.
  destruct (turns_keep_to_their_conversation demo_engine None true (demo_event "private" "c1" "bob" "hello") demo_state
    (Append "c2" 5 [chat "user" "hi"] demo_state.(st_contexts)).2) as [Hkeep _].
  destruct Hkeep as (C' & Hs & _ & Hothers); [by vm_compute|]. exists C'. split; [exact Hs|].
  clear Hs. unfold same_others in Hothers. rewrite (Hothers "c2" ltac:(vm_compute; discriminate)). vm_compute. reflexivity.
Defined.

Lemma group_settings_need_an_admin_witness :
  (after (handleManagement demo_engine None group_event "/fairy off")).(st_world).1 = demo_state.(st_world).1.
Proof.
  refine (proj1 (group_settings_need_an_admin demo_engine None group_event "/fairy off" demo_state eq_refl _)).
  intros o members member [= <-]. cbn. intros [= <-]. reflexivity.
Defined.

(** a model that answers in another way *)
Definition loud_model : Model demo_ctx scripted :=
  mkModel (fun _ _ db w => (inl "LOUD", db, w)) (Some (fun _ _ db w => (inr (IDError "loud"), db, w))) None (Some (HasTask agent_snapshot)).
Notation secret_event := (demo_event "private" "c1" "bob" "password=hunter2hunter2").
Lemma withheld_requests_reach_no_model_witness :
  withheld demo_engine secret_event = true
  /\ after (HandleMessage (with_model loud_model demo_engine) None true secret_event)
     = after (HandleMessage (with_model (router agent_snapshot) demo_engine) None true secret_event)
  /\ (after (HandleMessage (with_model loud_model demo_engine) None true secret_event)).(st_facts) = demo_state.(st_facts).
Proof.
  assert (Hw : withheld demo_engine (hooked demo_engine None secret_event) = true) by (vm_compute; reflexivity).
  assert (Hm : bool_decide (is_Some (management (with_model loud_model demo_engine) None (hooked demo_engine None secret_event)
    (request_of demo_engine (hooked demo_engine None secret_event)).(PluginRequest_Text))) = false) by (vm_compute; reflexivity).
  split; [vm_compute; reflexivity|].
  destruct (withheld_requests_reach_no_model demo_engine loud_model (router agent_snapshot) None true secret_event demo_state
    ltac:(by split; eexists) eq_refl Hw) as (Hsame & _ & Hfacts).
  split; [exact Hsame|]. apply Hfacts. apply bool_decide_eq_false in Hm. by apply eq_None_not_Some.
Defined.

Lemma accepted_requests_are_spaced_witness :
  let calls := [("user", minute); ("other", minute + 5 * second); ("user", minute + 5 * second); ("user", 2 * minute)] in
  accepted demo_cfg calls ∅ = [("user", minute); ("other", minute + 5 * second); ("user", 2 * minute)]
  /\ 8 * second <= 2 * minute - minute.
Proof.
  split; [vm_compute; reflexivity|].
  refine (accepted_requests_are_spaced demo_cfg [("user", minute); ("other", minute + 5 * second); ("user", minute + 5 * second); ("user", 2 * minute)]
    0 2 ("user", minute) ("user", 2 * minute) _ _ _ _ eq_refl eq_refl _ eq_refl); try (vm_compute; done).
  - repeat constructor; vm_compute; discriminate.
  - repeat constructor.
  - lia.
Defined.
