(* ===== verification/FairyOutbound.v ===== *)
(** * Replies of the assistant (fairy/outbound.go, fairy/client.go)

    A reply is sent with one client_message_id in several attempts, while the connection to
    the server may come and go.  What the network and the server do with a request is a
    function of the environment, on a world [W] of its own; other goroutines attach and
    detach clients between the attempts. *)
From S2P Require Import Prelude GoLib Types FairyTypes FairyTrace.
From stdpp Require Import gmap strings list.
From Stdlib Require Import ZArith.

Local Open Scope Z_scope.
Local Open Scope go_scope.

Definition defaultOutboundMaxAttempts : nat := 3.

(** a client is known by a number *)
Record reliableMessenger := mkMessenger {
  client : option Z; changed : nat; maxAttempts : nat;
  delivered : Z; retryAttempts : Z; failed : Z; outcomeUnknown : Z; feedback : option TraceDB }.
#[export] Instance eta_reliableMessenger : Eta reliableMessenger := fun r => mkMessenger
  r.(client) r.(changed) r.(maxAttempts) r.(delivered) r.(retryAttempts) r.(failed) r.(outcomeUnknown) r.(feedback).

Implicit Type m : reliableMessenger.

Definition newReliableMessenger (feedback : option TraceDB) : reliableMessenger :=
  mkMessenger None 0 defaultOutboundMaxAttempts 0 0 0 0 feedback.

(** ** The connection *)

(** the channel that waits are on is closed, and there is another *)
Definition signalChangeLocked m : reliableMessenger := m <| changed ::= S |>.

Definition Attach (c : Z) m : reliableMessenger :=
  if bool_decide (m.(client) = Some c) then m else signalChangeLocked (m <| client := Some c |>).
Definition Detach (c : Z) m : reliableMessenger :=
  if bool_decide (m.(client) = Some c) then signalChangeLocked (m <| client := None |>) else m.

Inductive connection_event := Attached (c : Z) | Detached (c : Z).
Definition connect (e : connection_event) m : reliableMessenger :=
  match e with Attached c => Attach c m | Detached c => Detach c m end.

(** the wait ends with a client, or because the context is done; [events] happen before *)
Definition waitForClient (events : list connection_event) (done_err : string) m : result Z * reliableMessenger :=
  let m := foldl (fun m e => connect e m) m events in
  match m.(client) with Some c => (Ok c, m) | None => (Err done_err, m) end.

(** ** A request *)

Record request := mkRequest {
  Request_ConversationID : string; Request_Segments : list MessageSegment; Request_ClientMessageID : string }.

(** what Client.Request returns: the message_id of the response, an APIError of the
    server, or another error (the request or its response may be lost) *)
Inductive response := RespOk (messageID : string) | RespAPIError (err : string) | RespError (err : string).
Inductive send_error := APIError (err : string) | OtherError (err : string).

(** *Client.sendSegmentsWithID: the request, and the check of the message_id *)
Definition sendSegmentsWithID {W} (exchange : request -> W -> response * W) (r : request) (w : W)
  : (string + send_error) * W :=
  if bool_decide (r.(Request_Segments) = []) then (inr (OtherError "Fairy message requires at least one segment"), w)
  else
    match exchange r w with
    | (RespOk messageID, w) =>
        let messageID := TrimSpace messageID in
        if bool_decide (messageID = "") || (1024 <? slen messageID)
        then (inr (OtherError "send_message response did not contain a valid message ID"), w)
        else (inl messageID, w)
    | (RespAPIError err, w) => (inr (APIError err), w)
    | (RespError err, w) => (inr (OtherError err), w)
    end.

(** ** Sending *)

(** what happens around an attempt: connections before it, the exchange, whether the
    context is done after it, whether the client is closed, how the wait for a retry ends,
    and whether the client is closed then *)
Record attempt_env (W : Type) := mkAttempt {
  env_events : list connection_event; env_done_err : string;
  env_exchange : Z -> request -> W -> response * W;
  env_context_done : bool; env_closed : bool; env_retry : option string; env_closed_after : bool }.
Arguments mkAttempt {W}. Arguments env_events {W}. Arguments env_done_err {W}. Arguments env_exchange {W}.
Arguments env_context_done {W}. Arguments env_closed {W}. Arguments env_retry {W}. Arguments env_closed_after {W}.

Inductive send_result := Sent | Failed (err : string) | Panicked.

Section sending.
Context `{Runtime} {W : Type}.
(** the turn of the reply when feedback is collected, the faults of the feedback store,
    and the readings of its clock and of the messenger's *)
Variables (turn : option string) (fault : faults) (wall now : time).

Definition register (messageID : string) m : reliableMessenger :=
  match turn, m.(feedback) with
  | Some turnID, Some db =>
      m <| feedback := Some (RegisterFeedbackOutput fault wall messageID turnID now db).2 |>
  | _, _ => m
  end.

Definition fail (err : string) (unknown : bool) m : send_result * reliableMessenger :=
  let m := m <| failed ::= Z.succ |> in
  (Failed err, if unknown then m <| outcomeUnknown ::= Z.succ |> else m).

(** the attempts from [attempt] on, [remaining] of them; [last] is the last error *)
Fixpoint attempts (env : nat -> attempt_env W) (r : request) (remaining attempt : nat) (last : option string)
    m (w : W) : send_result * reliableMessenger * W :=
  match remaining with
  | O => (Panicked, m, w)
  | S remaining =>
      let e := env attempt in
      match waitForClient e.(env_events) e.(env_done_err) m with
      | (Err waitErr, m) => (fail waitErr (bool_decide (is_Some last)) m, w)
      | (Ok c, m) =>
          let m := if bool_decide (attempt = O) then m else m <| retryAttempts ::= Z.succ |> in
          match sendSegmentsWithID (e.(env_exchange) c) r w with
          | (inl messageID, w) => (Sent, register messageID (m <| delivered ::= Z.succ |>), w)
          | (inr (APIError err), w) => (fail err false m, w)
          | (inr (OtherError err), w) =>
              if (m.(maxAttempts) <=? attempt + 1)%nat || e.(env_context_done) then (fail err true m, w)
              else if e.(env_closed) then attempts env r remaining (S attempt) (Some err) (Detach c m) w
              else
                match e.(env_retry) with
                | Some retryErr => (fail retryErr true m, w)
                | None =>
                    attempts env r remaining (S attempt) (Some err)
                      (if e.(env_closed_after) then Detach c m else m) w
                end
          end
      end
  end.

(** [draw] is the draw of newRuntimeID *)
Definition SendSegments (draw : option string) (env : nat -> attempt_env W) (conversationID : string)
    (segments : list MessageSegment) m (w : W) : send_result * reliableMessenger * W :=
  match newRuntimeID draw "fairy-msg" with
  | Err err => (fail err false m, w)
  | Ok clientMessageID =>
      attempts env (mkRequest conversationID segments clientMessageID) m.(maxAttempts) 0 None m w
  end.

Definition SendText (draw : option string) (env : nat -> attempt_env W) (conversationID messageID text : string)
    m (w : W) : send_result * reliableMessenger * W :=
  SendSegments draw env conversationID
    ((if bool_decide (messageID = "") then [] else [ReplySegment messageID]) ++ [TextSegment text]) m w.
End sending.
