(* ===== verification/FairyOutboundProps.v ===== *)
(** * What sending a reply guarantees (fairy/outbound.go)

    The counters account for every call and every attempt, and however the connection
    and the responses are lost, the server stores a reply at most once. *)
From S2P Require Import Prelude GoLib Types FairyTypes FairyTrace FairyOutbound.
From S2P Require Import MemoryState MemoryAccounts MemoryMessages MemoryGroups MessageFacts StoreSteps IdempotencyFacts Demo.
From stdpp Require Import gmap strings list.
From Stdlib Require Import ZArith Lia.

Local Open Scope Z_scope.
Local Open Scope go_scope.

(** ** A record of idempotent sends that is not there *)

Definition unfiled (s : MemoryStore) (key : string) : Prop := s.(messageIdempotency) !! key = None.
Lemma unfiled_frame s s' key :
  s'.(messageIdempotency) = s.(messageIdempotency) -> unfiled s key -> unfiled s' key.
Proof. unfold unfiled. by intros ->. Qed.

(** another operation: it deletes no message of the conversation and does not send under the key *)
Definition other (key conv : string) (op : store_op) : Prop :=
  (forall id, keeps id conv op)
  /\ match op with OpStoreMessageIdempotent _ u _ cid _ _ => composite_key u cid <> key | _ => True end.

Section unfiled.
Context `{Runtime}.

Lemma exec_unfiled op s key conv : other key conv op -> unfiled s key -> unfiled (StoreSteps.exec op s) key.
Proof.
  intros [Hk Ho] Hu. destruct op;
    try solve [op_cases ltac:(first [done | revert Hu; apply unfiled_frame; done])];
    cbn [StoreSteps.exec keeps] in *.
  - unfold unfiled. destruct ((DeleteConversation id s).2.(messageIdempotency) !! key) as [r|] eqn:E; [|done].
    apply DeleteConversation_keeps in E. unfold unfiled in Hu. destruct E. congruence.
  - unfold StoreMessageIdempotent. repeat (case_goal; try done). unfold unfiled. cbn. by rewrite lookup_insert_ne.
  - unfold UpdateMessageSegments, updateMessageSegmentsLocked. by destruct (find_ptr s msgID).
  - by destruct (Hk msgID).
  - unfold RecallMessage. by destruct (find_ptr s msgID).
  - unfold StoreDynamicUpdateIdempotent, updateMessageSegmentsLocked. repeat (case_goal; simpl in *; try done).
  - unfold AppendDynamicInteractionEvent, interaction_op. repeat (case_goal; simpl in *; try done).
  - unfold CommitDynamicInteractionEvent, interaction_op, updateMessageSegmentsLocked. repeat (case_goal; simpl in *; try done).
  - unfold DeleteGroup. by case_goal.
Qed.
Lemma run_unfiled ops s key conv :
  Forall (other key conv) ops -> unfiled s key -> unfiled (run_ops ops s) key.
Proof.
  intros Ho. revert s. induction Ho as [|op ops Hop _ IH]; intros s Hu; [done|]. apply IH. by eapply exec_unfiled.
Qed.
End unfiled.

(** ** Counters *)

Definition same_counts (m m' : reliableMessenger) : Prop :=
  m'.(maxAttempts) = m.(maxAttempts) /\ m'.(delivered) = m.(delivered) /\ m'.(retryAttempts) = m.(retryAttempts)
  /\ m'.(failed) = m.(failed) /\ m'.(outcomeUnknown) = m.(outcomeUnknown).
#[export] Instance same_counts_preorder : PreOrder same_counts.
Proof.
  split; [done|]. intros m1 m2 m3 (A & B & C & D & E) (A' & B' & C' & D' & E').
  unfold same_counts. by rewrite A', B', C', D', E'.
Qed.

Lemma Attach_counts c m : same_counts m (Attach c m).
Proof. unfold Attach. by case_bool_decide. Qed.
Lemma Detach_counts c m : same_counts m (Detach c m).
Proof. unfold Detach. by case_bool_decide. Qed.
Lemma connect_counts events m : same_counts m (foldl (fun m e => connect e m) m events).
Proof.
  revert m. induction events as [|e events IH]; intros m; [done|]. cbn [foldl]. rewrite <-IH.
  destruct e; [apply Attach_counts|apply Detach_counts].
Qed.

Section accounting.
Context `{Runtime} {W : Type}.
Variables (turn : option string) (fault : faults) (wall now : time).
Implicit Types (env : nat -> attempt_env W) (m : reliableMessenger).

Lemma register_counts messageID m : same_counts m (register turn fault wall now messageID m).
Proof. unfold register. destruct turn as [t|]; [|done]. by destruct m.(feedback) eqn:E. Qed.

(** the environment, with a log of the requests *)
Definition logging env : nat -> attempt_env (list request * W) := fun n =>
  let e := env n in
  mkAttempt e.(env_events) e.(env_done_err)
    (fun c r w => let '(resp, w') := e.(env_exchange) c r w.2 in (resp, (w.1 ++ [r], w')))
    e.(env_context_done) e.(env_closed) e.(env_retry) e.(env_closed_after).

Definition is_sent (res : send_result) : Z := match res with Sent => 1 | _ => 0 end.

(** what the attempts after the first [attempt] ones do, [k] of them making a request *)
Record accounted (attempt k : nat) (m m' : reliableMessenger) (res : send_result) : Prop := {
  ac_end : res <> Panicked;
  ac_delivered : m'.(delivered) = m.(delivered) + is_sent res;
  ac_failed : m'.(failed) = m.(failed) + (1 - is_sent res);
  ac_unknown : m.(outcomeUnknown) <= m'.(outcomeUnknown) <= m.(outcomeUnknown) + (1 - is_sent res);
  ac_retries : m'.(retryAttempts)
    = m.(retryAttempts) + Z.of_nat k - (if bool_decide (attempt = O) && (0 <? k)%nat then 1 else 0);
  ac_none : k = O -> attempt = O -> res <> Sent /\ m'.(outcomeUnknown) = m.(outcomeUnknown) }.

Definition bump (attempt : nat) m : reliableMessenger :=
  if bool_decide (attempt = O) then m else m <| retryAttempts ::= Z.succ |>.

Lemma fail_accounted attempt err u m m1 :
  same_counts m m1 -> (attempt = O -> u = false) -> accounted attempt 0 m (fail err u m1).2 (Failed err).
Proof.
  intros (A & B & C & D & E) Hu. split; destruct u; cbn; try done; rewrite ?A, ?B, ?C, ?D, ?E, ?andb_false_r; try lia.
  all: intros _ Ha; split; [done|]; specialize (Hu Ha); done.
Qed.
Lemma fail_bump_accounted attempt err u m m1 :
  same_counts m m1 -> accounted attempt 1 m (fail err u (bump attempt m1)).2 (Failed err).
Proof.
  intros (A & B & C & D & E). unfold bump. split; destruct u; repeat case_bool_decide; cbn; try done; rewrite ?A, ?B, ?C, ?D, ?E; lia.
Qed.
Lemma sent_accounted attempt messageID m m1 :
  same_counts m m1 ->
  accounted attempt 1 m (register turn fault wall now messageID ((bump attempt m1) <| delivered ::= Z.succ |>)) Sent.
Proof.
  intros (A & B & C & D & E).
  destruct (register_counts messageID ((bump attempt m1) <| delivered ::= Z.succ |>)) as (A' & B' & C' & D' & E').
  unfold bump in *. split; rewrite ?A', ?B', ?C', ?D', ?E'; repeat case_bool_decide; cbn; try done; rewrite ?A, ?B, ?C, ?D, ?E; lia.
Qed.
Lemma more_accounted attempt k m m1 m2 m' res :
  same_counts m m1 -> same_counts (bump attempt m1) m2 -> accounted (S attempt) k m2 m' res ->
  accounted attempt (S k) m m' res.
Proof.
  intros (A & B & C & D & E) (A' & B' & C' & D' & E') [H1 H2 H3 H4 H5 H6]. unfold bump in *.
  rewrite B' in H2. rewrite C' in H5. rewrite D' in H3. rewrite E' in H4. cbn in H5.
  split; try done; revert H2 H3 H4 H5; repeat case_bool_decide; cbn; rewrite ?B, ?C, ?D, ?E; lia.
Qed.

Lemma wait_counts events err m r m1 : waitForClient events err m = (r, m1) -> same_counts m m1.
Proof.
  unfold waitForClient. pose proof (connect_counts events m) as Hc.
  destruct (client _); intros [= _ <-]; exact Hc.
Qed.

(** a request under the log *)
Lemma logged_send env n c r l w x lw :
  r.(Request_Segments) <> [] ->
  sendSegmentsWithID (env_exchange (logging env n) c) r (l, w) = (x, lw) -> lw.1 = l ++ [r].
Proof.
  intros Hs. unfold sendSegmentsWithID, logging. rewrite bool_decide_false by done. cbn.
  destruct (env_exchange (env n) c r w) as [[id|e|e] w']; cbn; [case_match|..]; by intros [= _ <-].
Qed.

Lemma attempts_accounted env r remaining attempt last m l w :
  r.(Request_Segments) <> [] -> m.(maxAttempts) = (attempt + remaining)%nat -> (0 < remaining)%nat ->
  (attempt = O -> last = None) ->
  let '(res, m', lw) := attempts turn fault wall now (logging env) r remaining attempt last m (l, w) in
  exists k, (k <= remaining)%nat /\ lw.1 = l ++ replicate k r /\ accounted attempt k m m' res.
Proof.
  intros Hs. revert attempt last m l w. induction remaining as [|remaining IH]; intros attempt last m l w Hm Hr Hl; [lia|].
  cbn [attempts]. destruct (waitForClient _ _ m) as [[c|err] m1] eqn:Ew; pose proof (wait_counts _ _ _ _ _ Ew) as Hc.
  2: { exists O. split; [lia|]. rewrite app_nil_r. split; [done|].
       apply (fail_accounted attempt err (bool_decide (is_Some last)) m m1 Hc). intros Ha. by rewrite (Hl Ha). }
  fold (bump attempt m1). destruct (sendSegmentsWithID _ r (l, w)) as [x lw] eqn:Es.
  pose proof (logged_send _ _ _ _ _ _ _ _ Hs Es) as El.
  assert (Hone : forall m' res, accounted attempt 1 m m' res ->
    exists k, (k <= S remaining)%nat /\ lw.1 = l ++ replicate k r /\ accounted attempt k m m' res)
    by (intros m' res Ha; exists 1%nat; split; [lia|done]).
  destruct x as [id|[err|err]].
  - apply Hone. by apply sent_accounted.
  - apply Hone. exact (fail_bump_accounted attempt err false m m1 Hc).
  - set (stop := (_ <=? _)%nat || _). destruct stop eqn:Estop; [apply Hone; exact (fail_bump_accounted attempt err true m m1 Hc)|].
    assert (Hrec : forall m2, same_counts (bump attempt m1) m2 ->
      let '(res, m', lw') := attempts turn fault wall now (logging env) r remaining (S attempt) (Some err) m2 lw in
      exists k, (k <= S remaining)%nat /\ lw'.1 = l ++ replicate k r /\ accounted attempt k m m' res).
    { intros m2 H2. destruct lw as [l' w']. cbn in El. subst l'.
      assert (Hmax : maxAttempts (bump attempt m1) = maxAttempts m)
        by (unfold bump; case_bool_decide; cbn; apply Hc).
      apply orb_false_iff in Estop as [Estop _]. apply Nat.leb_gt in Estop.
      specialize (IH (S attempt) (Some err) m2 (l ++ [r]) w').
      destruct (attempts _ _ _ _ _ _ _ _ _ _ _) as [[res m'] lw'].
      destruct IH as (k & Hk & E & Ha); [rewrite (proj1 H2); lia|lia|done|].
      exists (S k). split; [lia|]. rewrite E, <-app_assoc. split; [done|]. by eapply more_accounted. }
    destruct (env_closed _); [apply Hrec, Detach_counts|].
    destruct (env_retry _) as [e|]; [apply Hone; exact (fail_bump_accounted attempt e true m m1 Hc)|].
    apply Hrec. destruct (env_closed_after _); [apply Detach_counts|done].
Qed.

(** every call ends and is accounted for: with at least one attempt allowed, sending
    (a message of at least one segment) returns, and exactly one of the counters of delivered and failed replies goes up by
    one; only a failed reply can count as of unknown outcome, and never one that was not
    attempted; at most [maxAttempts] requests are made, all the same one with the same
    client_message_id; and all of them but the first count as retries. *)
Theorem every_reply_is_accounted env (draw : option string) (conversationID : string)
    (segments : list MessageSegment) m (w : W) :
  (0 < m.(maxAttempts))%nat -> segments <> [] ->
  let '(res, m', lw) := SendSegments turn fault wall now draw (logging env) conversationID segments m ([], w) in
  exists cid k, lw.1 = replicate k (mkRequest conversationID segments cid) /\ (k <= m.(maxAttempts))%nat
    /\ accounted 0 k m m' res.
Proof.
  intros Hm Hs. unfold SendSegments. destruct (newRuntimeID draw "fairy-msg") as [cid|err].
  - pose proof (attempts_accounted env (mkRequest conversationID segments cid) m.(maxAttempts) 0 None m [] w) as Ha.
    destruct (attempts _ _ _ _ _ _ _ _ _ _ _) as [[res m'] lw]. destruct Ha as (k & Hk & E & Ha); [done..|].
    by exists cid, k.
  - exists "", O. split; [done|]. split; [lia|].
    by apply (fail_accounted 0 err false m m).
Qed.
End accounting.

(** ** With the server *)

Section once.
Context `{Runtime}.
(** the conversation, the assistant's account, the client_message_id and the message *)
Variables (conv u cid : string) (segs : list MessageSegment).
(** at most so many other requests are handled between two attempts *)
Variable load : nat.
Notation key := (composite_key u cid).

(** the store of the server, with the messages that it stored for this reply *)
Notation world := (MemoryStore * list Message)%type.

(** what the server does with a request: it is lost, or refused by the checks before the
    store, or handled by the store; and the answer may be lost in each case *)
Inductive handled (s : MemoryStore) (l : list Message) : response -> world -> Prop :=
| handled_lost err : handled s l (RespError err) (s, l)
| handled_refused err : handled s l (RespAPIError err) (s, l)
| handled_stored nick now m (duplicate : bool) s' resp :
    StoreMessageIdempotent conv u nick cid segs now s = (Ok (m, duplicate), s') ->
    resp = RespOk m.(Message_ID) \/ (exists err, resp = RespError err) ->
    handled s l resp (s', if duplicate then l else l ++ [m])
| handled_failed nick now e s' resp :
    StoreMessageIdempotent conv u nick cid segs now s = (Err e, s') ->
    resp = RespAPIError e \/ (exists err, resp = RespError err) ->
    handled s l resp (s', l).

(** the server handles other requests before, none of which deletes the reply or sends
    under its key *)
Definition served (w : world) (resp : response) (w' : world) : Prop :=
  exists ops, Forall (other key conv) ops /\ (length ops <= load)%nat /\ handled (run_ops ops w.1) w.2 resp w'.

(** at most one message is stored, and it is the one on file *)
Definition stored_once (w : world) : Prop :=
  messages_ok w.1
  /\ (w.2 = [] /\ unfiled w.1 key
      \/ exists m fp, w.2 = [m] /\ messageRequestFingerprint conv segs = Ok fp /\ filed w.1 key fp m.(Message_ID) conv).

Lemma run_counter ops s : messages_ok s -> s.(msgCounter) + Z.of_nat (length ops) < maxInt64 ->
  messages_ok (run_ops ops s) /\ (run_ops ops s).(msgCounter) <= s.(msgCounter) + Z.of_nat (length ops).
Proof.
  revert s. induction ops as [|op ops IH]; intros s Hok Hl; cbn [length] in *; [split; [done|cbn; lia]|].
  pose proof (mo_counter _ Hok). pose proof (exec_counter op s ltac:(lia) ltac:(lia)).
  destruct (IH (StoreSteps.exec op s)) as [Hr1 Hr2]; [apply exec_messages_ok; [done|lia]|lia|].
  split; [exact Hr1|]. change (run_ops (op :: ops) s) with (run_ops ops (StoreSteps.exec op s)). lia.
Qed.

Lemma served_once w resp w' : cid <> "" -> stored_once w -> w.1.(msgCounter) + Z.of_nat load < maxInt64 ->
  served w resp w' ->
  stored_once w' /\ (forall id, resp = RespOk id -> length w'.2 = 1%nat)
  /\ w'.1.(msgCounter) <= w.1.(msgCounter) + Z.of_nat load + 1.
Proof.
  intros Hcid [Hok Hst] Hload (ops & Ho & Hlen & Hh). destruct w as [s l]. cbn [fst snd] in *.
  destruct (run_counter ops s Hok ltac:(lia)) as [Hok1 Hc1].
  assert (Hst1 : l = [] /\ unfiled (run_ops ops s) key
    \/ exists m fp, l = [m] /\ messageRequestFingerprint conv segs = Ok fp /\ filed (run_ops ops s) key fp m.(Message_ID) conv).
  { destruct Hst as [[-> Hu]|(m & fp & -> & Hfp & Hf)]; [left; split; [done|by eapply run_unfiled]|right].
    exists m, fp. split; [done|]. split; [done|]. apply run_ops_filed; [done|lia| |done].
    eapply Forall_impl; [exact Ho|]. intros op [Hk _]. apply Hk. }
  assert (Hfin : (run_ops ops s).(msgCounter) < maxInt64 /\ (run_ops ops s).(msgCounter) <= s.(msgCounter) + Z.of_nat load) by lia.
  revert Hok1 Hfin Hst1 Hh. generalize (run_ops ops s). generalize (s.(msgCounter) + Z.of_nat load).
  clear s Hok Hst Hlen Hload Hc1 Ho ops. intros n s Hok [Hc Hn] Hst Hh. pose proof (mo_counter _ Hok) as Hpos.
  destruct Hh as [err|err|nick t m dup s' resp E Hr|nick t e s' resp E Hr]; [split; [done|split; [done|cbn; lia]]..| |].
  - pose proof (StoreMessageIdempotent_ok conv u nick cid segs t s Hok Hc) as Hok'. rewrite E in Hok'. cbn in Hok'.
    pose proof (StoreMessageIdempotent_counter conv u nick cid segs t s Hc Hpos) as Hn'. rewrite E in Hn'. cbn in Hn'.
    assert (Hb : s'.(msgCounter) <= n + 1) by lia.
    destruct Hst as [[-> Hu]|(m0 & fp & -> & Hfp & Hf)].
    + assert (dup = false) as ->.
      { revert E. unfold StoreMessageIdempotent. destruct (messageRequestFingerprint conv segs); [|done].
        rewrite bool_decide_false by done. unfold unfiled in Hu. rewrite Hu. by intros [= _ <- _]. }
      destruct (send_files s conv u nick cid segs t m s' Hcid E) as (fp & Hfp & Hf).
      split; [split; [done|right; by exists m, fp]|by split].
    + destruct (replay_filed s conv u nick cid segs t fp m0.(Message_ID) Hcid Hfp Hf) as (m1 & E1 & _ & _).
      rewrite E in E1. injection E1 as -> -> ->. split; [split; [done|right; by exists m0, fp]|by split].
  - assert (s' = s) as ->.
    { revert E. unfold StoreMessageIdempotent. repeat (case_goal; try done); by intros [= _ <-]. }
    split; [done|]. split; [intros id ->; by destruct Hr as [|[]]|cbn; lia].
Qed.

(** a property of the world kept by every exchange *)
Lemma attempts_keep {W} turn fault wall now (J : nat -> W -> Prop) (Good : W -> Prop) (env : nat -> attempt_env W) r remaining attempt last m w :
  (forall n c w resp w', (n < attempt + remaining)%nat -> J n w -> env_exchange (env n) c r w = (resp, w') ->
     J (S n) w' /\ (forall id, resp = RespOk id -> Good w')) ->
  (forall n w, J n w -> J (S n) w) ->
  J attempt w ->
  let '(res, _, w') := attempts turn fault wall now env r remaining attempt last m w in
  J (attempt + remaining)%nat w' /\ (res = Sent -> Good w').
Proof.
  intros Hex HS. revert attempt last m w Hex. induction remaining as [|remaining IH]; intros attempt last m w Hex Hj.
  { by rewrite Nat.add_0_r. }
  assert (Hlater : forall n w, J n w -> forall k, J (n + k)%nat w).
  { intros n w1 Hw1 k. induction k; [by rewrite Nat.add_0_r|]. rewrite Nat.add_succ_r. by apply HS. }
  assert (Hsum : (attempt + S remaining = S attempt + remaining)%nat) by lia.
  cbn [attempts]. destruct (waitForClient _ _ m) as [[c|err] m1]; [|by split; [apply Hlater|]].
  destruct (sendSegmentsWithID _ r w) as [x w'] eqn:Es.
  assert (Hx : J (S attempt) w' /\ (forall id, x = inl id -> Good w')).
  { revert Es. unfold sendSegmentsWithID. case_match; [by intros [= <- <-]; split; [apply HS|]|].
    destruct (env_exchange (env attempt) c r w) as [resp w2] eqn:Ee.
    destruct (Hex attempt _ _ _ _ ltac:(lia) Hj Ee) as [Hj' Hg].
    destruct resp as [id|e|e]; [case_match|..]; intros [= <- <-]; split; try done. intros _ _. by eapply Hg. }
  destruct Hx as [Hj' Hg]. rewrite Hsum in Hex |- *.
  destruct x as [id|[err|err]]; [split; [by apply Hlater|intros _; by eapply Hg]|split; [by apply Hlater|done]|].
  destruct ((_ <=? _)%nat || _); [split; [by apply Hlater|done]|]. destruct (env_closed _); [by apply IH|].
  destruct (env_retry _); [split; [by apply Hlater|done]|by apply IH].
Qed.

(** C25: a reply is stored at most once: whatever is lost on the way, whichever connections
    come and go, and whatever else the server does meanwhile without deleting it, the
    attempts of one call store at most one message; and when the call reports success,
    exactly one. *)
Theorem reply_is_stored_once turn fault wall now (env : nat -> attempt_env world) (draw : string)
    (m : reliableMessenger) (s : MemoryStore) :
  newRuntimeID (Some draw) "fairy-msg" = Ok cid ->
  (forall n c w, let '(resp, w') := env_exchange (env n) c (mkRequest conv segs cid) w in served w resp w') ->
  messages_ok s -> unfiled s key ->
  s.(msgCounter) + Z.of_nat m.(maxAttempts) * (Z.of_nat load + 1) < maxInt64 ->
  let '(res, _, w) := SendSegments turn fault wall now (Some draw) env conv segs m (s, []) in
  (length w.2 <= 1)%nat /\ (res = Sent -> length w.2 = 1%nat).
Proof.
  intros Hid Hserved Hok Hu Hb. unfold SendSegments. rewrite Hid.
  assert (Hcid : cid <> "") by (injection Hid as <-; done).
  pose proof (attempts_keep turn fault wall now
    (fun n w => stored_once w /\ w.1.(msgCounter) <= s.(msgCounter) + Z.of_nat n * (Z.of_nat load + 1)) (fun w => length w.2 = 1%nat) env (mkRequest conv segs cid)
    m.(maxAttempts) 0 None m (s, [])) as Hk.
  destruct (attempts _ _ _ _ _ _ _ _ _ _ _) as [[res m'] w]. destruct Hk as [[[_ Hw] _] Hg].
  - intros n c w0 resp w0' Hn [Hj Hc] Ee. specialize (Hserved n c w0). rewrite Ee in Hserved.
    destruct (served_once w0 resp w0' Hcid Hj) as (Ho1 & Ho2 & Ho3); [nia|done|]. split; [|done]. split; [done|]. nia.
  - intros n w0 [Hj Hc]. split; [done|]. nia.
  - split; [|cbn; lia]. split; [done|]. by left.
  - split; [|done]. destruct Hw as [[-> _]|(m0 & fp & -> & _)]; cbn; lia.
Qed.
End once.

(** ** Witnesses *)

Definition reply_id : string := "fairy-msg_6162".
Definition reply_segments : list MessageSegment := [TextSegment "hi"].
Definition reply_request : request := mkRequest "c" reply_segments reply_id.

(** the server stores every request it gets; the first answer is lost with its connection *)
Definition store_request (n : nat) (w : MemoryStore * list Message) : response * (MemoryStore * list Message) :=
  match StoreMessageIdempotent (H := Demo.demo_runtime) "c" "fairy" "Fairy" reply_id reply_segments demo_epoch w.1 with
  | (Ok (m, duplicate), s) =>
      (if bool_decide (n = O) then RespError "connection lost" else RespOk m.(Message_ID),
       (s, if duplicate then w.2 else w.2 ++ [m]))
  | (Err e, s) => (RespAPIError e, (s, w.2))
  end.
Definition flaky : nat -> attempt_env (MemoryStore * list Message) := fun n =>
  mkAttempt [Attached (Z.of_nat n)] "context done" (fun _ _ => store_request n) false (bool_decide (n = O)) None false.
Definition new_messenger : reliableMessenger := newReliableMessenger None.

Lemma store_request_served n w :
  let '(resp, w') := store_request n w in
  served (H := Demo.demo_runtime) "c" "fairy" reply_id reply_segments 0 w resp w'.
Proof.
  unfold store_request. destruct (StoreMessageIdempotent _ _ _ _ _ _ _) as [[[m dup]|e] s'] eqn:E; exists [];
    (split; [constructor|split; [reflexivity|]]).
  - eapply handled_stored; [exact E|]. destruct (bool_decide (n = O)); [right; by eexists|by left].
  - eapply handled_failed; [exact E|]. by left.
Qed.

Lemma reply_is_stored_once_witness :
  let '(res, m, w) := SendSegments (H := Demo.demo_runtime) None no_faults demo_epoch demo_epoch (Some "ab") flaky "c"
    reply_segments new_messenger (NewMemoryStore, []) in
  res = Sent /\ length w.2 = 1%nat /\ m.(retryAttempts) = 1.
Proof.
  pose proof (reply_is_stored_once (H := Demo.demo_runtime) "c" "fairy" reply_id reply_segments 0 None no_faults demo_epoch
    demo_epoch flaky "ab" new_messenger NewMemoryStore) as Hw.
  assert (Hs : (SendSegments (H := Demo.demo_runtime) None no_faults demo_epoch demo_epoch (Some "ab") flaky "c"
    reply_segments new_messenger (NewMemoryStore, [])).1.1 = Sent) by (vm_compute; reflexivity).
  assert (Hm : retryAttempts (SendSegments (H := Demo.demo_runtime) None no_faults demo_epoch demo_epoch (Some "ab") flaky "c"
    reply_segments new_messenger (NewMemoryStore, [])).1.2 = 1) by (vm_compute; reflexivity).
  destruct (SendSegments _ _ _ _ _ _ _ _ _ _) as [[res m] w]. cbn in Hs, Hm.
  split; [exact Hs|]. split; [|exact Hm]. apply Hw; [reflexivity| |apply NewMemoryStore_messages_ok|vm_compute; reflexivity|vm_compute; reflexivity|exact Hs].
  intros n c w0. apply store_request_served.
Defined.

Definition refused_env : nat -> attempt_env unit := fun n =>
  mkAttempt [Attached 1] "context done"
    (fun _ _ w => (if bool_decide (n = O) then RespError "timeout" else RespAPIError "refused", w)) false false None false.

(** an error of the server after a lost answer: the reply counts as failed, with its outcome
    known, although the first attempt may have been stored *)
Lemma every_reply_is_accounted_witness :
  let '(res, m, lw) := SendSegments (H := Demo.demo_runtime) None no_faults demo_epoch demo_epoch (Some "ab")
    (logging refused_env) "c" reply_segments new_messenger ([], tt) in
  (exists cid k, lw.1 = replicate k (mkRequest "c" reply_segments cid) /\ (k <= 3)%nat /\ accounted 0 k new_messenger m res)
  /\ res = Failed "refused" /\ m.(failed) = 1 /\ m.(outcomeUnknown) = 0.
Proof.
  pose proof (every_reply_is_accounted (H := Demo.demo_runtime) None no_faults demo_epoch demo_epoch refused_env (Some "ab") "c"
    reply_segments new_messenger tt (Nat.lt_0_succ 2) ltac:(done)) as Hw.
  assert (Hs : let '(res, m, _) := SendSegments (H := Demo.demo_runtime) None no_faults demo_epoch demo_epoch (Some "ab")
    (logging refused_env) "c" reply_segments new_messenger ([], tt) in
    res = Failed "refused" /\ m.(failed) = 1 /\ m.(outcomeUnknown) = 0)
    by (vm_compute; split; [|split]; reflexivity).
  destruct (SendSegments _ _ _ _ _ _ _ _ _ _) as [[res m] lw]. split; [exact Hw|exact Hs].
Defined.
