(* ===== verification/FairyScheduler.v ===== *)
(** * The conversation scheduler of the assistant (fairy/scheduler.go)

    Turns of one conversation run one after the other, those of different conversations
    at the same time, as many as there are slots.  A queue lives in a table from
    conversations while a goroutine (an actor) serves it; the critical sections are
    executable functions over the scheduler's fields, and [sched_step] interleaves the
    goroutines: submitters, actors, and callers of Shutdown.  A queue is a pointer into a
    heap and a turn's context a pointer into another; the trace store is the database of
    [FairyTrace]. *)
From S2P Require Import Prelude GoLib Types FairyTypes FairyTrace.
From stdpp Require Import gmap strings list.
From Stdlib Require Import ZArith.

Local Open Scope Z_scope.
Local Open Scope go_scope.

Definition ErrSchedulerClosed := "Fairy scheduler is closed".
Definition ErrPendingLimit := "Fairy global pending limit reached".
Definition ErrConversationPending := "Fairy conversation pending limit reached".
Definition ErrTurnStoppedByUser := "Fairy turn stopped by user".
Definition ErrSchedulerShuttingDown := "Fairy scheduler is shutting down".
Definition DeadlineExceeded := "context deadline exceeded".
Definition Canceled := "context canceled".

(** [turn_run] names the function that the turn runs, [None] for nil *)
Record scheduledTurn := mkTurn {
  turn_source : string; turn_eventID : string; turn_conversationID : string;
  turn_priority : bool; turn_retryable : bool; turn_run : option nat;
  turn_traceID : string; turn_turnID : string }.
#[export] Instance eta_scheduledTurn : Eta scheduledTurn := fun r => mkTurn
  r.(turn_source) r.(turn_eventID) r.(turn_conversationID) r.(turn_priority)
  r.(turn_retryable) r.(turn_run) r.(turn_traceID) r.(turn_turnID).
#[export] Instance scheduledTurn_eq_dec : EqDecision scheduledTurn.
Proof. solve_decision. Defined.

(** [currentCancel] cancels the context it points to *)
Record conversationQueue := mkQueue {
  items : list scheduledTurn; running : bool; controlQueued : bool; currentCancel : option nat }.
#[export] Instance eta_conversationQueue : Eta conversationQueue := fun r => mkQueue
  r.(items) r.(running) r.(controlQueued) r.(currentCancel).

(** Goroutines, by where they are.  [Submitted] has left the critical section of Submit
    and still has to append its trace and to start the actor of the queue, if any; an
    actor waits for a slot, takes turns, runs them, and gives the slot back; [Closing],
    [Forced] and [Closed] are a caller of Shutdown. *)
Inductive goroutine :=
| Submitted (event : TraceEvent) (start : option (string * nat))
| AwaitSlot (conversationID : string) (queue : nat)
| Discarding (conversationID : string) (queue : nat)
| NextTurn (conversationID : string) (queue : nat)
| Starting (conversationID : string) (queue : nat) (turn : scheduledTurn) (ctx : nat)
| Running (conversationID : string) (queue : nat) (turn : scheduledTurn) (ctx : nat)
| Finished (conversationID : string) (queue : nat) (turn : scheduledTurn) (cause : option string)
| Releasing
| Leaving
| Closing | Forced | Closed (forced : bool)
| Done.

Record ConversationScheduler := mkScheduler {
  accepting : bool;
  queues : gmap string nat;
  queue_heap : gmap nat conversationQueue;
  pending : Z; maxPending : Z; maxConversationPending : Z;
  (** the tokens in the channel, and its capacity *)
  slots : Z; maxConcurrent : Z;
  (** the cause of the lifecycle context, and those of the turns' contexts *)
  lifecycle : option string;
  contexts : gmap nat (option string);
  (** the counter of the wait group *)
  wait : Z;
  trace : TraceDB;
  goroutines : list goroutine }.
#[export] Instance eta_ConversationScheduler : Eta ConversationScheduler := fun r => mkScheduler
  r.(accepting) r.(queues) r.(queue_heap) r.(pending) r.(maxPending) r.(maxConversationPending)
  r.(slots) r.(maxConcurrent) r.(lifecycle) r.(contexts) r.(wait) r.(trace) r.(goroutines).

Definition NewConversationScheduler (MaxPending MaxConversationPending MaxConcurrent : Z)
    (db : TraceDB) : ConversationScheduler :=
  mkScheduler true ∅ ∅ 0 MaxPending MaxConversationPending 0 MaxConcurrent None ∅ 0 db [].

Implicit Type s : ConversationScheduler.

Definition queue_at (p : nat) s : conversationQueue := default (mkQueue [] false false None) (s.(queue_heap) !! p).
Definition set_queue (p : nat) (q : conversationQueue) s : ConversationScheduler :=
  s <| queue_heap ::= <[p := q]> |>.

(** ** Contexts *)

(** the first cancellation gives the cause *)
Definition cancel (ctx : nat) (cause : string) s : ConversationScheduler :=
  s <| contexts ::= alter (fun c => match c with Some _ => c | None => Some cause end) ctx |>.

(** cancelling the lifecycle cancels every context derived from it *)
Definition cancelLifecycle (cause : string) s : ConversationScheduler :=
  match s.(lifecycle) with
  | Some _ => s
  | None => s <| lifecycle := Some cause |>
              <| contexts ::= fmap (fun c => match c with Some _ => c | None => Some cause end) |>
  end.

(** ** Submit *)

(** what the critical section leaves to do: the result, the trace, and the queue whose
    actor is to be started *)
Record submission := mkSubmission {
  sub_result : result bool; sub_trace : option TraceEvent; sub_start : option (string * nat) }.

Definition trace_of (turn : scheduledTurn) (now : time) (type status : string) (depth pending : Z)
  : TraceEvent :=
  (trace_event now type turn.(turn_traceID) turn.(turn_turnID) turn.(turn_conversationID)
     turn.(turn_source) status)
    <| TraceEvent_QueueDepth := depth |> <| TraceEvent_Pending := pending |>.

Definition priorityBypass (turn : scheduledTurn) (queue : option conversationQueue) : bool :=
  match queue with
  | None => false
  | Some q => turn.(turn_priority)
      && (bool_decide (is_Some q.(currentCancel)) || (0 <? Z.of_nat (length q.(items))))
      && negb q.(controlQueued)
  end.

(** the turn joins its queue: a control turn at the head, the others at the end *)
Definition join_queue (turn : scheduledTurn) (q : conversationQueue) : conversationQueue :=
  if turn.(turn_priority) then q <| items ::= cons turn |> <| controlQueued := true |>
  else q <| items ::= fun l => l ++ [turn] |>.

(** a control turn stops the turn that runs *)
Definition stop_current (turn : scheduledTurn) (q : conversationQueue) s : ConversationScheduler :=
  if turn.(turn_priority)
  then match q.(currentCancel) with Some ctx => cancel ctx ErrTurnStoppedByUser s | None => s end
  else s.

(** the turn is admitted *)
Definition enqueue_turn (turn : scheduledTurn) (now : time) s : submission * ConversationScheduler :=
  let conversationID := turn.(turn_conversationID) in
  let '(p, s) := match s.(queues) !! conversationID with
                 | Some p => (p, s)
                 | None =>
                     let p := fresh (dom s.(queue_heap)) in
                     (p, (set_queue p (mkQueue [] false false None) s)
                           <| queues ::= <[conversationID := p]> |>)
                 end in
  let s := stop_current turn (queue_at p s) s in
  let q := join_queue turn (queue_at p s) in
  let s := s <| pending ::= Z.succ |> in
  let start := if q.(running) then None else Some (conversationID, p) in
  let s := if q.(running) then s else s <| wait ::= Z.succ |> in
  let s := set_queue p (q <| running := true |>) s in
  (mkSubmission (Ok true)
     (Some (trace_of turn now TraceAdmissionAccepted "admitted" (Z.of_nat (length q.(items))) s.(pending)))
     start, s).

(** the critical section of Submit, on a turn that has its identifiers *)
Definition submit_locked (fault : faults) (now : time) (turn : scheduledTurn) s
  : submission * ConversationScheduler :=
  let refused err := mkSubmission (Err err) None None in
  let rejected err status depth :=
    mkSubmission (Err err) (Some (trace_of turn now TraceAdmissionRejected status depth s.(pending))) None in
  if negb s.(accepting) then (refused ErrSchedulerClosed, s)
  else
    let queue := s.(queues) !! turn.(turn_conversationID) ≫= fun p => s.(queue_heap) !! p in
    let bypass := priorityBypass turn queue in
    if (s.(maxPending) <=? s.(pending)) && negb bypass
    then (rejected ErrPendingLimit "global_pending_limit" 0, s)
    else
      let queueDepth := from_option (fun q => Z.of_nat (length q.(items))) 0 queue in
      if (s.(maxConversationPending) <=? queueDepth) && negb bypass
      then (rejected ErrConversationPending "conversation_pending_limit" queueDepth, s)
      else if turn.(turn_retryable) then enqueue_turn turn now s
      else
        match ClaimIngress fault now turn.(turn_source) turn.(turn_eventID) now s.(trace) with
        | (Err err, db) => (refused err, s <| trace := db |>)
        | (Ok false, db) =>
            (mkSubmission (Ok false) (Some (trace_of turn now TraceIngressDuplicate "ignored" 0 0)) None,
             s <| trace := db |>)
        | (Ok true, db) => enqueue_turn turn now (s <| trace := db |>)
        end.

(** the checks and draws before it; [draw1] and [draw2] come from crypto/rand *)
Definition prepare_turn (draw1 draw2 : option string) (turn : scheduledTurn) : result scheduledTurn :=
  if bool_decide (turn.(turn_source) = "") || bool_decide (turn.(turn_eventID) = "")
     || bool_decide (turn.(turn_conversationID) = "") || bool_decide (turn.(turn_run) = None)
  then Err "invalid Fairy scheduled turn"
  else match newRuntimeID draw1 "trace" with
       | Err err => Err err
       | Ok traceID =>
           match newRuntimeID draw2 "turn" with
           | Err err => Err err
           | Ok turnID => Ok (turn <| turn_traceID := traceID |> <| turn_turnID := turnID |>)
           end
       end.

(** ** The other operations *)

Definition Cancel (conversationID : string) (cause : option string) s : bool * ConversationScheduler :=
  match s.(queues) !! conversationID with
  | None => (false, s)
  | Some p => match (queue_at p s).(currentCancel) with
              | None => (false, s)
              | Some ctx => (true, cancel ctx (default Canceled cause) s)
              end
  end.

Record SchedulerStats := mkSchedulerStats {
  Stats_Accepting : bool; Stats_Pending : Z; Stats_Conversations : Z; Stats_Active : Z;
  Stats_MaxPending : Z; Stats_MaxConcurrent : Z; Stats_MaxConversation : Z }.
Definition Stats s : SchedulerStats :=
  mkSchedulerStats s.(accepting) s.(pending) (Z.of_nat (size s.(queues))) s.(slots)
    s.(maxPending) s.(maxConcurrent) s.(maxConversationPending).

Definition CloseAdmission s : ConversationScheduler := s <| accepting := false |>.

(** the queue is emptied and leaves the table *)
Definition discardQueue (conversationID : string) (p : nat) s : ConversationScheduler :=
  let q := queue_at p s in
  (set_queue p (q <| items := [] |> <| running := false |>) s)
    <| pending ::= fun n => n - Z.of_nat (length q.(items)) |>
    <| queues ::= delete conversationID |>.

(** the next turn and its context; [None] when the actor is to end *)
Definition nextTurn (conversationID : string) (p : nat) s
  : option (scheduledTurn * nat) * ConversationScheduler :=
  match s.(lifecycle) with
  | Some _ => (None, discardQueue conversationID p s)
  | None =>
      let q := queue_at p s in
      match q.(items) with
      | [] => (None, (set_queue p (q <| running := false |>) s) <| queues ::= delete conversationID |>)
      | turn :: rest =>
          let q := q <| items := rest |> in
          let q := if turn.(turn_priority) then q <| controlQueued := false |> else q in
          let ctx := fresh (dom s.(contexts)) in
          (Some (turn, ctx),
           (set_queue p (q <| currentCancel := Some ctx |>) s)
             <| pending ::= Z.pred |> <| contexts ::= <[ctx := None]> |>)
      end
  end.

(** the cause of the turn's context; the context ends, with the turn *)
Definition finish (p ctx : nat) s : option string * ConversationScheduler :=
  (s.(contexts) !! ctx ≫= id,
   cancel ctx Canceled (set_queue p ((queue_at p s) <| currentCancel := None |>) s)).

(** the trace of a finished turn *)
Definition turn_outcome (cause : option string) : string * string :=
  match cause with
  | None => (TraceTurnCompleted, "completed")
  | Some err => if bool_decide (err = ErrTurnStoppedByUser) then (TraceTurnCancelled, "user_cancelled")
                else if bool_decide (err = DeadlineExceeded) then (TraceTurnTimedOut, "deadline_exceeded")
                else (TraceTurnCancelled, "runtime_cancelled")
  end.

(** ** Interleaving *)

Definition at_goroutine (t : nat) (g : goroutine) s : ConversationScheduler :=
  s <| goroutines ::= <[t := g]> |>.
Definition spawn (g : goroutine) s : ConversationScheduler :=
  s <| goroutines ::= fun l => l ++ [g] |>.

(** what a step shows: a turn was admitted, started, or dropped unrun *)
Inductive label :=
| Accepted (turn : scheduledTurn)
| Started (turn : scheduledTurn)
| Internal.

Section steps.
Context `{Runtime}.

(** appendTrace: a failure is only logged *)
Definition append_trace (fault : faults) (now : time) (event : TraceEvent) s : ConversationScheduler :=
  s <| trace := (Append fault now event s.(trace)).2 |>.

Definition started_trace (now : time) (turn : scheduledTurn) : TraceEvent :=
  trace_event now TraceTurnStarted turn.(turn_traceID) turn.(turn_turnID)
    turn.(turn_conversationID) turn.(turn_source) "running".
Definition finished_trace (now : time) (turn : scheduledTurn) (cause : option string) : TraceEvent :=
  trace_event now (turn_outcome cause).1 turn.(turn_traceID) turn.(turn_turnID)
    turn.(turn_conversationID) turn.(turn_source) (turn_outcome cause).2.

(** what a submitter does after the critical section *)
Definition after_submit (sub : submission) s : ConversationScheduler :=
  match sub.(sub_trace) with
  | Some event => spawn (Submitted event sub.(sub_start)) s
  | None => s
  end.

Inductive sched_step : ConversationScheduler -> label -> ConversationScheduler -> Prop :=
| step_submit fault now turn0 draw1 draw2 turn sub s s' :
    prepare_turn draw1 draw2 turn0 = Ok turn ->
    submit_locked fault now turn s = (sub, s') ->
    sched_step s (if bool_decide (sub.(sub_result) = Ok true) then Accepted turn else Internal)
      (after_submit sub s')
| step_submitted t event start fault now s :
    s.(goroutines) !! t = Some (Submitted event start) ->
    sched_step s Internal
      (at_goroutine t (match start with Some (c, p) => AwaitSlot c p | None => Done end)
         (append_trace fault now event s))
| step_take_slot t c p s :
    s.(goroutines) !! t = Some (AwaitSlot c p) -> s.(slots) < s.(maxConcurrent) ->
    sched_step s Internal (at_goroutine t (NextTurn c p) (s <| slots ::= Z.succ |>))
| step_no_slot t c p s :
    s.(goroutines) !! t = Some (AwaitSlot c p) -> is_Some s.(lifecycle) ->
    sched_step s Internal (at_goroutine t (Discarding c p) s)
| step_discard t c p s :
    s.(goroutines) !! t = Some (Discarding c p) ->
    sched_step s Internal (at_goroutine t Leaving (discardQueue c p s))
| step_next t c p turn ctx s s' :
    s.(goroutines) !! t = Some (NextTurn c p) -> nextTurn c p s = (Some (turn, ctx), s') ->
    sched_step s (Started turn) (at_goroutine t (Starting c p turn ctx) s')
| step_no_next t c p s s' :
    s.(goroutines) !! t = Some (NextTurn c p) -> nextTurn c p s = (None, s') ->
    sched_step s Internal (at_goroutine t Releasing s')
| step_start t c p turn ctx fault now s :
    s.(goroutines) !! t = Some (Starting c p turn ctx) ->
    sched_step s Internal
      (at_goroutine t (Running c p turn ctx) (append_trace fault now (started_trace now turn) s))
| step_timeout ctx s :
    sched_step s Internal (cancel ctx DeadlineExceeded s)
| step_finish t c p turn ctx cause s s' :
    s.(goroutines) !! t = Some (Running c p turn ctx) -> finish p ctx s = (cause, s') ->
    sched_step s Internal (at_goroutine t (Finished c p turn cause) s')
| step_finished t c p turn cause fault now s :
    s.(goroutines) !! t = Some (Finished c p turn cause) ->
    sched_step s Internal
      (at_goroutine t (NextTurn c p) (append_trace fault now (finished_trace now turn cause) s))
| step_release t s :
    s.(goroutines) !! t = Some Releasing ->
    sched_step s Internal (at_goroutine t Leaving (s <| slots ::= Z.pred |>))
| step_leave t s :
    s.(goroutines) !! t = Some Leaving ->
    sched_step s Internal (at_goroutine t Done (s <| wait ::= Z.pred |>))
| step_cancel conversationID cause b s s' :
    Cancel conversationID cause s = (b, s') -> sched_step s Internal s'
| step_shutdown s :
    sched_step s Internal (spawn Closing (CloseAdmission s))
| step_drained t s :
    s.(goroutines) !! t = Some Closing -> s.(wait) = 0 ->
    sched_step s Internal (at_goroutine t (Closed false) s)
| step_force t s :
    s.(goroutines) !! t = Some Closing ->
    sched_step s Internal (at_goroutine t Forced (cancelLifecycle ErrSchedulerShuttingDown s))
| step_forced t s :
    s.(goroutines) !! t = Some Forced -> s.(wait) = 0 ->
    sched_step s Internal (at_goroutine t (Closed true) s).

(** an execution and what it showed *)
Inductive execution (s0 : ConversationScheduler) : list label -> ConversationScheduler -> Prop :=
| exec_nil : execution s0 [] s0
| exec_step ls l s s' : execution s0 ls s -> sched_step s l s' -> execution s0 (ls ++ [l]) s'.
End steps.
