(* ===== verification/FairySchedulerFacts.v ===== *)
(** * The scheduler's invariant

    [core_ok] speaks of the table, the queues and the counters, [actors_ok] of the
    goroutines: a queue of the table has exactly one actor, which alone uses it, and
    the counters of slots and of the wait group count goroutines.  Both hold in every
    execution. *)
From S2P Require Import Prelude GoLib Types FairyTypes FairyTrace FairyScheduler.
From stdpp Require Import gmap strings list.
From Stdlib Require Import ZArith.

Local Open Scope Z_scope.
Local Open Scope go_scope.

Definition b2z (b : bool) : Z := if b then 1 else 0.

(** ** Queues *)

Definition queued (q : conversationQueue) : Z := Z.of_nat (length q.(items)).
(** a control turn waits at the head *)
Definition flagged (q : conversationQueue) : bool :=
  q.(controlQueued) && negb (bool_decide (q.(items) = [])).

Record shape (max : Z) (c : string) (q : conversationQueue) : Prop := {
  sh_conv : Forall (fun t => t.(turn_conversationID) = c) q.(items);
  sh_order : exists a b, q.(items) = a ++ b /\ Forall (fun t => t.(turn_priority) = true) a
    /\ Forall (fun t => t.(turn_priority) = false) b;
  sh_head : q.(controlQueued) = true ->
    exists t r, q.(items) = t :: r /\ t.(turn_priority) = true;
  sh_len : queued q <= max + b2z q.(controlQueued) }.

Record core_ok s : Prop := {
  co_inj : forall c c' p, s.(queues) !! c = Some p -> s.(queues) !! c' = Some p -> c = c';
  co_known : forall c p, s.(queues) !! c = Some p -> exists q, s.(queue_heap) !! p = Some q
    /\ q.(running) = true /\ shape s.(maxConversationPending) c q;
  co_dead : forall p q, s.(queue_heap) !! p = Some q ->
    (forall c, s.(queues) !! c <> Some p) -> q.(items) = [];
  co_pending : s.(pending) = map_total (fun _ q => queued q) s.(queue_heap);
  co_limit : s.(pending) <= s.(maxPending) + map_total (fun _ q => b2z (flagged q)) s.(queue_heap) }.

(** ** Goroutines *)

(** the queue a goroutine serves *)
Definition actor_of (g : goroutine) : option (string * nat) :=
  match g with
  | Submitted _ start => start
  | AwaitSlot c p | Discarding c p | NextTurn c p => Some (c, p)
  | Starting c p _ _ | Running c p _ _ | Finished c p _ _ => Some (c, p)
  | _ => None
  end.
Definition serves (p : nat) (g : goroutine) : bool :=
  from_option (fun a : string * nat => bool_decide (a.2 = p)) false (actor_of g).
(** the context of the turn it runs *)
Definition ctx_of (g : goroutine) : option nat :=
  match g with Starting _ _ _ ctx | Running _ _ _ ctx => Some ctx | _ => None end.
Definition has_slot (g : goroutine) : bool :=
  match g with
  | NextTurn _ _ | Starting _ _ _ _ | Running _ _ _ _ | Finished _ _ _ _ | Releasing => true
  | _ => false
  end.
(** counted by the wait group *)
Definition alive (g : goroutine) : bool :=
  match g with Releasing | Leaving => true | _ => bool_decide (is_Some (actor_of g)) end.

Definition cancel_at s (p : nat) : option nat := s.(queue_heap) !! p ≫= currentCancel.

Record actors_ok s : Prop := {
  ao_registered : forall t g c p, s.(goroutines) !! t = Some g -> actor_of g = Some (c, p) ->
    s.(queues) !! c = Some p;
  ao_served : forall c p, s.(queues) !! c = Some p -> count (serves p) s.(goroutines) = 1;
  ao_cancel : forall t g c p, s.(goroutines) !! t = Some g -> actor_of g = Some (c, p) ->
    cancel_at s p = ctx_of g;
  ao_slots : s.(slots) = count has_slot s.(goroutines);
  ao_max : s.(slots) <= s.(maxConcurrent);
  ao_wait : s.(wait) = count alive s.(goroutines) }.

Lemma serves_actor p g : serves p g = true <-> exists c, actor_of g = Some (c, p).
Proof.
  unfold serves. destruct (actor_of g) as [[c p']|]; simpl.
  - rewrite bool_decide_eq_true. split; [intros ->; eauto|by intros (? & [= -> ->])].
  - split; [done|by intros (? & ?)].
Qed.

(** two goroutines that serve the same queue are the same *)
Lemma same_actor s t t' g g' c c' p :
  actors_ok s -> s.(goroutines) !! t = Some g -> s.(goroutines) !! t' = Some g' ->
  actor_of g = Some (c, p) -> actor_of g' = Some (c', p) -> t = t'.
Proof.
  intros Hok Ht Ht' Ha Ha'. destruct (decide (t = t')) as [|Hne]; [done|exfalso].
  pose proof (ao_served _ Hok _ _ (ao_registered _ Hok _ _ _ _ Ht Ha)) as Hc.
  pose proof (count_two (serves p) _ _ _ _ _ Ht Ht' Hne
    (proj2 (serves_actor _ _) (ex_intro _ _ Ha)) (proj2 (serves_actor _ _) (ex_intro _ _ Ha'))). lia.
Qed.

(** ** Moving a goroutine on *)

(** its actor stays the same, or there is none *)
Lemma move_ok s s' t g g' :
  actors_ok s -> s.(goroutines) !! t = Some g ->
  s'.(goroutines) = <[t := g']> s.(goroutines) -> s'.(queues) = s.(queues) ->
  actor_of g' = actor_of g ->
  (forall c p, actor_of g = Some (c, p) -> cancel_at s' p = ctx_of g') ->
  (forall p, serves p g = false -> cancel_at s' p = cancel_at s p) ->
  s'.(slots) = s.(slots) - b2z (has_slot g) + b2z (has_slot g') -> s'.(slots) <= s'.(maxConcurrent) ->
  s'.(wait) = s.(wait) - b2z (alive g) + b2z (alive g') ->
  actors_ok s'.
Proof.
  intros Hok Ht Hg Hq Ha Hown Hother Hslots Hmax Hwait.
  assert (Hsv : forall p, serves p g' = serves p g) by (intros p; unfold serves; by rewrite Ha).
  split; try done; rewrite ?Hg, ?Hq.
  - intros t' g0 c p [(-> & <- & _)|[_ Ht']]%list_lookup_insert_Some Hact.
    + rewrite Ha in Hact. by eapply ao_registered.
    + by eapply ao_registered.
  - intros c p Hp. rewrite (count_insert _ _ _ _ _ Ht), Hsv.
    rewrite (ao_served _ Hok _ _ Hp). lia.
  - intros t' g0 c p [(-> & <- & _)|[Hne Ht']]%list_lookup_insert_Some Hact.
    + rewrite Ha in Hact. by eapply Hown.
    + rewrite Hother; [by eapply ao_cancel|]. destruct (serves p g) eqn:E; [exfalso|done].
      apply serves_actor in E as [c' E]. by eapply Hne, (same_actor s t t').
  - rewrite (count_insert _ _ _ _ _ Ht), Hslots, (ao_slots _ Hok). unfold b2z. lia.
  - rewrite (count_insert _ _ _ _ _ Ht), Hwait, (ao_wait _ Hok). unfold b2z. lia.
Qed.

(** the actor ends and its queue leaves the table *)
Lemma end_ok s s' t g g' c p :
  actors_ok s -> core_ok s -> s.(goroutines) !! t = Some g -> actor_of g = Some (c, p) ->
  s'.(goroutines) = <[t := g']> s.(goroutines) -> s'.(queues) = delete c s.(queues) ->
  actor_of g' = None ->
  (forall p', p' <> p -> cancel_at s' p' = cancel_at s p') ->
  s'.(slots) = s.(slots) - b2z (has_slot g) + b2z (has_slot g') -> s'.(slots) <= s'.(maxConcurrent) ->
  s'.(wait) = s.(wait) - b2z (alive g) + b2z (alive g') ->
  actors_ok s'.
Proof.
  intros Hok Hco Ht Hact Hg Hq Ha Hother Hslots Hmax Hwait.
  pose proof (ao_registered _ Hok _ _ _ _ Ht Hact) as Hreg.
  assert (Hne : forall t' g0 c' p', t <> t' -> s.(goroutines) !! t' = Some g0 ->
    actor_of g0 = Some (c', p') -> p' <> p /\ c <> c').
  { intros t' g0 c' p' Hne Ht' Ha0. assert (Hp : p' <> p) by (intros ->; eapply Hne, (same_actor s t t'); done).
    split; [done|]. intros <-. apply Hp. pose proof (ao_registered _ Hok _ _ _ _ Ht' Ha0). congruence. }
  split; try done; rewrite ?Hg, ?Hq.
  - intros t' g0 c' p' [(-> & <- & _)|[Hn Ht']]%list_lookup_insert_Some Hact'; [by rewrite Ha in Hact'|].
    destruct (Hne _ _ _ _ Hn Ht' Hact'). rewrite lookup_delete_ne by done. by eapply ao_registered.
  - intros c' p' [Hc Hp']%lookup_delete_Some. rewrite (count_insert _ _ _ _ _ Ht), (ao_served _ Hok _ _ Hp').
    assert (Hpp : p' <> p) by (intros ->; by eapply Hc, (co_inj _ Hco)).
    unfold serves. rewrite Hact, Ha. simpl. rewrite bool_decide_false by congruence. lia.
  - intros t' g0 c' p' [(-> & <- & _)|[Hn Ht']]%list_lookup_insert_Some Hact'; [by rewrite Ha in Hact'|].
    destruct (Hne _ _ _ _ Hn Ht' Hact'). rewrite Hother by done. by eapply ao_cancel.
  - rewrite (count_insert _ _ _ _ _ Ht), Hslots, (ao_slots _ Hok). unfold b2z. lia.
  - rewrite (count_insert _ _ _ _ _ Ht), Hwait, (ao_wait _ Hok). unfold b2z. lia.
Qed.

(** a goroutine that serves no queue is added *)
Lemma spawn_ok s s' g :
  actors_ok s -> actor_of g = None -> has_slot g = false -> alive g = false ->
  s'.(goroutines) = s.(goroutines) ++ [g] -> s'.(queues) = s.(queues) ->
  (forall p, cancel_at s' p = cancel_at s p) ->
  s'.(slots) = s.(slots) -> s'.(maxConcurrent) = s.(maxConcurrent) -> s'.(wait) = s.(wait) ->
  actors_ok s'.
Proof.
  intros Hok Ha Hs Hl Hg Hq Hc H1 H2 H3. split; rewrite ?Hg, ?Hq, ?H1, ?H2, ?H3.
  - intros t g0 c p [Ht|[_ [_ [= <-]]%list_lookup_singleton_Some]]%lookup_app_Some Hact;
      [by eapply ao_registered|congruence].
  - intros c p Hp. rewrite count_app, (ao_served _ Hok _ _ Hp), count_singleton. unfold serves.
    by rewrite Ha.
  - intros t g0 c p [Ht|[_ [_ [= <-]]%list_lookup_singleton_Some]]%lookup_app_Some Hact; [|congruence].
    rewrite Hc. by eapply ao_cancel.
  - rewrite count_app, count_singleton, Hs, (ao_slots _ Hok). lia.
  - apply (ao_max _ Hok).
  - rewrite count_app, count_singleton, Hl, (ao_wait _ Hok). lia.
Qed.

(** ** Critical sections *)

Notation queued_total s := (map_total (fun _ q => queued q) s.(queue_heap)).
Notation flagged_total s := (map_total (fun _ q => b2z (flagged q)) s.(queue_heap)).

Lemma b2z_range b : 0 <= b2z b <= 1.
Proof. destruct b; simpl; lia. Qed.
Lemma queued_nonneg q : 0 <= queued q.
Proof. unfold queued. lia. Qed.
Lemma flagged_queued q : b2z (flagged q) <= queued q.
Proof.
  unfold flagged, queued. destruct (controlQueued q); simpl; [|lia]. case_bool_decide; simpl; [lia|].
  destruct (items q); [done|simpl; lia].
Qed.

(** a queue of the table changes *)
Lemma core_update s s' c p q q' :
  core_ok s -> s.(queues) !! c = Some p -> s.(queue_heap) !! p = Some q ->
  s'.(queues) = s.(queues) -> s'.(queue_heap) = <[p := q']> s.(queue_heap) ->
  s'.(maxPending) = s.(maxPending) -> s'.(maxConversationPending) = s.(maxConversationPending) ->
  q'.(running) = true -> shape s.(maxConversationPending) c q' ->
  s'.(pending) = s.(pending) - queued q + queued q' ->
  s'.(pending) <= s.(maxPending) + flagged_total s - b2z (flagged q) + b2z (flagged q') ->
  core_ok s'.
Proof.
  intros Hok Hc Hp Hq Hh Hm Hmc Hr Hsh Hpend Hlim.
  split; rewrite ?Hq, ?Hh, ?Hm, ?Hmc.
  - apply (co_inj _ Hok).
  - intros c' p' Hc'. destruct (decide (p' = p)) as [->|Hne].
    + assert (c' = c) as -> by by eapply (co_inj _ Hok). exists q'. by rewrite lookup_insert_eq.
    + rewrite lookup_insert_ne by done. by apply (co_known _ Hok).
  - intros p' q0 [[<- <-]|[Hne Hp']]%lookup_insert_Some Hdead; [by apply Hdead in Hc|].
    by eapply (co_dead _ Hok).
  - rewrite Hpend, (co_pending _ Hok), (map_total_update _ _ _ _ _ Hp). lia.
  - rewrite (map_total_update _ _ _ _ _ Hp). lia.
Qed.

(** a new queue enters the table *)
Lemma core_new s s' c p q' :
  core_ok s -> s.(queues) !! c = None -> s.(queue_heap) !! p = None ->
  s'.(queues) = <[c := p]> s.(queues) -> s'.(queue_heap) = <[p := q']> s.(queue_heap) ->
  s'.(maxPending) = s.(maxPending) -> s'.(maxConversationPending) = s.(maxConversationPending) ->
  q'.(running) = true -> shape s.(maxConversationPending) c q' ->
  s'.(pending) = s.(pending) + queued q' ->
  s'.(pending) <= s.(maxPending) + flagged_total s + b2z (flagged q') ->
  core_ok s'.
Proof.
  intros Hok Hc Hp Hq Hh Hm Hmc Hr Hsh Hpend Hlim.
  assert (Hfresh : forall c', s.(queues) !! c' <> Some p).
  { intros c' (q & Hp' & _)%(co_known _ Hok). congruence. }
  split; rewrite ?Hq, ?Hh, ?Hm, ?Hmc.
  - intros c1 c2 p' H1 H2. rewrite lookup_insert_Some in H1, H2.
    destruct H1 as [[<- <-]|[_ H1]], H2 as [[<- H2]|[_ H2]]; [done| | |by eapply (co_inj _ Hok)].
    + by apply Hfresh in H2.
    + subst p'. by apply Hfresh in H1.
  - intros c' p' [[<- <-]|[Hne Hc']]%lookup_insert_Some.
    + exists q'. by rewrite lookup_insert_eq.
    + rewrite lookup_insert_ne; [by apply (co_known _ Hok)|]. intros <-. by apply Hfresh in Hc'.
  - intros p' q0 [[<- <-]|[Hne Hp']]%lookup_insert_Some Hdead.
    + destruct (Hdead c). by rewrite lookup_insert_eq.
    + eapply (co_dead _ Hok); [done|]. intros c' Hc'. apply (Hdead c').
      rewrite lookup_insert_ne; [done|]. intros <-. congruence.
  - rewrite Hpend, (co_pending _ Hok), map_total_insert by done. lia.
  - rewrite map_total_insert by done. lia.
Qed.

(** a queue is emptied and leaves the table *)
Lemma core_remove s s' c p q q' :
  core_ok s -> s.(queues) !! c = Some p -> s.(queue_heap) !! p = Some q ->
  s'.(queues) = delete c s.(queues) -> s'.(queue_heap) = <[p := q']> s.(queue_heap) ->
  s'.(maxPending) = s.(maxPending) -> s'.(maxConversationPending) = s.(maxConversationPending) ->
  q'.(items) = [] -> s'.(pending) = s.(pending) - queued q ->
  core_ok s'.
Proof.
  intros Hok Hc Hp Hq Hh Hm Hmc Hi Hpend.
  assert (Hne : forall c' p', c <> c' -> s.(queues) !! c' = Some p' -> p <> p').
  { intros c' p' Hcc Hc' ->. by eapply Hcc, (co_inj _ Hok). }
  assert (Hz : queued q' = 0 /\ flagged q' = false).
  { unfold queued, flagged. rewrite Hi. split; [done|]. by destruct (controlQueued q'). }
  split; rewrite ?Hq, ?Hh, ?Hm, ?Hmc.
  - intros c1 c2 p' [_ H1]%lookup_delete_Some [_ H2]%lookup_delete_Some. by eapply (co_inj _ Hok).
  - intros c' p' [Hcc Hc']%lookup_delete_Some. rewrite lookup_insert_ne by by eapply Hne.
    by apply (co_known _ Hok).
  - intros p' q0 [[<- <-]|[Hpp Hp']]%lookup_insert_Some Hdead; [done|].
    eapply (co_dead _ Hok); [done|]. intros c' Hc'. apply (Hdead c').
    rewrite lookup_delete_ne; [done|]. intros <-. congruence.
  - rewrite Hpend, (co_pending _ Hok), (map_total_update _ _ _ _ _ Hp). lia.
  - rewrite (map_total_update _ _ _ _ _ Hp), Hpend. destruct Hz as [_ ->]. simpl.
    pose proof (co_limit _ Hok). pose proof (flagged_queued q). lia.
Qed.

(** what the invariant does not look at *)
Lemma core_same s s' :
  core_ok s -> s'.(queues) = s.(queues) -> s'.(queue_heap) = s.(queue_heap) ->
  s'.(pending) = s.(pending) -> s'.(maxPending) = s.(maxPending) ->
  s'.(maxConversationPending) = s.(maxConversationPending) -> core_ok s'.
Proof.
  intros [H1 H2 H3 H4 H5] E1 E2 E3 E4 E5. split; by rewrite ?E1, ?E2, ?E3, ?E4, ?E5.
Qed.

(** ** Admission *)

Lemma stop_current_same turn q s :
  queue_heap (stop_current turn q s) = s.(queue_heap) /\ queues (stop_current turn q s) = s.(queues)
  /\ pending (stop_current turn q s) = s.(pending) /\ wait (stop_current turn q s) = s.(wait)
  /\ goroutines (stop_current turn q s) = s.(goroutines) /\ slots (stop_current turn q s) = s.(slots)
  /\ maxConcurrent (stop_current turn q s) = s.(maxConcurrent)
  /\ maxPending (stop_current turn q s) = s.(maxPending)
  /\ maxConversationPending (stop_current turn q s) = s.(maxConversationPending)
  /\ lifecycle (stop_current turn q s) = s.(lifecycle)
  /\ accepting (stop_current turn q s) = s.(accepting).
Proof. unfold stop_current. destruct (turn_priority turn), (currentCancel q); done. Qed.

Lemma queue_at_known p q s : s.(queue_heap) !! p = Some q -> queue_at p s = q.
Proof. unfold queue_at. by intros ->. Qed.

(** joining a queue that has an actor *)
Lemma enqueue_existing turn now s p q :
  s.(queues) !! turn.(turn_conversationID) = Some p -> s.(queue_heap) !! p = Some q ->
  q.(running) = true ->
  exists trace, enqueue_turn turn now s
    = (mkSubmission (Ok true) (Some trace) None,
       set_queue p (join_queue turn q) ((stop_current turn q s) <| pending ::= Z.succ |>)).
Proof.
  intros Hc Hp Hr. unfold enqueue_turn. rewrite Hc, (queue_at_known _ _ _ Hp).
  destruct (stop_current_same turn q s) as (Eh & _).
  rewrite (queue_at_known p q (stop_current turn q s)) by by rewrite Eh.
  assert (Hj : running (join_queue turn q) = true) by (unfold join_queue; by destruct (turn_priority turn)).
  cbv zeta. rewrite Hj. eexists. f_equal. f_equal. unfold join_queue. destruct q, (turn_priority turn); simpl in *; by subst.
Qed.

(** opening a queue *)
Definition first_queue (turn : scheduledTurn) : conversationQueue :=
  (join_queue turn (mkQueue [] false false None)) <| running := true |>.
Lemma enqueue_new turn now s :
  s.(queues) !! turn.(turn_conversationID) = None ->
  let p := fresh (dom s.(queue_heap)) in
  exists trace, enqueue_turn turn now s
    = (mkSubmission (Ok true) (Some trace) (Some (turn.(turn_conversationID), p)),
       (set_queue p (first_queue turn) s) <| queues ::= <[turn.(turn_conversationID) := p]> |>
         <| pending ::= Z.succ |> <| wait ::= Z.succ |>).
Proof.
  intros Hc p. unfold enqueue_turn. rewrite Hc. fold p. cbv zeta.
  set (s1 := (set_queue p _ s) <| queues ::= _ |>).
  assert (Hq : queue_at p s1 = mkQueue [] false false None).
  { apply queue_at_known. simpl. apply lookup_insert_eq. }
  assert (Hs : stop_current turn (queue_at p s1) s1 = s1).
  { rewrite Hq. unfold stop_current. by destruct (turn_priority turn). }
  rewrite Hs, Hq. assert (Hj : running (join_queue turn (mkQueue [] false false None)) = false).
  { unfold join_queue. by destruct (turn_priority turn). }
  rewrite Hj. eexists. f_equal. unfold s1, set_queue. destruct s; simpl. unfold field_update. simpl.
  f_equal. apply insert_insert_eq.
Qed.

Lemma shape_join max c turn q :
  shape max c q -> turn.(turn_conversationID) = c ->
  queued q < max \/ turn.(turn_priority) = true /\ q.(controlQueued) = false ->
  shape max c (join_queue turn q).
Proof.
  intros [H1 (a & b & Hi & Ha & Hb) H3 H4] Hc Hroom. unfold join_queue.
  destruct (turn_priority turn) eqn:Ep; split; cbn [items controlQueued queued b2z].
  - by constructor.
  - exists (turn :: a), b. cbn. rewrite Hi. split; [done|]. split; [by constructor|done].
  - intros _. by exists turn, q.(items).
  - unfold queued in *. cbn [items length field_update]. destruct Hroom as [|[_ Hf]]; [|rewrite Hf in H4];
      pose proof (b2z_range (controlQueued q)); cbn in *; lia.
  - apply Forall_app. split; [done|by repeat constructor].
  - exists a, (b ++ [turn]). cbn. rewrite Hi, app_assoc. split; [done|]. split; [done|].
    apply Forall_app. split; [done|by repeat constructor].
  - intros Hq. destruct (H3 Hq) as (t & r & Ht & Hp). exists t, (r ++ [turn]). cbn. by rewrite Ht.
  - destruct Hroom as [Hroom|[? _]]; [|done]. unfold queued in *. cbn. rewrite length_app. cbn [length].
    pose proof (b2z_range (controlQueued q)). unfold b2z in *. lia.
Qed.

Lemma queued_join turn q : queued (join_queue turn q) = queued q + 1.
Proof. unfold queued, join_queue. destruct (turn_priority turn); cbn; rewrite ?length_app; cbn; lia. Qed.

(** the test of Submit: there is room, or the turn is a control turn that may jump in *)
Definition admissible (turn : scheduledTurn) s : Prop :=
  let queue := s.(queues) !! turn.(turn_conversationID) ≫= fun p => s.(queue_heap) !! p in
  let bypass := priorityBypass turn queue in
  (s.(pending) < s.(maxPending) \/ bypass = true)
  /\ (from_option queued 0 queue < s.(maxConversationPending) \/ bypass = true).

Lemma submit_locked_cases fault now turn s sub s' :
  submit_locked fault now turn s = (sub, s') ->
  (sub.(sub_result) <> Ok true /\ sub.(sub_start) = None /\ exists db, s' = s <| trace := db |>)
  \/ (s.(accepting) = true /\ admissible turn s
      /\ exists db, (sub, s') = enqueue_turn turn now (s <| trace := db |>)
         /\ (turn.(turn_retryable) = false -> exists fault,
               ClaimIngress fault now turn.(turn_source) turn.(turn_eventID) now s.(trace) = (Ok true, db))).
Proof.
  assert (Hid : s <| trace := s.(trace) |> = s) by by destruct s.
  unfold submit_locked. destruct (accepting s) eqn:Ea; cbn [negb].
  2:{ intros [= <- <-]. left. do 2 (split; [done|]). by exists s.(trace). }
  cbv zeta. set (queue := s.(queues) !! _ ≫= _).
  destruct (_ && negb (priorityBypass turn queue)) eqn:E1.
  { intros [= <- <-]. left. do 2 (split; [done|]). by exists s.(trace). }
  destruct ((s.(maxConversationPending) <=? _) && negb (priorityBypass turn queue)) eqn:E2.
  { intros [= <- <-]. left. do 2 (split; [done|]). by exists s.(trace). }
  assert (Hadm : admissible turn s).
  { unfold admissible. fold queue. cbv zeta. unfold queued. destruct (priorityBypass turn queue); [tauto|].
    rewrite andb_true_r in E1, E2. apply Z.leb_gt in E1, E2. tauto. }
  destruct (turn_retryable turn) eqn:Er.
  - intros Hs. right. do 2 (split; [done|]). exists s.(trace). rewrite Hid. by split.
  - destruct (ClaimIngress _ _ _ _ _ _) as [[[|]|err] db] eqn:Ecl.
    + intros Hs. right. do 2 (split; [done|]). exists db. split; [done|]. intros _. by exists fault.
    + intros [= <- <-]. left. do 2 (split; [done|]). by exists db.
    + intros [= <- <-]. left. do 2 (split; [done|]). by exists db.
Qed.

(** admission keeps the invariants *)
Lemma enqueue_ok turn now s :
  core_ok s -> actors_ok s -> admissible turn s ->
  core_ok (enqueue_turn turn now s).2
  /\ actors_ok (after_submit (enqueue_turn turn now s).1 (enqueue_turn turn now s).2).
Proof.
  intros Hco Hao [Hroom Hdepth]. destruct (s.(queues) !! turn.(turn_conversationID)) as [p|] eqn:Ec.
  - destruct (co_known _ Hco _ _ Ec) as (q & Eq & Hr & Hsh). simpl in Hroom, Hdepth. rewrite Eq in Hroom, Hdepth.
    destruct (enqueue_existing turn now s p q Ec Eq Hr) as (tr & ->). cbn [fst snd].
    destruct (stop_current_same turn q s) as (S1 & S2 & S3 & S4 & S5 & S6 & S7 & S8 & S9 & _).
    assert (Hj : running (join_queue turn q) = true) by (unfold join_queue; by destruct (turn_priority turn)).
    assert (Hc' : currentCancel (join_queue turn q) = currentCancel q)
      by (unfold join_queue; by destruct (turn_priority turn)).
    split.
    + eapply (core_update s); cbn; rewrite ?S1, ?S2, ?S3, ?S8, ?S9; try done.
      * apply shape_join; [done..|]. destruct Hdepth as [|Hb]; [by left|right].
        unfold priorityBypass in Hb. rewrite !andb_true_iff, negb_true_iff in Hb. tauto.
      * rewrite queued_join. lia.
      * pose proof (map_total_le (fun _ q => b2z (flagged q)) _ p q
          ltac:(intros ? x _; apply b2z_range) Eq) as Hle. simpl in Hle.
        pose proof (b2z_range (flagged (join_queue turn q))). destruct Hroom as [|Hb]; [lia|].
        unfold priorityBypass in Hb. rewrite !andb_true_iff, negb_true_iff in Hb.
        destruct Hb as [[Hp _] Hf]. assert (flagged q = false) as -> by (unfold flagged; by rewrite Hf).
        assert (flagged (join_queue turn q) = true) as -> by (unfold join_queue; by rewrite Hp).
        pose proof (co_limit _ Hco). simpl. lia.
    + eapply (spawn_ok s _ (Submitted tr None)); cbn; rewrite ?S2, ?S4, ?S5, ?S6, ?S7; try done.
      intros p'. unfold cancel_at. cbn. rewrite S1. destruct (decide (p' = p)) as [->|].
      * by rewrite lookup_insert_eq, Eq.
      * by rewrite lookup_insert_ne.
  - simpl in Hroom, Hdepth. destruct Hroom as [Hroom|]; [|done]. destruct Hdepth as [Hdepth|]; [|done].
    set (p := fresh (dom s.(queue_heap))).
    assert (Hp : s.(queue_heap) !! p = None) by apply not_elem_of_dom, is_fresh.
    destruct (enqueue_new turn now s Ec) as (tr & ->). fold p. cbn [fst snd].
    assert (Hsh : shape s.(maxConversationPending) (turn_conversationID turn) (first_queue turn)).
    { destruct (shape_join s.(maxConversationPending) (turn_conversationID turn) turn
        (mkQueue [] false false None)) as [K1 K2 K3 K4]; [|done|by left|by split].
      split; cbn; [constructor|by exists [], []|done|unfold queued; cbn; lia]. }
    assert (Hcn : currentCancel (first_queue turn) = None)
      by (unfold first_queue, join_queue; by destruct (turn_priority turn)).
    split.
    + eapply (core_new s); cbn; try done.
      * unfold first_queue. change (queued (_ <| running := true |>)) with
          (queued (join_queue turn (mkQueue [] false false None))). rewrite queued_join. done.
      * pose proof (map_total_nonneg (fun _ q => b2z (flagged q)) s.(queue_heap)
          ltac:(intros ? x _; apply b2z_range)). pose proof (b2z_range (flagged (first_queue turn))). lia.
    + assert (Hunused : forall t g c p', s.(goroutines) !! t = Some g -> actor_of g = Some (c, p') ->
        p' <> p /\ c <> turn_conversationID turn).
      { intros t g c p' Ht Ha. pose proof (ao_registered _ Hao _ _ _ _ Ht Ha) as Hreg.
        split; [|intros ->; congruence]. intros ->.
        destruct (co_known _ Hco _ _ Hreg) as (q & Hq & _). congruence. }
      split; cbn.
      * intros t g c p' [Ht|[_ [_ [= <-]]%list_lookup_singleton_Some]]%lookup_app_Some Ha.
        -- rewrite lookup_insert_ne; [by eapply ao_registered|]. intros <-. by destruct (Hunused _ _ _ _ Ht Ha).
        -- injection Ha as <- <-. apply lookup_insert_eq.
      * intros c p'. rewrite count_app, count_singleton. intros [[<- <-]|[Hne Hp']]%lookup_insert_Some.
        -- unfold serves at 2. cbn. rewrite bool_decide_true by done.
           assert (count (serves p) s.(goroutines) = 0); [|lia].
           pose proof (count_nonneg (serves p) s.(goroutines)).
           destruct (Z.eq_dec (count (serves p) s.(goroutines)) 0) as [|Hn]; [done|exfalso].
           assert (0 < count (serves p) s.(goroutines)) as (t & g & Ht & [c Hg]%serves_actor)%count_pos by lia.
           by destruct (Hunused _ _ _ _ Ht Hg).
        -- rewrite (ao_served _ Hao _ _ Hp'). unfold serves. cbn. rewrite bool_decide_false; [lia|].
           intros <-. destruct (co_known _ Hco _ _ Hp') as (q & Hq & _). congruence.
      * intros t g c p' [Ht|[_ [_ [= <-]]%list_lookup_singleton_Some]]%lookup_app_Some Ha.
        -- unfold cancel_at. cbn. rewrite lookup_insert_ne; [by eapply (ao_cancel _ Hao)|].
           intros <-. by destruct (Hunused _ _ _ _ Ht Ha).
        -- injection Ha as <- <-. unfold cancel_at. cbn. by rewrite lookup_insert_eq.
      * rewrite count_app, count_singleton. cbn. rewrite (ao_slots _ Hao). lia.
      * apply (ao_max _ Hao).
      * rewrite count_app, count_singleton. cbn. rewrite (ao_wait _ Hao). lia.
Qed.

(** ** The actor's critical sections *)

#[global] Arguments queued : simpl never.
#[global] Arguments flagged : simpl never.

(** the queue after its head was taken *)
Definition taken (turn : scheduledTurn) (rest : list scheduledTurn) (ctx : nat) (q : conversationQueue)
  : conversationQueue :=
  mkQueue rest q.(running) (if turn.(turn_priority) then false else q.(controlQueued)) (Some ctx).

Lemma nextTurn_cases c p s q r s' :
  s.(queue_heap) !! p = Some q -> nextTurn c p s = (r, s') ->
  match r with
  | Some (turn, ctx) => exists rest, q.(items) = turn :: rest /\ s.(lifecycle) = None
      /\ ctx = fresh (dom s.(contexts))
      /\ s' = (set_queue p (taken turn rest ctx q) s) <| pending ::= Z.pred |>
                <| contexts ::= <[ctx := None]> |>
  | None => (is_Some s.(lifecycle) \/ q.(items) = []) /\ s' = discardQueue c p s
  end.
Proof.
  intros Hq. unfold nextTurn, discardQueue. rewrite (queue_at_known _ _ _ Hq).
  destruct (lifecycle s) eqn:El; [intros [= <- <-]; by eauto|].
  destruct (items q) as [|turn rest] eqn:Ei; intros [= <- <-].
  - split; [by right|]. destruct s, q; simpl in *. subst. unfold set_queue, field_update. simpl.
    f_equal. lia.
  - exists rest. do 3 (split; [done|]). unfold taken. by destruct q, (turn_priority turn).
Qed.

Lemma shape_taken max c turn rest ctx q :
  shape max c q -> q.(items) = turn :: rest -> shape max c (taken turn rest ctx q).
Proof.
  intros [H1 (a & b & Hi & Ha & Hb) H3 H4] Hq. rewrite Hq in *.
  assert (Hrest : exists a b, rest = a ++ b /\ Forall (fun t => turn_priority t = true) a
    /\ Forall (fun t => turn_priority t = false) b).
  { destruct a as [|t a]; simpl in Hi.
    - subst b. apply Forall_cons in Hb as [_ Hb]. by exists [], rest.
    - injection Hi as <- ->. apply Forall_cons in Ha as [_ Ha]. by exists a, b. }
  split; cbn [taken items controlQueued].
  - by apply Forall_cons in H1 as [_ H1].
  - done.
  - destruct (turn_priority turn) eqn:Ep; [done|]. intros (t & r & [= <- <-] & Hp)%H3. congruence.
  - unfold queued in *. rewrite Hq in H4. cbn in *. destruct (turn_priority turn) eqn:Ep.
    + pose proof (b2z_range (controlQueued q)). cbn. lia.
    + destruct (controlQueued q); cbn in *; [|lia].
      destruct (H3 eq_refl) as (t & r & [= <- <-] & Hp). congruence.
Qed.

Lemma next_core c p s q turn rest ctx :
  core_ok s -> s.(queues) !! c = Some p -> s.(queue_heap) !! p = Some q -> q.(items) = turn :: rest ->
  core_ok ((set_queue p (taken turn rest ctx q) s) <| pending ::= Z.pred |>
             <| contexts ::= <[ctx := None]> |>).
Proof.
  intros Hco Hc Hq Hi. destruct (co_known _ Hco _ _ Hc) as (q0 & Hq0 & Hr & Hsh).
  assert (q0 = q) as -> by congruence.
  assert (Hn : queued q = queued (taken turn rest ctx q) + 1) by (unfold queued; rewrite Hi; cbn; lia).
  eapply (core_update s); cbn; try done; [by apply shape_taken|lia|].
  pose proof (co_limit _ Hco). assert (b2z (flagged q) <= b2z (flagged (taken turn rest ctx q)) + 1).
  { pose proof (b2z_range (flagged q)). pose proof (b2z_range (flagged (taken turn rest ctx q))). lia. }
  unfold Z.pred. lia.
Qed.

Lemma discard_core c p s :
  core_ok s -> s.(queues) !! c = Some p -> core_ok (discardQueue c p s).
Proof.
  intros Hco Hc. destruct (co_known _ Hco _ _ Hc) as (q & Hq & _).
  unfold discardQueue. rewrite (queue_at_known _ _ _ Hq). by eapply (core_remove s).
Qed.

Lemma finish_core p ctx c s cause s' :
  core_ok s -> s.(queues) !! c = Some p -> finish p ctx s = (cause, s') -> core_ok s'.
Proof.
  intros Hco Hc [= _ <-]. destruct (co_known _ Hco _ _ Hc) as (q & Hq & Hr & Hsh).
  rewrite (queue_at_known _ _ _ Hq).
  apply (core_update s _ c p q (q <| currentCancel := None |>)); try done.
  - destruct Hsh as [K1 K2 K3 K4]. by split.
  - change (queued (q <| currentCancel := None |>)) with (queued q). cbn. lia.
  - change (flagged (q <| currentCancel := None |>)) with (flagged q).
    pose proof (co_limit _ Hco). cbn. lia.
Qed.

(** ** Every step *)

Section invariant.
Context `{Runtime}.

Definition sched_ok s : Prop := core_ok s /\ actors_ok s.

(** steps that leave the table and the queues alone *)
Lemma quiet_step s s' t g g' :
  sched_ok s -> s.(goroutines) !! t = Some g -> s'.(goroutines) = <[t := g']> s.(goroutines) ->
  s'.(queues) = s.(queues) -> s'.(queue_heap) = s.(queue_heap) -> s'.(pending) = s.(pending) ->
  s'.(maxPending) = s.(maxPending) -> s'.(maxConversationPending) = s.(maxConversationPending) ->
  actor_of g' = actor_of g -> ctx_of g' = ctx_of g ->
  s'.(slots) = s.(slots) - b2z (has_slot g) + b2z (has_slot g') -> s'.(slots) <= s'.(maxConcurrent) ->
  s'.(wait) = s.(wait) - b2z (alive g) + b2z (alive g') ->
  sched_ok s'.
Proof.
  intros [Hco Hao] Ht Hg Hq Hh Hp Hm Hmc Ha Hctx Hs Hmax Hw. split; [by apply (core_same s)|].
  eapply move_ok; try done.
  - intros c p Hact. unfold cancel_at. rewrite Hh, Hctx. by eapply (ao_cancel _ Hao).
  - intros p _. unfold cancel_at. by rewrite Hh.
Qed.

(** steps of no goroutine, or of a new one that serves no queue *)
Lemma outside_step s s' :
  sched_ok s -> s'.(goroutines) = s.(goroutines) ->
  s'.(queues) = s.(queues) -> s'.(queue_heap) = s.(queue_heap) -> s'.(pending) = s.(pending) ->
  s'.(maxPending) = s.(maxPending) -> s'.(maxConversationPending) = s.(maxConversationPending) ->
  s'.(slots) = s.(slots) -> s'.(maxConcurrent) = s.(maxConcurrent) -> s'.(wait) = s.(wait) -> sched_ok s'.
Proof.
  intros [Hco [A1 A2 A3 A4 A5 A6]] Hg Hq Hh Hp Hm Hmc Hs Hx Hw. split; [by apply (core_same s)|].
  unfold cancel_at in A3. split; unfold cancel_at; by rewrite ?Hg, ?Hq, ?Hh, ?Hs, ?Hx, ?Hw.
Qed.

Lemma step_ok s l s' : sched_ok s -> sched_step s l s' -> sched_ok s'.
Proof.
  intros Hok Hstep. pose proof Hok as [Hco Hao]. pose proof (ao_max _ Hao) as Hmax.
  destruct Hstep as [fault now turn0 draw1 draw2 turn sub s s' Hprep Hsub|t event start fault now s Ht
    |t c p s Ht Hfree|t c p s Ht Hlife|t c p s Ht|t c p turn ctx s s' Ht Hnext|t c p s s' Ht Hnext
    |t c p turn ctx fault now s Ht|ctx s|t c p turn ctx cause s s' Ht Hfin|t c p turn cause fault now s Ht
    |t s Ht|t s Ht|conversationID cause b s s' Hcancel|s|t s Ht Hw|t s Ht|t s Ht Hw].
  - apply submit_locked_cases in Hsub as [(_ & Hst & db & ->)|(_ & Hadm & db & E & _)].
    + unfold after_submit. destruct (sub_trace sub); rewrite ?Hst; [|by eapply (outside_step s)].
      split; [by apply (core_same s)|]. by apply (spawn_ok s _ (Submitted t None)).
    + replace sub with (enqueue_turn turn now (s <| trace := db |>)).1 by by rewrite <-E.
      replace s' with (enqueue_turn turn now (s <| trace := db |>)).2 by by rewrite <-E.
      assert (Hok' : sched_ok (s <| trace := db |>)) by by eapply (outside_step s).
      destruct Hok' as [Hco' Hao'].
      destruct (enqueue_ok turn now _ Hco' Hao' Hadm) as [Hc Ha]. split; [|done].
      unfold after_submit. destruct (sub_trace _); [|done]. by eapply core_same.
  - eapply (quiet_step s _ t); try done; destruct start as [[c p]|]; cbn; done || lia.
  - eapply (quiet_step s _ t); try done; cbn; done || lia.
  - eapply (quiet_step s _ t); try done; cbn; done || lia.
  - pose proof (ao_registered _ Hao _ _ _ _ Ht eq_refl) as Hreg.
    split; [eapply core_same; [by apply (discard_core c p s)|done..]|].
    eapply (end_ok s _ t (Discarding c p) Leaving c p); try done; cbn; try lia.
    intros p' Hne. unfold cancel_at. cbn. by rewrite lookup_insert_ne.
  - pose proof (ao_registered _ Hao _ _ _ _ Ht eq_refl) as Hreg.
    destruct (co_known _ Hco _ _ Hreg) as (q & Hq & _).
    destruct (nextTurn_cases c p s q _ _ Hq Hnext) as (rest & Hi & _ & _ & ->).
    split; [eapply core_same; [by apply (next_core c p s q turn rest ctx)|done..]|].
    eapply (move_ok s _ t (NextTurn c p) (Starting c p turn ctx)); try done; cbn; try lia.
    + intros c' p' [= <- <-]. unfold cancel_at. cbn. by rewrite lookup_insert_eq.
    + intros p' Hne. unfold cancel_at. cbn. unfold serves in Hne. cbn in Hne.
      apply bool_decide_eq_false in Hne. by rewrite lookup_insert_ne.
  - pose proof (ao_registered _ Hao _ _ _ _ Ht eq_refl) as Hreg.
    destruct (co_known _ Hco _ _ Hreg) as (q & Hq & _).
    destruct (nextTurn_cases c p s q _ _ Hq Hnext) as [_ ->].
    split; [eapply core_same; [by apply (discard_core c p s)|done..]|].
    eapply (end_ok s _ t (NextTurn c p) Releasing c p); try done; cbn; try lia.
    intros p' Hne. unfold cancel_at. cbn. by rewrite lookup_insert_ne.
  - eapply (quiet_step s _ t); try done; cbn; done || lia.
  - by eapply (outside_step s).
  - pose proof (ao_registered _ Hao _ _ _ _ Ht eq_refl) as Hreg.
    split; [eapply core_same; [by apply (finish_core p ctx c s cause s')|done..]|].
    injection Hfin as _ <-. destruct (co_known _ Hco _ _ Hreg) as (q & Hq & _).
    rewrite (queue_at_known _ _ _ Hq).
    eapply (move_ok s _ t (Running c p turn ctx) (Finished c p turn cause)); try done; cbn; try lia.
    + intros c' p' [= <- <-]. unfold cancel_at. cbn. by rewrite lookup_insert_eq.
    + intros p' Hne. unfold cancel_at. cbn. unfold serves in Hne. cbn in Hne.
      apply bool_decide_eq_false in Hne. by rewrite lookup_insert_ne.
  - eapply (quiet_step s _ t); try done; cbn; done || lia.
  - eapply (quiet_step s _ t); try done; cbn; done || lia.
  - eapply (quiet_step s _ t); try done; cbn; done || lia.
  - unfold FairyScheduler.Cancel in Hcancel. destruct (s.(queues) !! conversationID) as [p|]; [|by simplify_eq].
    destruct (currentCancel _); simplify_eq; [by eapply (outside_step s)|done].
  - split; [by apply (core_same s)|]. by apply (spawn_ok s _ Closing).
  - eapply (quiet_step s _ t); try done; cbn; done || lia.
  - unfold cancelLifecycle. destruct (lifecycle s);
      (eapply (quiet_step s _ t); [done|exact Ht|..]; try done; cbn; done || lia).
  - eapply (quiet_step s _ t); try done; cbn; done || lia.
Qed.

Lemma execution_ok MaxPending MaxConversationPending MaxConcurrent db ls s :
  0 <= MaxPending -> 0 <= MaxConcurrent ->
  execution (NewConversationScheduler MaxPending MaxConversationPending MaxConcurrent db) ls s ->
  sched_ok s.
Proof.
  intros Hp Hc. induction 1 as [|ls l s s' _ IH Hstep]; [|by eapply step_ok].
  split; split; cbn; try done; unfold map_total; rewrite ?map_fold_empty; lia.
Qed.
End invariant.
