(* ===== verification/FairySchedulerProps.v ===== *)
(** * What the scheduler guarantees (fairy/scheduler.go)

    Bounds of the queues, exclusion and order of the turns of a conversation, control
    turns, draining, shutdown, and the trace the scheduler leaves. *)
From S2P Require Import Prelude GoLib Types FairyTypes FairyTrace FairyStats FairyTraceFacts.
From S2P Require Import FairyScheduler FairySchedulerFacts Demo.
From stdpp Require Import gmap strings list.
From Stdlib Require Import ZArith.

Local Open Scope Z_scope.
Local Open Scope go_scope.

Section properties.
Context `{Runtime}.

(** ** Parameters and switches *)

(** the fields that no step changes *)
Lemma step_config s l s' :
  sched_step s l s' -> s'.(maxPending) = s.(maxPending)
    /\ s'.(maxConversationPending) = s.(maxConversationPending) /\ s'.(maxConcurrent) = s.(maxConcurrent).
Proof.
  intros Hs. destruct Hs as [fault now turn0 draw1 draw2 turn sub s s' Hprep Hsub|t event start fault now s Ht
    |t c p s Ht Hfree|t c p s Ht Hlife|t c p s Ht|t c p turn ctx s s' Ht Hnext|t c p s s' Ht Hnext
    |t c p turn ctx fault now s Ht|ctx s|t c p turn ctx cause s s' Ht Hfin|t c p turn cause fault now s Ht
    |t s Ht|t s Ht|conversationID cause b s s' Hcancel|s|t s Ht Hw|t s Ht|t s Ht Hw]; try done.
  - assert (Hs' : s'.(maxPending) = s.(maxPending) /\ s'.(maxConversationPending) = s.(maxConversationPending)
      /\ s'.(maxConcurrent) = s.(maxConcurrent)).
    { apply submit_locked_cases in Hsub as [(_ & _ & db & ->)|(_ & _ & db & E & _)]; [done|].
      unfold enqueue_turn in E. destruct (queues _ !! _) in E; cbv zeta in E;
        injection E as _ ->; unfold stop_current; repeat case_goal; done. }
    unfold after_submit. by destruct (sub_trace sub).
  - unfold nextTurn in Hnext. destruct (lifecycle s); [done|].
    by destruct (items _); simplify_eq.
  - unfold nextTurn in Hnext. destruct (lifecycle s); [by simplify_eq|].
    by destruct (items _); simplify_eq.
  - by injection Hfin as _ <-.
  - unfold FairyScheduler.Cancel in Hcancel. destruct (s.(queues) !! conversationID); [|by simplify_eq].
    destruct (currentCancel _); by simplify_eq.
  - unfold cancelLifecycle. by destruct (lifecycle s).
Qed.

(** the turns that wait in a conversation *)
Definition items_of s (c : string) : list scheduledTurn :=
  from_option (fun p => (queue_at p s).(items)) [] (s.(queues) !! c).

(** what a step does to the waiting turns *)
Inductive effect s : label -> ConversationScheduler -> Prop :=
| effect_admit turn s' :
    s.(accepting) = true -> admissible turn s ->
    items_of s' turn.(turn_conversationID)
      = (join_queue turn (mkQueue (items_of s turn.(turn_conversationID)) true false None)).(items) ->
    (forall c, c <> turn.(turn_conversationID) -> items_of s' c = items_of s c) ->
    s'.(lifecycle) = s.(lifecycle) -> effect s (Accepted turn) s'
| effect_start turn s' :
    s.(lifecycle) = None ->
    items_of s turn.(turn_conversationID) = turn :: items_of s' turn.(turn_conversationID) ->
    (forall c, c <> turn.(turn_conversationID) -> items_of s' c = items_of s c) ->
    s'.(lifecycle) = s.(lifecycle) -> effect s (Started turn) s'
| effect_end c s' :
    is_Some s.(lifecycle) \/ items_of s c = [] -> items_of s' c = [] ->
    (forall c', c' <> c -> items_of s' c' = items_of s c') ->
    s'.(lifecycle) = s.(lifecycle) -> effect s Internal s'
| effect_none s' :
    (forall c, items_of s' c = items_of s c) ->
    (s'.(lifecycle) = s.(lifecycle) \/ is_Some s'.(lifecycle)) -> effect s Internal s'.

(** a goroutine discards a queue only when the lifecycle is over *)
Definition discards_late s : Prop :=
  forall t c p, s.(goroutines) !! t = Some (Discarding c p) -> is_Some s.(lifecycle).

(** the items of a queue that changed, and of the others *)
Lemma items_of_set s s' c p q' :
  core_ok s -> s.(queues) !! c = Some p -> s'.(queues) = s.(queues) ->
  s'.(queue_heap) = <[p := q']> s.(queue_heap) ->
  items_of s' c = q'.(items) /\ (forall c', c' <> c -> items_of s' c' = items_of s c').
Proof.
  intros Hco Hc Hq Hh. unfold items_of, queue_at. rewrite Hq, Hh. split.
  - rewrite Hc. simpl. by rewrite lookup_insert_eq.
  - intros c' Hne. destruct (s.(queues) !! c') as [p'|] eqn:Ec; [simpl|done].
    rewrite lookup_insert_ne; [done|]. intros <-. by eapply Hne, (co_inj _ Hco).
Qed.

Lemma items_of_remove s s' c p q' :
  core_ok s -> s.(queues) !! c = Some p -> s'.(queues) = delete c s.(queues) ->
  s'.(queue_heap) = <[p := q']> s.(queue_heap) ->
  items_of s' c = [] /\ (forall c', c' <> c -> items_of s' c' = items_of s c').
Proof.
  intros Hco Hc Hq Hh. unfold items_of, queue_at. rewrite Hq, Hh. split.
  - by rewrite lookup_delete_eq.
  - intros c' Hne. rewrite lookup_delete_ne by done.
    destruct (s.(queues) !! c') as [p'|] eqn:Ec; [simpl|done].
    rewrite lookup_insert_ne; [done|]. intros <-. by eapply Hne, (co_inj _ Hco).
Qed.

Lemma items_of_known s c p q :
  s.(queues) !! c = Some p -> s.(queue_heap) !! p = Some q -> items_of s c = q.(items).
Proof. unfold items_of, queue_at. intros -> Hq. simpl. by rewrite Hq. Qed.

Lemma items_of_same s s' :
  s'.(queues) = s.(queues) -> s'.(queue_heap) = s.(queue_heap) -> forall c, items_of s' c = items_of s c.
Proof. intros Hq Hh c. unfold items_of, queue_at. by rewrite Hq, Hh. Qed.

Lemma items_of_join turn q q' : q.(items) = q'.(items) ->
  (join_queue turn q).(items) = (join_queue turn q').(items).
Proof. intros Hq. unfold join_queue. destruct (turn_priority turn); simpl; by rewrite Hq. Qed.

Lemma admit_effect turn now s sub s' :
  core_ok s -> s.(accepting) = true -> admissible turn s -> enqueue_turn turn now s = (sub, s') ->
  effect s (Accepted turn) s' /\ sub.(sub_result) = Ok true.
Proof.
  intros Hco Hacc Hadm E. destruct (s.(queues) !! turn.(turn_conversationID)) as [p|] eqn:Ec.
  - destruct (co_known _ Hco _ _ Ec) as (q & Eq & Hr & Hsh).
    destruct (enqueue_existing turn now s p q Ec Eq Hr) as (tr & E'). rewrite E' in E. injection E as <- <-.
    destruct (stop_current_same turn q s) as (S1 & S2 & _ & _ & _ & _ & _ & _ & _ & S10 & _).
    split; [|done]. destruct (items_of_set s (set_queue p (join_queue turn q)
      ((stop_current turn q s) <| pending ::= Z.succ |>)) (turn_conversationID turn) p (join_queue turn q))
      as [Hown Hother]; cbn; try done; [by rewrite S1|].
    constructor; try done. rewrite Hown. apply items_of_join. simpl. symmetry. by eapply items_of_known.
  - destruct (enqueue_new turn now s Ec) as (tr & E'). rewrite E' in E. injection E as <- <-.
    split; [|done]. set (p := fresh (dom s.(queue_heap))).
    assert (Hp : s.(queue_heap) !! p = None) by apply not_elem_of_dom, is_fresh.
    constructor; try done; unfold items_of, queue_at; cbn.
    + rewrite lookup_insert_eq, Ec. cbn. fold p. rewrite lookup_insert_eq. cbn.
      unfold first_queue, join_queue. by destruct (turn_priority turn).
    + intros c Hne. rewrite lookup_insert_ne by done. destruct (s.(queues) !! c) as [p'|] eqn:Ec'; [cbn|done].
      rewrite lookup_insert_ne; [done|]. fold p. intros <-.
      destruct (co_known _ Hco _ _ Ec') as (q & Hq & _). congruence.
Qed.

Lemma step_effect s l s' :
  sched_ok s -> discards_late s -> sched_step s l s' -> effect s l s'.
Proof.
  intros [Hco Hao] Hlate Hs.
  destruct Hs as [fault now turn0 draw1 draw2 turn sub s s' Hprep Hsub|t event start fault now s Ht
    |t c p s Ht Hfree|t c p s Ht Hlife|t c p s Ht|t c p turn ctx s s' Ht Hnext|t c p s s' Ht Hnext
    |t c p turn ctx fault now s Ht|ctx s|t c p turn ctx cause s s' Ht Hfin|t c p turn cause fault now s Ht
    |t s Ht|t s Ht|conversationID cause b s s' Hcancel|s|t s Ht Hw|t s Ht|t s Ht Hw];
    try (apply effect_none; [by apply items_of_same|by left]).
  - apply submit_locked_cases in Hsub as [(Hres & _ & db & ->)|(Hacc & Hadm & db & E & _)].
    + rewrite bool_decide_false by done. apply effect_none; unfold after_submit;
        destruct (sub_trace sub); try (by apply items_of_same); by left.
    + assert (Hco' : core_ok (s <| trace := db |>)) by by eapply core_same.
      symmetry in E. destruct (admit_effect turn now _ _ _ Hco' Hacc Hadm E) as [He Hres].
      rewrite bool_decide_true by done. unfold after_submit. destruct (sub_trace sub); inversion He; subst;
        by constructor.
  - pose proof (ao_registered _ Hao _ _ _ _ Ht eq_refl) as Hreg.
    destruct (co_known _ Hco _ _ Hreg) as (q & Hq & _).
    destruct (items_of_remove s (at_goroutine t Leaving (discardQueue c p s)) c p
      (q <| items := [] |> <| running := false |>) Hco Hreg) as [H1 H2]; [done| |].
    { cbn. by rewrite (queue_at_known _ _ _ Hq). }
    apply (effect_end s c); try done. left. by eapply Hlate.
  - pose proof (ao_registered _ Hao _ _ _ _ Ht eq_refl) as Hreg.
    destruct (co_known _ Hco _ _ Hreg) as (q & Hq & _ & Hsh).
    destruct (nextTurn_cases c p s q _ _ Hq Hnext) as (rest & Hi & Hlife & _ & ->).
    destruct (items_of_set s (at_goroutine t (Starting c p turn ctx)
      ((set_queue p (taken turn rest ctx q) s) <| pending ::= Z.pred |> <| contexts ::= <[ctx := None]> |>))
      c p (taken turn rest ctx q) Hco Hreg) as [H1 H2]; [done..|].
    assert (Hc : turn_conversationID turn = c).
    { pose proof (sh_conv _ _ _ Hsh) as Hf. rewrite Hi in Hf. by apply Forall_cons in Hf as [Hf _]. }
    subst c. apply effect_start; try done. by rewrite H1, (items_of_known s _ p q), Hi.
  - pose proof (ao_registered _ Hao _ _ _ _ Ht eq_refl) as Hreg.
    destruct (co_known _ Hco _ _ Hreg) as (q & Hq & _).
    destruct (nextTurn_cases c p s q _ _ Hq Hnext) as [Hend ->].
    destruct (items_of_remove s (at_goroutine t Releasing (discardQueue c p s)) c p
      (q <| items := [] |> <| running := false |>) Hco Hreg) as [H1 H2]; [done| |].
    { cbn. by rewrite (queue_at_known _ _ _ Hq). }
    apply (effect_end s c); try done. destruct Hend as [|He]; [by left|right].
    by rewrite (items_of_known s c p q).
  - pose proof (ao_registered _ Hao _ _ _ _ Ht eq_refl) as Hreg.
    destruct (co_known _ Hco _ _ Hreg) as (q & Hq & _). injection Hfin as _ <-.
    apply effect_none; [|by left]. rewrite (queue_at_known _ _ _ Hq).
    match goal with |- forall c, items_of ?s' c = _ =>
      destruct (items_of_set s s' c p (q <| currentCancel := None |>) Hco Hreg) as [H1 H2]; [done..|] end.
    intros c'. destruct (decide (c' = c)) as [->|]; [|by apply H2].
    rewrite H1, (items_of_known s c p q) by done. done.
  - apply effect_none; unfold FairyScheduler.Cancel in Hcancel;
      destruct (s.(queues) !! conversationID); try (by simplify_eq; left);
      try (by simplify_eq; apply items_of_same);
      destruct (currentCancel _); simplify_eq; try (by apply items_of_same); by left.
  - unfold cancelLifecycle. destruct (lifecycle s) eqn:El; apply effect_none;
      try (by apply items_of_same); [left; by rewrite El|right; by eexists].
Qed.

(** the lifecycle, once over, stays over *)
Lemma effect_lifecycle s l s' : effect s l s' -> is_Some s.(lifecycle) -> is_Some s'.(lifecycle).
Proof. destruct 1 as [turn s' _ _ _ _ E|turn s' _ _ _ E|c s' _ _ _ E|s' _ [E|E]]; by rewrite ?E. Qed.

Lemma lookup_at t t' g g' (gs : list goroutine) :
  <[t := g']> gs !! t' = Some g -> gs !! t' = Some g \/ g = g'.
Proof. intros [(-> & -> & _)|[_ Ht]]%list_lookup_insert_Some; [by right|by left]. Qed.
Lemma lookup_spawn t g g' (gs : list goroutine) : (gs ++ [g']) !! t = Some g -> gs !! t = Some g \/ g = g'.
Proof. intros [Ht|[_ [_ Ht]%list_lookup_singleton_Some]]%lookup_app_Some; [by left|by right]. Qed.

(** the goroutines of the next state, up to one *)
Lemma step_goroutines s l s' :
  sched_step s l s' -> s'.(goroutines) = s.(goroutines)
    \/ (exists event start, s'.(goroutines) = s.(goroutines) ++ [Submitted event start]
          /\ (l <> Internal -> s.(accepting) = true))
    \/ (s'.(goroutines) = s.(goroutines) ++ [Closing] /\ s'.(accepting) = false)
    \/ exists t g g', s.(goroutines) !! t = Some g /\ s'.(goroutines) = <[t := g']> s.(goroutines)
         /\ (forall c p, g' = Discarding c p -> is_Some s.(lifecycle))
         /\ (forall b, g' = Closed b -> s.(wait) = 0 /\ (g = Closing /\ b = false \/ g = Forced))
         /\ (g' = Forced -> g = Closing /\ is_Some s'.(lifecycle)) /\ g' <> Closing.
Proof.
  intros Hs. destruct Hs as [fault now turn0 draw1 draw2 turn sub s s' Hprep Hsub|t event start fault now s Ht
    |t c p s Ht Hfree|t c p s Ht Hlife|t c p s Ht|t c p turn ctx s s' Ht Hnext|t c p s s' Ht Hnext
    |t c p turn ctx fault now s Ht|ctx s|t c p turn ctx cause s s' Ht Hfin|t c p turn cause fault now s Ht
    |t s Ht|t s Ht|conversationID cause b s s' Hcancel|s|t s Ht Hw|t s Ht|t s Ht Hw]; cbn;
    try (right; right; right; do 3 eexists; split; [exact Ht|split; [reflexivity|]];
         repeat split; try done; intros; simplify_eq; auto; fail).
  - assert (Hg : s'.(goroutines) = s.(goroutines) /\ (sub.(sub_result) = Ok true -> s.(accepting) = true)).
    { apply submit_locked_cases in Hsub as [(Hr & _ & db & ->)|(Ha & _ & db & E & _)]; [done|].
      split; [|done]. unfold enqueue_turn in E. destruct (queues _ !! _) in E; cbv zeta in E;
        injection E as _ ->; unfold stop_current; repeat case_goal; done. }
    destruct Hg as [Hg Ha]. unfold after_submit. destruct (sub_trace sub) as [event|]; [|by left].
    right; left. exists event, (sub_start sub). cbn. rewrite Hg. split; [done|].
    case_bool_decide; [by intros _; apply Ha|done].
  - right; right; right. do 3 eexists. split; [exact Ht|split; [reflexivity|]].
    destruct start as [[c p]|]; repeat split; try done; intros; simplify_eq.
  - right; right; right. exists t, (NextTurn c p), (Starting c p turn ctx). split; [done|].
    split; [|repeat split; try done; intros; simplify_eq].
    unfold nextTurn in Hnext. destruct (lifecycle s); [done|]. by destruct (items _); simplify_eq.
  - right; right; right. exists t, (NextTurn c p), Releasing. split; [done|].
    split; [|repeat split; try done; intros; simplify_eq].
    unfold nextTurn in Hnext. destruct (lifecycle s); [by simplify_eq|]. by destruct (items _); simplify_eq.
  - by left.
  - right; right; right. exists t, (Running c p turn ctx), (Finished c p turn cause). split; [done|].
    split; [|repeat split; try done; intros; simplify_eq]. by injection Hfin as _ <-.
  - left. unfold FairyScheduler.Cancel in Hcancel. destruct (s.(queues) !! conversationID); [|by simplify_eq].
    by destruct (currentCancel _); simplify_eq.
  - by right; right; left.
  - right; right; right. exists t, Closing, Forced. split; [done|].
    unfold cancelLifecycle. destruct (lifecycle s) eqn:El; repeat split; try done; cbn; rewrite ?El; by eexists.
Qed.

Lemma discards_late_step s l s' :
  sched_ok s -> discards_late s -> sched_step s l s' -> discards_late s'.
Proof.
  intros Hok Hlate Hs t c p Ht.
  assert (Hcase : is_Some s.(lifecycle)).
  { destruct (step_goroutines _ _ _ Hs) as [E|[(event & start & E & _)|[[E _]|(t0 & g & g' & Ht0 & E & Hd & _)]]];
      rewrite E in Ht.
    - by eapply Hlate.
    - apply lookup_spawn in Ht as [Ht|]; [by eapply Hlate|done].
    - apply lookup_spawn in Ht as [Ht|]; [by eapply Hlate|done].
    - apply lookup_at in Ht as [Ht| <-]; [by eapply Hlate|by eapply Hd]. }
  eapply effect_lifecycle; [by eapply step_effect|done].
Qed.

Section executions.
Context (MaxPending MaxConversationPending MaxConcurrent : Z) (db : TraceDB).
Context (Hpending : 0 <= MaxPending) (Hconcurrent : 0 <= MaxConcurrent).
Notation start := (NewConversationScheduler MaxPending MaxConversationPending MaxConcurrent db).

Lemma execution_facts ls s :
  execution start ls s ->
  sched_ok s /\ discards_late s /\ s.(maxPending) = MaxPending
  /\ s.(maxConversationPending) = MaxConversationPending /\ s.(maxConcurrent) = MaxConcurrent.
Proof using Hpending Hconcurrent.
  intros He. split; [exact (execution_ok _ _ _ _ _ _ Hpending Hconcurrent He)|].
  induction He as [|ls l s s' He (Hd & H1 & H2 & H3) Hs].
  - split; [|done]. intros t c p Ht. done.
  - destruct (step_config _ _ _ Hs) as (-> & -> & ->). split; [|done].
    eapply discards_late_step; [exact (execution_ok _ _ _ _ _ _ Hpending Hconcurrent He)|done|done].
Qed.

(** running or about to run a turn, of conversation [c] *)
Definition runs (c : string) (g : goroutine) : bool :=
  match g with Starting c' _ _ _ | Running c' _ _ _ => bool_decide (c' = c) | _ => false end.

(** C23: the scheduler respects its limits in every execution: the pending counter is the
    number of turns that wait, and exceeds the global limit at most by one control turn
    per conversation; a conversation has at most one turn waiting above its own limit,
    and only behind a control turn; at most [MaxConcurrent] turns run, and the counter of
    slots is the number of goroutines that hold one. *)
Theorem scheduler_bounds (ls : list label) s :
  execution start ls s ->
  s.(pending) = map_total (fun _ q => queued q) s.(queue_heap)
  /\ 0 <= s.(pending) <= MaxPending + map_total (fun _ q => b2z (flagged q)) s.(queue_heap)
  /\ (forall c p q, s.(queues) !! c = Some p -> s.(queue_heap) !! p = Some q ->
        queued q <= MaxConversationPending + b2z (flagged q))
  /\ (forall p q, s.(queue_heap) !! p = Some q -> (forall c, s.(queues) !! c <> Some p) -> queued q = 0)
  /\ s.(slots) = count has_slot s.(goroutines) /\ s.(slots) <= MaxConcurrent
  /\ count (fun g => bool_decide (is_Some (ctx_of g))) s.(goroutines) <= MaxConcurrent.
Proof using Hpending Hconcurrent.
  intros He. destruct (execution_facts _ _ He) as ([Hco Hao] & _ & <- & <- & <-).
  split; [apply (co_pending _ Hco)|]. split.
  { split; [|apply (co_limit _ Hco)]. rewrite (co_pending _ Hco).
    apply map_total_nonneg. intros p q _. apply queued_nonneg. }
  split; [|split; [|split; [apply (ao_slots _ Hao)|split; [apply (ao_max _ Hao)|]]]].
  - intros c p q Hc Hq. destruct (co_known _ Hco _ _ Hc) as (q0 & Hq0 & _ & Hsh).
    assert (q0 = q) as -> by congruence. pose proof (sh_len _ _ _ Hsh) as Hl. unfold flagged.
    destruct (controlQueued q) eqn:Ef; [|done]. destruct (sh_head _ _ _ Hsh Ef) as (t & r & Hi & _).
    rewrite bool_decide_false by by rewrite Hi. done.
  - intros p q Hq Hdead. unfold queued. by rewrite (co_dead _ Hco _ _ Hq Hdead).
  - etrans; [|apply (ao_max _ Hao)]. rewrite (ao_slots _ Hao).
    induction s.(goroutines) as [|g gs IH]; [done|]. rewrite !count_cons.
    assert ((if bool_decide (is_Some (ctx_of g)) then 1 else 0) <= (if has_slot g then 1 else 0)); [|lia].
    destruct g; simpl; try lia; by case_bool_decide.
Qed.

(** a control turn that is admitted cancels the turn of its conversation that runs; any
    other submission cancels nothing *)
Lemma submit_cancels fault now (stop : scheduledTurn) s sub s' t c p turn ctx :
  core_ok s -> actors_ok s ->
  s.(goroutines) !! t = Some (Running c p turn ctx) -> stop.(turn_conversationID) = c ->
  submit_locked fault now stop s = (sub, s') ->
  s'.(contexts) = (if stop.(turn_priority) && bool_decide (sub.(sub_result) = Ok true)
                   then (FairyScheduler.cancel ctx ErrTurnStoppedByUser s).(contexts)
                   else s.(contexts)).
Proof.
  intros Hco Hao Ht <- Hsub. pose proof (ao_registered _ Hao _ _ _ _ Ht eq_refl) as Hc.
  pose proof (ao_cancel _ Hao _ _ _ _ Ht eq_refl) as Hctx.
  apply submit_locked_cases in Hsub as [(Hres & _ & db0 & ->)|(_ & _ & db0 & E & _)].
  { rewrite (bool_decide_false _ Hres), andb_false_r. done. }
  destruct (co_known _ Hco _ _ Hc) as (q & Hq & Hr & _).
  match type of E with _ = enqueue_turn _ _ ?s1 =>
    destruct (enqueue_existing stop now s1 p q Hc Hq Hr) as (tr & E') end.
  rewrite E' in E. injection E as -> ->. cbn [sub_result]. rewrite bool_decide_true, andb_true_r by done.
  unfold cancel_at in Hctx. rewrite Hq in Hctx. cbn in Hctx. unfold stop_current. rewrite Hctx.
  by destruct (turn_priority stop).
Qed.

(** C22: turns of one conversation never overlap: two goroutines that run a turn of the same
    conversation are the same one; it is the turn that Cancel of that conversation
    cancels, with the given cause; a stop command (a control turn) of that conversation
    that is admitted cancels it as stopped by the user, and a turn that is refused or is
    no control turn cancels nothing; and when nobody runs a turn there is nothing to
    cancel. *)
Theorem turns_do_not_overlap (ls : list label) s :
  execution start ls s ->
  (forall t t' g g' c, s.(goroutines) !! t = Some g -> s.(goroutines) !! t' = Some g' ->
     runs c g = true -> runs c g' = true -> t = t')
  /\ (forall t c p turn ctx cause, s.(goroutines) !! t = Some (Running c p turn ctx) ->
        turn.(turn_conversationID) = c -> FairyScheduler.Cancel c cause s
          = (true, FairyScheduler.cancel ctx (default FairyScheduler.Canceled cause) s))
  /\ (forall t c p turn ctx fault now stop sub s',
        s.(goroutines) !! t = Some (Running c p turn ctx) -> stop.(turn_conversationID) = c ->
        submit_locked fault now stop s = (sub, s') ->
        s'.(contexts) = (if stop.(turn_priority) && bool_decide (sub.(sub_result) = Ok true)
                         then (FairyScheduler.cancel ctx ErrTurnStoppedByUser s).(contexts)
                         else s.(contexts)))
  /\ (forall c cause, (forall t g, s.(goroutines) !! t = Some g -> runs c g = false) ->
        FairyScheduler.Cancel c cause s = (false, s)).
Proof using Hpending Hconcurrent.
  intros He. destruct (execution_facts _ _ He) as ([Hco Hao] & _).
  assert (Hruns : forall c g, runs c g = true -> exists p ctx, actor_of g = Some (c, p) /\ ctx_of g = Some ctx).
  { intros c g. destruct g; simpl; try done; intros ->%bool_decide_eq_true; eauto. }
  split; [|split; [|split; [by intros; eapply submit_cancels|]]].
  - intros t t' g g' c Ht Ht' (p & ctx & Ha & _)%Hruns (p' & ctx' & Ha' & _)%Hruns.
    pose proof (ao_registered _ Hao _ _ _ _ Ht Ha). pose proof (ao_registered _ Hao _ _ _ _ Ht' Ha').
    assert (p' = p) as -> by congruence. by eapply same_actor.
  - intros t c p turn ctx cause Ht _. unfold FairyScheduler.Cancel.
    rewrite (ao_registered _ Hao _ _ _ _ Ht eq_refl).
    pose proof (ao_cancel _ Hao _ _ _ _ Ht eq_refl) as Hc. unfold cancel_at in Hc. simpl in Hc.
    unfold queue_at. destruct (s.(queue_heap) !! p); [|done]. simpl in *. by rewrite Hc.
  - intros c cause Hno. unfold FairyScheduler.Cancel. destruct (s.(queues) !! c) as [p|] eqn:Ec; [|done].
    assert (0 < count (serves p) s.(goroutines)) as (t & g & Ht & [c' Ha]%serves_actor)%count_pos
      by (rewrite (ao_served _ Hao _ _ Ec); lia).
    assert (c' = c) as ->.
    { eapply (co_inj _ Hco); [|exact Ec]. by eapply ao_registered. }
    pose proof (ao_cancel _ Hao _ _ _ _ Ht Ha) as Hc. specialize (Hno _ _ Ht).
    assert (Hctx : ctx_of g = None).
    { destruct g; simpl in *; try done; injection Ha as -> ->; by rewrite bool_decide_true in Hno. }
    unfold queue_at. destruct (co_known _ Hco _ _ Ec) as (q & Hq & _). unfold cancel_at in Hc.
    rewrite Hq in Hc |- *. simpl in *. by rewrite Hc, Hctx.
Qed.

(** ** Order *)

Definition admitted (c : string) (ls : list label) : list scheduledTurn :=
  omap (fun l => match l with
                 | Accepted t => if bool_decide (t.(turn_conversationID) = c) then Some t else None
                 | _ => None
                 end) ls.
Definition begun (c : string) (ls : list label) : list scheduledTurn :=
  omap (fun l => match l with
                 | Started t => if bool_decide (t.(turn_conversationID) = c) then Some t else None
                 | _ => None
                 end) ls.
Definition normals (l : list scheduledTurn) : list scheduledTurn :=
  filter (fun t => t.(turn_priority) = false) l.

(** once the lifecycle is over, it stays over and nothing starts *)
Lemma over_starts_nothing s ls s' c :
  sched_ok s -> discards_late s -> is_Some s.(lifecycle) -> execution s ls s' ->
  sched_ok s' /\ discards_late s' /\ is_Some s'.(lifecycle) /\ begun c ls = [].
Proof.
  intros Hok Hlate Hover. induction 1 as [|ls l s1 s2 He (Hok1 & Hlate1 & Hover1 & Hb) Hs]; [done|].
  pose proof (step_effect _ _ _ Hok1 Hlate1 Hs) as Heff.
  split; [by eapply step_ok|]. split; [by eapply discards_late_step|].
  split; [by eapply effect_lifecycle|]. unfold begun in *. rewrite omap_app, Hb. cbn [app].
  destruct Heff as [| turn s2 Hnone| |]; try done. destruct Hover1 as [x Hx]. congruence.
Qed.

(** the order of the turns, by induction over the execution *)
Lemma start_order (ls : list label) s c :
  execution start ls s ->
  (s.(lifecycle) = None ->
     admitted c ls ≡ₚ begun c ls ++ items_of s c
     /\ normals (admitted c ls) = normals (begun c ls) ++ normals (items_of s c))
  /\ normals (begun c ls) `prefix_of` normals (admitted c ls)
  /\ begun c ls ⊆+ admitted c ls.
Proof using Hpending Hconcurrent.
  induction 1 as [|ls l s s' He IH Hs].
  { split; [|split]; [|done|done]. by intros _. }
  destruct (execution_facts _ _ He) as (Hok & Hlate & _).
  pose proof (step_effect _ _ _ Hok Hlate Hs) as Heff.
  assert (Hadm : forall t, admitted c (ls ++ [Accepted t])
    = admitted c ls ++ (if bool_decide (turn_conversationID t = c) then [t] else [])).
  { intros t. unfold admitted. rewrite omap_app. simpl. by case_bool_decide. }
  assert (Hst : forall t, begun c (ls ++ [Started t])
    = begun c ls ++ (if bool_decide (turn_conversationID t = c) then [t] else [])).
  { intros t. unfold begun. rewrite omap_app. simpl. by case_bool_decide. }
  assert (Hadm' : forall t, admitted c (ls ++ [Started t]) = admitted c ls)
    by (intros t; unfold admitted; rewrite omap_app; simpl; by rewrite app_nil_r).
  assert (Hst' : forall t, begun c (ls ++ [Accepted t]) = begun c ls)
    by (intros t; unfold begun; rewrite omap_app; simpl; by rewrite app_nil_r).
  assert (Hint : admitted c (ls ++ [Internal]) = admitted c ls /\ begun c (ls ++ [Internal]) = begun c ls)
    by (unfold admitted, begun; rewrite !omap_app; simpl; by rewrite !app_nil_r).
  destruct IH as (IH1 & IH2 & IH3).
  destruct Heff as [turn s' _ _ Hown Hother Hl|turn s' Hn Hown Hother Hl|c' s' Hend Hown Hother Hl|s' Hitems Hl].
  - rewrite Hadm, Hst', Hl. split; [|split].
    + intros Hnone. destruct (IH1 Hnone) as [P N]. case_bool_decide as Ec.
      * subst c. rewrite Hown. unfold join_queue. destruct (turn_priority turn) eqn:Ep; cbn.
        -- split; [rewrite P, <-app_assoc; by rewrite (Permutation_app_comm _ [turn])|].
           unfold normals in *. rewrite filter_app, N. cbn. rewrite ?decide_False by congruence. by rewrite app_nil_r.
        -- split; [by rewrite P, app_assoc|]. unfold normals in *.
           rewrite !filter_app, N. by rewrite app_assoc.
      * rewrite app_nil_r, Hother by done. by split.
    + unfold normals. rewrite filter_app. by apply prefix_app_r.
    + by apply submseteq_inserts_r.
  - rewrite Hst, Hadm', Hl. destruct (IH1 Hn) as [P N]. case_bool_decide as Ec.
    + subst c. rewrite Hown in P, N. split; [|split].
      * intros _. split; [by rewrite P, <-app_assoc|]. unfold normals in *. rewrite N, filter_app, <-app_assoc.
        f_equal. exact (filter_app _ [turn] _).
      * rewrite N. unfold normals. rewrite filter_app. apply prefix_app. eexists. exact (filter_app _ [turn] _).
      * rewrite P. apply submseteq_app; [done|]. apply (submseteq_inserts_r _ [turn] [turn]). done.
    + rewrite app_nil_r, Hother by done. by split.
  - destruct Hint as [-> ->]. rewrite Hl. split; [|done]. intros Hnone. destruct Hend as [[x Hx]|Hempty]; [congruence|].
    destruct (IH1 Hnone). destruct (decide (c = c')) as [->|]; [by rewrite Hown, <-Hempty|by rewrite Hother].
  - destruct Hint as [-> ->]. split; [|done]. rewrite Hitems. intros Hnone. apply IH1.
    destruct Hl as [Hl|[x Hl]]; congruence.
Qed.

(** C21: what happens to the turns of a conversation: until the lifecycle is cancelled, every
    admitted turn has either been started, exactly once, or waits in the queue; the
    ordinary turns start in the order in which they were admitted, and at any moment
    those started are the first of those admitted; no turn is ever started twice or out of
    order; and once the lifecycle has been cancelled, nothing is started any more. *)
Theorem turns_start_in_order (ls : list label) s c :
  execution start ls s ->
  (s.(lifecycle) = None ->
     admitted c ls ≡ₚ begun c ls ++ items_of s c
     /\ normals (admitted c ls) = normals (begun c ls) ++ normals (items_of s c))
  /\ normals (begun c ls) `prefix_of` normals (admitted c ls)
  /\ begun c ls ⊆+ admitted c ls
  /\ (is_Some s.(lifecycle) -> forall ls' s', execution s ls' s' -> begun c ls' = []).
Proof using Hpending Hconcurrent.
  intros He. destruct (start_order _ _ c He) as (H1 & H2 & H3).
  destruct (execution_facts _ _ He) as (Hok & Hlate & _).
  do 3 (split; [done|]). intros Hover ls' s' He'. by eapply over_starts_nothing.
Qed.
End executions.
End properties.

(** ** Stop commands *)

(** a stop command is never crowded out: when a conversation has a turn running or
    waiting and no other control turn, a control turn is admitted whatever the limits
    say, provided its event is new; it becomes the next turn of its conversation, the
    order of the others unchanged, and the turn that runs, if it was not cancelled
    already, ends as cancelled by the user. *)
Theorem stop_is_never_crowded_out fault now (turn : scheduledTurn) s (p : nat) (q : conversationQueue) :
  core_ok s -> s.(accepting) = true -> turn.(turn_priority) = true ->
  s.(queues) !! turn.(turn_conversationID) = Some p -> s.(queue_heap) !! p = Some q ->
  q.(controlQueued) = false -> (is_Some q.(currentCancel) \/ q.(items) <> []) ->
  (turn.(turn_retryable) = true
   \/ (ClaimIngress fault now turn.(turn_source) turn.(turn_eventID) now s.(trace)).1 = Ok true) ->
  let s' := (submit_locked fault now turn s).2 in
  (submit_locked fault now turn s).1.(sub_result) = Ok true
  /\ items_of s' turn.(turn_conversationID) = turn :: items_of s turn.(turn_conversationID)
  /\ s'.(pending) = s.(pending) + 1
  /\ forall ctx, q.(currentCancel) = Some ctx -> s.(contexts) !! ctx = Some None ->
       turn_outcome (finish p ctx s').1 = (TraceTurnCancelled, "user_cancelled").
Proof.
  intros Hco Ha Hp Hc Hq Hf Hbusy Hnew.
  assert (Hby : priorityBypass turn (Some q) = true).
  { unfold priorityBypass. rewrite Hp, Hf, andb_true_r. cbn.
    destruct Hbusy as [Hb|Hb]; [by rewrite bool_decide_true|].
    apply orb_true_iff. right. apply Z.ltb_lt. destruct (items q); [done|cbn; lia]. }
  assert (Hsub : exists db, submit_locked fault now turn s = enqueue_turn turn now (s <| trace := db |>)).
  { unfold submit_locked. rewrite Ha, Hc. cbn. rewrite Hq. cbn [from_option]. rewrite Hby. cbn [negb].
    rewrite !andb_false_r. destruct (turn_retryable turn) eqn:Er.
    - exists s.(trace). by destruct s.
    - destruct Hnew as [|Hn]; [done|]. destruct (ClaimIngress _ _ _ _ _ _) as [r db]. cbn in Hn. subst r.
      by exists db. }
  destruct Hsub as [db ->]. destruct (co_known _ Hco _ _ Hc) as (q0 & Hq0 & Hr & _).
  assert (q0 = q) as -> by congruence.
  match goal with |- context [enqueue_turn turn now ?x] => set (s1 := x) end.
  destruct (enqueue_existing turn now s1 p q Hc Hq Hr) as (tr & ->). cbn [fst snd].
  destruct (stop_current_same turn q s1) as (_ & S2 & S3 & _).
  assert (Hj : items (join_queue turn q) = turn :: items q) by (unfold join_queue; by rewrite Hp).
  split; [done|split; [|split]].
  - rewrite (items_of_known s _ p q) by done. rewrite (items_of_known _ _ p (join_queue turn q)); [done| |].
    + cbn. by rewrite S2.
    + cbn. by rewrite lookup_insert_eq.
  - cbn. by rewrite S3.
  - intros ctx Hctx Hlive. unfold finish, stop_current, FairyScheduler.cancel. rewrite Hp, Hctx. cbn.
    by rewrite lookup_alter_eq, Hlive.
Qed.
