(* ===== verification/FairySchedulerLive.v ===== *)
(** * Draining the scheduler (fairy/scheduler.go)

    Once admission is closed, a measure of the work left decreases with every step of a
    goroutine, and some goroutine can always step; Shutdown returns only when nothing is
    left; the trace store stays in a state its own operations reach.  Then a concrete
    scheduler, at which the theorems on the scheduler are applied. *)
From S2P Require Import Prelude GoLib Types FairyTypes FairyTrace FairyStats FairyTraceFacts.
From S2P Require Import FairyScheduler FairySchedulerFacts FairySchedulerProps Demo.
From stdpp Require Import gmap strings list.
From Stdlib Require Import ZArith.

Local Open Scope Z_scope.
Local Open Scope go_scope.

(** the steps a goroutine has before it, at most *)
Definition weight (g : goroutine) : Z :=
  match g with
  | Submitted _ start => if start then 8 else 1
  | AwaitSlot _ _ => 7
  | Discarding _ _ => 3
  | NextTurn _ _ => 4
  | Starting _ _ _ _ => 8
  | Running _ _ _ _ => 7
  | Finished _ _ _ _ => 6
  | Releasing => 3
  | Leaving => 2
  | Closing => 2
  | Forced => 1
  | Closed _ | Done => 0
  end.
Definition work s : Z := 5 * s.(pending) + sum_of weight s.(goroutines).

Lemma weight_nonneg g : 0 <= weight g.
Proof. destruct g as [? []| | | | | | | | | | | |]; simpl; lia. Qed.

Lemma work_move s s' t g g' :
  s.(goroutines) !! t = Some g -> s'.(goroutines) = <[t := g']> s.(goroutines) ->
  5 * s'.(pending) + weight g' < 5 * s.(pending) + weight g -> work s' < work s.
Proof. intros Ht Hg Hlt. unfold work. rewrite Hg, (sum_of_insert _ _ _ _ _ Ht). lia. Qed.

Section draining.
Context `{Runtime}.

(** a step of a goroutine *)
Definition moves s s' : Prop :=
  exists t g g', s.(goroutines) !! t = Some g /\ g <> g' /\ s'.(goroutines) = <[t := g']> s.(goroutines).

Lemma not_admitted fault now turn s sub s' :
  s.(accepting) = false -> submit_locked fault now turn s = (sub, s') ->
  s' = s /\ sub_trace sub = None /\ sub_result sub <> Ok true.
Proof. unfold submit_locked. intros ->. by intros [= <- <-]. Qed.

(** what a step does once admission is closed *)
Lemma closed_step s l s' :
  sched_ok s -> s.(accepting) = false -> sched_step s l s' ->
  s'.(accepting) = false
  /\ ((moves s s' /\ work s' < work s /\ s'.(wait) <= s.(wait))
      \/ (s'.(goroutines) = s.(goroutines) /\ s'.(pending) = s.(pending) /\ s'.(wait) = s.(wait)
          /\ l = Internal)
      \/ (s'.(goroutines) = s.(goroutines) ++ [Closing] /\ s'.(pending) = s.(pending)
          /\ s'.(wait) = s.(wait) /\ l = Internal)).
Proof.
  intros [Hco Hao] Ha Hs.
  assert (Hmove : forall t g g' s', s.(goroutines) !! t = Some g -> g <> g' ->
    s'.(goroutines) = <[t := g']> s.(goroutines) ->
    5 * s'.(pending) + weight g' < 5 * s.(pending) + weight g -> s'.(wait) <= s.(wait) ->
    moves s s' /\ work s' < work s /\ s'.(wait) <= s.(wait)).
  { intros t g g' s0 Ht Hn Hg Hw Hwait. split; [by exists t, g, g'|split; [|done]]. by eapply work_move. }
  destruct Hs as [fault now turn0 draw1 draw2 turn sub s s' Hprep Hsub|t event start fault now s Ht
    |t c p s Ht Hfree|t c p s Ht Hlife|t c p s Ht|t c p turn ctx s s' Ht Hnext|t c p s s' Ht Hnext
    |t c p turn ctx fault now s Ht|ctx s|t c p turn ctx cause s s' Ht Hfin|t c p turn cause fault now s Ht
    |t s Ht|t s Ht|conversationID cause b s s' Hcancel|s|t s Ht Hw|t s Ht|t s Ht Hw];
    try (split; [exact Ha|left; eapply Hmove; [exact Ht| |reflexivity|..]; cbn; done || lia]).
  - destruct (not_admitted _ _ _ _ _ _ Ha Hsub) as (-> & Htr & Hr). rewrite bool_decide_false by done.
    unfold after_submit. rewrite Htr. split; [done|]. right; left. done.
  - split; [exact Ha|left; eapply Hmove; [exact Ht| |reflexivity|..]; destruct start as [[c p]|]; cbn; done || lia].
  - pose proof (ao_registered _ Hao _ _ _ _ Ht eq_refl) as Hreg.
    destruct (co_known _ Hco _ _ Hreg) as (q & Hq & _).
    destruct (nextTurn_cases c p s q _ _ Hq Hnext) as (rest & _ & _ & _ & ->).
    split; [exact Ha|left; eapply Hmove; [exact Ht| |reflexivity|..]; cbn; done || lia].
  - pose proof (ao_registered _ Hao _ _ _ _ Ht eq_refl) as Hreg.
    destruct (co_known _ Hco _ _ Hreg) as (q & Hq & _).
    destruct (nextTurn_cases c p s q _ _ Hq Hnext) as [_ ->].
    split; [exact Ha|left; eapply Hmove; [exact Ht| |reflexivity|..]; cbn; done || lia].
  - split; [done|]. right; left. done.
  - injection Hfin as _ <-. split; [exact Ha|left; eapply Hmove; [exact Ht| |reflexivity|..]; cbn; done || lia].
  - unfold FairyScheduler.Cancel in Hcancel. split; [|right; left];
      destruct (s.(queues) !! conversationID); try (by simplify_eq);
      destruct (currentCancel _); by simplify_eq.
  - split; [done|]. right; right. done.
  - split; [unfold cancelLifecycle; by destruct (lifecycle s)|left].
    eapply Hmove; [exact Ht| |unfold cancelLifecycle; by destruct (lifecycle s)|..]; [done|..];
      unfold cancelLifecycle; destruct (lifecycle s); cbn; lia.
Qed.

(** ** Progress *)

Lemma moves_at s t g g' s' :
  s.(goroutines) !! t = Some g -> goroutines s' = <[t := g']> s.(goroutines) -> g <> g' -> moves s s'.
Proof. intros. by exists t, g, g'. Qed.

Lemma nextTurn_goroutines c p s r s' : nextTurn c p s = (r, s') -> s'.(goroutines) = s.(goroutines).
Proof. unfold nextTurn. destruct (lifecycle s); [|destruct (items _)]; by intros [= _ <-]. Qed.

(** a goroutine that holds a slot can step *)
Lemma slot_progress s t g :
  s.(goroutines) !! t = Some g -> has_slot g = true -> exists l s', sched_step s l s' /\ moves s s'.
Proof.
  intros Ht Hs. destruct g as [| | |c p|c p turn ctx|c p turn ctx|c p turn cause| | | | | |]; try done.
  - destruct (nextTurn c p s) as [[[turn ctx]|] s'] eqn:En; pose proof (nextTurn_goroutines _ _ _ _ _ En) as Eg.
    + do 2 eexists. split; [by eapply step_next|]. eapply moves_at; [exact Ht|cbn; by rewrite Eg|done].
    + do 2 eexists. split; [by eapply step_no_next|]. eapply moves_at; [exact Ht|cbn; by rewrite Eg|done].
  - do 2 eexists. split; [by eapply (step_start t c p turn ctx no_faults 0)|]. by eapply moves_at; [exact Ht|reflexivity|].
  - destruct (finish p ctx s) as [cause s'] eqn:Ef. do 2 eexists. split; [by eapply step_finish|].
    injection Ef as _ <-. by eapply moves_at; [exact Ht|reflexivity|].
  - do 2 eexists. split; [by eapply (step_finished t c p turn cause no_faults 0)|]. by eapply moves_at; [exact Ht|reflexivity|].
  - do 2 eexists. split; [by eapply step_release|]. by eapply moves_at; [exact Ht|reflexivity|].
Qed.

(** when some goroutine is counted by the wait group, one can step *)
Lemma alive_progress s t g :
  sched_ok s -> 0 < s.(maxConcurrent) -> s.(goroutines) !! t = Some g -> alive g = true ->
  exists l s', sched_step s l s' /\ moves s s'.
Proof.
  intros [Hco Hao] Hmax Ht Hg. destruct (has_slot g) eqn:Es; [by eapply slot_progress|].
  destruct g as [event start|c p|c p| | | | | | | | | |]; try done.
  - do 2 eexists. split; [by eapply (step_submitted t event start no_faults 0)|].
    eapply moves_at; [exact Ht|done|]. by destruct start as [[c p]|].
  - destruct (Z.lt_ge_cases s.(slots) s.(maxConcurrent)) as [Hfree|Hfull].
    + do 2 eexists. split; [by eapply step_take_slot|]. by eapply moves_at; [exact Ht|reflexivity|].
    + rewrite (ao_slots _ Hao) in Hfull.
      assert (0 < count has_slot s.(goroutines)) as (t' & g' & Ht' & Hg')%count_pos by lia.
      by eapply slot_progress.
  - do 2 eexists. split; [by eapply step_discard|]. by eapply moves_at; [exact Ht|reflexivity|].
  - do 2 eexists. split; [by eapply step_leave|]. by eapply moves_at; [exact Ht|reflexivity|].
Qed.

(** such a step does some of the work *)
Lemma moves_work s l s' :
  sched_ok s -> s.(accepting) = false -> sched_step s l s' -> moves s s' -> work s' < work s.
Proof.
  intros Hok Ha Hs (t & g & g' & Ht & Hn & Hg).
  destruct (closed_step _ _ _ Hok Ha Hs) as [_ [(_ & Hw & _)|[(Hg' & _)|(Hg' & _)]]]; [done|exfalso..].
  - apply Hn. assert (Hl : <[t := g']> (goroutines s) !! t = Some g) by by rewrite <-Hg, Hg'.
    rewrite list_lookup_insert_eq in Hl by by eapply lookup_lt_Some. congruence.
  - rewrite Hg in Hg'. apply (f_equal length) in Hg'. rewrite length_insert, length_app in Hg'. simpl in Hg'. lia.
Qed.

Lemma work_nonneg s : sched_ok s -> 0 <= work s.
Proof.
  intros [Hco _]. unfold work. rewrite (co_pending _ Hco).
  pose proof (map_total_nonneg (fun _ q => queued q) s.(queue_heap) ltac:(intros; apply queued_nonneg)).
  pose proof (sum_of_nonneg weight s.(goroutines) ltac:(intros; apply weight_nonneg)). lia.
Qed.

(** nothing is left to do *)
Definition drained s : Prop :=
  s.(pending) = 0 /\ s.(queues) = ∅ /\ s.(slots) = 0 /\ s.(wait) = 0
  /\ Forall (fun g => g = Done \/ exists b, g = Closed b) s.(goroutines).

Lemma idle_wait s :
  sched_ok s -> s.(wait) = 0 -> s.(pending) = 0 /\ s.(queues) = ∅ /\ s.(slots) = 0
    /\ forall t g, s.(goroutines) !! t = Some g -> alive g = false.
Proof.
  intros [Hco Hao] Hw.
  assert (Hdead : forall t g, s.(goroutines) !! t = Some g -> alive g = false).
  { intros t g Ht. destruct (alive g) eqn:Eg; [exfalso|done].
    assert (0 < count alive s.(goroutines)) by (apply count_pos; eauto).
    rewrite (ao_wait _ Hao) in Hw. lia. }
  assert (Hq : s.(queues) = ∅).
  { apply map_empty. intros c. destruct (s.(queues) !! c) as [p|] eqn:Ec; [exfalso|done].
    assert (0 < count (serves p) s.(goroutines)) as (t & g & Ht & [c' Ha]%serves_actor)%count_pos
      by (rewrite (ao_served _ Hao _ _ Ec); lia).
    specialize (Hdead _ _ Ht). destruct g; simpl in *; try done. by rewrite Ha in Hdead. }
  split; [|split; [done|split; [|done]]].
  - rewrite (co_pending _ Hco), (map_total_ext _ (fun _ _ => 0)), map_total_to_list.
    + by induction (map_to_list _) as [|[? ?] l IH]; simpl.
    + intros p q Hp. unfold queued. rewrite (co_dead _ Hco _ _ Hp); [done|]. intros c. by rewrite Hq, lookup_empty.
  - rewrite (ao_slots _ Hao). destruct (Z.eq_dec (count has_slot s.(goroutines)) 0) as [|Hn]; [done|exfalso].
    pose proof (count_nonneg has_slot s.(goroutines)).
    assert (0 < count has_slot s.(goroutines)) as (t & g & Ht & Hg)%count_pos by lia.
    specialize (Hdead _ _ Ht). by destruct g.
Qed.

Lemma drain_progress s :
  sched_ok s -> 0 < s.(maxConcurrent) -> drained s \/ exists l s', sched_step s l s' /\ moves s s'.
Proof.
  intros Hok Hmax. destruct (Z.eq_dec s.(wait) 0) as [Hw|Hw].
  - destruct (idle_wait s Hok Hw) as (Hp & Hq & Hsl & Hdead).
    destruct (decide (Exists (fun g => weight g <> 0) s.(goroutines))) as [He|He].
    + right. apply Exists_exists in He as (g & [t Ht]%list_elem_of_lookup & Hg). specialize (Hdead _ _ Ht).
      destruct g as [event start| | | | | | | | | | | |]; try done.
      * do 2 eexists. split; [by eapply (step_submitted t event start no_faults 0)|].
        eapply moves_at; [exact Ht|done|]. by destruct start as [[c p]|].
      * do 2 eexists. split; [by eapply step_drained|]. by eapply moves_at; [exact Ht|reflexivity|].
      * do 2 eexists. split; [by eapply step_forced|]. by eapply moves_at; [exact Ht|reflexivity|].
    + left. split; [done|split; [done|split; [done|split; [done|]]]]. apply not_Exists_Forall in He; [|apply _].
      apply (Forall_impl _ _ _ He). intros g Hg. apply dec_stable in Hg.
      destruct g as [? []| | | | | | | | | | |b|]; simpl in Hg; try lia; eauto.
  - right. destruct Hok as [Hco Hao].
    assert (0 < count alive s.(goroutines)) as (t & g & Ht & Hg)%count_pos.
    { rewrite <-(ao_wait _ Hao). pose proof (ao_wait _ Hao). pose proof (count_nonneg alive s.(goroutines)). lia. }
    by eapply alive_progress.
Qed.
End draining.

Section executions.
Context `{Runtime}.
Context (MaxPending MaxConversationPending MaxConcurrent : Z) (db : TraceDB).
Context (Hpending : 0 <= MaxPending) (Hconcurrent : 1 <= MaxConcurrent).
Notation initial := (NewConversationScheduler MaxPending MaxConversationPending MaxConcurrent db).

Lemma execution_invariant ls s : execution initial ls s -> sched_ok s /\ s.(maxConcurrent) = MaxConcurrent.
Proof using Hpending Hconcurrent.
  intros He. destruct (execution_facts MaxPending MaxConversationPending MaxConcurrent db Hpending
    ltac:(lia) ls s He) as (Hok & _ & _ & _ & Hm). by split.
Qed.

Lemma execution_app s0 ls s ls' s' : execution s0 ls s -> execution s ls' s' -> execution s0 (ls ++ ls') s'.
Proof.
  intros He. induction 1 as [|ls' l s1 s' _ IH Hs]; [by rewrite app_nil_r|].
  rewrite app_assoc. by eapply exec_step.
Qed.

(** C24: the scheduler drains: once admission is closed, whatever the order of the
    goroutines, every step of one of them decreases the work left, every other event (a
    refused turn, a timeout, a Cancel, another Shutdown) admits and starts nothing and
    adds no work to the queues, and as long as the scheduler is not drained some
    goroutine can step; so from every reachable state a drained one, with no turn
    waiting or running and nobody waiting for a slot, is reached. *)
Theorem scheduler_drains (ls : list label) s :
  execution initial ls s -> s.(accepting) = false ->
  (forall l s', sched_step s l s' -> s'.(accepting) = false
     /\ (work s' < work s
         \/ l = Internal /\ s'.(pending) = s.(pending) /\ s'.(wait) = s.(wait)
            /\ (s'.(goroutines) = s.(goroutines) \/ s'.(goroutines) = s.(goroutines) ++ [Closing])))
  /\ (drained s \/ exists l s', sched_step s l s' /\ work s' < work s)
  /\ exists ls' s', execution initial (ls ++ ls') s' /\ drained s' /\ Z.of_nat (length ls') <= work s.
Proof using Hpending Hconcurrent.
  intros He Ha. split; [|split].
  - intros l s' Hs. destruct (execution_invariant _ _ He) as [Hok _].
    destruct (closed_step _ _ _ Hok Ha Hs) as [Ha' [(_ & Hw & _)|[(Hg & Hp & Hw & Hl)|(Hg & Hp & Hw & Hl)]]];
      (split; [done|]); [by left|right; auto..].
  - destruct (execution_invariant _ _ He) as [Hok Hm].
    destruct (drain_progress s Hok ltac:(lia)) as [Hd|(l & s' & Hs & Hmv)]; [by left|right].
    exists l, s'. split; [done|]. by eapply moves_work.
  - remember (Z.to_nat (work s)) as n eqn:En. revert ls s He Ha En.
    induction n as [n IH] using lt_wf_ind. intros ls s He Ha ->.
    destruct (execution_invariant _ _ He) as [Hok Hm].
    pose proof (work_nonneg _ Hok).
    destruct (drain_progress s Hok ltac:(lia)) as [Hd|(l & s' & Hs & Hmv)].
    + exists [], s. rewrite app_nil_r. split; [done|split; [done|simpl; lia]].
    + pose proof (moves_work _ _ _ Hok Ha Hs Hmv) as Hlt.
      destruct (closed_step _ _ _ Hok Ha Hs) as [Ha' _].
      assert (He' : execution initial (ls ++ [l]) s') by by eapply exec_step.
      destruct (execution_invariant _ _ He') as [Hok' _]. pose proof (work_nonneg _ Hok').
      destruct (IH (Z.to_nat (work s')) ltac:(lia) (ls ++ [l]) s' He' Ha' eq_refl) as (ls' & s'' & Hls & Hd & Hlen).
      exists (l :: ls'), s''. rewrite <-app_assoc in Hls. split; [done|split; [done|simpl; lia]].
Qed.

(** who is in Shutdown has closed admission, and returned only from an idle scheduler *)
Definition shutdown_ok s : Prop :=
  (forall t g, s.(goroutines) !! t = Some g ->
     match g with
     | Closing => s.(accepting) = false
     | Forced => s.(accepting) = false /\ is_Some s.(lifecycle)
     | Closed b => s.(accepting) = false /\ s.(wait) = 0 /\ (b = true -> is_Some s.(lifecycle))
     | _ => True
     end)
  /\ (forall cause, s.(lifecycle) = Some cause -> cause = ErrSchedulerShuttingDown).

Lemma step_lifecycle s l s' :
  sched_step s l s' -> s'.(lifecycle) = s.(lifecycle) \/ s'.(lifecycle) = Some ErrSchedulerShuttingDown.
Proof using.
  intros Hs. destruct Hs as [fault now turn0 draw1 draw2 turn sub s s' Hprep Hsub|t event start fault now s Ht
    |t c p s Ht Hfree|t c p s Ht Hlife|t c p s Ht|t c p turn ctx s s' Ht Hnext|t c p s s' Ht Hnext
    |t c p turn ctx fault now s Ht|ctx s|t c p turn ctx cause s s' Ht Hfin|t c p turn cause fault now s Ht
    |t s Ht|t s Ht|conversationID cause b s s' Hcancel|s|t s Ht Hw|t s Ht|t s Ht Hw]; try (by left).
  - left. assert (Hl : s'.(lifecycle) = s.(lifecycle)).
    { apply submit_locked_cases in Hsub as [(_ & _ & db' & ->)|(_ & _ & db' & E & _)]; [done|].
      unfold enqueue_turn in E. destruct (queues _ !! _) in E; cbv zeta in E;
        injection E as _ ->; unfold stop_current; repeat case_goal; done. }
    unfold after_submit. by destruct (sub_trace sub).
  - left. unfold nextTurn in Hnext. destruct (lifecycle s) eqn:El; [done|].
    by destruct (items _); simplify_eq.
  - left. unfold nextTurn in Hnext. destruct (lifecycle s) eqn:El; [by simplify_eq|].
    by destruct (items _); simplify_eq.
  - left. by injection Hfin as _ <-.
  - left. unfold FairyScheduler.Cancel in Hcancel. destruct (s.(queues) !! conversationID); [|by simplify_eq].
    by destruct (currentCancel _); simplify_eq.
  - cbn. unfold cancelLifecycle. destruct (lifecycle s) eqn:El; [left; cbn; by rewrite El|by right].
Qed.

Lemma shutdown_step s l s' : sched_ok s -> shutdown_ok s -> sched_step s l s' -> shutdown_ok s'.
Proof using.
  intros Hok [Hg Hl] Hs. pose proof (step_lifecycle _ _ _ Hs) as Hlife. split.
  2:{ intros cause Hc. destruct Hlife as [E|E]; [|congruence]. apply Hl. congruence. }
  assert (Hmono : is_Some s.(lifecycle) -> is_Some s'.(lifecycle)) by (destruct Hlife as [-> | ->]; eauto).
  assert (Hclosed : s.(accepting) = false -> s'.(accepting) = false).
  { intros Ha. by destruct (closed_step _ _ _ Hok Ha Hs). }
  assert (Hwait : s.(accepting) = false -> s.(wait) = 0 -> s'.(wait) = 0).
  { intros Ha Hw. assert (Hle : s'.(wait) <= s.(wait)).
    { destruct (closed_step _ _ _ Hok Ha Hs) as [_ [(_ & _ & Hle)|[(_ & _ & Hle & _)|(_ & _ & Hle & _)]]]; lia. }
    destruct (step_ok _ _ _ Hok Hs) as [_ Hao']. rewrite (ao_wait _ Hao') in *.
    pose proof (count_nonneg alive s'.(goroutines)). lia. }
  assert (Hold : forall t g, s.(goroutines) !! t = Some g ->
     match g with
     | Closing => s'.(accepting) = false
     | Forced => s'.(accepting) = false /\ is_Some s'.(lifecycle)
     | Closed b => s'.(accepting) = false /\ s'.(wait) = 0 /\ (b = true -> is_Some s'.(lifecycle))
     | _ => True
     end).
  { intros t g Ht. specialize (Hg t g Ht). destruct g; intuition. }
  intros t g Ht.
  destruct (step_goroutines _ _ _ Hs) as [E|[(event & start & E & _)|[[E Ha']|(t0 & g0 & g' & Ht0 & E & _ & Hc & Hf & Hn)]]];
    rewrite E in Ht.
  - by eapply Hold.
  - apply lookup_spawn in Ht as [Ht| ->]; [by eapply Hold|done].
  - apply lookup_spawn in Ht as [Ht| ->]; [by eapply Hold|done].
  - apply lookup_at in Ht as [Ht| ->]; [by eapply Hold|]. specialize (Hg t0 g0 Ht0). destruct g' as [| | | | | | | | | | |b|]; try done.
    + destruct (Hf eq_refl) as [-> Hi]. auto.
    + destruct (Hc b eq_refl) as [Hw [[-> ->]| ->]]; [split; [auto|split; [auto|done]]|].
      destruct Hg as [Ha Hi]. auto.
Qed.

(** Shutdown returns only from an idle scheduler: once a call has returned, no turn
    waits or runs and no actor is left, admission stays closed, every later submission
    is refused with ErrSchedulerClosed and changes nothing; and turns are cut off (the
    lifecycle is cancelled) only by a Shutdown whose own context ended, with
    ErrSchedulerShuttingDown as the cause. *)
Theorem shutdown_waits (ls : list label) s (t : nat) (forced : bool) :
  execution initial ls s -> s.(goroutines) !! t = Some (Closed forced) ->
  s.(pending) = 0 /\ s.(queues) = ∅ /\ s.(slots) = 0
  /\ (forall t' g, s.(goroutines) !! t' = Some g -> alive g = false)
  /\ (forced = true -> s.(lifecycle) = Some ErrSchedulerShuttingDown)
  /\ (forall fault now turn, submit_locked fault now turn s
        = (mkSubmission (Err ErrSchedulerClosed) None None, s)).
Proof using Hpending Hconcurrent.
  intros He Ht. destruct (execution_invariant _ _ He) as [Hok _].
  assert (Hsh : shutdown_ok s).
  { clear Ht Hok. induction He as [|ls l s s' He IH Hs].
    - split; [by intros t' g Hg|done].
    - destruct (execution_invariant _ _ He) as [Hok _]. by eapply shutdown_step. }
  destruct Hsh as [Hg Hl]. destruct (Hg _ _ Ht) as (Ha & Hw & Hf).
  destruct (idle_wait s Hok Hw) as (Hp & Hq & Hsl & Hdead). do 4 (split; [done|]). split.
  - intros Hb. destruct (Hf Hb) as [cause Hc]. rewrite Hc. f_equal. by apply Hl.
  - intros fault now turn. unfold submit_locked. by rewrite Ha.
Qed.
End executions.

(** ** The trace the scheduler leaves *)

Section traces.
Context `{Runtime}.

Definition pending_traces_ok s : Prop :=
  forall t event start, s.(goroutines) !! t = Some (Submitted event start) -> well_marked event.

Lemma trace_of_marked turn now type status depth n :
  (type = TraceAdmissionRejected -> status ∈ ["global_pending_limit"; "conversation_pending_limit"]) ->
  type <> TraceTurnTimedOut -> well_marked (trace_of turn now type status depth n).
Proof. by split. Qed.

Lemma submit_traces fault now turn s sub s' :
  submit_locked fault now turn s = (sub, s') ->
  (forall event, sub.(sub_trace) = Some event -> well_marked event)
  /\ s'.(goroutines) = s.(goroutines)
  /\ (s'.(trace) = s.(trace)
      \/ exists r, ClaimIngress fault now turn.(turn_source) turn.(turn_eventID) now s.(trace) = (r, s'.(trace))).
Proof.
  assert (Henq : forall s sub s', enqueue_turn turn now s = (sub, s') ->
    (forall event, sub.(sub_trace) = Some event -> well_marked event)
    /\ s'.(goroutines) = s.(goroutines) /\ s'.(trace) = s.(trace)).
  { intros s0 sub0 s0' E. unfold enqueue_turn in E. destruct (queues _ !! _) in E; cbv zeta in E;
      injection E as <- <-; (split; [intros ? [= <-]; by apply trace_of_marked|]);
      unfold stop_current; repeat case_goal; done. }
  unfold submit_locked. destruct (accepting s); cbn [negb]; [|intros [= <- <-]; split; [done|auto]]. cbv zeta.
  destruct (_ && negb (priorityBypass turn _)); [intros [= <- <-]; split; [intros ? [= <-]; apply trace_of_marked; [set_solver|done]|auto]|].
  destruct (_ && negb (priorityBypass turn _)); [intros [= <- <-]; split; [intros ? [= <-]; apply trace_of_marked; [set_solver|done]|auto]|].
  destruct (turn_retryable turn); [intros (H1 & H2 & H3)%Henq; auto|].
  destruct (ClaimIngress _ _ _ _ _ _) as [[[|]|err] db] eqn:Ecl.
  - intros (H1 & H2 & H3)%Henq. rewrite H3. split; [done|split; [done|right; by eexists]].
  - intros [= <- <-]. split; [intros ? [= <-]; by apply trace_of_marked|split; [done|right; by eexists]].
  - intros [= <- <-]. split; [done|split; [done|right; by eexists]].
Qed.

Lemma append_reachable fault now event s :
  well_marked event -> trace_reachable s.(trace) -> trace_reachable (append_trace fault now event s).(trace).
Proof.
  intros Hm Hr. eapply traces_op; [exact Hr|]. eapply op_append; [exact Hm|]. apply surjective_pairing.
Qed.

Lemma traces_step s l s' :
  pending_traces_ok s -> trace_reachable s.(trace) -> sched_step s l s' ->
  pending_traces_ok s' /\ trace_reachable s'.(trace).
Proof.
  intros Hok Hr Hs.
  assert (Hat : forall t g s0, goroutines s0 = goroutines s -> (forall e st, g <> Submitted e st) ->
    pending_traces_ok (at_goroutine t g s0)).
  { intros t g s0 Hg Hn t' e st Ht'. cbn in Ht'. rewrite Hg in Ht'.
    apply lookup_at in Ht' as [Ht'|E]; [by eapply Hok|by destruct (Hn e st)]. }
  assert (Hsame : forall s0, goroutines s0 = goroutines s -> pending_traces_ok s0)
    by (intros s0 Hg t e st; rewrite Hg; apply Hok).
  destruct Hs as [fault now turn0 draw1 draw2 turn sub s s' Hprep Hsub|t event start fault now s Ht
    |t c p s Ht Hfree|t c p s Ht Hlife|t c p s Ht|t c p turn ctx s s' Ht Hnext|t c p s s' Ht Hnext
    |t c p turn ctx fault now s Ht|ctx s|t c p turn ctx cause s s' Ht Hfin|t c p turn cause fault now s Ht
    |t s Ht|t s Ht|conversationID cause b s s' Hcancel|s|t s Ht Hw|t s Ht|t s Ht Hw];
    try (split; [by apply Hat|done]); try (split; [by apply Hsame|done]).
  - destruct (submit_traces _ _ _ _ _ _ Hsub) as (Hm & Hg & Htr).
    assert (Hr' : trace_reachable s'.(trace)).
    { destruct Htr as [->|[r E]]; [done|]. eapply traces_op; [exact Hr|]. by eapply op_claim. }
    unfold after_submit. destruct (sub_trace sub) as [event|]; [|split; [by apply Hsame|done]].
    split; [|done]. intros t e st Ht. cbn in Ht. rewrite Hg in Ht.
    apply lookup_spawn in Ht as [Ht|E]; [by eapply Hok|]. injection E as -> _. by apply Hm.
  - split; [|apply append_reachable; [by eapply Hok|done]]. apply Hat; [done|]. by destruct start as [[c p]|].
  - split; [apply Hat; [by eapply nextTurn_goroutines|done]|]. unfold nextTurn in Hnext.
    destruct (lifecycle s); [done|]. by destruct (items _); simplify_eq.
  - split; [apply Hat; [by eapply nextTurn_goroutines|done]|]. unfold nextTurn in Hnext.
    destruct (lifecycle s); [by simplify_eq|]. by destruct (items _); simplify_eq.
  - split; [by apply Hat|]. apply (append_reachable fault now); [by split|done].
  - injection Hfin as _ <-. split; [by apply Hat|done].
  - split; [by apply Hat|]. apply (append_reachable fault now); [|done].
    unfold finished_trace, turn_outcome. split; cbn; destruct cause; repeat case_bool_decide; done.
  - unfold FairyScheduler.Cancel in Hcancel. destruct (s.(queues) !! conversationID);
      [|split; [apply Hsame; by simplify_eq|by simplify_eq]].
    destruct (currentCancel _); (split; [apply Hsame|]; by simplify_eq).
  - split; [|done]. intros t e st Ht. cbn in Ht. by apply lookup_spawn in Ht as [Ht|E]; [eapply Hok|].
  - unfold cancelLifecycle. destruct (lifecycle s); (split; [by apply Hat|done]).
Qed.

(** the scheduler and the trace store compose: whatever the turns, the limits, the
    faults of the disk and the order of the goroutines, the trace database stays in a
    state that the store's own operations reach from an empty one, so that what is
    proved of all those states (consistent statistics, exclusive claims, counted votes)
    holds of the database of a running scheduler. *)
Theorem scheduler_traces_reachable MaxPending MaxConversationPending MaxConcurrent (db : TraceDB)
    (ls : list label) s :
  trace_reachable db ->
  execution (NewConversationScheduler MaxPending MaxConversationPending MaxConcurrent db) ls s ->
  trace_reachable s.(trace).
Proof.
  intros Hdb He. assert (Hinv : pending_traces_ok s /\ trace_reachable s.(trace)); [|by apply Hinv].
  induction He as [|ls l s s' _ [IH1 IH2] Hs]; [by split; [intros t e st Ht|]|by eapply traces_step].
Qed.
End traces.

(** ** A concrete scheduler

    [play] runs the scheduler deterministically: submissions, steps of chosen goroutines,
    calls of Shutdown.  What it computes is an execution, and the theorems on the
    scheduler are applied at its results. *)

Inductive move := Submit (turn : scheduledTurn) | Advance (t : nat) | BeginShutdown | Force (t : nat).

Section play.
Context `{Runtime}.

Definition advance (t : nat) s : list label * ConversationScheduler :=
  match s.(goroutines) !! t with
  | Some (Submitted event start) =>
      ([Internal], at_goroutine t (match start with Some (c, p) => AwaitSlot c p | None => Done end)
                     (append_trace no_faults demo_epoch event s))
  | Some (AwaitSlot c p) =>
      if decide (s.(slots) < s.(maxConcurrent))
      then ([Internal], at_goroutine t (NextTurn c p) (s <| slots ::= Z.succ |>)) else ([], s)
  | Some (NextTurn c p) =>
      match nextTurn c p s with
      | (Some (turn, ctx), s') => ([Started turn], at_goroutine t (Starting c p turn ctx) s')
      | (None, s') => ([Internal], at_goroutine t Releasing s')
      end
  | Some (Starting c p turn ctx) =>
      ([Internal], at_goroutine t (Running c p turn ctx)
                     (append_trace no_faults demo_epoch (started_trace demo_epoch turn) s))
  | Some (Running c p turn ctx) =>
      ([Internal], at_goroutine t (Finished c p turn (finish p ctx s).1) (finish p ctx s).2)
  | Some (Finished c p turn cause) =>
      ([Internal], at_goroutine t (NextTurn c p)
                     (append_trace no_faults demo_epoch (finished_trace demo_epoch turn cause) s))
  | Some Releasing => ([Internal], at_goroutine t Leaving (s <| slots ::= Z.pred |>))
  | Some Leaving => ([Internal], at_goroutine t Done (s <| wait ::= Z.pred |>))
  | Some Closing =>
      if decide (s.(wait) = 0) then ([Internal], at_goroutine t (Closed false) s) else ([], s)
  | Some Forced =>
      if decide (s.(wait) = 0) then ([Internal], at_goroutine t (Closed true) s) else ([], s)
  | _ => ([], s)
  end.

Definition step_of (m : move) s : list label * ConversationScheduler :=
  match m with
  | Submit turn0 =>
      match prepare_turn (Some "0123456789abcdef") (Some "fedcba9876543210") turn0 with
      | Err _ => ([], s)
      | Ok turn =>
          let r := submit_locked no_faults demo_epoch turn s in
          ([if bool_decide (r.1.(sub_result) = Ok true) then Accepted turn else Internal], after_submit r.1 r.2)
      end
  | Advance t => advance t s
  | BeginShutdown => ([Internal], spawn Closing (CloseAdmission s))
  | Force t =>
      match s.(goroutines) !! t with
      | Some Closing => ([Internal], at_goroutine t Forced (cancelLifecycle ErrSchedulerShuttingDown s))
      | _ => ([], s)
      end
  end.

Definition play (ms : list move) s : ConversationScheduler :=
  foldl (fun s m => (step_of m s).2) s ms.
Fixpoint shown (ms : list move) s : list label :=
  match ms with [] => [] | m :: ms => (step_of m s).1 ++ shown ms (step_of m s).2 end.

Lemma step_of_ok m s : execution s (step_of m s).1 (step_of m s).2.
Proof.
  assert (H1 : forall l s', sched_step s l s' -> execution s [l] s')
    by (intros l s' Hs; by apply (exec_step s [] l s s'); [apply exec_nil|]).
  assert (H0 : execution s [] s) by apply exec_nil.
  destruct m as [turn0|t| |t]; simpl.
  - destruct (prepare_turn _ _ turn0) as [turn|err] eqn:Ep; [|done]. apply H1.
    eapply step_submit; [exact Ep|apply surjective_pairing].
  - unfold advance. destruct (goroutines s !! t) as [g|] eqn:Et; [|done].
    destruct g as [event start|c p|c p|c p|c p turn ctx|c p turn ctx|c p turn cause| | | | | |]; try done.
    + apply H1. by eapply step_submitted.
    + destruct (decide _); [|done]. apply H1. by eapply step_take_slot.
    + destruct (nextTurn c p s) as [[[turn ctx]|] s'] eqn:En; apply H1; by econstructor.
    + apply H1. by eapply step_start.
    + apply H1. eapply step_finish; [done|apply surjective_pairing].
    + apply H1. by eapply step_finished.
    + apply H1. by eapply step_release.
    + apply H1. by eapply step_leave.
    + destruct (decide _); [|done]. apply H1. by eapply step_drained.
    + destruct (decide _); [|done]. apply H1. by eapply step_forced.
  - apply H1, step_shutdown.
  - destruct (goroutines s !! t) as [[]|] eqn:Et; try done. apply H1. by eapply step_force.
Qed.

Lemma play_ok ms s : execution s (shown ms s) (play ms s).
Proof.
  revert s. induction ms as [|m ms IH]; intros s; [apply exec_nil|].
  eapply execution_app; [apply step_of_ok|apply IH].
Qed.
End play.

Notation demo_play := (play (H := demo_runtime)).
Notation demo_shown := (shown (H := demo_runtime)).

(** one turn at a time in the whole, one waiting per conversation *)
Definition demo_scheduler : ConversationScheduler := NewConversationScheduler 2 1 1 (empty_trace_db "key").
Definition demo_turn (eventID conversationID : string) (control : bool) : scheduledTurn :=
  mkTurn "zzz-message" eventID conversationID control false (Some 0%nat) "" "".
(** a turn of conversation [g1] runs and another one waits *)
Definition demo_running : list move :=
  [Submit (demo_turn "e1" "g1" false); Advance 0; Advance 0; Advance 0; Advance 0;
   Submit (demo_turn "e2" "g1" false)].
Definition demo_busy : ConversationScheduler := demo_play demo_running demo_scheduler.
(** then a stop command jumps the queue, and Shutdown is called *)
Definition demo_stop : scheduledTurn := demo_turn "e3" "g1" true.
Definition demo_closing_moves : list move := demo_running ++ [Submit demo_stop; BeginShutdown].
Definition demo_closing : ConversationScheduler := demo_play demo_closing_moves demo_scheduler.
(** everything is drained, and Shutdown returns *)
Definition demo_closed_moves : list move :=
  demo_closing_moves ++ repeat (Advance 0) 15 ++ [Advance 1; Advance 2; Advance 3].
Definition demo_closed : ConversationScheduler := demo_play demo_closed_moves demo_scheduler.

Lemma demo_execution ms : execution (H := demo_runtime) demo_scheduler (demo_shown ms demo_scheduler)
  (demo_play ms demo_scheduler).
Proof. apply play_ok. Qed.
Lemma demo_busy_ok : execution (H := demo_runtime) demo_scheduler (demo_shown demo_running demo_scheduler) demo_busy.
Proof. unfold demo_busy. apply demo_execution. Qed.
Lemma demo_closing_ok :
  execution (H := demo_runtime) demo_scheduler (demo_shown demo_closing_moves demo_scheduler) demo_closing.
Proof. unfold demo_closing. apply demo_execution. Qed.
Lemma demo_closed_ok :
  execution (H := demo_runtime) demo_scheduler (demo_shown demo_closed_moves demo_scheduler) demo_closed.
Proof. unfold demo_closed. apply demo_execution. Qed.

Lemma scheduler_bounds_witness :
  demo_closing.(pending) = 2 /\ 2 <= 2 + map_total (fun _ q => b2z (flagged q)) demo_closing.(queue_heap).
Proof.
  destruct (scheduler_bounds (H := demo_runtime) 2 1 1 (empty_trace_db "key") ltac:(lia) ltac:(lia) _ _
    demo_closing_ok) as (_ & [_ Hlim] & _).
  assert (Hp : demo_closing.(pending) = 2) by (vm_compute; reflexivity).
  rewrite Hp in Hlim. exact (conj Hp Hlim).
Defined.

(** the stop command is admitted while a turn of its conversation runs *)
Lemma demo_stop_admitted : exists p turn ctx sub s',
  demo_busy.(goroutines) !! 0%nat = Some (Running "g1" p turn ctx)
  /\ submit_locked no_faults demo_epoch demo_stop demo_busy = (sub, s')
  /\ demo_stop.(turn_conversationID) = "g1"
  /\ demo_stop.(turn_priority) && bool_decide (sub.(sub_result) = Ok true) = true.
Proof.
  destruct (submit_locked no_faults demo_epoch demo_stop demo_busy) as [sub s'] eqn:E.
  assert (Hg : exists p turn ctx, demo_busy.(goroutines) !! 0%nat = Some (Running "g1" p turn ctx))
    by (do 3 eexists; vm_compute; reflexivity).
  destruct Hg as (p & turn & ctx & Hg). exists p, turn, ctx, sub, s'.
  do 3 (split; [done|]).
  assert (Hr : (submit_locked no_faults demo_epoch demo_stop demo_busy).1.(sub_result) = Ok true)
    by (vm_compute; reflexivity).
  rewrite E in Hr. cbn [fst] in Hr. rewrite Hr. reflexivity.
Qed.

Lemma turns_do_not_overlap_witness :
  (forall t g, demo_busy.(goroutines) !! t = Some g -> runs "g1" g = true -> t = 0%nat)
  /\ exists p turn ctx, demo_busy.(goroutines) !! 0%nat = Some (Running "g1" p turn ctx)
       /\ (submit_locked no_faults demo_epoch demo_stop demo_busy).2.(contexts)
          = (FairyScheduler.cancel ctx ErrTurnStoppedByUser demo_busy).(contexts).
Proof.
  destruct (turns_do_not_overlap (H := demo_runtime) 2 1 1 (empty_trace_db "key") ltac:(lia) ltac:(lia) _ _
    demo_busy_ok) as (Hone & _ & Hstop & _).
  destruct demo_stop_admitted as (p & turn & ctx & sub & s' & Ht & E & Hc & Hb). split.
  - intros t g Hg Hr. refine (Hone t 0%nat g _ "g1" Hg Ht Hr _).
    cbn [runs]. by apply bool_decide_eq_true_2.
  - exists p, turn, ctx. split; [exact Ht|]. rewrite E. cbn [snd].
    pose proof (Hstop 0%nat "g1" p turn ctx no_faults demo_epoch demo_stop sub s' Ht Hc E) as Hctx.
    rewrite Hb in Hctx. exact Hctx.
Defined.

Lemma turns_start_in_order_witness :
  normals (begun "g1" (demo_shown demo_closed_moves demo_scheduler))
    `prefix_of` normals (admitted "g1" (demo_shown demo_closed_moves demo_scheduler))
  /\ (is_Some demo_closed.(lifecycle) -> forall ls s', execution (H := demo_runtime) demo_closed ls s' ->
        begun "g1" ls = []).
Proof.
  destruct (turns_start_in_order (H := demo_runtime) 2 1 1 (empty_trace_db "key")
    ltac:(lia) ltac:(lia) _ _ "g1" demo_closed_ok) as (_ & Hp & _ & Hend).
  split; [exact Hp|exact Hend].
Defined.

Definition demo_queue : conversationQueue := queue_at 0 demo_busy.
Lemma stop_is_never_crowded_out_witness :
  demo_busy.(pending) = 1 /\ (submit_locked no_faults demo_epoch demo_stop demo_busy).2.(pending) = 2
  /\ turn_outcome (finish 0 0 (submit_locked no_faults demo_epoch demo_stop demo_busy).2).1
     = (TraceTurnCancelled, "user_cancelled").
Proof.
  assert (Hok : core_ok demo_busy).
  { refine (proj1 (execution_ok (H := demo_runtime) 2 1 1 (empty_trace_db "key") _ _ _ _
      demo_busy_ok)); lia. }
  assert (Hp : demo_busy.(pending) = 1) by (vm_compute; reflexivity).
  destruct (stop_is_never_crowded_out no_faults demo_epoch demo_stop demo_busy 0 demo_queue Hok)
    as (_ & _ & Hn & Hc); try (vm_compute; reflexivity).
  - left. eexists. vm_compute. reflexivity.
  - right. vm_compute. reflexivity.
  - split; [exact Hp|split; [rewrite Hn, Hp; reflexivity|]]. apply Hc; vm_compute; reflexivity.
Defined.

Lemma scheduler_drains_witness :
  exists ls s, execution (H := demo_runtime) demo_scheduler
    (demo_shown demo_closing_moves demo_scheduler ++ ls) s /\ drained s.
Proof.
  assert (Ha : demo_closing.(accepting) = false) by (vm_compute; reflexivity).
  destruct (scheduler_drains (H := demo_runtime) 2 1 1 (empty_trace_db "key") ltac:(lia) ltac:(lia) _ _
    demo_closing_ok Ha) as (_ & _ & ls & s & He & Hd & _).
  exists ls, s. exact (conj He Hd).
Defined.

Lemma shutdown_waits_witness :
  demo_closed.(pending) = 0 /\ demo_closed.(slots) = 0.
Proof.
  assert (Ht : demo_closed.(goroutines) !! 3%nat = Some (Closed false)) by (vm_compute; reflexivity).
  destruct (shutdown_waits (H := demo_runtime) 2 1 1 (empty_trace_db "key") ltac:(lia) ltac:(lia) _ _ _ _
    demo_closed_ok Ht) as (Hp & _ & Hs & _).
  exact (conj Hp Hs).
Defined.

Lemma scheduler_traces_reachable_witness : trace_reachable (H := demo_runtime) demo_closed.(trace).
Proof.
  exact (scheduler_traces_reachable (H := demo_runtime) 2 1 1 (empty_trace_db "key") _ _
    (traces_empty (H := demo_runtime) "key") demo_closed_ok).
Defined.
